(* ===== verification/_CoqProject ===== *)
-Q . S2P
Prelude.v
Prog.v
Critical.v
Pio.v
PioPins.v
Pmc.v
Clock.v
ClockSpec.v
Genclk.v
Startup.v
Sleep.v
SleepSpec.v
PioHandler.v
Ioport.v
Usart.v
Uart.v
Twi.v
TwiBus.v
FpgaTwi.v
Pbuf.v
Chksum.v
ChksumSpec.v
UdpServer.v
UdpSystem.v
Spi.v
Flash.v
FlashBus.v
FlashStore.v
Text.v
PbufSpec.v
PbufAlloc.v
PbufAllocSpec.v
Xvc.v
XvcProto.v
XvcShift.v
XvcSpec.v
XvcRefine.v
XvcSession.v
XvcState.v
Telnet.v
TelnetSpec.v
Serial.v
SerialSpec.v
Console.v
Emac.v
EmacTx.v
EmacRx.v
Rstc.v
Tc.v
EthPhy.v
EthPhySpec.v
Ethernetif.v
EthernetifSpec.v
Board.v
BoardSpec.v
Identity.v
SysArch.v
SysArchSpec.v
Timers.v
Tcpip.v
TcpipSpec.v
Mem.v
MemSpec.v
MemHeap.v
Network.v
LwipUdp.v
LwipUdpSpec.v
LwipUdpPorts.v
LwipIp.v
LwipIcmp.v
LwipStack.v
LwipIpSpec.v
LwipStackSpec.v
LwipIcmpSpec.v
LwipArp.v
LwipArpSpec.v
LwipArpHistory.v
LwipLan.v
LwipLanSpec.v
UdpService.v
