(* ===== verification/Prelude.v ===== *)
(** * VME-SAM3X firmware: a verification library

    The firmware of the management processor (SAM3X8H, FreeRTOS, lwIP) of a VME
    board: it gives access to the registers of the board's FPGA over UDP,
    telnet and a serial console, drives the FPGA's JTAG port for a remote tool
    (XVC), and keeps the board's MAC address and serial number in a serial flash
    memory.  This library is a shallow embedding of the C sources under src/,
    bottom up from the register accesses of the drivers to the servers, with
    the theorems that make each part correct.

    ** The model of a C function

    Prog.v: a function is a [prog E A], the tree of its calls to an
    environment [E] in program order with a branch for every answer.  The
    environment of a driver is [hw]: reads and writes of 32-bit registers at
    their addresses, buffers handed to the peripheral DMA, task notifications
    and delays.  A higher part runs over a signature or a type class of its own
    and is linked to the part below by [embed] or [interp].  A run that does not
    return ends in a [halt]: [AssertFail] (assert.h), [Hang] (an endless loop
    that the code can enter), [Undefined] (undefined behaviour of C: an access
    outside an array, an uninitialised value that decides a branch, a division
    by zero), or [OutOfFuel].  Integers are [Z] with the conversions of Prelude.v
    ([u8], [u16], [u32], [s32], ...) where C converts; arrays are lists, a store
    outside is [None]; null pointers and values that may be missing are
    [option]; what a local variable holds before it is set is a parameter.

    Theorems about a program against a peripheral are weakest preconditions
    [wp N p Q s]: [N] says what the peripheral lets the program do ([req]) and
    how it may answer ([step]), in general nondeterministically, so that they hold
    for all timings.  [prog_rel] and [peq] compare programs call by call.

    ** The parts

    Drivers (src/src/ASF/sam/drivers, common/services):
    - Pio.v (pio.c), PioPins.v: a port with its registers, outputs come up
      without a glitch, a pin's configuration touches no other pin;
    - PioHandler.v (pio_handler.c): the table of pin interrupts, dispatch;
    - Ioport.v (ioport.h, ioport_pio.h);
    - Pmc.v, Clock.v (pmc.c, osc.h, pll.h, sysclk.c, system_sam3x.c, the NVIC
      functions of core_cm3.h), ClockSpec.v: the clock tree is safe at every
      moment of its start and ends at 84 MHz, unless the switch of the core takes
      longer than the driver waits for it; Genclk.v (genclk.h): the
      programmable clocks; Sleep.v (sleep.c and the low-power modes of pmc.c),
      SleepSpec.v: the wait mode is entered and left within the same limits;
    - Startup.v (startup_sam3x.c, exceptions.c, syscalls.c): the memory that
      [main] finds, the vector table, the heap;
    - Tc.v (tc.c): the timer counters, which the firmware does not call;
    - Twi.v (twi.c), TwiBus.v: what a master transfer puts on the two-wire bus
      and brings back, DMA chunks included; its bounds and its timeouts;
    - Spi.v (spi.c, spi_master.c);
    - Usart.v (usart.c), Uart.v (uart.c, uart_serial.h, usart_serial.c, the C
      library's stream functions read.c and write.c), Console.v: the console of the board
      implements an ideal console; on a line too fast for the receiver, one that
      loses a character when two wait;
    - Emac.v (emac.c, emac.h), EmacTx.v, EmacRx.v: the descriptor rings shared
      with the controller, which acts at any moment once it has been started and
      stops at the end of the ring: frames go out in order, once, and eventually,
      as long as none exceeds its retry limit; frames that come in are gathered
      from their fragments, unless an unfinished one lies before them;
    - EthPhy.v (ethernet_phy.c), EthPhySpec.v: the negotiated link is set;
    - Rstc.v (rstc.c); Critical.v (interrupt_sam_nvic.c): critical sections nest.

    The board's devices (thirdparty/freertos/demo/lwip_sam_example):
    - FpgaTwi.v (fpga_twi.c) over the class [TwoWire], of which Twi.v has the
      instance: the frames of an access, the value it returns, recovery from
      errors;
    - Flash.v (m25p128_spi.c, ext_flash.c), FlashBus.v: a nondeterministic SPI
      controller with an arbitrary device; reads return the device's bytes,
      nothing is programmed without write enable; FlashStore.v: the memory of
      the board behind a controller that is always ready, and what the
      driver's functions do to its contents.

    The network (thirdparty/lwip):
    - Pbuf.v (pbuf.c), PbufSpec.v: chains of packet buffers and the invariant
      their operations keep; PbufAlloc.v, PbufAllocSpec.v: the functions of
      pbuf.c that take and give back memory, over any memory manager;
    - Ethernetif.v (ethernetif.c), EthernetifSpec.v: from the stack's buffers to
      the frames on the wire and back, over Emac.v;
    - SysArch.v (sys_arch.c), SysArchSpec.v: semaphores, mailboxes and threads
      over the queues of FreeRTOS; the interface [KernelLaws] is what the stack
      relies on, what a wait for a message returns;
    - Timers.v (lwip_timers_140.c), Tcpip.v (tcpip.c, init.c), TcpipSpec.v: the
      thread that runs the stack, and its timers: none is early, none is lost;
    - Mem.v (mem.c): the heap, whose list of blocks is in the bytes that it hands
      out; MemSpec.v, what each function does to the blocks; MemHeap.v, the
      allocator that the heap implements for any program that uses it;
    - Chksum.v (inet_chksum.c), ChksumSpec.v: the Internet checksum of RFC 1071,
      whatever the alignment and the pbufs, and what it detects;
    - LwipUdp.v (udp.c), LwipUdpSpec.v: what is sent is delivered, what was
      damaged is not; LwipUdpPorts.v: applications that keep to the rules of the
      interface never make UDP fail, and the ports of the active control blocks
      stay apart;
    - LwipIp.v (ip.c), LwipIcmp.v (icmp.c), and LwipStack.v, where they and
      LwipUdp.v are linked; LwipIpSpec.v: the header, and the way of a packet
      through [ip_input]; LwipStackSpec.v: a datagram from one host's application
      to another's, and one that is damaged on the way; LwipIcmpSpec.v: a ping is
      answered;
    - LwipArp.v (etharp.c, dhcp_arp_reply of dhcp.c), LwipArpSpec.v: the table, what each operation does to
      it and which frames it sends; LwipArpHistory.v: the table over time;
      LwipLan.v, where LwipStack.v is linked to it, and LwipLanSpec.v: from the
      application of one host through UDP, IP, ARP and frames to that of another;
    - Network.v (ethernet.c, the address conversion of ip_addr.c).

    The servers:
    - UdpServer.v (BasicUDP.c): the packet protocol of README.md, with the two
      deviations of the code (access type 3 in version 1, the read-back after a
      failed 32-bit write) beside it;
      UdpSystem.v: linked to FpgaTwi.v and Twi.v, from the packet to the bus;
      UdpService.v: linked to LwipUdp.v, from the datagram to the reply;
    - Xvc.v, XvcProto.v (src/src/xvc/xvc_server.c): XvcShift.v, the in-place
      shift routine against its bit-by-bit reference and on the wire; XvcSpec.v
      and XvcRefine.v, the receive path against the protocol automaton, however
      TCP cuts the stream and the segments are chained, but for chains in which a
      pbuf ends within a command word; XvcSession.v, the whole task with its clients on one
      side and the pins on the other; XvcState.v, the state variable under all
      interleavings of the tasks that use it;
    - Telnet.v (BasicTelnet.c), TelnetSpec.v; Serial.v (serial_monitor.c),
      SerialSpec.v: numbers, line editing, the commands and their bounds;
    - Text.v: the printf conversions they use;
    - Board.v (main.c, led.c), BoardSpec.v: the start-up keeps the reset of the
      VME crate and the power-down off; the identity of the board, from the flash
      memory or from the part of it that was read in time; Identity.v:
      the monitor, the flash driver, the memory and the next start together.

    How they meet: [Opb] (FpgaTwi.v) is what the servers expect of the FPGA
    functions, with [OpbLaws] as its specification; [Udp], [Netconn],
    [XvcControl], [FlashApi], [Console], [Memory] are what they expect of the
    stack, of the XVC server and of the drivers.  [Site_env] (LwipIpSpec.v) and
    [Stack_env] (LwipStackSpec.v) are what the theorems about IP and UDP need of an
    environment, with an instance for packets on any interface and one for the
    code of ARP ([linked_env] in LwipLanSpec.v).  The shared state of the
    tasks is the XVC server's state variable (XvcState.v), the driver's record
    of the Ethernet controller (Emac.v; the interrupt handler runs between the
    driver calls of a task, [Interrupts] in Ethernetif.v), and the table of pin
    interrupts.  The FPGA functions have no lock: the two transfers of
    an access can interleave with those of another task, and the theorems about
    accesses are about one task's.

    ** Fuel

    Loops that wait for hardware, and the loops of tasks, take fuel: the number
    of rounds is the environment's, not the code's.  Theorems about such a loop
    either say what holds however it ends ([OutOfFuel] included), or bound the
    environment's delays by a number of readings [k] and need more fuel than
    [k] ([console_refines_desk], [clocks_start]), or show the rounds that are
    enough ([read_data_completes], [twi_read_byte_returns]).  The heap's loops
    have as many rounds as it has bytes, more than it can have blocks
    ([laid_rounds]).  Loops that the
    code bounds itself have exactly that bound (a timeout, a length, a
    segment's bytes for the receive path: [receive_fuel]) and need no
    hypothesis ([receive_total]).

    ** Not modelled

    - The FreeRTOS kernel, the other protocols of lwIP (fragments, TCP, DHCP, raw
      sockets, the netconn interface) and the C library are parameters: their
      calls are operations of the signatures (so is what a DHCP client does to
      decline an address, in LwipArp.v).  So are the pools of memp.c, the memory
      manager under pbuf.c, which Mem.v is not linked to, and the linker script:
      the symbols it defines.
    - ASF's [Assert] is compiled out in this build and has no counterpart.
      Loops that only pass time (the delay after the PHY reset) are left out,
      as are the trace messages of the telnet and UDP tasks and of the stack, and
      its SNMP counters.
    - The static [ul_reg_val] of usart.c is set before each use and modelled as
      a local value.  A register access is atomic; interrupts are modelled
      where a handler shares state with a task (Emac.v, Ethernetif.v, Twi.v's
      task notifications).
    - The HTTP and TFTP servers, which the firmware does not build, and the
      headers of other boards and chips. *)

From Stdlib Require Export ZArith Lia.
From stdpp Require Export base tactics list numbers option.

#[global] Open Scope Z_scope.

(** ** Machine integers

    A w-bit C integer is a [Z]; the conversions below are the ones the C
    abstract machine performs on assignment to an object of that type. *)

Definition u8 (z : Z) : Z := z mod 2 ^ 8.
Definition u16 (z : Z) : Z := z mod 2 ^ 16.
Definition u32 (z : Z) : Z := z mod 2 ^ 32.

Definition signed (w z : Z) : Z :=
  let r := z mod 2 ^ w in if r <? 2 ^ (w - 1) then r else r - 2 ^ w.

Definition s8 (z : Z) : Z := signed 8 z.
Definition s16 (z : Z) : Z := signed 16 z.
Definition s32 (z : Z) : Z := signed 32 z.

(** [!x], [x & m] and [~x] as C uses them on 32-bit operands. *)
Definition not32 (z : Z) : Z := u32 (Z.lnot z).
Definition has_bits (v m : Z) : bool := negb (Z.land v m =? 0).

Definition is_u8 (z : Z) : Prop := 0 <= z < 2 ^ 8.
Definition is_u16 (z : Z) : Prop := 0 <= z < 2 ^ 16.
Definition is_u32 (z : Z) : Prop := 0 <= z < 2 ^ 32.

#[global] Instance is_u8_dec z : Decision (is_u8 z).
Proof. unfold is_u8; apply _. Defined.
#[global] Instance is_u32_dec z : Decision (is_u32 z).
Proof. unfold is_u32; apply _. Defined.

Create HintDb fw.

Lemma u8_range z : is_u8 (u8 z).
Proof. unfold is_u8, u8. apply Z.mod_pos_bound. lia. Qed.
Lemma u16_range z : is_u16 (u16 z).
Proof. unfold is_u16, u16. apply Z.mod_pos_bound. lia. Qed.
Lemma u32_range z : is_u32 (u32 z).
Proof. unfold is_u32, u32. apply Z.mod_pos_bound. lia. Qed.

Lemma u8_id z : is_u8 z -> u8 z = z.
Proof. intros. by apply Z.mod_small. Qed.
Lemma u16_id z : is_u16 z -> u16 z = z.
Proof. intros. by apply Z.mod_small. Qed.
Lemma u32_id z : is_u32 z -> u32 z = z.
Proof. intros. by apply Z.mod_small. Qed.

#[export] Hint Resolve u8_range u16_range u32_range : fw.

Lemma signed_small w z : 0 < w -> 0 <= z < 2 ^ (w - 1) -> signed w z = z.
Proof.
  intros Hw Hz. unfold signed.
  assert (2 ^ w = 2 * 2 ^ (w - 1)) as E
    by (rewrite <- Z.pow_succ_r by lia; f_equal; lia).
  rewrite Z.mod_small by lia.
  by rewrite (proj2 (Z.ltb_lt _ _)) by lia.
Qed.

Lemma signed_neg w z : 0 < w -> - 2 ^ (w - 1) <= z < 0 -> signed w z = z.
Proof.
  intros Hw Hz. unfold signed.
  assert (2 ^ w = 2 * 2 ^ (w - 1)) as E
    by (rewrite <- Z.pow_succ_r by lia; f_equal; lia).
  replace (z mod 2 ^ w) with (z + 2 ^ w).
  - rewrite (proj2 (Z.ltb_ge _ _)) by lia. lia.
  - apply (Z.mod_unique _ _ (-1)); lia.
Qed.

Lemma has_bits_true v m : has_bits v m = true <-> Z.land v m <> 0.
Proof. unfold has_bits. rewrite negb_true_iff, Z.eqb_neq. done. Qed.
Lemma has_bits_false v m : has_bits v m = false <-> Z.land v m = 0.
Proof. unfold has_bits. rewrite negb_false_iff, Z.eqb_eq. done. Qed.

(** ** Bytes *)

(** Little-endian value of a byte list ([*(uint32_t * ) p] on the target). *)
Fixpoint le_val (bs : list Z) : Z :=
  match bs with
  | [] => 0
  | b :: bs => b + 256 * le_val bs
  end.

Definition le_bytes4 (v : Z) : list Z :=
  [u8 v; u8 (Z.shiftr v 8); u8 (Z.shiftr v 16); u8 (Z.shiftr v 24)].

Definition be_bytes4 (v : Z) : list Z :=
  [u8 (Z.shiftr v 24); u8 (Z.shiftr v 16); u8 (Z.shiftr v 8); u8 v].

Lemma le_val_range bs :
  Forall is_u8 bs -> 0 <= le_val bs < 2 ^ (8 * Z.of_nat (length bs)).
Proof.
  induction 1 as [|b bs Hb _ IH]; simpl; [lia|].
  unfold is_u8 in Hb.
  replace (8 * Z.of_nat (S (length bs)))
    with (8 + 8 * Z.of_nat (length bs)) by lia.
  rewrite Z.pow_add_r by lia. nia.
Qed.

Lemma le_val_app bs cs :
  le_val (bs ++ cs) = le_val bs + 2 ^ (8 * Z.of_nat (length bs)) * le_val cs.
Proof.
  induction bs as [|b bs IH]; simpl; [lia|].
  rewrite IH.
  replace (8 * Z.of_nat (S (length bs)))
    with (8 + 8 * Z.of_nat (length bs)) by lia.
  rewrite Z.pow_add_r by lia. lia.
Qed.

Lemma le_val_zeros n : le_val (replicate n 0) = 0.
Proof. induction n as [|n IH]; simpl; lia. Qed.

Lemma le_bytes4_le_val bs :
  Forall is_u8 bs -> length bs = 4%nat -> le_bytes4 (le_val bs) = bs.
Proof.
  intros Hb Hl. destruct bs as [|a [|b [|c [|d [|]]]]]; try done.
  repeat match goal with H : Forall _ (_ :: _) |- _ => inversion H; clear H; subst end.
  unfold is_u8, le_bytes4, u8 in *. cbn [le_val].
  rewrite !Z.shiftr_div_pow2 by lia.
  repeat f_equal; Z.to_euclidean_division_equations; lia.
Qed.

Lemma le_val_bytes4 n : is_u32 n -> le_val (le_bytes4 n) = n.
Proof.
  unfold is_u32, le_bytes4, u8. intros Hn. cbn [le_val].
  rewrite !Z.shiftr_div_pow2 by lia. Z.to_euclidean_division_equations; lia.
Qed.

(** [x lor y] is [x + y] when the set bits do not meet: the carry-free sum
    of a value below [2^n] and one that is a multiple of [2^n]. *)
Lemma testbit_high a n i : 0 <= a < 2 ^ n -> n <= i -> 0 <= n -> Z.testbit a i = false.
Proof.
  intros Ha Hi Hn. rewrite <- (Z.mod_small a (2 ^ n)) by done.
  by apply Z.mod_pow2_bits_high.
Qed.

Lemma lor_disjoint_add a b n :
  0 <= n -> 0 <= a < 2 ^ n -> Z.lor a (Z.shiftl b n) = a + Z.shiftl b n.
Proof.
  intros Hn Ha.
  assert (Z.land a (Z.shiftl b n) = 0) as Hd.
  { apply Z.bits_inj'; intros i Hi. rewrite Z.land_spec, Z.bits_0.
    destruct (decide (i < n)).
    - rewrite Z.shiftl_spec_low by lia. by rewrite andb_false_r.
    - by rewrite (testbit_high a n i) by lia. }
  rewrite <- Z.lxor_lor by done. symmetry. by apply Z.add_nocarry_lxor.
Qed.

Lemma land_ff z : Z.land z 0xff = u8 z.
Proof. change 0xff with (Z.ones 8). by rewrite Z.land_ones. Qed.

Lemma lor_byte a b : is_u8 b -> Z.lor (Z.shiftl a 8) b = 256 * a + b.
Proof.
  intros Hb. rewrite Z.lor_comm, lor_disjoint_add by (done || lia).
  rewrite Z.shiftl_mul_pow2 by lia. lia.
Qed.

Lemma land_byte n k : 0 <= k ->
  Z.land n (Z.shiftl 0xff k) = Z.shiftl (u8 (Z.shiftr n k)) k.
Proof.
  intros Hk. rewrite <- land_ff. apply Z.bits_inj'. intros i Hi.
  rewrite Z.land_spec. destruct (decide (i < k)).
  - rewrite !Z.shiftl_spec_low by lia. apply andb_false_r.
  - rewrite !Z.shiftl_spec, Z.land_spec, Z.shiftr_spec by lia. by rewrite Z.sub_add.
Qed.

(** ** Byte arrays

    A C array is a list of bytes; a store outside it is undefined behaviour
    and shows as [None]. *)

(** The little-endian load of [n] bytes, if they are inside the payload. *)
Definition load (off n : nat) (bs : list Z) : option Z :=
  if decide (off + n <= length bs)%nat then Some (le_val (take n (drop off bs))) else None.

Definition store (buf : list Z) (off : nat) (bs : list Z) : option (list Z) :=
  if decide (off + length bs <= length buf)%nat
  then Some (take off buf ++ bs ++ drop (off + length bs) buf)
  else None.

Lemma store_length buf off bs buf' :
  store buf off bs = Some buf' -> length buf' = length buf.
Proof.
  unfold store. case_decide; [|done]. intros [= <-].
  rewrite !length_app, length_take, length_drop. lia.
Qed.

Lemma store_in_bounds buf off bs :
  (off + length bs <= length buf)%nat ->
  store buf off bs = Some (take off buf ++ bs ++ drop (off + length bs) buf).
Proof. intros. unfold store. by rewrite decide_True. Qed.

(** What lies below the written range, extended by what was written. *)
Lemma store_take buf off bs buf' :
  store buf off bs = Some buf' ->
  take (off + length bs) buf' = take off buf ++ bs.
Proof.
  unfold store. case_decide as Hb; [|done]. intros [= <-].
  rewrite app_assoc, take_app_length'; [done|].
  rewrite length_app, length_take. lia.
Qed.

Lemma Forall_take_drop {A} (P : A -> Prop) n (l : list A) :
  Forall P (take n l) -> Forall P (drop n l) -> Forall P l.
Proof. intros. rewrite <- (take_drop n l). by apply Forall_app. Qed.

(** ** Tactics *)

(** Case analysis on the boolean tests and matches of a goal, with the
    equations as hypotheses in [Prop]. *)
Ltac split_tests :=
  repeat match goal with
  | |- context [if ?b then _ else _] => destruct b eqn:?
  | |- context [match ?x with _ => _ end] => destruct x eqn:?
  end.

Ltac to_prop :=
  repeat match goal with
  | H : (_ =? _) = true |- _ => apply Z.eqb_eq in H
  | H : (_ =? _) = false |- _ => apply Z.eqb_neq in H
  | H : (_ <? _) = true |- _ => apply Z.ltb_lt in H
  | H : (_ <? _) = false |- _ => apply Z.ltb_ge in H
  | H : (_ <=? _) = true |- _ => apply Z.leb_le in H
  | H : (_ <=? _) = false |- _ => apply Z.leb_gt in H
  | H : negb _ = true |- _ => apply negb_true_iff in H
  | H : negb _ = false |- _ => apply negb_false_iff in H
  | H : has_bits _ _ = true |- _ => apply has_bits_true in H
  | H : has_bits _ _ = false |- _ => apply has_bits_false in H
  end.

(** Evaluates the closed integer comparisons of a goal. *)
Ltac closed_tests :=
  repeat match goal with
  | |- context [?a =? ?b] =>
    let v := eval vm_compute in (a =? b) in
    match v with true => idtac | false => idtac end; change (a =? b) with v
  | |- context [?a <? ?b] =>
    let v := eval vm_compute in (a <? b) in
    match v with true => idtac | false => idtac end; change (a <? b) with v
  | |- context [?a <=? ?b] =>
    let v := eval vm_compute in (a <=? b) in
    match v with true => idtac | false => idtac end; change (a <=? b) with v
  end.
