(* ===== verification/Prog.v ===== *)
(** * Programs over a signature of environment calls

    The firmware talks to peripheral registers, to the RTOS kernel and to the
    network stack.  A C function is modelled as a [prog E A]: a well-founded
    tree whose nodes are the environment calls of the signature [E] in program
    order and whose branches are the answers the environment may give.  One
    tree therefore stands for the behaviour against every device, every
    scheduler and every peer; [run] executes it against a concrete handler,
    [wp] is its weakest precondition against any set of possible answers. *)

From S2P Require Import Prelude.
From Stdlib Require Export Morphisms Setoid.

Record Sig := { op : Type; ans : op -> Type }.

(** How a run can end without returning: a failed [assert], an endless loop
    the code enters on purpose or by accident, the model's own fuel, or
    undefined behaviour of C. *)
Inductive halt := AssertFail | Hang | OutOfFuel | Undefined.

#[global] Instance halt_eq_dec : EqDecision halt.
Proof. solve_decision. Defined.

Inductive prog (E : Sig) (A : Type) : Type :=
| Ret (a : A)
| Halt (h : halt)
| Vis (e : op E) (k : ans E e -> prog E A).
Arguments Ret {E A} a.
Arguments Halt {E A} h.
Arguments Vis {E A} e k.

Inductive outcome (A : Type) : Type :=
| Done (a : A)
| Stop (h : halt).
Arguments Done {A} a.
Arguments Stop {A} h.

Fixpoint bind {E A B} (p : prog E A) (f : A -> prog E B) : prog E B :=
  match p with
  | Ret a => f a
  | Halt h => Halt h
  | Vis e k => Vis e (fun x => bind (k x) f)
  end.

Declare Scope prog_scope.
Delimit Scope prog_scope with prog.
Bind Scope prog_scope with prog.
#[global] Open Scope prog_scope.

Notation "'let!' x := p 'in' q" := (bind p (fun x => q))
  (at level 10, x pattern, p at level 99, q at level 200) : prog_scope.
Notation "p ;; q" := (bind p (fun _ => q))
  (at level 100, q at level 200, right associativity) : prog_scope.
Notation "'when' b p" := (if b then p else Ret tt)
  (at level 10, b at level 9, p at level 9) : prog_scope.

Definition trigger {E} (e : op E) : prog E (ans E e) := Vis e (fun x => Ret x).

(** [assert(b)] of <assert.h>, which the build does not disable. *)
Definition c_assert {E} (b : bool) : prog E unit :=
  if b then Ret tt else Halt AssertFail.

(** A value that exists unless the access was out of bounds. *)
Definition defined {E A} (o : option A) : prog E A :=
  match o with Some a => Ret a | None => Halt Undefined end.

(** A C loop: [body] returns [inl] to go round again and [inr] to leave. *)
Fixpoint iter {E St R} (fuel : nat) (body : St -> prog E (St + R)) (s : St) : prog E R :=
  match fuel with
  | O => Halt OutOfFuel
  | S n => bind (body s) (fun r => match r with inl s' => iter n body s' | inr r => Ret r end)
  end.

(** Translation of a program into a larger signature. *)
Fixpoint embed {E F : Sig} (f : op E -> op F) (g : forall e, ans F (f e) -> ans E e)
    {A} (p : prog E A) : prog F A :=
  match p with
  | Ret a => Ret a
  | Halt h => Halt h
  | Vis e k => Vis (f e) (fun x => embed f g (k (g e x)))
  end.

(** Replacing each call of [E] by a program over [F]: linking a client to the
    code that implements the calls it makes. *)
Fixpoint interp {E F : Sig} (h : forall e, prog F (ans E e))
    {A} (p : prog E A) : prog F A :=
  match p with
  | Ret a => Ret a
  | Halt x => Halt x
  | Vis e k => bind (h e) (fun x => interp h (k x))
  end.

(** The same with a state that the code passes along. *)
Fixpoint interp_st {E F : Sig} {S} (h : forall e : op E, S -> prog F (ans E e * S))
    {A} (p : prog E A) (s : S) : prog F (A * S) :=
  match p with
  | Ret a => Ret (a, s)
  | Halt x => Halt x
  | Vis e k => bind (h e s) (fun '(x, s') => interp_st h (k x) s')
  end.

(** ** Execution against a deterministic environment *)

Fixpoint run {E S A} (h : forall e : op E, S -> ans E e * S) (p : prog E A) (s : S)
    : outcome A * S :=
  match p with
  | Ret a => (Done a, s)
  | Halt x => (Stop x, s)
  | Vis e k => let '(x, s') := h e s in run h (k x) s'
  end.

Lemma run_bind {E S A B} (h : forall e : op E, S -> ans E e * S)
    (p : prog E A) (f : A -> prog E B) s :
  run h (bind p f) s =
  match run h p s with
  | (Done a, s') => run h (f a) s'
  | (Stop x, s') => (Stop x, s')
  end.
Proof.
  revert s. induction p as [a|x|e k IH]; intros s; simpl; [done..|].
  destruct (h e s) as [x s']. apply IH.
Qed.

(** ** Weakest preconditions

    An environment says, for each of its states, which calls a program may
    make ([req]: a protocol the program has to respect) and which answers it
    may get ([step e s x s']: in state [s] the call [e] may answer [x] and
    leave the environment in [s']). *)

Record env (E : Sig) (S : Type) := {
  req : op E -> S -> Prop;
  step : forall e : op E, S -> ans E e -> S -> Prop
}.
Arguments req {E S} _ _ _.
Arguments step {E S} _ _ _ _ _.

Section wp.
Context {E : Sig} {S : Type} (N : env E S).

Fixpoint wp {A} (p : prog E A) (Q : outcome A -> S -> Prop) (s : S) : Prop :=
  match p with
  | Ret a => Q (Done a) s
  | Halt h => Q (Stop h) s
  | Vis e k => req N e s /\ forall x s', step N e s x s' -> wp (k x) Q s'
  end.

(** What remains to be shown once the first of two programs is over. *)
Definition andthen {A B} (f : A -> prog E B) (Q : outcome B -> S -> Prop)
    (o : outcome A) (s : S) : Prop :=
  match o with
  | Done a => wp (f a) Q s
  | Stop h => Q (Stop h) s
  end.

Lemma wp_bind {A B} (p : prog E A) (f : A -> prog E B) Q s :
  wp p (andthen f Q) s <-> wp (bind p f) Q s.
Proof.
  revert s. induction p as [a|h|e k IH]; intros s; simpl; [done..|].
  split; intros [Hr Hk]; (split; [done|]); intros x s' Hs; apply IH; auto.
Qed.

Lemma wp_mono {A} (p : prog E A) (Q Q' : outcome A -> S -> Prop) s :
  wp p Q s -> (forall o s', Q o s' -> Q' o s') -> wp p Q' s.
Proof.
  intros Hp HQ. revert s Hp.
  induction p as [a|h|e k IH]; intros s Hp; simpl in *; auto.
  destruct Hp; split; eauto.
Qed.

Lemma wp_seq {A B} (p : prog E A) (f : A -> prog E B) (M : outcome A -> S -> Prop) Q s :
  wp p M s -> (forall o s', M o s' -> andthen f Q o s') -> wp (bind p f) Q s.
Proof. intros Hp HM. apply wp_bind. eapply wp_mono; eauto. Qed.

Lemma wp_trigger (e : op E) Q s :
  req N e s -> (forall x s', step N e s x s' -> Q (Done x) s') -> wp (trigger e) Q s.
Proof. done. Qed.

(** The rule for loops: an invariant indexed by the fuel that is left. *)
Lemma wp_iter {St R} (body : St -> prog E (St + R)) (I : nat -> St -> S -> Prop)
    (Q : outcome R -> S -> Prop) n st s :
  (forall st s, I O st s -> Q (Stop OutOfFuel) s) ->
  (forall n st s, I (Datatypes.S n) st s ->
     wp (body st) (fun o s' =>
       match o with
       | Done (inl st') => I n st' s'
       | Done (inr r) => Q (Done r) s'
       | Stop h => Q (Stop h) s'
       end) s) ->
  I n st s -> wp (iter n body st) Q s.
Proof.
  intros H0 HS. revert st s. induction n as [|n IH]; intros st s HI; simpl; [eauto|].
  eapply wp_seq; [by apply HS|].
  intros [[st'|r]|h] s' HQ; simpl in *; auto.
Qed.

(** The ways a program can end. *)
Fixpoint may {A} (p : prog E A) (s : S) (o : outcome A) (s' : S) : Prop :=
  match p with
  | Ret a => o = Done a /\ s' = s
  | Halt h => o = Stop h /\ s' = s
  | Vis e k => exists x s1, step N e s x s1 /\ may (k x) s1 o s'
  end.

Lemma wp_may {A} (p : prog E A) Q s o s' : wp p Q s -> may p s o s' -> Q o s'.
Proof.
  revert s. induction p as [a|h|e k IH]; intros s Hp Hm; simpl in *.
  - by destruct Hm as [-> ->].
  - by destruct Hm as [-> ->].
  - destruct Hm as (x & s1 & Hs & Hm). destruct Hp as [_ Hp]. eapply IH; [by apply Hp|done].
Qed.

(** A run against a handler whose answers are all possible ends as the
    weakest precondition says. *)
Lemma wp_run {A} (h : forall e : op E, S -> ans E e * S) (p : prog E A) Q s :
  (forall e s, step N e s (h e s).1 (h e s).2) ->
  wp p Q s -> Q (run h p s).1 (run h p s).2.
Proof.
  intros Hh. revert s. induction p as [a|x|e k IH]; intros s Hp; simpl in *; [done..|].
  destruct Hp as [_ Hp].
  specialize (Hh e s). destruct (h e s) as [x s']. apply IH. auto.
Qed.
End wp.

(** The environment that records what happens: calls with their answers,
    oldest first, nothing forbidden and every answer possible. *)
Definition event (E : Sig) : Type := { e : op E & ans E e }.
Definition ev {E : Sig} (e : op E) (x : ans E e) : event E := existT e x.

Definition recorder (E : Sig) : env E (list (event E)) := {|
  req _ _ := True;
  step e tr x tr' := tr' = tr ++ [ev e x]
|}.

(** ** Refinement and equivalence of programs

    [prog_rel ok R p q]: [p] and [q] make the same calls in the same order
    whatever the answers are, and end in results related by [R]; where [ok h]
    holds, [p] may in addition stop with [h] at any point. *)

Ltac rel_leaf :=
  repeat match goal with
  | H : _ \/ _ |- _ => destruct H
  | H : False |- _ => destruct H
  end; subst; try done; auto with fw.

Section prog_rel.
Context {E : Sig} {A B : Type} (ok : halt -> Prop) (R : A -> B -> Prop).

Fixpoint prog_rel (p : prog E A) (q : prog E B) : Prop :=
  match p with
  | Ret a => match q with Ret b => R a b | _ => False end
  | Halt h => ok h \/ match q with Halt h' => h = h' | _ => False end
  | Vis e k =>
    match q with
    | Vis e' k' =>
      exists He : e = e', forall x, prog_rel (k x) (k' (eq_rect e (ans E) x e' He))
    | _ => False
    end
  end.

Lemma rel_ret a b : R a b -> prog_rel (Ret a) (Ret b).
Proof. done. Qed.
Lemma rel_halt h : prog_rel (Halt h) (Halt h).
Proof. by right. Qed.
Lemma rel_stop h q : ok h -> prog_rel (Halt h) q.
Proof. by left. Qed.
Lemma rel_vis e k k' :
  (forall x, prog_rel (k x) (k' x)) -> prog_rel (Vis e k) (Vis e k').
Proof. intros Hk. by exists eq_refl. Qed.
End prog_rel.
#[export] Hint Resolve rel_ret rel_halt rel_stop rel_vis : fw.

Definition never (h : halt) : Prop := False.

Definition peq {E A} : prog E A -> prog E A -> Prop := prog_rel never eq.
Infix "≈" := (peq) (at level 70).

Lemma prog_rel_bind {E A B A' B'} ok (R : A -> A' -> Prop) (R' : B -> B' -> Prop)
    (p : prog E A) (p' : prog E A') f f' :
  prog_rel ok R p p' ->
  (forall a a', R a a' -> prog_rel ok R' (f a) (f' a')) ->
  prog_rel ok R' (bind p f) (bind p' f').
Proof.
  revert p'. induction p as [a|h|e k IH]; intros [a'|h'|e' k'] Hp Hf; simpl in *;
    try (rel_leaf; fail).
  destruct Hp as [-> Hk]. exists eq_refl. intros x. apply IH; auto.
Qed.

Lemma prog_rel_mono {E A B} ok ok' (R R' : A -> B -> Prop) (p : prog E A) q :
  prog_rel ok R p q -> (forall h, ok h -> ok' h) -> (forall a b, R a b -> R' a b) ->
  prog_rel ok' R' p q.
Proof.
  intros Hp Hok HR. revert q Hp.
  induction p as [a|h|e k IH]; intros [a'|h'|e' k'] Hp; simpl in *; try (rel_leaf; fail).
  destruct Hp as [-> Hk]. exists eq_refl. intros x. by apply IH.
Qed.

Lemma prog_rel_refl {E A} ok (R : A -> A -> Prop) (p : prog E A) :
  (forall a, R a a) -> prog_rel ok R p p.
Proof. intros HR. induction p; auto with fw. Qed.

Lemma prog_rel_trans {E A B C} ok (R1 : A -> B -> Prop) (R2 : B -> C -> Prop)
    (p : prog E A) (q : prog E B) (r : prog E C) :
  prog_rel ok R1 p q -> prog_rel ok R2 q r ->
  prog_rel ok (fun a c => exists b, R1 a b /\ R2 b c) p r.
Proof.
  revert q r. induction p as [a|h|e k IH]; intros [b|h'|e' k'] [c|h''|e'' k''] H1 H2;
    simpl in *; try (rel_leaf; eauto; fail).
  destruct H1 as [-> H1], H2 as [-> H2]. exists eq_refl. intros x. eapply IH; [|apply (H2 x)].
  apply (H1 x).
Qed.

#[global] Instance peq_equivalence {E A} : Equivalence (@peq E A).
Proof.
  unfold peq. split.
  - intros p. by apply prog_rel_refl.
  - intros p. induction p as [a|h|e k IH]; intros [b|h'|e' k'] H; simpl in *; try (rel_leaf; fail).
    destruct H as [-> H]. exists eq_refl. intros x. apply IH, H.
  - intros p q r H1 H2. eapply prog_rel_mono; [by eapply prog_rel_trans|done|].
    intros a b (c & Hab & Hbc); congruence.
Qed.

#[global] Instance bind_proper {E A B} :
  Proper (peq ==> pointwise_relation A peq ==> peq) (@bind E A B).
Proof. intros p p' Hp f f' Hf. unfold peq in *. eapply prog_rel_bind; [done|]. intros a ? <-. apply Hf. Qed.

(** Related programs may be rewritten into equivalent ones on either side. *)
#[global] Instance prog_rel_proper {E A B} ok (R : A -> B -> Prop) :
  Proper (peq ==> peq ==> iff) (@prog_rel E A B ok R).
Proof.
  assert (forall (p p' : prog E A) (q q' : prog E B), p ≈ p' -> q ≈ q' -> prog_rel ok R p q -> prog_rel ok R p' q')
    as Himp.
  { intros p p' q q' Hp Hq H.
    assert (prog_rel ok eq p' p) as H1
      by (apply (prog_rel_mono never ok eq eq); [by symmetry|intros ? []|done]).
    assert (prog_rel ok eq q q') as H2
      by (apply (prog_rel_mono never ok eq eq); [done|intros ? []|done]).
    eapply prog_rel_mono; [|intros ? Hk; exact Hk|].
    - eapply prog_rel_trans; [exact H1|]. eapply prog_rel_trans; [exact H|exact H2].
    - intros a b (a1 & Ha & b1 & Hab & Hb); by subst. }
  intros p p' Hp q q' Hq. split; apply Himp; try done; by symmetry.
Qed.

Lemma bind_bind {E A B C} (p : prog E A) (f : A -> prog E B) (g : B -> prog E C) :
  bind (bind p f) g ≈ bind p (fun a => bind (f a) g).
Proof.
  unfold peq. induction p as [a|h|e k IH]; simpl; [by apply prog_rel_refl|by right|].
  by exists eq_refl.
Qed.

Lemma bind_ret_r {E A} (p : prog E A) : bind p Ret ≈ p.
Proof.
  unfold peq. induction p as [a|h|e k IH]; simpl; [done|by right|]. by exists eq_refl.
Qed.

Lemma bind_ret_id {E A} (p : prog E A) (f : A -> prog E A) :
  (forall a, f a = Ret a) -> bind p f ≈ p.
Proof.
  intros Hf. transitivity (bind p Ret); [|apply bind_ret_r].
  apply bind_proper; [reflexivity|]. intros a. by rewrite Hf.
Qed.

Lemma bind_left {E A B} (p p' : prog E A) (f : A -> prog E B) : p ≈ p' -> bind p f ≈ bind p' f.
Proof. intros H. by apply bind_proper. Qed.

(** The interpreter of a layer respects equivalence and sequencing. *)
Section interp_laws.
Context {E F : Sig} {S : Type} (h : forall e : op E, S -> prog F (ans E e * S)).

Lemma interp_st_peq {A} (p q : prog E A) s : p ≈ q -> interp_st h p s ≈ interp_st h q s.
Proof.
  unfold peq. revert q s. induction p as [a|x|e k IH]; intros [b|y|e' k'] s H; simpl in *; try (rel_leaf; fail).
  destruct H as [-> H]. apply bind_proper; [reflexivity|]. intros [x s']. apply IH, H.
Qed.

Lemma interp_st_bind {A B} (p : prog E A) (f : A -> prog E B) s :
  interp_st h (bind p f) s ≈ bind (interp_st h p s) (fun '(x, s') => interp_st h (f x) s').
Proof.
  revert s. induction p as [a|x|e k IH]; intros s; cbn [bind interp_st]; [reflexivity|reflexivity|].
  rewrite bind_bind. apply bind_proper; [reflexivity|]. intros [x s']. apply IH.
Qed.
End interp_laws.

(** A run of [p] is matched by a run of [q], up to the allowed stops. *)
Lemma prog_rel_run {E S A B} ok (R : A -> B -> Prop) (h : forall e : op E, S -> ans E e * S)
    (p : prog E A) (q : prog E B) s :
  prog_rel ok R p q ->
  (exists x s', run h p s = (Stop x, s') /\ ok x) \/
  (run h p s).2 = (run h q s).2 /\
  match (run h p s).1, (run h q s).1 with
  | Done a, Done b => R a b
  | Stop x, Stop y => x = y
  | _, _ => False
  end.
Proof.
  revert q s. induction p as [a|x|e k IH]; intros [b|y|e' k'] s H; simpl in *; try done.
  - by right.
  - destruct H as [?|[]]; eauto.
  - destruct H as [?| ->]; [left; eauto|by right].
  - destruct H as [?|[]]; eauto.
  - destruct H as [-> H]. simpl in H. destruct (h e' s) as [z s']. apply IH, H.
Qed.

Lemma peq_run {E S A} (h : forall e : op E, S -> ans E e * S) (p q : prog E A) s :
  p ≈ q -> run h p s = run h q s.
Proof.
  intros Hpq. destruct (prog_rel_run never eq h p q s Hpq) as [(? & ? & _ & [])|[Hs Ho]].
  destruct (run h p s) as [[?|?] ?], (run h q s) as [[?|?] ?]; simpl in *; by subst.
Qed.

Lemma peq_wp {E S A} (N : env E S)
    (p q : prog E A) Q s : p ≈ q -> wp N q Q s -> wp N p Q s.
Proof.
  unfold peq.
  revert q s. induction p as [a|x|e k IH]; intros [b|y|e' k'] s H; simpl in *; try (rel_leaf; fail).
  destruct H as [-> H]. simpl in H. intros [Hr Hq]. split; [done|].
  intros x s' Hs. eapply IH; [apply H|by apply Hq].
Qed.

(** Takes the first step out of a nested sequence in a [wp] goal. *)
Ltac step_in := eapply (peq_wp _ _ _ _ _ (bind_bind _ _ _)).

(** Every result the program can return satisfies [P]. *)
Fixpoint returns {E A} (P : A -> Prop) (p : prog E A) : Prop :=
  match p with
  | Ret a => P a
  | Halt _ => True
  | Vis e k => forall x, returns P (k x)
  end.

Lemma returns_bind {E A B} (M : A -> Prop) (P : B -> Prop) (p : prog E A) (f : A -> prog E B) :
  returns M p -> (forall a, M a -> returns P (f a)) -> returns P (bind p f).
Proof. intros Hp Hf. induction p as [a|h|e k IH]; simpl in *; auto. Qed.

Lemma returns_mono {E A} (M P : A -> Prop) (p : prog E A) :
  returns M p -> (forall a, M a -> P a) -> returns P p.
Proof. intros Hp Hf. induction p as [a|h|e k IH]; simpl in *; auto. Qed.

(** The program always returns: no assertion fails, no loop is endless, no
    access is out of bounds, whatever the environment answers. *)
Fixpoint total {E A} (p : prog E A) : Prop :=
  match p with
  | Ret _ => True
  | Halt _ => False
  | Vis e k => forall x, total (k x)
  end.

Lemma total_bind {E A B} (M : A -> Prop) (p : prog E A) (f : A -> prog E B) :
  total p -> returns M p -> (forall a, M a -> total (f a)) -> total (bind p f).
Proof. intros Hp Hr Hf. induction p as [a|h|e k IH]; simpl in *; auto. Qed.

Lemma returns_any {E A} (p : prog E A) : returns (fun _ => True) p.
Proof. induction p; simpl; auto. Qed.
#[export] Hint Resolve returns_any : fw.

Lemma total_seq {E A B} (p : prog E A) (f : A -> prog E B) :
  total p -> (forall a, total (f a)) -> total (bind p f).
Proof. intros Hp Hf. eapply total_bind; [done|apply returns_any|auto]. Qed.

Lemma total_embed {E F : Sig} (f : op E -> op F) g {A} (p : prog E A) :
  total p -> total (embed f g p).
Proof. induction p as [a|h|e k IH]; simpl; auto. Qed.

Lemma total_trigger {E : Sig} (e : op E) : total (trigger e).
Proof. by intros x. Qed.

Lemma total_rel {E A B} (R : A -> B -> Prop) (p : prog E A) (q : prog E B) :
  prog_rel never R p q -> total q -> total p.
Proof.
  revert q. induction p as [a|h|e k IH]; intros [b|h'|e' k'] Hr Hq; simpl in *;
    try done; try (by destruct Hr as [[]|[]]).
  destruct Hr as [-> Hr]. simpl in Hr. intros x. by eapply IH.
Qed.

(** Programs built from calls, sequencing, case analysis and functions whose
    totality is in the hint database. *)
Create HintDb total.

Ltac total_tac :=
  repeat first
    [ exact I
    | solve [auto 2 with total nocore]
    | apply total_trigger
    | apply total_embed
    | apply total_seq; [|intros ?]
    | match goal with
      | |- total (if ?b then _ else _) => destruct b
      | |- total (match ?x with _ => _ end) => destruct x
      end ].

(** Every call the program can make satisfies [P]. *)
Fixpoint only {E A} (P : op E -> Prop) (p : prog E A) : Prop :=
  match p with
  | Vis e k => P e /\ forall x, only P (k x)
  | _ => True
  end.

Lemma only_bind {E A B} (P : op E -> Prop) (p : prog E A) (f : A -> prog E B) :
  only P p -> (forall a, only P (f a)) -> only P (bind p f).
Proof.
  intros Hp Hf. induction p as [a|h|e k IH]; simpl in *; [done..|].
  destruct Hp as [He Hk]. split; [done|]. intros x. by apply IH.
Qed.

Lemma only_bind_returns {E A B} (P : op E -> Prop) (M : A -> Prop) (p : prog E A)
    (f : A -> prog E B) :
  only P p -> returns M p -> (forall a, M a -> only P (f a)) -> only P (bind p f).
Proof.
  intros Hp Hr Hf. induction p as [a|h|e k IH]; simpl in *; [by apply Hf|done|].
  destruct Hp as [He Hk]. split; [done|]. intros x. by apply IH.
Qed.

Lemma only_iter {E St R} (P : op E -> Prop) n (body : St -> prog E (St + R)) s :
  (forall s, only P (body s)) -> only P (iter n body s).
Proof.
  intros Hb. revert s. induction n as [|n IH]; intros s; [done|]. cbn [iter].
  apply only_bind; [done|]. intros [s'|r]; [apply IH|done].
Qed.

Lemma only_embed {E F : Sig} (P : op E -> Prop) (Q : op F -> Prop) (f : op E -> op F) g {A}
    (p : prog E A) : (forall e, P e -> Q (f e)) -> only P p -> only Q (embed f g p).
Proof.
  intros HPQ. induction p as [a|h|e k IH]; simpl; [done..|]. intros [He Hk].
  split; [by apply HPQ|]. intros x. by apply IH.
Qed.

(** What every allowed call keeps, the program keeps. *)
Lemma wp_only {E S A} (N : env E S) (P : op E -> Prop) (I : S -> Prop) (p : prog E A) s :
  (forall e s, P e -> I s -> req N e s /\ forall x s', step N e s x s' -> I s') ->
  only P p -> I s -> wp N p (fun _ s' => I s') s.
Proof.
  intros HP. revert s. induction p as [a|h|e k IH]; intros s Hp Hs; [done..|].
  destruct Hp as [He Hk]. destruct (HP e s He Hs) as [Hr Hn]. split; [done|]. eauto.
Qed.

(** Sequencing after a program whose results are known to satisfy [M]. *)
Lemma prog_rel_bind_returns {E A B B'} ok (M : A -> Prop) (R : B -> B' -> Prop)
    (p : prog E A) f f' :
  returns M p -> (forall a, M a -> prog_rel ok R (f a) (f' a)) ->
  prog_rel ok R (bind p f) (bind p f').
Proof.
  intros Hp Hf. induction p as [a|h|e k IH]; simpl in *; [by auto|by right|].
  exists eq_refl. intros x. by apply IH.
Qed.

(** What the right-hand program returns may be used for the relation. *)
Lemma prog_rel_returns_r {E A B} ok (M : B -> Prop) (R : A -> B -> Prop) (p : prog E A) (q : prog E B) :
  prog_rel ok R p q -> returns M q -> prog_rel ok (fun a b => R a b /\ M b) p q.
Proof.
  revert q. induction p as [a|x|e k IH]; intros [b|y|e' k'] H HM; simpl in *; try done; try tauto.
  destruct H as [-> H]. exists eq_refl. intros z. apply IH; [apply H|apply HM].
Qed.

Lemma prog_rel_bind_same {E A B B'} ok (R : B -> B' -> Prop) (p : prog E A) f f' :
  (forall a, prog_rel ok R (f a) (f' a)) -> prog_rel ok R (bind p f) (bind p f').
Proof. intros Hf. eapply prog_rel_bind_returns; [apply returns_any|auto]. Qed.

(** Post-processing the result of the right-hand program. *)
Lemma prog_rel_bind_map {E A B B'} ok (M : A -> B -> Prop) (R : A -> B' -> Prop)
    (p : prog E A) (q : prog E B) (f : B -> B') :
  prog_rel ok M p q -> (forall a b, M a b -> R a (f b)) ->
  prog_rel ok R p (bind q (fun b => Ret (f b))).
Proof.
  intros Hp Hf. revert q Hp.
  induction p as [a|h|e k IH]; intros [b|h'|e' k'] Hp; simpl in *; try (rel_leaf; fail).
  destruct Hp as [-> Hk]. exists eq_refl. intros x. by apply IH.
Qed.

(** A program whose answer is in hand: lifting an [outcome]. *)
Definition of_outcome {E A} (o : outcome A) : prog E A :=
  match o with Done a => Ret a | Stop h => Halt h end.

(** ** Termination of loops: a measure that drops bounds the fuel needed. *)
Lemma iter_ret_inr {E St R} n (body : St -> prog E (St + R)) s r :
  body s = Ret (inr r) -> iter (Datatypes.S n) body s = Ret r.
Proof. intros H. simpl. by rewrite H. Qed.

Lemma iter_ret_inl {E St R} n (body : St -> prog E (St + R)) s s' :
  body s = Ret (inl s') -> iter (Datatypes.S n) body s = iter n body s'.
Proof. intros H. simpl. by rewrite H. Qed.

(** A program of a part, run inside the whole: the state of the part is seen
    through [get] and [put], and the whole handles its calls as the part does. *)
Lemma run_embed {E F : Sig} {S T A} (hE : forall e : op E, S -> ans E e * S)
    (hF : forall e : op F, T -> ans F e * T) f g (get : T -> S) (put : S -> T -> T) (p : prog E A) t :
  (forall t, put (get t) t = t) -> (forall s t, get (put s t) = s) ->
  (forall s s' t, put s (put s' t) = put s t) ->
  (forall e t, g e (hF (f e) t).1 = (hE e (get t)).1 /\
     (hF (f e) t).2 = put (hE e (get t)).2 t) ->
  run hF (embed f g p) t = ((run hE p (get t)).1, put (run hE p (get t)).2 t).
Proof.
  intros Hpg Hgp Hpp Hh. revert t.
  induction p as [a|x|e k IH]; intros t; simpl; [by rewrite Hpg..|].
  destruct (Hh e t) as [Hx Ht]. destruct (hF (f e) t) as [y t']. simpl in Hx, Ht. subst t'.
  destruct (hE e (get t)) as [x s]. simpl in *. rewrite Hx, IH, Hgp, Hpp. done.
Qed.

Lemma returns_embed {E F : Sig} (f : op E -> op F) g {A} (P : A -> Prop) (p : prog E A) :
  returns P p -> returns P (embed f g p).
Proof. induction p as [a|h|e k IH]; simpl; auto. Qed.

(** ** Part of an environment

    A program that makes only the calls [P], which the whole environment
    handles on its part seen through [get] and [put], runs on the whole as it
    does on the part. *)
Lemma run_focus {E S T A} (P : op E -> Prop) (hS : forall e : op E, S -> ans E e * S)
    (hT : forall e : op E, T -> ans E e * T) (get : T -> S) (put : S -> T -> T) (p : prog E A) t :
  (forall t, put (get t) t = t) -> (forall s t, get (put s t) = s) ->
  (forall s s' t, put s (put s' t) = put s t) ->
  (forall e t, P e -> hT e t = ((hS e (get t)).1, put (hS e (get t)).2 t)) ->
  only P p ->
  run hT p t = ((run hS p (get t)).1, put (run hS p (get t)).2 t).
Proof.
  intros Hpg Hgp Hpp Hh. revert t.
  induction p as [a|x|e k IH]; intros t Hp; simpl; [by rewrite Hpg..|].
  destruct Hp as [He Hk]. rewrite (Hh e t He). destruct (hS e (get t)) as [x s].
  cbn [fst snd]. rewrite IH by done. by rewrite Hgp, Hpp.
Qed.

(** The weakest precondition of a part's program inside the whole. *)
Lemma wp_embed {E F : Sig} {S T A} (N : env E S) (M : env F T) f g (get : T -> S) (put : S -> T -> T)
    (p : prog E A) Q t :
  (forall t, put (get t) t = t) -> (forall s t, get (put s t) = s) ->
  (forall s s' t, put s (put s' t) = put s t) ->
  (forall e t, req N e (get t) -> req M (f e) t) ->
  (forall e t x t', step M (f e) t x t' -> step N e (get t) (g e x) (get t') /\ t' = put (get t') t) ->
  wp N p (fun o s => Q o (put s t)) (get t) -> wp M (embed f g p) Q t.
Proof.
  intros Hpg Hgp Hpp Hr Hs. revert t.
  induction p as [a|h|e k IH]; intros t Hp; simpl in *; [by rewrite Hpg in Hp..|].
  destruct Hp as [He Hk]. split; [by apply Hr|]. intros x t' Ht.
  destruct (Hs e t x t' Ht) as [Hx Heq]. apply IH.
  eapply wp_mono; [apply Hk, Hx|]. intros o s' Ho. cbv beta in Ho. rewrite Heq, Hpp. done.
Qed.

(** Programs that make the same calls make calls of the same kind. *)
Lemma only_rel {E A B} (P : op E -> Prop) (R : A -> B -> Prop) (p : prog E A) (q : prog E B) :
  prog_rel never R p q -> only P q -> only P p.
Proof.
  revert q. induction p as [a|h|e k IH]; intros [b|h'|e' k'] Hr Hq; simpl in *; try done.
  destruct Hr as [-> Hr], Hq as [He Hq]. split; [done|]. intros x. eapply IH; [apply Hr|done].
Qed.

Lemma returns_iter {E St R} (I : St -> Prop) (P : R -> Prop) n (body : St -> prog E (St + R)) s :
  (forall s, I s -> returns (fun r => match r with inl s => I s | inr r => P r end) (body s)) ->
  I s -> returns P (iter n body s).
Proof.
  intros Hb. revert s. induction n as [|n IH]; intros s Hs; [done|]. cbn [iter].
  eapply returns_bind; [by apply Hb|]. intros [s'|r]; [apply IH|done].
Qed.

(** ** The hardware signature

    What every driver of the firmware rests on: 32-bit peripheral registers,
    peripheral DMA (the PDC fetches from and fills memory buffers: writing a
    buffer's address to a pointer register is [WrBuf] with the bytes found
    there, the bytes the PDC has left in a buffer are [RdBuf]), the RTOS
    primitives, and the standard streams. *)

Inductive hwop : Type :=
| Rd (a : Z)
| Wr (a v : Z)
| WrBuf (a : Z) (data : list Z)
| RdBuf (n : nat)
| NotifyStateClear
| NotifyWait (ticks : Z)
| TaskDelay (ticks : Z)
| Putchar (c : Z)
| Getchar.

Definition hw_ans (e : hwop) : Type :=
  match e with
  | Rd _ => Z
  | RdBuf _ => list Z
  | NotifyWait _ => bool
  | Getchar => Z
  | _ => unit
  end.

Definition hw : Sig := {| op := hwop; ans := hw_ans |}.

#[global] Instance hwop_eq_dec : EqDecision hwop.
Proof. solve_decision. Defined.

Definition rd (a : Z) : prog hw Z := @trigger hw (Rd a).
Definition wr (a v : Z) : prog hw unit := @trigger hw (Wr a v).

(** [reg = f(reg)]: the read-modify-write of [|=] and [&=]. *)
Definition modify (a : Z) (f : Z -> Z) : prog hw unit :=
  bind (rd a) (fun v => wr a (f v)).

(** [reg |= m], [reg &= ~m] and [(reg & m) > 0]. *)
Definition set_bits (a m : Z) : prog hw unit := modify a (fun v => Z.lor v m).
Definition clear_bits (a m : Z) : prog hw unit := modify a (fun v => Z.land v (not32 m)).
Definition test_bits (a m : Z) : prog hw Z :=
  let! v := rd a in Ret (if has_bits v m then 1 else 0).

(** [reg = (reg & ~m) | v] *)
Definition set_field (a m v : Z) : prog hw unit :=
  modify a (fun r => Z.lor (Z.land r (not32 m)) v).

(** A round of [while (!(reg & m)) {}]. *)
Definition wait_round (a m : Z) (_ : unit) : prog hw (unit + unit) :=
  let! v := rd a in Ret (if has_bits v m then inr tt else inl tt).
