(* ===== verification/Critical.v ===== *)
(** * Critical sections (src/src/ASF/common/utils/interrupt/)

    interrupt_sam_nvic.c and the macros of interrupt_sam_nvic.h: the global
    interrupt flag of the processor with the counter of nested critical
    sections.  Each function is a step of the state. *)

From S2P Require Import Prelude.

(** PRIMASK and the variables; the deprecated copy [g_interrupt_enabled] is the
    last field. *)
Record irq := Irq {
  primask : bool;
  cpu_irq_critical_section_counter : Z;
  cpu_irq_prev_interrupt_state : bool;
  g_interrupt_enabled : bool
}.

Definition cpu_irq_enable (s : irq) : irq :=
  Irq false (cpu_irq_critical_section_counter s) (cpu_irq_prev_interrupt_state s) true.
Definition cpu_irq_disable (s : irq) : irq :=
  Irq true (cpu_irq_critical_section_counter s) (cpu_irq_prev_interrupt_state s) false.
Definition cpu_irq_is_enabled (s : irq) : bool := negb (primask s).

Definition with_counter (n : Z) (s : irq) : irq :=
  Irq (primask s) n (cpu_irq_prev_interrupt_state s) (g_interrupt_enabled s).
Definition with_prev (b : bool) (s : irq) : irq :=
  Irq (primask s) (cpu_irq_critical_section_counter s) b (g_interrupt_enabled s).

Definition cpu_irq_save (s : irq) : bool * irq := (cpu_irq_is_enabled s, cpu_irq_disable s).
Definition cpu_irq_is_enabled_flags (flags : bool) : bool := flags.
Definition cpu_irq_restore (flags : bool) (s : irq) : irq :=
  if cpu_irq_is_enabled_flags flags then cpu_irq_enable s else s.

Definition cpu_irq_enter_critical (s : irq) : irq :=
  let s :=
    if cpu_irq_critical_section_counter s =? 0 then
      if cpu_irq_is_enabled s then with_prev true (cpu_irq_disable s) else with_prev false s
    else s in
  with_counter (u32 (cpu_irq_critical_section_counter s + 1)) s.

Definition cpu_irq_leave_critical (s : irq) : irq :=
  let s := with_counter (u32 (cpu_irq_critical_section_counter s - 1)) s in
  if (cpu_irq_critical_section_counter s =? 0) && cpu_irq_prev_interrupt_state s
  then cpu_irq_enable s else s.

(** ** Nesting *)

Inductive section_op := Enter | Leave.

Definition perform_op (o : section_op) (s : irq) : irq :=
  match o with Enter => cpu_irq_enter_critical s | Leave => cpu_irq_leave_critical s end.

Definition depth_after (d : Z) (o : section_op) : Z := match o with Enter => d + 1 | Leave => d - 1 end.

(** No section is left that has not been entered, none is entered 2^32 deep. *)
Fixpoint nested (d : Z) (ops : list section_op) : Prop :=
  match ops with
  | [] => True
  | o :: ops => 0 <= depth_after d o < 2 ^ 32 /\ nested (depth_after d o) ops
  end.

Definition run_ops (ops : list section_op) (s : irq) : irq := fold_left (fun s o => perform_op o s) ops s.
Definition depth_of (ops : list section_op) : Z := fold_left depth_after ops 0.

(** At depth [d], entered with the flag at [p]. *)
Definition at_depth (p : bool) (d : Z) (s : irq) : Prop :=
  cpu_irq_critical_section_counter s = d /\
  if d =? 0 then primask s = p
  else primask s = true /\ cpu_irq_prev_interrupt_state s = negb p.

Lemma op_depth p d o s : 0 <= d < 2 ^ 32 -> 0 <= depth_after d o < 2 ^ 32 -> at_depth p d s ->
  at_depth p (depth_after d o) (perform_op o s).
Proof.
  intros Hd Hd' [Hc Hp]. unfold at_depth. destruct o; cbn [perform_op depth_after] in *.
  - unfold cpu_irq_enter_critical, cpu_irq_is_enabled. rewrite Hc.
    destruct (Z.eqb_spec (d + 1) 0); [lia|].
    destruct (Z.eqb_spec d 0) as [->|Hne]; [|by rewrite Hc; simpl; rewrite u32_id].
    subst p. destruct (primask s) eqn:E; simpl; rewrite Hc; by repeat split.
  - destruct (Z.eqb_spec d 0); [lia|]. destruct Hp as [Hp1 Hp2].
    unfold cpu_irq_leave_critical. rewrite Hc, u32_id by (unfold is_u32; lia). cbn. rewrite Hp2.
    destruct (Z.eqb_spec (d - 1) 0) as [->|]; [|done]. destruct p; cbn; by repeat split.
Qed.

Lemma run_depth p ops d s : 0 <= d < 2 ^ 32 -> nested d ops -> at_depth p d s ->
  at_depth p (fold_left depth_after ops d) (fold_left (fun s o => perform_op o s) ops s).
Proof.
  revert d s. induction ops as [|o ops IH]; intros d s Hd Hn Hat; cbn [fold_left]; [done|].
  destruct Hn as [Ho Hn]. by apply IH; [|done|apply op_depth].
Qed.

(** Critical sections nest: inside any of them interrupts are off, and leaving
    the outermost one restores the interrupt flag as it was when that was
    entered, on or off. *)
Theorem critical_sections_nest ops s : cpu_irq_critical_section_counter s = 0 -> nested 0 ops ->
  cpu_irq_critical_section_counter (run_ops ops s) = depth_of ops /\
  primask (run_ops ops s) = (if depth_of ops =? 0 then primask s else true).
Proof.
  intros Hs Hn. assert (at_depth (primask s) 0 s) as H0 by done.
  destruct (run_depth (primask s) ops 0 s) as [Hc Hp]; [lia|done..|].
  fold (run_ops ops s) (depth_of ops) in Hc, Hp. split; [done|].
  by destruct (depth_of ops =? 0); [|apply Hp].
Qed.

Lemma critical_sections_nest_witness :
  let s := Irq false 0 false true in let ops := [Enter; Enter; Leave; Leave] in
  nested 0 ops /\
  (cpu_irq_critical_section_counter (run_ops ops s) = depth_of ops /\
   primask (run_ops ops s) = (if depth_of ops =? 0 then primask s else true)).
Proof. split; [simpl; lia|]. apply (critical_sections_nest [Enter; Enter; Leave; Leave]); [done|simpl; lia]. Defined.
