(* ===== verification/Pio.v ===== *)
(** * The PIO driver (src/src/ASF/sam/drivers/pio/pio.c)

    Pin-level input and output.  A PIO instance is its base address; a
    register is the base plus the offset of [component_pio.h].  The functions
    are those compiled for the SAM3X. *)

From S2P Require Import Prelude Prog.

(** ** Registers *)

Definition PIO_PER p := p + 0x0.
Definition PIO_PDR p := p + 0x4.
Definition PIO_OER p := p + 0x10.
Definition PIO_ODR p := p + 0x14.
Definition PIO_IFER p := p + 0x20.
Definition PIO_IFDR p := p + 0x24.
Definition PIO_SODR p := p + 0x30.
Definition PIO_CODR p := p + 0x34.
Definition PIO_ODSR p := p + 0x38.
Definition PIO_PDSR p := p + 0x3C.
Definition PIO_IER p := p + 0x40.
Definition PIO_IDR p := p + 0x44.
Definition PIO_IMR p := p + 0x48.
Definition PIO_ISR p := p + 0x4C.
Definition PIO_MDER p := p + 0x50.
Definition PIO_MDDR p := p + 0x54.
Definition PIO_MDSR p := p + 0x58.
Definition PIO_PUDR p := p + 0x60.
Definition PIO_PUER p := p + 0x64.
Definition PIO_ABSR p := p + 0x70.
Definition PIO_SCIFSR p := p + 0x80.
Definition PIO_DIFSR p := p + 0x84.
Definition PIO_SCDR p := p + 0x8C.
Definition PIO_OWER p := p + 0xA0.
Definition PIO_OWDR p := p + 0xA4.
Definition PIO_OWSR p := p + 0xA8.
Definition PIO_AIMER p := p + 0xB0.
Definition PIO_AIMDR p := p + 0xB4.
Definition PIO_ESR p := p + 0xC0.
Definition PIO_LSR p := p + 0xC4.
Definition PIO_FELLSR p := p + 0xD0.
Definition PIO_REHLSR p := p + 0xD4.
Definition PIO_WPMR p := p + 0xE4.
Definition PIO_WPSR p := p + 0xE8.

Definition PIOA : Z := 0x400E0E00.
Definition PIOB : Z := 0x400E1000.
Definition PIO_DELTA : Z := PIOB - PIOA.
Definition ID_PIOA : Z := 11.

(** ** Pin types and attributes ([pio.h]) *)

Definition PIO_TYPE_Msk : Z := Z.shiftl 0xF 27.
Definition PIO_NOT_A_PIN : Z := Z.shiftl 0x0 27.
Definition PIO_PERIPH_A : Z := Z.shiftl 0x1 27.
Definition PIO_PERIPH_B : Z := Z.shiftl 0x2 27.
Definition PIO_INPUT : Z := Z.shiftl 0x5 27.
Definition PIO_OUTPUT_0 : Z := Z.shiftl 0x6 27.
Definition PIO_OUTPUT_1 : Z := Z.shiftl 0x7 27.

Definition PIO_PULLUP : Z := 0x1.
Definition PIO_DEGLITCH : Z := 0x2.
Definition PIO_OPENDRAIN : Z := 0x4.
Definition PIO_DEBOUNCE : Z := 0x8.
Definition PIO_IT_AIME : Z := 0x10.
Definition PIO_IT_RE_OR_HL : Z := 0x20.
Definition PIO_IT_EDGE : Z := 0x40.

Definition FREQ_SLOW_CLOCK_EXT : Z := 32768.
Definition PIO_SCDR_DIV (v : Z) : Z := Z.land 0x3fff (u32 v).
Definition PIO_WPMR_WPEN : Z := 0x1.
Definition PIO_WPMR_WPKEY_PASSWD : Z := u32 (Z.shiftl 0x50494F 8).

Definition b2z (b : bool) : Z := if b then 1 else 0.

(** ** Port-level operations *)

Definition pio_pull_up (p_pio ul_mask ul_pull_up_enable : Z) : prog hw unit :=
  if negb (ul_pull_up_enable =? 0) then wr (PIO_PUER p_pio) ul_mask
  else wr (PIO_PUDR p_pio) ul_mask.

Definition pio_set_debounce_filter (p_pio ul_mask ul_cut_off : Z) : prog hw unit :=
  wr (PIO_DIFSR p_pio) ul_mask;;
  if u32 (2 * ul_cut_off) =? 0 then Halt Undefined
  else wr (PIO_SCDR p_pio)
          (PIO_SCDR_DIV (FREQ_SLOW_CLOCK_EXT / u32 (2 * ul_cut_off) - 1)).

Definition pio_set (p_pio ul_mask : Z) : prog hw unit := wr (PIO_SODR p_pio) ul_mask.

Definition pio_clear (p_pio ul_mask : Z) : prog hw unit := wr (PIO_CODR p_pio) ul_mask.

Definition pio_get (p_pio ul_type ul_mask : Z) : prog hw Z :=
  let! ul_reg := (if (ul_type =? PIO_OUTPUT_0) || (ul_type =? PIO_OUTPUT_1)
                  then rd (PIO_ODSR p_pio) else rd (PIO_PDSR p_pio)) in
  if Z.land ul_reg ul_mask =? 0 then Ret 0 else Ret 1.

Definition pio_disable_interrupt (p_pio ul_mask : Z) : prog hw unit :=
  wr (PIO_IDR p_pio) ul_mask.

(** The [switch] returns before the pins are taken from the PIO for the types
    that are no peripheral; any other value falls through it. *)
Definition pio_set_peripheral (p_pio ul_type ul_mask : Z) : prog hw unit :=
  wr (PIO_IDR p_pio) ul_mask;;
  if ul_type =? PIO_PERIPH_A then
    let! ul_sr := rd (PIO_ABSR p_pio) in
    modify (PIO_ABSR p_pio) (fun v => Z.land v (Z.land (not32 ul_mask) ul_sr));;
    wr (PIO_PDR p_pio) ul_mask
  else if ul_type =? PIO_PERIPH_B then
    let! ul_sr := rd (PIO_ABSR p_pio) in
    wr (PIO_ABSR p_pio) (Z.lor ul_mask ul_sr);;
    wr (PIO_PDR p_pio) ul_mask
  else if (ul_type =? PIO_INPUT) || (ul_type =? PIO_OUTPUT_0)
       || (ul_type =? PIO_OUTPUT_1) || (ul_type =? PIO_NOT_A_PIN) then Ret tt
  else wr (PIO_PDR p_pio) ul_mask.

Definition pio_set_input (p_pio ul_mask ul_attribute : Z) : prog hw unit :=
  pio_disable_interrupt p_pio ul_mask;;
  pio_pull_up p_pio ul_mask (Z.land ul_attribute PIO_PULLUP);;
  (if has_bits ul_attribute (Z.lor PIO_DEGLITCH PIO_DEBOUNCE)
   then wr (PIO_IFER p_pio) ul_mask else wr (PIO_IFDR p_pio) ul_mask);;
  (if has_bits ul_attribute PIO_DEGLITCH then wr (PIO_SCIFSR p_pio) ul_mask
   else if has_bits ul_attribute PIO_DEBOUNCE then wr (PIO_DIFSR p_pio) ul_mask
   else Ret tt);;
  wr (PIO_ODR p_pio) ul_mask;;
  wr (PIO_PER p_pio) ul_mask.

Definition pio_set_output (p_pio ul_mask ul_default_level ul_multidrive_enable
    ul_pull_up_enable : Z) : prog hw unit :=
  pio_disable_interrupt p_pio ul_mask;;
  pio_pull_up p_pio ul_mask ul_pull_up_enable;;
  (if negb (ul_multidrive_enable =? 0) then wr (PIO_MDER p_pio) ul_mask
   else wr (PIO_MDDR p_pio) ul_mask);;
  (if negb (ul_default_level =? 0) then wr (PIO_SODR p_pio) ul_mask
   else wr (PIO_CODR p_pio) ul_mask);;
  wr (PIO_OER p_pio) ul_mask;;
  wr (PIO_PER p_pio) ul_mask.

Definition pio_configure (p_pio ul_type ul_mask ul_attribute : Z) : prog hw Z :=
  if (ul_type =? PIO_PERIPH_A) || (ul_type =? PIO_PERIPH_B) then
    pio_set_peripheral p_pio ul_type ul_mask;;
    pio_pull_up p_pio ul_mask (Z.land ul_attribute PIO_PULLUP);;
    Ret 1
  else if ul_type =? PIO_INPUT then
    pio_set_input p_pio ul_mask ul_attribute;; Ret 1
  else if (ul_type =? PIO_OUTPUT_0) || (ul_type =? PIO_OUTPUT_1) then
    pio_set_output p_pio ul_mask (b2z (ul_type =? PIO_OUTPUT_1))
      (b2z (has_bits ul_attribute PIO_OPENDRAIN))
      (b2z (has_bits ul_attribute PIO_PULLUP));; Ret 1
  else Ret 0.

Definition pio_get_output_data_status (p_pio ul_mask : Z) : prog hw Z :=
  let! r := rd (PIO_ODSR p_pio) in
  if Z.land r ul_mask =? 0 then Ret 0 else Ret 1.

Definition pio_set_multi_driver (p_pio ul_mask ul_multi_driver_enable : Z) : prog hw unit :=
  if negb (ul_multi_driver_enable =? 0) then wr (PIO_MDER p_pio) ul_mask
  else wr (PIO_MDDR p_pio) ul_mask.

Definition pio_get_multi_driver_status (p_pio : Z) : prog hw Z := rd (PIO_MDSR p_pio).

Definition pio_enable_output_write (p_pio ul_mask : Z) : prog hw unit :=
  wr (PIO_OWER p_pio) ul_mask.
Definition pio_disable_output_write (p_pio ul_mask : Z) : prog hw unit :=
  wr (PIO_OWDR p_pio) ul_mask.
Definition pio_get_output_write_status (p_pio : Z) : prog hw Z := rd (PIO_OWSR p_pio).
Definition pio_sync_output_write (p_pio ul_mask : Z) : prog hw unit :=
  wr (PIO_ODSR p_pio) ul_mask.

Definition pio_configure_interrupt (p_pio ul_mask ul_attr : Z) : prog hw unit :=
  if has_bits ul_attr PIO_IT_AIME then
    wr (PIO_AIMER p_pio) ul_mask;;
    (if has_bits ul_attr PIO_IT_RE_OR_HL then wr (PIO_REHLSR p_pio) ul_mask
     else wr (PIO_FELLSR p_pio) ul_mask);;
    (if has_bits ul_attr PIO_IT_EDGE then wr (PIO_ESR p_pio) ul_mask
     else wr (PIO_LSR p_pio) ul_mask)
  else wr (PIO_AIMDR p_pio) ul_mask.

Definition pio_enable_interrupt (p_pio ul_mask : Z) : prog hw unit :=
  wr (PIO_IER p_pio) ul_mask.
Definition pio_get_interrupt_status (p_pio : Z) : prog hw Z := rd (PIO_ISR p_pio).
Definition pio_get_interrupt_mask (p_pio : Z) : prog hw Z := rd (PIO_IMR p_pio).

Definition pio_set_additional_interrupt_mode (p_pio ul_mask ul_attribute : Z)
    : prog hw unit :=
  if has_bits ul_attribute PIO_IT_AIME then
    wr (PIO_AIMER p_pio) ul_mask;;
    (if has_bits ul_attribute PIO_IT_RE_OR_HL then wr (PIO_REHLSR p_pio) ul_mask
     else wr (PIO_FELLSR p_pio) ul_mask);;
    (if has_bits ul_attribute PIO_IT_EDGE then wr (PIO_ESR p_pio) ul_mask
     else wr (PIO_LSR p_pio) ul_mask)
  else wr (PIO_AIMDR p_pio) ul_mask.

Definition pio_set_writeprotect (p_pio ul_enable : Z) : prog hw unit :=
  wr (PIO_WPMR p_pio) (Z.lor PIO_WPMR_WPKEY_PASSWD (Z.land ul_enable PIO_WPMR_WPEN)).
Definition pio_get_writeprotect_status (p_pio : Z) : prog hw Z := rd (PIO_WPSR p_pio).

(** ** Pin-level operations *)

Definition pio_get_pin_group (ul_pin : Z) : Z :=
  u32 (PIOA + PIO_DELTA * Z.shiftr ul_pin 5).
Definition pio_get_pin_group_id (ul_pin : Z) : Z := u32 (ID_PIOA + Z.shiftr ul_pin 5).
Definition pio_get_pin_group_mask (ul_pin : Z) : Z :=
  u32 (Z.shiftl 1 (Z.land ul_pin 0x1F)).

Definition pio_get_pin_value (ul_pin : Z) : prog hw Z :=
  let p_pio := pio_get_pin_group ul_pin in
  let! r := rd (PIO_PDSR p_pio) in
  Ret (Z.land (Z.shiftr r (Z.land ul_pin 0x1F)) 1).

Definition pio_set_pin_high (ul_pin : Z) : prog hw unit :=
  let p_pio := pio_get_pin_group ul_pin in
  wr (PIO_SODR p_pio) (pio_get_pin_group_mask ul_pin).

Definition pio_set_pin_low (ul_pin : Z) : prog hw unit :=
  let p_pio := pio_get_pin_group ul_pin in
  wr (PIO_CODR p_pio) (pio_get_pin_group_mask ul_pin).

Definition pio_toggle_pin (ul_pin : Z) : prog hw unit :=
  let p_pio := pio_get_pin_group ul_pin in
  let mask := pio_get_pin_group_mask ul_pin in
  let! r := rd (PIO_ODSR p_pio) in
  if has_bits r mask then wr (PIO_CODR p_pio) mask else wr (PIO_SODR p_pio) mask.

(** The attribute tests of the two output types compare with the whole mask
    ([(ul_flags & M) == M]), as the ported code does. *)
Definition pio_configure_pin (ul_pin ul_flags : Z) : prog hw Z :=
  let p_pio := pio_get_pin_group ul_pin in
  let mask := pio_get_pin_group_mask ul_pin in
  let ty := Z.land ul_flags PIO_TYPE_Msk in
  if ty =? PIO_PERIPH_A then
    pio_set_peripheral p_pio PIO_PERIPH_A mask;;
    pio_pull_up p_pio mask (Z.land ul_flags PIO_PULLUP);; Ret 1
  else if ty =? PIO_PERIPH_B then
    pio_set_peripheral p_pio PIO_PERIPH_B mask;;
    pio_pull_up p_pio mask (Z.land ul_flags PIO_PULLUP);; Ret 1
  else if ty =? PIO_INPUT then
    pio_set_input p_pio mask ul_flags;; Ret 1
  else if (ty =? PIO_OUTPUT_0) || (ty =? PIO_OUTPUT_1) then
    let test := b2z (Z.land ul_flags PIO_OUTPUT_1 =? PIO_OUTPUT_1) in
    pio_set_output p_pio mask test
      (b2z (Z.land ul_flags PIO_OPENDRAIN =? PIO_OPENDRAIN))
      (b2z (Z.land ul_flags PIO_PULLUP =? PIO_PULLUP));; Ret 1
  else Ret 0.

Definition pio_set_pin_group_high (p_pio ul_mask : Z) : prog hw unit :=
  wr (PIO_SODR p_pio) ul_mask.
Definition pio_set_pin_group_low (p_pio ul_mask : Z) : prog hw unit :=
  wr (PIO_CODR p_pio) ul_mask.
Definition pio_toggle_pin_group (p_pio ul_mask : Z) : prog hw unit :=
  let! r := rd (PIO_ODSR p_pio) in
  if has_bits r ul_mask then wr (PIO_CODR p_pio) ul_mask
  else wr (PIO_SODR p_pio) ul_mask.

Definition pio_configure_pin_group (p_pio ul_mask ul_flags : Z) : prog hw Z :=
  let ty := Z.land ul_flags PIO_TYPE_Msk in
  if ty =? PIO_PERIPH_A then
    pio_set_peripheral p_pio PIO_PERIPH_A ul_mask;;
    pio_pull_up p_pio ul_mask (Z.land ul_flags PIO_PULLUP);; Ret 1
  else if ty =? PIO_PERIPH_B then
    pio_set_peripheral p_pio PIO_PERIPH_B ul_mask;;
    pio_pull_up p_pio ul_mask (Z.land ul_flags PIO_PULLUP);; Ret 1
  else if ty =? PIO_INPUT then
    pio_set_input p_pio ul_mask ul_flags;; Ret 1
  else if (ty =? PIO_OUTPUT_0) || (ty =? PIO_OUTPUT_1) then
    pio_set_output p_pio ul_mask
      (b2z (Z.land ul_flags PIO_OUTPUT_1 =? PIO_OUTPUT_1))
      (b2z (has_bits ul_flags PIO_OPENDRAIN))
      (b2z (has_bits ul_flags PIO_PULLUP));; Ret 1
  else Ret 0.

Definition pio_enable_pin_interrupt (ul_pin : Z) : prog hw unit :=
  wr (PIO_IER (pio_get_pin_group ul_pin)) (pio_get_pin_group_mask ul_pin).
Definition pio_disable_pin_interrupt (ul_pin : Z) : prog hw unit :=
  wr (PIO_IDR (pio_get_pin_group ul_pin)) (pio_get_pin_group_mask ul_pin).

(** ** Totality *)

Lemma rd_total a : total (rd a).
Proof. by intros x. Qed.
Lemma wr_total a v : total (wr a v).
Proof. by intros x. Qed.
#[export] Hint Resolve rd_total wr_total : total.

Lemma pio_pull_up_total p m u : total (pio_pull_up p m u).
Proof. unfold pio_pull_up. total_tac. Qed.
#[export] Hint Resolve pio_pull_up_total : total.

Lemma pio_set_input_total p m a : total (pio_set_input p m a).
Proof. unfold pio_set_input, pio_disable_interrupt. total_tac. Qed.

Lemma pio_set_output_total p m d o u : total (pio_set_output p m d o u).
Proof. unfold pio_set_output, pio_disable_interrupt. total_tac. Qed.

Lemma pio_set_peripheral_total p t m : total (pio_set_peripheral p t m).
Proof. unfold pio_set_peripheral, modify. total_tac. Qed.
#[export] Hint Resolve pio_set_input_total pio_set_output_total pio_set_peripheral_total : total.

Lemma pio_configure_pin_total pin flags : total (pio_configure_pin pin flags).
Proof. unfold pio_configure_pin. total_tac. Qed.

Lemma pio_get_pin_value_total pin : total (pio_get_pin_value pin).
Proof. unfold pio_get_pin_value. total_tac. Qed.

Lemma pio_set_pin_high_total pin : total (pio_set_pin_high pin).
Proof. unfold pio_set_pin_high. total_tac. Qed.
Lemma pio_set_pin_low_total pin : total (pio_set_pin_low pin).
Proof. unfold pio_set_pin_low. total_tac. Qed.
#[export] Hint Resolve pio_configure_pin_total pio_get_pin_value_total
  pio_set_pin_high_total pio_set_pin_low_total : total.
