(* ===== verification/PioPins.v ===== *)
(** * The pins of a PIO port

    A model of the registers of one PIO port (set and clear registers acting on
    status registers), and what the driver's configuration functions do to
    the pins: they touch no pin but their own, and they never drive a pin to
    a level it was not asked for. *)

From S2P Require Import Prelude Prog Pio.

(** ** The port *)

(** The status registers a configuration changes: PIO enable, output enable,
    output data, interrupt mask, multi-drive, pull-up disable, peripheral
    select, input filter. *)
Record port := Port {
  psr : Z; osr : Z; odsr : Z; imr : Z; mdsr : Z; pusr : Z; absr : Z; ifsr : Z
}.

Definition set_bits (r v : Z) : Z := Z.lor r v.
Definition clear_bits (r v : Z) : Z := Z.ldiff r v.

(** A write of [v] at offset [k] of the port. *)
Definition port_set (k v : Z) (p : port) : port :=
  let '(Port e o d i m u b f) := p in
  if k =? 0x0 then Port (set_bits e v) o d i m u b f
  else if k =? 0x4 then Port (clear_bits e v) o d i m u b f
  else if k =? 0x10 then Port e (set_bits o v) d i m u b f
  else if k =? 0x14 then Port e (clear_bits o v) d i m u b f
  else if k =? 0x20 then Port e o d i m u b (set_bits f v)
  else if k =? 0x24 then Port e o d i m u b (clear_bits f v)
  else if k =? 0x30 then Port e o (set_bits d v) i m u b f
  else if k =? 0x34 then Port e o (clear_bits d v) i m u b f
  else if k =? 0x40 then Port e o d (set_bits i v) m u b f
  else if k =? 0x44 then Port e o d (clear_bits i v) m u b f
  else if k =? 0x50 then Port e o d i (set_bits m v) u b f
  else if k =? 0x54 then Port e o d i (clear_bits m v) u b f
  else if k =? 0x60 then Port e o d i m (set_bits u v) b f
  else if k =? 0x64 then Port e o d i m (clear_bits u v) b f
  else if k =? 0x70 then Port e o d i m u v f
  else p.

(** A read at offset [k]; [inp] is the level of the pins that are not driven. *)
Definition port_get (inp k : Z) (p : port) : Z :=
  if k =? 0x38 then odsr p
  else if k =? 0x3C then Z.lor (Z.land (Z.land (psr p) (osr p)) (odsr p))
                               (Z.ldiff inp (Z.land (psr p) (osr p)))
  else if k =? 0x48 then imr p
  else if k =? 0x58 then mdsr p
  else if k =? 0x70 then absr p
  else 0.

(** The port at address [b] as an environment: every write must be to a register
    of the port, and [ok] is what must hold of the port after it. *)
Definition port_req (b : Z) (ok : port -> Prop) (e : hwop) (p : port) : Prop :=
  match e with Wr a v => 0 <= a - b < 0x100 /\ ok (port_set (a - b) v p) | _ => True end.

Definition port_step (b inp : Z) (e : hwop) (p : port) (x : hw_ans e) (p' : port) : Prop :=
  match e return hw_ans e -> Prop with
  | Wr a v => fun _ => p' = port_set (a - b) v p
  | Rd a => fun x => x = port_get inp (a - b) p /\ p' = p
  | _ => fun _ => p' = p
  end x.

Definition port_env (b inp : Z) (ok : port -> Prop) : env hw port :=
  {| req := port_req b ok : op hw -> _; step := port_step b inp |}.

(** ** Isolation *)

(** The registers agree on every pin outside the mask. *)
Definition agree_off (m : Z) (p p' : port) : Prop :=
  forall i, 0 <= i < 32 -> Z.testbit m i = false ->
    Z.testbit (psr p) i = Z.testbit (psr p') i /\ Z.testbit (osr p) i = Z.testbit (osr p') i /\
    Z.testbit (odsr p) i = Z.testbit (odsr p') i /\ Z.testbit (imr p) i = Z.testbit (imr p') i /\
    Z.testbit (mdsr p) i = Z.testbit (mdsr p') i /\ Z.testbit (pusr p) i = Z.testbit (pusr p') i /\
    Z.testbit (absr p) i = Z.testbit (absr p') i /\ Z.testbit (ifsr p) i = Z.testbit (ifsr p') i.

#[global] Instance agree_off_preorder m : PreOrder (agree_off m).
Proof.
  split.
  - intros p i _ _. by repeat split.
  - intros p q r H1 H2 i Hr Hi. specialize (H1 i Hr Hi). specialize (H2 i Hr Hi).
    repeat match goal with H : _ /\ _ |- _ => destruct H end. repeat split; congruence.
Qed.

Lemma set_bits_off r m i : Z.testbit m i = false -> Z.testbit (set_bits r m) i = Z.testbit r i.
Proof. intros Hi. unfold set_bits. by rewrite Z.lor_spec, Hi, orb_false_r. Qed.
Lemma clear_bits_off r m i : Z.testbit m i = false -> Z.testbit (clear_bits r m) i = Z.testbit r i.
Proof. intros Hi. unfold clear_bits. by rewrite Z.ldiff_spec, Hi, andb_true_r. Qed.

(** Writing a mask to any set or clear register touches the mask's pins only. *)
Lemma port_set_off k m p : k <> 0x70 -> agree_off m p (port_set k m p).
Proof.
  intros Hk i _ Hi. destruct p. unfold port_set.
  repeat match goal with |- context [if ?b then _ else _] => destruct b eqn:? end;
    to_prop; try lia; cbn; rewrite ?set_bits_off, ?clear_bits_off by done; by repeat split.
Qed.

Lemma not32_off m i : 0 <= i < 32 -> Z.testbit m i = false -> Z.testbit (not32 m) i = true.
Proof.
  intros Hi Hm. unfold not32, u32. rewrite Z.mod_pow2_bits_low by lia.
  rewrite Z.lnot_spec by lia. by rewrite Hm.
Qed.

Lemma absr_off m v p :
  (forall i, 0 <= i < 32 -> Z.testbit m i = false -> Z.testbit v i = Z.testbit (absr p) i) ->
  agree_off m p (port_set 0x70 v p).
Proof. intros Hv i Hr Hi. specialize (Hv i Hr Hi). destruct p. cbn in *. by repeat split. Qed.

(** A program that ends with the port unchanged off the mask. *)
Definition keeps_off {A} (m : Z) (p0 : port) (o : outcome A) (p : port) : Prop := agree_off m p0 p.

Section isolation.
Context (b inp m : Z).
#[local] Notation "'N'" := (port_env b inp (fun _ => True)).

Lemma wr_off k p0 p :
  0 <= k < 0x100 -> k <> 0x70 -> agree_off m p0 p -> wp N (wr (b + k) m) (keeps_off m p0) p.
Proof.
  intros Hb Hk Hp. split; [split; [lia|done]|]. intros [] p' ->. rewrite Z.add_simpl_l. simpl.
  unfold keeps_off. etrans; [exact Hp|]. by apply port_set_off.
Qed.

Lemma keeps_seq {A B} (q : prog hw A) (f : A -> prog hw B) p0 p :
  wp N q (keeps_off m p0) p ->
  (forall a p', agree_off m p0 p' -> wp N (f a) (keeps_off m p0) p') ->
  wp N (bind q f) (keeps_off m p0) p.
Proof. intros Hq Hf. eapply wp_seq; [exact Hq|]. intros [a|h] p' Hp; simpl; [by apply Hf|done]. Qed.

(** Splits a driver function into its writes. *)
Ltac off_tac :=
  repeat match goal with
  | |- wp _ (Ret _) _ _ => assumption
  | |- wp _ (bind _ _) _ _ => apply keeps_seq; [|intros ? ? ?]
  | |- wp _ (if ?c then _ else _) _ _ => destruct c
  | |- wp _ (wr _ _) _ _ => apply wr_off; [done|done|assumption]
  end.

Lemma pull_up_off u p0 p :
  agree_off m p0 p -> wp N (pio_pull_up b m u) (keeps_off m p0) p.
Proof. intros Hp. unfold pio_pull_up. off_tac. Qed.

Lemma set_input_off a p0 p :
  agree_off m p0 p -> wp N (pio_set_input b m a) (keeps_off m p0) p.
Proof. intros Hp. unfold pio_set_input, pio_disable_interrupt, pio_pull_up. off_tac. Qed.

Lemma set_output_off d o u p0 p :
  agree_off m p0 p -> wp N (pio_set_output b m d o u) (keeps_off m p0) p.
Proof. intros Hp. unfold pio_set_output, pio_disable_interrupt, pio_pull_up. off_tac. Qed.

Lemma wr_absr_off v p0 p :
  (forall i, 0 <= i < 32 -> Z.testbit m i = false -> Z.testbit v i = Z.testbit (absr p) i) ->
  agree_off m p0 p -> wp N (wr (PIO_ABSR b) v) (keeps_off m p0) p.
Proof.
  intros Hv Hp. unfold PIO_ABSR. split; [split; [lia|done]|]. intros [] p' ->. rewrite Z.add_simpl_l.
  simpl. unfold keeps_off. etrans; [exact Hp|]. by apply absr_off.
Qed.

(** Reading the select register before changing it. *)
Lemma rd_absr {A} (f : Z -> prog hw A) p0 p :
  wp N (f (absr p)) (keeps_off m p0) p -> wp N (bind (rd (PIO_ABSR b)) f) (keeps_off m p0) p.
Proof.
  intros Hf. split; [done|]. intros x p' [-> ->]. unfold PIO_ABSR. by rewrite Z.add_simpl_l.
Qed.

Lemma set_peripheral_off t p0 p :
  agree_off m p0 p -> wp N (pio_set_peripheral b t m) (keeps_off m p0) p.
Proof.
  intros Hp. unfold pio_set_peripheral.
  apply keeps_seq; [by apply wr_off|intros _ p1 Hp1].
  destruct (t =? PIO_PERIPH_A); [|destruct (t =? PIO_PERIPH_B)].
  - apply rd_absr, keeps_seq; [|intros _ p2 Hp2; by apply wr_off].
    unfold modify. apply rd_absr, wr_absr_off; [|done]. intros i Hi Hm.
    rewrite !Z.land_spec, not32_off by done. simpl. apply andb_diag.
  - apply rd_absr, keeps_seq; [|intros _ p2 Hp2; by apply wr_off].
    apply wr_absr_off; [|done]. intros i Hi Hm. by rewrite Z.lor_spec, Hm.
  - destruct (_ || _); [done|by apply wr_off].
Qed.
End isolation.

(** ** Glitch-free outputs *)

(** The PIO drives pin [i]. *)
Definition driven (i : Z) (p : port) : bool := Z.testbit (psr p) i && Z.testbit (osr p) i.

(** Pin [i], if driven, is at [level]. *)
Definition drives_only (i : Z) (level : bool) (p : port) : Prop :=
  driven i p = true -> Z.testbit (odsr p) i = level.

Definition output_done (i : Z) (level : bool) {A} (o : outcome A) (p : port) : Prop :=
  driven i p = true /\ Z.testbit (odsr p) i = level /\ Z.testbit (imr p) i = false.

Lemma set_bits_on r m i : Z.testbit m i = true -> Z.testbit (set_bits r m) i = true.
Proof. intros Hi. unfold set_bits. by rewrite Z.lor_spec, Hi, orb_true_r. Qed.
Lemma clear_bits_on r m i : Z.testbit m i = true -> Z.testbit (clear_bits r m) i = false.
Proof. intros Hi. unfold clear_bits. by rewrite Z.ldiff_spec, Hi, andb_false_r. Qed.

(** A pin that is not driven may be written anything but the two enables. *)
Lemma set_output_clean b inp m i d o u p :
  Z.testbit m i = true -> driven i p = false ->
  wp (port_env b inp (drives_only i (negb (d =? 0)))) (pio_set_output b m d o u)
    (output_done i (negb (d =? 0))) p.
Proof.
  intros Hm Hd. destruct p as [e os ds im md pu ab fi]. unfold driven in Hd. cbn in Hd.
  unfold pio_set_output, pio_disable_interrupt, pio_pull_up, PIO_IDR, PIO_PUER, PIO_PUDR,
    PIO_MDER, PIO_MDDR, PIO_SODR, PIO_CODR, PIO_OER, PIO_PER.
  destruct (u =? 0), (o =? 0), (d =? 0); cbn [negb bind wr trigger];
    repeat (split; [split; [lia|]|intros ? ? ->]); simpl; rewrite ?Z.add_simpl_l;
    unfold drives_only, output_done, driven; cbn;
    rewrite ?set_bits_on, ?clear_bits_on by done; try done; try (rewrite Hd; done).
Qed.

(** ** Pins *)

Lemma pin_mask_bit pin i :
  0 <= pin -> 0 <= i < 32 ->
  Z.testbit (pio_get_pin_group_mask pin) i = (i =? Z.land pin 0x1F).
Proof.
  intros Hp Hi. unfold pio_get_pin_group_mask, u32.
  assert (0 <= Z.land pin 0x1F < 32) as Hj.
  { change 0x1F with (Z.ones 5). rewrite Z.land_ones by lia. apply Z.mod_pos_bound. lia. }
  rewrite Z.mod_pow2_bits_low, Z.shiftl_spec by lia.
  destruct (Z.eqb_spec i (Z.land pin 31)) as [-> |Hne]; [by rewrite Z.sub_diag|].
  destruct (decide (i < Z.land pin 31)); [apply Z.testbit_neg_r; lia|].
  apply (testbit_high 1 1); lia.
Qed.

Lemma configure_pin_off pin flags inp p :
  wp (port_env (pio_get_pin_group pin) inp (fun _ => True)) (pio_configure_pin pin flags)
    (keeps_off (pio_get_pin_group_mask pin) p) p.
Proof.
  assert (agree_off (pio_get_pin_group_mask pin) p p) as Hrefl by reflexivity.
  unfold pio_configure_pin.
  repeat match goal with |- wp _ (if ?c then _ else _) _ _ => destruct c end;
    repeat first [assumption|by apply set_peripheral_off|by apply pull_up_off
                 |by apply set_input_off|by apply set_output_off
                 |apply keeps_seq; [|intros ? ? ?]].
Qed.

(** Configuring a pin touches that pin only.  Whatever the pin and the flags,
    [pio_configure_pin] writes no register outside the pin's port and leaves
    every status register of that port unchanged at every other pin. *)
Theorem configure_pin_isolated pin flags inp p :
  0 <= pin ->
  wp (port_env (pio_get_pin_group pin) inp (fun _ => True)) (pio_configure_pin pin flags)
    (fun _ p' => forall i, 0 <= i < 32 -> i <> Z.land pin 0x1F ->
       Z.testbit (psr p) i = Z.testbit (psr p') i /\ Z.testbit (osr p) i = Z.testbit (osr p') i /\
       Z.testbit (odsr p) i = Z.testbit (odsr p') i /\ Z.testbit (imr p) i = Z.testbit (imr p') i /\
       Z.testbit (mdsr p) i = Z.testbit (mdsr p') i /\ Z.testbit (pusr p) i = Z.testbit (pusr p') i /\
       Z.testbit (absr p) i = Z.testbit (absr p') i /\ Z.testbit (ifsr p) i = Z.testbit (ifsr p') i)
    p.
Proof.
  intros Hp. eapply wp_mono; [apply configure_pin_off|]. intros o p' Hoff i Hi Hne.
  apply Hoff; [done|]. rewrite pin_mask_bit by done. by apply Z.eqb_neq.
Qed.

(** outputs come up without a glitch.  When a pin that is not driven is
    configured as an output, then in every intermediate state of the port the
    pin, if driven at all, is at the requested level; at the end it is driven
    at that level with its interrupt off. *)
Theorem configure_output_glitch_free pin flags inp p :
  0 <= pin ->
  Z.land flags PIO_TYPE_Msk = PIO_OUTPUT_0 \/ Z.land flags PIO_TYPE_Msk = PIO_OUTPUT_1 ->
  driven (Z.land pin 0x1F) p = false ->
  let level := Z.land flags PIO_OUTPUT_1 =? PIO_OUTPUT_1 in
  wp (port_env (pio_get_pin_group pin) inp (drives_only (Z.land pin 0x1F) level))
    (pio_configure_pin pin flags) (output_done (Z.land pin 0x1F) level) p.
Proof.
  intros Hp Hty Hd level. unfold pio_configure_pin. fold level.
  assert (0 <= Z.land pin 0x1F < 32) as Hj.
  { change 0x1F with (Z.ones 5). rewrite Z.land_ones by lia. apply Z.mod_pos_bound. lia. }
  assert (level = negb (b2z level =? 0)) as Hl by (by destruct level).
  assert (forall o u, wp (port_env (pio_get_pin_group pin) inp (drives_only (Z.land pin 0x1F) level))
    (pio_set_output (pio_get_pin_group pin) (pio_get_pin_group_mask pin) (b2z level) o u)
    (output_done (Z.land pin 0x1F) level) p) as Hset.
  { intros o u. pose proof (set_output_clean (pio_get_pin_group pin) inp
      (pio_get_pin_group_mask pin) (Z.land pin 0x1F) (b2z level) o u p) as Hs.
    rewrite <- Hl in Hs. apply Hs; [|done]. rewrite pin_mask_bit by done. apply Z.eqb_refl. }
  clearbody level.
  destruct Hty as [-> | ->]; closed_tests; cbn [orb]; (eapply wp_seq; [apply Hset|]); by intros [a|h] p' ?.
Qed.

Definition idle_port : port := Port 0 0 0 0xFFFFFFFF 0 0 0 0.

Lemma configure_pin_isolated_witness : let flags := Z.lor PIO_PERIPH_A PIO_DEBOUNCE in
  wp (port_env (pio_get_pin_group 97) 0 (fun _ => True)) (pio_configure_pin 97 flags)
    (fun _ p' => forall i, 0 <= i < 32 -> i <> Z.land 97 0x1F ->
       Z.testbit (psr idle_port) i = Z.testbit (psr p') i /\
       Z.testbit (osr idle_port) i = Z.testbit (osr p') i /\
       Z.testbit (odsr idle_port) i = Z.testbit (odsr p') i /\
       Z.testbit (imr idle_port) i = Z.testbit (imr p') i /\
       Z.testbit (mdsr idle_port) i = Z.testbit (mdsr p') i /\
       Z.testbit (pusr idle_port) i = Z.testbit (pusr p') i /\
       Z.testbit (absr idle_port) i = Z.testbit (absr p') i /\
       Z.testbit (ifsr idle_port) i = Z.testbit (ifsr p') i)
    idle_port.
Proof. apply (configure_pin_isolated 97 (Z.lor PIO_PERIPH_A PIO_DEBOUNCE) 0 idle_port). lia. Defined.

Lemma configure_output_glitch_free_witness :
  wp (port_env (pio_get_pin_group 97) 0 (drives_only 1 true))
    (pio_configure_pin 97 PIO_OUTPUT_1) (output_done 1 true) idle_port.
Proof.
  apply (configure_output_glitch_free 97 PIO_OUTPUT_1 0 idle_port); [lia|by right|done].
Defined.
