(* ===== verification/Pmc.v ===== *)
(** * Clocks and interrupts

    The parts of the power management controller driver
    (src/src/ASF/sam/drivers/pmc/pmc.c), of the system clock service
    (src/src/ASF/common/services/clock/sam3x/sysclk.h) and of the CMSIS
    interrupt controller functions that the drivers call. *)

From S2P Require Import Prelude Prog.

(** ** Peripheral clocks: the SAM3X has the PMC_PCR register *)

Definition PMC : Z := 0x400E0600.
Definition PMC_PCR : Z := PMC + 0x10C.
Definition PMC_PCR_CMD : Z := Z.shiftl 1 12.
Definition PMC_PCR_EN : Z := Z.shiftl 1 28.

Definition pmc_enable_periph_clk (ul_id : Z) : prog hw Z :=
  wr PMC_PCR (Z.land ul_id 0x7F);;
  let! r := rd PMC_PCR in
  let pcr := Z.lor (Z.lor r PMC_PCR_EN) PMC_PCR_CMD in
  wr PMC_PCR pcr;;
  Ret 0.

Definition pmc_disable_periph_clk (ul_id : Z) : prog hw Z :=
  wr PMC_PCR (Z.land ul_id 0x7F);;
  let! r := rd PMC_PCR in
  let pcr := Z.lor r PMC_PCR_CMD in
  wr PMC_PCR pcr;;
  Ret 0.

Definition pmc_is_periph_clk_enabled (ul_id : Z) : prog hw Z :=
  wr PMC_PCR (Z.land ul_id 0x7F);;
  let! r := rd PMC_PCR in
  Ret (if has_bits r PMC_PCR_EN then 1 else 0).

Definition sysclk_enable_peripheral_clock (ul_id : Z) : prog hw unit :=
  let! _ := pmc_enable_periph_clk ul_id in Ret tt.

(** ** Clock rates of this configuration: PLLA at 12 MHz times 7, no prescaler *)

Definition BOARD_FREQ_MAINCK_XTAL : Z := 12000000.
Definition CONFIG_PLL0_MUL : Z := 7.
Definition CONFIG_PLL0_DIV : Z := 1.

Definition sysclk_get_main_hz : Z := BOARD_FREQ_MAINCK_XTAL * CONFIG_PLL0_MUL / CONFIG_PLL0_DIV.
Definition sysclk_get_cpu_hz : Z := sysclk_get_main_hz.
Definition sysclk_get_peripheral_hz : Z := sysclk_get_main_hz.

(** ** The interrupt controller *)

Definition NVIC_BASE : Z := 0xE000E100.

Definition NVIC_EnableIRQ (irq : Z) : prog hw unit :=
  wr (NVIC_BASE + 4 * Z.shiftr irq 5) (u32 (Z.shiftl 1 (Z.land irq 0x1F))).

Definition NVIC_DisableIRQ (irq : Z) : prog hw unit :=
  wr (NVIC_BASE + 0x80 + 4 * Z.shiftr irq 5) (u32 (Z.shiftl 1 (Z.land irq 0x1F))).

Definition NVIC_ClearPendingIRQ (irq : Z) : prog hw unit :=
  wr (NVIC_BASE + 0x180 + 4 * Z.shiftr irq 5) (u32 (Z.shiftl 1 (Z.land irq 0x1F))).

(** Four priority bits, in the high half of the byte register of the line. *)
Definition NVIC_SetPriority (irq priority : Z) : prog hw unit :=
  wr (NVIC_BASE + 0x300 + irq) (Z.land (u32 (Z.shiftl priority 4)) 0xFF).

Definition configMAX_SYSCALL_INTERRUPT_PRIORITY : Z := Z.shiftl 5 4.
