(* ===== verification/Clock.v ===== *)
(** * The clock tree

    The power management controller's driver
    src/src/ASF/sam/drivers/pmc/pmc.c (master clock, oscillators, PLLs,
    programmable clocks; the peripheral clocks are in Pmc.v), the oscillator and
    PLL services src/src/ASF/common/services/clock/sam3x/osc.h and pll.h, the
    start of the clocks in sysclk.c, and the CMSIS functions of
    system_sam3x.c that set the flash wait states and work out the frequency. *)

From S2P Require Import Prelude Prog Pmc.

(** ** Registers *)

Definition PMC_SCER : Z := PMC + 0x00.
Definition PMC_SCDR : Z := PMC + 0x04.
Definition PMC_SCSR : Z := PMC + 0x08.
Definition PMC_PCER0 : Z := PMC + 0x10.
Definition PMC_PCDR0 : Z := PMC + 0x14.
Definition PMC_PCSR0 : Z := PMC + 0x18.
Definition CKGR_UCKR : Z := PMC + 0x1C.
Definition CKGR_MOR : Z := PMC + 0x20.
Definition CKGR_PLLAR : Z := PMC + 0x28.
Definition PMC_MCKR : Z := PMC + 0x30.
Definition PMC_USB : Z := PMC + 0x38.
Definition PMC_PCK (i : Z) : Z := PMC + 0x40 + 4 * i.
Definition PMC_IER : Z := PMC + 0x60.
Definition PMC_IDR : Z := PMC + 0x64.
Definition PMC_SR : Z := PMC + 0x68.
Definition PMC_IMR : Z := PMC + 0x6C.
Definition PMC_FSMR : Z := PMC + 0x70.
Definition PMC_WPMR : Z := PMC + 0xE4.
Definition PMC_WPSR : Z := PMC + 0xE8.
Definition PMC_PCER1 : Z := PMC + 0x100.
Definition PMC_PCDR1 : Z := PMC + 0x104.
Definition PMC_PCSR1 : Z := PMC + 0x108.

Definition PMC_SCER_UOTGCLK : Z := Z.shiftl 0x1 5.
Definition PMC_SCER_PCK0 : Z := Z.shiftl 0x1 8.
Definition PMC_SCER_PCK1 : Z := Z.shiftl 0x1 9.
Definition PMC_SCER_PCK2 : Z := Z.shiftl 0x1 10.
Definition PMC_SCDR_UOTGCLK : Z := Z.shiftl 0x1 5.
Definition PMC_SCDR_PCK0 : Z := Z.shiftl 0x1 8.
Definition PMC_SCDR_PCK1 : Z := Z.shiftl 0x1 9.
Definition PMC_SCDR_PCK2 : Z := Z.shiftl 0x1 10.
Definition PMC_SCSR_PCK0 : Z := Z.shiftl 0x1 8.
Definition CKGR_UCKR_UPLLEN : Z := Z.shiftl 0x1 16.
Definition CKGR_UCKR_UPLLCOUNT_Pos : Z := 20.
Definition CKGR_UCKR_UPLLCOUNT_Msk : Z := Z.shiftl 0xf CKGR_UCKR_UPLLCOUNT_Pos.
Definition CKGR_UCKR_UPLLCOUNT (value : Z) : Z := Z.land CKGR_UCKR_UPLLCOUNT_Msk (u32 (Z.shiftl value CKGR_UCKR_UPLLCOUNT_Pos)).
Definition CKGR_MOR_MOSCXTEN : Z := Z.shiftl 0x1 0.
Definition CKGR_MOR_MOSCXTBY : Z := Z.shiftl 0x1 1.
Definition CKGR_MOR_MOSCRCEN : Z := Z.shiftl 0x1 3.
Definition CKGR_MOR_MOSCRCF_Pos : Z := 4.
Definition CKGR_MOR_MOSCRCF_Msk : Z := Z.shiftl 0x7 CKGR_MOR_MOSCRCF_Pos.
Definition CKGR_MOR_MOSCRCF_4_MHz : Z := Z.shiftl 0x0 4.
Definition CKGR_MOR_MOSCRCF_8_MHz : Z := Z.shiftl 0x1 4.
Definition CKGR_MOR_MOSCRCF_12_MHz : Z := Z.shiftl 0x2 4.
Definition CKGR_MOR_MOSCXTST_Pos : Z := 8.
Definition CKGR_MOR_MOSCXTST_Msk : Z := Z.shiftl 0xff CKGR_MOR_MOSCXTST_Pos.
Definition CKGR_MOR_MOSCXTST (value : Z) : Z := Z.land CKGR_MOR_MOSCXTST_Msk (u32 (Z.shiftl value CKGR_MOR_MOSCXTST_Pos)).
Definition CKGR_MOR_KEY_Pos : Z := 16.
Definition CKGR_MOR_KEY_Msk : Z := Z.shiftl 0xff CKGR_MOR_KEY_Pos.
Definition CKGR_MOR_KEY (value : Z) : Z := Z.land CKGR_MOR_KEY_Msk (u32 (Z.shiftl value CKGR_MOR_KEY_Pos)).
Definition CKGR_MOR_MOSCSEL : Z := Z.shiftl 0x1 24.
Definition CKGR_MOR_CFDEN : Z := Z.shiftl 0x1 25.
Definition CKGR_PLLAR_DIVA_Pos : Z := 0.
Definition CKGR_PLLAR_DIVA_Msk : Z := Z.shiftl 0xff CKGR_PLLAR_DIVA_Pos.
Definition CKGR_PLLAR_DIVA (value : Z) : Z := Z.land CKGR_PLLAR_DIVA_Msk (u32 (Z.shiftl value CKGR_PLLAR_DIVA_Pos)).
Definition CKGR_PLLAR_PLLACOUNT_Pos : Z := 8.
Definition CKGR_PLLAR_PLLACOUNT_Msk : Z := Z.shiftl 0x3f CKGR_PLLAR_PLLACOUNT_Pos.
Definition CKGR_PLLAR_PLLACOUNT (value : Z) : Z := Z.land CKGR_PLLAR_PLLACOUNT_Msk (u32 (Z.shiftl value CKGR_PLLAR_PLLACOUNT_Pos)).
Definition CKGR_PLLAR_MULA_Pos : Z := 16.
Definition CKGR_PLLAR_MULA_Msk : Z := Z.shiftl 0x7ff CKGR_PLLAR_MULA_Pos.
Definition CKGR_PLLAR_MULA (value : Z) : Z := Z.land CKGR_PLLAR_MULA_Msk (u32 (Z.shiftl value CKGR_PLLAR_MULA_Pos)).
Definition CKGR_PLLAR_ONE : Z := Z.shiftl 0x1 29.
Definition PMC_MCKR_CSS_Pos : Z := 0.
Definition PMC_MCKR_CSS_Msk : Z := Z.shiftl 0x3 PMC_MCKR_CSS_Pos.
Definition PMC_MCKR_CSS_SLOW_CLK : Z := Z.shiftl 0x0 0.
Definition PMC_MCKR_CSS_MAIN_CLK : Z := Z.shiftl 0x1 0.
Definition PMC_MCKR_CSS_PLLA_CLK : Z := Z.shiftl 0x2 0.
Definition PMC_MCKR_CSS_UPLL_CLK : Z := Z.shiftl 0x3 0.
Definition PMC_MCKR_PRES_Pos : Z := 4.
Definition PMC_MCKR_PRES_Msk : Z := Z.shiftl 0x7 PMC_MCKR_PRES_Pos.
Definition PMC_MCKR_PRES_CLK_1 : Z := Z.shiftl 0x0 4.
Definition PMC_MCKR_PRES_CLK_2 : Z := Z.shiftl 0x1 4.
Definition PMC_MCKR_PRES_CLK_3 : Z := Z.shiftl 0x7 4.
Definition PMC_USB_USBS : Z := Z.shiftl 0x1 0.
Definition PMC_USB_USBDIV_Pos : Z := 8.
Definition PMC_USB_USBDIV_Msk : Z := Z.shiftl 0xf PMC_USB_USBDIV_Pos.
Definition PMC_USB_USBDIV (value : Z) : Z := Z.land PMC_USB_USBDIV_Msk (u32 (Z.shiftl value PMC_USB_USBDIV_Pos)).
Definition PMC_PCK_CSS_Pos : Z := 0.
Definition PMC_PCK_CSS_Msk : Z := Z.shiftl 0x7 PMC_PCK_CSS_Pos.
Definition PMC_PCK_CSS_SLOW_CLK : Z := Z.shiftl 0x0 0.
Definition PMC_PCK_CSS_MAIN_CLK : Z := Z.shiftl 0x1 0.
Definition PMC_PCK_CSS_PLLA_CLK : Z := Z.shiftl 0x2 0.
Definition PMC_PCK_CSS_UPLL_CLK : Z := Z.shiftl 0x3 0.
Definition PMC_PCK_CSS_MCK : Z := Z.shiftl 0x4 0.
Definition PMC_PCK_PRES_Pos : Z := 4.
Definition PMC_PCK_PRES_Msk : Z := Z.shiftl 0x7 PMC_PCK_PRES_Pos.
Definition PMC_SR_MOSCXTS : Z := Z.shiftl 0x1 0.
Definition PMC_SR_LOCKA : Z := Z.shiftl 0x1 1.
Definition PMC_SR_MCKRDY : Z := Z.shiftl 0x1 3.
Definition PMC_SR_LOCKU : Z := Z.shiftl 0x1 6.
Definition PMC_SR_OSCSELS : Z := Z.shiftl 0x1 7.
Definition PMC_SR_PCKRDY0 : Z := Z.shiftl 0x1 8.
Definition PMC_SR_MOSCSELS : Z := Z.shiftl 0x1 16.
Definition PMC_SR_MOSCRCS : Z := Z.shiftl 0x1 17.
Definition PMC_WPMR_WPEN : Z := Z.shiftl 0x1 0.
Definition PMC_WPMR_WPKEY_Pos : Z := 8.
Definition PMC_WPMR_WPKEY_Msk : Z := Z.shiftl 0xffffff PMC_WPMR_WPKEY_Pos.
Definition PMC_WPMR_WPKEY (value : Z) : Z := Z.land PMC_WPMR_WPKEY_Msk (u32 (Z.shiftl value PMC_WPMR_WPKEY_Pos)).

Definition CKGR_MOR_KEY_PASSWD : Z := CKGR_MOR_KEY 0x37.
Definition PMC_WPMR_WPKEY_PASSWD : Z := PMC_WPMR_WPKEY 0x504D43.
Definition PMC_MASK_STATUS0 : Z := 0xFFFFFFFC.
Definition PMC_MASK_STATUS1 : Z := 0xFFFFFFFF.
Definition PMC_TIMEOUT : Z := 2048.
Definition PMC_FAST_STARTUP_Msk : Z := 0x7FFFF.
Definition PMC_OSC_XTAL : Z := 0.
Definition PMC_OSC_BYPASS : Z := 1.

Definition SUPC : Z := 0x400E1A10.
Definition SUPC_CR : Z := SUPC + 0x00.
Definition SUPC_MR : Z := SUPC + 0x08.
Definition SUPC_SR : Z := SUPC + 0x14.
Definition SUPC_CR_XTALSEL : Z := Z.shiftl 0x1 3.
Definition SUPC_CR_KEY_Pos : Z := 24.
Definition SUPC_CR_KEY_Msk : Z := Z.shiftl 0xff SUPC_CR_KEY_Pos.
Definition SUPC_CR_KEY (value : Z) : Z := Z.land SUPC_CR_KEY_Msk (u32 (Z.shiftl value SUPC_CR_KEY_Pos)).
Definition SUPC_MR_OSCBYPASS : Z := Z.shiftl 0x1 20.
Definition SUPC_MR_KEY_Pos : Z := 24.
Definition SUPC_MR_KEY_Msk : Z := Z.shiftl 0xff SUPC_MR_KEY_Pos.
Definition SUPC_MR_KEY (value : Z) : Z := Z.land SUPC_MR_KEY_Msk (u32 (Z.shiftl value SUPC_MR_KEY_Pos)).
Definition SUPC_SR_OSCSEL : Z := Z.shiftl 0x1 7.
Definition SUPC_CR_KEY_PASSWD : Z := SUPC_CR_KEY 0xA5.
Definition SUPC_MR_KEY_PASSWD : Z := SUPC_MR_KEY 0xA5.

Definition EFC0 : Z := 0x400E0A00.
Definition EFC1 : Z := 0x400E0C00.
Definition EEFC_FMR p := p + 0x00.
Definition EEFC_FMR_FWS_Pos : Z := 8.
Definition EEFC_FMR_FWS_Msk : Z := Z.shiftl 0xf EEFC_FMR_FWS_Pos.
Definition EEFC_FMR_FWS (value : Z) : Z := Z.land EEFC_FMR_FWS_Msk (u32 (Z.shiftl value EEFC_FMR_FWS_Pos)).

(** ** pmc.c: the master clock *)

Section pmc.
Context (fuel : nat).

(** [while (!(PMC->PMC_SR & m));] *)
Definition wait_sr (m : Z) : prog hw unit := iter fuel (wait_round PMC_SR m) tt.

Definition pmc_mck_set_prescaler (ul_pres : Z) : prog hw unit :=
  set_field PMC_MCKR PMC_MCKR_PRES_Msk ul_pres;;
  wait_sr PMC_SR_MCKRDY.

Definition pmc_mck_set_source (ul_source : Z) : prog hw unit :=
  set_field PMC_MCKR PMC_MCKR_CSS_Msk ul_source;;
  wait_sr PMC_SR_MCKRDY.

(** [for (ul_timeout = n; !(PMC->PMC_SR & m); --ul_timeout) if (ul_timeout == 0) return 1;]:
    whether the loop ends before the timeout. *)
Fixpoint ready_within (ul_timeout : nat) (m : Z) : prog hw bool :=
  let! sr := rd PMC_SR in
  if has_bits sr m then Ret true
  else
    match ul_timeout with
    | O => Ret false
    | S ul_timeout => ready_within ul_timeout m
    end.

Definition or_timeout (m : Z) (next : prog hw Z) : prog hw Z :=
  let! ok := ready_within (Z.to_nat PMC_TIMEOUT) m in
  if ok : bool then next else Ret 1.

(** To a slower clock the source is changed first, to a faster one the
    prescaler. *)
Definition pmc_switch_mck_to_sclk (ul_pres : Z) : prog hw Z :=
  set_field PMC_MCKR PMC_MCKR_CSS_Msk PMC_MCKR_CSS_SLOW_CLK;;
  or_timeout PMC_SR_MCKRDY
    (set_field PMC_MCKR PMC_MCKR_PRES_Msk ul_pres;;
     or_timeout PMC_SR_MCKRDY (Ret 0)).

Definition pmc_switch_mck_to_mainck (ul_pres : Z) : prog hw Z :=
  set_field PMC_MCKR PMC_MCKR_CSS_Msk PMC_MCKR_CSS_MAIN_CLK;;
  or_timeout PMC_SR_MCKRDY
    (set_field PMC_MCKR PMC_MCKR_PRES_Msk ul_pres;;
     or_timeout PMC_SR_MCKRDY (Ret 0)).

Definition pmc_switch_mck_to_pllack (ul_pres : Z) : prog hw Z :=
  set_field PMC_MCKR PMC_MCKR_PRES_Msk ul_pres;;
  or_timeout PMC_SR_MCKRDY
    (set_field PMC_MCKR PMC_MCKR_CSS_Msk PMC_MCKR_CSS_PLLA_CLK;;
     or_timeout PMC_SR_MCKRDY (Ret 0)).

Definition pmc_switch_mck_to_upllck (ul_pres : Z) : prog hw Z :=
  set_field PMC_MCKR PMC_MCKR_PRES_Msk ul_pres;;
  or_timeout PMC_SR_MCKRDY
    (set_field PMC_MCKR PMC_MCKR_CSS_Msk PMC_MCKR_CSS_UPLL_CLK;;
     or_timeout PMC_SR_MCKRDY (Ret 0)).

(** ** pmc.c: oscillators *)

Definition pmc_switch_sclk_to_32kxtal (ul_bypass : Z) : prog hw unit :=
  (if ul_bypass =? 1 then set_bits SUPC_MR (Z.lor SUPC_MR_KEY_PASSWD SUPC_MR_OSCBYPASS) else Ret tt);;
  wr SUPC_CR (Z.lor SUPC_CR_KEY_PASSWD SUPC_CR_XTALSEL).

(** The second register is read only if the first has the bit. *)
Definition pmc_osc_is_ready_32kxtal : prog hw Z :=
  let! s := rd SUPC_SR in
  if has_bits s SUPC_SR_OSCSEL then
    let! p := rd PMC_SR in Ret (if has_bits p PMC_SR_OSCSELS then 1 else 0)
  else Ret 0.

Definition pmc_osc_enable_fastrc (ul_rc : Z) : prog hw unit :=
  set_bits CKGR_MOR (Z.lor CKGR_MOR_KEY_PASSWD CKGR_MOR_MOSCRCEN);;
  wait_sr PMC_SR_MOSCRCS;;
  set_field CKGR_MOR CKGR_MOR_MOSCRCF_Msk (Z.lor CKGR_MOR_KEY_PASSWD ul_rc);;
  wait_sr PMC_SR_MOSCRCS.

Definition pmc_switch_mainck_to_fastrc (ul_moscrcf : Z) : prog hw unit :=
  set_bits CKGR_MOR (Z.lor CKGR_MOR_KEY_PASSWD CKGR_MOR_MOSCRCEN);;
  wait_sr PMC_SR_MOSCRCS;;
  set_field CKGR_MOR CKGR_MOR_MOSCRCF_Msk (Z.lor CKGR_MOR_KEY_PASSWD ul_moscrcf);;
  wait_sr PMC_SR_MOSCRCS;;
  set_field CKGR_MOR CKGR_MOR_MOSCSEL CKGR_MOR_KEY_PASSWD.

Definition pmc_osc_disable_fastrc : prog hw unit :=
  modify CKGR_MOR (fun mor =>
    Z.lor (Z.land (Z.land mor (not32 CKGR_MOR_MOSCRCEN)) (not32 CKGR_MOR_MOSCRCF_Msk))
      CKGR_MOR_KEY_PASSWD).

Definition pmc_osc_is_ready_fastrc : prog hw Z :=
  let! sr := rd PMC_SR in Ret (Z.land sr PMC_SR_MOSCRCS).

Definition without_xtal (mor : Z) : Z :=
  Z.land mor (not32 (Z.lor CKGR_MOR_MOSCXTBY CKGR_MOR_MOSCXTEN)).

Definition pmc_osc_enable_main_xtal (ul_xtal_startup_time : Z) : prog hw unit :=
  let! mor := rd CKGR_MOR in
  wr CKGR_MOR (Z.lor (without_xtal mor)
    (Z.lor (Z.lor CKGR_MOR_KEY_PASSWD CKGR_MOR_MOSCXTEN) (CKGR_MOR_MOSCXTST ul_xtal_startup_time)));;
  wait_sr PMC_SR_MOSCXTS.

Definition pmc_osc_bypass_main_xtal : prog hw unit :=
  let! mor := rd CKGR_MOR in
  wr CKGR_MOR (Z.lor (without_xtal mor) (Z.lor CKGR_MOR_KEY_PASSWD CKGR_MOR_MOSCXTBY)).

Definition pmc_osc_disable_main_xtal : prog hw unit :=
  let! mor := rd CKGR_MOR in
  wr CKGR_MOR (Z.lor CKGR_MOR_KEY_PASSWD (without_xtal mor)).

Definition pmc_osc_is_bypassed_main_xtal : prog hw Z :=
  let! mor := rd CKGR_MOR in Ret (Z.land mor CKGR_MOR_MOSCXTBY).

Definition pmc_osc_is_ready_main_xtal : prog hw Z :=
  let! sr := rd PMC_SR in Ret (Z.land sr PMC_SR_MOSCXTS).

Definition pmc_switch_mainck_to_xtal (ul_bypass ul_xtal_startup_time : Z) : prog hw unit :=
  if negb (ul_bypass =? 0) then
    set_field CKGR_MOR CKGR_MOR_MOSCXTEN
      (Z.lor (Z.lor CKGR_MOR_KEY_PASSWD CKGR_MOR_MOSCXTBY) CKGR_MOR_MOSCSEL)
  else
    set_field CKGR_MOR CKGR_MOR_MOSCXTBY
      (Z.lor (Z.lor CKGR_MOR_KEY_PASSWD CKGR_MOR_MOSCXTEN) (CKGR_MOR_MOSCXTST ul_xtal_startup_time));;
    wait_sr PMC_SR_MOSCXTS;;
    set_bits CKGR_MOR (Z.lor CKGR_MOR_KEY_PASSWD CKGR_MOR_MOSCSEL).

Definition pmc_osc_disable_xtal (ul_bypass : Z) : prog hw unit :=
  if negb (ul_bypass =? 0) then set_field CKGR_MOR CKGR_MOR_MOSCXTBY CKGR_MOR_KEY_PASSWD
  else set_field CKGR_MOR CKGR_MOR_MOSCXTEN CKGR_MOR_KEY_PASSWD.

Definition pmc_osc_is_ready_mainck : prog hw Z :=
  let! sr := rd PMC_SR in Ret (Z.land sr PMC_SR_MOSCSELS).

Definition pmc_mainck_osc_select (ul_xtal_rc : Z) : prog hw unit :=
  let! mor := rd CKGR_MOR in
  let mor :=
    if negb (ul_xtal_rc =? 0) then Z.lor mor CKGR_MOR_MOSCSEL
    else Z.land mor (not32 CKGR_MOR_MOSCSEL) in
  wr CKGR_MOR (Z.lor CKGR_MOR_KEY_PASSWD mor).

(** ** pmc.c: PLLs *)

Definition pmc_disable_pllack : prog hw unit :=
  wr CKGR_PLLAR (Z.lor CKGR_PLLAR_ONE (CKGR_PLLAR_MULA 0)).

Definition pmc_enable_pllack (mula pllacount diva : Z) : prog hw unit :=
  pmc_disable_pllack;;
  wr CKGR_PLLAR (Z.lor (Z.lor (Z.lor CKGR_PLLAR_ONE (CKGR_PLLAR_DIVA diva))
    (CKGR_PLLAR_PLLACOUNT pllacount)) (CKGR_PLLAR_MULA mula));;
  wait_sr PMC_SR_LOCKA.

Definition pmc_is_locked_pllack : prog hw Z :=
  let! sr := rd PMC_SR in Ret (Z.land sr PMC_SR_LOCKA).

Definition pmc_enable_upll_clock : prog hw unit :=
  wr CKGR_UCKR (Z.lor (CKGR_UCKR_UPLLCOUNT 3) CKGR_UCKR_UPLLEN);;
  wait_sr PMC_SR_LOCKU.

Definition pmc_disable_upll_clock : prog hw unit := clear_bits CKGR_UCKR CKGR_UCKR_UPLLEN.

Definition pmc_is_locked_upll : prog hw Z :=
  let! sr := rd PMC_SR in Ret (Z.land sr PMC_SR_LOCKU).

(** ** pmc.c: all peripheral clocks, programmable clocks *)

(** [for (id = 64; id <= 0x7F; id++)]: [n] are left, from [id]. *)
Fixpoint each_periph (f : Z -> prog hw Z) (n : nat) (id : Z) : prog hw unit :=
  match n with
  | O => Ret tt
  | S n => let! _ := f id in each_periph f n (id + 1)
  end.

(** [while ((reg & m) != v);] *)
Definition wait_value (a m v : Z) : prog hw unit :=
  iter fuel (fun _ : unit =>
    let! r := rd a in Ret (if negb (Z.land r m =? v) then inl tt else inr tt)) tt.

Definition pmc_enable_all_periph_clk : prog hw unit :=
  wr PMC_PCER0 PMC_MASK_STATUS0;;
  wait_value PMC_PCSR0 PMC_MASK_STATUS0 PMC_MASK_STATUS0;;
  wr PMC_PCER1 PMC_MASK_STATUS1;;
  wait_value PMC_PCSR1 PMC_MASK_STATUS1 PMC_MASK_STATUS1;;
  each_periph pmc_enable_periph_clk 64 64.

Definition pmc_disable_all_periph_clk : prog hw unit :=
  wr PMC_PCDR0 PMC_MASK_STATUS0;;
  wait_value PMC_PCSR0 PMC_MASK_STATUS0 0;;
  wr PMC_PCDR1 PMC_MASK_STATUS1;;
  wait_value PMC_PCSR1 PMC_MASK_STATUS1 0;;
  each_periph pmc_disable_periph_clk 64 64.

(** [while ((PMC_SCER & (PCK0 << id)) && !(PMC_SR & (PCKRDY0 << id)));] *)
Definition wait_pck (ul_id : Z) : prog hw unit :=
  iter fuel (fun _ : unit =>
    let! e := rd PMC_SCER in
    if has_bits e (u32 (Z.shiftl PMC_SCER_PCK0 ul_id)) then
      let! sr := rd PMC_SR in
      Ret (if has_bits sr (u32 (Z.shiftl PMC_SR_PCKRDY0 ul_id)) then inr tt else inl tt)
    else Ret (inr tt)) tt.

Definition pmc_pck_set_prescaler (ul_id ul_pres : Z) : prog hw unit :=
  set_field (PMC_PCK ul_id) PMC_PCK_PRES_Msk ul_pres;;
  wait_pck ul_id.

Definition pmc_pck_set_source (ul_id ul_source : Z) : prog hw unit :=
  set_field (PMC_PCK ul_id) PMC_PCK_CSS_Msk ul_source;;
  wait_pck ul_id.

Definition switch_pck (css ul_id ul_pres : Z) : prog hw Z :=
  wr (PMC_PCK ul_id) (Z.lor css ul_pres);;
  or_timeout (u32 (Z.shiftl PMC_SR_PCKRDY0 ul_id)) (Ret 0).

Definition pmc_switch_pck_to_sclk := switch_pck PMC_PCK_CSS_SLOW_CLK.
Definition pmc_switch_pck_to_mainck := switch_pck PMC_PCK_CSS_MAIN_CLK.
Definition pmc_switch_pck_to_pllack := switch_pck PMC_PCK_CSS_PLLA_CLK.
Definition pmc_switch_pck_to_upllck := switch_pck PMC_PCK_CSS_UPLL_CLK.
Definition pmc_switch_pck_to_mck := switch_pck PMC_PCK_CSS_MCK.

Definition pmc_enable_pck (ul_id : Z) := wr PMC_SCER (u32 (Z.shiftl PMC_SCER_PCK0 ul_id)).
Definition pmc_disable_pck (ul_id : Z) := wr PMC_SCDR (u32 (Z.shiftl PMC_SCER_PCK0 ul_id)).
Definition pmc_enable_all_pck :=
  wr PMC_SCER (Z.lor (Z.lor PMC_SCER_PCK0 PMC_SCER_PCK1) PMC_SCER_PCK2).
Definition pmc_disable_all_pck :=
  wr PMC_SCDR (Z.lor (Z.lor PMC_SCDR_PCK0 PMC_SCDR_PCK1) PMC_SCDR_PCK2).

Definition pmc_is_pck_enabled (ul_id : Z) : prog hw Z :=
  if 2 <? ul_id then Ret 0
  else let! v := rd PMC_SCSR in Ret (Z.land v (Z.shiftl PMC_SCSR_PCK0 ul_id)).

(** ** pmc.c: USB clock, interrupts, fast start-up, failure detector, protection *)

Definition pmc_switch_udpck_to_pllack (ul_usbdiv : Z) := wr PMC_USB (PMC_USB_USBDIV ul_usbdiv).
Definition pmc_switch_udpck_to_upllck (ul_usbdiv : Z) :=
  wr PMC_USB (Z.lor PMC_USB_USBS (PMC_USB_USBDIV ul_usbdiv)).
Definition pmc_enable_udpck := wr PMC_SCER PMC_SCER_UOTGCLK.
Definition pmc_disable_udpck := wr PMC_SCDR PMC_SCDR_UOTGCLK.
Definition pmc_enable_interrupt (ul_sources : Z) := wr PMC_IER ul_sources.
Definition pmc_disable_interrupt (ul_sources : Z) := wr PMC_IDR ul_sources.
Definition pmc_get_interrupt_mask := rd PMC_IMR.
Definition pmc_get_status := rd PMC_SR.
Definition pmc_set_fast_startup_input (ul_inputs : Z) :=
  set_bits PMC_FSMR (Z.land ul_inputs PMC_FAST_STARTUP_Msk).
Definition pmc_clr_fast_startup_input (ul_inputs : Z) :=
  clear_bits PMC_FSMR (Z.land ul_inputs PMC_FAST_STARTUP_Msk).

Definition pmc_enable_clock_failure_detector : prog hw unit :=
  let! ul_reg := rd CKGR_MOR in
  wr CKGR_MOR (Z.lor (Z.lor CKGR_MOR_KEY_PASSWD CKGR_MOR_CFDEN) ul_reg).

Definition pmc_disable_clock_failure_detector : prog hw unit :=
  let! mor := rd CKGR_MOR in
  let ul_reg := Z.land mor (not32 CKGR_MOR_CFDEN) in
  wr CKGR_MOR (Z.lor CKGR_MOR_KEY_PASSWD ul_reg).

Definition pmc_set_writeprotect (ul_enable : Z) : prog hw unit :=
  if negb (ul_enable =? 0) then wr PMC_WPMR (Z.lor PMC_WPMR_WPKEY_PASSWD PMC_WPMR_WPEN)
  else wr PMC_WPMR PMC_WPMR_WPKEY_PASSWD.

Definition pmc_get_writeprotect_status := rd PMC_WPSR.

(** ** osc.h *)

Definition OSC_SLCK_32K_RC : Z := 0.
Definition OSC_SLCK_32K_XTAL : Z := 1.
Definition OSC_SLCK_32K_BYPASS : Z := 2.
Definition OSC_MAINCK_4M_RC : Z := 3.
Definition OSC_MAINCK_8M_RC : Z := 4.
Definition OSC_MAINCK_12M_RC : Z := 5.
Definition OSC_MAINCK_XTAL : Z := 6.
Definition OSC_MAINCK_BYPASS : Z := 7.

Definition CHIP_FREQ_SLCK_RC : Z := 32000.
Definition CHIP_FREQ_MAINCK_RC_4MHZ : Z := 4000000.
Definition CHIP_FREQ_MAINCK_RC_8MHZ : Z := 8000000.
Definition CHIP_FREQ_MAINCK_RC_12MHZ : Z := 12000000.
Definition CHIP_FREQ_CPU_MAX : Z := 84000000.
Definition CHIP_FREQ_XTAL_32K : Z := 32768.
Definition CHIP_FREQ_XTAL_12M : Z := 12000000.
Definition BOARD_FREQ_SLCK_XTAL : Z := 32768.
Definition BOARD_FREQ_SLCK_BYPASS : Z := 32768.
Definition BOARD_FREQ_MAINCK_BYPASS : Z := 12000000.
Definition BOARD_OSC_STARTUP_US : Z := 15625.

Definition pmc_us_to_moscxtst (startup_us slowck_freq : Z) : Z :=
  let v := u32 (startup_us * slowck_freq) / 8 / 1000000 in
  if v <? 0x100 then v else 0xFF.

Definition osc_enable (ul_id : Z) : prog hw unit :=
  if ul_id =? OSC_SLCK_32K_RC then Ret tt
  else if ul_id =? OSC_SLCK_32K_XTAL then pmc_switch_sclk_to_32kxtal PMC_OSC_XTAL
  else if ul_id =? OSC_SLCK_32K_BYPASS then pmc_switch_sclk_to_32kxtal PMC_OSC_BYPASS
  else if ul_id =? OSC_MAINCK_4M_RC then pmc_switch_mainck_to_fastrc CKGR_MOR_MOSCRCF_4_MHz
  else if ul_id =? OSC_MAINCK_8M_RC then pmc_switch_mainck_to_fastrc CKGR_MOR_MOSCRCF_8_MHz
  else if ul_id =? OSC_MAINCK_12M_RC then pmc_switch_mainck_to_fastrc CKGR_MOR_MOSCRCF_12_MHz
  else if ul_id =? OSC_MAINCK_XTAL then
    pmc_switch_mainck_to_xtal PMC_OSC_XTAL (pmc_us_to_moscxtst BOARD_OSC_STARTUP_US CHIP_FREQ_SLCK_RC)
  else if ul_id =? OSC_MAINCK_BYPASS then
    pmc_switch_mainck_to_xtal PMC_OSC_BYPASS (pmc_us_to_moscxtst BOARD_OSC_STARTUP_US CHIP_FREQ_SLCK_RC)
  else Ret tt.

Definition osc_disable (ul_id : Z) : prog hw unit :=
  if (ul_id =? OSC_MAINCK_4M_RC) || (ul_id =? OSC_MAINCK_8M_RC) || (ul_id =? OSC_MAINCK_12M_RC)
  then pmc_osc_disable_fastrc
  else if ul_id =? OSC_MAINCK_XTAL then pmc_osc_disable_xtal PMC_OSC_XTAL
  else if ul_id =? OSC_MAINCK_BYPASS then pmc_osc_disable_xtal PMC_OSC_BYPASS
  else Ret tt.

Definition osc_is_ready (ul_id : Z) : prog hw bool :=
  if ul_id =? OSC_SLCK_32K_RC then Ret true
  else if (ul_id =? OSC_SLCK_32K_XTAL) || (ul_id =? OSC_SLCK_32K_BYPASS) then
    let! r := pmc_osc_is_ready_32kxtal in Ret (negb (r =? 0))
  else if (ul_id =? OSC_MAINCK_4M_RC) || (ul_id =? OSC_MAINCK_8M_RC) || (ul_id =? OSC_MAINCK_12M_RC)
    || (ul_id =? OSC_MAINCK_XTAL) || (ul_id =? OSC_MAINCK_BYPASS) then
    let! r := pmc_osc_is_ready_mainck in Ret (negb (r =? 0))
  else Ret false.

Definition osc_get_rate (ul_id : Z) : Z :=
  if ul_id =? OSC_SLCK_32K_RC then CHIP_FREQ_SLCK_RC
  else if ul_id =? OSC_SLCK_32K_XTAL then BOARD_FREQ_SLCK_XTAL
  else if ul_id =? OSC_SLCK_32K_BYPASS then BOARD_FREQ_SLCK_BYPASS
  else if ul_id =? OSC_MAINCK_4M_RC then CHIP_FREQ_MAINCK_RC_4MHZ
  else if ul_id =? OSC_MAINCK_8M_RC then CHIP_FREQ_MAINCK_RC_8MHZ
  else if ul_id =? OSC_MAINCK_12M_RC then CHIP_FREQ_MAINCK_RC_12MHZ
  else if ul_id =? OSC_MAINCK_XTAL then BOARD_FREQ_MAINCK_XTAL
  else if ul_id =? OSC_MAINCK_BYPASS then BOARD_FREQ_MAINCK_BYPASS
  else 0.

Definition osc_wait_ready (id : Z) : prog hw unit :=
  iter fuel (fun _ : unit => let! ok := osc_is_ready id in Ret (if ok : bool then inr tt else inl tt)) tt.

(** ** pll.h: the assertions are not compiled in *)

Definition PLLA_ID : Z := 0.
Definition UPLL_ID : Z := 1.
Definition PLL_UPLL_HZ : Z := 480000000.
Definition PLL_COUNT : Z := 0x3f.
Definition CONFIG_PLL0_SOURCE : Z := OSC_MAINCK_XTAL.
Definition CONFIG_PLL1_SOURCE : Z := OSC_MAINCK_XTAL.
Definition CONFIG_PLL1_MUL : Z := 0.
Definition CONFIG_PLL1_DIV : Z := 0.

(** The control word; a divider of 0 with a multiplier divides by zero. *)
Definition pll_config_init (e_src ul_div ul_mul : Z) : option Z :=
  if (ul_div =? 0) && (ul_mul =? 0) then Some (CKGR_UCKR_UPLLCOUNT PLL_COUNT)
  else if ul_div =? 0 then None
  else Some (Z.lor (Z.lor (CKGR_PLLAR_MULA (u32 (ul_mul - 1))) (CKGR_PLLAR_DIVA ul_div))
    (CKGR_PLLAR_PLLACOUNT PLL_COUNT)).

Definition pll_config_read (ul_pll_id : Z) : prog hw Z :=
  if ul_pll_id =? PLLA_ID then rd CKGR_PLLAR else rd CKGR_UCKR.

Definition pll_config_write (ctrl ul_pll_id : Z) : prog hw unit :=
  if ul_pll_id =? PLLA_ID then
    pmc_disable_pllack;; wr CKGR_PLLAR (Z.lor CKGR_PLLAR_ONE ctrl)
  else wr CKGR_UCKR ctrl.

Definition pll_enable (ctrl ul_pll_id : Z) : prog hw unit :=
  if ul_pll_id =? PLLA_ID then
    pmc_disable_pllack;; wr CKGR_PLLAR (Z.lor CKGR_PLLAR_ONE ctrl)
  else wr CKGR_UCKR (Z.lor ctrl CKGR_UCKR_UPLLEN).

Definition pll_disable (ul_pll_id : Z) : prog hw unit :=
  if ul_pll_id =? PLLA_ID then pmc_disable_pllack else clear_bits CKGR_UCKR CKGR_UCKR_UPLLEN.

Definition pll_is_locked (ul_pll_id : Z) : prog hw Z :=
  if ul_pll_id =? PLLA_ID then pmc_is_locked_pllack else pmc_is_locked_upll.

(** The sources are the oscillators of the main clock. *)
Definition pll_enable_source (e_src : Z) : prog hw unit :=
  if (OSC_MAINCK_4M_RC <=? e_src) && (e_src <=? OSC_MAINCK_BYPASS) then
    osc_enable e_src;; osc_wait_ready e_src
  else Ret tt.

Definition pll_wait_for_lock (pll_id : Z) : prog hw unit :=
  iter fuel (fun _ : unit =>
    let! l := pll_is_locked pll_id in Ret (if negb (l =? 0) then inr tt else inl tt)) tt.

(** [garbage] is the control word of an uninitialised configuration. *)
Definition pll_enable_config_defaults (garbage ul_pll_id : Z) : prog hw unit :=
  let! l := pll_is_locked ul_pll_id in
  if negb (l =? 0) then Ret tt
  else
    let! ctrl :=
      (if ul_pll_id =? 0 then
         pll_enable_source CONFIG_PLL0_SOURCE;;
         defined (pll_config_init CONFIG_PLL0_SOURCE CONFIG_PLL0_DIV CONFIG_PLL0_MUL)
       else if ul_pll_id =? 1 then
         pll_enable_source CONFIG_PLL1_SOURCE;;
         defined (pll_config_init CONFIG_PLL1_SOURCE CONFIG_PLL1_DIV CONFIG_PLL1_MUL)
       else Ret garbage) in
    pll_enable ctrl ul_pll_id;;
    pll_wait_for_lock ul_pll_id.

(** ** system_sam3x.c *)

Definition EEFC_set (fws : Z) : prog hw unit :=
  wr (EEFC_FMR EFC0) (EEFC_FMR_FWS fws);;
  wr (EEFC_FMR EFC1) (EEFC_FMR_FWS fws).

Definition CHIP_FREQ_FWS_0 : Z := 19000000.
Definition CHIP_FREQ_FWS_1 : Z := 50000000.
Definition CHIP_FREQ_FWS_2 : Z := 64000000.
Definition CHIP_FREQ_FWS_3 : Z := 80000000.
Definition CHIP_FREQ_FWS_4 : Z := 90000000.

Definition system_init_flash (ul_clk : Z) : prog hw unit :=
  if ul_clk <? CHIP_FREQ_FWS_0 then EEFC_set 0
  else if ul_clk <? CHIP_FREQ_FWS_1 then EEFC_set 1
  else if ul_clk <? CHIP_FREQ_FWS_2 then EEFC_set 2
  else if ul_clk <? CHIP_FREQ_FWS_3 then EEFC_set 3
  else if ul_clk <? CHIP_FREQ_FWS_4 then EEFC_set 4
  else EEFC_set 5.

Definition SYS_UTMIPLL : Z := 480000000.

(** The rate of the main clock, from the crystal or the RC oscillator. *)
Definition main_clock : prog hw Z :=
  let! mor := rd CKGR_MOR in
  if has_bits mor CKGR_MOR_MOSCSEL then Ret CHIP_FREQ_XTAL_12M
  else
    let! mor := rd CKGR_MOR in
    let f := Z.land mor CKGR_MOR_MOSCRCF_Msk in
    Ret (if f =? CKGR_MOR_MOSCRCF_8_MHz then u32 (CHIP_FREQ_MAINCK_RC_4MHZ * 2)
         else if f =? CKGR_MOR_MOSCRCF_12_MHz then u32 (CHIP_FREQ_MAINCK_RC_4MHZ * 3)
         else CHIP_FREQ_MAINCK_RC_4MHZ).

(** The new value of [SystemCoreClock]. *)
Definition SystemCoreClockUpdate : prog hw Z :=
  let! mckr := rd PMC_MCKR in
  let css := Z.land mckr PMC_MCKR_CSS_Msk in
  let! clk :=
    (if css =? PMC_MCKR_CSS_SLOW_CLK then
       let! sr := rd SUPC_SR in
       Ret (if has_bits sr SUPC_SR_OSCSEL then CHIP_FREQ_XTAL_32K else CHIP_FREQ_SLCK_RC)
     else if css =? PMC_MCKR_CSS_MAIN_CLK then main_clock
     else
       let! clk := main_clock in
       let! mckr := rd PMC_MCKR in
       if Z.land mckr PMC_MCKR_CSS_Msk =? PMC_MCKR_CSS_PLLA_CLK then
         let! pllar := rd CKGR_PLLAR in
         let clk := u32 (clk * (Z.shiftr (Z.land pllar CKGR_PLLAR_MULA_Msk) CKGR_PLLAR_MULA_Pos + 1)) in
         let! pllar := rd CKGR_PLLAR in
         let d := Z.shiftr (Z.land pllar CKGR_PLLAR_DIVA_Msk) CKGR_PLLAR_DIVA_Pos in
         defined (if d =? 0 then None else Some (clk / d))
       else Ret (SYS_UTMIPLL / 2)) in
  let! mckr := rd PMC_MCKR in
  if Z.land mckr PMC_MCKR_PRES_Msk =? PMC_MCKR_PRES_CLK_3 then Ret (clk / 3)
  else
    let! mckr := rd PMC_MCKR in
    Ret (Z.shiftr clk (Z.shiftr (Z.land mckr PMC_MCKR_PRES_Msk) PMC_MCKR_PRES_Pos)).

(** ** sysclk.c *)

Definition SYSCLK_SRC_SLCK_RC : Z := 0.
Definition SYSCLK_SRC_SLCK_XTAL : Z := 1.
Definition SYSCLK_SRC_SLCK_BYPASS : Z := 2.
Definition SYSCLK_SRC_MAINCK_4M_RC : Z := 3.
Definition SYSCLK_SRC_MAINCK_8M_RC : Z := 4.
Definition SYSCLK_SRC_MAINCK_12M_RC : Z := 5.
Definition SYSCLK_SRC_MAINCK_XTAL : Z := 6.
Definition SYSCLK_SRC_MAINCK_BYPASS : Z := 7.
Definition SYSCLK_SRC_PLLACK : Z := 8.
Definition SYSCLK_SRC_UPLLCK : Z := 9.
Definition CONFIG_SYSCLK_SOURCE : Z := SYSCLK_SRC_PLLACK.
Definition CONFIG_SYSCLK_PRES : Z := PMC_MCKR_PRES_CLK_1.

Definition sysclk_set_prescalers (ul_pres : Z) : prog hw Z :=
  pmc_mck_set_prescaler ul_pres;;
  SystemCoreClockUpdate.

Definition sysclk_set_source (ul_src : Z) : prog hw Z :=
  (if (ul_src =? SYSCLK_SRC_SLCK_RC) || (ul_src =? SYSCLK_SRC_SLCK_XTAL)
     || (ul_src =? SYSCLK_SRC_SLCK_BYPASS) then pmc_mck_set_source PMC_MCKR_CSS_SLOW_CLK
   else if (SYSCLK_SRC_MAINCK_4M_RC <=? ul_src) && (ul_src <=? SYSCLK_SRC_MAINCK_BYPASS) then
     pmc_mck_set_source PMC_MCKR_CSS_MAIN_CLK
   else if ul_src =? SYSCLK_SRC_PLLACK then pmc_mck_set_source PMC_MCKR_CSS_PLLA_CLK
   else if ul_src =? SYSCLK_SRC_UPLLCK then pmc_mck_set_source PMC_MCKR_CSS_UPLL_CLK
   else Ret tt);;
  SystemCoreClockUpdate.

Definition from_osc (osc : Z) (switch : Z -> prog hw Z) : prog hw unit :=
  osc_enable osc;;
  osc_wait_ready osc;;
  let! _ := switch CONFIG_SYSCLK_PRES in Ret tt.

Definition from_pll (id src div mul : Z) (switch : Z -> prog hw Z) : prog hw unit :=
  pll_enable_source src;;
  let! ctrl := defined (pll_config_init src div mul) in
  pll_enable ctrl id;;
  pll_wait_for_lock id;;
  let! _ := switch CONFIG_SYSCLK_PRES in Ret tt.

(** The result is the value of [SystemCoreClock]. *)
Definition sysclk_init : prog hw Z :=
  let src := CONFIG_SYSCLK_SOURCE in
  system_init_flash CHIP_FREQ_CPU_MAX;;
  (if src =? SYSCLK_SRC_SLCK_RC then from_osc OSC_SLCK_32K_RC pmc_switch_mck_to_sclk
   else if src =? SYSCLK_SRC_SLCK_XTAL then from_osc OSC_SLCK_32K_XTAL pmc_switch_mck_to_sclk
   else if src =? SYSCLK_SRC_SLCK_BYPASS then from_osc OSC_SLCK_32K_BYPASS pmc_switch_mck_to_sclk
   else if src =? SYSCLK_SRC_MAINCK_4M_RC then Ret tt
   else if src =? SYSCLK_SRC_MAINCK_8M_RC then from_osc OSC_MAINCK_8M_RC pmc_switch_mck_to_mainck
   else if src =? SYSCLK_SRC_MAINCK_12M_RC then from_osc OSC_MAINCK_12M_RC pmc_switch_mck_to_mainck
   else if src =? SYSCLK_SRC_MAINCK_XTAL then from_osc OSC_MAINCK_XTAL pmc_switch_mck_to_mainck
   else if src =? SYSCLK_SRC_MAINCK_BYPASS then from_osc OSC_MAINCK_BYPASS pmc_switch_mck_to_mainck
   else if src =? SYSCLK_SRC_PLLACK then
     from_pll 0 CONFIG_PLL0_SOURCE CONFIG_PLL0_DIV CONFIG_PLL0_MUL pmc_switch_mck_to_pllack
   else if src =? SYSCLK_SRC_UPLLCK then
     from_pll 1 CONFIG_PLL1_SOURCE CONFIG_PLL1_DIV CONFIG_PLL1_MUL pmc_switch_mck_to_upllck
   else Ret tt);;
  let! SystemCoreClock := SystemCoreClockUpdate in
  system_init_flash sysclk_get_cpu_hz;;
  Ret SystemCoreClock.
End pmc.
