(* ===== verification/ClockSpec.v ===== *)
(** * Starting the clocks

    The registers of the power management controller and of the flash
    controllers as the clock tree sees them, and the safety of the start-up
    sequence of Clock.v: the core is never clocked faster than the chip and
    the flash wait states allow, nor from an oscillator or a PLL that is not
    stable, and it ends at the rate the firmware's drivers reckon with. *)

From S2P Require Import Prelude Prog Pmc Clock.

(** [settling] bounds the status readings until what the registers ask for is
    reached; [xtal_ok] and [locked] are whether the crystal and the PLL have
    been reported stable since they were set up. *)
Record clk := Clk {
  mor : Z;
  pllar : Z;
  mckr : Z;
  fws0 : Z;
  fws1 : Z;
  xtal_ok : bool;
  locked : bool;
  settling : nat
}.

(** ** The rates, from the registers *)

Definition main_hz (s : clk) : Z :=
  if has_bits (mor s) CKGR_MOR_MOSCSEL then 12000000
  else
    let f := Z.land (mor s) CKGR_MOR_MOSCRCF_Msk in
    if f =? CKGR_MOR_MOSCRCF_8_MHz then 8000000
    else if f =? CKGR_MOR_MOSCRCF_12_MHz then 12000000 else 4000000.

Definition plla_hz (s : clk) : Z :=
  let mul := Z.shiftr (Z.land (pllar s) CKGR_PLLAR_MULA_Msk) 16 in
  let div := Z.land (pllar s) CKGR_PLLAR_DIVA_Msk in
  if (mul =? 0) || (div =? 0) then 0 else main_hz s / div * (mul + 1).

Definition css (s : clk) : Z := Z.land (mckr s) PMC_MCKR_CSS_Msk.

Definition mck_hz (s : clk) : Z :=
  let f :=
    if css s =? PMC_MCKR_CSS_SLOW_CLK then 32768
    else if css s =? PMC_MCKR_CSS_MAIN_CLK then main_hz s
    else if css s =? PMC_MCKR_CSS_PLLA_CLK then plla_hz s
    else 240000000 in
  let pres := Z.shiftr (Z.land (mckr s) PMC_MCKR_PRES_Msk) 4 in
  if pres =? 7 then f / 3 else Z.shiftr f pres.

(** The rate up to which a number of wait states is enough. *)
Definition flash_limit (fmr : Z) : Z :=
  let fws := Z.shiftr (Z.land fmr EEFC_FMR_FWS_Msk) 8 in
  if fws =? 0 then 19000000
  else if fws =? 1 then 50000000
  else if fws =? 2 then 64000000
  else if fws =? 3 then 80000000
  else 90000000.

Record safe (s : clk) : Prop := {
  core_limit : 0 < mck_hz s <= 84000000;
  flash0 : mck_hz s < flash_limit (fws0 s);
  flash1 : mck_hz s < flash_limit (fws1 s);
  pll_stable : css s = PMC_MCKR_CSS_PLLA_CLK -> locked s = true;
  xtal_stable : has_bits (mor s) CKGR_MOR_MOSCSEL = true -> xtal_ok s = true
}.

(** ** The registers *)

Section clk.
Context (k : nat).

(** The main oscillator register takes a value with the key only; what is set
    up anew is no longer stable. *)
Definition write (a v : Z) (s : clk) : clk :=
  if a =? CKGR_MOR then
    if Z.land v CKGR_MOR_KEY_Msk =? CKGR_MOR_KEY_PASSWD then
      Clk (Z.land v (not32 CKGR_MOR_KEY_Msk)) (pllar s) (mckr s) (fws0 s) (fws1 s)
        (xtal_ok s && has_bits v CKGR_MOR_MOSCXTEN) (locked s) k
    else s
  else if a =? CKGR_PLLAR then
    Clk (mor s) v (mckr s) (fws0 s) (fws1 s) (xtal_ok s) false k
  else if a =? PMC_MCKR then
    Clk (mor s) (pllar s) v (fws0 s) (fws1 s) (xtal_ok s) (locked s) k
  else if a =? EEFC_FMR EFC0 then
    Clk (mor s) (pllar s) (mckr s) v (fws1 s) (xtal_ok s) (locked s) (settling s)
  else if a =? EEFC_FMR EFC1 then
    Clk (mor s) (pllar s) (mckr s) (fws0 s) v (xtal_ok s) (locked s) (settling s)
  else s.

Definition stable (s : clk) (x l : bool) (n : nat) : clk :=
  Clk (mor s) (pllar s) (mckr s) (fws0 s) (fws1 s) x l n.

(** The bits of the status that come with time. *)
Definition comes (s : clk) (m : Z) : bool :=
  (m =? PMC_SR_MCKRDY)
  || ((m =? PMC_SR_MOSCXTS) && has_bits (mor s) CKGR_MOR_MOSCXTEN)
  || (m =? PMC_SR_MOSCSELS)
  || ((m =? PMC_SR_MOSCRCS) && has_bits (mor s) CKGR_MOR_MOSCRCEN)
  || ((m =? PMC_SR_LOCKA) && has_bits (pllar s) CKGR_PLLAR_MULA_Msk).

(** The registers that read as they were written; the USB PLL is off. *)
Definition shown (a : Z) (s : clk) : option Z :=
  if a =? CKGR_MOR then Some (mor s)
  else if a =? CKGR_PLLAR then Some (pllar s)
  else if a =? PMC_MCKR then Some (mckr s)
  else if a =? EEFC_FMR EFC0 then Some (fws0 s)
  else if a =? EEFC_FMR EFC1 then Some (fws1 s)
  else if a =? CKGR_UCKR then Some 0
  else None.

Definition clk_env : env hw clk := {|
  req (e : op hw) s := match e with Wr a v => safe (write a v s) | _ => True end;
  step (e : op hw) s := match e return hw_ans e -> clk -> Prop with
    | Rd a => fun v s' =>
      if a =? PMC_SR then
        s' = stable s (xtal_ok s || has_bits v PMC_SR_MOSCXTS)
               (locked s || has_bits v PMC_SR_LOCKA) (pred (settling s)) /\
        (settling s = 0%nat -> forall m, comes s m = true -> has_bits v m = true)
      else (forall r, shown a s = Some r -> v = r) /\ s' = s
    | Wr a v => fun _ s' => s' = write a v s
    | _ => fun _ s' => s' = s
    end
|}.

Lemma wp_sr {A} (kont : Z -> prog hw A) Q s :
  (forall v, (settling s = 0%nat -> forall m, comes s m = true -> has_bits v m = true) ->
     wp clk_env (kont v) Q (stable s (xtal_ok s || has_bits v PMC_SR_MOSCXTS)
       (locked s || has_bits v PMC_SR_LOCKA) (pred (settling s)))) ->
  wp clk_env (bind (rd PMC_SR) kont) Q s.
Proof. intros H. split; [done|]. intros v s' [-> Hv]. by apply H. Qed.

(** What a wait for the bit [m] leaves. *)
Definition waited (m : Z) (s s' : clk) : Prop :=
  exists x l n, s' = stable s x l n /\ (n <= settling s)%nat /\
    (xtal_ok s = true -> x = true) /\ (locked s = true -> l = true) /\
    (m = PMC_SR_MOSCXTS -> x = true) /\ (m = PMC_SR_LOCKA -> l = true).

Lemma wp_wait {A} m n (kont : unit -> prog hw A) Q s : (settling s < n)%nat -> comes s m = true ->
  (forall s', waited m s s' -> wp clk_env (kont tt) Q s') ->
  wp clk_env (bind (iter n (wait_round PMC_SR m) tt) kont) Q s.
Proof.
  revert s. induction n as [|n IH]; intros s Hn Hm HQ; [lia|]. cbn [iter].
  unfold wait_round at 1. do 2 step_in. apply wp_sr. intros v Hv. cbn [bind].
  destruct (has_bits v m) eqn:Hb.
  - apply HQ. do 3 eexists. split; [done|]. split; [lia|].
    repeat split; [by intros -> |by intros -> | |]; intros ->; by rewrite Hb, orb_true_r.
  - destruct (settling s) as [|w] eqn:Hw; [by rewrite (Hv eq_refl m Hm) in Hb|].
    apply IH; [simpl; lia|done|]. intros s' (x & l & n' & -> & Hn' & Hx & Hl & ? & ?). apply HQ.
    exists x, l, n'. simpl in *. split; [done|]. rewrite Hw. split; [lia|].
    repeat split; try done; intros E; [apply Hx|apply Hl]; by rewrite E.
Qed.

(** A wait with a timeout: it may end without the bit only if the bit may take
    longer than the timeout. *)
Lemma wp_ready_within {A} t m (kont : bool -> prog hw A) Q s : comes s m = true ->
  (forall s', waited m s s' -> wp clk_env (kont true) Q s') ->
  ((t < settling s)%nat -> forall s', waited 0 s s' -> wp clk_env (kont false) Q s') ->
  wp clk_env (bind (ready_within t m) kont) Q s.
Proof.
  revert s. induction t as [|t IH]; intros s Hm HQ HF; cbn [ready_within]; step_in; apply wp_sr;
    intros v Hv; cbn [bind]; destruct (has_bits v m) eqn:Hb.
  1,3: apply HQ; do 3 eexists; split; [done|]; split; [lia|];
    repeat split; [by intros -> |by intros -> | |]; intros ->; by rewrite Hb, orb_true_r.
  - destruct (settling s) as [|w] eqn:Hw; [by rewrite (Hv eq_refl m Hm) in Hb|].
    apply HF; [lia|]. do 3 eexists. split; [done|]. split; [lia|].
    repeat split; [by intros -> |by intros -> |done..].
  - destruct (settling s) as [|w] eqn:Hw; [by rewrite (Hv eq_refl m Hm) in Hb|].
    apply IH; [done| |]; [|intros Ht]; intros s' (x & l & n' & -> & Hn' & Hx & Hl & ? & ?);
      [apply HQ|apply HF; [simpl in Ht; lia|]];
      exists x, l, n'; simpl in *; (split; [done|]); rewrite Hw; (split; [lia|]);
      repeat split; try done; intros E; [apply Hx|apply Hl|apply Hx|apply Hl]; by rewrite E.
Qed.

Lemma wp_or_timeout {A} m next (kont : Z -> prog hw A) Q s : comes s m = true ->
  (forall s', waited m s s' -> wp clk_env (bind next kont) Q s') ->
  ((Z.to_nat PMC_TIMEOUT < settling s)%nat -> forall s', waited 0 s s' -> wp clk_env (kont 1) Q s') ->
  wp clk_env (bind (or_timeout m next) kont) Q s.
Proof. intros. unfold or_timeout. step_in. by apply wp_ready_within. Qed.
End clk.

Section start.
Context (k fuel : nat).
Hypothesis Hf : (k < fuel)%nat.

Lemma wp_wr {A} a v (kont : unit -> prog hw A) Q s :
  safe (write k a v s) -> wp (clk_env k) (kont tt) Q (write k a v s) ->
  wp (clk_env k) (bind (wr a v) kont) Q s.
Proof. intros Hs HQ. split; [done|]. by intros [] s' ->. Qed.

Lemma wp_rd {A} a r (kont : Z -> prog hw A) Q s :
  shown a s = Some r -> wp (clk_env k) (kont r) Q s -> wp (clk_env k) (bind (rd a) kont) Q s.
Proof.
  intros Ha HQ. split; [done|]. intros v s' Hv. simpl in Hv.
  assert (a <> PMC_SR) as Hsr by (intros ->; vm_compute in Ha; congruence).
  rewrite (proj2 (Z.eqb_neq _ _) Hsr) in Hv. destruct Hv as [Hv ->]. by rewrite (Hv r Ha).
Qed.

(** A read-modify-write of one of the registers of the clock tree. *)
Lemma wp_modify {A} a f r (kont : unit -> prog hw A) Q s :
  shown a s = Some r ->
  safe (write k a (f r) s) -> wp (clk_env k) (kont tt) Q (write k a (f r) s) ->
  wp (clk_env k) (bind (modify a f) kont) Q s.
Proof.
  intros Ha Hs HQ. unfold modify. step_in. eapply wp_rd; [done|]. by apply wp_wr.
Qed.
End start.

(** After the reset: 4 MHz from the RC oscillator, no wait states, all else off. *)
Definition reset_state (n : nat) : clk := Clk CKGR_MOR_MOSCRCEN 0x3F00 PMC_MCKR_CSS_MAIN_CLK 0 0 false false n.

Ltac is_safe := constructor; vm_compute; repeat split; done.

(** Computes the state of the clocks. *)
Ltac norm_clk := match goal with |- wp _ _ _ ?s => let s' := eval vm_compute in s in change s with s' end.

(** The state after a wait. *)
Ltac settle x l n :=
  let s := fresh in intros s (x & l & n & -> & ? & ? & ? & ? & ?);
  cbn [settling xtal_ok locked] in *;
  try (assert (x = true) by auto; subst x); try (assert (l = true) by auto; subst l);
  repeat match goal with
  | H : _ = true -> _ = true |- _ => clear H
  | H : _ = PMC_SR_MOSCXTS -> _ = true |- _ => clear H
  | H : _ = PMC_SR_LOCKA -> _ = true |- _ => clear H
  end;
  unfold stable; norm_clk.

(** The readings of the registers of the clock tree up to the next other step,
    and the tests on them. *)
Ltac read_here :=
  eapply wp_rd; [reflexivity|];
  cbv zeta; closed_tests; cbv iota; cbn [bind].
Ltac read_regs := repeat first [read_here|step_in; read_here|step_in; step_in; read_here].

(** The clocks as the start leaves them: the crystal's 12 MHz, which PLLA
    multiplies by 7, four wait states; [rc] is whether the RC oscillator is still
    on, [css] which of the clocks the core has. *)
Definition started (rc : bool) (css : Z) (n : nat) : clk :=
  Clk (Z.lor 0x01003E01 (if rc then CKGR_MOR_MOSCRCEN else 0)) 0x20063F01 css
    (EEFC_FMR_FWS 4) (EEFC_FMR_FWS 4) true true n.

Definition running (rc : bool) (n : nat) : clk := started rc PMC_MCKR_CSS_PLLA_CLK n.

(** The end of the start: the rate is worked out from the registers. *)
Lemma rate_updated k css n : css = PMC_MCKR_CSS_PLLA_CLK \/ css = PMC_MCKR_CSS_MAIN_CLK ->
  wp (clk_env k) (let! SystemCoreClock := SystemCoreClockUpdate in
      system_init_flash sysclk_get_cpu_hz;; Ret SystemCoreClock)
    (fun o s => o = Done (mck_hz s) /\ s = started true css n) (started true css n).
Proof.
  intros [-> | ->]; norm_clk; unfold SystemCoreClockUpdate, main_clock; read_regs; unfold defined;
    closed_tests; cbn [bind]; read_regs; unfold system_init_flash; closed_tests; cbv iota; unfold EEFC_set; step_in;
    (apply wp_wr; [is_safe|]); (apply wp_wr; [is_safe|]); cbn [wp]; by vm_compute.
Qed.

Lemma sysclk_init_runs k fuel n : (k < fuel)%nat -> (n <= k)%nat ->
  wp (clk_env k) (sysclk_init fuel) (fun o s =>
    o = Done (mck_hz s) /\ exists n', (n' <= k)%nat /\
      (s = running true n' \/ (Z.to_nat PMC_TIMEOUT < k)%nat /\ s = started true PMC_MCKR_CSS_MAIN_CLK n'))
    (reset_state n).
Proof.
  intros Hf Hn. unfold sysclk_init, CONFIG_SYSCLK_SOURCE. closed_tests. cbv iota zeta.
  unfold system_init_flash at 1. closed_tests. cbv iota. unfold EEFC_set at 1. step_in.
  apply wp_wr; [is_safe|]. apply wp_wr; [is_safe|].
  unfold from_pll, pll_enable_source at 1. closed_tests. cbn [andb]. do 2 step_in.
  unfold osc_enable. closed_tests. cbv iota. unfold pmc_switch_mainck_to_xtal. closed_tests. cbn [negb].
  unfold set_field at 1. step_in. eapply wp_modify; [reflexivity|is_safe|]. norm_clk.
  step_in. apply wp_wait; [simpl; lia|done|]. settle x1 l1 n1.
  unfold set_bits at 1. eapply wp_modify; [reflexivity|is_safe|]. norm_clk.
  change (osc_wait_ready fuel CONFIG_PLL0_SOURCE) with (iter fuel (wait_round PMC_SR PMC_SR_MOSCSELS) tt).
  apply wp_wait; [simpl; lia|done|]. settle x2 l2 n2.
  step_in. cbn [defined pll_config_init]. unfold pll_config_init. closed_tests. cbn [andb defined bind].
  unfold pll_enable. closed_tests. cbv iota. do 2 step_in. unfold pmc_disable_pllack.
  apply wp_wr; [is_safe|]. apply wp_wr; [is_safe|]. norm_clk.
  change (pll_wait_for_lock fuel 0) with (iter fuel (wait_round PMC_SR PMC_SR_LOCKA) tt).
  step_in. apply wp_wait; [simpl; lia|done|]. settle x3 l3 n3.
  unfold pmc_switch_mck_to_pllack, set_field. do 2 step_in.
  eapply wp_modify; [reflexivity|is_safe|]. norm_clk.
  apply wp_or_timeout; [done| |intros Hlate].
  - settle x4 l4 n4. step_in. eapply wp_modify; [reflexivity|is_safe|]. norm_clk.
    apply wp_or_timeout; [done| |intros Hlate]; settle x5 l5 n5; cbn [bind];
      (eapply wp_mono; [apply (rate_updated k PMC_MCKR_CSS_PLLA_CLK n5); by left|]);
      intros o s [-> ->]; (split; [done|]); exists n5; (split; [lia|by left]).
  - settle x4 l4 n4. cbn [bind]. eapply wp_mono; [apply (rate_updated k PMC_MCKR_CSS_MAIN_CLK n4); by right|].
    intros o s [-> ->]. split; [done|]. exists n4. split; [lia|]. right. split; [done|by vm_compute].
Qed.

(** A chip on which a switch of the core clock takes longer than the timeout; all
    else is reported at once. *)
Definition late_switch (e : op hw) (s : clk) : hw_ans e * clk :=
  match e return hw_ans e * clk with
  | Rd a =>
    if a =? PMC_SR then
      (if Nat.eqb (settling s) 0 then 0xFFFFFFFF else not32 PMC_SR_MCKRDY, stable s true true (pred (settling s)))
    else (match shown a s with Some r => r | None => 0 end, s)
  | Wr a v => (tt, write 3000 a v s)
  | RdBuf _ => ([], s)
  | NotifyWait _ => (true, s)
  | Getchar => (0, s)
  | WrBuf _ _ | NotifyStateClear | TaskDelay _ | Putchar _ => (tt, s)
  end.

Lemma comes_all s m : comes s m = true -> has_bits 0xFFFFFFFF m = true.
Proof.
  unfold comes. intros H. repeat apply orb_prop in H as [H|H];
    repeat match goal with H : _ && _ = true |- _ => apply andb_prop in H as [H _] end;
    by apply Z.eqb_eq in H as ->.
Qed.

(** Such a chip keeps to the environment, and the start leaves it at 12 MHz,
    where the drivers reckon with 84. *)
Lemma late_switch_ignored :
  (forall e s, step (clk_env 3000) e s (late_switch e s).1 (late_switch e s).2) /\
  let r := run late_switch (sysclk_init 3001) (reset_state 0) in
  r.1 = Done 12000000 /\ mck_hz r.2 = 12000000 /\ sysclk_get_cpu_hz = 84000000.
Proof.
  split; [|by vm_compute]. intros [] s; try done. cbn [late_switch]. unfold clk_env. cbn [step].
  case_match; cbn [fst snd].
  - destruct (settling s) as [|w]; cbn [Nat.eqb]; (split; [f_equal; by rewrite orb_true_r|]); [intros _; apply comes_all|done].
  - split; [|done]. by intros r ->.
Qed.


