(* ===== verification/Genclk.v ===== *)
(** * Programmable clocks

    The generic clock service of the SAM3X (genclk.h): a configuration of one
    of the programmable clocks of pmc.c, its source and its prescaler. *)

From S2P Require Import Prelude Prog Pmc Clock.

(** [enum genclk_source]; the prescalers are the values of the field. *)
Inductive genclk_source :=
| GENCLK_PCK_SRC_SLCK_RC
| GENCLK_PCK_SRC_SLCK_XTAL
| GENCLK_PCK_SRC_SLCK_BYPASS
| GENCLK_PCK_SRC_MAINCK_4M_RC
| GENCLK_PCK_SRC_MAINCK_8M_RC
| GENCLK_PCK_SRC_MAINCK_12M_RC
| GENCLK_PCK_SRC_MAINCK_XTAL
| GENCLK_PCK_SRC_MAINCK_BYPASS
| GENCLK_PCK_SRC_PLLACK
| GENCLK_PCK_SRC_PLLBCK
| GENCLK_PCK_SRC_MCK.

Definition genclk_pres (n : Z) : Z := Z.shiftl n 4.
Definition GENCLK_PCK_PRES_1 : Z := genclk_pres 0.
Definition GENCLK_PCK_PRES_2 : Z := genclk_pres 1.
Definition GENCLK_PCK_PRES_4 : Z := genclk_pres 2.
Definition GENCLK_PCK_PRES_8 : Z := genclk_pres 3.
Definition GENCLK_PCK_PRES_16 : Z := genclk_pres 4.
Definition GENCLK_PCK_PRES_32 : Z := genclk_pres 5.
Definition GENCLK_PCK_PRES_64 : Z := genclk_pres 6.

(** [struct genclk_config] is its [ctrl] word. *)
Definition genclk_config_defaults (ul_id : Z) : Z := 0.
Definition genclk_config_read (ul_id : Z) : prog hw Z := rd (PMC_PCK ul_id).
Definition genclk_config_write (ctrl ul_id : Z) : prog hw unit := wr (PMC_PCK ul_id) ctrl.

Definition genclk_css (e_src : genclk_source) : Z :=
  match e_src with
  | GENCLK_PCK_SRC_SLCK_RC | GENCLK_PCK_SRC_SLCK_XTAL | GENCLK_PCK_SRC_SLCK_BYPASS =>
    PMC_PCK_CSS_SLOW_CLK
  | GENCLK_PCK_SRC_MAINCK_4M_RC | GENCLK_PCK_SRC_MAINCK_8M_RC | GENCLK_PCK_SRC_MAINCK_12M_RC
  | GENCLK_PCK_SRC_MAINCK_XTAL | GENCLK_PCK_SRC_MAINCK_BYPASS => PMC_PCK_CSS_MAIN_CLK
  | GENCLK_PCK_SRC_PLLACK => PMC_PCK_CSS_PLLA_CLK
  | GENCLK_PCK_SRC_PLLBCK => PMC_PCK_CSS_UPLL_CLK
  | GENCLK_PCK_SRC_MCK => PMC_PCK_CSS_MCK
  end.

Definition genclk_config_set_source (ctrl : Z) (e_src : genclk_source) : Z :=
  Z.lor (Z.land ctrl (not32 PMC_PCK_CSS_Msk)) (genclk_css e_src).

Definition genclk_config_set_divider (ctrl e_divider : Z) : Z :=
  Z.lor (Z.land ctrl (not32 PMC_PCK_PRES_Msk)) e_divider.

Definition genclk_enable (ctrl ul_id : Z) : prog hw unit :=
  wr (PMC_PCK ul_id) ctrl;; pmc_enable_pck ul_id.

Definition genclk_disable (ul_id : Z) : prog hw unit := pmc_disable_pck ul_id.

Section fuel.
Context (fuel : nat).

Definition osc_ensure_ready (osc : Z) : prog hw unit :=
  let! ready := osc_is_ready osc in
  if negb ready then osc_enable fuel osc;; osc_wait_ready fuel osc else Ret tt.

(** Both PLLs are configured (pll.h); [garbage] is the word of a configuration
    that is not initialised. *)
Definition genclk_enable_source (garbage : Z) (e_src : genclk_source) : prog hw unit :=
  match e_src with
  | GENCLK_PCK_SRC_SLCK_RC => osc_ensure_ready OSC_SLCK_32K_RC
  | GENCLK_PCK_SRC_SLCK_XTAL => osc_ensure_ready OSC_SLCK_32K_XTAL
  | GENCLK_PCK_SRC_SLCK_BYPASS => osc_ensure_ready OSC_SLCK_32K_BYPASS
  | GENCLK_PCK_SRC_MAINCK_4M_RC => osc_ensure_ready OSC_MAINCK_4M_RC
  | GENCLK_PCK_SRC_MAINCK_8M_RC => osc_ensure_ready OSC_MAINCK_8M_RC
  | GENCLK_PCK_SRC_MAINCK_12M_RC => osc_ensure_ready OSC_MAINCK_12M_RC
  | GENCLK_PCK_SRC_MAINCK_XTAL => osc_ensure_ready OSC_MAINCK_XTAL
  | GENCLK_PCK_SRC_MAINCK_BYPASS => osc_ensure_ready OSC_MAINCK_BYPASS
  | GENCLK_PCK_SRC_PLLACK => pll_enable_config_defaults fuel garbage 0
  | GENCLK_PCK_SRC_PLLBCK => pll_enable_config_defaults fuel garbage 1
  | GENCLK_PCK_SRC_MCK => Ret tt
  end.

Definition genclk_enable_config (garbage id : Z) (src : genclk_source) (divider : Z) : prog hw unit :=
  let gcfg := genclk_config_defaults id in
  genclk_enable_source garbage src;;
  let gcfg := genclk_config_set_source gcfg src in
  let gcfg := genclk_config_set_divider gcfg divider in
  genclk_enable gcfg id.
End fuel.

(** ** The configuration of a clock *)

Lemma field_written c m v : Z.land (not32 m) m = 0 -> Z.land v m = v ->
  Z.land (Z.lor (Z.land c (not32 m)) v) m = v.
Proof. intros Hm Hv. by rewrite Z.land_lor_distr_l, <- Z.land_assoc, Hm, Z.land_0_r, Hv. Qed.

Lemma field_elsewhere c m v m' : Z.land (not32 m) m' = m' -> Z.land v m' = 0 ->
  Z.land (Z.lor (Z.land c (not32 m)) v) m' = Z.land c m'.
Proof. intros Hm Hv. by rewrite Z.land_lor_distr_l, <- Z.land_assoc, Hm, Hv, Z.lor_0_r. Qed.

(** The two fields do not disturb each other, nor the rest of the word. *)
Lemma genclk_fields ctrl src n : 0 <= n <= 6 ->
  let c := genclk_config_set_divider (genclk_config_set_source ctrl src) (genclk_pres n) in
  let others := not32 (Z.lor PMC_PCK_CSS_Msk PMC_PCK_PRES_Msk) in
  Z.land c PMC_PCK_CSS_Msk = genclk_css src /\ Z.land c PMC_PCK_PRES_Msk = genclk_pres n /\
  Z.land c others = Z.land ctrl others.
Proof.
  intros Hn. cbv zeta. unfold genclk_config_set_divider, genclk_config_set_source.
  assert (n ∈ [0; 1; 2; 3; 4; 5; 6]) as Hin by (rewrite !elem_of_cons; lia).
  assert (forall m, m = PMC_PCK_CSS_Msk \/ m = not32 (Z.lor PMC_PCK_CSS_Msk PMC_PCK_PRES_Msk) ->
    Z.land (genclk_pres n) m = 0) as Hz
    by (intros m [-> | ->]; repeat (apply elem_of_cons in Hin as [->|Hin]; [done|]); by apply elem_of_nil in Hin).
  assert (Z.land (genclk_pres n) PMC_PCK_PRES_Msk = genclk_pres n) as Hp
    by (repeat (apply elem_of_cons in Hin as [->|Hin]; [done|]); by apply elem_of_nil in Hin).
  split; [|split].
  - rewrite field_elsewhere by (done || by apply Hz; auto). by apply field_written; destruct src.
  - by apply field_written.
  - rewrite field_elsewhere by (done || by apply Hz; auto). by apply field_elsewhere; destruct src.
Qed.

(** The clock is configured, with its source running, before it is enabled. *)
Lemma genclk_enable_config_ends fuel garbage id src n :
  genclk_enable_config fuel garbage id src (genclk_pres n) =
  (genclk_enable_source fuel garbage src;;
   wr (PMC_PCK id) (Z.lor (genclk_css src) (genclk_pres n));;
   wr PMC_SCER (u32 (Z.shiftl PMC_SCER_PCK0 id))).
Proof. by destruct src. Qed.
