(* ===== verification/Startup.v ===== *)
(** * From reset to main

    startup_sam3x.c (the vector table and [Reset_Handler]), exceptions.c (the
    default handlers), the heap of syscalls.c, and the memory layout they rely
    on: the linker script flash.ld is a parameter, the symbols it defines with
    what it says of them. *)

From stdpp Require Import strings functions.
From S2P Require Import Prelude Prog.

(** ** The reset handler

    The environment is the memory, by words at their addresses (the vector
    table register of the system control block is one), and the two functions
    that are called. *)
Inductive resetop :=
| LoadWord (a : Z)
| StoreWord (a v : Z)
| LibcInitArray
| Main.

Definition reset_ans (e : resetop) : Type := match e with LoadWord _ => Z | _ => unit end.
Definition reset : Sig := {| op := resetop; ans := reset_ans |}.
Definition rcall (e : resetop) : prog reset (reset_ans e) := @trigger reset e.

(** The symbols of the linker script. *)
Record layout := Layout {
  _sfixed : Z;
  _etext : Z;
  _srelocate : Z;
  _erelocate : Z;
  _szero : Z;
  _ezero : Z
}.

Definition SCB_VTOR : Z := 0xE000ED00 + 0x08.
Definition SCB_VTOR_TBLOFF_Pos : Z := 7.
Definition SCB_VTOR_TBLOFF_Msk : Z := Z.shiftl 0x3FFFFF SCB_VTOR_TBLOFF_Pos.
Definition SCB_VTOR_TBLBASE_Pos : Z := 29.
Definition IRAM0_ADDR : Z := 0x20000000.
Definition NFC_RAM_ADDR : Z := 0x20100000.

(** Words from [s] up to [e]: the rounds of a loop that goes up to [e]. *)
Definition words (s e : Z) : nat := Z.to_nat ((e - s + 3) / 4).

(** [for (; pDest < end;) *pDest++ = *pSrc++;] *)
Fixpoint copy_words (k : nat) (pSrc pDest end_ : Z) : prog reset unit :=
  if pDest <? end_ then
    match k with
    | O => Halt OutOfFuel
    | S k =>
      let! v := rcall (LoadWord pSrc) in
      rcall (StoreWord pDest v);;
      copy_words k (pSrc + 4) (pDest + 4) end_
    end
  else Ret tt.

Fixpoint clear_words (k : nat) (pDest end_ : Z) : prog reset unit :=
  if pDest <? end_ then
    match k with
    | O => Halt OutOfFuel
    | S k => rcall (StoreWord pDest 0);; clear_words k (pDest + 4) end_
    end
  else Ret tt.

Definition set_vector_table (l : layout) : prog reset unit :=
  rcall (StoreWord SCB_VTOR (Z.land (_sfixed l) SCB_VTOR_TBLOFF_Msk));;
  (if (IRAM0_ADDR <=? _sfixed l) && (_sfixed l <? NFC_RAM_ADDR) then
     let! v := rcall (LoadWord SCB_VTOR) in
     rcall (StoreWord SCB_VTOR (Z.lor v (Z.shiftl 1 SCB_VTOR_TBLBASE_Pos)))
   else Ret tt).

Definition Reset_Handler (l : layout) : prog reset unit :=
  (if negb (_etext l =? _srelocate l) then
     copy_words (words (_srelocate l) (_erelocate l)) (_etext l) (_srelocate l) (_erelocate l)
   else Ret tt);;
  clear_words (words (_szero l) (_ezero l)) (_szero l) (_ezero l);;
  set_vector_table l;;
  rcall LibcInitArray;;
  rcall Main;;
  Halt Hang.

(** ** The vector table *)

Open Scope string_scope.

Inductive vector := InitialStack | Handler (name : string) | Reserved.

Definition exception_table : list vector :=
  [InitialStack; Handler "Reset_Handler"; Handler "NMI_Handler"; Handler "HardFault_Handler";
   Handler "MemManage_Handler"; Handler "BusFault_Handler"; Handler "UsageFault_Handler";
   Reserved; Reserved; Reserved; Reserved; Handler "SVC_Handler"; Handler "DebugMon_Handler";
   Reserved; Handler "PendSV_Handler"; Handler "SysTick_Handler";
   Handler "SUPC_Handler"; Handler "RSTC_Handler"; Handler "RTC_Handler"; Handler "RTT_Handler";
   Handler "WDT_Handler"; Handler "PMC_Handler"; Handler "EFC0_Handler"; Handler "EFC1_Handler";
   Handler "UART_Handler"; Handler "SMC_Handler"; Handler "SDRAMC_Handler";
   Handler "PIOA_Handler"; Handler "PIOB_Handler"; Handler "PIOC_Handler"; Handler "PIOD_Handler";
   Handler "PIOE_Handler"; Handler "PIOF_Handler"; Handler "USART0_Handler"; Handler "USART1_Handler";
   Handler "USART2_Handler"; Handler "USART3_Handler"; Handler "HSMCI_Handler"; Handler "TWI0_Handler";
   Handler "TWI1_Handler"; Handler "SPI0_Handler"; Handler "SPI1_Handler"; Handler "SSC_Handler";
   Handler "TC0_Handler"; Handler "TC1_Handler"; Handler "TC2_Handler"; Handler "TC3_Handler";
   Handler "TC4_Handler"; Handler "TC5_Handler"; Handler "TC6_Handler"; Handler "TC7_Handler";
   Handler "TC8_Handler"; Handler "PWM_Handler"; Handler "ADC_Handler"; Handler "DACC_Handler";
   Handler "DMAC_Handler"; Handler "UOTGHS_Handler"; Handler "TRNG_Handler"; Handler "EMAC_Handler";
   Handler "CAN0_Handler"; Handler "CAN1_Handler"].

(** [IRQn_Type]: the numbers of the exceptions and interrupts. *)
Definition IRQn_Type : list (string * Z) :=
  [("NonMaskableInt", -14); ("MemoryManagement", -12); ("BusFault", -11); ("UsageFault", -10);
   ("SVCall", -5); ("DebugMonitor", -4); ("PendSV", -2); ("SysTick", -1);
   ("SUPC", 0); ("RSTC", 1); ("RTC", 2); ("RTT", 3); ("WDT", 4); ("PMC", 5); ("EFC0", 6); ("EFC1", 7);
   ("UART", 8); ("SMC", 9); ("SDRAMC", 10); ("PIOA", 11); ("PIOB", 12); ("PIOC", 13); ("PIOD", 14);
   ("PIOE", 15); ("PIOF", 16); ("USART0", 17); ("USART1", 18); ("USART2", 19); ("USART3", 20);
   ("HSMCI", 21); ("TWI0", 22); ("TWI1", 23); ("SPI0", 24); ("SPI1", 25); ("SSC", 26);
   ("TC0", 27); ("TC1", 28); ("TC2", 29); ("TC3", 30); ("TC4", 31); ("TC5", 32); ("TC6", 33);
   ("TC7", 34); ("TC8", 35); ("PWM", 36); ("ADC", 37); ("DACC", 38); ("DMAC", 39); ("UOTGHS", 40);
   ("TRNG", 41); ("EMAC", 42); ("CAN0", 43); ("CAN1", 44)].

(** The weak aliases: a name that no other file defines is [Dummy_Handler],
    which loops for ever. *)
Definition resolve (strong : list string) (name : string) : string :=
  if bool_decide (name ∈ strong) then name else "Dummy_Handler".

Definition Dummy_Handler : prog reset unit := Halt Hang.

Close Scope string_scope.

(** ** The heap (syscalls.c)

    [end_] and [ram_end] are the addresses of [_end] and [__ram_end__]; the
    static variable [heap] is null until the first call. *)
Section sbrk.
Context (end_ ram_end : Z).

Definition _sbrk (heap : option Z) (incr : Z) : outcome (Z * option Z) :=
  let prev_heap := match heap with None => end_ | Some h => h end in
  let next := s32 prev_heap + incr in
  if decide (- 2 ^ 31 <= next < 2 ^ 31) then
    if s32 ram_end <? next then Done (-1, Some prev_heap)
    else Done (prev_heap, Some (u32 (prev_heap + incr)))
  else Stop Undefined.

(** Calls one after the other, with their results. *)
Fixpoint sbrk_calls (heap : option Z) (incrs : list Z) : outcome (list Z) :=
  match incrs with
  | [] => Done []
  | incr :: incrs =>
    match _sbrk heap incr with
    | Stop h => Stop h
    | Done (r, heap) =>
      match sbrk_calls heap incrs with Stop h => Stop h | Done rs => Done (r :: rs) end
    end
  end.
End sbrk.

Definition link : Z := -1.
Definition _close : Z := -1.
Definition S_IFCHR : Z := 0x2000.
Definition _fstat : Z * Z := (S_IFCHR, 0).
Definition _isatty : Z := 1.
Definition _lseek : Z := 0.
Definition _getpid : Z := -1.
(** A breakpoint, then a loop for ever. *)
Definition _exit : prog reset unit := Halt Hang.

(** ** What the reset handler prepares *)

(** The vector table register holds the address of the table, wherever the
    linker put it (the table is aligned to 128 bytes at least). *)
Lemma vtor_of_table t : 0 <= t < NFC_RAM_ADDR -> t mod 128 = 0 ->
  (if (IRAM0_ADDR <=? t) && (t <? NFC_RAM_ADDR)
   then Z.lor (Z.land t SCB_VTOR_TBLOFF_Msk) (Z.shiftl 1 SCB_VTOR_TBLBASE_Pos)
   else Z.land t SCB_VTOR_TBLOFF_Msk) = t.
Proof.
  unfold NFC_RAM_ADDR, IRAM0_ADDR. intros Ht Ha.
  assert (Z.land t SCB_VTOR_TBLOFF_Msk = t mod 2 ^ 29) as ->.
  { change SCB_VTOR_TBLOFF_Msk with (Z.ldiff (Z.ones 29) (Z.ones 7)).
    rewrite <- Z.land_ones by lia. rewrite !Z.ldiff_land, Z.land_assoc, <- Z.ldiff_land.
    rewrite Z.ldiff_ones_r, Z.shiftr_div_pow2, Z.shiftl_mul_pow2, Z.land_ones by lia.
    change (2 ^ 7) with 128. change (2 ^ 29) with (128 * 2 ^ 22).
    assert (t = 128 * (t / 128)) as E by (Z.to_euclidean_division_equations; lia).
    rewrite E at 1 2. rewrite Zmult_mod_distr_l, (Z.mul_comm 128 (_ mod _)), Z.div_mul by lia. done. }
  destruct (Z.leb_spec 0x20000000 t) as [Hr|Hr]; cbn [andb].
  - rewrite (proj2 (Z.ltb_lt _ _)) by lia. unfold SCB_VTOR_TBLBASE_Pos.
    rewrite lor_disjoint_add by (Z.to_euclidean_division_equations; lia).
    change (Z.shiftl 1 29) with (2 ^ 29). Z.to_euclidean_division_equations; lia.
  - apply Z.mod_small. lia.
Qed.

(** What the linker script says of its symbols: words, in this order, the copy
    of the initialised data in the flash memory below the RAM (or in place, if
    the program runs from RAM), and a table that the register can point to. *)
Definition linked (l : layout) : Prop :=
  (_etext l = _srelocate l \/ _etext l + (_erelocate l - _srelocate l) <= _srelocate l) /\
  0 <= _etext l /\ _srelocate l <= _erelocate l <= _szero l /\ _szero l <= _ezero l < SCB_VTOR /\
  Forall (fun a => a mod 4 = 0) [_etext l; _srelocate l; _erelocate l; _szero l; _ezero l] /\
  0 <= _sfixed l < NFC_RAM_ADDR /\ _sfixed l mod 128 = 0.

(** The address of a word between [s] and [e]. *)
Definition word_in (s e a : Z) : bool := (s <=? a) && (a <? e) && ((a - s) mod 4 =? 0).

(** The memory that the C program has to find. *)
Definition prepared (l : layout) (m : Z -> Z) (a : Z) : Z :=
  if a =? SCB_VTOR then _sfixed l
  else if word_in (_szero l) (_ezero l) a then 0
  else if word_in (_srelocate l) (_erelocate l) a then m (_etext l + (a - _srelocate l))
  else m a.

Inductive phase := Preparing | Initialised | Running.

(** The handler writes to the data segments and the vector table register, and
    reads that register and the copy of the data.  It calls the C library once,
    with the memory prepared, then [main] once.  What the two do with the
    memory is theirs. *)
Section machine.
Context (l : layout) (m0 : Z -> Z).

Definition reset_env : env reset (phase * (Z -> Z)) := {|
  req := fun (e : op reset) '(ph, m) =>
    match e : resetop with
    | LoadWord a => a = SCB_VTOR \/ _etext l <= a < _etext l + (_erelocate l - _srelocate l)
    | StoreWord a _ => a = SCB_VTOR \/ _srelocate l <= a < _ezero l
    | LibcInitArray => ph = Preparing /\ forall a, m a = prepared l m0 a
    | Main => ph = Initialised
    end;
  step := fun (e : op reset) '(ph, m) =>
    match e as e return reset_ans e -> phase * (Z -> Z) -> Prop with
    | LoadWord a => fun x s' => x = m a /\ s' = (ph, m)
    | StoreWord a v => fun _ s' => s' = (ph, <[a := v]> m)
    | LibcInitArray => fun _ s' => s'.1 = Initialised
    | Main => fun _ s' => s'.1 = Running
    end
|}.

Lemma word_in_next s e a : s < e -> word_in s e a = (a =? s) || word_in (s + 4) e a.
Proof.
  intros Hs. unfold word_in. destruct (Z.eqb_spec a s) as [->|Hn].
  - rewrite Z.sub_diag, Z.leb_refl, (proj2 (Z.ltb_lt _ _)) by lia. done.
  - apply eq_true_iff_eq. cbn [orb]. rewrite !andb_true_iff, !Z.leb_le, !Z.ltb_lt, !Z.eqb_eq.
    Z.to_euclidean_division_equations. lia.
Qed.

Lemma word_in_none s e a : e <= s -> word_in s e a = false.
Proof. intros Hs. unfold word_in. destruct (Z.leb_spec s a), (Z.ltb_spec a e); try done; lia. Qed.

Lemma word_in_range s e a : word_in s e a = true -> s <= a < e.
Proof. unfold word_in. rewrite !andb_true_iff, Z.leb_le, Z.ltb_lt. lia. Qed.

Lemma words_next s e : s < e -> words s e = S (words (s + 4) e).
Proof. intros Hs. unfold words. rewrite <- Z2Nat.inj_succ; [f_equal|]; Z.to_euclidean_division_equations; lia. Qed.

Lemma wp_copy_words k src dst e m :
  k = words dst e -> (src + (e - dst) <= dst) ->
  _srelocate l <= dst -> e <= _ezero l ->
  _etext l <= src -> src + (e - dst) <= _etext l + (_erelocate l - _srelocate l) ->
  wp reset_env (copy_words k src dst e)
    (fun o s' => o = Done tt /\ exists m', s' = (Preparing, m') /\
       forall a, m' a = if word_in dst e a then m (src + (a - dst)) else m a) (Preparing, m).
Proof.
  revert src dst m. induction k as [|k IH]; intros src dst m Hk Hd Hl He Hs Hb; cbn [copy_words];
    destruct (Z.ltb_spec dst e) as [Hlt|Hge].
  1: by rewrite words_next in Hk.
  1,3: split; [done|]; eexists; split; [done|]; intros a; by rewrite word_in_none.
  rewrite words_next in Hk by done. injection Hk as Hk.
  split; [right; lia|]. intros x s' [-> ->]. split; [right; lia|]. intros [] s' ->.
  eapply wp_mono; [apply IH; lia || done|]. intros o s' (-> & m' & -> & Hm').
  split; [done|]. eexists. split; [done|]. intros a. rewrite Hm', (word_in_next dst) by done.
  destruct (word_in (dst + 4) e a) eqn:Ha.
  - apply word_in_range in Ha. rewrite orb_true_r, fn_lookup_insert_ne by lia. f_equal. lia.
  - rewrite orb_false_r. destruct (Z.eqb_spec a dst) as [->|Hn].
    + rewrite fn_lookup_insert. f_equal. lia.
    + by rewrite fn_lookup_insert_ne.
Qed.

Lemma wp_clear_words k dst e m :
  k = words dst e -> _srelocate l <= dst -> e <= _ezero l ->
  wp reset_env (clear_words k dst e)
    (fun o s' => o = Done tt /\ exists m', s' = (Preparing, m') /\
       forall a, m' a = if word_in dst e a then 0 else m a) (Preparing, m).
Proof.
  revert dst m. induction k as [|k IH]; intros dst m Hk Hl He; cbn [clear_words];
    destruct (Z.ltb_spec dst e) as [Hlt|Hge].
  1: by rewrite words_next in Hk.
  1,3: split; [done|]; eexists; split; [done|]; intros a; by rewrite word_in_none.
  rewrite words_next in Hk by done. injection Hk as Hk.
  split; [right; lia|]. intros [] s' ->.
  eapply wp_mono; [apply IH; lia || done|]. intros o s' (-> & m' & -> & Hm').
  split; [done|]. eexists. split; [done|]. intros a. rewrite Hm', (word_in_next dst) by done.
  destruct (word_in (dst + 4) e a); [by rewrite orb_true_r|]. rewrite orb_false_r.
  destruct (Z.eqb_spec a dst) as [->|Hn]; [by rewrite fn_lookup_insert|by rewrite fn_lookup_insert_ne].
Qed.

(** The data segments, before the table register is set. *)
Lemma segments_prepared m1 m2 : linked l ->
  (_etext l <> _srelocate l -> forall a, m1 a =
     if word_in (_srelocate l) (_erelocate l) a then m0 (_etext l + (a - _srelocate l)) else m0 a) ->
  (_etext l = _srelocate l -> m1 = m0) ->
  (forall a, m2 a = if word_in (_szero l) (_ezero l) a then 0 else m1 a) ->
  forall m, (forall a, m a = if a =? SCB_VTOR then _sfixed l else m2 a) ->
  forall a, m a = prepared l m0 a.
Proof.
  intros _ Hcopy Hplace Hclear m Hm a. rewrite Hm, Hclear. unfold prepared.
  destruct (a =? SCB_VTOR), (word_in (_szero l) (_ezero l) a); try done.
  destruct (decide (_etext l = _srelocate l)) as [He|He]; [|by apply Hcopy].
  rewrite (Hplace He). destruct (word_in _ _ a); [f_equal; lia|done].
Qed.

(** The end of the handler, the segments being ready. *)
Lemma wp_finish m2 : linked l ->
  (forall m, (forall a, m a = if a =? SCB_VTOR then _sfixed l else m2 a) ->
     forall a, m a = prepared l m0 a) ->
  wp reset_env (A := unit) (set_vector_table l;; rcall LibcInitArray;; rcall Main;; Halt Hang)
    (fun o s' => o = Stop Hang /\ s'.1 = Running) (Preparing, m2).
Proof.
  intros (_ & _ & _ & _ & _ & Ht & Ha) Hp. pose proof (vtor_of_table _ Ht Ha) as Hv. unfold set_vector_table.
  step_in.
  split; [by left|]. intros [] s' ->. cbn [bind].
  assert (forall m, (forall a, m a = if a =? SCB_VTOR then _sfixed l else m2 a) ->
    wp reset_env (A := unit) (rcall LibcInitArray;; rcall Main;; Halt Hang)
      (fun o s' => o = Stop Hang /\ s'.1 = Running) (Preparing, m)) as Hrest.
  { intros m Hm. split; [split; [done|by apply Hp]|]. intros [] [ph m'] Hph. cbn in Hph. subst ph.
    split; [done|]. by intros [] [ph m''] Hph. }
  destruct ((IRAM0_ADDR <=? _sfixed l) && (_sfixed l <? NFC_RAM_ADDR)); cbn [bind rcall trigger].
  - split; [by left|]. intros v s' [-> ->]. cbn [bind]. split; [by left|]. intros [] s' ->.
    apply Hrest. intros a. rewrite fn_lookup_insert, Hv.
    destruct (Z.eqb_spec a SCB_VTOR) as [->|Hn]; [by rewrite fn_lookup_insert|by rewrite !fn_lookup_insert_ne].
  - apply Hrest. intros a. rewrite Hv.
    destruct (Z.eqb_spec a SCB_VTOR) as [->|Hn]; [by rewrite fn_lookup_insert|by rewrite fn_lookup_insert_ne].
Qed.

(** C14: The reset handler prepares the memory that the C program relies on.
    For every layout that the linker script can give: it writes to nothing but
    the data segments and the vector table register and reads only the copy of
    the initialised data; when the C library is initialised each word of the
    initialised data has its value, the words of the zero segment are 0, the
    register holds the address of the vector table, in flash memory or in RAM,
    and the rest of the memory is as it was; [main] is called once, after
    that, and if it returns the handler loops for ever. *)
Theorem reset_prepares_memory : linked l ->
  wp reset_env (Reset_Handler l) (fun o s' => o = Stop Hang /\ s'.1 = Running) (Preparing, m0).
Proof.
  intros Hl. pose proof Hl as (Hfrom & Ht & Hr & Hz & _). unfold Reset_Handler.
  assert (forall m1,
    (_etext l <> _srelocate l -> forall a, m1 a =
       if word_in (_srelocate l) (_erelocate l) a then m0 (_etext l + (a - _srelocate l)) else m0 a) ->
    (_etext l = _srelocate l -> m1 = m0) ->
    wp reset_env (A := unit) (clear_words (words (_szero l) (_ezero l)) (_szero l) (_ezero l);;
        set_vector_table l;; rcall LibcInitArray;; rcall Main;; Halt Hang)
      (fun o s' => o = Stop Hang /\ s'.1 = Running) (Preparing, m1)) as Hclear.
  { intros m1 Hc Hp. eapply wp_seq; [apply wp_clear_words; [done|lia|lia]|].
    intros o s' (-> & m2 & -> & Hm2). apply wp_finish; [done|].
    exact (segments_prepared m1 m2 Hl Hc Hp Hm2). }
  destruct (Z.eqb_spec (_etext l) (_srelocate l)) as [He|He]; cbn [negb].
  - by apply Hclear.
  - eapply wp_seq; [apply wp_copy_words; [done|lia..]|]. intros o s' (-> & m1 & -> & Hm1).
    by apply Hclear.
Qed.
End machine.

(** The addresses of a build: 188 bytes of data, 3 KB zeroed. *)
Lemma reset_prepares_memory_witness :
  let l := Layout 0x80000 0x92000 0x20070000 0x200700bc 0x200700bc 0x20070d00 in
  linked l /\
  wp (reset_env l (fun a => a)) (Reset_Handler l) (fun o s' => o = Stop Hang /\ s'.1 = Running)
    (Preparing, fun a => a).
Proof.
  assert (linked (Layout 0x80000 0x92000 0x20070000 0x200700bc 0x200700bc 0x20070d00)) as Hl.
  { unfold linked, SCB_VTOR, NFC_RAM_ADDR. cbn. split; [lia|]. split; [lia|]. split; [lia|].
    split; [lia|]. split; [by repeat constructor|]. split; [lia|done]. }
  split; [exact Hl|apply (reset_prepares_memory _ (fun a => a) Hl)].
Defined.

(** ** The vector table has every handler in its place *)

Open Scope string_scope.

Definition handler_name (irq : string) : string :=
  (if bool_decide (irq = "NonMaskableInt") then "NMI"
   else if bool_decide (irq = "MemoryManagement") then "MemManage"
   else if bool_decide (irq = "SVCall") then "SVC"
   else if bool_decide (irq = "DebugMonitor") then "DebugMon" else irq) +:+ "_Handler".

Lemma vectors_in_place : Forall (fun '(irq, n) =>
  exception_table !! Z.to_nat (16 + n) = Some (Handler (handler_name irq))) IRQn_Type.
Proof. repeat constructor. Qed.

Close Scope string_scope.

(** ** The heap *)

Section heap.
Context (end_ ram_end : Z) (Hend : 0 <= end_ <= ram_end) (Hram : ram_end < 2 ^ 31).

Lemma sbrk_step h incr : end_ <= h <= ram_end -> 0 <= incr < 2 ^ 31 - ram_end ->
  _sbrk end_ ram_end (Some h) incr =
  if ram_end <? h + incr then Done (-1, Some h) else Done (h, Some (h + incr)).
Proof.
  intros Hh Hi. unfold _sbrk. unfold s32. rewrite !signed_small by lia. rewrite decide_True by lia.
  destruct (Z.ltb_spec ram_end (h + incr)); [done|]. by rewrite u32_id by (unfold is_u32; lia).
Qed.

(** The blocks of a sequence of calls that start with the heap ending at [h]. *)
Fixpoint blocks_from (h : Z) (incrs rs : list Z) : Prop :=
  match incrs, rs with
  | [], [] => True
  | i :: incrs, r :: rs =>
    (r = -1 /\ ram_end < h + i /\ blocks_from h incrs rs) \/
    (r = h /\ h + i <= ram_end /\ blocks_from (h + i) incrs rs)
  | _, _ => False
  end.

Lemma sbrk_calls_blocks h incrs : end_ <= h <= ram_end ->
  Forall (fun i => 0 <= i < 2 ^ 31 - ram_end) incrs ->
  exists rs, sbrk_calls end_ ram_end (Some h) incrs = Done rs /\ blocks_from h incrs rs.
Proof.
  intros Hh Hi. revert h Hh. induction Hi as [|i incrs Hi _ IH]; intros h Hh; [by exists []|].
  cbn [sbrk_calls]. rewrite sbrk_step by done. destruct (Z.ltb_spec ram_end (h + i)) as [Hf|Hf].
  - destruct (IH h Hh) as (rs & -> & Hb). exists (-1 :: rs). split; [done|]. cbn. auto.
  - destruct (IH (h + i)) as (rs & -> & Hb); [lia|]. exists (h :: rs). split; [done|]. cbn. auto.
Qed.
End heap.
