(* ===== verification/Sleep.v ===== *)
(** * Low-power modes

    src/src/ASF/sam/drivers/pmc/sleep.c and the sleep, wait and backup modes of
    src/src/ASF/sam/drivers/pmc/pmc.c, as the SAM3X compiles them: the clocks
    are saved and slowed down before the wait mode and restored afterwards. *)

From S2P Require Import Prelude Prog Pmc Clock.

(** ** The environment: registers, instructions and shared variables

    Besides the register accesses: the instructions that the functions issue;
    [cpu_irq_enable] and [cpu_irq_disable]; the variables that sleep.c shares
    with the interrupt handlers, [b_is_sleep_clock_used] and
    [callback_clocks_restored] (a function pointer that may be null); and the
    call of such a pointer. *)
Section modes.
Context {callback : Type}.

Inductive cpuop : Type :=
| CHw (e : hwop)
| CpuIrq (enable : bool)
| WFI
| WFE
| DSB
| NOP
| LoadClockUsed
| StoreClockUsed (b : bool)
| LoadCallback
| StoreCallback (f : option callback)
| Callback (f : callback).

Definition cpu_ans (e : cpuop) : Type :=
  match e with
  | CHw e => hw_ans e
  | LoadClockUsed => bool
  | LoadCallback => option callback
  | _ => unit
  end.

Definition cpu : Sig := {| op := cpuop; ans := cpu_ans |}.

Definition ccall (e : cpuop) : prog cpu (cpu_ans e) := @trigger cpu e.
Definition on_cpu {A} (p : prog hw A) : prog cpu A := @embed hw cpu CHw (fun e x => x) A p.

Definition SCB : Z := 0xE000ED00.
Definition SCB_SCR : Z := SCB + 0x10.
Definition SCB_SCR_SLEEPDEEP_Msk : Z := Z.shiftl 1 2.
Definition SCR_SLEEPDEEP : Z := Z.shiftl 0x1 2.
Definition PMC_FSMR_LPM : Z := Z.shiftl 0x1 20.

(** ** The modes of pmc.c *)

Definition pmc_enable_sleepmode (uc_type : Z) : prog cpu unit :=
  on_cpu (clear_bits PMC_FSMR PMC_FSMR_LPM);;
  on_cpu (clear_bits SCB_SCR SCB_SCR_SLEEPDEEP_Msk);;
  if uc_type =? 0 then ccall DSB;; ccall WFI
  else ccall DSB;; ccall WFE.

Fixpoint nops (n : nat) : prog cpu unit :=
  match n with O => Ret tt | S n => ccall NOP;; nops n end.

(** [fuel] bounds the waits for a bit of a register. *)
Section fuel.
Context (fuel : nat).

Definition pmc_enable_waitmode : prog cpu unit :=
  on_cpu (set_bits PMC_FSMR PMC_FSMR_LPM);;
  on_cpu (clear_bits SCB_SCR SCB_SCR_SLEEPDEEP_Msk);;
  ccall DSB;;
  ccall WFE;;
  nops 500;;
  on_cpu (iter fuel (wait_round CKGR_MOR CKGR_MOR_MOSCRCEN) tt).

Definition pmc_enable_backupmode : prog cpu unit :=
  on_cpu (set_bits SCB_SCR SCB_SCR_SLEEPDEEP_Msk);;
  ccall DSB;;
  ccall WFE.

(** ** Saving and restoring the clocks (sleep.c) *)

(** The variables that the pointers of [pmc_save_clock_settings] point to. *)
Record clock_settings := ClockSettings {
  osc_setting : Z;
  pll0_setting : Z;
  pll1_setting : Z;
  mck_setting : Z;
  fmr_setting : Z;
  fmr_setting1 : Z
}.

Definition pmc_save_clock_settings (disable_xtal : bool) : prog hw clock_settings :=
  let! mor := rd CKGR_MOR in
  let! mckr := rd PMC_MCKR in
  let! fmr := rd (EEFC_FMR EFC0) in
  let! fmr1 := rd (EEFC_FMR EFC1) in
  let! pllar := rd CKGR_PLLAR in
  let! uckr := rd CKGR_UCKR in
  wr CKGR_MOR (Z.lor (Z.lor CKGR_MOR_KEY_PASSWD mor) CKGR_MOR_MOSCRCEN);;
  let! now :=
    (if PMC_MCKR_CSS_MAIN_CLK <? Z.land mckr PMC_MCKR_CSS_Msk then
       let main := Z.lor (Z.land mckr (not32 PMC_MCKR_CSS_Msk)) PMC_MCKR_CSS_MAIN_CLK in
       wr PMC_MCKR main;;
       wait_sr fuel PMC_SR_MCKRDY;;
       Ret main
     else Ret mckr) in
  (if has_bits now PMC_MCKR_PRES_Msk then
     wr PMC_MCKR (Z.land now (not32 PMC_MCKR_PRES_Msk));;
     wait_sr fuel PMC_SR_MCKRDY
   else Ret tt);;
  pmc_disable_pllack;;
  pmc_disable_upll_clock;;
  wait_sr fuel PMC_SR_MOSCRCS;;
  modify CKGR_MOR (fun v => Z.lor (Z.land v (not32 CKGR_MOR_MOSCSEL)) CKGR_MOR_KEY_PASSWD);;
  wait_sr fuel PMC_SR_MOSCSELS;;
  wr (EEFC_FMR EFC0) (Z.land fmr (not32 EEFC_FMR_FWS_Msk));;
  wr (EEFC_FMR EFC1) (Z.land fmr1 (not32 EEFC_FMR_FWS_Msk));;
  (if disable_xtal then
     modify CKGR_MOR (fun v => Z.lor (Z.land v (not32 CKGR_MOR_MOSCXTEN)) CKGR_MOR_KEY_PASSWD)
   else Ret tt);;
  Ret (ClockSettings mor pllar uckr mckr fmr fmr1).

(** [MOR & ~MOSCRCEN & ~MOSCRCF_Msk | KEY] *)
Definition without_fastrc (v : Z) : Z :=
  Z.lor (Z.land (Z.land v (not32 CKGR_MOR_MOSCRCEN)) (not32 CKGR_MOR_MOSCRCF_Msk))
    CKGR_MOR_KEY_PASSWD.

(** The main clock, back on the crystal or the bypass it came from. *)
Definition restore_mainck (osc : Z) : prog hw unit :=
  if CKGR_MOR_MOSCXTBY =? Z.land osc CKGR_MOR_MOSCXTBY then
    modify CKGR_MOR (fun v =>
      Z.lor (Z.lor (Z.lor (Z.land v (not32 CKGR_MOR_MOSCXTEN)) CKGR_MOR_KEY_PASSWD)
        CKGR_MOR_MOSCXTBY) CKGR_MOR_MOSCSEL);;
    modify CKGR_MOR without_fastrc
  else if CKGR_MOR_MOSCXTEN =? Z.land osc CKGR_MOR_MOSCXTEN then
    let! v := rd CKGR_MOR in
    (if negb (has_bits v CKGR_MOR_MOSCXTEN) then
       modify CKGR_MOR (fun v =>
         Z.lor (Z.lor (Z.land v (not32 CKGR_MOR_MOSCXTBY)) CKGR_MOR_KEY_PASSWD) CKGR_MOR_MOSCXTEN);;
       wait_sr fuel PMC_SR_MOSCXTS
     else Ret tt);;
    let! v := rd CKGR_MOR in
    (if negb (has_bits v CKGR_MOR_MOSCSEL) then
       set_bits CKGR_MOR (Z.lor CKGR_MOR_KEY_PASSWD CKGR_MOR_MOSCSEL);;
       wait_sr fuel PMC_SR_MOSCSELS
     else Ret tt);;
    modify CKGR_MOR without_fastrc
  else Ret tt.

Definition pmc_restore_clock_setting (s : clock_settings) : prog hw unit :=
  restore_mainck (osc_setting s);;
  let! pll_sr :=
    (if has_bits (pll0_setting s) CKGR_PLLAR_MULA_Msk then
       wr CKGR_PLLAR (Z.lor CKGR_PLLAR_ONE (pll0_setting s));;
       Ret (Z.lor 0 PMC_SR_LOCKA)
     else Ret 0) in
  let! pll_sr :=
    (if has_bits (pll1_setting s) CKGR_UCKR_UPLLEN then
       wr CKGR_UCKR (pll1_setting s);;
       Ret (Z.lor pll_sr PMC_SR_LOCKU)
     else Ret pll_sr) in
  let css := Z.land (mck_setting s) PMC_MCKR_CSS_Msk in
  (if css =? PMC_MCKR_CSS_PLLA_CLK then wait_sr fuel PMC_SR_LOCKA
   else if css =? PMC_MCKR_CSS_UPLL_CLK then wait_sr fuel PMC_SR_LOCKU
   else Ret tt);;
  let! mckr := rd PMC_MCKR in
  wr PMC_MCKR (Z.lor (Z.land mckr (not32 PMC_MCKR_PRES_Msk)) (Z.land (mck_setting s) PMC_MCKR_PRES_Msk));;
  wait_sr fuel PMC_SR_MCKRDY;;
  wr (EEFC_FMR EFC0) (fmr_setting s);;
  wr (EEFC_FMR EFC1) (fmr_setting1 s);;
  wr PMC_MCKR (mck_setting s);;
  wait_sr fuel PMC_SR_MCKRDY;;
  wait_sr fuel pll_sr.

(** ** Entering a mode *)

Definition SAM_PM_SMODE_ACTIVE : Z := 0.
Definition SAM_PM_SMODE_SLEEP_WFE : Z := 1.
Definition SAM_PM_SMODE_SLEEP_WFI : Z := 2.
Definition SAM_PM_SMODE_WAIT_FAST : Z := 3.
Definition SAM_PM_SMODE_WAIT : Z := 4.
Definition SAM_PM_SMODE_BACKUP : Z := 5.

(** [case SAM_PM_SMODE_WAIT_FAST] and [case SAM_PM_SMODE_WAIT] *)
Definition sleep_wait (disable_xtal : bool) : prog cpu unit :=
  ccall (CpuIrq false);;
  ccall (StoreClockUsed true);;
  let! saved := on_cpu (pmc_save_clock_settings disable_xtal) in
  ccall (CpuIrq true);;
  pmc_enable_waitmode;;
  ccall (CpuIrq false);;
  on_cpu (pmc_restore_clock_setting saved);;
  ccall (StoreClockUsed false);;
  let! f := ccall LoadCallback in
  (match f : option callback with
   | Some f => ccall (Callback f);; ccall (StoreCallback None)
   | None => Ret tt
   end);;
  ccall (CpuIrq true).

Definition pmc_sleep (sleep_mode : Z) : prog cpu unit :=
  if (sleep_mode =? SAM_PM_SMODE_SLEEP_WFI) || (sleep_mode =? SAM_PM_SMODE_SLEEP_WFE) then
    on_cpu (clear_bits PMC_FSMR PMC_FSMR_LPM);;
    on_cpu (clear_bits SCB_SCR SCR_SLEEPDEEP);;
    ccall (CpuIrq true);;
    if sleep_mode =? SAM_PM_SMODE_SLEEP_WFI then ccall DSB;; ccall WFI
    else ccall DSB;; ccall WFE
  else if (sleep_mode =? SAM_PM_SMODE_WAIT_FAST) || (sleep_mode =? SAM_PM_SMODE_WAIT) then
    sleep_wait (sleep_mode =? SAM_PM_SMODE_WAIT)
  else if sleep_mode =? SAM_PM_SMODE_BACKUP then
    on_cpu (set_bits SCB_SCR SCR_SLEEPDEEP);;
    ccall (CpuIrq true);;
    ccall WFE
  else Ret tt.
End fuel.

(** ** Waiting for the clocks *)

Definition pmc_is_wakeup_clocks_restored : prog cpu bool :=
  let! b := ccall LoadClockUsed in Ret (negb b).

(** [callback] is null or a function. *)
Definition pmc_wait_wakeup_clocks_restore (f : option callback) : prog cpu unit :=
  let! b := ccall LoadClockUsed in
  if b : bool then
    ccall (CpuIrq false);;
    ccall (StoreCallback f)
  else match f with Some f => ccall (Callback f) | None => Ret tt end.
End modes.
Arguments cpuop : clear implicits.
Arguments cpu : clear implicits.
