(* ===== verification/SleepSpec.v ===== *)
(** * The wait mode and the clocks

    [pmc_sleep] of Sleep.v over the clock tree of ClockSpec.v: the way into the
    wait mode and back is safe at every step and ends where it began; and the
    configuration in which there is no way back. *)

From S2P Require Import Prelude Prog Pmc Clock ClockSpec Sleep.

(** The processor: the clock tree, [b_is_sleep_clock_used], and whether
    interrupts are enabled. *)
Record machine := Machine { clocks : clk; clock_used : bool; irqs : bool }.

Definition with_clocks (s : clk) (m : machine) : machine := Machine s (clock_used m) (irqs m).

(** What the chip asks for on entering the wait mode: the core on the RC
    oscillator, the PLL off; and an interrupt must be able to end it. *)
Record may_wait (m : machine) : Prop := {
  on_main : css (clocks m) = PMC_MCKR_CSS_MAIN_CLK;
  on_rc : has_bits (mor (clocks m)) CKGR_MOR_MOSCSEL = false;
  rc_on : has_bits (mor (clocks m)) CKGR_MOR_MOSCRCEN = true;
  pll_off : has_bits (pllar (clocks m)) CKGR_PLLAR_MULA_Msk = false;
  wakes : irqs m = true
}.

Section machine.
Context {callback : Type} (k : nat).

(** The callback waits for the full rate, and may not be interrupted. *)
Definition machine_req (e : op (cpu callback)) (m : machine) : Prop :=
  match e : cpuop callback with
  | CHw e => req (clk_env k) e (clocks m)
  | WFE => may_wait m
  | Callback _ => mck_hz (clocks m) = sysclk_get_cpu_hz /\ clock_used m = false /\ irqs m = false
  | _ => True
  end.

Definition machine_step (e : op (cpu callback)) (m : machine)
    : ans (cpu callback) e -> machine -> Prop :=
  match e as e return cpu_ans e -> machine -> Prop with
  | CHw e => fun x m' =>
    step (clk_env k) e (clocks m) x (clocks m') /\ m' = with_clocks (clocks m') m
  | CpuIrq b => fun _ m' => m' = Machine (clocks m) (clock_used m) b
  | StoreClockUsed b => fun _ m' => m' = Machine (clocks m) b (irqs m)
  | LoadClockUsed => fun b m' => b = clock_used m /\ m' = m
  | _ => fun _ m' => m' = m
  end.

(** An interrupt handler may register any callback while the core waits: what
    [LoadCallback] answers is not restricted. *)
Definition machine_env : env (cpu callback) machine := {| req := machine_req; step := machine_step |}.

(** A step of the driver on the clock tree. *)
Lemma wp_on_cpu {A B} (p : prog hw A) (kont : A -> prog (cpu callback) B) Q m :
  wp (clk_env k) p (fun o s =>
    match o with
    | Done a => wp machine_env (kont a) Q (with_clocks s m)
    | Stop h => Q (Stop h) (with_clocks s m)
    end) (clocks m) ->
  wp machine_env (bind (on_cpu p) kont) Q m.
Proof.
  intros Hp. apply wp_bind. unfold on_cpu.
  apply (wp_embed (F := cpu callback) (clk_env k) machine_env CHw (fun e x => x) clocks with_clocks);
    try done.
  by intros [].
Qed.


Lemma wp_call {B} (e : cpuop callback) (kont : cpu_ans e -> prog (cpu callback) B) Q m :
  machine_req e m -> (forall x m', machine_step e m x m' -> wp machine_env (kont x) Q m') ->
  wp machine_env (bind (ccall e) kont) Q m.
Proof. by split. Qed.

Lemma wp_nops {B} n (kont : unit -> prog (cpu callback) B) Q m :
  wp machine_env (kont tt) Q m -> wp machine_env (bind (nops n) kont) Q m.
Proof.
  intros HQ. induction n as [|n IH]; cbn [nops]; [done|]. split; [done|]. by intros [] m' ->.
Qed.
End machine.

(** ** Into the wait mode *)

(** On the RC oscillator, without wait states, everything else off; [xt] is
    whether the crystal runs on, [l] what the status last said of the PLL. *)
Definition waiting (xt l : bool) (n : nat) : clk :=
  Clk (Z.lor 0x3E08 (if xt then CKGR_MOR_MOSCXTEN else 0)) CKGR_PLLAR_ONE PMC_MCKR_CSS_MAIN_CLK 0 0
    xt l n.

Definition running_settings (rc : bool) : clock_settings :=
  ClockSettings (mor (running rc 0)) (pllar (running rc 0)) 0 (mckr (running rc 0))
    (fws0 (running rc 0)) (fws1 (running rc 0)).

Section wait.
Context (k fuel : nat).
Hypothesis Hf : (k < fuel)%nat.

(** Symbolic execution of the register accesses. *)
Ltac flat := repeat match goal with |- wp _ (bind (bind _ _) _) _ _ => step_in end; cbn [bind].
Ltac reg_wr := flat; apply wp_wr; [is_safe|]; norm_clk.
Ltac reg_modify := flat; eapply wp_modify; [reflexivity|is_safe|]; norm_clk.
Ltac reg_rd := flat; eapply wp_rd; [reflexivity|].
Ltac sr_wait := flat; unfold wait_sr at 1; apply wp_wait; [simpl; lia|done|].
Ltac closed_bits :=
  repeat match goal with
  | |- context [has_bits ?a ?b] =>
    let v := eval vm_compute in (has_bits a b) in
    match v with true => idtac | false => idtac end; change (has_bits a b) with v
  end; closed_tests; cbn [negb]; cbv iota.

Lemma save_settings rc disable n : (n <= k)%nat ->
  wp (clk_env k) (pmc_save_clock_settings fuel disable) (fun o s =>
    o = Done (running_settings rc) /\ exists l n', (n' <= k)%nat /\ s = waiting (negb disable) l n')
    (running rc n).
Proof.
  intros Hn. unfold pmc_save_clock_settings. do 6 reg_rd.
  destruct rc; reg_wr; closed_bits; reg_wr; sr_wait; settle x1 l1 n1; flat; closed_bits; flat;
    unfold pmc_disable_pllack at 1; reg_wr; unfold pmc_disable_upll_clock, clear_bits at 1;
    reg_modify; sr_wait; settle x2 l2 n2; reg_modify; sr_wait; settle x3 l3 n3; do 2 reg_wr;
    destruct disable; try reg_modify; (split; [done|]); by eexists l3, _; split; [|reflexivity].
Qed.

Lemma restore_settings rc xt l n : (n <= k)%nat ->
  wp (clk_env k) (pmc_restore_clock_setting fuel (running_settings rc)) (fun o s =>
    o = Done tt /\ exists n', (n' <= k)%nat /\ s = running false n') (waiting xt l n).
Proof.
  intros Hn. unfold pmc_restore_clock_setting, restore_mainck.
  assert (Z.land (osc_setting (running_settings rc)) CKGR_MOR_MOSCXTBY = 0) as -> by by destruct rc.
  assert (Z.land (osc_setting (running_settings rc)) CKGR_MOR_MOSCXTEN = 1) as -> by by destruct rc.
  cbn [running_settings pll0_setting pll1_setting mck_setting fmr_setting fmr_setting1].
  change (mckr (running rc 0)) with PMC_MCKR_CSS_PLLA_CLK. change (pllar (running rc 0)) with 0x20063F01.
  change (fws0 (running rc 0)) with (EEFC_FMR_FWS 4). change (fws1 (running rc 0)) with (EEFC_FMR_FWS 4).
  closed_bits. reg_rd. step_in.
  apply (wp_seq _ _ _ (fun o s => o = Done tt /\ exists l n, (n <= k)%nat /\
    s = Clk 0x3E09 CKGR_PLLAR_ONE PMC_MCKR_CSS_MAIN_CLK 0 0 true l n)).
  { destruct xt; closed_bits; [by split; [|eauto]|]. reg_modify.
    eapply (peq_wp _ _ _ _ _ (symmetry (bind_ret_r _))). sr_wait. settle x l1 n1. split; eauto. }
  clear l n Hn. intros o s (-> & l & n & Hn & ->). cbn [andthen].
  reg_rd. closed_bits. unfold set_bits at 1. reg_modify. sr_wait. settle x1 l1 n1.
  unfold without_fastrc at 1. reg_modify. reg_wr. flat. closed_bits. sr_wait. settle x2 l2 n2.
  reg_rd. reg_wr. sr_wait. settle x3 l3 n3. do 3 reg_wr. sr_wait. settle x4 l4 n4.
  change (Z.lor 0 PMC_SR_LOCKA) with PMC_SR_LOCKA.
  eapply (peq_wp _ _ _ _ _ (symmetry (bind_ret_r _))). sr_wait. settle x5 l5 n5.
  split; [done|]. exists n5. split; [lia|done].
Qed.

(** A register outside the clock tree. *)
Lemma wp_beside {B} a f (kont : unit -> prog hw B) Q s :
  a = PMC_FSMR \/ a = SCB_SCR -> safe s -> wp (clk_env k) (kont tt) Q s ->
  wp (clk_env k) (bind (modify a f) kont) Q s.
Proof.
  intros Ha Hs HQ. assert (forall v, write k a v s = s) as Hw by (by destruct Ha as [-> | ->]).
  assert (a <> PMC_SR) as Hsr by (by destruct Ha as [-> | ->]).
  unfold modify. flat. split; [done|]. intros v s' Hv. simpl in Hv.
  rewrite (proj2 (Z.eqb_neq _ _) Hsr) in Hv. destruct Hv as [_ ->].
  split; [by simpl; rewrite Hw|]. intros [] s' ->. by rewrite Hw.
Qed.

Lemma waiting_safe xt l n : safe (waiting xt l n).
Proof. destruct xt, l; is_safe. Qed.

Context {callback : Type}.

(** The wait itself: the core stops only where it may, and nothing changes. *)
Lemma waitmode_waits {B} xt l n (kont : unit -> prog (cpu callback) B) Q u :
  wp (machine_env k) (kont tt) Q (Machine (waiting xt l n) u true) ->
  wp (machine_env k) (bind (pmc_enable_waitmode fuel) kont) Q (Machine (waiting xt l n) u true).
Proof.
  intros HQ. destruct fuel as [|fuel']; [lia|]. pose proof (waiting_safe xt l n) as Hs.
  unfold pmc_enable_waitmode. flat. apply wp_on_cpu. eapply (peq_wp _ _ _ _ _ (symmetry (bind_ret_r _))).
  apply wp_beside; [auto|done|]. cbn [wp].
  flat. apply wp_on_cpu. eapply (peq_wp _ _ _ _ _ (symmetry (bind_ret_r _))).
  apply wp_beside; [auto|done|]. cbn [wp].
  flat. apply wp_call; [done|]. intros [] m ->.
  flat. apply wp_call; [by constructor; destruct xt, l|]. intros [] m ->.
  flat. apply wp_nops. apply wp_on_cpu. cbn [iter]. unfold wait_round at 1. flat.
  eapply wp_rd; [reflexivity|]. cbn [bind with_clocks clocks].
  assert (has_bits (mor (waiting xt l n)) CKGR_MOR_MOSCRCEN = true) as -> by by destruct xt.
  exact HQ.
Qed.

Lemma sleep_wait_back rc n u i disable : (n <= k)%nat ->
  wp (machine_env (callback := callback) k) (sleep_wait fuel disable)
    (fun o m => o = Done tt /\ exists n', (n' <= k)%nat /\ m = Machine (running false n') false true)
    (Machine (running rc n) u i).
Proof.
  intros Hn. unfold sleep_wait. apply wp_call; [done|]. intros [] m ->.
  apply wp_call; [done|]. intros [] m ->. apply wp_on_cpu.
  eapply wp_mono; [by apply save_settings|]. intros o s (-> & l & n1 & Hn1 & ->).
  apply wp_call; [done|]. intros [] m ->. apply waitmode_waits.
  apply wp_call; [done|]. intros [] m ->. apply wp_on_cpu.
  eapply wp_mono; [by apply restore_settings|]. intros o s (-> & n2 & Hn2 & ->).
  apply wp_call; [done|]. intros [] m ->. apply wp_call; [done|]. intros f m ->.
  eapply (wp_seq _ _ _ (fun o m => o = Done tt /\ m = Machine (running false n2) false false)).
  - destruct f as [f|]; [|done]. apply wp_call; [by repeat split|]. intros [] m ->.
    split; [done|]. by intros [] m ->.
  - intros o m [-> ->]. split; [done|]. intros [] m ->. split; [done|]. by exists n2.
Qed.
End wait.

Section properties.
Context {callback : Type}.

(** C15: The wait mode is entered and left safely.  From the clocks as the
    start-up leaves them (or a wait mode before), however long the
    oscillators, the PLL and the switches take: at every moment the core is
    clocked within the limits of the chip and of the flash wait states and
    from a source that is stable; the core stops only on the RC oscillator,
    with the PLL off and interrupts enabled; a callback registered meanwhile
    is called with the full rate restored, the flag cleared and interrupts
    off; and [pmc_sleep] returns, at the rate it was called at, with the
    registers it found, except that the RC oscillator is off. *)
Theorem wait_mode_keeps_clocks k fuel mode rc n u i :
  (k < fuel)%nat -> (n <= k)%nat -> mode = SAM_PM_SMODE_WAIT_FAST \/ mode = SAM_PM_SMODE_WAIT ->
  wp (machine_env (callback := callback) k) (pmc_sleep fuel mode)
    (fun o m => o = Done tt /\ clock_used m = false /\ irqs m = true /\
      exists n', (n' <= k)%nat /\ clocks m = running false n')
    (Machine (running rc n) u i).
Proof.
  intros Hf Hn Hmode. eapply (wp_mono _ _ (fun o m => o = Done tt /\ exists n', (n' <= k)%nat /\
    m = Machine (running false n') false true)).
  - destruct Hmode as [-> | ->]; unfold pmc_sleep; closed_tests; cbn [orb]; cbv iota;
      by apply sleep_wait_back.
  - intros o m (-> & n' & Hn' & ->). repeat split; eauto.
Qed.
End properties.

(** With no PLL in use, [pll_sr] is zero and the last loop of
    [pmc_restore_clock_setting] tests nothing. *)
Lemma no_bits_wait fuel : returns (fun _ => False) (iter fuel (wait_round PMC_SR 0) tt).
Proof.
  apply (returns_iter (fun _ => True)); [|done]. intros [] _ v. cbn. unfold has_bits.
  rewrite Z.land_0_r. exact I.
Qed.

(** With no PLL in use there is no way back from the wait mode.  If
    neither PLLA nor the USB PLL is on when it is entered (a firmware that
    runs on the crystal), [pmc_restore_clock_setting] never returns: its last
    loop waits for a status bit out of none. *)
Theorem no_pll_never_wakes fuel s :
  has_bits (pll0_setting s) CKGR_PLLAR_MULA_Msk = false ->
  has_bits (pll1_setting s) CKGR_UCKR_UPLLEN = false ->
  returns (fun _ => False) (pmc_restore_clock_setting fuel s).
Proof.
  intros H0 H1. unfold pmc_restore_clock_setting. rewrite H0, H1. cbn [bind].
  do 9 (eapply returns_bind; [apply returns_any|intros ? _]). apply no_bits_wait.
Qed.

Lemma wait_mode_keeps_clocks_witness :
  ((0 < 1)%nat /\ (0 <= 0)%nat) /\
  wp (machine_env (callback := unit) 0) (pmc_sleep 1 SAM_PM_SMODE_WAIT)
    (fun o m => o = Done tt /\ clock_used m = false /\ irqs m = true /\
      exists n', (n' <= 0)%nat /\ clocks m = running false n')
    (Machine (running true 0) false true).
Proof. split; [lia|]. apply wait_mode_keeps_clocks; [lia|lia|by right]. Defined.

(** The crystal as the source of the master clock, no PLL. *)
Lemma no_pll_never_wakes_witness :
  returns (fun _ => False)
    (pmc_restore_clock_setting 100
       (ClockSettings 0x01003E09 CKGR_PLLAR_ONE 0 PMC_MCKR_CSS_MAIN_CLK 0x400 0x400)).
Proof. by apply no_pll_never_wakes. Defined.
