(* ===== verification/PioHandler.v ===== *)
(** * Pin interrupts (src/src/ASF/sam/drivers/pio/pio_handler.c)

    A table of interrupt sources shared by the six PIO controllers; the
    interrupt of a controller calls the handlers of the pins that changed. *)

From S2P Require Import Prelude Prog Pio Pmc.
#[local] Open Scope Z_scope.

Definition MAX_INTERRUPT_SOURCES : Z := 7.

(** [handler] is [None] while it is NULL. *)
Record s_interrupt_source := Source {
  id : Z;
  mask : Z;
  attr : Z;
  handler : option Z
}.

Definition zero_source : s_interrupt_source := Source 0 0 0 None.

Record handler_table := HandlerTable {
  gs_interrupt_sources : list s_interrupt_source;
  gs_ul_nb_sources : Z
}.

Definition initial_table : handler_table :=
  HandlerTable (replicate (Z.to_nat MAX_INTERRUPT_SOURCES) zero_source) 0.

(** Register accesses, and calls of the handlers. *)
Inductive pin_op :=
| PinReg (e : hwop)
| CallHandler (handler id mask : Z).

Definition pin_ans (e : pin_op) : Type :=
  match e with PinReg e => hw_ans e | CallHandler _ _ _ => unit end.

Definition pins : Sig := {| op := pin_op; ans := pin_ans |}.

Definition pin_reg {A} (p : prog hw A) : prog pins A := @embed hw pins PinReg (fun _ x => x) A p.
Definition call_handler (h i m : Z) : prog pins unit := @trigger pins (CallHandler h i m).

(** ** Dispatch *)

(** One round of the inner loop: [inr] when the status is used up, or the end
    of the table is reached. *)
Definition process_round (t : handler_table) (ul_id : Z) (s : Z * Z) : prog pins ((Z * Z) + unit) :=
  let '(status, i) := s in
  if negb (status =? 0) then
    let! src := defined (gs_interrupt_sources t !! Z.to_nat i) in
    let! status :=
      (if (id src =? ul_id) && negb (Z.land status (mask src) =? 0) then
         let! h := defined (handler src) in
         call_handler h (id src) (mask src);;
         Ret (Z.land status (not32 (mask src)))
       else Ret status) in
    let i := u32 (i + 1) in
    Ret (if MAX_INTERRUPT_SOURCES <=? i then inr tt else inl (status, i))
  else Ret (inr tt).

(** The loop makes at most one round for each source and one more. *)
Definition pio_handler_process (t : handler_table) (p_pio ul_id : Z) : prog pins unit :=
  let! status := pin_reg (pio_get_interrupt_status p_pio) in
  let! m := pin_reg (pio_get_interrupt_mask p_pio) in
  let status := Z.land status m in
  if negb (status =? 0) then
    iter (S (Z.to_nat MAX_INTERRUPT_SOURCES)) (process_round t ul_id) (status, 0)
  else Ret tt.

Definition PIOC : Z := 0x400E1200.
Definition PIOD : Z := 0x400E1400.
Definition PIOE : Z := 0x400E1600.
Definition PIOF : Z := 0x400E1800.

Definition PIOA_Handler (t : handler_table) := pio_handler_process t PIOA 11.
Definition PIOB_Handler (t : handler_table) := pio_handler_process t PIOB 12.
Definition PIOC_Handler (t : handler_table) := pio_handler_process t PIOC 13.
Definition PIOD_Handler (t : handler_table) := pio_handler_process t PIOD 14.
Definition PIOE_Handler (t : handler_table) := pio_handler_process t PIOE 15.
Definition PIOF_Handler (t : handler_table) := pio_handler_process t PIOF 16.

(** ** Registration *)

(** [for (i = 0; i <= nb; i++) if (same) break;]: the first of the sources
    with the same pins, the next free entry included, or one past it. *)
Fixpoint find_source (l : list s_interrupt_source) (ul_id ul_mask i : Z) : Z :=
  match l with
  | [] => i
  | src :: l =>
    if (id src =? ul_id) && (mask src =? ul_mask) then i else find_source l ul_id ul_mask (u8 (i + 1))
  end.

Definition pio_handler_set (t : handler_table) (p_pio ul_id ul_mask ul_attr : Z) (p_handler : option Z)
    : prog hw (Z * handler_table) :=
  let nb := gs_ul_nb_sources t in
  if MAX_INTERRUPT_SOURCES <=? nb then Ret (1, t)
  else
    let i := find_source (take (Z.to_nat (nb + 1)) (gs_interrupt_sources t)) ul_id ul_mask 0 in
    (** the entry that was looked at last *)
    let k := if i =? nb + 1 then nb else i in
    let t := HandlerTable
      (<[Z.to_nat k := Source ul_id ul_mask ul_attr p_handler]> (gs_interrupt_sources t))
      (if i =? nb + 1 then u32 (nb + 1) else nb) in
    pio_configure_interrupt p_pio ul_mask ul_attr;;
    Ret (0, t).

Definition pio_handler_set_pin (t : handler_table) (ul_pin ul_flag : Z) (p_handler : option Z)
    : prog hw (Z * handler_table) :=
  pio_handler_set t (pio_get_pin_group ul_pin) (pio_get_pin_group_id ul_pin)
    (pio_get_pin_group_mask ul_pin) ul_flag p_handler.

Definition pio_handler_set_priority (p_pio ul_irqn ul_priority : Z) : prog hw unit :=
  let! bitmask := pio_get_interrupt_mask p_pio in
  pio_disable_interrupt p_pio 0xFFFFFFFF;;
  let! _ := pio_get_interrupt_status p_pio in
  NVIC_DisableIRQ ul_irqn;;
  NVIC_ClearPendingIRQ ul_irqn;;
  NVIC_SetPriority ul_irqn ul_priority;;
  NVIC_EnableIRQ ul_irqn;;
  pio_enable_interrupt p_pio bitmask.

(** ** The table

    The sources in use are at the front, with different pins each; the rest is
    zero. *)
Definition pins_of (s : s_interrupt_source) : Z * Z := (id s, mask s).

Record table_ok (used : list s_interrupt_source) (t : handler_table) : Prop := {
  table_sources : gs_interrupt_sources t = used ++ replicate (7 - length used) zero_source;
  table_count : gs_ul_nb_sources t = Z.of_nat (length used);
  table_room : (length used <= 7)%nat;
  table_distinct : NoDup (map pins_of used);
  table_real : Forall (fun s => 0 < id s /\ handler s <> None) used
}.

Lemma initial_table_ok : table_ok [] initial_table.
Proof. split; simpl; done || lia || constructor. Qed.

(** The table with the handler of the pins [(i, m)] set. *)
Definition set_source (used : list s_interrupt_source) (s : s_interrupt_source) : list s_interrupt_source :=
  match list_find (fun x => pins_of x = pins_of s) used with
  | Some (k, _) => <[k := s]> used
  | None => used ++ [s]
  end.

Lemma find_source_eq l i m k : 0 <= k -> k + Z.of_nat (length l) < 256 ->
  find_source l i m k = k + Z.of_nat
    (match list_find (fun x => pins_of x = (i, m)) l with Some (j, _) => j | None => length l end).
Proof.
  revert k. induction l as [|s l IH]; intros k Hk Hl; cbn [find_source length list_find] in *; [lia|].
  destruct (decide (pins_of s = (i, m))) as [He|He].
  - injection He as -> ->. rewrite !Z.eqb_refl. cbn. lia.
  - assert ((id s =? i) && (mask s =? m) = false) as ->.
    { apply andb_false_iff. rewrite !Z.eqb_neq. unfold pins_of in He.
      destruct (decide (id s = i)); [right|left]; congruence. }
    rewrite u8_id by (unfold is_u8; lia). rewrite IH by lia.
    destruct (list_find _ l) as [[j ?]|]; cbn; lia.
Qed.

Lemma set_source_ok used s : NoDup (map pins_of used) ->
  Forall (fun s => 0 < id s /\ handler s <> None) used -> 0 < id s -> handler s <> None ->
  NoDup (map pins_of (set_source used s)) /\ Forall (fun s => 0 < id s /\ handler s <> None) (set_source used s).
Proof.
  intros Hd Hr Hi Hh. unfold set_source. destruct (list_find _ used) as [[k x]|] eqn:Hf.
  - apply list_find_Some in Hf as (Hk & Hp & _). split; [|by apply Forall_insert].
    rewrite list_fmap_insert. change (fmap pins_of used) with (map pins_of used).
    rewrite list_insert_id; [done|]. change (map pins_of used) with (pins_of <$> used).
    rewrite list_lookup_fmap, Hk. cbn. by rewrite Hp.
  - apply list_find_None in Hf. split; [|apply Forall_app; split; [done|by repeat constructor]].
    rewrite map_app. apply list.NoDup_app. split; [done|]. split; [|apply list.NoDup_singleton].
    intros y Hy Hs. apply list_elem_of_singleton in Hs as ->. apply list_elem_of_fmap in Hy as (x & Hx & Hin).
    rewrite list.Forall_forall in Hf. by apply (Hf x).
Qed.

(** Installing a handler for pins: refused without effect when the table
    is full (also when the pins are there already); otherwise the pins have
    exactly this handler, in their old place or behind the others, the other
    sources stay as they are, and the pins' interrupt is configured. *)
Theorem handler_set_registers used t p_pio ul_id ul_mask ul_attr h : table_ok used t -> 0 < ul_id ->
  let s := Source ul_id ul_mask ul_attr (Some h) in
  if decide (length used = 7)%nat
  then pio_handler_set t p_pio ul_id ul_mask ul_attr (Some h) = Ret (1, t)
  else exists t', table_ok (set_source used s) t' /\
    pio_handler_set t p_pio ul_id ul_mask ul_attr (Some h) =
      (pio_configure_interrupt p_pio ul_mask ul_attr;; Ret (0, t')).
Proof.
  intros [Hs Hc Hr Hd Hf] Hid s. unfold pio_handler_set, MAX_INTERRUPT_SOURCES. rewrite Hc.
  destruct (decide (length used = 7)%nat) as [H7|H7]; [by rewrite (proj2 (Z.leb_le _ _)) by lia|].
  rewrite (proj2 (Z.leb_gt _ _)) by lia. eexists. split; [|reflexivity].
  assert (take (Z.to_nat (Z.of_nat (length used) + 1)) (gs_interrupt_sources t) = used ++ [zero_source]) as ->.
  { rewrite Hs, take_app_ge by lia. f_equal. replace (Z.to_nat _ - length used)%nat with 1%nat by lia.
    destruct (7 - length used)%nat eqn:He; [lia|done]. }
  rewrite find_source_eq by (rewrite ?length_app; simpl; lia).
  destruct (set_source_ok used s Hd Hf Hid) as [Hd' Hf']; [done|].
  unfold set_source in *. change (pins_of s) with (ul_id, ul_mask) in *.
  destruct (list_find (fun x => pins_of x = (ul_id, ul_mask)) used) as [[k x]|] eqn:Hk.
  - rewrite (list_find_app_l _ _ _ _ _ Hk).
    apply list_find_Some in Hk as (Hlk & _). apply lookup_lt_Some in Hlk.
    destruct (Z.eqb_spec (0 + Z.of_nat k) (Z.of_nat (length used) + 1)); [lia|].
    split; cbn [gs_interrupt_sources gs_ul_nb_sources]; rewrite ?length_insert; try done.
    replace (Z.to_nat (0 + Z.of_nat k)) with k by lia. by rewrite Hs, insert_app_l by lia.
  - rewrite (list_find_app_r _ _ _ Hk).
    assert (list_find (fun x => pins_of x = (ul_id, ul_mask)) [zero_source] = None) as ->.
    { cbn. rewrite decide_False; [done|]. intros [= ? _]. lia. }
    cbn [fmap option_fmap option_map]. rewrite length_app. cbn [length].
    rewrite (proj2 (Z.eqb_eq (0 + Z.of_nat (length used + 1)) (Z.of_nat (length used) + 1))) by lia.
    split; cbn [gs_interrupt_sources gs_ul_nb_sources]; rewrite ?length_app; cbn [length]; try done; try lia.
    + rewrite Hs, insert_app_r_alt by lia. rewrite <- app_assoc. f_equal.
      replace (Z.to_nat _ - length used)%nat with 0%nat by lia.
      destruct (7 - length used)%nat eqn:He; [lia|]. cbn. do 2 f_equal. lia.
    + rewrite u32_id by (unfold is_u32; lia). lia.
Qed.

(** ** The interrupt *)

(** A source of the controller with a pending pin. *)
Definition fires (status ul_id : Z) (s : s_interrupt_source) : bool :=
  (id s =? ul_id) && negb (Z.land status (mask s) =? 0).

Fixpoint call_all (l : list s_interrupt_source) : prog pins unit :=
  match l with
  | [] => Ret tt
  | s :: l =>
    match handler s with
    | Some h => call_handler h (id s) (mask s);; call_all l
    | None => Halt Undefined
    end
  end.

(** The sources of one controller share no pin. *)
Definition disjoint (l : list s_interrupt_source) : Prop :=
  forall i j x y, l !! i = Some x -> l !! j = Some y -> i <> j -> id x = id y -> Z.land (mask x) (mask y) = 0.

Lemma land_not32 v m m' : is_u32 m' -> Z.land m m' = 0 -> Z.land (Z.land v (not32 m)) m' = Z.land v m'.
Proof.
  intros Hm Hd. rewrite <- Z.land_assoc. f_equal. apply Z.bits_inj'. intros i Hi.
  rewrite Z.land_spec. destruct (decide (i < 32)) as [H32|H32].
  - unfold not32, u32. rewrite Z.mod_pow2_bits_low, Z.lnot_spec by lia.
    apply (f_equal (fun z => Z.testbit z i)) in Hd. rewrite Z.land_spec, Z.bits_0 in Hd.
    by destruct (Z.testbit m i), (Z.testbit m' i).
  - rewrite (testbit_high m' 32 i) by (unfold is_u32 in Hm; lia). by rewrite andb_false_r.
Qed.

Lemma fires_zero ul_id l : filter (fun s => fires 0 ul_id s = true) l = [].
Proof.
  induction l as [|s l IH]; [done|]. rewrite filter_cons, IH, decide_False; [done|].
  unfold fires. by rewrite Z.land_0_l, andb_false_r.
Qed.

(** Taking off the pins of one source does not change which others fire. *)
Lemma fires_rest status ul_id s l : id s = ul_id -> Forall (fun x => is_u32 (mask x)) l ->
  (forall x, x ∈ l -> id x = ul_id -> Z.land (mask s) (mask x) = 0) ->
  filter (fun x => fires (Z.land status (not32 (mask s))) ul_id x = true) l =
  filter (fun x => fires status ul_id x = true) l.
Proof.
  intros Hs Hu Hd. induction l as [|x l IH]; [done|]. apply Forall_cons_1 in Hu as [Hx Hu].
  rewrite !filter_cons, IH; [|done|intros y Hy; apply Hd; by right].
  assert (fires (Z.land status (not32 (mask s))) ul_id x = fires status ul_id x) as ->; [|done].
  unfold fires. destruct (Z.eqb_spec (id x) ul_id) as [Hi|Hi]; [|done]. cbn [andb].
  rewrite land_not32; [done|done|]. apply Hd; [by left|done].
Qed.

Lemma fires_none status ul_id n : 0 < ul_id ->
  filter (fun s => fires status ul_id s = true) (replicate n zero_source) = [].
Proof.
  intros Hi. induction n as [|n IH]; [done|]. cbn [replicate]. rewrite filter_cons, IH, decide_False; [done|].
  intros H. apply andb_prop in H as [H _]. apply Z.eqb_eq in H. simpl in H. lia.
Qed.

Lemma process_loop t ul_id l : forall pre status n,
  gs_interrupt_sources t = pre ++ l -> (length pre + length l = 7)%nat -> l <> [] -> (length l <= n)%nat ->
  Forall (fun s => id s = ul_id -> handler s <> None) l -> Forall (fun s => is_u32 (mask s)) l -> disjoint l ->
  iter (S n) (process_round t ul_id) (status, Z.of_nat (length pre)) ≈
  call_all (filter (fun s => fires status ul_id s = true) l).
Proof.
  induction l as [|s l IH]; intros pre status n Ht Hl Hne Hn Hh Hu Hd; [done|]. cbn [length] in Hl, Hn.
  destruct n as [|n]; [lia|].
  assert (forall status,
    (let! r := Ret (if MAX_INTERRUPT_SOURCES <=? u32 (Z.of_nat (length pre) + 1) then inr tt
        else inl (status, u32 (Z.of_nat (length pre) + 1))) in
     match r with inl s' => iter (S n) (process_round t ul_id) s' | inr r => Ret r end) ≈
    call_all (filter (fun x => fires status ul_id x = true) l)) as Hnext.
  { intros st. unfold MAX_INTERRUPT_SOURCES. rewrite u32_id by (unfold is_u32; lia). cbn [bind].
    destruct (Z.leb_spec 7 (Z.of_nat (length pre) + 1)) as [H7|H7].
    - destruct l; [reflexivity|]. cbn [length] in Hl. lia.
    - replace (Z.of_nat (length pre) + 1) with (Z.of_nat (length (pre ++ [s]))) by (rewrite length_app; simpl; lia).
      pose proof (Forall_cons_1 _ _ _ Hh) as [_ Hhl]. pose proof (Forall_cons_1 _ _ _ Hu) as [_ Hul].
      apply IH; [by rewrite <- app_assoc|rewrite length_app; simpl; lia| |lia|done|done|].
      + intros ->. simpl in Hl. lia.
      + intros i j x y Hi Hj Hij. apply (Hd (S i) (S j)); (done || lia). }
  cbn [iter]. unfold process_round at 1. destruct (Z.eqb_spec status 0) as [-> |H0]; cbn [negb].
  { rewrite fires_zero. reflexivity. }
  rewrite Ht, Nat2Z.id, lookup_app_r, Nat.sub_diag by done. cbn [lookup list_lookup defined bind].
  rewrite filter_cons. fold (fires status ul_id s). destruct (fires status ul_id s) eqn:Hf.
  - rewrite decide_True by done. cbn [call_all]. apply andb_prop in Hf as [Hid _]. apply Z.eqb_eq in Hid.
    apply Forall_cons_1 in Hh as [Hhs _]. apply Forall_cons_1 in Hu as [_ Hul].
    destruct (handler s) as [h|]; [|by specialize (Hhs Hid)]. cbn [defined bind].
    rewrite <- (fires_rest status ul_id s l Hid Hul).
    + apply rel_vis. intros []. cbn [bind]. apply Hnext.
    + intros x Hx Hxi. apply list_elem_of_lookup_1 in Hx as [j Hj]. apply (Hd 0%nat (S j) s x); (done || congruence).
  - rewrite decide_False by congruence. cbn [bind]. apply Hnext.
Qed.

(** The interrupt of a PIO controller: with a table built by the
    registration and sources that share no pin, exactly the handlers of this
    controller's sources that have an enabled pin pending are called, once each
    and in the order of the table, with their pins. *)
Theorem handler_dispatch used t p_pio ul_id : table_ok used t -> disjoint used -> 0 < ul_id ->
  Forall (fun s => is_u32 (mask s)) used ->
  pio_handler_process t p_pio ul_id ≈
  (let! status := pin_reg (pio_get_interrupt_status p_pio) in
   let! enabled := pin_reg (pio_get_interrupt_mask p_pio) in
   call_all (filter (fun s => fires (Z.land status enabled) ul_id s = true) used)).
Proof.
  intros [Hs Hc Hr Hd Hf] Hdj Hid Hu. unfold pio_handler_process.
  apply bind_proper; [reflexivity|]. intros status. apply bind_proper; [reflexivity|]. intros enabled.
  set (st := Z.land status enabled).
  destruct (Z.eqb_spec st 0) as [-> |H0]; cbn [negb]; [by rewrite fires_zero|].
  rewrite <- (app_nil_r (filter _ used)), <- (fires_none st ul_id (7 - length used) Hid), <- list.filter_app, <- Hs.
  apply (process_loop t ul_id (gs_interrupt_sources t) []); rewrite ?Hs, ?length_app, ?length_replicate;
    try done; change (Z.to_nat MAX_INTERRUPT_SOURCES) with 7%nat; cbn [length]; try lia.
  - intros He. apply (f_equal length) in He. rewrite length_app, length_replicate in He. simpl in He. lia.
  - apply Forall_app. split; [|apply Forall_replicate; cbn; lia]. eapply list.Forall_impl; [exact Hf|]. by intros x [_ ?].
  - apply Forall_app. split; [done|]. by apply Forall_replicate.
  - intros i j x y Hi Hj Hij Hxy.
    apply lookup_app_Some in Hi as [Hi|[_ Hi]]; [|apply lookup_replicate in Hi as [-> _]; by rewrite Z.land_0_l].
    apply lookup_app_Some in Hj as [Hj|[_ Hj]]; [|apply lookup_replicate in Hj as [-> _]; by rewrite Z.land_0_r].
    by apply (Hdj i j).
Qed.

(** ** A table with two sources *)

Definition sample_sources : list s_interrupt_source := [Source 11 1 0 (Some 5); Source 12 6 0 (Some 6)].

Definition sample_table : handler_table :=
  HandlerTable (sample_sources ++ replicate 5 zero_source) 2.

Lemma sample_table_ok : table_ok sample_sources sample_table.
Proof.
  split; try done; [simpl; lia| |by repeat constructor].
  apply NoDup_ListNoDup. cbv. repeat constructor; simpl; intuition congruence.
Qed.

Lemma handler_set_registers_witness :
  exists t', table_ok (set_source sample_sources (Source 12 8 0 (Some 7))) t' /\
    pio_handler_set sample_table PIOB 12 8 0 (Some 7) = (pio_configure_interrupt PIOB 8 0;; Ret (0, t')).
Proof. apply (handler_set_registers sample_sources sample_table PIOB 12 8 0 7); [apply sample_table_ok|lia]. Defined.

Lemma handler_dispatch_witness :
  pio_handler_process sample_table PIOB 12 ≈
  (let! status := pin_reg (pio_get_interrupt_status PIOB) in
   let! enabled := pin_reg (pio_get_interrupt_mask PIOB) in
   call_all (filter (fun s => fires (Z.land status enabled) 12 s = true) sample_sources)).
Proof.
  apply handler_dispatch; [apply sample_table_ok| |lia|by repeat constructor].
  intros [|[|i]] [|[|j]] x y Hi Hj Hij Hxy; try done; injection Hi as <-; injection Hj as <-; done.
Defined.
