(* ===== verification/Ioport.v ===== *)
(** * The port service (src/src/ASF/common/services/ioport/)

    ioport.h over sam/ioport_pio.h: pins by their number, ports by their
    index, directly on the registers of the PIO controllers. *)

From S2P Require Import Prelude Prog Pio Pmc.

Inductive ioport_direction := IOPORT_DIR_INPUT | IOPORT_DIR_OUTPUT.
Inductive ioport_sense :=
| IOPORT_SENSE_BOTHEDGES
| IOPORT_SENSE_FALLING
| IOPORT_SENSE_RISING
| IOPORT_SENSE_LEVEL_LOW
| IOPORT_SENSE_LEVEL_HIGH.

#[global] Instance ioport_direction_eq_dec : EqDecision ioport_direction.
Proof. solve_decision. Defined.
#[global] Instance ioport_sense_eq_dec : EqDecision ioport_sense.
Proof. solve_decision. Defined.

Definition IOPORT_BASE_ADDRESS : Z := PIOA.
Definition IOPORT_PIO_OFFSET : Z := PIOB - PIOA.
Definition IOPORT_MODE_MUX_BIT0 : Z := Z.shiftl 1 0.
Definition IOPORT_MODE_MUX_A : Z := Z.shiftl 0 0.
Definition IOPORT_MODE_MUX_B : Z := Z.shiftl 1 0.
Definition IOPORT_MODE_PULLUP : Z := Z.shiftl 1 3.
Definition IOPORT_MODE_OPEN_DRAIN : Z := Z.shiftl 1 5.
Definition IOPORT_MODE_GLITCH_FILTER : Z := Z.shiftl 1 6.
Definition IOPORT_MODE_DEBOUNCE : Z := Z.shiftl 1 7.

(** ** ioport_pio.h *)

Definition arch_ioport_pin_to_port_id (pin : Z) : Z := Z.shiftr pin 5.
Definition arch_ioport_port_to_base (port : Z) : Z :=
  u32 (IOPORT_BASE_ADDRESS + IOPORT_PIO_OFFSET * port).
Definition arch_ioport_pin_to_base (pin : Z) : Z :=
  arch_ioport_port_to_base (arch_ioport_pin_to_port_id pin).
Definition arch_ioport_pin_to_mask (pin : Z) : Z := Z.shiftl 1 (Z.land pin 0x1F).

Definition arch_ioport_init : prog hw unit :=
  sysclk_enable_peripheral_clock 11;;
  sysclk_enable_peripheral_clock 12;;
  sysclk_enable_peripheral_clock 13;;
  sysclk_enable_peripheral_clock 14;;
  sysclk_enable_peripheral_clock 15;;
  sysclk_enable_peripheral_clock 16.

Definition arch_ioport_enable_port (port mask : Z) := wr (PIO_PER (arch_ioport_port_to_base port)) mask.
Definition arch_ioport_disable_port (port mask : Z) := wr (PIO_PDR (arch_ioport_port_to_base port)) mask.
Definition arch_ioport_enable_pin (pin : Z) :=
  arch_ioport_enable_port (arch_ioport_pin_to_port_id pin) (arch_ioport_pin_to_mask pin).
Definition arch_ioport_disable_pin (pin : Z) :=
  arch_ioport_disable_port (arch_ioport_pin_to_port_id pin) (arch_ioport_pin_to_mask pin).

Definition arch_ioport_set_port_mode (port mask mode : Z) : prog hw unit :=
  let base := arch_ioport_port_to_base port in
  (if has_bits mode IOPORT_MODE_PULLUP then wr (PIO_PUER base) mask else wr (PIO_PUDR base) mask);;
  (if has_bits mode IOPORT_MODE_OPEN_DRAIN then wr (PIO_MDER base) mask
   else wr (PIO_MDDR base) mask);;
  (if has_bits mode (Z.lor IOPORT_MODE_GLITCH_FILTER IOPORT_MODE_DEBOUNCE)
   then wr (PIO_IFER base) mask else wr (PIO_IFDR base) mask);;
  (if has_bits mode IOPORT_MODE_DEBOUNCE then wr (PIO_DIFSR base) mask
   else wr (PIO_SCIFSR base) mask);;
  if has_bits mode IOPORT_MODE_MUX_BIT0 then set_bits (PIO_ABSR base) mask
  else clear_bits (PIO_ABSR base) mask.

Definition arch_ioport_set_pin_mode (pin mode : Z) : prog hw unit :=
  arch_ioport_set_port_mode (arch_ioport_pin_to_port_id pin) (arch_ioport_pin_to_mask pin) mode.

Definition arch_ioport_set_port_dir (port mask : Z) (group_direction : ioport_direction) : prog hw unit :=
  let base := arch_ioport_port_to_base port in
  match group_direction with
  | IOPORT_DIR_OUTPUT => wr (PIO_OER base) mask
  | IOPORT_DIR_INPUT => wr (PIO_ODR base) mask
  end;;
  wr (PIO_OWER base) mask.

Definition arch_ioport_set_pin_dir (pin : Z) (dir : ioport_direction) : prog hw unit :=
  let base := arch_ioport_pin_to_base pin in
  match dir with
  | IOPORT_DIR_OUTPUT => wr (PIO_OER base) (arch_ioport_pin_to_mask pin)
  | IOPORT_DIR_INPUT => wr (PIO_ODR base) (arch_ioport_pin_to_mask pin)
  end;;
  wr (PIO_OWER base) (arch_ioport_pin_to_mask pin).

Definition arch_ioport_set_pin_level (pin : Z) (level : bool) : prog hw unit :=
  let base := arch_ioport_pin_to_base pin in
  if level then wr (PIO_SODR base) (arch_ioport_pin_to_mask pin)
  else wr (PIO_CODR base) (arch_ioport_pin_to_mask pin).

Definition arch_ioport_set_port_level (port mask : Z) (level : bool) : prog hw unit :=
  let base := arch_ioport_port_to_base port in
  if level then wr (PIO_SODR base) mask else wr (PIO_CODR base) mask.

Definition arch_ioport_get_pin_level (pin : Z) : prog hw bool :=
  let! v := rd (PIO_PDSR (arch_ioport_pin_to_base pin)) in
  Ret (has_bits v (arch_ioport_pin_to_mask pin)).

Definition arch_ioport_get_port_level (port mask : Z) : prog hw Z :=
  let! v := rd (PIO_PDSR (arch_ioport_port_to_base port)) in Ret (Z.land v mask).

Definition arch_ioport_toggle_pin_level (pin : Z) : prog hw unit :=
  let port := arch_ioport_pin_to_base pin in
  let mask := arch_ioport_pin_to_mask pin in
  let! v := rd (PIO_PDSR port) in
  if has_bits v (arch_ioport_pin_to_mask pin) then wr (PIO_CODR port) mask
  else wr (PIO_SODR port) mask.

Definition arch_ioport_toggle_port_level (port mask : Z) : prog hw unit :=
  modify (PIO_ODSR (arch_ioport_port_to_base port)) (fun v => Z.lxor v mask).

Definition arch_ioport_set_port_sense_mode (port mask : Z) (pin_sense : ioport_sense) : prog hw unit :=
  let base := arch_ioport_port_to_base port in
  match pin_sense with
  | IOPORT_SENSE_LEVEL_LOW =>
    wr (PIO_LSR base) mask;; wr (PIO_FELLSR base) mask;; wr (PIO_AIMER base) mask
  | IOPORT_SENSE_LEVEL_HIGH =>
    wr (PIO_LSR base) mask;; wr (PIO_REHLSR base) mask;; wr (PIO_AIMER base) mask
  | IOPORT_SENSE_FALLING =>
    wr (PIO_ESR base) mask;; wr (PIO_FELLSR base) mask;; wr (PIO_AIMER base) mask
  | IOPORT_SENSE_RISING =>
    wr (PIO_ESR base) mask;; wr (PIO_REHLSR base) mask;; wr (PIO_AIMER base) mask
  | IOPORT_SENSE_BOTHEDGES => wr (PIO_AIMDR base) mask
  end.

Definition arch_ioport_set_pin_sense_mode (pin : Z) (pin_sense : ioport_sense) : prog hw unit :=
  arch_ioport_set_port_sense_mode (arch_ioport_pin_to_port_id pin) (arch_ioport_pin_to_mask pin) pin_sense.

(** ** ioport.h *)

Definition ioport_init := arch_ioport_init.
Definition ioport_enable_pin := arch_ioport_enable_pin.
Definition ioport_enable_port := arch_ioport_enable_port.
Definition ioport_disable_pin := arch_ioport_disable_pin.
Definition ioport_disable_port := arch_ioport_disable_port.
Definition ioport_set_port_mode := arch_ioport_set_port_mode.
Definition ioport_set_pin_mode := arch_ioport_set_pin_mode.
Definition ioport_reset_port_mode (port mask : Z) := arch_ioport_set_port_mode port mask 0.
Definition ioport_reset_pin_mode (pin : Z) := arch_ioport_set_pin_mode pin 0.
Definition ioport_set_port_dir := arch_ioport_set_port_dir.
Definition ioport_set_pin_dir := arch_ioport_set_pin_dir.
Definition ioport_set_pin_level := arch_ioport_set_pin_level.
Definition ioport_set_port_level := arch_ioport_set_port_level.
Definition ioport_get_pin_level := arch_ioport_get_pin_level.
Definition ioport_get_port_level := arch_ioport_get_port_level.
Definition ioport_toggle_pin_level := arch_ioport_toggle_pin_level.
Definition ioport_toggle_port_level := arch_ioport_toggle_port_level.
Definition ioport_set_pin_sense_mode := arch_ioport_set_pin_sense_mode.
Definition ioport_set_port_sense_mode := arch_ioport_set_port_sense_mode.
Definition ioport_pin_to_port_id := arch_ioport_pin_to_port_id.
Definition ioport_pin_to_mask := arch_ioport_pin_to_mask.
