(* ===== verification/Usart.v ===== *)
(** * The USART driver (src/src/ASF/sam/drivers/usart/usart.c)

    The synchronous and asynchronous serial interfaces: baud rates, the modes,
    transfer by polling, LIN and Manchester options, as compiled for the
    SAM3X.  A USART instance is its base address. *)

From S2P Require Import Prelude Prog.

(** ** Registers *)

Definition USART0 : Z := 0x40098000.
Definition USART1 : Z := 0x4009C000.
Definition USART2 : Z := 0x400A0000.
Definition USART3 : Z := 0x400A4000.
Definition PDC_USART0 : Z := 0x40098100.
Definition PDC_USART1 : Z := 0x4009C100.
Definition PDC_USART2 : Z := 0x400A0100.
Definition PDC_USART3 : Z := 0x400A4100.
Definition ID_USART0 : Z := 17.
Definition ID_USART1 : Z := 18.
Definition ID_USART2 : Z := 19.
Definition ID_USART3 : Z := 20.

Definition US_CR p := p + 0x00.
Definition US_MR p := p + 0x04.
Definition US_IER p := p + 0x08.
Definition US_IDR p := p + 0x0C.
Definition US_IMR p := p + 0x10.
Definition US_CSR p := p + 0x14.
Definition US_RHR p := p + 0x18.
Definition US_THR p := p + 0x1C.
Definition US_BRGR p := p + 0x20.
Definition US_RTOR p := p + 0x24.
Definition US_TTGR p := p + 0x28.
Definition US_FIDI p := p + 0x40.
Definition US_NER p := p + 0x44.
Definition US_IF p := p + 0x4C.
Definition US_MAN p := p + 0x50.
Definition US_LINMR p := p + 0x54.
Definition US_LINIR p := p + 0x58.
Definition US_WPMR p := p + 0xE4.
Definition US_WPSR p := p + 0xE8.
Definition US_CR_RSTRX : Z := Z.shiftl 0x1 2.
Definition US_CR_RSTTX : Z := Z.shiftl 0x1 3.
Definition US_CR_RXEN : Z := Z.shiftl 0x1 4.
Definition US_CR_RXDIS : Z := Z.shiftl 0x1 5.
Definition US_CR_TXEN : Z := Z.shiftl 0x1 6.
Definition US_CR_TXDIS : Z := Z.shiftl 0x1 7.
Definition US_CR_RSTSTA : Z := Z.shiftl 0x1 8.
Definition US_CR_STTBRK : Z := Z.shiftl 0x1 9.
Definition US_CR_STPBRK : Z := Z.shiftl 0x1 10.
Definition US_CR_STTTO : Z := Z.shiftl 0x1 11.
Definition US_CR_SENDA : Z := Z.shiftl 0x1 12.
Definition US_CR_RSTIT : Z := Z.shiftl 0x1 13.
Definition US_CR_RSTNACK : Z := Z.shiftl 0x1 14.
Definition US_CR_RETTO : Z := Z.shiftl 0x1 15.
Definition US_CR_RTSEN : Z := Z.shiftl 0x1 18.
Definition US_CR_RTSDIS : Z := Z.shiftl 0x1 19.
Definition US_CR_FCS : Z := Z.shiftl 0x1 18.
Definition US_CR_RCS : Z := Z.shiftl 0x1 19.
Definition US_CR_LINABT : Z := Z.shiftl 0x1 20.
Definition US_CR_LINWKUP : Z := Z.shiftl 0x1 21.
Definition US_MR_USART_MODE_Pos : Z := 0.
Definition US_MR_USART_MODE_Msk : Z := Z.shiftl 0xf US_MR_USART_MODE_Pos.
Definition US_MR_USART_MODE_NORMAL : Z := Z.shiftl 0x0 0.
Definition US_MR_USART_MODE_RS485 : Z := Z.shiftl 0x1 0.
Definition US_MR_USART_MODE_HW_HANDSHAKING : Z := Z.shiftl 0x2 0.
Definition US_MR_USART_MODE_IS07816_T_0 : Z := Z.shiftl 0x4 0.
Definition US_MR_USART_MODE_IS07816_T_1 : Z := Z.shiftl 0x6 0.
Definition US_MR_USART_MODE_IRDA : Z := Z.shiftl 0x8 0.
Definition US_MR_USART_MODE_LIN_MASTER : Z := Z.shiftl 0xA 0.
Definition US_MR_USART_MODE_LIN_SLAVE : Z := Z.shiftl 0xB 0.
Definition US_MR_USART_MODE_SPI_MASTER : Z := Z.shiftl 0xE 0.
Definition US_MR_USART_MODE_SPI_SLAVE : Z := Z.shiftl 0xF 0.
Definition US_MR_USCLKS_Pos : Z := 4.
Definition US_MR_USCLKS_Msk : Z := Z.shiftl 0x3 US_MR_USCLKS_Pos.
Definition US_MR_USCLKS_MCK : Z := Z.shiftl 0x0 4.
Definition US_MR_USCLKS_SCK : Z := Z.shiftl 0x3 4.
Definition US_MR_SYNC : Z := Z.shiftl 0x1 8.
Definition US_MR_CPHA : Z := Z.shiftl 0x1 8.
Definition US_MR_PAR_EVEN : Z := Z.shiftl 0x0 9.
Definition US_MR_PAR_ODD : Z := Z.shiftl 0x1 9.
Definition US_MR_PAR_MULTIDROP : Z := Z.shiftl 0x6 9.
Definition US_MR_NBSTOP_1_BIT : Z := Z.shiftl 0x0 12.
Definition US_MR_NBSTOP_2_BIT : Z := Z.shiftl 0x2 12.
Definition US_MR_CHMODE_NORMAL : Z := Z.shiftl 0x0 14.
Definition US_MR_MSBF : Z := Z.shiftl 0x1 16.
Definition US_MR_CPOL : Z := Z.shiftl 0x1 16.
Definition US_MR_CLKO : Z := Z.shiftl 0x1 18.
Definition US_MR_OVER : Z := Z.shiftl 0x1 19.
Definition US_MR_INACK : Z := Z.shiftl 0x1 20.
Definition US_MR_DSNACK : Z := Z.shiftl 0x1 21.
Definition US_MR_MAX_ITERATION_Pos : Z := 24.
Definition US_CSR_RXRDY : Z := Z.shiftl 0x1 0.
Definition US_CSR_TXRDY : Z := Z.shiftl 0x1 1.
Definition US_CSR_ENDRX : Z := Z.shiftl 0x1 3.
Definition US_CSR_ENDTX : Z := Z.shiftl 0x1 4.
Definition US_CSR_TXEMPTY : Z := Z.shiftl 0x1 9.
Definition US_CSR_TXBUFE : Z := Z.shiftl 0x1 11.
Definition US_CSR_RXBUFF : Z := Z.shiftl 0x1 12.
Definition US_RHR_RXCHR_Pos : Z := 0.
Definition US_RHR_RXCHR_Msk : Z := Z.shiftl 0x1ff US_RHR_RXCHR_Pos.
Definition US_THR_TXCHR_Pos : Z := 0.
Definition US_THR_TXCHR_Msk : Z := Z.shiftl 0x1ff US_THR_TXCHR_Pos.
Definition US_THR_TXCHR (value : Z) : Z := Z.land US_THR_TXCHR_Msk (u32 (Z.shiftl value US_THR_TXCHR_Pos)).
Definition US_BRGR_CD_Pos : Z := 0.
Definition US_BRGR_CD_Msk : Z := Z.shiftl 0xffff US_BRGR_CD_Pos.
Definition US_BRGR_FP_Pos : Z := 16.
Definition US_NER_NB_ERRORS_Pos : Z := 0.
Definition US_NER_NB_ERRORS_Msk : Z := Z.shiftl 0xff US_NER_NB_ERRORS_Pos.
Definition US_MAN_TX_PL_Pos : Z := 0.
Definition US_MAN_TX_PL_Msk : Z := Z.shiftl 0xf US_MAN_TX_PL_Pos.
Definition US_MAN_TX_PL (value : Z) : Z := Z.land US_MAN_TX_PL_Msk (u32 (Z.shiftl value US_MAN_TX_PL_Pos)).
Definition US_MAN_TX_PP_Pos : Z := 8.
Definition US_MAN_TX_PP_Msk : Z := Z.shiftl 0x3 US_MAN_TX_PP_Pos.
Definition US_MAN_TX_MPOL : Z := Z.shiftl 0x1 12.
Definition US_MAN_RX_PL_Pos : Z := 16.
Definition US_MAN_RX_PL_Msk : Z := Z.shiftl 0xf US_MAN_RX_PL_Pos.
Definition US_MAN_RX_PL (value : Z) : Z := Z.land US_MAN_RX_PL_Msk (u32 (Z.shiftl value US_MAN_RX_PL_Pos)).
Definition US_MAN_RX_PP_Pos : Z := 24.
Definition US_MAN_RX_PP_Msk : Z := Z.shiftl 0x3 US_MAN_RX_PP_Pos.
Definition US_MAN_RX_MPOL : Z := Z.shiftl 0x1 28.
Definition US_MAN_DRIFT : Z := Z.shiftl 0x1 30.
Definition US_LINMR_NACT_Pos : Z := 0.
Definition US_LINMR_NACT_Msk : Z := Z.shiftl 0x3 US_LINMR_NACT_Pos.
Definition US_LINMR_PARDIS : Z := Z.shiftl 0x1 2.
Definition US_LINMR_CHKDIS : Z := Z.shiftl 0x1 3.
Definition US_LINMR_CHKTYP : Z := Z.shiftl 0x1 4.
Definition US_LINMR_DLM : Z := Z.shiftl 0x1 5.
Definition US_LINMR_FSDIS : Z := Z.shiftl 0x1 6.
Definition US_LINMR_WKUPTYP : Z := Z.shiftl 0x1 7.
Definition US_LINMR_DLC_Pos : Z := 8.
Definition US_LINMR_DLC_Msk : Z := Z.shiftl 0xff US_LINMR_DLC_Pos.
Definition US_LINMR_PDCM : Z := Z.shiftl 0x1 16.
Definition US_LINIR_IDCHR_Pos : Z := 0.
Definition US_LINIR_IDCHR_Msk : Z := Z.shiftl 0xff US_LINIR_IDCHR_Pos.
Definition US_LINIR_IDCHR (value : Z) : Z := Z.land US_LINIR_IDCHR_Msk (u32 (Z.shiftl value US_LINIR_IDCHR_Pos)).
Definition US_WPMR_WPEN : Z := Z.shiftl 0x1 0.
Definition US_WPMR_WPKEY_Pos : Z := 8.
Definition US_WPMR_WPKEY_Msk : Z := Z.shiftl 0xffffff US_WPMR_WPKEY_Pos.
Definition US_WPMR_WPKEY (value : Z) : Z := Z.land US_WPMR_WPKEY_Msk (u32 (Z.shiftl value US_WPMR_WPKEY_Pos)).
Definition US_WPSR_WPVS : Z := Z.shiftl 0x1 0.
Definition US_WPSR_WPVSRC_Pos : Z := 8.
Definition US_WPSR_WPVSRC_Msk : Z := Z.shiftl 0xffff US_WPSR_WPVSRC_Pos.

Definition US_WPMR_WPKEY_PASSWD : Z := US_WPMR_WPKEY 0x555341.

Definition MIN_CD_VALUE : Z := 0x01.
Definition MIN_CD_VALUE_SPI : Z := 0x04.
Definition MAX_CD_VALUE : Z := US_BRGR_CD_Msk.
Definition HIGH_FRQ_SAMPLE_DIV : Z := 16.
Definition LOW_FRQ_SAMPLE_DIV : Z := 8.
Definition ISO7816_T_0 : Z := 0.
Definition ISO7816_T_1 : Z := 1.
Definition SPI_CPHA : Z := Z.shiftl 1 0.
Definition SPI_CPOL : Z := Z.shiftl 1 1.
Definition SPI_MODE_0 : Z := 0.
Definition SPI_MODE_1 : Z := SPI_CPHA.
Definition SPI_MODE_2 : Z := SPI_CPOL.
Definition SPI_MODE_3 : Z := Z.lor SPI_CPOL SPI_CPHA.

Record sam_usart_opt := SamUsartOpt {
  baudrate : Z;
  char_length : Z;
  parity_type : Z;
  stop_bits : Z;
  channel_mode : Z;
  irda_filter : Z
}.

Record usart_iso7816_opt := UsartIso7816Opt {
  iso7816_hz : Z;
  fidi_ratio : Z;
  iso_parity_type : Z;
  inhibit_nack : Z;
  dis_suc_nack : Z;
  max_iterations : Z;
  bit_order : Z;
  protocol_type : Z
}.

Record usart_spi_opt := UsartSpiOpt {
  spi_baudrate : Z;
  spi_char_length : Z;
  spi_mode : Z;
  spi_channel_mode : Z
}.

(** ** Control, status and transfer *)

Section usart.
Context (p_usart : Z).

Definition usart_enable_tx := wr (US_CR p_usart) US_CR_TXEN.
Definition usart_disable_tx := wr (US_CR p_usart) US_CR_TXDIS.
Definition usart_reset_tx := wr (US_CR p_usart) (Z.lor US_CR_RSTTX US_CR_TXDIS).
Definition usart_set_tx_timeguard (timeguard : Z) := wr (US_TTGR p_usart) timeguard.
Definition usart_enable_rx := wr (US_CR p_usart) US_CR_RXEN.
Definition usart_disable_rx := wr (US_CR p_usart) US_CR_RXDIS.
Definition usart_reset_rx := wr (US_CR p_usart) (Z.lor US_CR_RSTRX US_CR_RXDIS).
Definition usart_set_rx_timeout (timeout : Z) := wr (US_RTOR p_usart) timeout.
Definition usart_enable_interrupt (ul_sources : Z) := wr (US_IER p_usart) ul_sources.
Definition usart_disable_interrupt (ul_sources : Z) := wr (US_IDR p_usart) ul_sources.
Definition usart_get_interrupt_mask := rd (US_IMR p_usart).
Definition usart_get_status := rd (US_CSR p_usart).
Definition usart_reset_status := wr (US_CR p_usart) US_CR_RSTSTA.
Definition usart_start_tx_break := wr (US_CR p_usart) US_CR_STTBRK.
Definition usart_stop_tx_break := wr (US_CR p_usart) US_CR_STPBRK.
Definition usart_start_rx_timeout := wr (US_CR p_usart) US_CR_STTTO.
Definition usart_restart_rx_timeout := wr (US_CR p_usart) US_CR_RETTO.
Definition usart_drive_RTS_pin_low := wr (US_CR p_usart) US_CR_RTSEN.
Definition usart_drive_RTS_pin_high := wr (US_CR p_usart) US_CR_RTSDIS.
Definition usart_spi_force_chip_select := wr (US_CR p_usart) US_CR_FCS.
Definition usart_spi_release_chip_select := wr (US_CR p_usart) US_CR_RCS.
Definition usart_reset_iterations := wr (US_CR p_usart) US_CR_RSTIT.
Definition usart_reset_nack := wr (US_CR p_usart) US_CR_RSTNACK.

Definition usart_is_tx_ready := test_bits (US_CSR p_usart) US_CSR_TXRDY.
Definition usart_is_tx_empty := test_bits (US_CSR p_usart) US_CSR_TXEMPTY.
Definition usart_is_rx_ready := test_bits (US_CSR p_usart) US_CSR_RXRDY.
Definition usart_is_rx_buf_full := test_bits (US_CSR p_usart) US_CSR_RXBUFF.
Definition usart_is_rx_buf_end := test_bits (US_CSR p_usart) US_CSR_ENDRX.
Definition usart_is_tx_buf_end := test_bits (US_CSR p_usart) US_CSR_ENDTX.
Definition usart_is_tx_buf_empty := test_bits (US_CSR p_usart) US_CSR_TXBUFE.

Definition usart_get_error_number : prog hw Z :=
  let! v := rd (US_NER p_usart) in Ret (u8 (Z.land v US_NER_NB_ERRORS_Msk)).

Definition usart_write (c : Z) : prog hw Z :=
  let! csr := rd (US_CSR p_usart) in
  if negb (has_bits csr US_CSR_TXRDY) then Ret 1
  else wr (US_THR p_usart) (US_THR_TXCHR c);; Ret 0.

(** [while (!(p_usart->US_CSR & m)) {}] *)
Definition csr_round (m : Z) (_ : unit) : prog hw (unit + unit) :=
  let! csr := rd (US_CSR p_usart) in
  Ret (if negb (has_bits csr m) then inl tt else inr tt).

Definition usart_putchar (fuel : nat) (c : Z) : prog hw Z :=
  iter fuel (csr_round US_CSR_TXRDY) tt;;
  wr (US_THR p_usart) (US_THR_TXCHR c);;
  Ret 0.

(** [string] are the bytes from the pointer to the end of its array. *)
Fixpoint usart_write_line (fuel : nat) (string : list Z) : prog hw unit :=
  match string with
  | [] => Halt Undefined
  | c :: string =>
    if negb (c =? 0) then
      let! _ := usart_putchar fuel c in usart_write_line fuel string
    else Ret tt
  end.

Definition usart_read : prog hw (Z * option Z) :=
  let! csr := rd (US_CSR p_usart) in
  if negb (has_bits csr US_CSR_RXRDY) then Ret (1, None)
  else let! v := rd (US_RHR p_usart) in Ret (0, Some (Z.land v US_RHR_RXCHR_Msk)).

Definition usart_getchar (fuel : nat) : prog hw (Z * Z) :=
  iter fuel (csr_round US_CSR_RXRDY) tt;;
  let! v := rd (US_RHR p_usart) in
  Ret (0, Z.land v US_RHR_RXCHR_Msk).

Definition usart_send_address (ul_addr : Z) : prog hw Z :=
  let! mr := rd (US_MR p_usart) in
  if negb (Z.land mr US_MR_PAR_MULTIDROP =? US_MR_PAR_MULTIDROP) then Ret 1
  else
    wr (US_CR p_usart) US_CR_SENDA;;
    let! rc := usart_write ul_addr in
    Ret (if negb (rc =? 0) then 1 else 0).

Definition usart_get_tx_access : Z := US_THR p_usart.
Definition usart_get_rx_access : Z := US_RHR p_usart.

Definition usart_get_pdc_base : Z :=
  if p_usart =? USART0 then PDC_USART0
  else if p_usart =? USART1 then PDC_USART1
  else if p_usart =? USART2 then PDC_USART2
  else if p_usart =? USART3 then PDC_USART3
  else 0.

Definition usart_enable_writeprotect :=
  wr (US_WPMR p_usart) (Z.lor US_WPMR_WPEN US_WPMR_WPKEY_PASSWD).
Definition usart_disable_writeprotect := wr (US_WPMR p_usart) US_WPMR_WPKEY_PASSWD.

Definition usart_get_writeprotect_status : prog hw Z :=
  let! reg_value := rd (US_WPSR p_usart) in
  Ret (if has_bits reg_value US_WPSR_WPVS
       then Z.shiftr (Z.land reg_value US_WPSR_WPVSRC_Msk) US_WPSR_WPVSRC_Pos else 0).

(** ** Baud rates *)

(** Oversampling, and the divider in eighths; a divisor of 0 is undefined. *)
Definition async_divider (baudrate ul_mck : Z) : option (Z * Z) :=
  let over :=
    if u32 (HIGH_FRQ_SAMPLE_DIV * baudrate) <=? ul_mck then HIGH_FRQ_SAMPLE_DIV
    else LOW_FRQ_SAMPLE_DIV in
  let d := u32 (over * baudrate) in
  if d =? 0 then None else Some (over, u32 (u32 (8 * ul_mck) + d / 2) / d).

Definition usart_set_async_baudrate (baudrate ul_mck : Z) : prog hw Z :=
  let! (over, cd_fp) := defined (async_divider baudrate ul_mck) in
  let cd := Z.shiftr cd_fp 3 in
  let fp := Z.land cd_fp 0x07 in
  if (cd <? MIN_CD_VALUE) || (MAX_CD_VALUE <? cd) then Ret 1
  else
    (if over =? 8 then set_bits (US_MR p_usart) US_MR_OVER else Ret tt);;
    wr (US_BRGR p_usart) (Z.lor (Z.shiftl cd US_BRGR_CD_Pos) (Z.shiftl fp US_BRGR_FP_Pos));;
    Ret 0.

(** [(ul_mck + baudrate / 2) / baudrate] *)
Definition rounded_divider (baudrate ul_mck : Z) : option Z :=
  if baudrate =? 0 then None else Some (u32 (ul_mck + baudrate / 2) / baudrate).

Definition usart_set_sync_master_baudrate (baudrate ul_mck : Z) : prog hw Z :=
  let! cd := defined (rounded_divider baudrate ul_mck) in
  if (cd <? MIN_CD_VALUE) || (MAX_CD_VALUE <? cd) then Ret 1
  else
    wr (US_BRGR p_usart) (Z.shiftl cd US_BRGR_CD_Pos);;
    set_field (US_MR p_usart) US_MR_USCLKS_Msk (Z.lor US_MR_USCLKS_MCK US_MR_SYNC);;
    Ret 0.

Definition usart_set_sync_slave_baudrate : prog hw unit :=
  set_field (US_MR p_usart) US_MR_USCLKS_Msk (Z.lor US_MR_USCLKS_SCK US_MR_SYNC).

Definition usart_set_spi_master_baudrate (baudrate ul_mck : Z) : prog hw Z :=
  let! cd := defined (rounded_divider baudrate ul_mck) in
  if (cd <? MIN_CD_VALUE_SPI) || (MAX_CD_VALUE <? cd) then Ret 1
  else wr (US_BRGR p_usart) (Z.shiftl cd US_BRGR_CD_Pos);; Ret 0.

Definition usart_set_spi_slave_baudrate : prog hw unit :=
  clear_bits (US_MR p_usart) US_MR_USCLKS_Msk;;
  set_bits (US_MR p_usart) US_MR_USCLKS_SCK.

Definition usart_set_iso7816_clock (clock ul_mck : Z) : prog hw Z :=
  let! cd := defined (rounded_divider clock ul_mck) in
  if (cd <? MIN_CD_VALUE) || (MAX_CD_VALUE <? cd) then Ret 1
  else
    set_field (US_MR p_usart) (Z.lor (Z.lor US_MR_USCLKS_Msk US_MR_SYNC) US_MR_OVER)
      (Z.lor US_MR_USCLKS_MCK US_MR_CLKO);;
    wr (US_BRGR p_usart) (Z.shiftl cd US_BRGR_CD_Pos);;
    Ret 0.

(** ** Modes *)

Definition usart_reset : prog hw unit :=
  usart_disable_writeprotect;;
  wr (US_MR p_usart) 0;;
  wr (US_RTOR p_usart) 0;;
  wr (US_TTGR p_usart) 0;;
  usart_reset_tx;;
  usart_reset_rx;;
  usart_reset_status;;
  usart_drive_RTS_pin_high.

(** The framing options of the asynchronous and synchronous modes. *)
Definition frame_options (o : sam_usart_opt) : Z :=
  Z.lor (Z.lor (Z.lor (char_length o) (parity_type o)) (channel_mode o)) (stop_bits o).

(** A null pointer of options is [None]. *)
Definition usart_init_rs232 (p_usart_opt : option sam_usart_opt) (ul_mck : Z) : prog hw Z :=
  usart_reset;;
  match p_usart_opt with
  | None => Ret 1
  | Some o =>
    let! rc := usart_set_async_baudrate (baudrate o) ul_mck in
    if negb (rc =? 0) then Ret 1
    else
      set_bits (US_MR p_usart) (Z.lor (frame_options o) US_MR_USART_MODE_NORMAL);;
      Ret 0
  end.

(** The modes that differ from RS232 in the mode field only. *)
Definition init_mode (mode : Z) (p_usart_opt : option sam_usart_opt) (ul_mck : Z) : prog hw Z :=
  let! rc := usart_init_rs232 p_usart_opt ul_mck in
  if negb (rc =? 0) then Ret 1
  else set_field (US_MR p_usart) US_MR_USART_MODE_Msk mode;; Ret 0.

Definition usart_init_hw_handshaking := init_mode US_MR_USART_MODE_HW_HANDSHAKING.
Definition usart_init_rs485 := init_mode US_MR_USART_MODE_RS485.

Definition usart_init_irda (p_usart_opt : option sam_usart_opt) (ul_mck : Z) : prog hw Z :=
  let! rc := usart_init_rs232 p_usart_opt ul_mck in
  if negb (rc =? 0) then Ret 1
  else
    let! o := defined p_usart_opt in
    wr (US_IF p_usart) (irda_filter o);;
    set_field (US_MR p_usart) US_MR_USART_MODE_Msk US_MR_USART_MODE_IRDA;;
    Ret 0.

Definition usart_init_sync_master (p_usart_opt : option sam_usart_opt) (ul_mck : Z) : prog hw Z :=
  usart_reset;;
  match p_usart_opt with
  | None => Ret 1
  | Some o =>
    let! rc := usart_set_sync_master_baudrate (baudrate o) ul_mck in
    if negb (rc =? 0) then Ret 1
    else
      set_bits (US_MR p_usart)
        (Z.lor (Z.lor (frame_options o) US_MR_USART_MODE_NORMAL) US_MR_CLKO);;
      Ret 0
  end.

Definition usart_init_sync_slave (p_usart_opt : option sam_usart_opt) : prog hw Z :=
  usart_reset;;
  usart_set_sync_slave_baudrate;;
  match p_usart_opt with
  | None => Ret 1
  | Some o =>
    set_bits (US_MR p_usart) (Z.lor (frame_options o) US_MR_USART_MODE_NORMAL);;
    Ret 0
  end.

Definition usart_init_iso7816 (p_usart_opt : option usart_iso7816_opt) (ul_mck : Z) : prog hw Z :=
  usart_reset;;
  match p_usart_opt with
  | None => Ret 1
  | Some o =>
    if negb (iso_parity_type o =? US_MR_PAR_EVEN) && negb (iso_parity_type o =? US_MR_PAR_ODD)
    then Ret 1
    else
      let start (ul_reg_val : Z) : prog hw Z :=
        let! rc := usart_set_iso7816_clock (iso7816_hz o) ul_mck in
        if negb (rc =? 0) then Ret 1
        else
          wr (US_FIDI p_usart) (fidi_ratio o);;
          let v := Z.lor ul_reg_val (iso_parity_type o) in
          let v := if negb (inhibit_nack o =? 0) then Z.lor v US_MR_INACK else v in
          let v := if negb (dis_suc_nack o =? 0) then Z.lor v US_MR_DSNACK else v in
          set_bits (US_MR p_usart) v;;
          Ret 0 in
      if protocol_type o =? ISO7816_T_0 then
        let v := Z.lor (Z.lor US_MR_USART_MODE_IS07816_T_0 US_MR_NBSTOP_2_BIT)
          (u32 (Z.shiftl (max_iterations o) US_MR_MAX_ITERATION_Pos)) in
        start (if negb (bit_order o =? 0) then Z.lor v US_MR_MSBF else v)
      else if protocol_type o =? ISO7816_T_1 then
        if negb (bit_order o =? 0) || negb (max_iterations o =? 0) then Ret 1
        else start (Z.lor US_MR_USART_MODE_IS07816_T_1 US_MR_NBSTOP_1_BIT)
      else Ret 1
  end.

(** The [switch] on the clock polarity and phase. *)
Definition spi_mode_bits (mode ul_reg_val : Z) : Z :=
  if mode =? SPI_MODE_0 then
    Z.land (Z.lor ul_reg_val US_MR_CPHA) (not32 US_MR_CPOL)
  else if mode =? SPI_MODE_1 then
    Z.land (Z.land ul_reg_val (not32 US_MR_CPHA)) (not32 US_MR_CPOL)
  else if mode =? SPI_MODE_2 then
    Z.lor (Z.lor ul_reg_val US_MR_CPHA) US_MR_CPOL
  else if mode =? SPI_MODE_3 then
    Z.lor (Z.land ul_reg_val (not32 US_MR_CPHA)) US_MR_CPOL
  else ul_reg_val.

Definition usart_init_spi_master (p_usart_opt : option usart_spi_opt) (ul_mck : Z) : prog hw Z :=
  usart_reset;;
  match p_usart_opt with
  | None => Ret 1
  | Some o =>
    if SPI_MODE_3 <? spi_mode o then Ret 1
    else
      let! rc := usart_set_spi_master_baudrate (spi_baudrate o) ul_mck in
      if negb (rc =? 0) then Ret 1
      else
        set_bits (US_MR p_usart) (spi_mode_bits (spi_mode o)
          (Z.lor (spi_char_length o)
            (Z.lor (Z.lor US_MR_USART_MODE_SPI_MASTER US_MR_CLKO) (spi_channel_mode o))));;
        Ret 0
  end.

Definition usart_init_spi_slave (p_usart_opt : option usart_spi_opt) : prog hw Z :=
  usart_reset;;
  usart_set_spi_slave_baudrate;;
  match p_usart_opt with
  | None => Ret 1
  | Some o =>
    if SPI_MODE_3 <? spi_mode o then Ret 1
    else
      set_bits (US_MR p_usart) (spi_mode_bits (spi_mode o)
        (Z.lor (spi_char_length o) (Z.lor US_MR_USART_MODE_SPI_SLAVE (spi_channel_mode o))));;
      Ret 0
  end.

(** ** LIN *)

Definition usart_init_lin_master (ul_baudrate ul_mck : Z) : prog hw Z :=
  usart_reset;;
  let! rc := usart_set_async_baudrate ul_baudrate ul_mck in
  if negb (rc =? 0) then Ret 1
  else
    set_field (US_MR p_usart) US_MR_USART_MODE_Msk US_MR_USART_MODE_LIN_MASTER;;
    usart_enable_rx;;
    usart_enable_tx;;
    Ret 0.

Definition usart_init_lin_slave (ul_baudrate ul_mck : Z) : prog hw Z :=
  usart_reset;;
  usart_enable_rx;;
  usart_enable_tx;;
  set_field (US_MR p_usart) US_MR_USART_MODE_Msk US_MR_USART_MODE_LIN_SLAVE;;
  let! rc := usart_set_async_baudrate ul_baudrate ul_mck in
  Ret (if negb (rc =? 0) then 1 else 0).

Definition usart_lin_abort_tx := wr (US_CR p_usart) US_CR_LINABT.
Definition usart_lin_send_wakeup_signal := wr (US_CR p_usart) US_CR_LINWKUP.
Definition usart_lin_set_node_action (uc_action : Z) :=
  set_field (US_LINMR p_usart) US_LINMR_NACT_Msk (Z.shiftl uc_action US_LINMR_NACT_Pos).
Definition usart_lin_disable_parity := set_bits (US_LINMR p_usart) US_LINMR_PARDIS.
Definition usart_lin_enable_parity := clear_bits (US_LINMR p_usart) US_LINMR_PARDIS.
Definition usart_lin_disable_checksum := set_bits (US_LINMR p_usart) US_LINMR_CHKDIS.
Definition usart_lin_enable_checksum := clear_bits (US_LINMR p_usart) US_LINMR_CHKDIS.
Definition usart_lin_set_checksum_type (uc_type : Z) :=
  set_field (US_LINMR p_usart) US_LINMR_CHKTYP (Z.shiftl uc_type 4).
Definition usart_lin_set_data_len_mode (uc_mode : Z) :=
  set_field (US_LINMR p_usart) US_LINMR_DLM (Z.shiftl uc_mode 5).
Definition usart_lin_disable_frame_slot := set_bits (US_LINMR p_usart) US_LINMR_FSDIS.
Definition usart_lin_enable_frame_slot := clear_bits (US_LINMR p_usart) US_LINMR_FSDIS.
Definition usart_lin_set_wakeup_signal_type (uc_type : Z) :=
  set_field (US_LINMR p_usart) US_LINMR_WKUPTYP (Z.shiftl uc_type 7).

(** [uc_len - 1] is an [int]: a length of 0 shifts -1. *)
Definition usart_lin_set_response_data_len (uc_len : Z) :=
  set_field (US_LINMR p_usart) US_LINMR_DLC_Msk (u32 (Z.shiftl (uc_len - 1) US_LINMR_DLC_Pos)).
Definition usart_lin_disable_pdc_mode := clear_bits (US_LINMR p_usart) US_LINMR_PDCM.
Definition usart_lin_enable_pdc_mode := set_bits (US_LINMR p_usart) US_LINMR_PDCM.
Definition usart_lin_set_tx_identifier (uc_id : Z) :=
  set_field (US_LINIR p_usart) US_LINIR_IDCHR_Msk (US_LINIR_IDCHR uc_id).
Definition usart_lin_read_identifier : prog hw Z :=
  let! v := rd (US_LINIR p_usart) in Ret (u8 (Z.land v US_LINIR_IDCHR_Msk)).

Definition usart_lin_get_data_length : prog hw Z :=
  let! mr := rd (US_LINMR p_usart) in
  if has_bits mr US_LINMR_DLM then
    let! ir := rd (US_LINIR p_usart) in
    Ret (u8 (Z.shiftl 1 (Z.land (Z.shiftr ir (US_LINIR_IDCHR_Pos + 4)) 0x03)))
  else
    let! mr := rd (US_LINMR p_usart) in
    Ret (u8 (Z.shiftr (Z.land mr US_LINMR_DLC_Msk) US_LINMR_DLC_Pos + 1)).

(** ** Manchester coding *)

Definition usart_man_set_tx_pre_len (uc_len : Z) :=
  set_field (US_MAN p_usart) US_MAN_TX_PL_Msk (US_MAN_TX_PL uc_len).
Definition usart_man_set_tx_pre_pattern (uc_pattern : Z) :=
  set_field (US_MAN p_usart) US_MAN_TX_PP_Msk (Z.shiftl uc_pattern US_MAN_TX_PP_Pos).
Definition usart_man_set_tx_polarity (uc_polarity : Z) :=
  set_field (US_MAN p_usart) US_MAN_TX_MPOL (Z.shiftl uc_polarity 12).
Definition usart_man_set_rx_pre_len (uc_len : Z) :=
  set_field (US_MAN p_usart) US_MAN_RX_PL_Msk (US_MAN_RX_PL uc_len).
Definition usart_man_set_rx_pre_pattern (uc_pattern : Z) :=
  set_field (US_MAN p_usart) US_MAN_RX_PP_Msk (u32 (Z.shiftl uc_pattern US_MAN_RX_PP_Pos)).
Definition usart_man_set_rx_polarity (uc_polarity : Z) :=
  set_field (US_MAN p_usart) US_MAN_RX_MPOL (u32 (Z.shiftl uc_polarity 28)).
Definition usart_man_enable_drift_compensation := set_bits (US_MAN p_usart) US_MAN_DRIFT.
Definition usart_man_disable_drift_compensation := clear_bits (US_MAN p_usart) US_MAN_DRIFT.
End usart.

(** ** The asynchronous rate

    The baud rate register holds the divider in eighths, the whole part in 16
    bits and the fraction above it. *)

Definition brgr (d : Z) : Z :=
  Z.lor (Z.shiftl (Z.shiftr d 3) US_BRGR_CD_Pos) (Z.shiftl (Z.land d 0x07) US_BRGR_FP_Pos).

(** A register value for a divider holds that divider. *)
Lemma brgr_holds d : 0 <= d < 2 ^ 19 -> Z.land (brgr d) 0xffff * 8 + Z.shiftr (brgr d) 16 = d.
Proof.
  intros Hd. unfold brgr, US_BRGR_CD_Pos, US_BRGR_FP_Pos. rewrite Z.shiftl_0_r.
  assert (0 <= Z.shiftr d 3 < 2 ^ 16) as Hc.
  { rewrite Z.shiftr_div_pow2 by lia. Z.to_euclidean_division_equations; lia. }
  assert (0 <= Z.land d 7) as Hf by (apply Z.land_nonneg; lia).
  rewrite lor_disjoint_add, Z.shiftl_mul_pow2 by lia. change 0xffff with (Z.ones 16).
  rewrite Z.land_ones, (Z.shiftr_div_pow2 _ 16), Z.mod_add, Z.div_add by lia.
  rewrite Z.mod_small, Z.div_small by lia. change 7 with (Z.ones 3).
  rewrite Z.land_ones, Z.shiftr_div_pow2 by lia. Z.to_euclidean_division_equations; lia.
Qed.

(** The divider is the nearest one: half a step of rounding at most. *)
Lemma nearest_div a b : 0 <= a -> 0 < b ->
  2 * Z.abs ((a + b / 2) / b * b - a) <= b.
Proof. intros. Z.to_euclidean_division_equations. nia. Qed.

(** The baud rate of a USART: 16-fold oversampling unless the master clock
    is too slow for it, and the divider, in eighths, that comes nearest to the
    rate asked for (an error of at most half an eighth); it is refused, with
    no register written, exactly when its whole part does not lie between 1
    and 65535, and the register written holds exactly this divider. *)
Theorem async_baudrate_nearest p_usart baud mck : 0 < baud < 2 ^ 28 -> 0 <= mck < 2 ^ 28 ->
  exists over d,
    over = (if decide (16 * baud <= mck) then 16 else 8) /\
    2 * Z.abs (d * (over * baud) - 8 * mck) <= over * baud /\
    (8 <= d < 2 ^ 19 -> Z.land (brgr d) 0xffff * 8 + Z.shiftr (brgr d) 16 = d) /\
    usart_set_async_baudrate p_usart baud mck =
      (if decide (8 <= d < 2 ^ 19) then
         (if over =? 8 then set_bits (US_MR p_usart) US_MR_OVER else Ret tt);;
         wr (US_BRGR p_usart) (brgr d);; Ret 0
       else Ret 1).
Proof.
  intros Hb Hm. set (over := if decide (16 * baud <= mck) then 16 else 8).
  assert (0 < over * baud /\ over * baud < 2 ^ 31 /\ (over = 16 \/ over = 8)) as (Ho & Ho2 & Ho3)
    by (unfold over; case_decide; lia).
  assert (async_divider baud mck = Some (over, (8 * mck + over * baud / 2) / (over * baud))) as Hdiv.
  { unfold async_divider, HIGH_FRQ_SAMPLE_DIV, LOW_FRQ_SAMPLE_DIV.
    rewrite (u32_id (16 * baud)) by (unfold is_u32; lia).
    replace (if 16 * baud <=? mck then 16 else 8) with over
      by (unfold over; destruct (Z.leb_spec (16 * baud) mck); case_decide; lia).
    rewrite (u32_id (over * baud)), (u32_id (8 * mck)), u32_id
      by (unfold is_u32; Z.to_euclidean_division_equations; lia).
    by rewrite (proj2 (Z.eqb_neq _ _)) by lia. }
  exists over, ((8 * mck + over * baud / 2) / (over * baud)). split; [done|].
  split; [apply nearest_div; lia|]. unfold usart_set_async_baudrate. rewrite Hdiv. cbn [defined bind].
  set (d := _ / (over * baud)). split; [intros; apply brgr_holds; lia|].
  unfold MIN_CD_VALUE, MAX_CD_VALUE, US_BRGR_CD_Msk. change (Z.shiftl 0xffff US_BRGR_CD_Pos) with 65535.
  rewrite Z.shiftr_div_pow2 by lia. case_decide as Hd.
  - rewrite (proj2 (Z.ltb_ge _ _)), (proj2 (Z.ltb_ge _ _))
      by (Z.to_euclidean_division_equations; lia). cbn [orb]. unfold brgr.
    by rewrite Z.shiftr_div_pow2 by lia.
  - destruct (Z.ltb_spec (d / 2 ^ 3) 1); [done|]. destruct (Z.ltb_spec 65535 (d / 2 ^ 3)); [done|].
    exfalso. apply Hd. revert H H0. Z.to_euclidean_division_equations; lia.
Qed.

(** 115200 baud from the 84 MHz of the board. *)
Lemma async_baudrate_nearest_witness :
  exists over d,
    over = (if decide (16 * 115200 <= 84000000) then 16 else 8) /\
    2 * Z.abs (d * (over * 115200) - 8 * 84000000) <= over * 115200 /\
    (8 <= d < 2 ^ 19 -> Z.land (brgr d) 0xffff * 8 + Z.shiftr (brgr d) 16 = d) /\
    usart_set_async_baudrate USART0 115200 84000000 =
      (if decide (8 <= d < 2 ^ 19) then
         (if over =? 8 then set_bits (US_MR USART0) US_MR_OVER else Ret tt);;
         wr (US_BRGR USART0) (brgr d);; Ret 0
       else Ret 1).
Proof. apply (async_baudrate_nearest USART0 115200 84000000); lia. Defined.
