(* ===== verification/Uart.v ===== *)
(** * The UART and the standard streams

    The console under printf and getchar: the driver
    src/src/ASF/sam/drivers/uart/uart.c, the serial service
    src/src/ASF/common/services/serial/ (sam_uart/uart_serial.h,
    usart_serial.c) over it and over the USART driver, and the functions of the
    C library's streams in src/src/ASF/common/utils/stdio/ (read.c, write.c,
    stdio_serial.h, which also turns the library's buffers off). *)

From S2P Require Import Prelude Prog Pmc Usart.

(** ** Registers *)

Definition UART : Z := 0x400E0800.
Definition PDC_UART : Z := 0x400E0900.
Definition ID_UART : Z := 8.

Definition UART_CR p := p + 0x00.
Definition UART_MR p := p + 0x04.
Definition UART_IER p := p + 0x08.
Definition UART_IDR p := p + 0x0C.
Definition UART_IMR p := p + 0x10.
Definition UART_SR p := p + 0x14.
Definition UART_RHR p := p + 0x18.
Definition UART_THR p := p + 0x1C.
Definition UART_BRGR p := p + 0x20.
Definition UART_PTCR p := p + 0x120.
Definition UART_CR_RSTRX : Z := Z.shiftl 0x1 2.
Definition UART_CR_RSTTX : Z := Z.shiftl 0x1 3.
Definition UART_CR_RXEN : Z := Z.shiftl 0x1 4.
Definition UART_CR_RXDIS : Z := Z.shiftl 0x1 5.
Definition UART_CR_TXEN : Z := Z.shiftl 0x1 6.
Definition UART_CR_TXDIS : Z := Z.shiftl 0x1 7.
Definition UART_CR_RSTSTA : Z := Z.shiftl 0x1 8.
Definition UART_MR_PAR_NO : Z := Z.shiftl 0x4 9.
Definition UART_SR_RXRDY : Z := Z.shiftl 0x1 0.
Definition UART_SR_TXRDY : Z := Z.shiftl 0x1 1.
Definition UART_SR_ENDRX : Z := Z.shiftl 0x1 3.
Definition UART_SR_ENDTX : Z := Z.shiftl 0x1 4.
Definition UART_SR_TXEMPTY : Z := Z.shiftl 0x1 9.
Definition UART_SR_RXBUFF : Z := Z.shiftl 0x1 12.
Definition UART_PTCR_RXTDIS : Z := Z.shiftl 0x1 1.
Definition UART_PTCR_TXTDIS : Z := Z.shiftl 0x1 9.

Definition UART_MCK_DIV : Z := 16.
Definition UART_MCK_DIV_MIN_FACTOR : Z := 1.
Definition UART_MCK_DIV_MAX_FACTOR : Z := 65535.

Record sam_uart_opt := SamUartOpt { ul_mck : Z; ul_baudrate : Z; ul_mode : Z }.

(** ** uart.c *)

Section uart.
Context (p_uart : Z).

Definition uart_reset : prog hw unit :=
  wr (UART_CR p_uart)
    (Z.lor (Z.lor (Z.lor UART_CR_RSTRX UART_CR_RSTTX) UART_CR_RXDIS) UART_CR_TXDIS).

(** The rate is not 0: the division is undefined. *)
Definition uart_init (p_uart_opt : sam_uart_opt) : prog hw Z :=
  wr (UART_CR p_uart)
    (Z.lor (Z.lor (Z.lor UART_CR_RSTRX UART_CR_RSTTX) UART_CR_RXDIS) UART_CR_TXDIS);;
  let! cd := defined
    (if ul_baudrate p_uart_opt =? 0 then None
     else Some (ul_mck p_uart_opt / ul_baudrate p_uart_opt / UART_MCK_DIV)) in
  if (cd <? UART_MCK_DIV_MIN_FACTOR) || (UART_MCK_DIV_MAX_FACTOR <? cd) then Ret 1
  else
    wr (UART_BRGR p_uart) cd;;
    wr (UART_MR p_uart) (ul_mode p_uart_opt);;
    wr (UART_PTCR p_uart) (Z.lor UART_PTCR_RXTDIS UART_PTCR_TXTDIS);;
    wr (UART_CR p_uart) (Z.lor UART_CR_RXEN UART_CR_TXEN);;
    Ret 0.

Definition uart_enable_tx := wr (UART_CR p_uart) UART_CR_TXEN.
Definition uart_disable_tx := wr (UART_CR p_uart) UART_CR_TXDIS.
Definition uart_reset_tx := wr (UART_CR p_uart) (Z.lor UART_CR_RSTTX UART_CR_TXDIS).
Definition uart_enable_rx := wr (UART_CR p_uart) UART_CR_RXEN.
Definition uart_disable_rx := wr (UART_CR p_uart) UART_CR_RXDIS.
Definition uart_reset_rx := wr (UART_CR p_uart) (Z.lor UART_CR_RSTRX UART_CR_RXDIS).
Definition uart_enable := wr (UART_CR p_uart) (Z.lor UART_CR_RXEN UART_CR_TXEN).
Definition uart_disable := wr (UART_CR p_uart) (Z.lor UART_CR_RXDIS UART_CR_TXDIS).
Definition uart_enable_interrupt (ul_sources : Z) := wr (UART_IER p_uart) ul_sources.
Definition uart_disable_interrupt (ul_sources : Z) := wr (UART_IDR p_uart) ul_sources.
Definition uart_get_interrupt_mask := rd (UART_IMR p_uart).
Definition uart_get_status := rd (UART_SR p_uart).
Definition uart_reset_status := wr (UART_CR p_uart) UART_CR_RSTSTA.
Definition uart_is_tx_ready := test_bits (UART_SR p_uart) UART_SR_TXRDY.
Definition uart_is_tx_empty := test_bits (UART_SR p_uart) UART_SR_TXEMPTY.
Definition uart_is_rx_ready := test_bits (UART_SR p_uart) UART_SR_RXRDY.
Definition uart_is_tx_buf_empty := test_bits (UART_SR p_uart) UART_SR_TXEMPTY.
Definition uart_set_clock_divisor (us_divisor : Z) := wr (UART_BRGR p_uart) us_divisor.
Definition uart_is_rx_buf_end := test_bits (UART_SR p_uart) UART_SR_ENDRX.
Definition uart_is_tx_buf_end := test_bits (UART_SR p_uart) UART_SR_ENDTX.
Definition uart_is_rx_buf_full := test_bits (UART_SR p_uart) UART_SR_RXBUFF.

(** For another instance the variable returned is uninitialised. *)
Definition uart_get_pdc_base (p_pdc_base : Z) : Z :=
  if p_uart =? UART then PDC_UART else p_pdc_base.

Definition uart_write (uc_data : Z) : prog hw Z :=
  let! sr := rd (UART_SR p_uart) in
  if negb (has_bits sr UART_SR_TXRDY) then Ret 1
  else wr (UART_THR p_uart) uc_data;; Ret 0.

Definition uart_read : prog hw (Z * option Z) :=
  let! sr := rd (UART_SR p_uart) in
  if Z.land sr UART_SR_RXRDY =? 0 then Ret (1, None)
  else let! v := rd (UART_RHR p_uart) in Ret (0, Some (u8 v)).
End uart.

(** ** uart_serial.h *)

Record usart_serial_options := SerialOptions {
  serial_baudrate : Z;
  serial_charlength : Z;
  serial_paritytype : Z;
  serial_stopbits : Z
}.

(** A USART instance: the clock, the mode, receiver and transmitter. *)
Definition init_usart (p_usart id : Z) (s : sam_usart_opt) : prog hw unit :=
  sysclk_enable_peripheral_clock id;;
  let! _ := usart_init_rs232 p_usart (Some s) sysclk_get_peripheral_hz in
  usart_enable_tx p_usart;;
  usart_enable_rx p_usart.

Definition usart_serial_init (p_usart : Z) (opt : usart_serial_options) : prog hw unit :=
  let uart_settings := SamUartOpt sysclk_get_peripheral_hz (serial_baudrate opt) (serial_paritytype opt) in
  let usart_settings := SamUsartOpt (serial_baudrate opt) (serial_charlength opt)
    (serial_paritytype opt) (serial_stopbits opt) US_MR_CHMODE_NORMAL 0 in
  (if UART =? p_usart then
     sysclk_enable_peripheral_clock ID_UART;;
     let! _ := uart_init p_usart uart_settings in Ret tt
   else Ret tt);;
  (if USART0 =? p_usart then init_usart p_usart ID_USART0 usart_settings else Ret tt);;
  (if USART1 =? p_usart then init_usart p_usart ID_USART1 usart_settings else Ret tt);;
  (if USART2 =? p_usart then init_usart p_usart ID_USART2 usart_settings else Ret tt);;
  if USART3 =? p_usart then init_usart p_usart ID_USART3 usart_settings else Ret tt.

(** [while (write(p, c) != 0);] *)
Definition write_until (write : prog hw Z) (_ : unit) : prog hw (unit + unit) :=
  let! rc := write in Ret (if negb (rc =? 0) then inl tt else inr tt).

Definition usart_serial_putchar (fuel : nat) (p_usart c : Z) : prog hw Z :=
  if UART =? p_usart then iter fuel (write_until (uart_write p_usart c)) tt;; Ret 1
  else if (USART0 =? p_usart) || (USART1 =? p_usart) || (USART2 =? p_usart) || (USART3 =? p_usart)
  then iter fuel (write_until (usart_write p_usart c)) tt;; Ret 1
  else Ret 0.

(** [while (read(p, &v));]: the value that was read. *)
Definition read_until (read : prog hw (Z * option Z)) (_ : unit) : prog hw (unit + Z) :=
  let! (rc, v) := read in
  match v with
  | Some v => Ret (if negb (rc =? 0) then inl tt else inr v)
  | None => if negb (rc =? 0) then Ret (inl tt) else Halt Undefined
  end.

(** [None]: nothing is stored. *)
Definition usart_serial_getchar (fuel : nat) (p_usart : Z) : prog hw (option Z) :=
  if UART =? p_usart then let! v := iter fuel (read_until (uart_read p_usart)) tt in Ret (Some v)
  else if (USART0 =? p_usart) || (USART1 =? p_usart) || (USART2 =? p_usart) || (USART3 =? p_usart)
  then
    let! v := iter fuel (read_until (usart_read p_usart)) tt in Ret (Some (u8 (Z.land v 0xFF)))
  else Ret None.

Definition usart_serial_is_rx_ready (p_usart : Z) : prog hw Z :=
  if UART =? p_usart then uart_is_rx_ready p_usart
  else if (USART0 =? p_usart) || (USART1 =? p_usart) || (USART2 =? p_usart) || (USART3 =? p_usart)
  then usart_is_rx_ready p_usart
  else Ret 0.

(** ** usart_serial.c *)

(** [while (len)]; [data] are the bytes from the pointer to the end of its
    array. *)
Fixpoint usart_serial_write_packet (fuel : nat) (usart : Z) (data : list Z) (len : nat) : prog hw Z :=
  match len with
  | O => Ret 0
  | S len =>
    match data with
    | [] => Halt Undefined
    | c :: data =>
      let! _ := usart_serial_putchar fuel usart c in usart_serial_write_packet fuel usart data len
    end
  end.

(** The status and what is stored at each of the [len] places. *)
Fixpoint usart_serial_read_packet (fuel : nat) (usart : Z) (len : nat) : prog hw (Z * list (option Z)) :=
  match len with
  | O => Ret (0, [])
  | S len =>
    let! v := usart_serial_getchar fuel usart in
    let! (rc, vs) := usart_serial_read_packet fuel usart len in
    Ret (rc, v :: vs)
  end.

(** ** stdio_serial.h, write.c, read.c

    The variables of the streams; the functions pointed to are those of the
    serial service once [stdio_serial_init] has run. *)
Record stdio := Stdio {
  stdio_base : Z;
  ptr_put : option (Z -> Z -> prog hw Z);
  ptr_get : option (Z -> prog hw (option Z))
}.

Definition stdio_serial_init (fuel : nat) (usart : Z) (opt : usart_serial_options) : prog hw stdio :=
  let s := Stdio usart (Some (usart_serial_putchar fuel)) (Some (usart_serial_getchar fuel)) in
  usart_serial_init usart opt;;
  Ret s.

(** [for (; len != 0; --len)]; [ptr] are the bytes from the pointer to the end
    of its array. *)
Fixpoint write_loop (put : Z -> prog hw Z) (ptr : list Z) (len nChars : Z) : prog hw Z :=
  if len =? 0 then Ret nChars
  else
    match ptr with
    | [] => Halt Undefined
    | c :: ptr =>
      let! rc := put c in
      if rc <? 0 then Ret (-1) else write_loop put ptr (len - 1) (nChars + 1)
    end.

Definition _write (s : stdio) (file : Z) (ptr : list Z) (len : Z) : prog hw Z :=
  if negb (file =? 1) && negb (file =? 2) && negb (file =? 3) then Ret (-1)
  else
    let! put := defined (ptr_put s) in
    write_loop (put (stdio_base s)) ptr len 0.

(** One character is read whatever the length asked for. *)
Definition _read (s : stdio) (file : Z) (len : Z) : prog hw (Z * option Z) :=
  if negb (file =? 0) then Ret (-1, None)
  else
    let! get := defined (ptr_get s) in
    let! v := get (stdio_base s) in
    Ret (1, v).
