(* ===== verification/Twi.v ===== *)
(** * The TWI driver (src/src/ASF/sam/drivers/twi/twi.c)

    The two-wire interface as this firmware builds it: with FreeRTOS, so that
    waiting for the controller is waiting for a task notification that the
    interrupt handler gives, and with the peripheral DMA for all bytes of a
    longer transfer.  A TWI instance is its base address. *)

From S2P Require Import Prelude Prog Pmc.

(** ** Registers *)

Definition TWI0 : Z := 0x4008C000.
Definition PDC_TWI0 : Z := 0x4008C100.
Definition TWI1 : Z := 0x40090000.
Definition PDC_TWI1 : Z := 0x40090100.
Definition TWI0_IRQn : Z := 22.
Definition TWI1_IRQn : Z := 23.
Definition ID_TWI0 : Z := 22.
Definition ID_TWI1 : Z := 23.

Definition TWI_CR p := p + 0x00.
Definition TWI_MMR p := p + 0x04.
Definition TWI_SMR p := p + 0x08.
Definition TWI_IADR p := p + 0x0C.
Definition TWI_CWGR p := p + 0x10.
Definition TWI_SR p := p + 0x20.
Definition TWI_IER p := p + 0x24.
Definition TWI_IDR p := p + 0x28.
Definition TWI_IMR p := p + 0x2C.
Definition TWI_RHR p := p + 0x30.
Definition TWI_THR p := p + 0x34.

Definition PERIPH_RPR p := p + 0x00.
Definition PERIPH_RCR p := p + 0x04.
Definition PERIPH_TPR p := p + 0x08.
Definition PERIPH_TCR p := p + 0x0C.
Definition PERIPH_PTCR p := p + 0x20.
Definition PERIPH_PTCR_RXTEN : Z := Z.shiftl 1 0.
Definition PERIPH_PTCR_RXTDIS : Z := Z.shiftl 1 1.
Definition PERIPH_PTCR_TXTEN : Z := Z.shiftl 1 8.
Definition PERIPH_PTCR_TXTDIS : Z := Z.shiftl 1 9.

Definition TWI_CR_START : Z := Z.shiftl 1 0.
Definition TWI_CR_STOP : Z := Z.shiftl 1 1.
Definition TWI_CR_MSEN : Z := Z.shiftl 1 2.
Definition TWI_CR_MSDIS : Z := Z.shiftl 1 3.
Definition TWI_CR_SVEN : Z := Z.shiftl 1 4.
Definition TWI_CR_SVDIS : Z := Z.shiftl 1 5.
Definition TWI_CR_QUICK : Z := Z.shiftl 1 6.
Definition TWI_CR_SWRST : Z := Z.shiftl 1 7.

Definition TWI_MMR_IADRSZ_Pos : Z := 8.
Definition TWI_MMR_IADRSZ_Msk : Z := Z.shiftl 0x3 8.
Definition TWI_MMR_MREAD : Z := Z.shiftl 1 12.
Definition TWI_MMR_DADR (value : Z) : Z := Z.land (Z.shiftl 0x7f 16) (u32 (Z.shiftl value 16)).
Definition TWI_SMR_SADR (value : Z) : Z := Z.land (Z.shiftl 0x7f 16) (u32 (Z.shiftl value 16)).
Definition TWI_CWGR_CLDIV (value : Z) : Z := Z.land 0xff value.
Definition TWI_CWGR_CHDIV (value : Z) : Z := Z.land (Z.shiftl 0xff 8) (u32 (Z.shiftl value 8)).
Definition TWI_CWGR_CKDIV (value : Z) : Z := Z.land (Z.shiftl 0x7 16) (u32 (Z.shiftl value 16)).

Definition TWI_SR_TXCOMP : Z := Z.shiftl 1 0.
Definition TWI_SR_RXRDY : Z := Z.shiftl 1 1.
Definition TWI_SR_TXRDY : Z := Z.shiftl 1 2.
Definition TWI_SR_SVREAD : Z := Z.shiftl 1 3.
Definition TWI_SR_SVACC : Z := Z.shiftl 1 4.
Definition TWI_SR_GACC : Z := Z.shiftl 1 5.
Definition TWI_SR_NACK : Z := Z.shiftl 1 8.
Definition TWI_SR_EOSACC : Z := Z.shiftl 1 11.
Definition TWI_SR_RXBUFF : Z := Z.shiftl 1 14.
Definition TWI_SR_TXBUFE : Z := Z.shiftl 1 15.

Definition TWI_TIMEOUT : Z := 15000.

Definition TWI_SUCCESS : Z := 0.
Definition TWI_INVALID_ARGUMENT : Z := 1.
Definition TWI_RECEIVE_NACK : Z := 5.
Definition TWI_ERROR_TIMEOUT : Z := 9.
Definition TWI_ERROR_TIMEOUT_COMP : Z := 10.

Definition I2C_FAST_MODE_SPEED : Z := 400000.
Definition TWI_CLK_DIVIDER : Z := 2.
Definition TWI_CLK_CALC_ARGU : Z := 4.
Definition TWI_CLK_DIV_MAX : Z := 0xFF.
Definition TWI_CLK_DIV_MIN : Z := 7.
Definition PASS : Z := 0.
Definition FAIL : Z := 1.

(** [twi_options_t] and [twi_packet_t]; [buffer] is the memory the buffer
    pointer points to. *)
Record twi_options := TwiOptions { master_clk : Z; speed : Z; opt_chip : Z; smbus : Z }.

Record twi_packet := TwiPacket {
  addr : list Z;
  addr_length : Z;
  pk_buffer : list Z;
  pk_length : Z;
  chip : Z
}.

(** ** Waiting for an interrupt *)

Definition twi_enable_interrupt (p_twi ul_sources : Z) : prog hw unit :=
  wr (TWI_IER p_twi) ul_sources.

Definition twi_disable_interrupt (p_twi ul_sources : Z) : prog hw unit :=
  wr (TWI_IDR p_twi) ul_sources;;
  let! _ := rd (TWI_SR p_twi) in Ret tt.

(** The handler masks every source; the notification it gives is the
    [NotifyWait] answer of the task that waits. *)
Definition twi_interrupt_handler (p_twi : Z) : prog hw unit :=
  twi_disable_interrupt p_twi 0x0000FF77.

Definition TWI0_Handler : prog hw unit := twi_interrupt_handler TWI0.
Definition TWI1_Handler : prog hw unit := twi_interrupt_handler TWI1.

(** The handle it stores (the task to notify) is the RTOS's side of
    [NotifyWait]; what it reports is whether the instance has one. *)
Definition twi_set_task_handle (p_twi : Z) : Z :=
  if p_twi =? TWI0 then TWI_SUCCESS
  else if p_twi =? TWI1 then TWI_SUCCESS
  else TWI_INVALID_ARGUMENT.

Definition twi_wait_for_interrupt (p_twi flags ticks_to_wait : Z) : prog hw Z :=
  let rc := twi_set_task_handle p_twi in
  if negb (rc =? TWI_SUCCESS) then Ret rc
  else
    let! _ := @trigger hw NotifyStateClear in
    twi_enable_interrupt p_twi flags;;
    let! notified := @trigger hw (NotifyWait ticks_to_wait) in
    if notified : bool then Ret rc
    else twi_disable_interrupt p_twi flags;; Ret TWI_ERROR_TIMEOUT.

(** ** Modes and configuration *)

Definition twi_enable_master_mode (p_twi : Z) : prog hw unit :=
  wr (TWI_CR p_twi) TWI_CR_MSDIS;;
  wr (TWI_CR p_twi) TWI_CR_SVDIS;;
  wr (TWI_CR p_twi) TWI_CR_MSEN.

Definition twi_disable_master_mode (p_twi : Z) : prog hw unit :=
  wr (TWI_CR p_twi) TWI_CR_MSDIS.

Definition twi_reset (p_twi : Z) : prog hw unit :=
  wr (TWI_CR p_twi) TWI_CR_SWRST;;
  let! _ := rd (TWI_RHR p_twi) in Ret tt.

(** The dividers: at most seven halvings. *)
Fixpoint clock_dividers (k : nat) (c_lh_div ckdiv : Z) : Z * Z :=
  if (TWI_CLK_DIV_MAX <? c_lh_div) && (ckdiv <? TWI_CLK_DIV_MIN) then
    match k with
    | O => (c_lh_div, ckdiv)
    | S k => clock_dividers k (c_lh_div / TWI_CLK_DIVIDER) (ckdiv + 1)
    end
  else (c_lh_div, ckdiv).

Definition twi_set_speed (p_twi ul_speed ul_mck : Z) : prog hw Z :=
  if I2C_FAST_MODE_SPEED <? ul_speed then Ret FAIL
  else if u32 (ul_speed * TWI_CLK_DIVIDER) =? 0 then Halt Undefined
  else
    let c_lh_div := u32 (ul_mck / u32 (ul_speed * TWI_CLK_DIVIDER) - TWI_CLK_CALC_ARGU) in
    let '(c_lh_div, ckdiv) := clock_dividers 7 c_lh_div 0 in
    wr (TWI_CWGR p_twi)
      (Z.lor (Z.lor (TWI_CWGR_CLDIV c_lh_div) (TWI_CWGR_CHDIV c_lh_div)) (TWI_CWGR_CKDIV ckdiv));;
    Ret PASS.

Definition twi_master_init (p_twi : Z) (p_opt : twi_options) : prog hw Z :=
  let irq := if p_twi =? TWI0 then Some TWI0_IRQn
             else if p_twi =? TWI1 then Some TWI1_IRQn else None in
  match irq with
  | None => Ret TWI_INVALID_ARGUMENT
  | Some twi_irq =>
    wr (TWI_IDR p_twi) 0xFFFFFFFF;;
    let! _ := rd (TWI_SR p_twi) in
    NVIC_SetPriority twi_irq (Z.shiftr configMAX_SYSCALL_INTERRUPT_PRIORITY 4);;
    NVIC_EnableIRQ twi_irq;;
    twi_reset p_twi;;
    twi_enable_master_mode p_twi;;
    let! r := twi_set_speed p_twi (speed p_opt) (master_clk p_opt) in
    let status := if r =? FAIL then TWI_INVALID_ARGUMENT else TWI_SUCCESS in
    (if smbus p_opt =? 1 then wr (TWI_CR p_twi) TWI_CR_QUICK else Ret tt);;
    Ret status
  end.

(** The options are completed in place: the second result. *)
Definition twi_master_setup (p_twi : Z) (p_opt : twi_options) : prog hw Z :=
  let opt := TwiOptions sysclk_get_cpu_hz (speed p_opt) (opt_chip p_opt) 0 in
  (if p_twi =? TWI0 then sysclk_enable_peripheral_clock ID_TWI0
   else if p_twi =? TWI1 then sysclk_enable_peripheral_clock ID_TWI1 else Ret tt);;
  twi_master_init p_twi opt.

(** [Assert] is compiled out: another instance gets a null pointer. *)
Definition twi_get_pdc_base (p_twi : Z) : Z :=
  if p_twi =? TWI0 then PDC_TWI0 else if p_twi =? TWI1 then PDC_TWI1 else 0.

Definition twi_mk_addr (a : list Z) (len : Z) : Z :=
  if len =? 0 then 0
  else
    let val := nth 0 a 0 in
    let val := if 1 <? len then Z.lor (u32 (Z.shiftl val 8)) (nth 1 a 0) else val in
    let val := if 2 <? len then Z.lor (u32 (Z.shiftl val 8)) (nth 2 a 0) else val in
    val.

(** ** Master transfers *)

(** [fuel] bounds the waits for the DMA and for notifications that report
    nothing; it is the caller's patience, not a bound of the code. *)

(** The bytes that the PDC has left at [off], [n] at most. *)
Definition dma_fill (buf : list Z) (off n : nat) (bs : list Z) : list Z :=
  take off buf ++ take n (bs ++ drop (off + length bs) buf) ++ drop (off + n) buf.

Section transfer.
Context (fuel : nat) (p_twi : Z).

(** The inner [while (1)] of both directions: [counter] is PERIPH_RCR or
    PERIPH_TCR, [done_flag] TWI_SR_RXBUFF or TWI_SR_TXBUFE.  The state is
    [rc] and [remaining]; the result is [rc] after the loop. *)
Definition dma_wait_round (counter done_flag : Z) (s : Z * Z) : prog hw ((Z * Z) + Z) :=
  let '(rc, remaining) := s in
  let! status := rd (TWI_SR p_twi) in
  if has_bits status TWI_SR_NACK then Ret (inr TWI_RECEIVE_NACK)
  else if has_bits status done_flag then Ret (inr rc)
  else
    let! rc := twi_wait_for_interrupt p_twi done_flag 20 in
    let! progress :=
      (if rc =? TWI_ERROR_TIMEOUT then
         let! v := rd counter in Ret (negb (v =? remaining))
       else Ret false) in
    if progress : bool then
      let! remaining := rd counter in Ret (inl (rc, remaining))
    else if negb (rc =? TWI_SUCCESS) then Ret (inr rc)
    else Ret (inl (rc, remaining)).

(** One round of [while (cnt > 1)] of a read: the state is the buffer, the
    index of [buffer] in it and [cnt]. *)
Definition read_dma_round (s : list Z * nat * Z)
    : prog hw ((list Z * nat * Z) + (Z * list Z + list Z * nat * Z)) :=
  let '(buf, off, cnt) := s in
  if negb (1 <? cnt) then Ret (inr (inr (buf, off, cnt)))
  else
    let p_pdc := twi_get_pdc_base p_twi in
    let transfer_size := if 0xFFFF <? cnt then 0xFFFF else cnt - 1 in
    let! _ := @trigger hw (WrBuf (PERIPH_RPR p_pdc) (drop off buf)) in
    wr (PERIPH_RCR p_pdc) transfer_size;;
    wr (PERIPH_PTCR p_pdc) PERIPH_PTCR_RXTEN;;
    let! rc := iter fuel (dma_wait_round (PERIPH_RCR p_pdc) TWI_SR_RXBUFF)
                 (TWI_SUCCESS, transfer_size) in
    wr (PERIPH_PTCR p_pdc) PERIPH_PTCR_RXTDIS;;
    let n := Z.to_nat transfer_size in
    let! bs := @trigger hw (RdBuf n) in
    let buf := dma_fill buf off n bs in
    if negb (rc =? TWI_SUCCESS) then
      wr (PERIPH_RCR p_pdc) 0;;
      Ret (inr (inl (rc, buf)))
    else Ret (inl (buf, (off + n)%nat, u32 (cnt - transfer_size))).

(** [while (cnt)]: the last byte.  [timeout] bounds the rounds. *)
Definition read_last_round (s : list Z * nat * Z * Z)
    : prog hw ((list Z * nat * Z * Z) + (Z * list Z)) :=
  let '(buf, off, cnt, timeout) := s in
  if cnt =? 0 then Ret (inr (TWI_SUCCESS, buf))
  else
    let! status := rd (TWI_SR p_twi) in
    if has_bits status TWI_SR_NACK then Ret (inr (TWI_RECEIVE_NACK, buf))
    else if timeout =? 0 then Ret (inr (TWI_ERROR_TIMEOUT, buf))
    else
      let timeout := timeout - 1 in
      if negb (has_bits status TWI_SR_RXRDY) then
        let! rc := twi_wait_for_interrupt p_twi (Z.lor TWI_SR_NACK TWI_SR_RXRDY) 2 in
        if negb (rc =? TWI_SUCCESS) then Ret (inr (rc, buf))
        else Ret (inl (buf, off, cnt, timeout))
      else
        let! b := rd (TWI_RHR p_twi) in
        let! buf := defined (store buf off [u8 b]) in
        Ret (inl (buf, S off, cnt - 1, TWI_TIMEOUT)).

(** Waiting for TXCOMP at the end of a read. *)
Definition read_txcomp_round (timeout : Z) : prog hw (Z + Z) :=
  let! status := rd (TWI_SR p_twi) in
  if has_bits status TWI_SR_TXCOMP then Ret (inr TWI_SUCCESS)
  else
    let! rc := twi_wait_for_interrupt p_twi TWI_SR_TXCOMP 1 in
    if rc =? TWI_ERROR_TIMEOUT then Ret (inr TWI_ERROR_TIMEOUT_COMP)
    else if negb (rc =? TWI_SUCCESS) then Ret (inr rc)
    else if timeout =? 0 then Ret (inr TWI_ERROR_TIMEOUT_COMP)
    else Ret (inl (timeout - 1)).

(** Enough rounds for a count-down from TWI_TIMEOUT. *)
Definition timeout_fuel : nat := Z.to_nat TWI_TIMEOUT + 3.

(** Result: the status and the packet's buffer. *)
Definition twi_master_read (p_packet : twi_packet) : prog hw (Z * list Z) :=
  let cnt := pk_length p_packet in
  if cnt =? 0 then Ret (TWI_INVALID_ARGUMENT, pk_buffer p_packet)
  else
    wr (TWI_MMR p_twi) 0;;
    wr (TWI_MMR p_twi)
      (Z.lor (Z.lor TWI_MMR_MREAD (TWI_MMR_DADR (chip p_packet)))
         (Z.land (u32 (Z.shiftl (addr_length p_packet) TWI_MMR_IADRSZ_Pos)) TWI_MMR_IADRSZ_Msk));;
    wr (TWI_IADR p_twi) 0;;
    wr (TWI_IADR p_twi) (twi_mk_addr (addr p_packet) (s32 (addr_length p_packet)));;
    let! stop_sent :=
      (if cnt =? 1 then wr (TWI_CR p_twi) (Z.lor TWI_CR_START TWI_CR_STOP);; Ret true
       else wr (TWI_CR p_twi) TWI_CR_START;; Ret false) in
    let! dma := iter fuel read_dma_round (pk_buffer p_packet, 0%nat, cnt) in
    match dma with
    | inl failure => Ret failure
    | inr (buf, off, cnt) =>
      (if stop_sent : bool then Ret tt else wr (TWI_CR p_twi) TWI_CR_STOP);;
      let! (status, buf) := iter timeout_fuel read_last_round (buf, off, cnt, TWI_TIMEOUT) in
      if negb (status =? TWI_SUCCESS) then Ret (status, buf)
      else
        let! status := iter timeout_fuel read_txcomp_round TWI_TIMEOUT in
        Ret (status, buf)
    end.

(** One round of [while (cnt > 1)] of a write. *)
Definition write_dma_round (s : list Z * Z) : prog hw ((list Z * Z) + (Z + list Z * Z)) :=
  let '(buf, cnt) := s in
  if negb (1 <? cnt) then Ret (inr (inr (buf, cnt)))
  else
    let p_pdc := twi_get_pdc_base p_twi in
    let transfer_size := if 0xFFFF <? cnt then 0xFFFF else cnt in
    let! _ := @trigger hw (WrBuf (PERIPH_TPR p_pdc) buf) in
    wr (PERIPH_TCR p_pdc) transfer_size;;
    wr (PERIPH_PTCR p_pdc) PERIPH_PTCR_TXTEN;;
    let! rc := iter fuel (dma_wait_round (PERIPH_TCR p_pdc) TWI_SR_TXBUFE)
                 (TWI_SUCCESS, transfer_size) in
    wr (PERIPH_PTCR p_pdc) PERIPH_PTCR_TXTDIS;;
    if negb (rc =? TWI_SUCCESS) then
      wr (PERIPH_TCR p_pdc) 0;;
      Ret (inr (inl rc))
    else Ret (inl (drop (Z.to_nat transfer_size) buf, u32 (cnt - transfer_size))).

(** [while (cnt > 0)]: the remaining byte. *)
Definition write_last_round (s : list Z * Z) : prog hw ((list Z * Z) + Z) :=
  let '(buf, cnt) := s in
  if negb (0 <? cnt) then Ret (inr TWI_SUCCESS)
  else
    let! status := rd (TWI_SR p_twi) in
    if has_bits status TWI_SR_NACK then Ret (inr TWI_RECEIVE_NACK)
    else if negb (has_bits status TWI_SR_TXRDY) then
      let! rc := twi_wait_for_interrupt p_twi (Z.lor TWI_SR_NACK TWI_SR_TXRDY) 2 in
      if negb (rc =? TWI_SUCCESS) then Ret (inr rc) else Ret (inl (buf, cnt))
    else
      let! b := defined (buf !! 0%nat) in
      wr (TWI_THR p_twi) b;;
      Ret (inl (drop 1 buf, cnt - 1)).

Definition write_txrdy_round (_ : unit) : prog hw (unit + Z) :=
  let! status := rd (TWI_SR p_twi) in
  if has_bits status TWI_SR_NACK then Ret (inr TWI_RECEIVE_NACK)
  else if has_bits status TWI_SR_TXRDY then Ret (inr TWI_SUCCESS)
  else
    let! rc := twi_wait_for_interrupt p_twi (Z.lor TWI_SR_NACK TWI_SR_TXRDY) 2 in
    if negb (rc =? TWI_SUCCESS) then Ret (inr rc) else Ret (inl tt).

Definition write_txcomp_round (timeout : Z) : prog hw (Z + Z) :=
  let! status := rd (TWI_SR p_twi) in
  if has_bits status TWI_SR_TXCOMP then Ret (inr TWI_SUCCESS)
  else if timeout =? 0 then Ret (inr TWI_ERROR_TIMEOUT_COMP)
  else Ret (inl (timeout - 1)).

Definition twi_master_write (p_packet : twi_packet) : prog hw Z :=
  let cnt := pk_length p_packet in
  if cnt =? 0 then Ret TWI_INVALID_ARGUMENT
  else
    wr (TWI_MMR p_twi) 0;;
    wr (TWI_MMR p_twi)
      (Z.lor (TWI_MMR_DADR (chip p_packet))
         (Z.land (u32 (Z.shiftl (addr_length p_packet) TWI_MMR_IADRSZ_Pos)) TWI_MMR_IADRSZ_Msk));;
    wr (TWI_IADR p_twi) 0;;
    wr (TWI_IADR p_twi) (twi_mk_addr (addr p_packet) (s32 (addr_length p_packet)));;
    let! dma := iter fuel write_dma_round (pk_buffer p_packet, cnt) in
    match dma with
    | inl rc => Ret rc
    | inr (buf, cnt) =>
      let! rc := iter fuel write_last_round (buf, cnt) in
      if negb (rc =? TWI_SUCCESS) then Ret rc
      else
        let! rc := iter fuel write_txrdy_round tt in
        if negb (rc =? TWI_SUCCESS) then Ret rc
        else
          wr (TWI_CR p_twi) TWI_CR_STOP;;
          iter timeout_fuel write_txcomp_round TWI_TIMEOUT
    end.

(** The packet's other address bytes are not initialised; with no internal
    address they are not read. *)
Definition twi_probe (uc_slave_addr : Z) : prog hw Z :=
  twi_master_write (TwiPacket [0] 0 [0] 1 uc_slave_addr).
End transfer.

(** ** Register access *)

Definition twi_get_interrupt_status (p_twi : Z) : prog hw Z := rd (TWI_SR p_twi).
Definition twi_get_interrupt_mask (p_twi : Z) : prog hw Z := rd (TWI_IMR p_twi).
Definition twi_read_byte (p_twi : Z) : prog hw Z :=
  let! v := rd (TWI_RHR p_twi) in Ret (u8 v).
Definition twi_write_byte (p_twi uc_byte : Z) : prog hw unit := wr (TWI_THR p_twi) uc_byte.

(** ** Slave mode *)

Definition twi_enable_slave_mode (p_twi : Z) : prog hw unit :=
  wr (TWI_CR p_twi) TWI_CR_MSDIS;;
  wr (TWI_CR p_twi) TWI_CR_SVDIS;;
  wr (TWI_CR p_twi) TWI_CR_SVEN.

Definition twi_disable_slave_mode (p_twi : Z) : prog hw unit :=
  wr (TWI_CR p_twi) TWI_CR_SVDIS.

Definition twi_slave_init (p_twi ul_device_addr : Z) : prog hw unit :=
  wr (TWI_IDR p_twi) 0xFFFFFFFF;;
  let! _ := rd (TWI_SR p_twi) in
  twi_reset p_twi;;
  wr (TWI_SMR p_twi) (TWI_SMR_SADR ul_device_addr);;
  twi_enable_slave_mode p_twi.

Definition twi_set_slave_addr (p_twi ul_device_addr : Z) : prog hw unit :=
  wr (TWI_SMR p_twi) (TWI_SMR_SADR ul_device_addr).

(** The bytes stored so far and [cnt]; the loop ends when the master does. *)
Definition slave_read_round (p_twi : Z) (s : list Z * Z) : prog hw ((list Z * Z) + (list Z * Z)) :=
  let '(data, cnt) := s in
  let! status := rd (TWI_SR p_twi) in
  if has_bits status TWI_SR_SVACC then
    if negb (has_bits status TWI_SR_GACC)
       && (Z.land status (Z.lor TWI_SR_SVREAD TWI_SR_RXRDY) =? Z.lor TWI_SR_SVREAD TWI_SR_RXRDY)
    then let! b := rd (TWI_RHR p_twi) in Ret (inl (data ++ [u8 b], u32 (cnt + 1)))
    else Ret (inl (data, cnt))
  else if Z.land status (Z.lor TWI_SR_EOSACC TWI_SR_TXCOMP) =? Z.lor TWI_SR_EOSACC TWI_SR_TXCOMP
  then Ret (inr (data, cnt))
  else Ret (inl (data, cnt)).

Definition twi_slave_read (fuel : nat) (p_twi : Z) : prog hw (list Z * Z) :=
  iter fuel (slave_read_round p_twi) ([], 0).

Definition slave_write_round (p_twi : Z) (s : list Z * Z) : prog hw ((list Z * Z) + Z) :=
  let '(data, cnt) := s in
  let! status := rd (TWI_SR p_twi) in
  if has_bits status TWI_SR_SVACC then
    if negb (has_bits status (Z.lor TWI_SR_GACC TWI_SR_SVREAD)) && has_bits status TWI_SR_TXRDY
    then
      let! b := defined (data !! 0%nat) in
      wr (TWI_THR p_twi) b;;
      Ret (inl (drop 1 data, u32 (cnt + 1)))
    else Ret (inl (data, cnt))
  else if Z.land status (Z.lor TWI_SR_EOSACC TWI_SR_TXCOMP) =? Z.lor TWI_SR_EOSACC TWI_SR_TXCOMP
  then Ret (inr cnt)
  else Ret (inl (data, cnt)).

Definition twi_slave_write (fuel : nat) (p_twi : Z) (p_data : list Z) : prog hw Z :=
  iter fuel (slave_write_round p_twi) (p_data, 0).
