(* ===== verification/TwiBus.v ===== *)
(** * The TWI driver against a controller

    What the master transfers of Twi.v put on the bus and bring back when the
    controller is ready whenever it is asked, and what they do when it is not. *)

From S2P Require Import Prelude Prog Pmc Twi.

(** ** A ready controller

    Every status read says that everything is ready and acknowledged; the
    bytes that go to the transmitter (by DMA or through TWI_THR) are logged with the
    START and STOP commands; received bytes come from a queue. *)

Inductive bus_event := BusMode (mmr : Z) | BusAddr (iadr : Z) | BusCmd (cr : Z) | BusTx (b : Z).

Record controller := Controller {
  dma_src : list Z;
  dma_count : Z;
  rx_queue : list Z;
  bus_log : list bus_event
}.

Definition all_ready : Z :=
  Z.lor (Z.lor (Z.lor TWI_SR_TXCOMP TWI_SR_RXRDY) TWI_SR_TXRDY)
    (Z.lor TWI_SR_RXBUFF TWI_SR_TXBUFE).

Definition log (e : list bus_event) (c : controller) : controller :=
  Controller (dma_src c) (dma_count c) (rx_queue c) (bus_log c ++ e).

Definition ctl_write (a v : Z) (c : controller) : controller :=
  if a =? TWI_MMR TWI0 then log [BusMode v] c
  else if a =? TWI_IADR TWI0 then log [BusAddr v] c
  else if a =? TWI_CR TWI0 then log [BusCmd v] c
  else if a =? TWI_THR TWI0 then log [BusTx v] c
  else if a =? PERIPH_TCR PDC_TWI0 then Controller (dma_src c) v (rx_queue c) (bus_log c)
  else if a =? PERIPH_PTCR PDC_TWI0 then
    if has_bits v PERIPH_PTCR_TXTEN
    then log (map BusTx (take (Z.to_nat (dma_count c)) (dma_src c))) c else c
  else c.

Definition ctl (e : hwop) (c : controller) : hw_ans e * controller :=
  match e with
  | Rd a =>
    if a =? TWI_SR TWI0 then (all_ready, c)
    else if a =? TWI_RHR TWI0 then
      (hd 0 (rx_queue c), Controller (dma_src c) (dma_count c) (drop 1 (rx_queue c)) (bus_log c))
    else (0, c)
  | Wr a v => (tt, ctl_write a v c)
  | WrBuf a data =>
    (tt, if a =? PERIPH_TPR PDC_TWI0
         then Controller data (dma_count c) (rx_queue c) (bus_log c) else c)
  | RdBuf n =>
    (take n (rx_queue c),
     Controller (dma_src c) (dma_count c) (drop n (rx_queue c)) (bus_log c))
  | NotifyStateClear => (tt, c)
  | NotifyWait _ => (true, c)
  | TaskDelay _ => (tt, c)
  | Putchar _ => (tt, c)
  | Getchar => (0, c)
  end.

Definition crun {A} (p : prog hw A) (c : controller) : outcome A * controller :=
  @run hw controller A ctl p c.

Lemma crun_bind {A B} (p : prog hw A) (f : A -> prog hw B) c :
  crun (bind p f) c =
  match crun p c with
  | (Done a, c') => crun (f a) c'
  | (Stop x, c') => (Stop x, c')
  end.
Proof. apply run_bind. Qed.

Lemma crun_wr a v c : crun (wr a v) c = (Done tt, ctl_write a v c).
Proof. done. Qed.

(** Against this controller a wait for the DMA is over at once. *)
Lemma dma_wait_ready n counter flag rc remaining c :
  flag = TWI_SR_RXBUFF \/ flag = TWI_SR_TXBUFE ->
  crun (iter (S n) (dma_wait_round TWI0 counter flag) (rc, remaining)) c = (Done rc, c).
Proof. by intros [-> | ->]. Qed.

(** ** Writing *)

Definition sends (bs : list Z) (c : controller) : list bus_event := bus_log c ++ map BusTx bs.

(** One DMA chunk. *)
Lemma write_dma_chunk fuel buf cnt c :
  1 < cnt -> 
  let k := Z.min cnt 0xFFFF in
  exists c', crun (write_dma_round (S fuel) TWI0 (buf, cnt)) c =
    (Done (inl (drop (Z.to_nat k) buf, u32 (cnt - k))), c') /\
    bus_log c' = sends (take (Z.to_nat k) buf) c /\ rx_queue c' = rx_queue c.
Proof.
  intros Hcnt k. unfold write_dma_round. rewrite (proj2 (Z.ltb_lt _ _)) by done. cbn [negb].
  assert ((if 0xFFFF <? cnt then 0xFFFF else cnt) = k) as ->.
  { unfold k. destruct (Z.ltb_spec 0xFFFF cnt); lia. }
  clearbody k. eexists. split; [reflexivity|]. by split.
Qed.

Lemma crun_iter {St R} n (body : St -> prog hw (St + R)) s c :
  crun (iter (S n) body s) c =
  match crun (body s) c with
  | (Done (inl s'), c') => crun (iter n body s') c'
  | (Done (inr r), c') => (Done r, c')
  | (Stop x, c') => (Stop x, c')
  end.
Proof.
  cbn [iter]. rewrite crun_bind. by destruct (crun (body s) c) as [[[?|?]|?] ?].
Qed.

(** All chunks: at most one byte is left for TWI_THR. *)
Lemma write_dma_loop fuel f buf c :
  Z.of_nat (length buf) < 2 ^ 32 -> Z.of_nat (length buf) <= 1 + 65535 * (Z.of_nat f) ->
  exists buf' c', crun (iter (S f) (write_dma_round (S fuel) TWI0) (buf, Z.of_nat (length buf))) c =
    (Done (inr (buf', Z.of_nat (length buf'))), c') /\
    (length buf' <= 1)%nat /\ sends buf' c' = sends buf c /\ rx_queue c' = rx_queue c.
Proof.
  revert buf c. induction f as [|f IH]; intros buf c H32 Hf; rewrite crun_iter.
  - unfold write_dma_round at 1. rewrite (proj2 (Z.ltb_ge _ _)) by lia. cbn.
    exists buf, c. repeat split. lia.
  - destruct (Z.ltb_spec 1 (Z.of_nat (length buf))).
    + destruct (write_dma_chunk fuel buf (Z.of_nat (length buf)) c) as (c1 & -> & Hlog & Hrx); [done|].
      set (k := Z.min _ _) in *.
      assert (u32 (Z.of_nat (length buf) - k) = Z.of_nat (length (drop (Z.to_nat k) buf))) as ->.
      { rewrite length_drop, u32_id; unfold is_u32; lia. }
      destruct (IH (drop (Z.to_nat k) buf) c1) as (buf' & c' & Hr & Hl & Hs & Hrx');
        [rewrite length_drop; lia|rewrite length_drop; lia|].
      exists buf', c'. rewrite Hr. split; [done|]. split; [done|]. split; [|congruence].
      rewrite Hs. unfold sends. rewrite Hlog. unfold sends.
      by rewrite <- app_assoc, <- map_app, take_drop.
    + unfold write_dma_round at 1. rewrite (proj2 (Z.ltb_ge _ _)) by lia. cbn.
      exists buf, c. repeat split. lia.
Qed.

Lemma write_last_ready fuel buf c :
  (length buf <= 1)%nat ->
  exists c', crun (iter (S (S fuel)) (write_last_round TWI0) (buf, Z.of_nat (length buf))) c =
    (Done TWI_SUCCESS, c') /\ bus_log c' = sends buf c /\ rx_queue c' = rx_queue c.
Proof.
  intros Hl. destruct buf as [|b [|b' buf]]; [| |simpl in Hl; lia];
    (eexists; split; [reflexivity|]; split; [|done]); unfold sends; simpl; by rewrite ?app_nil_r.
Qed.

(** What precedes and follows the bytes of a write. *)
Definition write_header (p : twi_packet) : list bus_event :=
  [BusMode 0;
   BusMode (Z.lor (TWI_MMR_DADR (chip p))
     (Z.land (u32 (Z.shiftl (addr_length p) TWI_MMR_IADRSZ_Pos)) TWI_MMR_IADRSZ_Msk));
   BusAddr 0; BusAddr (twi_mk_addr (addr p) (s32 (addr_length p)))].

Lemma write_ready f p c :
  pk_length p = Z.of_nat (length (pk_buffer p)) -> 0 < pk_length p < 2 ^ 32 ->
  pk_length p <= 1 + 65535 * (Z.of_nat f + 1) ->
  exists c', crun (twi_master_write (S (S f)) TWI0 p) c = (Done TWI_SUCCESS, c') /\
    bus_log c' = bus_log c ++ write_header p ++ map BusTx (pk_buffer p) ++ [BusCmd TWI_CR_STOP] /\
    rx_queue c' = rx_queue c.
Proof.
  intros Hlen Hpos Hf. unfold twi_master_write. rewrite (proj2 (Z.eqb_neq _ _)) by lia.
  rewrite !crun_bind, !crun_wr. repeat (rewrite crun_bind, crun_wr).
  set (c0 := ctl_write _ _ (ctl_write _ _ _)).
  assert (bus_log c0 = bus_log c ++ write_header p /\ rx_queue c0 = rx_queue c) as [Hl0 Hr0].
  { split; [|done]. unfold c0, write_header. simpl. by rewrite <- !app_assoc. }
  clearbody c0. rewrite crun_bind, Hlen.
  destruct (write_dma_loop (S f) (S f) (pk_buffer p) c0) as (buf' & c1 & -> & Hl & Hs & Hr1);
    [lia|lia|]. cbv beta iota.
  rewrite crun_bind. destruct (write_last_ready f buf' c1 Hl) as (c2 & -> & Hl2 & Hr2).
  eexists. split; [reflexivity|]. split; [|simpl; congruence].
  simpl. rewrite Hl2, Hs. unfold sends. rewrite Hl0. by rewrite <- !app_assoc.
Qed.

(** ** Reading *)

(** [n] received bytes written at [off]. *)
Definition received (buf : list Z) (off n : nat) (rx : list Z) : list Z :=
  take off buf ++ take n rx ++ drop (off + n) buf.

Lemma received_take buf off n rx :
  (off <= length buf)%nat -> (n <= length rx)%nat ->
  take (off + n) (received buf off n rx) = take off buf ++ take n rx.
Proof.
  intros Ho Hn. unfold received. rewrite app_assoc, take_app_length'; [done|].
  rewrite length_app, !length_take. lia.
Qed.

Lemma received_drop buf off n rx m :
  (off <= length buf)%nat -> (n <= length rx)%nat ->
  drop (off + n + m) (received buf off n rx) = drop (off + n + m) buf.
Proof.
  intros Ho Hn. unfold received. rewrite app_assoc, drop_app_ge, drop_drop;
    rewrite length_app, !length_take; [|lia]. f_equal. lia.
Qed.

Lemma received_received buf off n m rx :
  (off <= length buf)%nat -> (n + m <= length rx)%nat ->
  received (received buf off n rx) (off + n) m (drop n rx) = received buf off (n + m) rx.
Proof.
  intros Ho Hn. unfold received at 1. rewrite received_take, received_drop by lia.
  unfold received. rewrite <- !app_assoc. f_equal. rewrite app_assoc, take_take_drop. do 2 f_equal.
  lia.
Qed.

Lemma received_length buf off n rx :
  (off + n <= length buf)%nat -> (n <= length rx)%nat ->
  length (received buf off n rx) = length buf.
Proof.
  intros Ho Hn. unfold received. rewrite !length_app, !length_take, length_drop. lia.
Qed.

Lemma received_0 buf off rx : received buf off 0 rx = buf.
Proof. unfold received. rewrite take_0, Nat.add_0_r. apply take_drop. Qed.

Lemma dma_fill_received buf off n rx :
  (n <= length rx)%nat -> dma_fill buf off n (take n rx) = received buf off n rx.
Proof.
  intros Hn. unfold dma_fill, received. do 2 f_equal.
  rewrite take_app_le, take_take by (rewrite length_take; lia). f_equal. lia.
Qed.

Definition same_log (c c' : controller) : Prop := bus_log c' = bus_log c.

Lemma read_dma_chunk fuel buf off cnt c :
  1 < cnt < 2 ^ 32 -> cnt <= Z.of_nat (length (rx_queue c)) ->
  let k := Z.to_nat (Z.min (cnt - 1) 0xFFFF) in
  exists c', crun (read_dma_round (S fuel) TWI0 (buf, off, cnt)) c =
    (Done (inl (received buf off k (rx_queue c), (off + k)%nat, cnt - Z.of_nat k)), c') /\
    bus_log c' = bus_log c /\ rx_queue c' = drop k (rx_queue c).
Proof.
  intros Hcnt Hrx k. unfold read_dma_round. rewrite (proj2 (Z.ltb_lt _ _)) by lia. cbn [negb].
  assert ((if 0xFFFF <? cnt then 0xFFFF else cnt - 1) = Z.of_nat k) as ->.
  { unfold k. destruct (Z.ltb_spec 0xFFFF cnt); lia. }
  assert (u32 (cnt - Z.of_nat k) = cnt - Z.of_nat k) as ->
    by (apply u32_id; unfold is_u32; lia).
  rewrite Nat2Z.id. rewrite <- (dma_fill_received buf off k (rx_queue c)) by lia. clearbody k.
  eexists. split; [reflexivity|]. by split.
Qed.

Lemma read_dma_loop fuel f buf off cnt c :
  1 <= cnt < 2 ^ 32 -> cnt <= Z.of_nat (length (rx_queue c)) ->
  (off + Z.to_nat cnt <= length buf)%nat -> cnt <= 1 + 65535 * Z.of_nat f ->
  let k := Z.to_nat (cnt - 1) in
  exists c', crun (iter (S f) (read_dma_round (S fuel) TWI0) (buf, off, cnt)) c =
    (Done (inr (received buf off k (rx_queue c), (off + k)%nat, 1)), c') /\
    bus_log c' = bus_log c /\ rx_queue c' = drop k (rx_queue c).
Proof.
  revert buf off cnt c. induction f as [|f IH]; intros buf off cnt c Hcnt Hrx Hb Hf k;
    rewrite crun_iter; (destruct (Z.ltb_spec 1 cnt); [try lia|]).
  1, 3: assert (cnt = 1) as -> by lia; exists c; change k with 0%nat;
    rewrite received_0, Nat.add_0_r, drop_0; by repeat split.
  destruct (read_dma_chunk fuel buf off cnt c) as (c1 & -> & Hlog & Hrx1); [lia|done|].
  set (k1 := Z.to_nat (Z.min _ _)) in *.
  assert (k1 <= k)%nat as Hk by (unfold k, k1; lia).
  destruct (IH (received buf off k1 (rx_queue c)) (off + k1)%nat (cnt - Z.of_nat k1) c1)
    as (c2 & Hr & Hlog2 & Hrx2);
    [unfold k1; lia|rewrite Hrx1, length_drop; lia|rewrite received_length; lia|unfold k1; lia|].
  exists c2. rewrite Hr. replace (Z.to_nat (cnt - Z.of_nat k1 - 1)) with (k - k1)%nat in *
    by (unfold k; lia).
  rewrite Hrx1 in *. rewrite received_received by lia.
  replace (k1 + (k - k1))%nat with k by lia. replace (off + k1 + (k - k1))%nat with (off + k)%nat by lia.
  rewrite drop_drop in Hrx2. replace (k1 + (k - k1))%nat with k in Hrx2 by lia.
  split; [done|]. split; [congruence|done].
Qed.

Lemma read_last_ready buf off c :
  (off < length buf)%nat -> rx_queue c <> [] -> Forall is_u8 (rx_queue c) ->
  exists c', crun (iter timeout_fuel (read_last_round TWI0) (buf, off, 1, TWI_TIMEOUT)) c =
    (Done (TWI_SUCCESS, received buf off 1 (rx_queue c)), c') /\
    bus_log c' = bus_log c /\ rx_queue c' = drop 1 (rx_queue c).
Proof.
  intros Hoff Hrx H8. destruct (rx_queue c) as [|b rx] eqn:Hq; [done|].
  inversion H8; subst. assert (u8 b = b) as Hb by (by apply u8_id).
  change timeout_fuel with (S (S (Z.to_nat TWI_TIMEOUT + 1))).
  assert (store buf off [b] = Some (received buf off 1 (b :: rx))) as Hst.
  { rewrite store_in_bounds by (simpl; lia). done. }
  rewrite crun_iter.
  assert (crun (read_last_round TWI0 (buf, off, 1, TWI_TIMEOUT)) c =
    (Done (inl (received buf off 1 (b :: rx), S off, 0, TWI_TIMEOUT)),
     Controller (dma_src c) (dma_count c) rx (bus_log c))) as ->.
  { destruct c as [src cnt rxq lg]. simpl in Hq. subst rxq. rewrite <- Hb in Hst.
    transitivity (crun (let! buf := defined (store buf off [u8 b]) in
      Ret (E := hw) (@inl _ (Z * list Z) (buf, S off, 0, TWI_TIMEOUT))) (Controller src cnt rx lg)); [done|].
    rewrite Hst. by rewrite Hb. }
  rewrite crun_iter. eexists. split; [reflexivity|]. by split.
Qed.

Lemma read_txcomp_ready c :
  crun (iter timeout_fuel (read_txcomp_round TWI0) TWI_TIMEOUT) c = (Done TWI_SUCCESS, c).
Proof. done. Qed.

(** What precedes the bytes of a read. *)
Definition read_header (p : twi_packet) : list bus_event :=
  [BusMode 0;
   BusMode (Z.lor (Z.lor TWI_MMR_MREAD (TWI_MMR_DADR (chip p)))
     (Z.land (u32 (Z.shiftl (addr_length p) TWI_MMR_IADRSZ_Pos)) TWI_MMR_IADRSZ_Msk));
   BusAddr 0; BusAddr (twi_mk_addr (addr p) (s32 (addr_length p)))].

(** A single byte is asked for with START and STOP at once, the STOP of a
    longer read is set before its last byte. *)
Definition read_commands (n : Z) : list bus_event :=
  if n =? 1 then [BusCmd (Z.lor TWI_CR_START TWI_CR_STOP)]
  else [BusCmd TWI_CR_START; BusCmd TWI_CR_STOP].

Lemma read_ready f p c :
  0 < pk_length p < 2 ^ 32 -> pk_length p <= Z.of_nat (length (pk_buffer p)) ->
  pk_length p <= Z.of_nat (length (rx_queue c)) -> Forall is_u8 (rx_queue c) ->
  pk_length p <= 1 + 65535 * Z.of_nat f ->
  let n := Z.to_nat (pk_length p) in
  exists c', crun (twi_master_read (S f) TWI0 p) c =
    (Done (TWI_SUCCESS, take n (rx_queue c) ++ drop n (pk_buffer p)), c') /\
    bus_log c' = bus_log c ++ read_header p ++ read_commands (pk_length p) /\
    rx_queue c' = drop n (rx_queue c).
Proof.
  intros Hn Hbuf Hrx H8 Hf n. unfold twi_master_read. rewrite (proj2 (Z.eqb_neq _ _)) by lia.
  repeat (rewrite crun_bind, crun_wr).
  set (c0 := ctl_write _ _ (ctl_write _ _ _)).
  assert (bus_log c0 = bus_log c ++ read_header p /\ rx_queue c0 = rx_queue c) as [Hl0 Hr0].
  { split; [|done]. unfold c0, read_header. simpl. by rewrite <- !app_assoc. }
  clearbody c0. rewrite crun_bind.
  assert (exists c1, crun (if pk_length p =? 1
        then wr (TWI_CR TWI0) (Z.lor TWI_CR_START TWI_CR_STOP);; Ret true
        else wr (TWI_CR TWI0) TWI_CR_START;; Ret false) c0 = (Done (pk_length p =? 1), c1) /\
      rx_queue c1 = rx_queue c0 /\
      (forall c', bus_log c' = bus_log c1 -> exists c2,
        crun (if pk_length p =? 1 then Ret tt else wr (TWI_CR TWI0) TWI_CR_STOP) c' =
        (Done tt, c2) /\ bus_log c2 = bus_log c0 ++ read_commands (pk_length p) /\
        rx_queue c2 = rx_queue c')) as (c1 & -> & Hr1 & Hstop).
  { unfold read_commands. destruct (pk_length p =? 1); (eexists; split; [reflexivity|]).
    - split; [done|]. intros c' Hc'. exists c'. by repeat split.
    - split; [done|]. intros c' Hc'. eexists. split; [reflexivity|]. simpl. rewrite Hc'. simpl.
      by rewrite <- app_assoc. }
  rewrite crun_bind.
  destruct (read_dma_loop f f (pk_buffer p) 0 (pk_length p) c1) as (c2 & -> & Hl2 & Hr2);
    [lia|rewrite Hr1, Hr0; lia|lia|lia|]. rewrite Hr1, Hr0 in *.
  destruct (Hstop c2 Hl2) as (c3 & Hs3 & Hl3 & Hr3). rewrite crun_bind, Hs3.
  set (k := Z.to_nat (pk_length p - 1)) in *. rewrite Nat.add_0_l in *.
  rewrite crun_bind.
  destruct (read_last_ready (received (pk_buffer p) 0 k (rx_queue c)) k c3) as (c4 & -> & Hl4 & Hr4).
  { rewrite received_length by lia. lia. }
  { rewrite Hr3, Hr2. intros E. apply (f_equal length) in E. rewrite length_drop in E.
    simpl in E. lia. }
  { rewrite Hr3, Hr2. by apply Forall_drop. }
  cbv beta iota. change (negb (TWI_SUCCESS =? TWI_SUCCESS)) with false. cbv iota.
  rewrite crun_bind, read_txcomp_ready. rewrite Hr3, Hr2 in *.
  rewrite <- (Nat.add_0_l k), received_received by lia.
  exists c4. replace (0 + k + 1)%nat with n by lia.
  split; [done|]. split; [by rewrite Hl4, Hl3, Hl0, <- app_assoc|].
  rewrite Hr4, drop_drop. f_equal. lia.
Qed.

(** ** Termination of the byte-wise parts *)

Lemma wait_total p flags ticks : total (twi_wait_for_interrupt p flags ticks).
Proof.
  unfold twi_wait_for_interrupt, twi_enable_interrupt, twi_disable_interrupt, rd, wr.
  total_tac.
Qed.

(** A loop that counts down returns whatever the environment does. *)
Lemma countdown_total {St R} (body : St -> prog hw (St + R)) (m : St -> nat) (P : St -> Prop) n s :
  (forall s, P s -> total (body s) /\
     returns (fun r => match r with inl s' => P s' /\ (m s' < m s)%nat | inr _ => True end) (body s)) ->
  P s -> (m s < n)%nat -> total (iter n body s).
Proof.
  intros Hb. revert s. induction n as [|n IH]; intros s Hs Hn; [lia|].
  cbn [iter]. destruct (Hb s Hs) as [Ht Hr].
  eapply total_bind; [exact Ht|exact Hr|]. intros [s'|r] Hr'; [|done].
  destruct Hr' as [Hs' Hm]. apply IH; [done|lia].
Qed.

(** The last byte of a read: rounds left and bytes left. *)
Definition last_measure (s : list Z * nat * Z * Z) : nat :=
  let '(_, _, cnt, timeout) := s in
  if cnt =? 0 then 0 else Z.to_nat timeout + 2.

Definition last_inv (s : list Z * nat * Z * Z) : Prop :=
  let '(buf, off, cnt, timeout) := s in
  (cnt = 0 \/ cnt = 1 /\ (off < length buf)%nat) /\ 0 <= timeout <= TWI_TIMEOUT.

Lemma returns_rd {A} (P : A -> Prop) a (f : Z -> prog hw A) :
  (forall v, returns P (f v)) -> returns P (bind (rd a) f).
Proof. done. Qed.

Lemma read_last_total p s : last_inv s ->
  total (iter timeout_fuel (read_last_round p) s).
Proof.
  intros Hs. eapply (countdown_total _ last_measure last_inv); [|exact Hs|].
  - intros [[[buf off] cnt] timeout] [Hc Ht]. unfold read_last_round.
    destruct (Z.eqb_spec cnt 0) as [|Hcnt]; [done|]. destruct Hc as [?|[-> Hoff]]; [done|].
    assert (exists buf', store buf off [0] = Some buf') as Hst0
      by (rewrite store_in_bounds by (simpl; lia); by eexists).
    assert (forall b, exists buf', store buf off [b] = Some buf') as Hst
      by (intros b; rewrite store_in_bounds by (simpl; lia); by eexists).
    split.
    + apply total_seq; [apply total_trigger|intros status]. destruct (has_bits _ _); [done|].
      destruct (timeout =? 0); [done|]. destruct (negb _).
      * apply total_seq; [apply wait_total|intros rc]. by destruct (negb _).
      * apply total_seq; [apply total_trigger|intros b]. by destruct (Hst (u8 b)) as [buf' ->].
    + apply returns_rd. intros status. destruct (has_bits _ _); [done|].
      destruct (Z.eqb_spec timeout 0); [done|]. destruct (negb _).
      * eapply returns_bind; [apply returns_any|]. intros rc _. destruct (negb _); [done|].
        simpl. repeat split; [by right|lia|lia|lia].
      * apply returns_rd. intros b. destruct (Hst (u8 b)) as [buf' ->]. simpl. repeat split; [by left|done|done|lia].
  - destruct s as [[[buf off] cnt] timeout]. destruct Hs as [_ Ht]. unfold last_measure, timeout_fuel.
    destruct (cnt =? 0); lia.
Qed.

Lemma read_txcomp_total p timeout :
  0 <= timeout <= TWI_TIMEOUT -> total (iter timeout_fuel (read_txcomp_round p) timeout).
Proof.
  intros Ht. apply (countdown_total _ Z.to_nat (fun t => 0 <= t)); [|lia|unfold timeout_fuel; lia].
  intros t Hp. unfold read_txcomp_round. split.
  - apply total_seq; [apply total_trigger|intros status]. destruct (has_bits _ _); [done|].
    apply total_seq; [apply wait_total|intros rc].
    destruct (_ =? _); [done|]. destruct (negb _); [done|]. by destruct (_ =? _).
  - apply returns_rd. intros status. destruct (has_bits _ _); [done|].
    eapply returns_bind; [apply returns_any|]. intros rc _.
    destruct (_ =? _); [done|]. destruct (negb _); [done|].
    destruct (Z.eqb_spec t 0); [done|]. simpl. lia.
Qed.

Lemma read_single_total p pkt fuel :
  pk_length pkt = 1 -> pk_buffer pkt <> [] -> total (twi_master_read (S fuel) p pkt).
Proof.
  intros Hl Hb. unfold twi_master_read. rewrite Hl. cbn [Z.eqb Pos.eqb].
  do 4 (apply total_seq; [apply total_trigger|intros _]).
  apply (total_bind (fun _ => True)); [by intros x|apply returns_any|intros stop _].
  cbn [iter read_dma_round Z.ltb Z.compare Pos.compare Pos.compare_cont negb bind].
  destruct stop.
  all: repeat (apply total_seq; [first [done|apply total_trigger]|intros ?]).
  all: apply total_seq; [apply read_last_total; split; [right; split; [done|]|done];
    destruct (pk_buffer pkt); simpl; [done|lia]|].
  all: intros [status buf]; destruct (negb _); [done|].
  all: apply total_seq; [by apply read_txcomp_total|done].
Qed.

(** ** The clock *)

Lemma clock_dividers_spec k c ck :
  0 <= ck -> ck + Z.of_nat k = 7 -> 0 <= c < 256 * 2 ^ Z.of_nat k ->
  let '(cl, ck') := clock_dividers k c ck in
  0 <= cl <= 255 /\ ck <= ck' <= 7 /\ cl = c / 2 ^ (ck' - ck).
Proof.
  revert c ck. induction k as [|k IH]; intros c ck Hck Hk Hc; cbn [clock_dividers].
  - unfold TWI_CLK_DIV_MAX. rewrite (proj2 (Z.ltb_ge _ _)) by lia. cbn [andb].
    rewrite Z.sub_diag, Z.div_1_r. lia.
  - unfold TWI_CLK_DIV_MAX, TWI_CLK_DIV_MIN, TWI_CLK_DIVIDER.
    destruct (Z.ltb_spec 255 c); cbn [andb].
    2: { rewrite Z.sub_diag, Z.div_1_r. lia. }
    rewrite (proj2 (Z.ltb_lt _ _)) by lia.
    rewrite Nat2Z.inj_succ, Z.pow_succ_r in Hc by lia.
    specialize (IH (c / 2) (ck + 1)).
    destruct (clock_dividers k (c / 2) (ck + 1)) as [cl ck'].
    destruct IH as (Hcl & Hck' & ->); [lia|lia|split; [apply Z.div_pos; lia|apply Z.div_lt_upper_bound; lia]|].
    split; [done|]. split; [lia|].
    replace (ck' - ck) with (1 + (ck' - (ck + 1))) by lia.
    rewrite Z.pow_add_r, Z.div_div by lia. done.
Qed.

Lemma cwgr_fields cl ck : 0 <= cl <= 255 -> 0 <= ck <= 7 ->
  Z.lor (Z.lor (TWI_CWGR_CLDIV cl) (TWI_CWGR_CHDIV cl)) (TWI_CWGR_CKDIV ck) =
  cl + Z.shiftl cl 8 + Z.shiftl ck 16.
Proof.
  intros Hcl Hck. unfold TWI_CWGR_CLDIV, TWI_CWGR_CHDIV, TWI_CWGR_CKDIV.
  rewrite !u32_id by (unfold is_u32; rewrite Z.shiftl_mul_pow2; lia).
  rewrite <- !Z.shiftl_land, <- !(Z.land_comm cl), <- !(Z.land_comm ck).
  change 0xff with (Z.ones 8). change 0x7 with (Z.ones 3).
  rewrite !Z.land_ones, !Z.mod_small by lia.
  rewrite (lor_disjoint_add cl cl 8) by lia.
  rewrite lor_disjoint_add; [done|lia|]. rewrite Z.shiftl_mul_pow2; lia.
Qed.

(** For a speed the peripheral supports and a master clock the dividers can
    reach from it, [twi_set_speed] succeeds with one write of equal low and high
    dividers and a prescaler within their register fields; a bit then lasts
    [2 * (CLDIV * 2^CKDIV + 4)] master clock cycles, which is never longer than
    the period asked for, and would be with the next greater divider. *)
Theorem twi_clock_bounds p ul_speed ul_mck :
  0 < ul_speed <= I2C_FAST_MODE_SPEED -> 8 * ul_speed <= ul_mck ->
  ul_mck < 65536 * ul_speed -> is_u32 ul_mck ->
  exists cl ck,
    twi_set_speed p ul_speed ul_mck =
      (wr (TWI_CWGR p) (cl + Z.shiftl cl 8 + Z.shiftl ck 16);; Ret PASS) /\
    0 <= cl <= 255 /\ 0 <= ck <= 7 /\
    2 * (cl * 2 ^ ck + 4) * ul_speed <= ul_mck < 2 * ((cl + 1) * 2 ^ ck + 4) * ul_speed.
Proof.
  unfold I2C_FAST_MODE_SPEED. intros Hs Hlo Hhi H32. unfold is_u32 in H32.
  unfold twi_set_speed, I2C_FAST_MODE_SPEED, TWI_CLK_DIVIDER, TWI_CLK_CALC_ARGU.
  rewrite (proj2 (Z.ltb_ge _ _)) by lia.
  rewrite (u32_id (ul_speed * 2)) by (unfold is_u32; lia).
  rewrite (proj2 (Z.eqb_neq _ _)) by lia.
  set (q := ul_mck / (ul_speed * 2)).
  assert (ul_speed * 2 * q <= ul_mck < ul_speed * 2 * (q + 1)) as Hq.
  { unfold q. split; [apply Z.mul_div_le; lia|]. apply Z.mul_succ_div_gt. lia. }
  assert (4 <= q < 32768) as Hq' by nia.
  rewrite (u32_id (q - 4)) by (unfold is_u32; lia).
  pose proof (clock_dividers_spec 7 (q - 4) 0) as Hd.
  destruct (clock_dividers 7 (q - 4) 0) as [cl ck].
  destruct Hd as (Hcl & Hck & Hd); [lia|lia|change (2 ^ Z.of_nat 7) with 128; lia|].
  rewrite cwgr_fields by lia. exists cl, ck. split; [done|]. split; [done|]. split; [done|].
  rewrite Z.sub_0_r in Hd. assert (0 < 2 ^ ck) as Hp by (apply Z.pow_pos_nonneg; lia).
  pose proof (Z.mul_div_le (q - 4) (2 ^ ck) Hp) as Ha.
  pose proof (Z.mul_succ_div_gt (q - 4) (2 ^ ck) Hp) as Hb. rewrite <- Hd in Ha, Hb.
  split; nia.
Qed.

(** The board's 84 MHz and 400 kHz, where the speed is met exactly. *)
Example twi_clock_bounds_witness : exists cl ck,
    twi_set_speed TWI0 400000 84000000 =
      (wr (TWI_CWGR TWI0) (cl + Z.shiftl cl 8 + Z.shiftl ck 16);; Ret PASS) /\
    0 <= cl <= 255 /\ 0 <= ck <= 7 /\
    2 * (cl * 2 ^ ck + 4) * 400000 <= 84000000 < 2 * ((cl + 1) * 2 ^ ck + 4) * 400000.
Proof. apply (twi_clock_bounds TWI0 400000 84000000); unfold I2C_FAST_MODE_SPEED, is_u32; lia. Defined.

(** ** A slow transfer

    The registers answer what a script says and every wait for a notification
    runs into its timeout. *)
Definition replay (e : hwop) (s : list Z) : hw_ans e * list Z :=
  match e with
  | Rd _ => (hd 0 s, tl s)
  | RdBuf _ => ([], s)
  | NotifyWait _ => (false, s)
  | Getchar => (0, s)
  | NotifyStateClear | TaskDelay _ | Putchar _ | Wr _ _ | WrBuf _ _ => (tt, s)
  end.

(** What the reads of a round give that finds the controller busy, whose wait
    times out, and whose DMA counter has gone down to [v]. *)
Definition slow_round (busy v : Z) : list Z := [busy; 0; v; v].

Fixpoint progresses (remaining : Z) (vs : list Z) : Prop :=
  match vs with
  | [] => True
  | v :: vs => v <> remaining /\ progresses v vs
  end.

Lemma slow_rounds n counter flag busy last vs rc remaining rest :
  has_bits busy TWI_SR_NACK = false -> has_bits busy flag = false ->
  has_bits last TWI_SR_NACK = false -> has_bits last flag = true ->
  progresses remaining vs -> (length vs < n)%nat ->
  @run hw _ _ replay (iter n (dma_wait_round TWI0 counter flag) (rc, remaining))
    (concat (map (slow_round busy) vs) ++ last :: rest) =
  (Done (if decide (vs = []) then rc else TWI_ERROR_TIMEOUT), rest).
Proof.
  intros Hn1 Hf1 Hn2 Hf2. revert n rc remaining.
  induction vs as [|v vs IH]; intros [|n] rc remaining Hp Hl; simpl in Hl; try lia.
  - cbn. by rewrite Hn2, Hf2.
  - destruct Hp as [Hv Hp].
    transitivity (@run hw _ _ replay (iter n (dma_wait_round TWI0 counter flag) (TWI_ERROR_TIMEOUT, v))
      (concat (map (slow_round busy) vs) ++ last :: rest)).
    + cbn. rewrite Hn1, Hf1. cbn. by rewrite (proj2 (Z.eqb_neq _ _)).
    + rewrite IH by (auto; lia). by destruct (decide (vs = [])).
Qed.

(** A transfer that makes progress in every 20-tick wait and then
    completes without a NACK is reported as [TWI_ERROR_TIMEOUT] by the DMA wait
    of the master routines: the status of the last expired wait survives. *)
Theorem slow_transfer_reported_failed n counter flag busy last vs v rest :
  has_bits busy TWI_SR_NACK = false -> has_bits busy flag = false ->
  has_bits last TWI_SR_NACK = false -> has_bits last flag = true ->
  progresses v vs -> vs <> [] -> (length vs < n)%nat ->
  (@run hw _ _ replay (iter n (dma_wait_round TWI0 counter flag) (TWI_SUCCESS, v))
    (concat (map (slow_round busy) vs) ++ last :: rest)).1 = Done TWI_ERROR_TIMEOUT.
Proof.
  intros Hn1 Hf1 Hn2 Hf2 Hp Hne Hl. rewrite slow_rounds by done. by rewrite decide_False.
Qed.

Example slow_transfer_reported_failed_witness :
  (@run hw _ _ replay
    (iter 5 (dma_wait_round TWI0 (PERIPH_RCR PDC_TWI0) TWI_SR_RXBUFF) (TWI_SUCCESS, 4))
    (concat (map (slow_round 0) [3; 1]) ++ all_ready :: [])).1 = Done TWI_ERROR_TIMEOUT.
Proof. apply slow_transfer_reported_failed; (reflexivity || done || (simpl; lia)). Defined.

(** ** Properties of the master transfers *)

(** A master write to a slave that acknowledges puts the mode, the internal
    address and then exactly the bytes of the buffer on the bus in order,
    followed by one STOP, whatever the length (DMA chunks of at most 65535 and
    a last byte by hand), and reports success. *)
Theorem twi_write_on_the_bus f p c :
  pk_length p = Z.of_nat (length (pk_buffer p)) -> 0 < pk_length p < 2 ^ 32 ->
  pk_length p <= 1 + 65535 * (Z.of_nat f + 1) ->
  let '(r, c') := crun (twi_master_write (S (S f)) TWI0 p) c in
  r = Done TWI_SUCCESS /\
  bus_log c' = bus_log c ++ write_header p ++ map BusTx (pk_buffer p) ++ [BusCmd TWI_CR_STOP] /\
  rx_queue c' = rx_queue c.
Proof. intros Hl Hp Hf. by destruct (write_ready f p c Hl Hp Hf) as (c' & -> & H). Qed.

Example twi_write_on_the_bus_witness :
  let '(r, c') := crun (twi_master_write 2 TWI0 (TwiPacket [] 0 [0x31; 1; 2] 3 0x30))
                    (Controller [] 0 [] []) in
  r = Done TWI_SUCCESS /\
  bus_log c' = [] ++ write_header (TwiPacket [] 0 [0x31; 1; 2] 3 0x30) ++
    map BusTx [0x31; 1; 2] ++ [BusCmd TWI_CR_STOP] /\
  rx_queue c' = [].
Proof.
  apply (twi_write_on_the_bus 0 (TwiPacket [] 0 [0x31; 1; 2] 3 0x30) (Controller [] 0 [] []));
    simpl; lia.
Defined.

(** A master read of [n] bytes from a slave that acknowledges leaves the
    first [n] bytes the slave sent in the buffer and nothing else of it
    changed, consumes exactly them, and asks for START and STOP together for a
    single byte and for STOP before the last one of a longer read. *)
Theorem twi_read_from_the_bus f p c :
  0 < pk_length p < 2 ^ 32 -> pk_length p <= Z.of_nat (length (pk_buffer p)) ->
  pk_length p <= Z.of_nat (length (rx_queue c)) -> Forall is_u8 (rx_queue c) ->
  pk_length p <= 1 + 65535 * Z.of_nat f ->
  let n := Z.to_nat (pk_length p) in
  let '(r, c') := crun (twi_master_read (S f) TWI0 p) c in
  r = Done (TWI_SUCCESS, take n (rx_queue c) ++ drop n (pk_buffer p)) /\
  bus_log c' = bus_log c ++ read_header p ++ read_commands (pk_length p) /\
  rx_queue c' = drop n (rx_queue c).
Proof.
  intros Hn Hb Hr H8 Hf n. by destruct (read_ready f p c Hn Hb Hr H8 Hf) as (c' & -> & H).
Qed.

Example twi_read_from_the_bus_witness :
  let p := TwiPacket [] 0 (replicate 6 0) 5 0x30 in
  let c := Controller [] 0 [9; 1; 2; 3; 4; 7] [] in
  let '(r, c') := crun (twi_master_read 2 TWI0 p) c in
  r = Done (TWI_SUCCESS, [9; 1; 2; 3; 4] ++ [0]) /\
  bus_log c' = [] ++ read_header p ++ read_commands 5 /\
  rx_queue c' = [7].
Proof.
  apply (twi_read_from_the_bus 1 (TwiPacket [] 0 (replicate 6 0) 5 0x30)
    (Controller [] 0 [9; 1; 2; 3; 4; 7] [])); simpl; try lia.
  repeat constructor; unfold is_u8; lia.
Defined.

(** A one-byte read returns whatever the controller, the slave and the
    scheduler do: every wait is bounded, and the byte stays in the buffer. *)
Theorem twi_read_byte_returns p pkt fuel :
  pk_length pkt = 1 -> pk_buffer pkt <> [] -> total (twi_master_read (S fuel) p pkt).
Proof. apply read_single_total. Qed.

Example twi_read_byte_returns_witness :
  total (twi_master_read 1 TWI1 (TwiPacket [0; 7] 2 [0] 1 0x50)).
Proof. by apply twi_read_byte_returns. Defined.
