(* ===== verification/FpgaTwi.v ===== *)
(** * Access to the FPGA registers over TWI (fpga_twi.c)

    The functions of
    src/src/ASF/thirdparty/freertos/demo/lwip_sam_example/fpga_twi.c, over an
    interface to the two-wire master ([TwoWire]) of which the driver of Twi.v
    is the instance the firmware links. *)

From S2P Require Import Prelude Prog Pio Pmc Twi TwiBus.

(** ** The interface to the TWI driver

    [twi_master_write(TWI0, ..)], [twi_master_read(TWI0, ..)] with the buffer it
    leaves, and [twi_master_init(TWI0, ..)]. *)
Class TwoWire (E : Sig) := {
  master_write : twi_packet -> prog E Z;
  master_read : twi_packet -> prog E (Z * list Z);
  master_init : twi_options -> prog E Z
}.

#[export] Instance twi0_two_wire (fuel : nat) : TwoWire hw := {|
  master_write := twi_master_write fuel TWI0;
  master_read := twi_master_read fuel TWI0;
  master_init := twi_master_init TWI0
|}.

(** ** Initialisation *)

Definition TWI0_DATA_GPIO : Z := 17.
Definition TWI0_CLK_GPIO : Z := 18.
Definition TWI0_DATA_FLAGS : Z := PIO_PERIPH_A.
Definition TWI0_CLK_FLAGS : Z := PIO_PERIPH_A.

(** [opt.master_clk] and [opt.smbus] are set by [twi_master_setup]. *)
Definition fpga_twi_init : prog hw unit :=
  let! _ := pio_configure_pin TWI0_DATA_GPIO TWI0_DATA_FLAGS in
  let! _ := pio_configure_pin TWI0_CLK_GPIO TWI0_CLK_FLAGS in
  let! _ := twi_master_setup TWI0 (TwiOptions 0 400000 0x30 0) in
  Ret tt.

Section fpga.
Context {E : Sig} `{TwoWire E}.

Definition fpga_twi_reset : prog E unit :=
  let! _ := master_init (TwiOptions sysclk_get_cpu_hz 400000 0x30 0) in Ret tt.

(** ** Transfers *)

Definition fpga_test_write : prog E Z :=
  let test_pattern := [0x31; 0x00; 0xaa; 0x55; 0x48] in
  let! status := master_write (TwiPacket [0x55; 0xaa; 0x48] 24 test_pattern 5 0x30) in
  (if negb (status =? TWI_SUCCESS) then fpga_twi_reset else Ret tt);;
  Ret status.

Definition fpga_write_command (command : Z) : prog E Z :=
  let! status := master_write (TwiPacket [] 0 [command] 1 0x30) in
  (if negb (status =? TWI_SUCCESS) then fpga_twi_reset else Ret tt);;
  Ret status.

Definition fpga_write_opb_address (address : Z) : prog E Z :=
  let buffer :=
    [0x31; Z.land (Z.shiftr address 24) 0xff; Z.land (Z.shiftr address 16) 0xff;
     Z.land (Z.shiftr address 8) 0xff; Z.land address 0xff] in
  let! status := master_write (TwiPacket [] 0 buffer 5 0x30) in
  (if negb (status =? TWI_SUCCESS) then fpga_twi_reset else Ret tt);;
  Ret status.

(** What the read functions give: the status they return and the value they
    store through their [data] argument, if they do.  [garbage] is what the
    uninitialised local [buffer] of [fpga_read_data] holds. *)
Context (garbage : list Z).

Definition fpga_read_data : prog E (Z * option Z) :=
  let! (status, buffer) := master_read (TwiPacket [] 0 garbage 5 0x30) in
  (if negb (status =? TWI_SUCCESS) then fpga_twi_reset else Ret tt);;
  if negb (status =? TWI_SUCCESS) && negb (status =? TWI_ERROR_TIMEOUT_COMP)
  then Ret (status, None)
  else
    let! b1 := defined (buffer !! 1%nat) in
    let! b2 := defined (buffer !! 2%nat) in
    let! b3 := defined (buffer !! 3%nat) in
    let! b4 := defined (buffer !! 4%nat) in
    Ret (TWI_SUCCESS,
         Some (Z.lor (Z.lor (Z.lor (u32 (Z.shiftl b1 24)) (u32 (Z.shiftl b2 16)))
                        (u32 (Z.shiftl b3 8))) b4)).

Definition fpga_read_byte (address : Z) : prog E (Z * option Z) :=
  let! status := fpga_write_opb_address address in
  if negb (status =? TWI_SUCCESS) then Ret (status, None)
  else
    let! status := fpga_write_command 0x04 in
    if negb (status =? TWI_SUCCESS) then Ret (status, None)
    else
      let! (status, data_full) := fpga_read_data in
      if negb (status =? TWI_SUCCESS) then Ret (status, None)
      else
        let! data_full := defined data_full in
        Ret (status, Some (Z.land (Z.shiftr data_full 24) 0xff)).

Definition fpga_read_short (address : Z) : prog E (Z * option Z) :=
  let! status := fpga_write_opb_address address in
  if negb (status =? TWI_SUCCESS) then Ret (status, None)
  else
    let! status := fpga_write_command 0x14 in
    if negb (status =? TWI_SUCCESS) then Ret (status, None)
    else
      let! (status, data_full) := fpga_read_data in
      if negb (status =? TWI_SUCCESS) then Ret (status, None)
      else
        let! data_full := defined data_full in
        Ret (status, Some (Z.land (Z.shiftr data_full 16) 0xffff)).

Definition fpga_read_long (address : Z) : prog E (Z * option Z) :=
  let! status := fpga_write_opb_address address in
  if negb (status =? TWI_SUCCESS) then Ret (status, None)
  else
    let! status := fpga_write_command 0x34 in
    if negb (status =? TWI_SUCCESS) then Ret (status, None)
    else
      let! (status, data) := fpga_read_data in
      if negb (status =? TWI_SUCCESS) then Ret (status, data)
      else Ret (status, data).

Definition fpga_write_byte (address data : Z) : prog E Z :=
  let packet_write := TwiPacket [] 0 [0x03; data] 2 0x30 in
  let! status := fpga_write_opb_address address in
  if negb (status =? TWI_SUCCESS) then Ret status
  else
    let! status := master_write packet_write in
    if negb (status =? TWI_SUCCESS) then fpga_twi_reset;; Ret status
    else Ret status.

Definition fpga_write_short (address data : Z) : prog E Z :=
  let packet_write :=
    TwiPacket [] 0 [0x13; Z.land (Z.shiftr data 8) 0xff; Z.land data 0xff] 3 0x30 in
  let! status := fpga_write_opb_address address in
  if negb (status =? TWI_SUCCESS) then Ret status
  else
    let! status := master_write packet_write in
    if negb (status =? TWI_SUCCESS) then fpga_twi_reset;; Ret status
    else Ret status.

Definition fpga_write_long (address data : Z) : prog E Z :=
  let packet_write :=
    TwiPacket [] 0
      [0x33; Z.land (Z.shiftr data 24) 0xff; Z.land (Z.shiftr data 16) 0xff;
       Z.land (Z.shiftr data 8) 0xff; Z.land data 0xff] 5 0x30 in
  let! status := fpga_write_opb_address address in
  if negb (status =? TWI_SUCCESS) then Ret status
  else
    let! status := master_write packet_write in
    if negb (status =? TWI_SUCCESS) then fpga_twi_reset;; Ret status
    else Ret status.
End fpga.

(** ** Accesses and their frames *)

Inductive width := W8 | W16 | W32.
Inductive access :=
| WriteAccess (w : width) (address data : Z)
| ReadAccess (w : width) (address : Z).

Definition width_bytes (w : width) : nat :=
  match w with W8 => 1 | W16 => 2 | W32 => 4 end.

(** The byte that says what is to be done with the address latched before. *)
Definition opcode (w : width) (write : bool) : Z :=
  match w with W8 => 0x00 | W16 => 0x10 | W32 => 0x30 end + if write then 3 else 4.

(** Big-endian values, most significant byte first on the bus. *)
Definition be_bytes (n : nat) (v : Z) : list Z := drop (4 - n) (be_bytes4 v).
Definition be_value (bs : list Z) : Z := fold_left (fun v b => 256 * v + b) bs 0.

Definition access_frames (a : access) : list (list Z) :=
  match a with
  | WriteAccess w address data =>
    [0x31 :: be_bytes4 address; opcode w true :: be_bytes (width_bytes w) data]
  | ReadAccess w address => [0x31 :: be_bytes4 address; [opcode w false]]
  end.

Definition access_ok (a : access) : Prop :=
  match a with
  | WriteAccess w address data => is_u32 address /\ 0 <= data < 2 ^ (8 * Z.of_nat (width_bytes w))
  | ReadAccess _ address => is_u32 address
  end.

Definition perform {E} `{TwoWire E} (garbage : list Z) (a : access) : prog E (Z * option Z) :=
  match a with
  | WriteAccess w address data =>
    let! status :=
      match w with
      | W8 => fpga_write_byte address data
      | W16 => fpga_write_short address data
      | W32 => fpga_write_long address data
      end in Ret (status, None)
  | ReadAccess W8 address => fpga_read_byte garbage address
  | ReadAccess W16 address => fpga_read_short garbage address
  | ReadAccess W32 address => fpga_read_long garbage address
  end.

(** ** The bytes of an access *)

Lemma be_bytes4_land v :
  [Z.land (Z.shiftr v 24) 0xff; Z.land (Z.shiftr v 16) 0xff; Z.land (Z.shiftr v 8) 0xff;
   Z.land v 0xff] = be_bytes4 v.
Proof. by rewrite !land_ff. Qed.

Lemma be_value_bytes n v :
  (n <= 4)%nat -> 0 <= v < 2 ^ (8 * Z.of_nat n) -> be_value (be_bytes n v) = v.
Proof.
  intros Hn Hv. unfold be_bytes, be_bytes4, u8. rewrite !Z.shiftr_div_pow2 by lia.
  destruct n as [|[|[|[|[|n]]]]]; try lia; cbn [drop Nat.sub be_value fold_left];
    unfold be_value; cbn [fold_left]; change (8 * Z.of_nat 0) with 0 in *;
    Z.to_euclidean_division_equations; lia.
Qed.

(** The word that [fpga_read_data] assembles. *)
Lemma assemble_be b1 b2 b3 b4 : is_u8 b1 -> is_u8 b2 -> is_u8 b3 -> is_u8 b4 ->
  Z.lor (Z.lor (Z.lor (u32 (Z.shiftl b1 24)) (u32 (Z.shiftl b2 16))) (u32 (Z.shiftl b3 8))) b4 =
  be_value [b1; b2; b3; b4].
Proof.
  intros H1 H2 H3 H4. unfold is_u8 in *.
  rewrite !u32_id by (unfold is_u32; rewrite Z.shiftl_mul_pow2; lia).
  change 24 with (16 + 8). change 16 with (8 + 8).
  rewrite <- !Z.shiftl_shiftl, <- !Z.shiftl_lor by lia.
  rewrite !lor_byte by done. unfold be_value. cbn [fold_left]. lia.
Qed.

Lemma be_value_high b1 b2 b3 b4 : is_u8 b1 -> is_u8 b2 -> is_u8 b3 -> is_u8 b4 ->
  Z.land (Z.shiftr (be_value [b1; b2; b3; b4]) 24) 0xff = be_value [b1] /\
  Z.land (Z.shiftr (be_value [b1; b2; b3; b4]) 16) 0xffff = be_value [b1; b2].
Proof.
  intros H1 H2 H3 H4. unfold is_u8 in *. change 0xff with (Z.ones 8). change 0xffff with (Z.ones 16).
  rewrite !Z.land_ones, !Z.shiftr_div_pow2 by lia. unfold be_value. cbn [fold_left].
  split; Z.to_euclidean_division_equations; lia.
Qed.

(** No two accesses have the same frames: the bytes on the bus determine
    the direction, the width, the address and the data. *)
Theorem access_frames_determine_access a b :
  access_ok a -> access_ok b -> access_frames a = access_frames b -> a = b.
Proof.
  assert (forall x y, is_u32 x -> is_u32 y -> be_bytes4 x = be_bytes4 y -> x = y) as Hinj.
  { intros x y Hx Hy Hxy. rewrite <- (be_value_bytes 4 x), <- (be_value_bytes 4 y) by (done || lia).
    change (be_value (be_bytes4 x) = be_value (be_bytes4 y)). by rewrite Hxy. }
  assert (forall (l l' m m' : list Z) x y, [x :: l; m] = [y :: l'; m'] -> l = l' /\ m = m') as Hcut
    by (by intros ? ? ? ? ? ? [= _ -> ->]).
  assert (forall w w' b b', opcode w b = opcode w' b' -> w = w' /\ b = b') as Hop
    by (intros [] [] [] []; (by split) || discriminate).
  destruct a as [w x d|w x], b as [w' y d'|w' y]; cbn [access_ok access_frames];
    intros Ha Hb [Hxy Hf]%Hcut; apply (f_equal (take 1)) in Hf as Hw;
    injection Hw as [-> Hb']%Hop; try discriminate Hb'.
  - destruct Ha as [Hx Hd], Hb as [Hy Hd']. f_equal; [by apply Hinj|].
    rewrite <- (be_value_bytes (width_bytes w') d), <- (be_value_bytes (width_bytes w') d')
      by (done || (destruct w'; simpl; lia)).
    f_equal. by apply (f_equal (drop 1)) in Hf.
  - f_equal. by apply Hinj.
Qed.

Example access_frames_determine_access_witness :
  WriteAccess W16 0x80000010 (0x1200 + 0x34) = WriteAccess W16 (0x80000000 + 16) 0x1234.
Proof.
  apply access_frames_determine_access; [split; [unfold is_u32|simpl]; lia|split; [unfold is_u32|simpl]; lia|reflexivity].
Defined.

(** ** Accesses on a bus that acknowledges *)

Definition frame (bs : list Z) : twi_packet := TwiPacket [] 0 bs (Z.of_nat (length bs)) 0x30.

Definition frame_events (bs : list Z) : list bus_event :=
  write_header (frame bs) ++ map BusTx bs ++ [BusCmd TWI_CR_STOP].

(** The five bytes the FPGA answers with, the first of which is not data. *)
Definition answer_events : list bus_event :=
  read_header (TwiPacket [] 0 [] 5 0x30) ++ read_commands 5.

Definition access_events (a : access) : list bus_event :=
  concat (map frame_events (access_frames a)) ++
  match a with WriteAccess _ _ _ => [] | ReadAccess _ _ => answer_events end.

Definition access_result (a : access) (answer : list Z) : option Z :=
  match a with
  | WriteAccess _ _ _ => None
  | ReadAccess w _ => Some (be_value (take (width_bytes w) (drop 1 answer)))
  end.

Definition access_consumes (a : access) : nat :=
  match a with WriteAccess _ _ _ => 0 | ReadAccess _ _ => 5 end.

Section acknowledged.
Context (fuel : nat).
#[local] Instance bus : TwoWire hw := twi0_two_wire (S (S fuel)).

Lemma send_frame bs c : 0 < Z.of_nat (length bs) < 65536 ->
  exists c', crun (master_write (frame bs)) c = (Done TWI_SUCCESS, c') /\
    bus_log c' = bus_log c ++ frame_events bs /\ rx_queue c' = rx_queue c.
Proof. intros Hl. apply (write_ready fuel (frame bs)); simpl; lia. Qed.

(** A frame of a client, followed by what the client does on success. *)
Lemma send_frame_bind {A} bs (k : Z -> prog hw A) c : 0 < Z.of_nat (length bs) < 65536 ->
  exists c', crun (bind (master_write (frame bs)) k) c = crun (k TWI_SUCCESS) c' /\
    bus_log c' = bus_log c ++ frame_events bs /\ rx_queue c' = rx_queue c.
Proof.
  intros Hl. destruct (send_frame bs c Hl) as (c' & Hr & H). exists c'.
  by rewrite crun_bind, Hr.
Qed.

Lemma address_ready address c :
  exists c', crun (fpga_write_opb_address address) c = (Done TWI_SUCCESS, c') /\
    bus_log c' = bus_log c ++ frame_events (0x31 :: be_bytes4 address) /\ rx_queue c' = rx_queue c.
Proof.
  unfold fpga_write_opb_address. rewrite be_bytes4_land.
  destruct (send_frame_bind (A := Z) (0x31 :: be_bytes4 address)
    (fun status => (if negb (status =? TWI_SUCCESS) then fpga_twi_reset else Ret tt);; Ret status) c)
    as (c' & Hr & H); [simpl; lia|].
  exists c'. split; [exact Hr|exact H].
Qed.

Lemma command_ready command c :
  exists c', crun (fpga_write_command command) c = (Done TWI_SUCCESS, c') /\
    bus_log c' = bus_log c ++ frame_events [command] /\ rx_queue c' = rx_queue c.
Proof.
  destruct (send_frame_bind (A := Z) [command]
    (fun status => (if negb (status =? TWI_SUCCESS) then fpga_twi_reset else Ret tt);; Ret status) c)
    as (c' & Hr & H); [simpl; lia|].
  exists c'. split; [exact Hr|exact H].
Qed.

Lemma answer_ready garbage c b0 b1 b2 b3 b4 rest :
  length garbage = 5%nat -> rx_queue c = b0 :: b1 :: b2 :: b3 :: b4 :: rest ->
  Forall is_u8 (rx_queue c) ->
  exists c', crun (fpga_read_data garbage) c =
      (Done (TWI_SUCCESS, Some (be_value [b1; b2; b3; b4])), c') /\
    bus_log c' = bus_log c ++ answer_events /\ rx_queue c' = rest.
Proof.
  intros Hg Hrx H8. unfold fpga_read_data. rewrite crun_bind.
  destruct (read_ready (S fuel) (TwiPacket [] 0 garbage 5 0x30) c) as (c' & Hr & Hlog & Hrx').
  1-5: simpl; rewrite ?Hrx, ?Hg; simpl; (lia || by rewrite <- Hrx).
  cbn [master_read bus twi0_two_wire]. rewrite Hr. cbn [pk_buffer pk_length] in *.
  change (Z.to_nat 5) with 5%nat in *. rewrite Hrx in *. rewrite drop_ge by lia.
  exists c'. split; [|by split].
  repeat match goal with H : Forall _ (_ :: _) |- _ => inversion H; clear H; subst end.
  rewrite <- assemble_be by done. done.
Qed.

Lemma write_access_ready w address data c : 0 <= data < 2 ^ (8 * Z.of_nat (width_bytes w)) ->
  exists c', crun match w with W8 => fpga_write_byte address data
      | W16 => fpga_write_short address data | W32 => fpga_write_long address data end c =
      (Done TWI_SUCCESS, c') /\
    bus_log c' = (bus_log c ++ frame_events (0x31 :: be_bytes4 address)) ++
      frame_events (opcode w true :: be_bytes (width_bytes w) data) /\
    rx_queue c' = rx_queue c.
Proof.
  intros Hd. destruct (address_ready address c) as (c1 & H1 & Hl1 & Hq1). rewrite <- Hl1, <- Hq1.
  assert (forall bs, 0 < Z.of_nat (length bs) < 65536 -> exists c', crun (
    let! status := master_write (frame bs) in
    if negb (status =? TWI_SUCCESS) then fpga_twi_reset;; Ret status else Ret status) c1 =
    (Done TWI_SUCCESS, c') /\ bus_log c' = bus_log c1 ++ frame_events bs /\
    rx_queue c' = rx_queue c1) as Hsend.
  { intros bs Hbs. destruct (send_frame_bind (A := Z) bs (fun status =>
      if negb (status =? TWI_SUCCESS) then fpga_twi_reset;; Ret status else Ret status) c1 Hbs)
      as (c' & Hr & H). by exists c'. }
  assert (w = W8 -> [0x03; data] = opcode W8 true :: be_bytes 1 data) as H8b
    by (intros ->; change (be_bytes 1 data) with [u8 data]; by rewrite u8_id).
  destruct w; [unfold fpga_write_byte|unfold fpga_write_short|unfold fpga_write_long];
    rewrite crun_bind, H1; cbv iota beta; rewrite ?land_ff;
    [rewrite H8b by done| |]; by apply Hsend; simpl; lia.
Qed.

Lemma access_ready garbage a c :
  access_ok a -> length garbage = 5%nat -> Forall is_u8 (rx_queue c) ->
  (access_consumes a <= length (rx_queue c))%nat ->
  let '(r, c') := crun (perform garbage a) c in
  r = Done (TWI_SUCCESS, access_result a (rx_queue c)) /\
  bus_log c' = bus_log c ++ access_events a /\
  rx_queue c' = drop (access_consumes a) (rx_queue c).
Proof.
  intros Ha Hg H8 Hrx. destruct a as [w address data|w address].
  - destruct Ha as [_ Hd]. simpl perform. rewrite crun_bind.
    destruct (write_access_ready w address data c Hd) as (c' & -> & Hl & Hq).
    split; [done|]. split; [|done].
    rewrite Hl. unfold access_events. cbn [access_frames map concat]. by rewrite !app_nil_r, <- app_assoc.
  - simpl in Hrx. destruct (rx_queue c) as [|b0 [|b1 [|b2 [|b3 [|b4 rest]]]]] eqn:Hq;
      simpl in Hrx; try lia.
    destruct (address_ready address c) as (c1 & H1 & Hl1 & Hq1).
    destruct (command_ready (opcode w false) c1) as (c2 & H2 & Hl2 & Hq2).
    destruct (answer_ready garbage c2 b0 b1 b2 b3 b4 rest) as (c3 & H3 & Hl3 & Hq3);
      [done|congruence|congruence|].
    assert (crun (perform garbage (ReadAccess w address)) c =
      (Done (TWI_SUCCESS, access_result (ReadAccess w address) (b0 :: b1 :: b2 :: b3 :: b4 :: rest)), c3))
      as ->.
    { repeat match goal with H : Forall _ (_ :: _) |- _ => inversion H; clear H; subst end.
      destruct (be_value_high b1 b2 b3 b4) as [Hv1 Hv2]; [done..|].
      destruct w; simpl perform; [unfold fpga_read_byte|unfold fpga_read_short|unfold fpga_read_long];
        [change 0x04 with (opcode W8 false)|change 0x14 with (opcode W16 false)
        |change 0x34 with (opcode W32 false)];
        rewrite crun_bind, H1; cbv iota beta; cbn [negb Z.eqb TWI_SUCCESS];
        rewrite crun_bind, H2; cbv iota beta; cbn [negb Z.eqb TWI_SUCCESS];
        rewrite crun_bind, H3; cbn -[be_value Z.land Z.shiftr]; by rewrite ?Hv1, ?Hv2. }
    split; [done|]. split; [|done].
    rewrite Hl3, Hl2, Hl1. unfold access_events. cbn [access_frames map concat]. by rewrite app_nil_r, <- !app_assoc.
Qed.

(** On a bus that acknowledges, every access of every width succeeds and
    puts exactly its frames on the bus (the latched big-endian address, then
    the opcode with the big-endian data, or the opcode and the read of five
    bytes); a read consumes five received bytes and returns the big-endian
    value of the ones after the first. *)
Theorem access_on_the_bus garbage a c :
  access_ok a -> length garbage = 5%nat -> Forall is_u8 (rx_queue c) ->
  (access_consumes a <= length (rx_queue c))%nat ->
  let '(r, c') := crun (perform garbage a) c in
  r = Done (TWI_SUCCESS, access_result a (rx_queue c)) /\
  bus_log c' = bus_log c ++ access_events a /\
  rx_queue c' = drop (access_consumes a) (rx_queue c).
Proof. apply access_ready. Qed.
End acknowledged.

Example access_on_the_bus_witness :
  let c := Controller [] 0 [7; 0xDE; 0xAD; 0xBE; 0xEF] [] in
  let '(r, c') := crun (@perform hw (twi0_two_wire 2) [0; 0; 0; 0; 0] (ReadAccess W16 0x8000004C)) c in
  r = Done (TWI_SUCCESS, access_result (ReadAccess W16 0x8000004C) (rx_queue c)) /\
  bus_log c' = [] ++ access_events (ReadAccess W16 0x8000004C) /\ rx_queue c' = [].
Proof.
  apply (access_on_the_bus 0 [0; 0; 0; 0; 0] (ReadAccess W16 0x8000004C)
    (Controller [] 0 [7; 0xDE; 0xAD; 0xBE; 0xEF] []));
    [simpl; unfold is_u32; lia|done|repeat constructor; unfold is_u8; lia|simpl; lia].
Defined.

(** ** Failures

    The bus as calls of their own, whatever they answer. *)

Inductive busop := BusWrite (p : twi_packet) | BusRead (p : twi_packet) | BusInit (o : twi_options).

Definition bus_ans (e : busop) : Type :=
  match e with BusRead _ => Z * list Z | _ => Z end.

Definition bus_sig : Sig := {| op := busop; ans := bus_ans |}.

#[export] Instance bus_two_wire : TwoWire bus_sig := {|
  master_write p := @trigger bus_sig (BusWrite p);
  master_read p := @trigger bus_sig (BusRead p);
  master_init o := @trigger bus_sig (BusInit o)
|}.

(** What the last call means for the next one: after a failed transfer the
    controller has to be initialised again, and the access is given up. *)
Inductive bus_state := Usable | Failed (status : Z) | Reinitialised (status : Z).

Definition bus_req (e : op bus_sig) (s : bus_state) : Prop :=
  match e with
  | BusInit _ => exists status, s = Failed status
  | _ => s = Usable
  end.

Definition after_transfer (status : Z) (s : bus_state) : bus_state :=
  if status =? TWI_SUCCESS then s else Failed status.

Definition bus_step (e : op bus_sig) (s : bus_state) : ans bus_sig e -> bus_state -> Prop :=
  match e with
  | BusWrite _ => fun status s' => s' = after_transfer status s
  | BusRead p => fun r s' =>
      s' = after_transfer r.1 s /\ length r.2 = length (pk_buffer p)
  | BusInit _ => fun _ s' =>
      s' = match s with Failed status => Reinitialised status | s => s end
  end.

Definition bus_env : env bus_sig bus_state := {| req := bus_req; step := bus_step |}.

Lemma after_transfer_cases status s :
  (status = TWI_SUCCESS /\ after_transfer status s = s) \/
  (status <> TWI_SUCCESS /\ after_transfer status s = Failed status /\
   (status =? TWI_SUCCESS) = false).
Proof.
  unfold after_transfer. destruct (Z.eqb_spec status TWI_SUCCESS); [by left|by right].
Qed.

(** How a transfer that only writes leaves the bus. *)
Definition written (o : outcome Z) (s : bus_state) : Prop :=
  exists status, o = Done status /\
    s = if status =? TWI_SUCCESS then Usable else Reinitialised status.

Lemma send_written p :
  wp bus_env (let! status := master_write p in
    (if negb (status =? TWI_SUCCESS) then fpga_twi_reset else Ret tt);; Ret status) written Usable.
Proof.
  split; [done|]. intros status s' ->. simpl.
  destruct (after_transfer_cases status Usable) as [[-> ->]|(Hne & -> & Heq)].
  - by eexists.
  - rewrite Heq. simpl. split; [by eexists|]. intros _ s'' ->. eexists. by rewrite Heq.
Qed.

Lemma send_written' p :
  wp bus_env (let! status := master_write p in
    if negb (status =? TWI_SUCCESS) then fpga_twi_reset;; Ret status else Ret status) written Usable.
Proof.
  split; [done|]. intros status s' ->. simpl.
  destruct (after_transfer_cases status Usable) as [[-> ->]|(Hne & -> & Heq)].
  - by eexists.
  - rewrite Heq. simpl. split; [by eexists|]. intros _ s'' ->. eexists. by rewrite Heq.
Qed.

(** Going on after a transfer that succeeded, giving up after one that did not. *)
Lemma written_then {A} (p : prog bus_sig Z) (bail_out : Z -> prog bus_sig A) k Q :
  wp bus_env p written Usable ->
  (forall status, status <> TWI_SUCCESS -> wp bus_env (bail_out status) Q (Reinitialised status)) ->
  wp bus_env (k TWI_SUCCESS) Q Usable ->
  wp bus_env (let! status := p in
    if negb (status =? TWI_SUCCESS) then bail_out status else k status) Q Usable.
Proof.
  intros Hp Hg Hk. eapply wp_seq; [exact Hp|]. intros o s (status & -> & ->). simpl.
  destruct (Z.eqb_spec status TWI_SUCCESS) as [-> |Hne]; simpl; auto.
Qed.

(** The outcome of an access and the state it leaves the bus in. *)
Definition settled (a : access) (o : outcome (Z * option Z)) (s : bus_state) : Prop :=
  exists status data, o = Done (status, data) /\
    match a with
    | WriteAccess _ _ _ => data = None /\
        s = if status =? TWI_SUCCESS then Usable else Reinitialised status
    | ReadAccess _ _ =>
        (is_Some data <-> status = TWI_SUCCESS) /\
        (status = TWI_SUCCESS -> s = Usable \/ s = Reinitialised TWI_ERROR_TIMEOUT_COMP) /\
        (status <> TWI_SUCCESS -> s = Reinitialised status)
    end.

Definition answered (o : outcome (Z * option Z)) (s : bus_state) : Prop :=
  settled (ReadAccess W32 0) o s.

Lemma read_data_answered garbage :
  length garbage = 5%nat -> wp bus_env (fpga_read_data garbage) answered Usable.
Proof.
  intros Hg. split; [done|]. intros [status buffer] s' [-> Hl]. simpl in *.
  assert (forall s, s = Usable \/ s = Reinitialised TWI_ERROR_TIMEOUT_COMP -> wp bus_env (
    let! b1 := defined (buffer !! 1%nat) in
    let! b2 := defined (buffer !! 2%nat) in
    let! b3 := defined (buffer !! 3%nat) in
    let! b4 := defined (buffer !! 4%nat) in
    Ret (TWI_SUCCESS,
         Some (Z.lor (Z.lor (Z.lor (u32 (Z.shiftl b1 24)) (u32 (Z.shiftl b2 16)))
                        (u32 (Z.shiftl b3 8))) b4))) answered s) as Hgood.
  { intros s Hs. rewrite Hg in Hl.
    destruct buffer as [|b0 [|b1 [|b2 [|b3 [|b4 [|]]]]]]; try discriminate Hl.
    eexists _, _. split; [reflexivity|]. split; [done|]. split; [done|]. by intros []. }
  destruct (after_transfer_cases status Usable) as [[-> ->]|(Hne & -> & Heq)].
  - apply Hgood. by left.
  - rewrite Heq. simpl. split; [by eexists|]. intros _ s'' ->.
    destruct (Z.eqb_spec status TWI_ERROR_TIMEOUT_COMP) as [-> |]; simpl.
    + apply Hgood. by right.
    + eexists _, _. split; [reflexivity|]. split; [|by split].
      split; [by intros [? ?]|done].
Qed.

Lemma read_access_settled garbage address command (w : width) :
  length garbage = 5%nat ->
  forall (get : Z -> option Z -> prog bus_sig (Z * option Z)),
  (forall status data, (is_Some data <-> status = TWI_SUCCESS) ->
     get status data = Ret (status, data) \/ exists v, is_Some data /\ get status data = Ret (status, Some v)) ->
  wp bus_env (
    let! status := fpga_write_opb_address address in
    if negb (status =? TWI_SUCCESS) then Ret (status, None)
    else
      let! status := fpga_write_command command in
      if negb (status =? TWI_SUCCESS) then Ret (status, None)
      else let! (status, data) := fpga_read_data garbage in get status data)
    (settled (ReadAccess w address)) Usable.
Proof.
  intros Hg get Hget.
  assert (forall status, status <> TWI_SUCCESS -> wp bus_env (Ret (status, None))
    (settled (ReadAccess w address)) (Reinitialised status)) as Hfail.
  { intros status Hne. eexists _, _. split; [reflexivity|]. split; [|by split].
    split; [by intros []|done]. }
  apply written_then; [apply send_written|done|].
  apply (written_then (fpga_write_command command)); [apply send_written|done|].
  eapply wp_seq; [by apply read_data_answered|]. intros o s (status & data & -> & Hd & Hs & Hs').
  simpl. destruct (Hget status data Hd) as [-> |(v & Hv & ->)];
    (eexists _, _; split; [reflexivity|]); [by split|].
  split; [|by split]. split; [intros _; by apply Hd|done].
Qed.

(** C37: Whatever the bus answers, an access returns, never uses the bus again
    after a failed transfer, has re-initialised the controller before it
    returns, reports the status of the transfer that failed, and stores a value
    exactly when it reports success; the only failure it forgives is the
    timeout after the last byte of the final read. *)
Theorem access_recovers garbage a :
  length garbage = 5%nat -> wp bus_env (perform garbage a) (settled a) Usable.
Proof.
  intros Hg. destruct a as [w address data|w address].
  - simpl perform. apply (wp_seq bus_env _ _ written).
    + destruct w; (apply written_then; [apply send_written|intros st Hne; exists st; split; [done|]
      |apply send_written']); by rewrite (proj2 (Z.eqb_neq _ _)).
    + intros o s (status & -> & ->). eexists _, _. by split.
  - destruct w; apply read_access_settled; try done; intros status data Hd;
      destruct (Z.eqb_spec status TWI_SUCCESS) as [-> |Hne]; simpl.
    1, 3: right; destruct (proj2 Hd eq_refl) as [v ->]; eexists; split; [done|reflexivity].
    1, 2: left; destruct data as [v|]; [|done]; destruct Hne; by apply Hd.
    all: by left.
Qed.

Example access_recovers_witness :
  wp bus_env (perform [1; 2; 3; 4; 5] (ReadAccess W8 0x80000000))
    (settled (ReadAccess W8 0x80000000)) Usable.
Proof. by apply access_recovers. Defined.

(** ** What clients of the FPGA functions rely on *)

(** The functions declared in evm300.h that access registers of the FPGA. *)
Class Opb (E : Sig) := {
  opb_read_byte : Z -> prog E (Z * option Z);
  opb_read_short : Z -> prog E (Z * option Z);
  opb_read_long : Z -> prog E (Z * option Z);
  opb_write_byte : Z -> Z -> prog E Z;
  opb_write_short : Z -> Z -> prog E Z;
  opb_write_long : Z -> Z -> prog E Z
}.

(** A read that reports success has stored a value. *)
Definition stores (p : Z * option Z) : Prop := p.1 = TWI_SUCCESS -> is_Some p.2.

Class OpbLaws (E : Sig) `{Opb E} : Prop := {
  opb_read_byte_stores a : returns stores (opb_read_byte a);
  opb_read_short_stores a : returns stores (opb_read_short a);
  opb_read_long_stores a : returns stores (opb_read_long a)
}.

Section opb_over_two_wire.
Context {E : Sig} `{TwoWire E} (garbage : list Z).

#[export] Instance two_wire_opb : Opb E := {|
  opb_read_byte := fpga_read_byte garbage;
  opb_read_short := fpga_read_short garbage;
  opb_read_long := fpga_read_long garbage;
  opb_write_byte := fpga_write_byte;
  opb_write_short := fpga_write_short;
  opb_write_long := fpga_write_long
|}.

Lemma stores_unless status : (status =? TWI_SUCCESS) = false -> stores (status, None).
Proof. intros Hs%Z.eqb_neq H0. by destruct Hs. Qed.

Lemma returns_of_defined {A} (P : A -> Prop) (o : option A) :
  (forall a, o = Some a -> P a) -> returns P (@defined E A o).
Proof. destruct o; simpl; auto. Qed.

Lemma read_data_stores : returns stores (fpga_read_data garbage).
Proof.
  unfold fpga_read_data. eapply returns_bind; [apply returns_any|intros [status buffer] _].
  eapply returns_bind; [apply returns_any|intros ? _].
  destruct (status =? TWI_SUCCESS) eqn:?; simpl negb; cbv iota; simpl andb; cbv iota.
  2: destruct (status =? TWI_ERROR_TIMEOUT_COMP); simpl negb; cbv iota; [|by apply stores_unless].
  all: repeat (eapply returns_bind; [apply returns_any|intros ? _]); intros _; by eexists.
Qed.

Ltac stores_tac :=
  repeat match goal with
  | |- returns _ (bind (defined _) _) =>
    eapply returns_bind; [by apply returns_of_defined|intros ? _]
  | |- returns _ (bind (fpga_read_data _) _) => eapply returns_bind; [apply read_data_stores|intros [? ?] ?]
  | |- returns _ (bind _ _) => eapply returns_bind; [apply returns_any|intros ? _]
  | |- returns _ (if negb (?s =? TWI_SUCCESS) then _ else _) =>
    destruct (s =? TWI_SUCCESS) eqn:?; simpl negb; cbv iota
  | |- returns _ (Ret _) => first [assumption|by apply stores_unless|intros _; by eexists]
  end.

#[export] Instance two_wire_opb_laws : OpbLaws E.
Proof.
  split; intros a; simpl; [unfold fpga_read_byte|unfold fpga_read_short|unfold fpga_read_long];
    stores_tac.
Qed.
End opb_over_two_wire.
