(* ===== verification/Pbuf.v ===== *)
(** * lwIP packet buffers (src/src/ASF/thirdparty/lwip/lwip-1.4.0/src/core/pbuf.c)

    The operations on pbuf chains that the XVC server and the UDP server rest
    on.  A chain is the list of its pbufs; [hidden] are the bytes between the
    pbuf structure and its payload pointer, so that moving the pointer keeps
    the bytes it passes.  The port defines [LWIP_PLATFORM_ASSERT] as
    [do {} while(1)] (its body is commented out in arch/cc.h), so a failing
    [LWIP_ERROR] never reaches its handler: it is the stop [Hang].
    [LWIP_ASSERT] is compiled out ([LWIP_NOASSERT]). *)

From S2P Require Import Prelude Prog.

Inductive pbuf_type := PBUF_RAM | PBUF_ROM | PBUF_REF | PBUF_POOL.

#[global] Instance pbuf_type_eq_dec : EqDecision pbuf_type.
Proof. solve_decision. Defined.

Record pbuf := Pbuf {
  pb_type : pbuf_type;
  hidden : list Z;
  payload : list Z;
  tot_len : Z;
  ref : Z
}.

Definition len (p : pbuf) : Z := Z.of_nat (length (payload p)).

(** The bytes of a packet. *)
Definition flat (q : list pbuf) : list Z := concat (map payload q).
Arguments flat : simpl never.

Definition obind {A B} (o : outcome A) (f : A -> outcome B) : outcome B :=
  match o with Done a => f a | Stop h => Stop h end.
Notation "'let?' x := p 'in' q" := (obind p (fun x => q))
  (at level 10, x pattern, p at level 99, q at level 200) : prog_scope.

(** [LWIP_ERROR(message, b, handler)]: an endless loop when [b] is false. *)
Definition LWIP_ERROR (b : bool) : outcome unit := if b then Done tt else Stop Hang.

Definition set_payload (p : pbuf) (h d : list Z) (t : Z) : pbuf :=
  {| pb_type := pb_type p; hidden := h; payload := d; tot_len := t; ref := ref p |}.
Definition set_tot_len (p : pbuf) (t : Z) : pbuf := set_payload p (hidden p) (payload p) t.
Definition set_ref (p : pbuf) (r : Z) : pbuf :=
  {| pb_type := pb_type p; hidden := hidden p; payload := payload p;
     tot_len := tot_len p; ref := r |}.

(** The new lengths are [u16_t]s; the payload itself is cut or extended by the
    bytes the pointer moved over. *)
Definition pbuf_header (p : pbuf) (header_size_increment : Z) : outcome (Z * pbuf) :=
  if header_size_increment =? 0 then Done (0, p)
  else if header_size_increment <? 0 then
    let increment_magnitude := u16 (- header_size_increment) in
    let? _ := LWIP_ERROR (increment_magnitude <=? len p) in
    let n := Z.to_nat increment_magnitude in
    Done (0, set_payload p (hidden p ++ take n (payload p)) (drop n (payload p))
               (u16 (tot_len p + header_size_increment)))
  else
    let n := Z.to_nat header_size_increment in
    let h := length (hidden p) in
    match pb_type p with
    | PBUF_RAM | PBUF_POOL =>
      if decide (h < n)%nat then Done (1, p)
      else Done (0, set_payload p (take (h - n) (hidden p))
                      (drop (h - n) (hidden p) ++ payload p)
                      (u16 (tot_len p + header_size_increment)))
    | PBUF_REF | PBUF_ROM => Done (1, p)
    end.

(** Drops one reference to the head; the pbufs of the head of the chain whose
    count becomes zero are deallocated.  Result: how many were, and what is
    left of the chain. *)
Fixpoint pbuf_free_loop (q : list pbuf) (count : Z) : Z * list pbuf :=
  match q with
  | [] => (count, [])
  | p :: q' =>
    let r := u16 (ref p - 1) in
    if r =? 0 then pbuf_free_loop q' (u8 (count + 1))
    else (count, set_ref p r :: q')
  end.
Definition pbuf_free (q : list pbuf) : Z * list pbuf := pbuf_free_loop q 0.

Fixpoint pbuf_clen_loop (q : list pbuf) (n : Z) : Z :=
  match q with [] => n | _ :: q' => pbuf_clen_loop q' (u8 (n + 1)) end.
Definition pbuf_clen (q : list pbuf) : Z := pbuf_clen_loop q 0.

Definition pbuf_ref (q : list pbuf) : list pbuf :=
  match q with [] => [] | p :: q' => set_ref p (u16 (ref p + 1)) :: q' end.

Definition head_tot_len (q : list pbuf) : Z :=
  match q with [] => 0 | p :: _ => tot_len p end.

Definition pbuf_cat (h t : list pbuf) : outcome (list pbuf) :=
  let? _ := LWIP_ERROR (match h, t with _ :: _, _ :: _ => true | _, _ => false end) in
  Done (map (fun p => set_tot_len p (u16 (tot_len p + head_tot_len t))) h ++ t).

Definition pbuf_chain (h t : list pbuf) : outcome (list pbuf) :=
  let? r := pbuf_cat h t in
  Done (take (length h) r ++ pbuf_ref (drop (length h) r)).

(** Result: the head on its own, and what is left of the rest. *)
Definition pbuf_dechain (q : list pbuf) : outcome (pbuf * list pbuf) :=
  match q with
  | [] => Stop Undefined
  | [p] => Done (p, [])
  | p :: r :: rs =>
    let r' := set_tot_len r (u16 (tot_len p - len p)) in
    let p' := set_tot_len p (len p) in
    let '(tail_gone, rest) := pbuf_free (r' :: rs) in
    Done (p', if 0 <? tail_gone then [] else rest)
  end.

(** The bytes copied to the caller's buffer, in order. *)
Fixpoint pbuf_copy_loop (q : list pbuf) (l offset : Z) : list Z :=
  if l =? 0 then []
  else match q with
  | [] => []
  | p :: q' =>
    if negb (offset =? 0) && (len p <=? offset)
    then pbuf_copy_loop q' l (u16 (offset - len p))
    else
      let buf_copy_len := u16 (len p - offset) in
      let buf_copy_len := if l <? buf_copy_len then l else buf_copy_len in
      take (Z.to_nat buf_copy_len) (drop (Z.to_nat offset) (payload p))
      ++ pbuf_copy_loop q' (u16 (l - buf_copy_len)) 0
  end.

Definition pbuf_copy_partial (q : list pbuf) (l offset : Z) : outcome (list Z * Z) :=
  let? _ := LWIP_ERROR (match q with [] => false | _ => true end) in
  let bs := pbuf_copy_loop q (u16 l) (u16 offset) in
  Done (bs, u16 (Z.of_nat (length bs))).

Definition ERR_OK : Z := 0.
Definition ERR_ARG : Z := -14.

Fixpoint pbuf_take_loop (q : list pbuf) (data : list Z) (total_copy_len : Z)
    : outcome (list pbuf) :=
  if total_copy_len =? 0 then Done q
  else match q with
  | [] => Stop Undefined
  | p :: q' =>
    let n := if len p <? total_copy_len then len p else total_copy_len in
    let k := Z.to_nat n in
    let? q2 := pbuf_take_loop q' (drop k data) (u16 (total_copy_len - n)) in
    Done (set_payload p (hidden p) (take k data ++ drop k (payload p)) (tot_len p) :: q2)
  end.

(** [data] holds [l] bytes at least. *)
Definition pbuf_take (q : list pbuf) (data : list Z) (l : Z) : outcome (Z * list pbuf) :=
  match q with
  | [] => Stop Hang
  | p :: _ =>
    if tot_len p <? l then Done (ERR_ARG, q)
    else let? q' := pbuf_take_loop q data l in Done (ERR_OK, q')
  end.

Fixpoint pbuf_get_at (q : list pbuf) (offset : Z) : Z :=
  match q with
  | [] => 0
  | p :: q' =>
    if len p <=? offset then pbuf_get_at q' (u16 (offset - len p))
    else nth (Z.to_nat offset) (payload p) 0
  end.

(** The rest of the chain that holds byte [start], and its index there. *)
Fixpoint pbuf_skip (q : list pbuf) (start : Z) : list pbuf * Z :=
  match q with
  | [] => ([], start)
  | p :: q' => if len p <=? start then pbuf_skip q' (u16 (start - len p)) else (q, start)
  end.

Fixpoint pbuf_memcmp_loop (q : list pbuf) (start : Z) (s2 : list Z) (i : Z) : Z :=
  match s2 with
  | [] => 0
  | b :: s2' =>
    if pbuf_get_at q (u16 (start + i)) =? b
    then pbuf_memcmp_loop q start s2' (u16 (i + 1)) else u16 (i + 1)
  end.

(** [n] is the length of [s2]. *)
Definition pbuf_memcmp (q : list pbuf) (offset : Z) (s2 : list Z) : Z :=
  match pbuf_skip q offset with
  | ([], _) => 0xffff
  | (q', start) => pbuf_memcmp_loop q' start s2 0
  end.

(** [fuel] is the number of comparisons; [i] grows by one at least each time,
    so one more than the packet is long is enough. *)
Fixpoint pbuf_memfind_loop (fuel : nat) (q : list pbuf) (mem : list Z) (max i : Z)
    : outcome Z :=
  match fuel with
  | O => Stop OutOfFuel
  | S n =>
    if max <? i then Done 0xFFFF
    else
      let plus := pbuf_memcmp q i mem in
      if plus =? 0 then Done i else pbuf_memfind_loop n q mem max (u16 (i + plus))
  end.

Definition pbuf_memfind (q : list pbuf) (mem : list Z) (start_offset : Z) : outcome Z :=
  match q with
  | [] => Stop Undefined
  | p :: _ =>
    let mem_len := Z.of_nat (length mem) in
    let max := u16 (tot_len p - mem_len) in
    if mem_len + start_offset <=? tot_len p
    then pbuf_memfind_loop (S (Z.to_nat 65536)) q mem max start_offset
    else Done 0xFFFF
  end.

Definition pbuf_strstr (q : list pbuf) (substr : list Z) : outcome Z :=
  match q with
  | [] => Stop Undefined
  | p :: _ =>
    if (match substr with [] => true | _ => false end) || (tot_len p =? 0xFFFF)
       || (0xFFFF <=? Z.of_nat (length substr))
    then Done 0xFFFF
    else pbuf_memfind q substr 0
  end.

(** ** Well-formed chains

    [wf_chain]: every [tot_len] is the length of the rest of the packet and
    fits 16 bits; [live]: every reference count is a positive [u16_t]. *)

Fixpoint wf_chain (q : list pbuf) : Prop :=
  match q with
  | [] => True
  | p :: q' =>
    (tot_len p = Z.of_nat (length (flat q)) /\ tot_len p < 2 ^ 16) /\ wf_chain q'
  end.

Definition live (q : list pbuf) : Prop := Forall (fun p => 0 < ref p < 2 ^ 16) q.

(** No payload is longer than its 16-bit [len] can say. *)
Definition small (q : list pbuf) : Prop := Forall (fun p => len p < 2 ^ 16) q.

Lemma flat_cons p q : flat (p :: q) = payload p ++ flat q.
Proof. done. Qed.
Lemma flat_app q r : flat (q ++ r) = flat q ++ flat r.
Proof. unfold flat. by rewrite map_app, concat_app. Qed.
Lemma len_nat p : Z.to_nat (len p) = length (payload p).
Proof. unfold len. lia. Qed.
Lemma len_nonneg p : 0 <= len p.
Proof. unfold len. lia. Qed.
#[export] Hint Resolve len_nonneg : fw.

Lemma wf_chain_small q : wf_chain q -> small q.
Proof.
  induction q as [|p q IH]; simpl; intros Hw; constructor.
  - destruct Hw as [[Ht Hw] _]. rewrite Ht, flat_cons, length_app in Hw. unfold len. lia.
  - apply IH, Hw.
Qed.

(** ** Reading *)

Lemma copy_loop_eq q l offset :
  small q -> is_u16 l -> is_u16 offset ->
  pbuf_copy_loop q l offset = take (Z.to_nat l) (drop (Z.to_nat offset) (flat q)).
Proof.
  unfold is_u16. revert l offset.
  induction q as [|p q IH]; intros l offset Hs Hl Ho; simpl.
  { change (flat []) with (@nil Z). rewrite drop_nil, take_nil. by destruct (l =? 0). }
  inversion Hs; subst. pose proof (len_nonneg p). pose proof (len_nat p) as Hn.
  destruct (Z.eqb_spec l 0) as [-> |Hl0]; [done|].
  rewrite flat_cons.
  destruct (negb (offset =? 0) && (len p <=? offset)) eqn:Hskip.
  - apply andb_true_iff in Hskip as [? ?]. to_prop.
    rewrite u16_id by (unfold is_u16; lia). rewrite IH by (done || lia).
    rewrite drop_app_ge by lia. f_equal. f_equal. lia.
  - assert (offset <= len p) as Hle.
    { apply andb_false_iff in Hskip as [? | ?]; to_prop; lia. }
    rewrite (u16_id (len p - offset)) by (unfold is_u16; lia).
    rewrite drop_app_le by lia.
    destruct (Z.ltb_spec l (len p - offset)).
    + rewrite Z.sub_diag. change (u16 0) with 0.
      rewrite IH by (done || lia). change (Z.to_nat 0) with 0%nat.
      rewrite take_0, app_nil_r, take_app_le; [done|]. rewrite length_drop. lia.
    + rewrite u16_id by (unfold is_u16; lia). rewrite IH by (done || lia).
      rewrite take_app, !length_drop, drop_0. f_equal.
      * rewrite !firstn_all2; [done|rewrite length_drop; lia..].
      * f_equal. lia.
Qed.

Lemma pbuf_copy_partial_eq q l offset :
  small q -> is_u16 l -> is_u16 offset -> q <> [] ->
  pbuf_copy_partial q l offset =
  let bs := take (Z.to_nat l) (drop (Z.to_nat offset) (flat q)) in
  Done (bs, Z.of_nat (length bs)).
Proof.
  unfold is_u16. intros Hs Hl Ho Hq. unfold pbuf_copy_partial.
  rewrite !u16_id by done. rewrite copy_loop_eq by done.
  destruct q; [done|]. simpl. rewrite u16_id; [done|].
  unfold is_u16. rewrite length_take. lia.
Qed.

Lemma pbuf_get_at_eq q offset :
  is_u16 offset -> pbuf_get_at q offset = nth (Z.to_nat offset) (flat q) 0.
Proof.
  unfold is_u16. revert offset. induction q as [|p q IH]; intros offset Ho; simpl.
  { by destruct (Z.to_nat offset). }
  pose proof (len_nonneg p). pose proof (len_nat p) as Hn. rewrite flat_cons.
  destruct (Z.leb_spec (len p) offset).
  - rewrite u16_id by (unfold is_u16; lia). rewrite IH by lia.
    rewrite app_nth2 by lia. f_equal. lia.
  - rewrite app_nth1 by lia. done.
Qed.

(** Moving the payload pointer forward inside the head's payload. *)
Lemma pbuf_header_hide p n :
  is_u16 (Z.of_nat n) -> (n <= length (payload p))%nat -> exists p',
    pbuf_header p (- Z.of_nat n) = Done (0, p') /\
    payload p' = drop n (payload p) /\ hidden p' = hidden p ++ take n (payload p) /\
    pb_type p' = pb_type p /\ ref p' = ref p /\
    (is_u16 (tot_len p - Z.of_nat n) -> tot_len p' = tot_len p - Z.of_nat n).
Proof.
  unfold is_u16. intros Hn Hl. unfold pbuf_header.
  destruct (Z.eqb_spec (- Z.of_nat n) 0).
  { assert (n = 0%nat) as -> by lia. exists p. rewrite drop_0, take_0, app_nil_r.
    repeat split. lia. }
  rewrite (proj2 (Z.ltb_lt _ _)) by lia. rewrite Z.opp_involutive, u16_id by done.
  unfold LWIP_ERROR, len. rewrite (proj2 (Z.leb_le _ _)) by lia. simpl.
  rewrite Nat2Z.id. eexists. repeat split. simpl. unfold is_u16. intros ?. rewrite u16_id; unfold is_u16; lia.
Qed.

(** Moving it past the end of the head's payload never returns. *)
Lemma pbuf_header_hang p n :
  is_u16 (Z.of_nat n) -> (length (payload p) < n)%nat ->
  pbuf_header p (- Z.of_nat n) = Stop Hang.
Proof.
  unfold is_u16. intros Hn Hl. unfold pbuf_header.
  rewrite (proj2 (Z.eqb_neq _ _)) by lia. rewrite (proj2 (Z.ltb_lt _ _)) by lia.
  rewrite Z.opp_involutive, u16_id by done.
  unfold LWIP_ERROR, len. by rewrite (proj2 (Z.leb_gt _ _)) by lia.
Qed.
