(* ===== verification/Chksum.v ===== *)
(** * Internet checksums (inet_chksum.c)

    src/src/ASF/thirdparty/lwip/lwip-1.4.0/src/core/ipv4/inet_chksum.c with
    [LWIP_CHKSUM_ALGORITHM] 2, on a little-endian processor; the byte order
    functions of def.c.  The address of a buffer matters by its parity only:
    [odd]. *)

From S2P Require Import Prelude Prog Pbuf.

(** ** Byte order (def.c) *)

Definition lwip_htons (n : Z) : Z :=
  Z.lor (Z.shiftl (Z.land n 0xff) 8) (Z.shiftr (Z.land n 0xff00) 8).
Definition lwip_ntohs (n : Z) : Z := lwip_htons n.

Definition SWAP_BYTES_IN_WORD (w : Z) : Z :=
  Z.lor (Z.shiftl (Z.land w 0xff) 8) (Z.shiftr (Z.land w 0xff00) 8).
Definition FOLD_U32T (u : Z) : Z := u32 (Z.shiftr u 16 + Z.land u 0x0000ffff).

(** ** One buffer *)

(** [while (len > 1) sum += *ps++]: half-words, low byte first; what is left. *)
Fixpoint add_words (sum : Z) (ps : list Z) : Z * list Z :=
  match ps with
  | lo :: hi :: ps => add_words (u32 (sum + (lo + 256 * hi))) ps
  | _ => (sum, ps)
  end.

(** [((u8_t * )&t)[1] = b] and [((u8_t * )&t)[0] = b]. *)
Definition set_high (t b : Z) : Z := Z.lor (Z.land t 0xff) (Z.shiftl b 8).
Definition set_low (t b : Z) : Z := Z.lor (Z.land t 0xff00) b.

Definition lwip_standard_chksum (odd : bool) (data : list Z) : Z :=
  let '(t, pb) :=
    match data with
    | b :: pb => if odd then (set_high 0 b, pb) else (0, data)
    | [] => (0, [])
    end in
  let '(sum, ps) := add_words 0 pb in
  let t := match ps with b :: _ => set_low t b | [] => t end in
  let sum := u32 (sum + t) in
  let sum := FOLD_U32T sum in
  let sum := FOLD_U32T sum in
  let sum := if odd then SWAP_BYTES_IN_WORD sum else sum in
  u16 sum.

Definition inet_chksum (odd : bool) (data : list Z) : Z :=
  u16 (Z.lnot (lwip_standard_chksum odd data)).

(** ** Chains *)

Section chain.
(** The parity of the payload address of each pbuf. *)
Context (odd : nat -> bool).

(** [i] pbufs are done. *)
Fixpoint chksum_loop (i : nat) (q : list pbuf) (acc swapped : Z) : Z * Z :=
  match q with
  | [] => (acc, swapped)
  | p :: q =>
    let acc := u32 (acc + lwip_standard_chksum (odd i) (payload p)) in
    let acc := FOLD_U32T acc in
    if negb (len p mod 2 =? 0)
    then chksum_loop (S i) q (SWAP_BYTES_IN_WORD acc) (u8 (1 - swapped))
    else chksum_loop (S i) q acc swapped
  end.

Definition unswap (r : Z * Z) : Z :=
  let '(acc, swapped) := r in if negb (swapped =? 0) then SWAP_BYTES_IN_WORD acc else acc.

Definition inet_chksum_pbuf (p : list pbuf) : Z :=
  let acc := unswap (chksum_loop 0 p 0 0) in
  u16 (Z.lnot (Z.land acc 0xffff)).

(** The end of the functions with a pseudo header: addresses in network order. *)
Definition add_pseudo (acc src dest proto proto_len : Z) : Z :=
  let acc := u32 (acc + Z.land src 0xffff) in
  let acc := u32 (acc + Z.land (Z.shiftr src 16) 0xffff) in
  let acc := u32 (acc + Z.land dest 0xffff) in
  let acc := u32 (acc + Z.land (Z.shiftr dest 16) 0xffff) in
  let acc := u32 (acc + lwip_htons (u16 proto)) in
  let acc := u32 (acc + lwip_htons proto_len) in
  let acc := FOLD_U32T acc in
  let acc := FOLD_U32T acc in
  u16 (Z.lnot (Z.land acc 0xffff)).

Definition inet_chksum_pseudo (p : list pbuf) (src dest proto proto_len : Z) : Z :=
  add_pseudo (unswap (chksum_loop 0 p 0 0)) src dest proto proto_len.

(** The first [chksum_len] bytes only. *)
Fixpoint partial_loop (i : nat) (q : list pbuf) (chksum_len acc swapped : Z) : Z * Z :=
  match q with
  | [] => (acc, swapped)
  | p :: q =>
    if 0 <? chksum_len then
      let chklen := if chksum_len <? len p then chksum_len else len p in
      let acc := u32 (acc + lwip_standard_chksum (odd i) (take (Z.to_nat chklen) (payload p))) in
      let chksum_len := u16 (chksum_len - chklen) in
      let acc := FOLD_U32T acc in
      if negb (len p mod 2 =? 0)
      then partial_loop (S i) q chksum_len (SWAP_BYTES_IN_WORD acc) (u8 (1 - swapped))
      else partial_loop (S i) q chksum_len acc swapped
    else (acc, swapped)
  end.

Definition inet_chksum_pseudo_partial (p : list pbuf) (src dest proto proto_len chksum_len : Z) : Z :=
  add_pseudo (unswap (partial_loop 0 p chksum_len 0 0)) src dest proto proto_len.
End chain.
