(* ===== verification/ChksumSpec.v ===== *)
(** * The Internet checksum

    The routines of Chksum.v against the definition of RFC 1071: the one's
    complement sum of the 16-bit words of a message.  Whatever the alignment of
    the buffers and however a message is cut into pbufs, the sum is that of the
    message; a message with its checksum in place verifies, and one with a
    changed word does not. *)

From S2P Require Import Prelude Prog Pbuf Chksum.

(** ** The definition *)

(** The 16-bit words of a message, in the byte order of the processor; an odd
    byte is followed by zero. *)
Fixpoint words (bs : list Z) : list Z :=
  match bs with
  | lo :: hi :: bs => lo + 256 * hi :: words bs
  | [b] => [b]
  | [] => []
  end.

(** Addition with the carry added at the other end. *)
Definition ones_add (a b : Z) : Z := if a + b <=? 0xffff then a + b else a + b - 0xffff.
Definition ones_sum (ws : list Z) : Z := foldr ones_add 0 ws.

(** ** Sums modulo 65535

    [a] stands for the sum [s]: zero, which has two representations, is told
    apart from 65535. *)
Definition sums (a s : Z) : Prop :=
  0 <= a <= 0xffff /\ 0 <= s /\ a mod 0xffff = s mod 0xffff /\ (a = 0 <-> s = 0).

Lemma sums_unique a b s : sums a s -> sums b s -> a = b.
Proof. unfold sums. intros (Ha & _ & Hm & Hz) (Hb & _ & Hm' & Hz'). Z.to_euclidean_division_equations. lia. Qed.

Lemma sums_zero : sums 0 0.
Proof. unfold sums. lia. Qed.

Lemma sums_self a : 0 <= a <= 0xffff -> sums a a.
Proof. unfold sums. lia. Qed.

Lemma ones_add_sums a b s t : sums a s -> sums b t -> sums (ones_add a b) (s + t).
Proof.
  unfold sums, ones_add. intros (Ha & Hs & Hm & Hz) (Hb & Ht & Hm' & Hz').
  destruct (Z.leb_spec (a + b) 0xffff); Z.to_euclidean_division_equations; lia.
Qed.

(** The plain sum. *)
Definition sum_words (ws : list Z) : Z := foldr Z.add 0 ws.

Definition is_words (ws : list Z) : Prop := Forall is_u16 ws.

Lemma ones_sum_sums ws : is_words ws -> sums (ones_sum ws) (sum_words ws).
Proof.
  induction 1 as [|w ws Hw _ IH]; [apply sums_zero|]. cbn [ones_sum sum_words foldr].
  apply ones_add_sums; [|done]. apply sums_self. unfold is_u16 in Hw. lia.
Qed.

(** ** Messages *)

(** Induction two bytes at a time. *)
Lemma pairs_ind {A} (P : list A -> Prop) : P [] -> (forall a, P [a]) ->
  (forall a b l, P l -> P (a :: b :: l)) -> forall l, P l.
Proof.
  intros H0 H1 H2. assert (forall l, P l /\ forall a, P (a :: l)) as H; [|intros l; apply H].
  induction l as [|b l [IH IH']]; split; auto.
Qed.

(** The plain sum of a message. *)
Definition msum (bs : list Z) : Z := sum_words (words bs).

Lemma msum_two a b bs : msum (a :: b :: bs) = a + 256 * b + msum bs.
Proof. done. Qed.

Lemma words_u16 bs : Forall is_u8 bs -> is_words (words bs).
Proof.
  induction bs as [|a|a b bs IH] using pairs_ind; intros H8; [constructor|..];
    apply list.Forall_cons in H8 as [Ha H8]; unfold is_u8 in Ha.
  - repeat constructor; lia.
  - apply list.Forall_cons in H8 as [Hb H8]. unfold is_u8 in Hb. constructor; [unfold is_u16; lia|by apply IH].
Qed.

Lemma sum_words_app v w : sum_words (v ++ w) = sum_words v + sum_words w.
Proof. induction v as [|x v IH]; cbn [app sum_words foldr] in *; [done|]. unfold sum_words in *. lia. Qed.

Lemma msum_nonneg bs : Forall is_u8 bs -> 0 <= msum bs.
Proof.
  induction bs as [|a|a b bs IH] using pairs_ind; intros H8; [done|..]; apply list.Forall_cons in H8 as [Ha H8];
    unfold is_u8 in Ha.
  - unfold msum. cbn. lia.
  - apply list.Forall_cons in H8 as [Hb H8]. unfold is_u8 in Hb. specialize (IH H8). rewrite msum_two. lia.
Qed.

Lemma msum_bound bs : Forall is_u8 bs ->
  msum bs <= 0xffff * (Z.of_nat (length bs) / 2) + 255 * (Z.of_nat (length bs) mod 2).
Proof.
  induction bs as [|a|a b bs IH] using pairs_ind; intros H8; [done|..]; apply list.Forall_cons in H8 as [Ha H8];
    unfold is_u8 in Ha.
  - change (msum [a]) with (a + 0). change (0xffff * (Z.of_nat (length [a]) / 2) + 255 * (Z.of_nat (length [a]) mod 2)) with 255. lia.
  - apply list.Forall_cons in H8 as [Hb H8]. unfold is_u8 in Hb. specialize (IH H8). rewrite msum_two.
    cbn [length]. Z.to_euclidean_division_equations. lia.
Qed.

Lemma msum_even a b : Nat.even (length a) = true -> msum (a ++ b) = msum a + msum b.
Proof.
  induction a as [|x|x y a IH] using pairs_ind; intros He; [done..|].
  cbn [app]. rewrite !msum_two, IH by done. lia.
Qed.

Lemma msum_zero bs : Forall is_u8 bs -> msum bs = 0 <-> Forall (fun b => b = 0) bs.
Proof.
  induction bs as [|a|a b bs IH] using pairs_ind; intros H8; [by split|..]; apply list.Forall_cons in H8 as [Ha H8];
    unfold is_u8 in Ha.
  - rewrite list.Forall_singleton. unfold msum. cbn. lia.
  - apply list.Forall_cons in H8 as [Hb H8]. unfold is_u8 in Hb. specialize (IH H8). pose proof (msum_nonneg _ H8).
    rewrite msum_two, !list.Forall_cons, <- IH. lia.
Qed.

(** One byte further every word is rotated. *)
Lemma msum_shift b bs : exists k, b + 256 * msum bs = msum (b :: bs) + 0xffff * k.
Proof.
  revert b. induction bs as [|c|c d bs IH] using pairs_ind; intros b.
  - exists 0. unfold msum. cbn. lia.
  - exists 0. unfold msum. cbn. lia.
  - destruct (IH d) as [k Hk]. exists (k + d). rewrite !msum_two. lia.
Qed.

(** What stands for the sum of a message [bs], seen one byte further. *)
Lemma sums_shift x b bs : is_u8 b -> Forall is_u8 bs -> sums x (b + 256 * msum bs) -> sums x (msum (b :: bs)).
Proof.
  intros Hb H8 (Hx & Hs & Hm & Hz). destruct (msum_shift b bs) as [k Hk].
  assert (Forall is_u8 (b :: bs)) as H8' by (by apply list.Forall_cons).
  pose proof (msum_nonneg _ H8'). pose proof (msum_nonneg _ H8).
  split; [done|]. split; [done|]. split.
  - rewrite Hm, Hk. by rewrite (Z.mul_comm 0xffff), Z_mod_plus_full.
  - rewrite Hz, (msum_zero _ H8'), list.Forall_cons, <- (msum_zero _ H8). unfold is_u8 in Hb. lia.
Qed.

(** ** The operations on sums *)

Lemma fold_eq u : 0 <= u < 2 ^ 32 -> FOLD_U32T u = u / 65536 + u mod 65536.
Proof.
  intros Hu. unfold FOLD_U32T. change 0xffff with (Z.ones 16).
  rewrite Z.land_ones, Z.shiftr_div_pow2 by lia. change (2 ^ 16) with 65536.
  apply u32_id. unfold is_u32. change (2 ^ 32) with 4294967296 in *. Z.to_euclidean_division_equations. lia.
Qed.

Lemma fold_once u : 0 <= u <= 0x1fffe -> sums (FOLD_U32T u) u.
Proof.
  intros Hu. rewrite fold_eq by lia. unfold sums.
  assert (u < 65536 \/ 65536 <= u) as [H|H] by lia.
  - rewrite (Z.div_small u 65536), (Z.mod_small u 65536) by lia. rewrite Z.add_0_l. lia.
  - replace (u / 65536) with 1 by (Z.to_euclidean_division_equations; lia).
    replace (u mod 65536) with (u - 65536) by (Z.to_euclidean_division_equations; lia).
    split; [lia|]. split; [lia|]. split; [|lia]. replace u with (1 + (u - 65536) + 1 * 0xffff) at 2 by lia.
    by rewrite Z_mod_plus_full.
Qed.

Lemma fold_twice u : 0 <= u < 2 ^ 32 -> sums (FOLD_U32T (FOLD_U32T u)) u.
Proof.
  intros Hu. rewrite (fold_eq u) by done. pose proof (Z.div_mod u 65536 ltac:(lia)) as Hd.
  pose proof (Z.mod_pos_bound u 65536 ltac:(lia)).
  assert (0 <= u / 65536 <= 65535) by (change (2 ^ 32) with 4294967296 in *; Z.to_euclidean_division_equations; lia).
  set (h := u / 65536) in *. set (l := u mod 65536) in *.
  destruct (fold_once (h + l) ltac:(lia)) as (H1 & H2 & H3 & H4).
  split; [done|]. split; [lia|]. split.
  - rewrite H3, Hd. replace (65536 * h + l) with (h + l + h * 0xffff) by lia. by rewrite Z_mod_plus_full.
  - rewrite H4. lia.
Qed.

Lemma swap_eq x : is_u16 x -> SWAP_BYTES_IN_WORD x = x mod 256 * 256 + x / 256.
Proof.
  unfold is_u16. intros Hx. unfold SWAP_BYTES_IN_WORD. rewrite land_ff. change 0xff00 with (Z.shiftl 0xff 8).
  rewrite land_byte, Z.shiftr_shiftl_l, Z.shiftl_0_r, lor_byte by (apply u8_range || lia).
  unfold u8. rewrite Z.shiftr_div_pow2 by lia. change (2 ^ 8) with 256.
  rewrite (Z.mod_small (x / 256)) by (Z.to_euclidean_division_equations; lia). lia.
Qed.

Lemma swap_u16 x : is_u16 x -> is_u16 (SWAP_BYTES_IN_WORD x).
Proof. intros Hx. rewrite swap_eq by done. unfold is_u16 in *. Z.to_euclidean_division_equations. lia. Qed.

Lemma swap_twice x : is_u16 x -> SWAP_BYTES_IN_WORD (SWAP_BYTES_IN_WORD x) = x.
Proof.
  intros Hx. rewrite (swap_eq (SWAP_BYTES_IN_WORD x)), (swap_eq x) by (by try apply swap_u16).
  unfold is_u16 in Hx. Z.to_euclidean_division_equations. lia.
Qed.

Lemma swap_sums x s : sums x s -> sums (SWAP_BYTES_IN_WORD x) (256 * s).
Proof.
  intros (Hx & Hs & Hm & Hz). rewrite swap_eq by (unfold is_u16; lia).
  pose proof (Z.div_mod x 256 ltac:(lia)) as Hd. pose proof (Z.mod_pos_bound x 256 ltac:(lia)).
  assert (0 <= x / 256 <= 255) by (Z.to_euclidean_division_equations; lia).
  set (h := x / 256) in *. set (l := x mod 256) in *. split; [lia|]. split; [lia|]. split; [|lia].
  rewrite <- (Zmult_mod_idemp_r s), <- Hm, Zmult_mod_idemp_r, Hd.
  replace (256 * (256 * h + l)) with (l * 256 + h + h * 0xffff) by lia. by rewrite Z_mod_plus_full.
Qed.

Lemma sums_add a b s t : sums a s -> sums b t -> sums (FOLD_U32T (a + b)) (s + t).
Proof.
  intros (Ha & Hs & Hm & Hz) (Hb & Ht & Hm' & Hz'). destruct (fold_once (a + b)) as (H1 & H2 & H3 & H4); [lia|].
  split; [done|]. split; [lia|]. split; [|lia]. rewrite H3, Zplus_mod, Hm, Hm'. by rewrite <- Zplus_mod.
Qed.

(** ** One buffer *)

Lemma add_words_total s ps : Forall is_u8 ps -> 0 <= s -> s + msum ps < 2 ^ 32 ->
  exists r rest, add_words s ps = (r, rest) /\ r + msum rest = s + msum ps /\ s <= r /\
    (rest = [] \/ exists b, rest = [b] /\ is_u8 b).
Proof.
  revert s. induction ps as [|a|a b ps IH] using pairs_ind; intros s H8 Hs Hb.
  - exists s, []. split; [done|]. split; [done|]. split; [lia|by left].
  - apply list.Forall_cons in H8 as [H8 _]. exists s, [a]. split; [done|]. split; [done|]. split; [lia|eauto].
  - apply list.Forall_cons in H8 as [Ha [Hb' H8]%list.Forall_cons]. unfold is_u8 in Ha, Hb'.
    pose proof (msum_nonneg _ H8). rewrite msum_two in *. cbn [add_words].
    rewrite u32_id by (unfold is_u32; lia).
    destruct (IH (s + (a + 256 * b)) H8 ltac:(lia) ltac:(lia)) as (r & rest & -> & Hr & Hle & Hrest).
    exists r, rest. split; [done|]. split; [lia|]. split; [lia|done].
Qed.

Lemma set_low_add h b : 0 <= h < 256 -> is_u8 b -> set_low (256 * h) b = 256 * h + b.
Proof.
  intros Hh Hb. unfold set_low. change 0xff00 with (Z.shiftl 0xff 8). rewrite land_byte by lia.
  rewrite Z.shiftr_div_pow2 by lia. change (2 ^ 8) with 256. rewrite (Z.mul_comm 256 h), Z.div_mul by lia.
  rewrite u8_id by done. rewrite lor_byte by done. lia.
Qed.

(** The standard routine: a number that stands for the sum of the message. *)
Lemma standard_sums odd data : Forall is_u8 data -> Z.of_nat (length data) <= 0x20000 ->
  sums (lwip_standard_chksum odd data) (msum data).
Proof.
  intros H8 Hl. unfold lwip_standard_chksum.
  assert (forall h pb, 0 <= h < 256 -> Forall is_u8 pb -> Z.of_nat (length pb) <= 0x20000 ->
    256 * h + msum pb < 2 ^ 32 ->
    let '(sum, ps) := add_words 0 pb in
    sums (FOLD_U32T (FOLD_U32T (u32 (sum + match ps with b :: _ => set_low (256 * h) b | [] => 256 * h end)))) (256 * h + msum pb))
    as Hsum.
  { intros h pb Hh Hpb Hlen Hbd. pose proof (msum_nonneg _ Hpb).
    destruct (add_words_total 0 pb Hpb ltac:(lia) ltac:(lia)) as (r & rest & -> & Hr & Hle & Hrest).
    assert (r + match rest with b :: _ => set_low (256 * h) b | [] => 256 * h end = 256 * h + msum pb) as ->.
    { destruct Hrest as [->|(b & -> & Hb)]; [change (msum []) with 0 in Hr; lia|].
      rewrite set_low_add by done. change (msum [b]) with (b + 0) in Hr. lia. }
    rewrite u32_id by (unfold is_u32; lia). apply fold_twice. lia. }
  assert (forall x s, sums x s -> u16 x = x) as Hu.
  { intros x s (Hx & _). apply u16_id. unfold is_u16. lia. }
  pose proof (msum_bound _ H8) as Hb.
  destruct odd.
  - destruct data as [|b pb].
    { cbn. unfold SWAP_BYTES_IN_WORD. cbn. apply sums_zero. }
    apply list.Forall_cons in H8 as [Hb8 H8]. pose proof (msum_bound _ H8) as Hb'. cbn [length] in Hl.
    assert (set_high 0 b = 256 * b) as ->.
    { unfold set_high. change (Z.land 0 0xff) with 0. rewrite Z.lor_0_l, Z.shiftl_mul_pow2 by lia. lia. }
    specialize (Hsum b pb). unfold is_u8 in Hb8. specialize (Hsum ltac:(lia) H8 ltac:(lia)).
    destruct (add_words 0 pb) as [sum ps]. apply swap_sums in Hsum; [|Z.to_euclidean_division_equations; lia].
    pose proof (msum_nonneg _ H8).
    assert (sums (SWAP_BYTES_IN_WORD (FOLD_U32T (FOLD_U32T (u32 (sum + match ps with b0 :: _ => set_low (256 * b) b0
      | [] => 256 * b end))))) (b + 256 * msum pb)) as Hs.
    { destruct Hsum as (Hx & _ & Hm & Hz). split; [done|]. split; [lia|]. split; [|lia].
      rewrite Hm. replace (256 * (256 * b + msum pb)) with (b + 256 * msum pb + b * 0xffff) by lia. apply Z_mod_plus_full. }
    apply sums_shift in Hs; [|done..]. by rewrite (Hu _ _ Hs).
  - specialize (Hsum 0 data ltac:(lia) H8 Hl ltac:(Z.to_euclidean_division_equations; lia)).
    rewrite Z.add_0_l in Hsum. destruct data as [|b pb]; destruct (add_words 0 _) as [sum ps];
      change (256 * 0) with 0 in Hsum; by rewrite (Hu _ _ Hsum).
Qed.

(** Whatever the alignment: the one's complement sum of the words. *)
Lemma standard_ones odd data : Forall is_u8 data -> Z.of_nat (length data) <= 0x20000 ->
  lwip_standard_chksum odd data = ones_sum (words data).
Proof.
  intros H8 Hl. eapply sums_unique; [by apply standard_sums|]. by apply ones_sum_sums, words_u16.
Qed.

(** ** Chains *)

Lemma sums_change x s s' k : sums x s -> 0 <= s' -> s' = s + 0xffff * k -> (s' = 0 <-> s = 0) -> sums x s'.
Proof.
  intros (Hx & Hs & Hm & Hz) Hs' Hk Hz'. split; [done|]. split; [done|]. split; [|by rewrite Hz, Hz'].
  rewrite Hm, Hk, Z.mul_comm. by rewrite Z_mod_plus_full.
Qed.

(** After an odd number of bytes every word is rotated. *)
Lemma msum_odd bs c : Nat.odd (length bs) = true ->
  exists k, 256 * msum (bs ++ c) = 256 * msum bs + msum c + 0xffff * k.
Proof.
  intros Ho. destruct bs as [|b bs _] using rev_ind; [done|].
  rewrite length_app, Nat.add_comm in Ho. cbn [length Nat.add] in Ho. rewrite Nat.odd_succ in Ho.
  rewrite <- app_assoc, (msum_even bs ([b] ++ c)), (msum_even bs [b]) by done. cbn [app]. destruct (msum_shift b c) as [k Hk].
  exists (msum c - 256 * k). change (msum [b]) with (b + 0). lia.
Qed.

Lemma parity n : (Z.of_nat n mod 2 =? 0) = Nat.even n.
Proof.
  destruct (Nat.even n) eqn:He.
  - apply Nat.even_spec in He as [m ->]. apply Z.eqb_eq. Z.to_euclidean_division_equations. lia.
  - assert (Nat.odd n = true) as Ho by (by rewrite <- Nat.negb_even, He). apply Nat.odd_spec in Ho as [m ->].
    apply Z.eqb_neq. Z.to_euclidean_division_equations. lia.
Qed.

(** The accumulator after the bytes [bs], [swapped] after an odd number. *)
Definition acc_for (bs : list Z) (r : Z * Z) : Prop :=
  if Nat.even (length bs) then r.2 = 0 /\ sums r.1 (msum bs) else r.2 = 1 /\ sums r.1 (256 * msum bs).

Lemma unswap_sums bs r : Forall is_u8 bs -> acc_for bs r -> sums (unswap r) (msum bs).
Proof.
  destruct r as [acc swapped]. unfold acc_for, unswap. cbn [fst snd]. intros H8. pose proof (msum_nonneg _ H8).
  destruct (Nat.even (length bs)); intros [-> Hs]; cbn [Z.eqb negb]; [done|]. apply swap_sums in Hs.
  refine (sums_change _ _ _ (- msum bs) Hs _ _ _); lia.
Qed.

Lemma acc_step bs c acc swapped odd : Forall is_u8 bs -> Forall is_u8 c -> Z.of_nat (length c) <= 0x20000 ->
  acc_for bs (acc, swapped) ->
  let acc := FOLD_U32T (u32 (acc + lwip_standard_chksum odd c)) in
  acc_for (bs ++ c) (if Nat.even (length c) then (acc, swapped) else (SWAP_BYTES_IN_WORD acc, u8 (1 - swapped))).
Proof.
  intros Hb Hc Hl Hacc. pose proof (standard_sums odd c Hc Hl) as Hst.
  assert (exists s, sums acc s) as [s0 Hs0].
  { revert Hacc. unfold acc_for. destruct (Nat.even _); intros [_ H]; eauto. }
  rewrite u32_id by (destruct Hs0 as [? _], Hst as [? _]; unfold is_u32; lia). clear s0 Hs0.
  assert (Forall is_u8 (bs ++ c)) as Hbc by (by apply Forall_app).
  pose proof (msum_nonneg _ Hb). pose proof (msum_nonneg _ Hc). pose proof (msum_nonneg _ Hbc).
  assert (msum (bs ++ c) = 0 <-> msum bs = 0 /\ msum c = 0) as Hz.
  { rewrite (msum_zero _ Hb), (msum_zero _ Hc), (msum_zero _ Hbc). apply Forall_app. }
  cbv zeta. unfold acc_for in *. cbn [fst snd] in *. rewrite length_app, Nat.even_add.
  destruct (Nat.even (length bs)) eqn:He; destruct Hacc as [-> Hs].
  - pose proof (sums_add _ _ _ _ Hs Hst) as Ha. rewrite <- msum_even in Ha by done.
    destruct (Nat.even (length c)); cbn [eqb]; [done|]. split; [done|]. by apply swap_sums.
  - pose proof (sums_add _ _ _ _ Hs Hst) as Ha.
    destruct (msum_odd bs c) as [k Hk]; [by rewrite <- Nat.negb_even, He|].
    assert (sums (FOLD_U32T (acc + lwip_standard_chksum odd c)) (256 * msum (bs ++ c))) as Ha'.
    { refine (sums_change _ _ _ k Ha _ _ _); lia. }
    destruct (Nat.even (length c)); cbn [eqb]; [done|]. split; [done|]. apply swap_sums in Ha'.
    refine (sums_change _ _ _ (- msum (bs ++ c)) Ha' _ _ _); lia.
Qed.

(** Chains of bytes, none of them too long. *)
Definition bytes_ok (q : list pbuf) : Prop :=
  Forall (fun p => Forall is_u8 (payload p) /\ len p <= 0x20000) q.

Lemma chksum_loop_acc odd i q bs r : Forall is_u8 bs -> bytes_ok q -> acc_for bs r ->
  acc_for (bs ++ flat q) (chksum_loop odd i q r.1 r.2).
Proof.
  intros H8 Hq. revert i bs r H8. induction Hq as [|p q [Hp Hl] Hq IH]; intros i bs [acc swapped] H8 Ha.
  - change (flat []) with (@nil Z). by rewrite app_nil_r.
  - pose proof (acc_step bs (payload p) acc swapped (odd i) H8 Hp Hl Ha) as Hs. cbv zeta in Hs.
    cbn [chksum_loop fst snd]. unfold len. rewrite parity. rewrite flat_cons, app_assoc.
    assert (Forall is_u8 (bs ++ payload p)) as H8' by (by apply Forall_app).
    destruct (Nat.even (length (payload p))); cbn [negb]; [exact (IH (S i) _ (_, _) H8' Hs)|exact (IH (S i) _ (_, _) H8' Hs)].
Qed.

Lemma chain_sums odd q : bytes_ok q -> sums (unswap (chksum_loop odd 0 q 0 0)) (msum (flat q)).
Proof.
  intros Hq. apply unswap_sums.
  - induction Hq as [|p q [Hp _] _ IH]; [constructor|]. rewrite flat_cons. by apply Forall_app.
  - apply (chksum_loop_acc odd 0 q [] (0, 0)); [constructor|done|]. split; [done|]. apply sums_zero.
Qed.

Lemma acc_range bs r : acc_for bs r -> 0 <= r.1 <= 0xffff /\ (r.2 = 0 \/ r.2 = 1).
Proof. unfold acc_for, sums. destruct (Nat.even (length bs)); tauto. Qed.

(** The first bytes of a chain.  The length of the last pbuf says how the
    accumulator is left, not the length that is summed; both agree in the end. *)
Lemma unswap_either acc swapped : is_u16 acc -> swapped = 0 \/ swapped = 1 ->
  unswap (SWAP_BYTES_IN_WORD acc, u8 (1 - swapped)) = unswap (acc, swapped).
Proof. intros Ha [-> | ->]; unfold unswap; cbn [Z.eqb negb]; [by apply swap_twice|done]. Qed.

Lemma partial_sums odd q i n bs r : Forall is_u8 bs -> bytes_ok q -> small q -> 0 <= n < 2 ^ 16 -> acc_for bs r ->
  sums (unswap (partial_loop odd i q n r.1 r.2)) (msum (bs ++ take (Z.to_nat n) (flat q))).
Proof.
  intros H8 Hq. revert i n bs r H8. induction Hq as [|p q [Hp Hl] Hq IH]; intros i n bs [acc swapped] H8 Hs Hn Ha.
  - change (flat []) with (@nil Z). rewrite take_nil, app_nil_r. by apply unswap_sums.
  - apply list.Forall_cons in Hs as [Hsp Hs]. cbn [partial_loop fst snd].
    destruct (Z.ltb_spec 0 n) as [Hpos|Hz].
    2: { replace n with 0 by lia. rewrite take_0, app_nil_r. by apply unswap_sums. }
    destruct (Z.ltb_spec n (len p)) as [Hlt|Hge].
    + rewrite Z.sub_diag. change (u16 0) with 0.
      assert (forall i q acc swapped, partial_loop odd i q 0 acc swapped = (acc, swapped)) as Hdone by (by intros ? []).
      rewrite !Hdone, flat_cons, take_app_le by (pose proof (len_nat p); lia).
      set (c := take (Z.to_nat n) (payload p)).
      assert (Forall is_u8 c) as Hc by (by apply Forall_take).
      assert (Z.of_nat (length c) <= 0x20000) as Hcl by (unfold c; rewrite length_take; lia).
      pose proof (acc_step bs c acc swapped (odd i) H8 Hc Hcl Ha) as Hstep. cbv zeta in Hstep.
      apply unswap_sums in Hstep; [|by apply Forall_app].
      destruct (acc_range _ _ Ha) as [Hs0 Hsw]. cbn [fst snd] in Hs0, Hsw.
      set (acc1 := FOLD_U32T _) in *.
      assert (is_u16 acc1) as Hu.
      { pose proof (standard_sums (odd i) c Hc Hcl) as [Hst _]. unfold acc1. rewrite u32_id by (unfold is_u32; lia).
        destruct (fold_once (acc + lwip_standard_chksum (odd i) c)) as [Hf _]; [lia|]. unfold is_u16. lia. }
      destruct (Nat.even (length c)), (negb (len p mod 2 =? 0)); rewrite ?unswap_either in * by done; done.
    + rewrite u16_id by (unfold is_u16; pose proof (len_nonneg p); lia).
      assert (take (Z.to_nat (len p)) (payload p) = payload p) as -> by (apply take_ge; rewrite len_nat; lia).
      pose proof (acc_step bs (payload p) acc swapped (odd i) H8 Hp Hl Ha) as Hstep. cbv zeta in Hstep.
      rewrite flat_cons, take_app_ge, app_assoc by (pose proof (len_nat p); lia).
      assert (Forall is_u8 (bs ++ payload p)) as H8' by (by apply Forall_app).
      replace (Z.to_nat n - length (payload p))%nat with (Z.to_nat (n - len p)) by (unfold len; lia).
      pose proof (len_nonneg p). pose proof (parity (length (payload p))) as Hpar. fold (len p) in Hpar. rewrite Hpar.
      destruct (Nat.even (length (payload p))); cbn [negb]; exact (IH (S i) (n - len p) _ (_, _) H8' Hs ltac:(lia) Hstep).
Qed.

(** ** The functions *)

Lemma complement x : 0 <= x <= 0xffff -> u16 (Z.lnot (Z.land x 0xffff)) = 0xffff - x.
Proof.
  intros Hx. change 0xffff with (Z.ones 16) at 1. rewrite Z.land_ones, Z.mod_small by lia. unfold Z.lnot, u16.
  replace (Z.pred (- x)) with (0xffff - x + (-1) * 2 ^ 16) by lia. rewrite Z_mod_plus_full. apply Z.mod_small. lia.
Qed.

(** The pseudo header in memory; addresses are kept in network order. *)
Definition pseudo_header (src dest proto proto_len : Z) : list Z :=
  le_bytes4 src ++ le_bytes4 dest ++ [0; proto; proto_len / 256; proto_len mod 256].

Lemma lshr16 v : is_u32 v -> Z.land v 0xffff = v mod 65536 /\ Z.land (Z.shiftr v 16) 0xffff = v / 65536.
Proof.
  unfold is_u32. intros Hv. change 0xffff with (Z.ones 16). rewrite !Z.land_ones, Z.shiftr_div_pow2 by lia.
  change (2 ^ 16) with 65536. split; [done|]. apply Z.mod_small. change (2 ^ 32) with 4294967296 in *.
  Z.to_euclidean_division_equations. lia.
Qed.

Lemma htons_eq x : is_u16 x -> lwip_htons x = x mod 256 * 256 + x / 256.
Proof. exact (swap_eq x). Qed.

(** An address as the code takes it apart. *)
Lemma address_words v bs : is_u32 v -> msum (le_bytes4 v ++ bs) = v mod 65536 + v / 65536 + msum bs.
Proof.
  unfold is_u32. intros Hv. unfold le_bytes4. cbn [app]. rewrite !msum_two.
  unfold u8. rewrite !Z.shiftr_div_pow2 by lia. change (2 ^ 32) with 4294967296 in *.
  change (2 ^ 8) with 256. change (2 ^ 16) with 65536. change (2 ^ 24) with 16777216.
  Z.to_euclidean_division_equations. lia.
Qed.

Lemma pseudo_words src dest proto proto_len : is_u32 src -> is_u32 dest ->
  msum (pseudo_header src dest proto proto_len) =
    src mod 65536 + src / 65536 + (dest mod 65536 + dest / 65536) + 256 * proto +
    (proto_len mod 256 * 256 + proto_len / 256).
Proof.
  intros Hs Hd. unfold pseudo_header. rewrite (address_words src), (address_words dest) by done.
  change (msum [0; proto; proto_len / 256; proto_len mod 256])
    with (0 + 256 * proto + (proto_len / 256 + 256 * (proto_len mod 256) + 0)). lia.
Qed.

Lemma add_pseudo_sums acc s src dest proto proto_len : sums acc s ->
  is_u32 src -> is_u32 dest -> is_u8 proto -> is_u16 proto_len ->
  exists x, add_pseudo acc src dest proto proto_len = 0xffff - x /\
    sums x (msum (pseudo_header src dest proto proto_len) + s).
Proof.
  intros Hacc Hs Hd Hp Hl. unfold add_pseudo. unfold is_u8, is_u16 in Hp, Hl.
  destruct (lshr16 src Hs) as [-> ->], (lshr16 dest Hd) as [-> ->].
  rewrite (u16_id proto) by (unfold is_u16; lia). rewrite !htons_eq by (unfold is_u16; lia).
  rewrite (Z.mod_small proto 256), (Z.div_small proto 256) by lia.
  pose proof (pseudo_words src dest proto proto_len Hs Hd) as Hw.
  unfold is_u32 in Hs, Hd. change (2 ^ 32) with 4294967296 in Hs, Hd.
  assert (0 <= src mod 65536 <= 65535 /\ 0 <= src / 65536 <= 65535) as [H1 H2] by (Z.to_euclidean_division_equations; lia).
  assert (0 <= dest mod 65536 <= 65535 /\ 0 <= dest / 65536 <= 65535) as [H3 H4] by (Z.to_euclidean_division_equations; lia).
  assert (0 <= proto_len mod 256 <= 255 /\ 0 <= proto_len / 256 <= 255) as [H5 H6] by (Z.to_euclidean_division_equations; lia).
  destruct Hacc as (Ha & Hs0 & Hm & Hz).
  set (a := src mod 65536) in *. set (b := src / 65536) in *. set (c := dest mod 65536) in *. set (d := dest / 65536) in *.
  set (e := proto_len mod 256 * 256 + proto_len / 256) in *.
  rewrite (u32_id (acc + a)), (u32_id (acc + a + b)), (u32_id (acc + a + b + c)), (u32_id (acc + a + b + c + d)),
    (u32_id (acc + a + b + c + d + _)), (u32_id (acc + a + b + c + d + _ + e)) by (unfold is_u32; lia).
  set (m := msum _) in *.
  pose proof (fold_twice (acc + m) ltac:(lia)) as Hf. destruct Hf as (Hf & Hf0 & Hfm & Hfz).
  exists (FOLD_U32T (FOLD_U32T (acc + m))). split.
  - rewrite <- complement by done. do 5 f_equal. lia.
  - split; [done|]. split; [lia|]. split; [|lia].
    rewrite Hfm, Z.add_comm, Zplus_mod, Hm, <- Zplus_mod. done.
Qed.

(** ** The functions compute the checksum of RFC 1071 *)

Definition rfc1071 (bs : list Z) : Z := 0xffff - ones_sum (words bs).

Lemma rfc1071_sums bs x : Forall is_u8 bs -> sums x (msum bs) -> 0xffff - x = rfc1071 bs.
Proof. intros H8 Hx. unfold rfc1071. f_equal. eapply sums_unique; [done|]. by apply ones_sum_sums, words_u16. Qed.

Lemma bytes_ok_flat q : small q -> Forall is_u8 (flat q) -> bytes_ok q.
Proof.
  induction 1 as [|p q Hp _ IH]; intros H8; [constructor|]. rewrite flat_cons in H8. apply Forall_app in H8 as [H8 H8'].
  apply list.Forall_cons. split; [|by apply IH]. split; [done|]. change (2 ^ 16) with 65536 in Hp. lia.
Qed.

Lemma le_bytes4_u8 v : Forall is_u8 (le_bytes4 v).
Proof. unfold le_bytes4. repeat (apply list.Forall_cons; split; [apply u8_range|]). constructor. Qed.

Lemma pseudo_header_u8 src dest proto plen : is_u8 proto -> is_u16 plen -> Forall is_u8 (pseudo_header src dest proto plen).
Proof.
  unfold is_u8, is_u16. intros Hp Hl. unfold pseudo_header. rewrite !Forall_app. split_and!; [apply le_bytes4_u8..|].
  repeat (apply list.Forall_cons; split; [unfold is_u8; Z.to_euclidean_division_equations; lia|]). constructor.
Qed.

Lemma pseudo_rfc1071 acc bs src dest proto plen : Forall is_u8 bs -> sums acc (msum bs) ->
  is_u32 src -> is_u32 dest -> is_u8 proto -> is_u16 plen ->
  add_pseudo acc src dest proto plen = rfc1071 (pseudo_header src dest proto plen ++ bs).
Proof.
  intros H8 Ha Hs Hd Hp Hl. destruct (add_pseudo_sums acc _ src dest proto plen Ha Hs Hd Hp Hl) as (x & -> & Hx).
  apply rfc1071_sums; [by apply Forall_app; split; [apply pseudo_header_u8|]|]. by rewrite msum_even.
Qed.

Lemma buffer_chksum odd data : Forall is_u8 data -> Z.of_nat (length data) <= 0x20000 ->
  inet_chksum odd data = rfc1071 data.
Proof.
  intros H8 Hl. pose proof (standard_sums odd data H8 Hl) as Hst. rewrite <- (rfc1071_sums data _ H8 Hst).
  rewrite <- (complement (lwip_standard_chksum odd data)) by apply Hst. change 0xffff with (Z.ones 16).
  rewrite Z.land_ones, Z.mod_small by (destruct Hst as [? _]; lia). done.
Qed.

Lemma chain_chksum odd q : small q -> Forall is_u8 (flat q) -> inet_chksum_pbuf odd q = rfc1071 (flat q).
Proof.
  intros Hsm H8. pose proof (chain_sums odd q (bytes_ok_flat q Hsm H8)) as Hc.
  unfold inet_chksum_pbuf. rewrite complement by apply Hc. by apply rfc1071_sums.
Qed.

(** C28: The checksum functions are the Internet checksum: for buffers at odd
    and even addresses, of odd and even length, and for a message cut into a
    chain of pbufs anywhere, [inet_chksum] and [inet_chksum_pbuf] give the
    complement of the one's complement sum of the 16-bit words of the message,
    [inet_chksum_pseudo] that of the pseudo header and the message, and
    [inet_chksum_pseudo_partial] that of the pseudo header and the first
    [n] bytes. *)
Theorem chksum_is_rfc1071 odd odd1 data q src dest proto plen n :
  Forall is_u8 data -> Z.of_nat (length data) <= 0x20000 -> small q -> Forall is_u8 (flat q) ->
  is_u32 src -> is_u32 dest -> is_u8 proto -> is_u16 plen -> is_u16 n ->
  inet_chksum odd1 data = rfc1071 data /\
  inet_chksum_pbuf odd q = rfc1071 (flat q) /\
  inet_chksum_pseudo odd q src dest proto plen = rfc1071 (pseudo_header src dest proto plen ++ flat q) /\
  inet_chksum_pseudo_partial odd q src dest proto plen n =
    rfc1071 (pseudo_header src dest proto plen ++ take (Z.to_nat n) (flat q)).
Proof.
  intros Hd8 Hdl Hsm H8 Hs Hd Hp Hl Hn. pose proof (bytes_ok_flat q Hsm H8) as Hq.
  pose proof (chain_sums odd q Hq) as Hc. split_and!.
  - by apply buffer_chksum.
  - by apply chain_chksum.
  - by apply pseudo_rfc1071.
  - apply pseudo_rfc1071; [by apply Forall_take| |done..].
    apply (partial_sums odd q 0 n [] (0, 0)); [constructor|done|done|exact Hn|].
    split; [done|]. apply sums_zero.
Qed.

Lemma chksum_is_rfc1071_witness :
  inet_chksum_pseudo (fun i => Nat.odd i) [Pbuf PBUF_POOL [] [1; 2; 3] 9 1; Pbuf PBUF_POOL [] [255] 6 1;
    Pbuf PBUF_RAM [] [] 5 1; Pbuf PBUF_RAM [] [7; 8; 9; 10; 11] 5 1]
    0x0100a8c0 0x0200a8c0 17 9 = rfc1071 (pseudo_header 0x0100a8c0 0x0200a8c0 17 9 ++ [1; 2; 3; 255; 7; 8; 9; 10; 11]).
Proof.
  refine (proj1 (proj2 (proj2 (chksum_is_rfc1071 _ false [] _ 0x0100a8c0 0x0200a8c0 17 9 0 _ _ _ _ _ _ _ _ _))));
    unfold is_u8, is_u16, is_u32, small, flat; cbn; repeat (apply list.Forall_cons; split); try apply Forall_nil; try lia; done.
Defined.

(** ** What the checksum protects *)

Lemma msum_insert bs k old v : bs !! k = Some old ->
  msum (<[k := v]> bs) = msum bs + (if Nat.even k then v - old else 256 * (v - old)).
Proof.
  revert k. induction bs as [|a|a b bs IH] using pairs_ind; intros k Hk; [done|..].
  - destruct k as [|k]; [|done]. injection Hk as ->. change (<[0%nat := v]> [old]) with [v]. change (msum [v]) with (v + 0). change (msum [old]) with (old + 0).
    change (Nat.even 0) with true. cbv iota. lia.
  - destruct k as [|[|k]].
    + injection Hk as ->. change (<[0%nat := v]> (old :: b :: bs)) with (v :: b :: bs). rewrite !msum_two.
      change (Nat.even 0) with true. cbv iota. lia.
    + injection Hk as ->. change (<[1%nat := v]> (a :: old :: bs)) with (a :: v :: bs). rewrite !msum_two.
      change (Nat.even 1) with false. cbv iota. lia.
    + change (<[S (S k) := v]> (a :: b :: bs)) with (a :: b :: <[k := v]> bs). rewrite !msum_two, (IH k Hk).
      change (Nat.even (S (S k))) with (Nat.even k). lia.
Qed.

(** The checksum field at [k], stored by the processor. *)
Definition fill (bs : list Z) (k : nat) (c : Z) : list Z := <[S k := c / 256]> (<[k := c mod 256]> bs).

Lemma msum_fill bs k c : Nat.even k = true -> bs !! k = Some 0 -> bs !! S k = Some 0 ->
  msum (fill bs k c) = msum bs + c.
Proof.
  intros He H0 H1. unfold fill. rewrite (msum_insert _ (S k) 0), (msum_insert _ k 0), He;
    [|done|by rewrite list_lookup_insert_ne by lia]. rewrite Nat.even_succ, <- Nat.negb_even, He. cbn [negb].
  Z.to_euclidean_division_equations. lia.
Qed.

Lemma insert_u8 bs k v : Forall is_u8 bs -> is_u8 v -> Forall is_u8 (<[k := v]> bs).
Proof. intros. by apply Forall_insert. Qed.

Lemma fill_u8 bs k c : Forall is_u8 bs -> is_u16 c -> Forall is_u8 (fill bs k c).
Proof. unfold is_u16. intros H8 Hc. apply insert_u8; [apply insert_u8; [done|]|]; unfold is_u8; Z.to_euclidean_division_equations; lia. Qed.

(** A checksum as it is sent: zero means there is none. *)
Definition sent (c : Z) : Z := if c =? 0 then 0xffff else c.

Lemma sent_u16 bs : Forall is_u8 bs -> is_u16 (sent (rfc1071 bs)).
Proof.
  intros H8. unfold sent, rfc1071. destruct (ones_sum_sums (words bs) (words_u16 _ H8)) as [Ho _].
  unfold is_u16. destruct (Z.eqb_spec (0xffff - ones_sum (words bs)) 0); lia.
Qed.

(** What the receiver computes. *)
Lemma rfc1071_zero bs : Forall is_u8 bs -> rfc1071 bs = 0 <-> 0 < msum bs /\ msum bs mod 0xffff = 0.
Proof.
  intros H8. unfold rfc1071. destruct (ones_sum_sums (words bs) (words_u16 _ H8)) as (Ho & Hs & Hm & Hz).
  fold (msum bs) in Hs, Hm, Hz. rewrite <- Hm. destruct (Z.eq_dec (ones_sum (words bs)) 0xffff) as [He|Hne].
  - rewrite He in *. change (0xffff mod 0xffff) with 0. lia.
  - destruct (Z.eq_dec (ones_sum (words bs)) 0) as [He|Hne']; [rewrite He in *; lia|].
    rewrite Z.mod_small by lia. lia.
Qed.

Lemma filled_verifies h bs k : Nat.even (length h) = true -> Nat.even k = true ->
  Forall is_u8 h -> Forall is_u8 bs -> bs !! k = Some 0 -> bs !! S k = Some 0 ->
  rfc1071 (h ++ fill bs k (sent (rfc1071 (h ++ bs)))) = 0.
Proof.
  intros Hh Hk H8h H8 H0 H1. assert (Forall is_u8 (h ++ bs)) as H8' by (by apply Forall_app).
  pose proof (sent_u16 _ H8') as Hu.
  apply rfc1071_zero; [apply Forall_app; split; [done|by apply fill_u8]|].
  rewrite msum_even, msum_fill by done. pose proof (msum_nonneg _ H8') as Hn.
  rewrite msum_even in Hn by done. destruct (ones_sum_sums (words (h ++ bs)) (words_u16 _ H8')) as (Ho & Hs & Hm & Hz).
  change (sum_words (words (h ++ bs))) with (msum (h ++ bs)) in *. rewrite msum_even in Hs, Hm, Hz by done.
  set (s := msum h + msum bs) in *. rewrite Z.add_assoc. fold s. revert Hu. unfold sent, rfc1071, is_u16.
  set (x := ones_sum _) in *. destruct (Z.eqb_spec (0xffff - x) 0) as [He|Hne]; intros Hu.
  - split; [lia|]. replace (s + 0xffff) with (s + 1 * 0xffff) by lia. rewrite Z_mod_plus_full, <- Hm.
    by replace x with 0xffff by lia.
  - split; [lia|]. rewrite Zplus_mod, <- Hm, <- Zplus_mod. by replace (x + (0xffff - x)) with 0xffff by lia.
Qed.

Lemma changed_byte_detected h bs k old v : Nat.even (length h) = true ->
  Forall is_u8 h -> Forall is_u8 bs -> rfc1071 (h ++ bs) = 0 -> bs !! k = Some old -> is_u8 v -> v <> old ->
  rfc1071 (h ++ <[k := v]> bs) <> 0.
Proof.
  intros Hh H8h H8 Hz Hk Hv Hne Hz'. apply rfc1071_zero in Hz as [_ Hz]; [|by apply Forall_app].
  apply rfc1071_zero in Hz' as [_ Hz']; [|by apply Forall_app; split; [|apply insert_u8]].
  rewrite msum_even in Hz, Hz' by done. rewrite (msum_insert _ _ old) in Hz' by done.
  assert (is_u8 old) as Ho by (by apply (Forall_lookup_1 _ _ _ _ H8 Hk)). unfold is_u8 in Ho, Hv.
  destruct (Nat.even k); Z.to_euclidean_division_equations; lia.
Qed.

Lemma pseudo_chksum odd q src dest proto plen : small q -> Forall is_u8 (flat q) ->
  is_u32 src -> is_u32 dest -> is_u8 proto -> is_u16 plen ->
  inet_chksum_pseudo odd q src dest proto plen = rfc1071 (pseudo_header src dest proto plen ++ flat q).
Proof. intros Hs H8 H1 H2 H3 H4. apply pseudo_rfc1071; [done|by apply chain_sums, bytes_ok_flat|done..]. Qed.

(** A message whose checksum field, at an even offset and zero before,
    holds what [inet_chksum_pseudo] gives, with 0xffff for zero as UDP sends
    it, has the checksum zero for the receiver, into whatever pbufs and at
    whatever addresses it was received; and with any one byte changed, the
    checksum field included, it has not. *)
Theorem checksum_protects odd odd' q q' src dest proto plen k : Nat.even k = true ->
  small q -> small q' -> Forall is_u8 (flat q) -> is_u32 src -> is_u32 dest -> is_u8 proto -> is_u16 plen ->
  flat q !! k = Some 0 -> flat q !! S k = Some 0 ->
  flat q' = fill (flat q) k (sent (inet_chksum_pseudo odd q src dest proto plen)) ->
  inet_chksum_pseudo odd' q' src dest proto plen = 0 /\
  forall odd'' q'' j old v, small q'' -> flat q' !! j = Some old -> is_u8 v -> v <> old ->
    flat q'' = <[j := v]> (flat q') -> inet_chksum_pseudo odd'' q'' src dest proto plen <> 0.
Proof.
  intros Hk Hs Hs' H8 H1 H2 H3 H4 H0 H0' Hq'. rewrite pseudo_chksum in Hq' by done.
  pose proof (pseudo_header_u8 src dest proto plen H3 H4) as Hh8.
  assert (Forall is_u8 (flat q')) as H8'.
  { rewrite Hq'. apply fill_u8; [done|]. apply sent_u16, Forall_app. done. }
  assert (rfc1071 (pseudo_header src dest proto plen ++ flat q') = 0) as Hz by (rewrite Hq'; by apply filled_verifies).
  split; [by rewrite pseudo_chksum|]. intros odd'' q'' j old v Hs'' Hj Hv Hne Hq''.
  rewrite pseudo_chksum, Hq'' by (rewrite ?Hq''; try apply insert_u8; done).
  by apply (changed_byte_detected _ _ _ old).
Qed.

Lemma checksum_protects_witness :
  let q := [Pbuf PBUF_RAM [] [0; 80; 0; 81; 0; 11; 0; 0] 11 1; Pbuf PBUF_POOL [] [1; 2; 3] 3 1] in
  let msg := fill (flat q) 6 (sent (inet_chksum_pseudo (fun _ => false) q 0x0100a8c0 0x0200a8c0 17 11)) in
  inet_chksum_pseudo (fun _ => true) [Pbuf PBUF_POOL [] msg 11 1] 0x0100a8c0 0x0200a8c0 17 11 = 0 /\
  inet_chksum_pseudo (fun _ => true) [Pbuf PBUF_POOL [] (<[9%nat := 77]> msg) 11 1] 0x0100a8c0 0x0200a8c0 17 11 <> 0.
Proof.
  intros q msg.
  destruct (checksum_protects (fun _ => false) (fun _ => true) q [Pbuf PBUF_POOL [] msg 11 1]
    0x0100a8c0 0x0200a8c0 17 11 6) as [H H'];
    [done|repeat (apply list.Forall_cons; split; [vm_compute; reflexivity|]); apply Forall_nil..| |
      unfold is_u32; lia|unfold is_u32; lia|unfold is_u8; lia|unfold is_u16; lia|done|done|vm_compute; reflexivity|].
  { unfold is_u8, flat; cbn; repeat (apply list.Forall_cons; split; [lia|]); apply Forall_nil. }
  split; [exact H|]. apply (H' _ [Pbuf PBUF_POOL [] (<[9%nat := 77]> msg) 11 1] 9%nat 2 77).
  - apply list.Forall_cons; split; [vm_compute; reflexivity|apply Forall_nil].
  - vm_compute. reflexivity.
  - unfold is_u8. lia.
  - lia.
  - vm_compute. reflexivity.
Defined.
