(* ===== verification/UdpServer.v ===== *)
(** * The UDP register server (BasicUDP.c)

    The packet handler of
    src/src/ASF/thirdparty/freertos/demo/lwip_sam_example/BasicUDP.c over the
    FPGA functions ([Opb]) and the network stack ([Udp]), the protocol that it
    speaks as an abstract specification, the protocol of README.md, and how the
    three agree. *)

From S2P Require Import Prelude Prog Chksum Twi TwiBus FpgaTwi.

(** ** The network stack *)

Class Udp (E : Sig) := {
  udp_new : prog E bool;
  udp_bind : Z -> prog E Z;
  udp_recv : prog E unit;
  udp_sendto : list Z -> prog E Z;
  pbuf_free_packet : prog E unit;
  vTaskDelete : prog E unit
}.

(** Byte order (src/src/ASF/thirdparty/lwip/lwip-1.4.0/src/core/def.c;
    [lwip_htons] is with the checksums). *)
Definition lwip_htonl (n : Z) : Z :=
  Z.lor (Z.lor (Z.lor (Z.shiftl (Z.land n 0xff) 24) (Z.shiftl (Z.land n 0xff00) 8))
           (Z.shiftr (Z.land n 0xff0000) 8))
        (Z.shiftr (Z.land n 0xff000000) 24).
Definition lwip_ntohl (n : Z) : Z := lwip_htonl n.

(** ** The packet: [struct udphdr], packed, in the payload of the pbuf *)

Definition UDP_PORT : Z := 2000.

Definition FPGA_READ_ACCESS_16 : Z := 0x01.
Definition FPGA_WRITE_ACCESS_16 : Z := 0x02.
Definition FPGA_WRITE_ACCESS_16_NO_READBACK : Z := 0x03.
Definition FPGA_READ_ACCESS_32 : Z := 0x04.
Definition FPGA_WRITE_ACCESS_32 : Z := 0x05.
Definition FPGA_WRITE_ACCESS_32_NO_READBACK : Z := 0x06.

Definition FPGA_STATUS_OK : Z := 0.
Definition FPGA_STATUS_INVALID_ADDR : Z := -1.
Definition FPGA_STATUS_TIMEOUT : Z := -2.
Definition FPGA_STATUS_INVALID_CMD : Z := -3.

(** The fields at their offsets: 1-byte [access_type] and [status], 2-byte
    [data_v1], 4-byte [addr], [ref] and [data_v2]. *)
Definition get_access_type := load 0 1.
Definition get_data_v1 := load 2 2.
Definition get_addr := load 4 4.
Definition get_data_v2 := load 12 4.
Definition set_status (bs : list Z) (s : Z) : option (list Z) := store bs 1 [u8 s].
Definition set_data_v1 (bs : list Z) (v : Z) : option (list Z) :=
  store bs 2 [u8 v; u8 (Z.shiftr v 8)].
Definition set_data_v2 (bs : list Z) (v : Z) : option (list Z) := store bs 12 (le_bytes4 v).

Section server.
Context {E : Sig} `{Opb E} `{Udp E}.
(** What the uninitialised [uint32_t data] of the 32-bit read holds. *)
Context (garbage : Z).

(** The first half of the handler: the write accesses.  [inl] is the packet as
    the jump to [send_reply] leaves it, [inr] the one it goes on with. *)
Definition udp_write_part (protocol_version access_type : Z) (sHdr : list Z)
    : prog E (list Z + list Z) :=
  if (access_type =? FPGA_WRITE_ACCESS_16) || (access_type =? FPGA_WRITE_ACCESS_16_NO_READBACK)
  then
    let! data :=
      (if protocol_version =? 1
       then let! v := defined (get_data_v1 sHdr) in Ret (lwip_ntohs v)
       else let! v := defined (get_data_v2 sHdr) in Ret (u16 (lwip_ntohl v))) in
    let! a := defined (get_addr sHdr) in
    let! status := opb_write_short (lwip_ntohl a) data in
    if negb (status =? 0)
    then let! sHdr := defined (set_status sHdr FPGA_STATUS_TIMEOUT) in Ret (inl sHdr)
    else Ret (inr sHdr)
  else if (access_type =? FPGA_WRITE_ACCESS_32)
          || (access_type =? FPGA_WRITE_ACCESS_32_NO_READBACK)
  then
    if protocol_version =? 1
    then let! sHdr := defined (set_status sHdr FPGA_STATUS_INVALID_CMD) in Ret (inl sHdr)
    else
      let! v := defined (get_data_v2 sHdr) in
      let! a := defined (get_addr sHdr) in
      let! status := opb_write_long (lwip_ntohl a) (lwip_ntohl v) in
      if negb (status =? 0)
      then let! sHdr := defined (set_status sHdr FPGA_STATUS_TIMEOUT) in Ret (inr sHdr)
      else Ret (inr sHdr)
  else Ret (inr sHdr).

(** The second half: the read accesses and the read-back of the writes. *)
Definition udp_read_part (protocol_version access_type : Z) (sHdr : list Z) : prog E (list Z) :=
  if (access_type =? FPGA_WRITE_ACCESS_16) || (access_type =? FPGA_READ_ACCESS_16)
  then
    let! a := defined (get_addr sHdr) in
    let! (status, data) := opb_read_short (lwip_ntohl a) in
    if negb (status =? 0) then defined (set_status sHdr FPGA_STATUS_TIMEOUT)
    else
      let! data := defined data in
      if protocol_version =? 1 then defined (set_data_v1 sHdr (lwip_htons data))
      else defined (set_data_v2 sHdr (lwip_htonl data))
  else if (access_type =? FPGA_WRITE_ACCESS_32) || (access_type =? FPGA_READ_ACCESS_32)
  then
    if protocol_version =? 1 then defined (set_status sHdr FPGA_STATUS_INVALID_CMD)
    else
      let! a := defined (get_addr sHdr) in
      let! (status, data) := opb_read_long (lwip_ntohl a) in
      let! sHdr := (if negb (status =? 0) then defined (set_status sHdr FPGA_STATUS_TIMEOUT)
                    else Ret sHdr) in
      defined (set_data_v2 sHdr (lwip_htonl (default garbage data)))
  else if (access_type =? FPGA_WRITE_ACCESS_16_NO_READBACK)
          || (access_type =? FPGA_WRITE_ACCESS_32_NO_READBACK)
  then Ret sHdr
  else defined (set_status sHdr FPGA_STATUS_INVALID_CMD).

(** [next] is whether the pbuf has a successor, [payload] its [p->len] bytes. *)
Definition udp_server_callback (next : bool) (payload : list Z) : prog E unit :=
  if next then pbuf_free_packet
  else
    let len := Z.of_nat (length payload) in
    if negb (len =? 12) && negb (len =? 16) then pbuf_free_packet
    else
      let protocol_version := if len =? 12 then 1 else 2 in
      let! sHdr := defined (set_status payload FPGA_STATUS_OK) in
      let! access_type := defined (get_access_type sHdr) in
      let! r := udp_write_part protocol_version access_type sHdr in
      let! sHdr :=
        match r with
        | inl sHdr => Ret sHdr
        | inr sHdr => udp_read_part protocol_version access_type sHdr
        end in
      let! _ := udp_sendto sHdr in
      pbuf_free_packet.

(** The task: a null PCB is reported and then used all the same. *)
Definition vBasicUDPServer : prog E unit :=
  let! pcb := udp_new in
  if negb pcb then Halt Undefined
  else
    let! _ := udp_bind UDP_PORT in
    udp_recv;;
    vTaskDelete.
End server.

(** ** Byte order, arithmetically *)

Lemma htonl_be n :
  lwip_htonl n = be_value [u8 n; u8 (Z.shiftr n 8); u8 (Z.shiftr n 16); u8 (Z.shiftr n 24)].
Proof.
  unfold lwip_htonl. rewrite land_ff. change 0xff00 with (Z.shiftl 0xff 8).
  change 0xff0000 with (Z.shiftl 0xff 16). change 0xff000000 with (Z.shiftl 0xff 24).
  rewrite !land_byte, Z.shiftl_shiftl by lia. change 16 with (8 + 8) at 2.
  rewrite <- Z.shiftl_shiftl, !Z.shiftr_shiftl_l by lia.
  rewrite <- assemble_be by auto with fw.
  rewrite !u32_id by (unfold is_u32; rewrite Z.shiftl_mul_pow2 by lia;
    match goal with |- context [u8 ?z] => pose proof (u8_range z) end; unfold is_u8 in *; lia).
  by rewrite Z.shiftl_shiftl.
Qed.

Lemma htons_be n : lwip_htons n = be_value [u8 n; u8 (Z.shiftr n 8)].
Proof.
  unfold lwip_htons. rewrite land_ff. change 0xff00 with (Z.shiftl 0xff 8).
  rewrite land_byte, Z.shiftr_shiftl_l, Z.shiftl_0_r by lia. by rewrite lor_byte by auto with fw.
Qed.

Lemma be_value_le bs : be_value bs = le_val (rev bs).
Proof.
  unfold be_value. rewrite <- fold_left_rev_right. induction (rev bs); simpl; lia.
Qed.

Lemma le_bytes4_htonl n : le_bytes4 (lwip_htonl n) = be_bytes4 n.
Proof.
  rewrite htonl_be, be_value_le. apply le_bytes4_le_val; [|done].
  cbn [rev app]. repeat apply Forall_cons_2; auto using Forall_nil_2 with fw.
Qed.

Lemma ntohl_le a b c d : Forall is_u8 [a; b; c; d] ->
  lwip_ntohl (le_val [a; b; c; d]) = be_value [a; b; c; d].
Proof.
  intros H8. unfold lwip_ntohl. rewrite htonl_be. f_equal. by apply le_bytes4_le_val.
Qed.

Lemma ntohs_le a b : Forall is_u8 [a; b] -> lwip_ntohs (le_val [a; b]) = be_value [a; b].
Proof.
  intros H8. unfold lwip_ntohs. rewrite htons_be.
  assert (le_bytes4 (le_val [a; b; 0; 0]) = [a; b; 0; 0]) as Hl.
  { apply le_bytes4_le_val; [|done]. inversion H8 as [|? ? ? H8']; inversion H8'; subst.
    repeat constructor; unfold is_u8 in *; lia. }
  injection Hl as H0 H1 _ _. exact (f_equal2 (fun x y => be_value [x; y]) H0 H1).
Qed.

Lemma le_bytes2_htons n :
  [u8 (lwip_htons n); u8 (Z.shiftr (lwip_htons n) 8)] = [u8 (Z.shiftr n 8); u8 n].
Proof.
  rewrite htons_be. pose proof (u8_range n). pose proof (u8_range (Z.shiftr n 8)).
  unfold is_u8 in *. unfold be_value. cbn [fold_left].
  set (a := u8 n) in *. set (b := u8 (Z.shiftr n 8)) in *. clearbody a b.
  unfold u8. rewrite Z.shiftr_div_pow2 by lia.
  repeat f_equal; Z.to_euclidean_division_equations; lia.
Qed.

(** ** The protocol *)

Inductive udp_request :=
| UdpRead16 (address : Z)
| UdpWrite16 (address data : Z) (readback : bool)
| UdpRead32 (address : Z)
| UdpWrite32 (address data : Z) (readback : bool)
| UdpInvalid.

(** A field in network byte order. *)
Definition be_field (off n : nat) (bs : list Z) : Z := be_value (take n (drop off bs)).

(** Packets of version 1 have 12 bytes, packets of version 2 have 16. *)
Definition is_v1 (payload : list Z) : bool := bool_decide (length payload = 12)%nat.
Definition is_packet (payload : list Z) : bool :=
  bool_decide (length payload = 12 \/ length payload = 16)%nat.

(** What a packet asks for: the low 16 bits of the data of version 2 are
    written to a 16-bit register, and 32-bit accesses need version 2; in
    version 1, access type 3 is a request for [silent_v1] only. *)
Definition requested (silent_v1 : bool) (payload : list Z) : udp_request :=
  let v1 := is_v1 payload in
  let address := be_field 4 4 payload in
  let data16 := if v1 then be_field 2 2 payload else be_field 14 2 payload in
  let data32 := be_field 12 4 payload in
  match nth 0 payload 0 with
  | 1 => UdpRead16 address
  | 2 => UdpWrite16 address data16 true
  | 3 => if v1 && negb silent_v1 then UdpInvalid else UdpWrite16 address data16 false
  | 4 => if v1 then UdpInvalid else UdpRead32 address
  | 5 => if v1 then UdpInvalid else UdpWrite32 address data32 true
  | 6 => if v1 then UdpInvalid else UdpWrite32 address data32 false
  | _ => UdpInvalid
  end.

(** The firmware accepts access type 3 in both versions, README.md has it in
    version 2. *)
Definition udp_decode : list Z -> udp_request := requested true.
Definition readme_decode : list Z -> udp_request := requested false.

Definition beyond_readme (payload : list Z) : bool := is_v1 payload && (nth 0 payload 0 =? 3).

Lemma decode_readme payload : beyond_readme payload = false -> udp_decode payload = readme_decode payload.
Proof.
  unfold beyond_readme, udp_decode, readme_decode, requested. intros Hb.
  destruct (is_v1 payload); [|done]. cbn [andb] in *. apply Z.eqb_neq in Hb.
  destruct (nth 0 payload 0) as [|p|p]; [done| |done]. destruct p as [[|[]|]| |]; done.
Qed.

(** The status and, where the reply has new data, the data.  [garbage] stands
    for the data of a 32-bit reply whose read has failed.  After a failed 32-bit
    write the firmware still reads back, and reports the timeout. *)
Definition udp_execute {E} `{Opb E} (garbage : Z) (r : udp_request) : prog E (Z * option Z) :=
  let read16 a :=
    let! (status, data) := opb_read_short a in
    Ret (if status =? 0 then (FPGA_STATUS_OK, data) else (FPGA_STATUS_TIMEOUT, None)) in
  match r with
  | UdpRead16 a => read16 a
  | UdpWrite16 a d readback =>
    let! status := opb_write_short a d in
    if negb (status =? 0) then Ret (FPGA_STATUS_TIMEOUT, None)
    else if readback then read16 a else Ret (FPGA_STATUS_OK, None)
  | UdpRead32 a =>
    let! (status, data) := opb_read_long a in
    Ret (if status =? 0 then FPGA_STATUS_OK else FPGA_STATUS_TIMEOUT, Some (default garbage data))
  | UdpWrite32 a d readback =>
    let! written := opb_write_long a d in
    if negb readback
    then Ret (if written =? 0 then FPGA_STATUS_OK else FPGA_STATUS_TIMEOUT, None)
    else
      let! (status, data) := opb_read_long a in
      Ret (if (written =? 0) && (status =? 0) then FPGA_STATUS_OK else FPGA_STATUS_TIMEOUT,
           Some (default garbage data))
  | UdpInvalid => Ret (FPGA_STATUS_INVALID_CMD, None)
  end.

(** README.md: the register is read back after a successful write. *)
Definition readme_execute {E} `{Opb E} (garbage : Z) (r : udp_request) : prog E (Z * option Z) :=
  let read16 a :=
    let! (status, data) := opb_read_short a in
    Ret (if status =? 0 then (FPGA_STATUS_OK, data) else (FPGA_STATUS_TIMEOUT, None)) in
  let read32 a :=
    let! (status, data) := opb_read_long a in
    Ret (if status =? 0 then FPGA_STATUS_OK else FPGA_STATUS_TIMEOUT, Some (default garbage data)) in
  let write p readback :=
    let! status := p in
    if negb (status =? 0) then Ret (FPGA_STATUS_TIMEOUT, None)
    else match readback with Some read => read | None => Ret (FPGA_STATUS_OK, None) end in
  match r with
  | UdpRead16 a => read16 a
  | UdpWrite16 a d readback => write (opb_write_short a d) (if readback then Some (read16 a) else None)
  | UdpRead32 a => read32 a
  | UdpWrite32 a d readback => write (opb_write_long a d) (if readback then Some (read32 a) else None)
  | UdpInvalid => Ret (FPGA_STATUS_INVALID_CMD, None)
  end.

(** The reply keeps access type, address, reference and what is reserved. *)
Definition udp_reply (payload : list Z) (r : Z * option Z) : list Z :=
  let '(status, data) := r in
  take 1 payload ++ [u8 status] ++
  (if is_v1 payload
   then match data with
        | Some v => [u8 (Z.shiftr v 8); u8 v]
        | None => take 2 (drop 2 payload)
        end ++ drop 4 payload
   else take 10 (drop 2 payload) ++
        match data with Some v => be_bytes4 v | None => drop 12 payload end).

Definition udp_serve {E} `{Opb E} `{Udp E} (garbage : Z) (next : bool) (payload : list Z)
    : prog E unit :=
  if next || negb (is_packet payload) then pbuf_free_packet
  else
    let! r := udp_execute garbage (udp_decode payload) in
    let! _ := udp_sendto (udp_reply payload r) in
    pbuf_free_packet.

Definition readme_serve {E} `{Opb E} `{Udp E} (garbage : Z) (next : bool) (payload : list Z)
    : prog E unit :=
  if next || negb (is_packet payload) then pbuf_free_packet
  else
    let! r := readme_execute garbage (readme_decode payload) in
    let! _ := udp_sendto (udp_reply payload r) in
    pbuf_free_packet.

(** The request is a 32-bit write with read-back, and the write fails. *)
Definition write_fails {E S} `{Opb E} (h : forall e : op E, S -> ans E e * S) (s : S) (r : udp_request) : Prop :=
  match r with
  | UdpWrite32 a d true => exists status, (run h (opb_write_long a d) s).1 = Done status /\ status <> 0
  | _ => False
  end.

Lemma execute_readme {E S} `{Opb E} (h : forall e : op E, S -> ans E e * S) garbage r s : ~ write_fails h s r ->
  run h (udp_execute garbage r) s = run h (readme_execute garbage r) s.
Proof.
  destruct r as [a|a d []|a|a d []|]; cbn [write_fails udp_execute readme_execute negb]; intros Hw; try done;
    rewrite !run_bind; destruct (run h (opb_write_long a d) s) as [[w|x] s'] eqn:Hr; try done.
  - destruct (Z.eqb_spec w 0) as [-> |Hne]; cbn [negb andb]; [done|]. destruct Hw. by exists w.
  - by destruct (w =? 0).
Qed.

Lemma serve_readme {E S} `{Opb E} `{Udp E} (h : forall e : op E, S -> ans E e * S) garbage next payload s :
  beyond_readme payload = false -> ~ write_fails h s (udp_decode payload) ->
  run h (udp_serve garbage next payload) s = run h (readme_serve garbage next payload) s.
Proof.
  intros Hb Hw. unfold udp_serve, readme_serve. destruct (_ || _); [done|].
  rewrite !run_bind, (execute_readme h garbage _ s Hw). by rewrite (decode_readme payload Hb).
Qed.

(** ** Refinement *)

Lemma access_type_cases t :
  t = 1 \/ t = 2 \/ t = 3 \/ t = 4 \/ t = 5 \/ t = 6 \/
  ~ (t = 1 \/ t = 2 \/ t = 3 \/ t = 4 \/ t = 5 \/ t = 6).
Proof. lia. Qed.

Lemma decode_other t payload :
  nth 0 payload 0 = t -> ~ (t = 1 \/ t = 2 \/ t = 3 \/ t = 4 \/ t = 5 \/ t = 6) ->
  udp_decode payload = UdpInvalid.
Proof.
  intros <- Ht. unfold udp_decode, requested.
  destruct (nth 0 payload 0) as [|p|p]; [done| |done].
  do 3 (try (destruct p as [p|p|]; try done; try lia)).
Qed.

(** The fields of a packet in hand. *)
Lemma set_status_eq t s l x : set_status (t :: s :: l) x = Some (t :: u8 x :: l).
Proof. unfold set_status. by rewrite store_in_bounds by (simpl; lia). Qed.
Lemma get_access_type_eq t l : get_access_type (t :: l) = Some t.
Proof.
  unfold get_access_type, load. rewrite decide_True by (simpl; lia). f_equal. simpl. lia.
Qed.
Lemma get_data_v1_eq t s d1 d0 l : get_data_v1 (t :: s :: d1 :: d0 :: l) = Some (le_val [d1; d0]).
Proof. unfold get_data_v1, load. by rewrite decide_True by (simpl; lia). Qed.
Lemma get_addr_eq t s d1 d0 a3 a2 a1 a0 l :
  get_addr (t :: s :: d1 :: d0 :: a3 :: a2 :: a1 :: a0 :: l) = Some (le_val [a3; a2; a1; a0]).
Proof. unfold get_addr, load. by rewrite decide_True by (simpl; lia). Qed.
Lemma get_data_v2_eq t s d1 d0 a3 a2 a1 a0 r3 r2 r1 r0 v3 v2 v1 v0 :
  get_data_v2 [t; s; d1; d0; a3; a2; a1; a0; r3; r2; r1; r0; v3; v2; v1; v0] =
  Some (le_val [v3; v2; v1; v0]).
Proof. done. Qed.
Lemma set_data_v1_eq t s d1 d0 l v :
  set_data_v1 (t :: s :: d1 :: d0 :: l) (lwip_htons v) =
  Some (t :: s :: u8 (Z.shiftr v 8) :: u8 v :: l).
Proof.
  unfold set_data_v1. rewrite le_bytes2_htons. by rewrite store_in_bounds by (simpl; lia).
Qed.
Lemma set_data_v2_eq t s d1 d0 a3 a2 a1 a0 r3 r2 r1 r0 v3 v2 v1 v0 v :
  set_data_v2 [t; s; d1; d0; a3; a2; a1; a0; r3; r2; r1; r0; v3; v2; v1; v0] (lwip_htonl v) =
  Some ([t; s; d1; d0; a3; a2; a1; a0; r3; r2; r1; r0] ++ be_bytes4 v).
Proof. unfold set_data_v2. by rewrite le_bytes4_htonl. Qed.

Section refinement.
Context {E : Sig} {OE : Opb E} {UE : Udp E} {LE : OpbLaws E} (garbage : Z).

(** Both sides make the same call; the value of a 16-bit read is there when
    its status says so. *)
Lemma read_short_bind {A} a (f g : Z * option Z -> prog E A) :
  (forall v, f (0, Some v) ≈ g (0, Some v)) ->
  (forall status data, status <> 0 -> f (status, data) ≈ g (status, data)) ->
  bind (opb_read_short a) f ≈ bind (opb_read_short a) g.
Proof.
  intros H0 H1. eapply prog_rel_bind_returns; [apply opb_read_short_stores|].
  intros [status data] Hs. destruct (decide (status = 0)) as [-> |]; [|by apply H1].
  destruct (Hs eq_refl) as [v Hv]. simpl in Hv. subst data. apply H0.
Qed.

Lemma same_bind {A B} (p : prog E A) (f g : A -> prog E B) :
  (forall a, f a ≈ g a) -> bind p f ≈ bind p g.
Proof. intros H. by apply prog_rel_bind_same. Qed.


Ltac fields :=
  repeat first
    [ rewrite set_status_eq | rewrite get_access_type_eq | rewrite get_data_v1_eq
    | rewrite get_addr_eq | rewrite get_data_v2_eq | rewrite set_data_v1_eq
    | rewrite set_data_v2_eq | progress cbn [defined bind] ].

Ltac tests := closed_tests; cbn [orb andb negb].


(** One call on both sides, whose status decides how to go on. *)
Ltac by_status status :=
  destruct (Z.eqb_spec status 0) as [-> |?]; tests; fields; rewrite ?bind_bind.

Ltac parts :=
  unfold udp_write_part, udp_read_part, udp_execute; tests; fields; rewrite ?bind_bind.

Ltac read_short :=
  apply read_short_bind;
    [intros v; tests; fields; reflexivity
    |intros status data Hs; rewrite (proj2 (Z.eqb_neq _ _) Hs); tests; fields; reflexivity].

Lemma callback_v1 t s d1 d0 a3 a2 a1 a0 r3 r2 r1 r0 :
  let payload := [t; s; d1; d0; a3; a2; a1; a0; r3; r2; r1; r0] in
  Forall is_u8 payload ->
  udp_server_callback garbage false payload ≈ udp_serve garbage false payload.
Proof.
  intros payload H8.
  assert (lwip_ntohl (le_val [a3; a2; a1; a0]) = be_value [a3; a2; a1; a0]) as Ha.
  { apply ntohl_le. by apply (Forall_take _ 4 _ (Forall_drop _ 4 _ H8)). }
  assert (lwip_ntohs (le_val [d1; d0]) = be_value [d1; d0]) as Hd.
  { apply ntohs_le. by apply (Forall_take _ 2 _ (Forall_drop _ 2 _ H8)). }
  unfold udp_server_callback, udp_serve, payload.
  change (Z.of_nat (length _)) with 12. tests. fields.
  change (is_packet _) with true. cbn [orb negb].
  destruct (access_type_cases t) as [-> |[-> |[-> |[-> |[-> |[-> |Ht]]]]]].
  - change (udp_decode _) with (UdpRead16 (be_value [a3; a2; a1; a0])).
    parts. rewrite Ha. read_short.
  - change (udp_decode _) with
      (UdpWrite16 (be_value [a3; a2; a1; a0]) (be_value [d1; d0]) true).
    parts. rewrite Ha, Hd. apply same_bind; intros status. by_status status; [|reflexivity].
    rewrite Ha. read_short.
  - change (udp_decode _) with
      (UdpWrite16 (be_value [a3; a2; a1; a0]) (be_value [d1; d0]) false).
    parts. rewrite Ha, Hd. apply same_bind; intros status. by_status status; reflexivity.
  - change (udp_decode _) with UdpInvalid. parts. reflexivity.
  - change (udp_decode _) with UdpInvalid. parts. reflexivity.
  - change (udp_decode _) with UdpInvalid. parts. reflexivity.
  - rewrite (decode_other t) by done.
    unfold udp_write_part, udp_read_part.
    repeat match goal with |- context [t =? ?k] => rewrite (proj2 (Z.eqb_neq t k)) by (intros ->; tauto) end.
    parts. reflexivity.
Qed.

Lemma callback_v2 t s d1 d0 a3 a2 a1 a0 r3 r2 r1 r0 v3 v2 v1 v0 :
  let payload := [t; s; d1; d0; a3; a2; a1; a0; r3; r2; r1; r0; v3; v2; v1; v0] in
  Forall is_u8 payload ->
  udp_server_callback garbage false payload ≈ udp_serve garbage false payload.
Proof.
  intros payload H8.
  assert (lwip_ntohl (le_val [a3; a2; a1; a0]) = be_value [a3; a2; a1; a0]) as Ha.
  { apply ntohl_le. by apply (Forall_take _ 4 _ (Forall_drop _ 4 _ H8)). }
  assert (lwip_ntohl (le_val [v3; v2; v1; v0]) = be_value [v3; v2; v1; v0]) as Hd.
  { apply ntohl_le. by apply (Forall_drop _ 12 _ H8). }
  assert (u16 (be_value [v3; v2; v1; v0]) = be_value [v1; v0]) as Hd16.
  { apply (Forall_drop _ 14) in H8. inversion H8 as [|? ? Hv1 H8']; inversion H8' as [|? ? Hv0 ?]; subst.
    unfold is_u8, u16, be_value in *. cbn [fold_left].
    Z.to_euclidean_division_equations; lia. }
  unfold udp_server_callback, udp_serve, payload.
  change (Z.of_nat (length _)) with 16. tests. fields.
  change (is_packet _) with true. cbn [orb negb].
  destruct (access_type_cases t) as [-> |[-> |[-> |[-> |[-> |[-> |Ht]]]]]].
  - change (udp_decode _) with (UdpRead16 (be_value [a3; a2; a1; a0])).
    parts. rewrite Ha. read_short.
  - change (udp_decode _) with
      (UdpWrite16 (be_value [a3; a2; a1; a0]) (be_value [v1; v0]) true).
    parts. rewrite Ha, Hd, Hd16. apply same_bind; intros status. by_status status; [|reflexivity].
    rewrite Ha. read_short.
  - change (udp_decode _) with
      (UdpWrite16 (be_value [a3; a2; a1; a0]) (be_value [v1; v0]) false).
    parts. rewrite Ha, Hd, Hd16. apply same_bind; intros status. by_status status; reflexivity.
  - change (udp_decode _) with (UdpRead32 (be_value [a3; a2; a1; a0])).
    parts. rewrite Ha. apply same_bind; intros [status data]. by_status status; reflexivity.
  - change (udp_decode _) with
      (UdpWrite32 (be_value [a3; a2; a1; a0]) (be_value [v3; v2; v1; v0]) true).
    parts. rewrite Ha, Hd. apply same_bind; intros w. by_status w; rewrite Ha;
      (apply same_bind; intros [status data]; by_status status; reflexivity).
  - change (udp_decode _) with
      (UdpWrite32 (be_value [a3; a2; a1; a0]) (be_value [v3; v2; v1; v0]) false).
    parts. rewrite Ha, Hd. apply same_bind; intros status. by_status status; reflexivity.
  - rewrite (decode_other t) by done.
    unfold udp_write_part, udp_read_part.
    repeat match goal with |- context [t =? ?k] => rewrite (proj2 (Z.eqb_neq t k)) by (intros ->; tauto) end.
    parts. reflexivity.
Qed.
End refinement.

Lemma callback_serves {E} `{OE : Opb E} `{UE : Udp E} `{!OpbLaws E}
    (garbage : Z) (next : bool) (payload : list Z) :
  Forall is_u8 payload ->
  udp_server_callback garbage next payload ≈ udp_serve garbage next payload.
Proof.
  intros H8. destruct next; [reflexivity|].
  destruct (decide (length payload = 12%nat \/ length payload = 16%nat)) as [[Hl|Hl]|Hl].
  - do 12 (destruct payload as [|? payload]; [discriminate Hl|]).
    destruct payload; [|discriminate Hl]. by apply callback_v1.
  - do 16 (destruct payload as [|? payload]; [discriminate Hl|]).
    destruct payload; [|discriminate Hl]. by apply callback_v2.
  - unfold udp_server_callback, udp_serve, is_packet.
    rewrite bool_decide_eq_false_2 by done.
    rewrite !(proj2 (Z.eqb_neq _ _)) by lia. reflexivity.
Qed.

(** C32: The packet handler against the protocol.  Whatever the FPGA answers, a
    chained packet or one of a wrong length is dropped, any other is decoded by
    version and access type, carried out, and answered with exactly one reply in
    the same pbuf that keeps access type, address and reference; the pbuf is
    freed once in every case.  That is the protocol of README.md, with two
    exceptions that are the only ones: access type 3 is carried out in packets of
    version 1 as well, and after a 32-bit write that has failed the register is
    read back all the same.  For any other packet, and in any run in which such a
    write does not fail, the handler does exactly what README.md says. *)
Theorem udp_server_refines_protocol {E} `{OE : Opb E} `{UE : Udp E} `{!OpbLaws E}
    (garbage : Z) (next : bool) (payload : list Z) :
  Forall is_u8 payload ->
  udp_server_callback garbage next payload ≈ udp_serve garbage next payload /\
  forall S (h : forall e : op E, S -> ans E e * S) s,
    beyond_readme payload = false -> ~ write_fails h s (udp_decode payload) ->
    run h (udp_server_callback garbage next payload) s = run h (readme_serve garbage next payload) s.
Proof.
  intros H8. split; [by apply callback_serves|]. intros S h s Hb Hw.
  rewrite (peq_run h _ _ s (callback_serves garbage next payload H8)). by apply serve_readme.
Qed.
