(* ===== verification/UdpSystem.v ===== *)
(** * The UDP server linked to the FPGA access of the board

    The handler of UdpServer.v over the functions of FpgaTwi.v over the driver
    of Twi.v, run against the controller of TwiBus.v: from the packet to the
    bytes on the bus and back. *)

From S2P Require Import Prelude Prog Twi TwiBus FpgaTwi UdpServer.

(** ** The calls of the linked program *)

Inductive uop :=
| OnHw (e : hwop)
| UdpNew
| UdpBind (port : Z)
| UdpRecv
| UdpSend (payload : list Z)
| FreePacket
| TaskDelete.

Definition uop_ans (e : uop) : Type :=
  match e with
  | OnHw e => hw_ans e
  | UdpNew => bool
  | UdpBind _ | UdpSend _ => Z
  | _ => unit
  end.

Definition usys : Sig := {| op := uop; ans := uop_ans |}.

Definition on_bus {A} (p : prog hw A) : prog usys A :=
  @embed hw usys OnHw (fun _ x => x) A p.

Section linked.
Context (fuel : nat) (garbage : list Z).
#[local] Instance linked_bus : TwoWire hw := twi0_two_wire (S (S fuel)).

#[export] Instance usys_opb : Opb usys := {|
  opb_read_byte a := on_bus (fpga_read_byte garbage a);
  opb_read_short a := on_bus (fpga_read_short garbage a);
  opb_read_long a := on_bus (fpga_read_long garbage a);
  opb_write_byte a d := on_bus (fpga_write_byte a d);
  opb_write_short a d := on_bus (fpga_write_short a d);
  opb_write_long a d := on_bus (fpga_write_long a d)
|}.

#[export] Instance usys_opb_laws : OpbLaws usys.
Proof.
  split; intros a; apply returns_embed.
  - apply (opb_read_byte_stores (H := two_wire_opb garbage)).
  - apply (opb_read_short_stores (H := two_wire_opb garbage)).
  - apply (opb_read_long_stores (H := two_wire_opb garbage)).
Qed.

#[export] Instance usys_udp : Udp usys := {|
  udp_new := @trigger usys UdpNew;
  udp_bind port := @trigger usys (UdpBind port);
  udp_recv := @trigger usys UdpRecv;
  udp_sendto p := @trigger usys (UdpSend p);
  pbuf_free_packet := @trigger usys FreePacket;
  vTaskDelete := @trigger usys TaskDelete
|}.
End linked.

(** The board: the controller, the datagrams sent and the pbufs freed. *)
Record board := Board { bus_of : controller; sent : list (list Z); freed : nat }.

Definition with_bus (c : controller) (b : board) : board := Board c (sent b) (freed b).

Definition board_handler (e : uop) (b : board) : uop_ans e * board :=
  match e with
  | OnHw e => let '(x, c) := ctl e (bus_of b) in (x, with_bus c b)
  | UdpNew => (true, b)
  | UdpBind _ => (0, b)
  | UdpRecv => (tt, b)
  | UdpSend p => (0, Board (bus_of b) (sent b ++ [p]) (freed b))
  | FreePacket => (tt, Board (bus_of b) (sent b) (S (freed b)))
  | TaskDelete => (tt, b)
  end.

Definition brun {A} (p : prog usys A) (b : board) : outcome A * board :=
  @run usys board A board_handler p b.

Lemma brun_bind {A B} (p : prog usys A) (f : A -> prog usys B) b :
  brun (bind p f) b =
  match brun p b with
  | (Done a, b') => brun (f a) b'
  | (Stop x, b') => (Stop x, b')
  end.
Proof. apply run_bind. Qed.

Lemma brun_peq {A} (p q : prog usys A) b : p ≈ q -> brun p b = brun q b.
Proof. apply peq_run. Qed.

Lemma brun_on_bus {A} (p : prog hw A) b :
  brun (on_bus p) b = ((crun p (bus_of b)).1, with_bus (crun p (bus_of b)).2 b).
Proof.
  apply (@run_embed hw usys controller board A ctl board_handler OnHw (fun _ x => x) bus_of with_bus);
    [by intros []|done|done|].
  intros e t. simpl. by destruct (ctl e (bus_of t)) as [x c].
Qed.

(** ** What a request does to the FPGA *)

Definition request_accesses (r : udp_request) : list access :=
  match r with
  | UdpRead16 a => [ReadAccess W16 a]
  | UdpWrite16 a d readback => WriteAccess W16 a d :: (if readback then [ReadAccess W16 a] else [])
  | UdpRead32 a => [ReadAccess W32 a]
  | UdpWrite32 a d readback => WriteAccess W32 a d :: (if readback then [ReadAccess W32 a] else [])
  | UdpInvalid => []
  end.

Definition request_status (r : udp_request) : Z :=
  match r with UdpInvalid => FPGA_STATUS_INVALID_CMD | _ => FPGA_STATUS_OK end.

(** The value of the read, when there is one; the answer is at the head of the
    received bytes. *)
Definition request_data (r : udp_request) (rx : list Z) : option Z :=
  match rev (request_accesses r) with a :: _ => access_result a rx | [] => None end.

Definition request_consumes (r : udp_request) : nat :=
  list_sum (map access_consumes (request_accesses r)).

Lemma be_field_range off n payload :
  Forall is_u8 payload -> (off + n <= length payload)%nat ->
  0 <= be_field off n payload < 2 ^ (8 * Z.of_nat n).
Proof.
  intros H8 Hl. unfold be_field. rewrite be_value_le.
  assert (length (take n (drop off payload)) = n) as Hn
    by (rewrite length_take, length_drop; lia).
  assert (Forall is_u8 (rev (take n (drop off payload)))) as Hr
    by (by apply Forall_rev, Forall_take, Forall_drop).
  apply le_val_range in Hr. by rewrite length_rev, Hn in Hr.
Qed.

Lemma decoded_accesses_ok payload :
  Forall is_u8 payload -> is_packet payload = true ->
  Forall access_ok (request_accesses (udp_decode payload)).
Proof.
  intros H8 Hl%bool_decide_eq_true.
  pose proof (be_field_range 4 4 payload H8 ltac:(lia)) as Ha.
  assert (0 <= (if is_v1 payload then be_field 2 2 payload else be_field 14 2 payload) < 2 ^ 16) as Hd.
  { unfold is_v1. case_bool_decide; apply (be_field_range _ 2); (done || lia). }
  assert (is_v1 payload = true \/ 0 <= be_field 12 4 payload < 2 ^ 32) as Hd'.
  { unfold is_v1. case_bool_decide; [by left|right]. apply (be_field_range 12 4); (done || lia). }
  unfold udp_decode, requested. cbv zeta.
  assert (forall w d rb, 0 <= d < 2 ^ (8 * Z.of_nat (width_bytes w)) ->
    Forall access_ok (WriteAccess w (be_field 4 4 payload) d ::
      (if rb : bool then [ReadAccess w (be_field 4 4 payload)] else []))) as Hw.
  { intros w d rb Hdw. constructor; [by split|]. destruct rb; repeat constructor; apply Ha. }
  assert (forall w, Forall access_ok [ReadAccess w (be_field 4 4 payload)]) as Hr
    by (intros w; repeat constructor; apply Ha).
  destruct (is_v1 payload); [clear Hd'|destruct Hd' as [|Hd']; [done|]];
    (destruct (nth 0 payload 0) as [|p|p]; [constructor| |constructor]);
    do 3 (try destruct p as [p|p|]); cbn [request_accesses];
    solve [constructor | apply Hr | apply (Hw W16 _ true), Hd | apply (Hw W16 _ false), Hd
          | apply (Hw W32 _ true), Hd' | apply (Hw W32 _ false), Hd'].
Qed.

(** ** Running a request *)

Section run.
Context (fuel : nat) (garbage : list Z) (garbage32 : Z).
Hypothesis garbage_length : length garbage = 5%nat.
#[local] Instance run_bus : TwoWire hw := linked_bus fuel.
#[local] Instance run_opb : Opb usys := usys_opb fuel garbage.

(** What an access leaves behind, its value apart. *)
Definition accessed (a : access) (b b' : board) : Prop :=
  sent b' = sent b /\ freed b' = freed b /\
  bus_log (bus_of b') = bus_log (bus_of b) ++ access_events a /\
  rx_queue (bus_of b') = drop (access_consumes a) (rx_queue (bus_of b)).

Lemma board_access a b :
  access_ok a -> Forall is_u8 (rx_queue (bus_of b)) ->
  (access_consumes a <= length (rx_queue (bus_of b)))%nat ->
  exists b', brun (on_bus (perform garbage a)) b =
    (Done (TWI_SUCCESS, access_result a (rx_queue (bus_of b))), b') /\ accessed a b b'.
Proof.
  intros Ha H8 Hrx. pose proof (access_ready fuel garbage a (bus_of b) Ha garbage_length H8 Hrx) as H.
  rewrite brun_on_bus. unfold run_bus, linked_bus. unfold bus in H.
  destruct (crun (@perform hw (twi0_two_wire (S (S fuel))) garbage a) (bus_of b)) as [r c'].
  destruct H as (-> & Hl & Hq). eexists. split; [reflexivity|]. by repeat split.
Qed.

Lemma board_write (p : prog hw Z) a b :
  (forall c, crun (perform garbage a) c = crun (let! status := p in Ret (status, None)) c) ->
  access_result a (rx_queue (bus_of b)) = None ->
  access_ok a -> Forall is_u8 (rx_queue (bus_of b)) ->
  (access_consumes a <= length (rx_queue (bus_of b)))%nat ->
  exists b', brun (on_bus p) b = (Done TWI_SUCCESS, b') /\ accessed a b b'.
Proof.
  intros Hp Hres Ha H8 Hrx. destruct (board_access a b Ha H8 Hrx) as (b' & Hr & Hb').
  rewrite brun_on_bus, Hp, crun_bind in Hr. rewrite brun_on_bus.
  destruct (crun p (bus_of b)) as [[st|h] c']; simpl in Hr; [|discriminate].
  injection Hr as -> _ <-. by exists (with_bus c' b).
Qed.

(** The status, the value and what the board has seen. *)
Definition served (r : udp_request) (b b' : board) : Prop :=
  sent b' = sent b /\ freed b' = freed b /\
  bus_log (bus_of b') = bus_log (bus_of b) ++ concat (map access_events (request_accesses r)) /\
  rx_queue (bus_of b') = drop (request_consumes r) (rx_queue (bus_of b)).

Lemma write_access w a d b :
  access_ok (WriteAccess w a d) -> Forall is_u8 (rx_queue (bus_of b)) ->
  exists b', brun (on_bus match w with W8 => fpga_write_byte a d | W16 => fpga_write_short a d
    | W32 => fpga_write_long a d end) b = (Done TWI_SUCCESS, b') /\
    accessed (WriteAccess w a d) b b'.
Proof. intros Ha H8. apply (board_write _ (WriteAccess w a d)); try done. simpl; lia. Qed.

Lemma read_served w a b b' : accessed (ReadAccess w a) b b' -> w <> W8 ->
  served (match w with W32 => UdpRead32 a | _ => UdpRead16 a end) b b'.
Proof.
  intros (Hs & Hf & Hl & Hq) Hw. unfold served. destruct w; [done| |];
    (split; [done|]; split; [done|]; split; [|done]); rewrite Hl; cbn [request_accesses map concat]; by rewrite app_nil_r.
Qed.

(** A write, and the read-back after it. *)
Lemma write_served w a d readback b b' b'' : accessed (WriteAccess w a d) b b' -> w <> W8 ->
  (if readback : bool then accessed (ReadAccess w a) b' b'' else b'' = b') ->
  served (match w with W32 => UdpWrite32 a d readback | _ => UdpWrite16 a d readback end) b b''.
Proof.
  intros (Hs & Hf & Hl & Hq) Hw Hrb.
  assert (sent b'' = sent b /\ freed b'' = freed b /\
    bus_log (bus_of b'') = bus_log (bus_of b) ++ concat (map access_events
      (WriteAccess w a d :: (if readback then [ReadAccess w a] else []))) /\
    rx_queue (bus_of b'') = drop (if readback then 5 else 0) (rx_queue (bus_of b))) as Hall.
  { destruct readback; cbn [map concat]; rewrite app_nil_r; [|by subst].
    destruct Hrb as (Hs' & Hf' & Hl' & Hq').
    rewrite Hs', Hf', Hl', Hq', Hl, Hq. by rewrite <- app_assoc. }
  unfold served. destruct w; [done| |]; destruct readback; exact Hall.
Qed.

(** The four calls the server makes. *)
Lemma read_short_step a b :
  access_ok (ReadAccess W16 a) -> Forall is_u8 (rx_queue (bus_of b)) ->
  (5 <= length (rx_queue (bus_of b)))%nat ->
  exists b', brun (opb_read_short a) b =
    (Done (TWI_SUCCESS, access_result (ReadAccess W16 a) (rx_queue (bus_of b))), b') /\
    accessed (ReadAccess W16 a) b b'.
Proof. exact (board_access (ReadAccess W16 a) b). Qed.

Lemma read_long_step a b :
  access_ok (ReadAccess W32 a) -> Forall is_u8 (rx_queue (bus_of b)) ->
  (5 <= length (rx_queue (bus_of b)))%nat ->
  exists b', brun (opb_read_long a) b =
    (Done (TWI_SUCCESS, access_result (ReadAccess W32 a) (rx_queue (bus_of b))), b') /\
    accessed (ReadAccess W32 a) b b'.
Proof. exact (board_access (ReadAccess W32 a) b). Qed.

Lemma write_short_step a d b :
  access_ok (WriteAccess W16 a d) -> Forall is_u8 (rx_queue (bus_of b)) ->
  exists b', brun (opb_write_short a d) b = (Done TWI_SUCCESS, b') /\
    accessed (WriteAccess W16 a d) b b'.
Proof. exact (write_access W16 a d b). Qed.

Lemma write_long_step a d b :
  access_ok (WriteAccess W32 a d) -> Forall is_u8 (rx_queue (bus_of b)) ->
  exists b', brun (opb_write_long a d) b = (Done TWI_SUCCESS, b') /\
    accessed (WriteAccess W32 a d) b b'.
Proof. exact (write_access W32 a d b). Qed.

Lemma accessed_write_rx w a d b b' :
  accessed (WriteAccess w a d) b b' -> rx_queue (bus_of b') = rx_queue (bus_of b).
Proof. intros (_ & _ & _ & Hq). by rewrite Hq. Qed.

Lemma board_execute r b :
  Forall access_ok (request_accesses r) -> Forall is_u8 (rx_queue (bus_of b)) ->
  (request_consumes r <= length (rx_queue (bus_of b)))%nat ->
  exists b', brun (udp_execute garbage32 r) b =
    (Done (request_status r, request_data r (rx_queue (bus_of b))), b') /\ served r b b'.
Proof.
  intros Hok H8 Hrx. destruct r as [a|a d readback|a|a d readback|];
    cbn [request_accesses] in Hok; try (apply Forall_cons_iff in Hok as [Ha Hok]);
    unfold udp_execute; rewrite ?brun_bind.
  - destruct (read_short_step a b Ha H8 Hrx) as (b' & -> & Hb'). exists b'. split; [done|].
    by apply read_served in Hb'.
  - destruct (write_short_step a d b Ha H8) as (b1 & -> & Hb1).
    cbv beta iota. cbn [negb Z.eqb TWI_SUCCESS]. pose proof (accessed_write_rx _ _ _ _ _ Hb1) as Hq.
    destruct readback; [|exists b1; split; [done|]; by apply (write_served W16 a d false b b1 b1)].
    apply Forall_cons_iff in Hok as [Ha' _]. rewrite <- Hq in H8, Hrx |- *. rewrite brun_bind.
    destruct (read_short_step a b1 Ha' H8 Hrx) as (b2 & -> & Hb2).
    exists b2. split; [done|]. by apply (write_served W16 a d true b b1 b2).
  - destruct (read_long_step a b Ha H8 Hrx) as (b' & -> & Hb'). exists b'. split; [done|].
    by apply read_served in Hb'.
  - destruct (write_long_step a d b Ha H8) as (b1 & -> & Hb1).
    cbv beta iota. cbn [negb Z.eqb TWI_SUCCESS]. pose proof (accessed_write_rx _ _ _ _ _ Hb1) as Hq.
    destruct readback; [|exists b1; split; [done|]; by apply (write_served W32 a d false b b1 b1)].
    apply Forall_cons_iff in Hok as [Ha' _]. rewrite <- Hq in H8, Hrx |- *. cbn [negb]. rewrite brun_bind.
    destruct (read_long_step a b1 Ha' H8 Hrx) as (b2 & -> & Hb2).
    exists b2. split; [done|]. by apply (write_served W32 a d true b b1 b2).
  - exists b. split; [done|]. repeat split. cbn [request_accesses map concat].
    by rewrite app_nil_r.
Qed.
End run.

(** C4: From the datagram to the bus and back: on a bus that acknowledges, a
    packet of either version whose request is valid puts on the bus exactly
    the accesses it asks for (the read-back after the write included), and is
    answered with one datagram that carries status 0 and, for every request
    that reads, the big-endian value the FPGA sent; an invalid request touches
    no register and is answered with -3.  What a packet asks for is what
    README.md says, except that access type 3 is a request in version 1 too. *)
Theorem udp_request_on_the_board fuel garbage garbage32 payload b :
  length garbage = 5%nat -> Forall is_u8 payload -> is_packet payload = true ->
  let r := udp_decode payload in
  Forall is_u8 (rx_queue (bus_of b)) ->
  (request_consumes r <= length (rx_queue (bus_of b)))%nat ->
  let '(o, b') := brun (@udp_server_callback usys (usys_opb fuel garbage) usys_udp
                          garbage32 false payload) b in
  o = Done tt /\
  sent b' = sent b ++ [udp_reply payload (request_status r, request_data r (rx_queue (bus_of b)))] /\
  freed b' = S (freed b) /\
  bus_log (bus_of b') = bus_log (bus_of b) ++ concat (map access_events (request_accesses r)) /\
  rx_queue (bus_of b') = drop (request_consumes r) (rx_queue (bus_of b)) /\
  (beyond_readme payload = false -> r = readme_decode payload).
Proof.
  intros Hg H8 Hp r Hrx8 Hrx. pose proof (decode_readme payload) as Hreadme. fold r in Hreadme.
  pose proof (usys_opb_laws fuel garbage) as Hlaws.
  pose proof (@callback_serves usys (usys_opb fuel garbage) usys_udp Hlaws
    garbage32 false payload H8) as Heq.
  rewrite (brun_peq _ _ b Heq). unfold udp_serve. rewrite Hp. cbn [orb negb].
  rewrite brun_bind.
  destruct (board_execute fuel garbage garbage32 Hg r b) as (b' & Hr & Hs & Hf & Hl & Hq);
    [by apply decoded_accesses_ok|done|done|]. fold r. unfold run_opb in Hr. rewrite Hr.
  simpl. by rewrite Hs, Hf.
Qed.

(** A 32-bit write with read-back to 0x80000010. *)
Example udp_request_on_the_board_witness :
  let payload := [5; 0; 0; 0; 0x80; 0; 0; 0x10; 0; 0; 0; 7; 1; 2; 3; 4] in
  let r := udp_decode payload in
  let b := Board (Controller [] 0 [9; 1; 2; 3; 4] []) [] 0 in
  let '(o, b') := brun (@udp_server_callback usys (usys_opb 0 [0; 0; 0; 0; 0]) usys_udp
                          0 false payload) b in
  o = Done tt /\
  sent b' = [] ++ [udp_reply payload (request_status r, request_data r [9; 1; 2; 3; 4])] /\
  freed b' = 1%nat /\
  bus_log (bus_of b') = [] ++ concat (map access_events (request_accesses r)) /\
  rx_queue (bus_of b') = drop (request_consumes r) [9; 1; 2; 3; 4] /\
  (beyond_readme payload = false -> r = readme_decode payload).
Proof.
  apply (udp_request_on_the_board 0 [0; 0; 0; 0; 0] 0
    [5; 0; 0; 0; 0x80; 0; 0; 0x10; 0; 0; 0; 7; 1; 2; 3; 4]
    (Board (Controller [] 0 [9; 1; 2; 3; 4] []) [] 0)).
  1-3: first [reflexivity|repeat constructor; unfold is_u8; lia].
  - repeat constructor; unfold is_u8; lia.
  - vm_compute. lia.
Defined.

(** A 16-bit write with read-back, and a silent one in version 1, which README.md
    does not have. *)
Example udp_server_refines_protocol_witness :
  let write t := [t; 0; 0x12; 0x34; 0x80; 0; 0; 0x10; 0; 0; 0; 7] in
  let b := Board (Controller [] 0 [9; 1; 2; 3; 4] []) [] 0 in
  let O := usys_opb 0 [0; 0; 0; 0; 0] in
  @udp_server_callback usys O usys_udp 0 false (write 3) ≈ @udp_serve usys O usys_udp 0 false (write 3) /\
  beyond_readme (write 3) = true /\ beyond_readme (write 2) = false /\
  @run usys board unit board_handler (@udp_server_callback usys O usys_udp 0 false (write 2)) b =
  @run usys board unit board_handler (@readme_serve usys O usys_udp 0 false (write 2)) b.
Proof.
  intros write b O. assert (forall t, is_u8 t -> Forall is_u8 (write t)) as H8
    by (intros t Ht; repeat constructor; unfold is_u8 in *; lia).
  destruct (@udp_server_refines_protocol usys O usys_udp (usys_opb_laws 0 _) 0 false (write 3)) as [Heq _];
    [by apply H8|].
  destruct (@udp_server_refines_protocol usys O usys_udp (usys_opb_laws 0 _) 0 false (write 2)) as [_ Hrun];
    [by apply H8|].
  split; [exact Heq|]. split; [done|]. split; [done|]. apply (Hrun board board_handler b); [done|]. by intros [].
Defined.
