(* ===== verification/Spi.v ===== *)
(** * The SPI driver

    src/src/ASF/sam/drivers/spi/spi.c with the inline functions of spi.h, and
    the master service src/src/ASF/common/services/spi/sam_spi/spi_master.c,
    both as built for the SAM3X.  An SPI instance is its base address. *)

From S2P Require Import Prelude Prog Pmc.

(** ** Registers *)

Definition SPI0 : Z := 0x40008000.
Definition SPI1 : Z := 0x4000C000.
Definition ID_SPI0 : Z := 24.
Definition ID_SPI1 : Z := 25.

Definition SPI_CR p := p + 0x00.
Definition SPI_MR p := p + 0x04.
Definition SPI_RDR p := p + 0x08.
Definition SPI_TDR p := p + 0x0C.
Definition SPI_SR p := p + 0x10.
Definition SPI_IER p := p + 0x14.
Definition SPI_IDR p := p + 0x18.
Definition SPI_IMR p := p + 0x1C.
Definition SPI_CSR p ch := p + 0x30 + 4 * ch.
Definition SPI_WPMR p := p + 0xE4.
Definition SPI_WPSR p := p + 0xE8.

Definition SPI_CR_SPIEN : Z := Z.shiftl 1 0.
Definition SPI_CR_SPIDIS : Z := Z.shiftl 1 1.
Definition SPI_CR_SWRST : Z := Z.shiftl 1 7.
Definition SPI_CR_LASTXFER : Z := Z.shiftl 1 24.

Definition SPI_MR_MSTR : Z := Z.shiftl 1 0.
Definition SPI_MR_PS : Z := Z.shiftl 1 1.
Definition SPI_MR_PCSDEC : Z := Z.shiftl 1 2.
Definition SPI_MR_MODFDIS : Z := Z.shiftl 1 4.
Definition SPI_MR_WDRBT : Z := Z.shiftl 1 5.
Definition SPI_MR_LLB : Z := Z.shiftl 1 7.
Definition SPI_MR_PCS_Msk : Z := Z.shiftl 0xf 16.
Definition SPI_MR_PCS (value : Z) : Z := Z.land SPI_MR_PCS_Msk (u32 (Z.shiftl value 16)).
Definition SPI_MR_DLYBCS_Msk : Z := Z.shiftl 0xff 24.
Definition SPI_MR_DLYBCS (value : Z) : Z := Z.land SPI_MR_DLYBCS_Msk (u32 (Z.shiftl value 24)).

Definition SPI_RDR_RD_Msk : Z := Z.shiftl 0xffff 0.
Definition SPI_RDR_PCS_Pos : Z := 16.
Definition SPI_RDR_PCS_Msk : Z := Z.shiftl 0xf 16.
Definition SPI_TDR_TD (value : Z) : Z := Z.land 0xffff value.
Definition SPI_TDR_PCS (value : Z) : Z := Z.land (Z.shiftl 0xf 16) (u32 (Z.shiftl value 16)).
Definition SPI_TDR_LASTXFER : Z := Z.shiftl 1 24.

Definition SPI_SR_RDRF : Z := Z.shiftl 1 0.
Definition SPI_SR_TDRE : Z := Z.shiftl 1 1.
Definition SPI_SR_TXEMPTY : Z := Z.shiftl 1 9.
Definition SPI_SR_SPIENS : Z := Z.shiftl 1 16.

Definition SPI_CSR_CPOL : Z := Z.shiftl 1 0.
Definition SPI_CSR_NCPHA : Z := Z.shiftl 1 1.
Definition SPI_CSR_CSNAAT : Z := Z.shiftl 1 2.
Definition SPI_CSR_CSAAT : Z := Z.shiftl 1 3.
Definition SPI_CSR_BITS_Msk : Z := Z.shiftl 0xf 4.
Definition SPI_CSR_SCBR_Msk : Z := Z.shiftl 0xff 8.
Definition SPI_CSR_SCBR (value : Z) : Z := Z.land SPI_CSR_SCBR_Msk (u32 (Z.shiftl value 8)).
Definition SPI_CSR_DLYBS_Msk : Z := Z.shiftl 0xff 16.
Definition SPI_CSR_DLYBS (value : Z) : Z := Z.land SPI_CSR_DLYBS_Msk (u32 (Z.shiftl value 16)).
Definition SPI_CSR_DLYBCT_Msk : Z := Z.shiftl 0xff 24.
Definition SPI_CSR_DLYBCT (value : Z) : Z := Z.land SPI_CSR_DLYBCT_Msk (u32 (Z.shiftl value 24)).

Definition SPI_WPMR_WPEN : Z := Z.shiftl 1 0.
Definition SPI_WPMR_WPKEY_PASSWD : Z :=
  Z.land (Z.shiftl 0xffffff 8) (u32 (Z.shiftl 0x535049 8)).

Definition SPI_TIMEOUT : Z := 15000.
Definition SPI_OK : Z := 0.
Definition SPI_ERROR_TIMEOUT : Z := 1.
Definition SPI_CS_KEEP_LOW : Z := SPI_CSR_CSAAT.
Definition SPI_CS_RISE_NO_TX : Z := 0.
Definition SPI_CS_RISE_FORCED : Z := SPI_CSR_CSNAAT.
Definition STATUS_OK : Z := 0.
Definition ERR_TIMEOUT : Z := -3.

(** ** The inline functions of spi.h *)

Definition spi_reset (p : Z) := wr (SPI_CR p) SPI_CR_SWRST.
Definition spi_enable (p : Z) := wr (SPI_CR p) SPI_CR_SPIEN.
Definition spi_disable (p : Z) := wr (SPI_CR p) SPI_CR_SPIDIS.
Definition spi_set_lastxfer (p : Z) := wr (SPI_CR p) SPI_CR_LASTXFER.
Definition spi_set_master_mode (p : Z) := set_bits (SPI_MR p) SPI_MR_MSTR.
Definition spi_set_slave_mode (p : Z) := clear_bits (SPI_MR p) SPI_MR_MSTR.
Definition spi_get_mode (p : Z) := test_bits (SPI_MR p) SPI_MR_MSTR.
Definition spi_set_variable_peripheral_select (p : Z) := set_bits (SPI_MR p) SPI_MR_PS.
Definition spi_set_fixed_peripheral_select (p : Z) := clear_bits (SPI_MR p) SPI_MR_PS.
Definition spi_get_peripheral_select_mode (p : Z) := test_bits (SPI_MR p) SPI_MR_PS.
Definition spi_enable_peripheral_select_decode (p : Z) := set_bits (SPI_MR p) SPI_MR_PCSDEC.
Definition spi_disable_peripheral_select_decode (p : Z) := clear_bits (SPI_MR p) SPI_MR_PCSDEC.
Definition spi_get_peripheral_select_decode_setting (p : Z) := test_bits (SPI_MR p) SPI_MR_PCSDEC.
Definition spi_enable_mode_fault_detect (p : Z) := clear_bits (SPI_MR p) SPI_MR_MODFDIS.
Definition spi_disable_mode_fault_detect (p : Z) := set_bits (SPI_MR p) SPI_MR_MODFDIS.
Definition spi_get_mode_fault_detect_setting (p : Z) := test_bits (SPI_MR p) SPI_MR_MODFDIS.
Definition spi_enable_tx_on_rx_empty (p : Z) := set_bits (SPI_MR p) SPI_MR_WDRBT.
Definition spi_disable_tx_on_rx_empty (p : Z) := clear_bits (SPI_MR p) SPI_MR_WDRBT.
Definition spi_get_tx_on_rx_empty_setting (p : Z) := test_bits (SPI_MR p) SPI_MR_WDRBT.
Definition spi_enable_loopback (p : Z) := set_bits (SPI_MR p) SPI_MR_LLB.
Definition spi_disable_loopback (p : Z) := clear_bits (SPI_MR p) SPI_MR_LLB.
Definition spi_read_status (p : Z) := rd (SPI_SR p).
Definition spi_is_enabled (p : Z) := test_bits (SPI_SR p) SPI_SR_SPIENS.
Definition spi_put (p data : Z) := wr (SPI_TDR p) (SPI_TDR_TD data).
Definition spi_get (p : Z) : prog hw Z :=
  let! v := rd (SPI_RDR p) in Ret (Z.land v SPI_RDR_RD_Msk).
Definition spi_is_tx_empty (p : Z) := test_bits (SPI_SR p) SPI_SR_TXEMPTY.
Definition spi_is_tx_ready (p : Z) := test_bits (SPI_SR p) SPI_SR_TDRE.
Definition spi_is_rx_full (p : Z) := test_bits (SPI_SR p) SPI_SR_RDRF.
Definition spi_is_rx_ready (p : Z) : prog hw Z :=
  let! v := rd (SPI_SR p) in
  Ret (if Z.land v (Z.lor SPI_SR_RDRF SPI_SR_TXEMPTY) =? Z.lor SPI_SR_RDRF SPI_SR_TXEMPTY
       then 1 else 0).
Definition spi_enable_interrupt (p sources : Z) := wr (SPI_IER p) sources.
Definition spi_disable_interrupt (p sources : Z) := wr (SPI_IDR p) sources.
Definition spi_read_interrupt_mask (p : Z) := rd (SPI_IMR p).

(** ** spi.c *)

Definition spi_enable_clock (p : Z) : prog hw unit :=
  if p =? SPI0 then sysclk_enable_peripheral_clock ID_SPI0
  else if p =? SPI1 then sysclk_enable_peripheral_clock ID_SPI1 else Ret tt.

Definition spi_disable_clock (p : Z) : prog hw unit :=
  if p =? SPI0 then (let! _ := pmc_disable_periph_clk ID_SPI0 in Ret tt)
  else if p =? SPI1 then (let! _ := pmc_disable_periph_clk ID_SPI1 in Ret tt) else Ret tt.

Definition spi_set_peripheral_chip_select_value (p ul_value : Z) : prog hw unit :=
  clear_bits (SPI_MR p) SPI_MR_PCS_Msk;;
  set_bits (SPI_MR p) (SPI_MR_PCS ul_value).

Definition spi_set_delay_between_chip_select (p ul_delay : Z) : prog hw unit :=
  clear_bits (SPI_MR p) SPI_MR_DLYBCS_Msk;;
  set_bits (SPI_MR p) (SPI_MR_DLYBCS ul_delay).

(** [while (!cond) if (!timeout--) return ERR;]: one test more than [timeout]. *)
Fixpoint poll (timeout : nat) (cond : prog hw Z) : prog hw bool :=
  let! c := cond in
  if negb (c =? 0) then Ret true
  else match timeout with O => Ret false | S t => poll t cond end.

(** Result: the status, the data and the PCS stored through the pointers. *)
Definition spi_read (p : Z) : prog hw (Z * option Z * option Z) :=
  let! ready := poll (Z.to_nat SPI_TIMEOUT) (spi_is_rx_full p) in
  if negb ready then Ret (SPI_ERROR_TIMEOUT, None, None)
  else
    let! reg_value := rd (SPI_RDR p) in
    let! ps := spi_get_peripheral_select_mode p in
    Ret (SPI_OK, Some (Z.land reg_value SPI_RDR_RD_Msk),
         if negb (ps =? 0)
         then Some (u8 (Z.shiftr (Z.land reg_value SPI_RDR_PCS_Msk) SPI_RDR_PCS_Pos)) else None).

Definition spi_write (p us_data uc_pcs uc_last : Z) : prog hw Z :=
  let! ready := poll (Z.to_nat SPI_TIMEOUT) (spi_is_tx_ready p) in
  if negb ready then Ret SPI_ERROR_TIMEOUT
  else
    let! ps := spi_get_peripheral_select_mode p in
    let value :=
      if negb (ps =? 0) then
        let value := Z.lor (SPI_TDR_TD us_data) (SPI_TDR_PCS uc_pcs) in
        if negb (uc_last =? 0) then Z.lor value SPI_TDR_LASTXFER else value
      else SPI_TDR_TD us_data in
    wr (SPI_TDR p) value;;
    Ret SPI_OK.

Definition spi_set_clock_polarity (p ch ul_polarity : Z) : prog hw unit :=
  if negb (ul_polarity =? 0) then set_bits (SPI_CSR p ch) SPI_CSR_CPOL
  else clear_bits (SPI_CSR p ch) SPI_CSR_CPOL.

Definition spi_set_clock_phase (p ch ul_phase : Z) : prog hw unit :=
  if negb (ul_phase =? 0) then set_bits (SPI_CSR p ch) SPI_CSR_NCPHA
  else clear_bits (SPI_CSR p ch) SPI_CSR_NCPHA.

Definition spi_configure_cs_behavior (p ch ul_cs_behavior : Z) : prog hw unit :=
  if ul_cs_behavior =? SPI_CS_RISE_FORCED then
    clear_bits (SPI_CSR p ch) SPI_CSR_CSAAT;;
    set_bits (SPI_CSR p ch) SPI_CSR_CSNAAT
  else if ul_cs_behavior =? SPI_CS_RISE_NO_TX then
    clear_bits (SPI_CSR p ch) SPI_CSR_CSAAT;;
    clear_bits (SPI_CSR p ch) SPI_CSR_CSNAAT
  else if ul_cs_behavior =? SPI_CS_KEEP_LOW then
    set_bits (SPI_CSR p ch) SPI_CSR_CSAAT
  else Ret tt.

Definition spi_set_bits_per_transfer (p ch ul_bits : Z) : prog hw unit :=
  clear_bits (SPI_CSR p ch) SPI_CSR_BITS_Msk;;
  set_bits (SPI_CSR p ch) ul_bits.

(** [div_ceil] on 32-bit operands; a zero baud rate divides by zero. *)
Definition div_ceil (a b : Z) : Z := u32 (u32 (a + b) - 1) / b.

Definition spi_calc_baudrate_div (baudrate mck : Z) : option Z :=
  if baudrate =? 0 then None
  else
    let baud_div := s32 (div_ceil mck baudrate) in
    Some (if (baud_div <=? 0) || (255 <? baud_div) then -1 else baud_div).

Definition spi_set_baudrate_div (p ch uc_baudrate_divider : Z) : prog hw unit :=
  clear_bits (SPI_CSR p ch) SPI_CSR_SCBR_Msk;;
  set_bits (SPI_CSR p ch) (SPI_CSR_SCBR uc_baudrate_divider).

Definition spi_set_transfer_delay (p ch uc_dlybs uc_dlybct : Z) : prog hw unit :=
  clear_bits (SPI_CSR p ch) (Z.lor SPI_CSR_DLYBS_Msk SPI_CSR_DLYBCT_Msk);;
  set_bits (SPI_CSR p ch) (Z.lor (SPI_CSR_DLYBS uc_dlybs) (SPI_CSR_DLYBCT uc_dlybct)).

Definition spi_set_writeprotect (p ul_enable : Z) : prog hw unit :=
  if negb (ul_enable =? 0) then wr (SPI_WPMR p) (Z.lor SPI_WPMR_WPKEY_PASSWD SPI_WPMR_WPEN)
  else wr (SPI_WPMR p) SPI_WPMR_WPKEY_PASSWD.

Definition spi_get_writeprotect_status (p : Z) : prog hw Z := rd (SPI_WPSR p).

(** ** spi_master.c *)

Definition MAX_NUM_WITH_DECODER : Z := 0x10.
Definition MAX_NUM_WITHOUT_DECODER : Z := 0x04.
Definition NONE_CHIP_SELECT_ID : Z := 0x0f.
Definition DEFAULT_CHIP_ID : Z := 0.
Definition CONFIG_SPI_MASTER_DELAY_BCS : Z := 0.
Definition CONFIG_SPI_MASTER_BITS_PER_TRANSFER : Z := 8.
Definition CONFIG_SPI_MASTER_DELAY_BCT : Z := 0.
Definition CONFIG_SPI_MASTER_DELAY_BS : Z := 0.
Definition CONFIG_SPI_MASTER_DUMMY : Z := 0xFF.
Definition SPI_MODE_0 : Z := 0.

Definition spi_master_init (p : Z) : prog hw unit :=
  spi_enable_clock p;;
  spi_reset p;;
  spi_set_master_mode p;;
  spi_disable_mode_fault_detect p;;
  spi_disable_loopback p;;
  spi_set_peripheral_chip_select_value p DEFAULT_CHIP_ID;;
  spi_set_fixed_peripheral_select p;;
  spi_disable_peripheral_select_decode p;;
  spi_set_delay_between_chip_select p CONFIG_SPI_MASTER_DELAY_BCS.

(** A device is its select id; [Assert] is compiled out, so that a baud rate
    without a divider sets the divider -1 as a byte. *)
Definition spi_master_setup_device (p device flags baud_rate : Z) : prog hw unit :=
  let! baud_div := defined (spi_calc_baudrate_div baud_rate sysclk_get_cpu_hz) in
  spi_set_transfer_delay p device CONFIG_SPI_MASTER_DELAY_BS CONFIG_SPI_MASTER_DELAY_BCT;;
  spi_set_bits_per_transfer p device CONFIG_SPI_MASTER_BITS_PER_TRANSFER;;
  spi_set_baudrate_div p device (u8 baud_div);;
  spi_configure_cs_behavior p device SPI_CS_KEEP_LOW;;
  spi_set_clock_polarity p device (Z.shiftr flags 1);;
  spi_set_clock_phase p device (Z.lxor (Z.land flags 0x1) 0x1).

Definition spi_select_device (p device : Z) : prog hw unit :=
  let! decode := spi_get_peripheral_select_decode_setting p in
  if negb (decode =? 0) then
    (if device <? MAX_NUM_WITH_DECODER
     then spi_set_peripheral_chip_select_value p device else Ret tt)
  else
    (if device <? MAX_NUM_WITHOUT_DECODER
     then spi_set_peripheral_chip_select_value p (not32 (Z.shiftl 1 device)) else Ret tt).

(** The wait for the end of the transmission has no timeout: [fuel] rounds. *)
Definition tx_empty_round (p : Z) (_ : unit) : prog hw (unit + unit) :=
  let! e := spi_is_tx_empty p in
  Ret (if negb (e =? 0) then inr tt else inl tt).

Definition spi_deselect_device (fuel : nat) (p : Z) : prog hw unit :=
  iter fuel (tx_empty_round p) tt;;
  spi_set_peripheral_chip_select_value p NONE_CHIP_SELECT_ID;;
  spi_set_lastxfer p.

Definition spi_write_single (p data : Z) : prog hw unit := spi_put p data.
Definition spi_read_single (p : Z) : prog hw Z := let! v := spi_get p in Ret (u8 v).

(** [data] is what the pointer points to, [len] the bytes to send: the loop
    runs over the bytes left. *)
Fixpoint spi_write_loop (p : Z) (data : list Z) (len : nat) : prog hw Z :=
  match len with
  | O => Ret STATUS_OK
  | S len =>
    let! ready := poll (Z.to_nat SPI_TIMEOUT) (spi_is_tx_ready p) in
    if negb ready then Ret ERR_TIMEOUT
    else
      let! val := defined (head data) in
      spi_write_single p val;;
      spi_write_loop p (tail data) len
  end.

Definition spi_write_packet (p : Z) (data : list Z) (len : Z) : prog hw Z :=
  spi_write_loop p data (Z.to_nat len).

(** The status and the bytes stored, in order, from the start of the buffer. *)
Fixpoint spi_read_loop (p : Z) (stored : list Z) (len : nat) : prog hw (Z * list Z) :=
  match len with
  | O => Ret (STATUS_OK, stored)
  | S len =>
    let! ready := poll (Z.to_nat SPI_TIMEOUT) (spi_is_tx_ready p) in
    if negb ready then Ret (ERR_TIMEOUT, stored)
    else
      spi_write_single p CONFIG_SPI_MASTER_DUMMY;;
      let! ready := poll (Z.to_nat SPI_TIMEOUT) (spi_is_rx_ready p) in
      if negb ready then Ret (ERR_TIMEOUT, stored)
      else
        let! val := spi_read_single p in
        spi_read_loop p (stored ++ [val]) len
  end.

Definition spi_read_packet (p : Z) (len : Z) : prog hw (Z * list Z) :=
  spi_read_loop p [] (Z.to_nat len).
