(* ===== verification/Flash.v ===== *)
(** * The serial flash (m25p128_spi.c and ext_flash.c)

    The driver of the M25P128 flash memory on SPI0,
    src/src/ASF/thirdparty/freertos/demo/lwip_sam_example/m25p128_spi.c, and the
    board data kept in it (MAC address, serial number), ext_flash.c. *)

From S2P Require Import Prelude Prog Pio Spi.

(** ** m25p128_spi.h *)

Inductive m25p_status_t :=
| M25P_SUCCESS | M25P_SECTOR_PROTECTED | M25P_SECTOR_UNPROTECTED | M25P_ERROR_INIT
| M25P_ERROR_NOT_FOUND | M25P_ERROR_WRITE | M25P_ERROR_BUSY | M25P_ERROR_PROTECTED
| M25P_ERROR_SPI | M25P_ERROR
| M25P_other (status : Z).

#[global] Instance m25p_status_eq_dec : EqDecision m25p_status_t.
Proof. solve_decision. Defined.

Definition M25P_WREN : Z := 0x06.
Definition M25P_WRDI : Z := 0x04.
Definition M25P_RDID : Z := 0x9F.
Definition M25P_RDSR : Z := 0x05.
Definition M25P_SR_WIP : Z := 0x01.
Definition M25P_WRSR : Z := 0x01.
Definition M25P_READ : Z := 0x03.
Definition M25P_PP : Z := 0x02.
Definition M25P_SE : Z := 0xD8.
Definition M25P_BE : Z := 0xC7.

(** A [status_code_t] stored in an [m25p_status_t]: the two that the SPI service
    returns are success and one that no constant names. *)
Definition m25p_of_spi (status : Z) : m25p_status_t :=
  if status =? STATUS_OK then M25P_SUCCESS else M25P_other status.

(** ** m25p128_spi.c *)

Definition SPI0_MISO_GPIO : Z := 25.
Definition SPI0_MOSI_GPIO : Z := 26.
Definition SPI0_SPCK_GPIO : Z := 27.
Definition SPI0_NPCS0_GPIO : Z := 28.
Definition SPI0_MISO_FLAGS : Z := PIO_PERIPH_A.
Definition SPI0_MOSI_FLAGS : Z := PIO_PERIPH_A.
Definition SPI0_SPCK_FLAGS : Z := PIO_PERIPH_A.
Definition SPI0_NPCS0_FLAGS : Z := PIO_PERIPH_A.

Definition m25p_spi_init : prog hw unit :=
  let m25p_spi := 0 in
  let! _ := pio_configure_pin SPI0_MISO_GPIO SPI0_MISO_FLAGS in
  let! _ := pio_configure_pin SPI0_MOSI_GPIO SPI0_MOSI_FLAGS in
  let! _ := pio_configure_pin SPI0_SPCK_GPIO SPI0_SPCK_FLAGS in
  let! _ := pio_configure_pin SPI0_NPCS0_GPIO SPI0_NPCS0_FLAGS in
  spi_master_init SPI0;;
  spi_master_setup_device SPI0 m25p_spi SPI_MODE_0 12000000;;
  spi_enable SPI0.

Section flash.
(** Rounds of the wait in [spi_deselect_device]. *)
Context (fuel : nat).

Definition m25p_write_enable : prog hw m25p_status_t :=
  spi_select_device SPI0 0;;
  let! stat := spi_write_packet SPI0 [M25P_WREN] 1 in
  spi_deselect_device fuel SPI0;;
  Ret (m25p_of_spi stat).

Definition m25p_write_disable : prog hw m25p_status_t :=
  spi_select_device SPI0 0;;
  let! stat := spi_write_packet SPI0 [M25P_WRDI] 1 in
  spi_deselect_device fuel SPI0;;
  Ret (m25p_of_spi stat).

(** [dev_id] holds the bytes the pointer points to; the bytes of the id are
    stored from its start and then put in order. *)
Definition m25p_read_dev_id (dev_id : list Z) : prog hw (m25p_status_t * list Z) :=
  spi_select_device SPI0 0;;
  let! stat := spi_write_packet SPI0 [M25P_RDID] 1 in
  let! (stat, stored) :=
    (if stat =? STATUS_OK then spi_read_packet SPI0 3 else Ret (stat, [])) in
  let! id := defined (store dev_id 0 stored) in
  let! id0 := defined (id !! 0%nat) in
  let! id := defined (store id 3 [id0]) in
  let! id2 := defined (id !! 2%nat) in
  let! id := defined (store id 0 [id2]) in
  let! id3 := defined (id !! 3%nat) in
  let! id := defined (store id 2 [id3]) in
  let! id := defined (store id 3 [0]) in
  spi_deselect_device fuel SPI0;;
  Ret (m25p_of_spi stat, id).

(** The byte read, if the reading got as far as storing it. *)
Definition m25p_read_status_register : prog hw (m25p_status_t * option Z) :=
  spi_select_device SPI0 0;;
  let! stat := spi_write_packet SPI0 [M25P_RDSR] 1 in
  let! (stat, stored) :=
    (if stat =? STATUS_OK then spi_read_packet SPI0 1 else Ret (stat, [])) in
  spi_deselect_device fuel SPI0;;
  Ret (m25p_of_spi stat, head stored).

Definition m25p_write_status_register (status : Z) : prog hw m25p_status_t :=
  spi_select_device SPI0 0;;
  let! stat := spi_write_packet SPI0 [M25P_WRSR; status] 2 in
  spi_deselect_device fuel SPI0;;
  Ret (m25p_of_spi stat).

(** The four bytes of a command with a 24-bit address. *)
Definition address_command (command address : Z) : list Z :=
  [command; Z.land (Z.shiftr address 16) 0xff; Z.land (Z.shiftr address 8) 0xff;
   Z.land address 0xff].

(** The status and the bytes stored at the start of [data]. *)
Definition m25p_read_data (address len : Z) : prog hw (m25p_status_t * list Z) :=
  spi_select_device SPI0 0;;
  let! stat := spi_write_packet SPI0 (address_command M25P_READ address) 4 in
  let! (stat, stored) :=
    (if stat =? STATUS_OK then spi_read_packet SPI0 len else Ret (stat, [])) in
  spi_deselect_device fuel SPI0;;
  Ret (m25p_of_spi stat, stored).

Definition m25p_page_program (address : Z) (data : list Z) (len : Z) : prog hw m25p_status_t :=
  spi_select_device SPI0 0;;
  let! stat := spi_write_packet SPI0 (address_command M25P_PP address) 4 in
  let! stat := (if stat =? STATUS_OK then spi_write_packet SPI0 data len else Ret stat) in
  spi_deselect_device fuel SPI0;;
  Ret (m25p_of_spi stat).

Definition m25p_sector_erase (address : Z) : prog hw m25p_status_t :=
  spi_select_device SPI0 0;;
  let! stat := spi_write_packet SPI0 (address_command M25P_SE address) 4 in
  spi_deselect_device fuel SPI0;;
  Ret (m25p_of_spi stat).

Definition m25p_bulk_erase : prog hw m25p_status_t :=
  spi_select_device SPI0 0;;
  let! stat := spi_write_packet SPI0 [M25P_BE] 1 in
  spi_deselect_device fuel SPI0;;
  Ret (m25p_of_spi stat).

(** ** ext_flash.c *)

Definition MAC_ADDRESS_OFFSET : Z := 0x00FC0000.
Definition SN_ASCII_OFFSET : Z := 0x00FC0006.
Definition SN_ASCII_MAXLEN : Z := 26.

Definition is_success (s : m25p_status_t) : bool := bool_decide (s = M25P_SUCCESS).

(** [timeout] rounds are left. *)
Fixpoint wait_for_ready_loop (timeout : nat) : prog hw m25p_status_t :=
  match timeout with
  | O => Ret M25P_ERROR
  | S timeout =>
    let! (stat, status) := m25p_read_status_register in
    if is_success stat then
      let! status := defined status in
      if negb (has_bits status M25P_SR_WIP) then Ret M25P_SUCCESS
      else wait_for_ready_loop timeout
    else wait_for_ready_loop timeout
  end.

Definition ext_flash_wait_for_ready : prog hw m25p_status_t :=
  wait_for_ready_loop (Z.to_nat 100000).

Definition ext_flash_read_mac_address : prog hw (m25p_status_t * list Z) :=
  m25p_read_data MAC_ADDRESS_OFFSET 6.

Definition ext_flash_read_sn (sn_len : Z) : prog hw (m25p_status_t * list Z) :=
  m25p_read_data SN_ASCII_OFFSET sn_len.

Definition ext_flash_write_mac_address (mac_address : list Z) : prog hw m25p_status_t :=
  let! status := m25p_write_enable in
  let! status :=
    (if is_success status then m25p_page_program MAC_ADDRESS_OFFSET mac_address 6
     else Ret status) in
  let! _ := m25p_write_disable in
  Ret status.

Definition ext_flash_write_sn (sn : list Z) (sn_len : Z) : prog hw m25p_status_t :=
  let! status := m25p_write_enable in
  let! status :=
    (if is_success status
     then m25p_page_program SN_ASCII_OFFSET sn
            (if SN_ASCII_MAXLEN <? sn_len then SN_ASCII_MAXLEN else sn_len)
     else Ret status) in
  let! _ := m25p_write_disable in
  Ret status.

Definition ext_flash_erase : prog hw m25p_status_t :=
  let! status := m25p_write_enable in
  let! status := (if is_success status then m25p_bulk_erase else Ret status) in
  let! _ := m25p_write_disable in
  Ret status.
End flash.
