(* ===== verification/FlashBus.v ===== *)
(** * The serial flash driver against the SPI controller

    A nondeterministic model of the SPI controller as the driver uses it
    (transmit register, shift register, receive register, chip select) with an
    arbitrary device on the bus, and what the transactions of Flash.v do to that
    device and bring back, whatever the timing of the transfers. *)

From stdpp Require Import relations.
From S2P Require Import Prelude Prog Pio Spi Flash.

(** ** The device and the controller *)

Section bus.
(** A device: the byte it shifts out against the byte it shifts in, and the
    rise of its chip select. *)
Context {SL : Type} (exchange : SL -> Z -> Z * SL) (deselect : SL -> SL).

Record spi_state := SpiState {
  mr : Z;
  tdr : option Z;
  shifter : option Z;
  rdr : Z;
  rdrf : bool;
  slave : SL
}.

(** What the controller does by itself: a byte moves from the transmit register
    to the shift register; a byte that has been shifted is exchanged. *)
Inductive tick : spi_state -> spi_state -> Prop :=
| tick_load m b r f sl :
  tick (SpiState m (Some b) None r f sl) (SpiState m None (Some b) r f sl)
| tick_shift m t b r f sl :
  tick (SpiState m t (Some b) r f sl)
       (SpiState m t None (u8 (exchange sl b).1) true (exchange sl b).2).

Definition flag (b : bool) (m : Z) : Z := if b then m else 0.

Definition sr_value (s : spi_state) : Z :=
  Z.lor (flag (rdrf s) SPI_SR_RDRF)
    (Z.lor (flag (bool_decide (tdr s = None)) SPI_SR_TDRE)
       (flag (bool_decide (tdr s = None /\ shifter s = None)) SPI_SR_TXEMPTY)).

Definition sr_mask : Z := Z.lor SPI_SR_RDRF (Z.lor SPI_SR_TDRE SPI_SR_TXEMPTY).

Definition idle (s : spi_state) : Prop := tdr s = None /\ shifter s = None.

(** Chip select 0 is on: the others are 1 in the field. *)
Definition selected (s : spi_state) : Prop := Z.land (mr s) SPI_MR_PCS_Msk = SPI_MR_PCS 0xE.

Definition spi_read_step (a : Z) (s : spi_state) (x : Z) (s' : spi_state) : Prop :=
  if a =? SPI_SR SPI0 then Z.land x sr_mask = sr_value s /\ s' = s
  else if a =? SPI_RDR SPI0 then
    Z.land x SPI_RDR_RD_Msk = Z.land (rdr s) SPI_RDR_RD_Msk /\
    s' = SpiState (mr s) (tdr s) (shifter s) (rdr s) false (slave s)
  else if a =? SPI_MR SPI0 then x = mr s /\ s' = s
  else s' = s.

Definition spi_write_step (a v : Z) (s : spi_state) : spi_state :=
  if a =? SPI_TDR SPI0 then
    SpiState (mr s) (Some (Z.land v 0xffff)) (shifter s) (rdr s) (rdrf s) (slave s)
  else if a =? SPI_MR SPI0 then SpiState v (tdr s) (shifter s) (rdr s) (rdrf s) (slave s)
  else if (a =? SPI_CR SPI0) && has_bits v SPI_CR_LASTXFER then
    SpiState (mr s) (tdr s) (shifter s) (rdr s) (rdrf s) (deselect (slave s))
  else s.

(** The protocol of the controller: a byte is written only into an empty
    transmit register while the device is selected, the mode and the chip
    select change only when nothing is being transmitted. *)
Definition spi_req (e : op hw) (s : spi_state) : Prop :=
  match e with
  | Wr a v =>
    if a =? SPI_TDR SPI0 then tdr s = None /\ selected s else idle s
  | _ => True
  end.

Definition spi_step (e : op hw) (s : spi_state) : ans hw e -> spi_state -> Prop :=
  match e with
  | Rd a => fun x s' => exists s1, rtc tick s s1 /\ spi_read_step a s1 x s'
  | Wr a v => fun _ s' => exists s1, rtc tick s s1 /\ s' = spi_write_step a v s1
  | _ => fun _ s' => rtc tick s s'
  end.

Definition spi_env : env hw spi_state := {| req := spi_req; step := spi_step |}.

(** ** What is on its way *)

(** The bytes a device shifts out against [bs], and the state it is left in. *)
Fixpoint exchanges (sl : SL) (bs : list Z) : list Z * SL :=
  match bs with
  | [] => ([], sl)
  | b :: bs =>
    let r := exchanges (exchange sl b).2 bs in (u8 (exchange sl b).1 :: r.1, r.2)
  end.

Lemma exchanges_app sl bs cs :
  exchanges sl (bs ++ cs) =
  ((exchanges sl bs).1 ++ (exchanges (exchanges sl bs).2 cs).1,
   (exchanges (exchanges sl bs).2 cs).2).
Proof.
  revert sl. induction bs as [|b bs IH]; intros sl; simpl; [by destruct (exchanges sl cs)|].
  by rewrite IH.
Qed.

Lemma exchanges_length sl bs : length (exchanges sl bs).1 = length bs.
Proof. revert sl. induction bs; intros; simpl; auto. Qed.

Definition pending (s : spi_state) : list Z :=
  option_list (shifter s) ++ option_list (tdr s).

(** The device has been handed the bytes [bs] since [q], some of which may still
    be on their way; [rdr] is or will be the last byte it shifted out. *)
Definition handed (q : SL) (bs : list Z) (s : spi_state) : Prop :=
  exists done, bs = done ++ pending s /\ slave s = (exchanges q done).2 /\
    (done <> [] -> rdr s = List.last (exchanges q done).1 0).

Lemma tick_handed q bs s s' : tick s s' -> handed q bs s -> handed q bs s'.
Proof.
  intros Ht (done & Hbs & Hsl & Hr).
  destruct Ht as [m b r f sl|m t b r f sl]; unfold pending in *; simpl in *.
  - by exists done.
  - exists (done ++ [b]). rewrite exchanges_app. simpl. rewrite <- Hsl.
    split; [by rewrite Hbs, <- app_assoc|]. split; [done|]. intros _. by rewrite last_last.
Qed.

Lemma ticks_handed q bs s s' : rtc tick s s' -> handed q bs s -> handed q bs s'.
Proof. induction 1; eauto using tick_handed. Qed.

Lemma ticks_mr s s' : rtc tick s s' -> mr s' = mr s.
Proof. induction 1 as [|? ? ? Ht _ IH]; [done|]. rewrite IH. by destruct Ht. Qed.

Lemma ticks_tdr s s' : rtc tick s s' -> tdr s = None -> tdr s' = None.
Proof. induction 1 as [|? ? ? Ht _ IH]; [done|]. intros Hs. apply IH. by destruct Ht. Qed.

Lemma ticks_idle s s' : rtc tick s s' -> idle s -> s' = s.
Proof. intros [->|(s1 & Ht & _)]%rtc_inv [H1 H2]; [done|]. by destruct Ht. Qed.

(** ** Rules for the driver's operations *)

(** What a round of polling keeps and what it finds out. *)
Lemma wp_poll n (cond : prog hw Z) (I P : spi_state -> Prop) s :
  (forall s, I s -> wp spi_env cond (fun o s' =>
     exists c, o = Done c /\ I s' /\ (c <> 0 -> P s')) s) ->
  I s ->
  wp spi_env (poll n cond) (fun o s' => exists b, o = Done b /\ I s' /\ (b = true -> P s')) s.
Proof.
  intros Hc. revert s. induction n as [|n IH]; intros s Hs; cbn [poll];
    (eapply wp_seq; [by apply Hc|]); intros o s' (c & -> & HI & HP); simpl;
    (destruct (Z.eqb_spec c 0); simpl;
       [|exists true; split; [done|]; split; [done|]; intros _; by apply HP]);
    [exists false; by repeat split|by apply IH].
Qed.

Lemma sr_flag s x m b :
  Z.land x sr_mask = sr_value s -> Z.land m sr_mask = m -> Z.land (sr_value s) m = flag b m ->
  m <> 0 -> has_bits x m = b.
Proof.
  intros Hx Hm Hv H0. unfold has_bits.
  assert (Z.land x m = flag b m) as ->
    by (rewrite <- Hv, <- Hx, <- Z.land_assoc, (Z.land_comm sr_mask), Hm; done).
  destruct b; simpl; [|done]. by rewrite (proj2 (Z.eqb_neq _ _)).
Qed.

Lemma sr_flags s x : Z.land x sr_mask = sr_value s ->
  has_bits x SPI_SR_TDRE = bool_decide (tdr s = None) /\
  has_bits x SPI_SR_TXEMPTY = bool_decide (tdr s = None /\ shifter s = None) /\
  has_bits x SPI_SR_RDRF = rdrf s.
Proof.
  intros Hx. split; [|split]; apply (sr_flag s x _ _ Hx); try done;
    unfold sr_value; by destruct (rdrf s), (bool_decide (tdr s = None)),
      (bool_decide (tdr s = None /\ shifter s = None)).
Qed.

(** The mode register with another chip select value. *)
Definition set_pcs (m value : Z) : Z :=
  Z.lor (Z.land m (not32 SPI_MR_PCS_Msk)) (SPI_MR_PCS value).

Lemma set_pcs_field m value c d :
  Z.land (not32 SPI_MR_PCS_Msk) c = d ->
  Z.land (set_pcs m value) c = Z.lor (Z.land m d) (Z.land (SPI_MR_PCS value) c).
Proof. intros <-. unfold set_pcs. by rewrite Z.land_lor_distr_l, Z.land_assoc. Qed.

Lemma set_pcs_selects m : Z.land (set_pcs m (not32 (Z.shiftl 1 0))) SPI_MR_PCS_Msk = SPI_MR_PCS 0xE.
Proof. by rewrite (set_pcs_field _ _ _ 0), Z.land_0_r. Qed.

Lemma set_pcs_decode m value :
  has_bits (set_pcs m value) SPI_MR_PCSDEC = has_bits m SPI_MR_PCSDEC.
Proof.
  unfold has_bits. rewrite (set_pcs_field _ _ _ SPI_MR_PCSDEC) by done.
  assert (Z.land (SPI_MR_PCS value) SPI_MR_PCSDEC = 0) as ->; [|by rewrite Z.lor_0_r].
  unfold SPI_MR_PCS. rewrite (Z.land_comm SPI_MR_PCS_Msk), <- Z.land_assoc. apply Z.land_0_r.
Qed.

(** A transaction under way: the device is selected and has been handed [bs]. *)
Definition sending (q : SL) (bs : list Z) (m : Z) (s : spi_state) : Prop :=
  handed q bs s /\ mr s = m.

Lemma ticks_sending q bs m s s' : rtc tick s s' -> sending q bs m s -> sending q bs m s'.
Proof.
  intros Ht [Hh Hm]. split; [by eapply ticks_handed|]. by rewrite (ticks_mr _ _ Ht).
Qed.

Lemma wp_status q bs m s (f : Z -> Z) (P : spi_state -> Prop) :
  (forall s x, sending q bs m s -> Z.land x sr_mask = sr_value s -> f x <> 0 -> P s) ->
  sending q bs m s ->
  wp spi_env (let! v := rd (SPI_SR SPI0) in Ret (f v))
    (fun o s' => exists c, o = Done c /\ sending q bs m s' /\ (c <> 0 -> P s')) s.
Proof.
  intros Hf Hs. split; [done|]. intros x s' (s1 & Ht & Hx & ->). simpl in Hx.
  exists (f x). pose proof (ticks_sending _ _ _ _ _ Ht Hs).
  split; [done|]. split; [done|]. intros Hfx. by apply (Hf s1 x).
Qed.

Lemma wp_tx_ready q bs m s : sending q bs m s ->
  wp spi_env (poll (Z.to_nat SPI_TIMEOUT) (spi_is_tx_ready SPI0)) (fun o s' =>
    exists b, o = Done b /\ sending q bs m s' /\ (b = true -> tdr s' = None)) s.
Proof.
  apply wp_poll. intros s0. apply (wp_status _ _ _ _ (fun v => if has_bits v SPI_SR_TDRE then 1 else 0)).
  intros s1 x _ Hx. destruct (sr_flags s1 x Hx) as (-> & _). by case_bool_decide.
Qed.

Lemma wp_rx_ready q bs m s : sending q bs m s ->
  wp spi_env (poll (Z.to_nat SPI_TIMEOUT) (spi_is_rx_ready SPI0)) (fun o s' =>
    exists b, o = Done b /\ sending q bs m s' /\ (b = true -> idle s')) s.
Proof.
  apply wp_poll. intros s0.
  apply (wp_status _ _ _ _ (fun v => if Z.land v (Z.lor SPI_SR_RDRF SPI_SR_TXEMPTY) =?
    Z.lor SPI_SR_RDRF SPI_SR_TXEMPTY then 1 else 0)).
  intros s1 x _ Hx. destruct (sr_flags s1 x Hx) as (_ & He & _).
  destruct (Z.eqb_spec (Z.land x (Z.lor SPI_SR_RDRF SPI_SR_TXEMPTY))
    (Z.lor SPI_SR_RDRF SPI_SR_TXEMPTY)) as [Hb|]; [intros _|done].
  assert (has_bits x SPI_SR_TXEMPTY = true) as Ht.
  { unfold has_bits. apply (f_equal (fun v => Z.land v SPI_SR_TXEMPTY)) in Hb.
    rewrite <- Z.land_assoc in Hb.
    assert (Z.land x SPI_SR_TXEMPTY = SPI_SR_TXEMPTY) as -> by exact Hb. done. }
  rewrite He in Ht. by apply bool_decide_eq_true in Ht.
Qed.

Lemma sending_selected q bs m s : sending q bs m s ->
  Z.land m SPI_MR_PCS_Msk = SPI_MR_PCS 0xE -> selected s.
Proof. intros [_ Hm] Hsel. unfold selected. by rewrite Hm. Qed.

Lemma wp_put q bs m s b : is_u8 b ->
  sending q bs m s -> tdr s = None -> Z.land m SPI_MR_PCS_Msk = SPI_MR_PCS 0xE ->
  wp spi_env (spi_write_single SPI0 b)
    (fun o s' => o = Done tt /\ sending q (bs ++ [b]) m s') s.
Proof.
  intros Hb Hs Ht Hsel. split; [split; [done|by eapply sending_selected]|].
  intros [] s' (s1 & Hticks & ->). split; [done|].
  pose proof (ticks_tdr _ _ Hticks Ht) as Ht1.
  destruct (ticks_sending _ _ _ _ _ Hticks Hs) as [(done & -> & Hsl & Hr) Hm].
  assert (Z.land (SPI_TDR_TD b) 0xffff = b) as Hv.
  { unfold SPI_TDR_TD. rewrite (Z.land_comm 0xffff), <- Z.land_assoc.
    change (Z.land 0xffff 0xffff) with (Z.ones 16).
    rewrite Z.land_ones, Z.mod_small by (unfold is_u8 in Hb; lia). done. }
  destruct s1 as [m1 t1 b1 r1 f1 sl1]. simpl in *. subst t1.
  split; [|done]. exists done. unfold pending. simpl. rewrite Hv.
  split; [by rewrite app_nil_r, <- app_assoc|by split].
Qed.

Lemma wp_get q bs m s : bs <> [] -> sending q bs m s -> idle s ->
  wp spi_env (spi_read_single SPI0) (fun o s' =>
    o = Done (List.last (exchanges q bs).1 0) /\ sending q bs m s') s.
Proof.
  intros Hbs Hs Hi. split; [done|]. intros x s' (s1 & Hticks & Hx & ->). simpl.
  pose proof (ticks_idle _ _ Hticks Hi) as ->. destruct Hi as [Ht Hsh].
  destruct Hs as [(done & Hd & Hsl & Hr) Hm]. destruct s as [m1 t1 b1 r1 f1 sl1]. simpl in *. subst.
  unfold pending in *. simpl in *. rewrite app_nil_r in *.
  split; [|split; [|done]; exists done; unfold pending; by rewrite app_nil_r].
  assert (Forall is_u8 (exchanges q done).1) as H8.
  { clear. revert q. induction done as [|b done IH]; intros q; simpl; constructor; auto with fw. }
  assert (is_u8 (List.last (exchanges q done).1 0)) as Hl8.
  { destruct ((exchanges q done).1) as [|o os] eqn:Ho using rev_ind; [by unfold is_u8; simpl|].
    rewrite last_last. rewrite Forall_app in H8. destruct H8 as [_ H8]. by inversion H8. }
  rewrite Hx, Hr by done. change SPI_RDR_RD_Msk with (Z.ones 16).
  rewrite Z.land_ones, Z.mod_small by (unfold is_u8 in Hl8; lia). by rewrite u8_id.
Qed.

(** ** Packets *)

Definition is_selected (m : Z) : Prop := Z.land m SPI_MR_PCS_Msk = SPI_MR_PCS 0xE.

(** A packet goes out byte by byte, or stops at a timeout. *)
Definition wrote (q : SL) (bs data : list Z) (m : Z) (o : outcome Z) (s : spi_state) : Prop :=
  exists stat k, o = Done stat /\ sending q (bs ++ take k data) m s /\ (k <= length data)%nat /\
    (stat = STATUS_OK /\ k = length data \/ stat = ERR_TIMEOUT).

Lemma wp_write_loop q bs m data s : is_selected m -> Forall is_u8 data -> sending q bs m s ->
  wp spi_env (spi_write_loop SPI0 data (length data)) (wrote q bs data m) s.
Proof.
  intros Hsel H8. revert bs s. induction data as [|b data IH]; intros bs s Hs.
  - exists STATUS_OK, 0%nat. rewrite app_nil_r. repeat split; [apply Hs..|done|by left].
  - inversion H8; subst. cbn [length spi_write_loop].
    eapply wp_seq; [by eapply wp_tx_ready|]. intros o s1 (ready & -> & Hs1 & Ht).
    cbn [andthen]. destruct ready; cbn [negb defined bind head tail].
    2: { exists ERR_TIMEOUT, 0%nat. rewrite app_nil_r. repeat split; [apply Hs1..|lia|by right]. }
    eapply wp_seq; [by eapply wp_put; eauto|]. intros o s2 [-> Hs2]. cbn [andthen].
    eapply wp_mono; [by apply IH|]. intros o s3 (stat & k & -> & Hs3 & Hk & Hstat).
    exists stat, (S k). rewrite <- app_assoc in Hs3. repeat split; [apply Hs3..|simpl; lia|].
    destruct Hstat as [[-> ->]|]; [by left|by right].
Qed.

Definition dummies (n : nat) : list Z := replicate n CONFIG_SPI_MASTER_DUMMY.

(** What the device has shifted out since it was handed [bs]. *)
Definition answers (q : SL) (bs : list Z) (n : nat) : list Z :=
  drop (length bs) (exchanges q (bs ++ dummies n)).1.

Definition read_back (q : SL) (bs stored : list Z) (n : nat) (m : Z)
    (o : outcome (Z * list Z)) (s : spi_state) : Prop :=
  exists stat k j, o = Done (stat, stored ++ take j (answers q bs n)) /\
    sending q (bs ++ dummies k) m s /\ (j <= k <= n)%nat /\
    (stat = STATUS_OK /\ j = n /\ k = n \/ stat = ERR_TIMEOUT).

Lemma answers_cons q bs n :
  answers q bs (S n) =
  List.last (exchanges q (bs ++ [CONFIG_SPI_MASTER_DUMMY])).1 0 ::
  answers q (bs ++ [CONFIG_SPI_MASTER_DUMMY]) n.
Proof.
  unfold answers, dummies. cbn [replicate].
  change (CONFIG_SPI_MASTER_DUMMY :: replicate n CONFIG_SPI_MASTER_DUMMY) with
    ([CONFIG_SPI_MASTER_DUMMY] ++ replicate n CONFIG_SPI_MASTER_DUMMY).
  rewrite app_assoc. rewrite (exchanges_app _ (bs ++ [_])). cbn [fst].
  rewrite (exchanges_app _ bs [_]). simpl. rewrite last_last, length_app.
  rewrite drop_app_le by (rewrite length_app, exchanges_length; simpl; lia).
  rewrite (drop_app_length' _ [_]) by (by rewrite exchanges_length).
  simpl. f_equal. rewrite drop_app_length'; [done|].
  rewrite length_app, exchanges_length. done.
Qed.

Lemma wp_read_loop q m n bs stored s : is_selected m -> sending q bs m s ->
  wp spi_env (spi_read_loop SPI0 stored n) (read_back q bs stored n m) s.
Proof.
  intros Hsel. revert bs stored s. induction n as [|n IH]; intros bs stored s Hs.
  - exists STATUS_OK, 0%nat, 0%nat. cbn [take]. rewrite !app_nil_r. repeat split; [apply Hs..|lia|lia|by left].
  - cbn [spi_read_loop].
    assert (forall k s, (k <= 1)%nat -> sending q (bs ++ dummies k) m s ->
      read_back q bs stored (S n) m (Done (ERR_TIMEOUT, stored)) s) as Hstop.
    { intros k s0 Hk Hs0. exists ERR_TIMEOUT, k, 0%nat. cbn [take]. rewrite app_nil_r.
      repeat split; [apply Hs0..|lia|lia|by right]. }
    eapply wp_seq; [by eapply wp_tx_ready|]. intros o s1 (ready & -> & Hs1 & Ht).
    cbn [andthen]. destruct ready; cbn [negb defined bind head tail]; [|apply (Hstop 0%nat); [lia|by rewrite app_nil_r]].
    eapply wp_seq; [eapply (wp_put _ _ _ _ 0xFF); eauto; unfold is_u8; lia|].
    intros o s2 [-> Hs2]. cbn [andthen].
    eapply wp_seq; [by eapply wp_rx_ready|]. intros o s3 (ready & -> & Hs3 & Hi).
    cbn [andthen]. destruct ready; cbn [negb]; [|by apply (Hstop 1%nat)].
    eapply wp_seq; [eapply wp_get; eauto; by destruct bs|]. intros o s4 [-> Hs4]. cbn [andthen].
    eapply wp_mono; [by apply IH|]. intros o s5 (stat & k & j & -> & Hs5 & Hk & Hstat).
    exists stat, (S k), (S j). rewrite answers_cons. cbn [take]. rewrite <- !app_assoc in *.
    split; [done|]. split; [exact Hs5|]. split; [lia|].
    destruct Hstat as [(-> & -> & ->)|]; [by left|by right].
Qed.

(** ** Selecting and deselecting *)

Definition at_rest (q : SL) (m : Z) (s : spi_state) : Prop :=
  idle s /\ slave s = q /\ mr s = m.

(** At rest the controller does nothing by itself. *)
Lemma wp_modify_mr f q m s (Q : outcome unit -> spi_state -> Prop) :
  at_rest q m s -> (forall s', at_rest q (f m) s' -> Q (Done tt) s') ->
  wp spi_env (modify (SPI_MR SPI0) f) Q s.
Proof.
  intros (Hi & Hq & Hm) HQ. split; [done|]. intros x s1 (s1' & Ht & Hx & ->).
  pose proof (ticks_idle _ _ Ht Hi) as ->. split; [done|].
  intros [] s2 (s2' & Ht2 & ->). pose proof (ticks_idle _ _ Ht2 Hi) as ->.
  apply HQ. destruct s. simpl in *. by subst.
Qed.

Lemma wp_set_pcs value q m s (Q : outcome unit -> spi_state -> Prop) :
  at_rest q m s -> (forall s', at_rest q (set_pcs m value) s' -> Q (Done tt) s') ->
  wp spi_env (spi_set_peripheral_chip_select_value SPI0 value) Q s.
Proof.
  intros Hs HQ. eapply wp_seq with (M := fun o s' => o = Done tt /\
    at_rest q (Z.land m (not32 SPI_MR_PCS_Msk)) s').
  - apply (wp_modify_mr _ q m); [done|]. auto.
  - intros o s1 [-> Hs1]. simpl. by eapply wp_modify_mr.
Qed.

Lemma wp_select q m s (Q : outcome unit -> spi_state -> Prop) :
  at_rest q m s -> has_bits m SPI_MR_PCSDEC = false ->
  (forall s' m', sending q [] m' s' -> is_selected m' ->
     has_bits m' SPI_MR_PCSDEC = false -> Q (Done tt) s') ->
  wp spi_env (spi_select_device SPI0 0) Q s.
Proof.
  intros Hs Hd HQ. eapply wp_seq with (M := fun o s' => o = Done 0 /\ at_rest q m s').
  { split; [done|]. intros x s1 (s1' & Ht & Hx & ->).
    pose proof (ticks_idle _ _ Ht (proj1 Hs)) as ->. split; [|done].
    rewrite (proj2 (proj2 Hs)) in Hx. rewrite Hx. by rewrite Hd. }
  intros o s1 [-> Hs1]. cbn [andthen]. change (negb (0 =? 0)) with false. cbv iota.
  change (0 <? MAX_NUM_WITHOUT_DECODER) with true. cbv iota.
  apply (wp_set_pcs _ q m); [done|]. intros s2 (Hi & Hq & Hm). eapply HQ.
  - split; [|exact Hm]. exists []. destruct Hi as [Ht2 Hsh]. unfold pending. by rewrite Ht2, Hsh.
  - apply set_pcs_selects.
  - by rewrite set_pcs_decode.
Qed.

Definition deselected (q : SL) (o : outcome unit) (s : spi_state) : Prop :=
  o = Stop OutOfFuel \/
  o = Done tt /\ idle s /\ slave s = deselect q /\ has_bits (mr s) SPI_MR_PCSDEC = false.

Lemma wp_tx_empty fuel q bs m s : sending q bs m s ->
  wp spi_env (iter fuel (tx_empty_round SPI0) tt) (fun o s' =>
    o = Stop OutOfFuel \/ o = Done tt /\ at_rest (exchanges q bs).2 m s') s.
Proof.
  revert s. induction fuel as [|fuel IH]; intros s Hs; [by left|]. cbn [iter].
  eapply wp_seq with (M := fun o s' => exists c, o = Done (if negb (c =? 0) then inr tt else inl tt) /\
    sending q bs m s' /\ (c <> 0 -> idle s')).
  - eapply wp_seq with (M := fun o s' => exists c, o = Done c /\ sending q bs m s' /\ (c <> 0 -> idle s')).
    + apply (wp_status _ _ _ _ (fun v => if has_bits v SPI_SR_TXEMPTY then 1 else 0)); [|done].
      intros s1 x _ Hx. destruct (sr_flags s1 x Hx) as (_ & -> & _). by case_bool_decide.
    + intros o s1 (c & -> & H). by exists c.
  - intros o s1 (c & -> & Hs1 & Hc). simpl. destruct (Z.eqb_spec c 0) as [|Hne]; simpl; [by apply IH|].
    right. split; [done|]. specialize (Hc Hne). destruct Hs1 as [(done & Hbs & Hsl & _) Hm].
    unfold pending in Hbs. rewrite (proj1 Hc), (proj2 Hc) in Hbs.
    simpl in Hbs. rewrite app_nil_r in Hbs. subst done. by repeat split; try apply Hc.
Qed.

Lemma wp_deselect fuel q bs m s : sending q bs m s -> has_bits m SPI_MR_PCSDEC = false ->
  wp spi_env (spi_deselect_device fuel SPI0) (deselected (exchanges q bs).2) s.
Proof.
  intros Hs Hd. eapply wp_seq; [by apply wp_tx_empty|].
  intros o s1 [-> |[-> Hs1]]; [by left|]. cbn [andthen].
  eapply wp_seq with (M := fun o s' => o = Done tt /\
    at_rest (exchanges q bs).2 (set_pcs m NONE_CHIP_SELECT_ID) s').
  - apply (wp_set_pcs _ (exchanges q bs).2 m); auto.
  - intros o s2 (-> & Hi & Hq & Hm). split; [done|]. intros [] s3 (s3' & Ht & ->).
    pose proof (ticks_idle _ _ Ht Hi) as ->. right. split; [done|].
    assert (spi_write_step (SPI_CR SPI0) SPI_CR_LASTXFER s2 =
      SpiState (mr s2) (tdr s2) (shifter s2) (rdr s2) (rdrf s2) (deselect (slave s2))) as -> by done.
    rewrite Hq, Hm. split; [exact Hi|]. split; [done|]. simpl mr. by rewrite set_pcs_decode.
Qed.

(** ** Transactions *)

(** All that the commands of the flash driver do: send, receive, deselect. *)
Definition transact (fuel : nat) (tx : list Z) (n : nat) : prog hw (Z * list Z) :=
  spi_select_device SPI0 0;;
  let! stat := spi_write_loop SPI0 tx (length tx) in
  let! r := (if stat =? STATUS_OK then spi_read_loop SPI0 [] n else Ret (stat, [])) in
  spi_deselect_device fuel SPI0;;
  Ret r.

(** The device after it has been handed [bs] between two edges of its chip
    select. *)
Definition delivered (q : SL) (bs : list Z) : SL := deselect (exchanges q bs).2.

(** Between transactions: nothing on its way, no chip select decoding. *)
Definition bus_idle (q : SL) (s : spi_state) : Prop :=
  idle s /\ slave s = q /\ has_bits (mr s) SPI_MR_PCSDEC = false.

Definition transacted (q : SL) (tx : list Z) (n : nat) (o : outcome (Z * list Z)) (s : spi_state)
    : Prop :=
  o = Stop OutOfFuel \/
  exists stat k j, o = Done (stat, take j (answers q tx n)) /\
    bus_idle (delivered q (take k (tx ++ dummies n))) s /\
    (stat = STATUS_OK /\ k = (length tx + n)%nat /\ j = n \/ stat = ERR_TIMEOUT).

Lemma wp_transact fuel q tx n s : Forall is_u8 tx -> bus_idle q s ->
  wp spi_env (transact fuel tx n) (transacted q tx n) s.
Proof.
  intros H8 (Hi & Hq & Hd). apply wp_bind.
  apply (wp_select q (mr s)); [by repeat split; try apply Hi|done|].
  intros s1 m Hs1 Hsel Hd1. cbn [andthen].
  eapply wp_seq; [by eapply wp_write_loop|].
  intros o s2 (stat & k & -> & Hs2 & Hk & Hstat). cbn [andthen]. cbn [app] in Hs2.
  eapply wp_seq with (M := fun o s' => exists stat k j, o = Done (stat, take j (answers q tx n)) /\
    sending q (take k (tx ++ dummies n)) m s' /\
    (stat = STATUS_OK /\ k = (length tx + n)%nat /\ j = n \/ stat = ERR_TIMEOUT)).
  - destruct Hstat as [[-> ->]| ->].
    + change (STATUS_OK =? STATUS_OK) with true. cbv iota. rewrite take_ge in Hs2 by done.
      eapply wp_mono; [by apply wp_read_loop|].
      intros o s3 (stat & k & j & -> & Hs3 & Hkj & Hstat). exists stat, (length tx + k)%nat, j.
      split; [done|]. unfold dummies in *.
      rewrite take_app_add, take_replicate, Nat.min_l by lia. split; [done|].
      destruct Hstat as [(-> & -> & ->)|]; [by left|by right].
    + exists ERR_TIMEOUT, k, 0%nat. split; [done|]. rewrite take_app_le by lia.
      split; [done|]. by right.
  - intros o s3 (stat' & k' & j & -> & Hs3 & Hstat'). cbn [andthen].
    eapply wp_seq; [by eapply wp_deselect|].
    intros o s4 [-> |(-> & Hi4 & Hq4 & Hd4)]; [by left|]. right.
    exists stat', k', j. by repeat split; try apply Hi4.
Qed.
End bus.

(** ** The commands as transactions *)

Lemma transact_write_only fuel tx :
  transact fuel tx 0 ≈
  (spi_select_device SPI0 0;;
   let! stat := spi_write_loop SPI0 tx (length tx) in
   spi_deselect_device fuel SPI0;;
   Ret (stat, [])).
Proof.
  unfold transact. apply bind_proper; [reflexivity|intros _].
  apply bind_proper; [reflexivity|intros stat].
  destruct (Z.eqb_spec stat STATUS_OK) as [-> |]; reflexivity.
Qed.

(** Two packets in a row are one. *)
Lemma write_loop_app p data data' :
  spi_write_loop p (data ++ data') (length (data ++ data')) ≈
  (let! stat := spi_write_loop p data (length data) in
   if stat =? STATUS_OK then spi_write_loop p data' (length data') else Ret stat).
Proof.
  induction data as [|b data IH]; [reflexivity|].
  cbn [app length spi_write_loop head tail defined]. rewrite bind_bind.
  apply bind_proper; [reflexivity|intros ready]. destruct (negb ready); [reflexivity|].
  cbn [bind]. rewrite bind_bind. apply bind_proper; [reflexivity|intros _]. apply IH.
Qed.

Section commands.
Context (fuel : nat).

(** A command that sends [tx] and stores nothing. *)
Definition command_of (tx : list Z) : prog hw m25p_status_t :=
  let! (stat, _) := transact fuel tx 0 in Ret (m25p_of_spi stat).

Lemma sends_only tx p :
  p = (spi_select_device SPI0 0;;
       let! stat := spi_write_loop SPI0 tx (length tx) in
       spi_deselect_device fuel SPI0;;
       Ret (m25p_of_spi stat)) ->
  p ≈ command_of tx.
Proof.
  intros ->. unfold command_of. rewrite transact_write_only.
  rewrite bind_bind. apply bind_proper; [reflexivity|intros _].
  rewrite bind_bind. apply bind_proper; [reflexivity|intros stat].
  rewrite bind_bind. reflexivity.
Qed.

Lemma write_enable_command : m25p_write_enable fuel ≈ command_of [M25P_WREN].
Proof. by apply sends_only. Qed.
Lemma write_disable_command : m25p_write_disable fuel ≈ command_of [M25P_WRDI].
Proof. by apply sends_only. Qed.
Lemma sector_erase_command address :
  m25p_sector_erase fuel address ≈ command_of (address_command M25P_SE address).
Proof. by apply sends_only. Qed.
Lemma bulk_erase_command : m25p_bulk_erase fuel ≈ command_of [M25P_BE].
Proof. by apply sends_only. Qed.
Lemma write_status_command status :
  m25p_write_status_register fuel status ≈ command_of [M25P_WRSR; status].
Proof. by apply sends_only. Qed.

Lemma write_loop_take p data n :
  spi_write_loop p data n = spi_write_loop p (take n data) n.
Proof.
  revert data. induction n as [|n IH]; intros data; [done|]. cbn [spi_write_loop].
  destruct data as [|b data]; [done|]. cbn [take head tail]. by rewrite (IH data).
Qed.

Lemma page_program_command address data n : (n <= length data)%nat ->
  m25p_page_program fuel address data (Z.of_nat n) ≈
  command_of (address_command M25P_PP address ++ take n data).
Proof.
  intros Hn. transitivity (spi_select_device SPI0 0;;
    let! stat := spi_write_loop SPI0 (address_command M25P_PP address ++ take n data)
      (length (address_command M25P_PP address ++ take n data)) in
    spi_deselect_device fuel SPI0;; Ret (m25p_of_spi stat)); [|by apply sends_only].
  unfold m25p_page_program. apply bind_proper; [reflexivity|intros _].
  rewrite write_loop_app, bind_bind. apply bind_proper; [reflexivity|intros stat].
  unfold spi_write_packet. rewrite Nat2Z.id, write_loop_take, length_take, Nat.min_l by done.
  reflexivity.
Qed.

Lemma read_data_command address len :
  m25p_read_data fuel address len ≈
  (let! (stat, stored) := transact fuel (address_command M25P_READ address) (Z.to_nat len) in
   Ret (m25p_of_spi stat, stored)).
Proof.
  unfold m25p_read_data, transact. rewrite bind_bind.
  apply bind_proper; [reflexivity|intros _]. rewrite bind_bind.
  apply bind_proper; [reflexivity|intros stat]. rewrite bind_bind.
  apply bind_proper; [reflexivity|intros [stat' stored]]. rewrite bind_bind.
  reflexivity.
Qed.

Lemma read_status_command :
  m25p_read_status_register fuel ≈
  (let! (stat, stored) := transact fuel [M25P_RDSR] 1 in Ret (m25p_of_spi stat, head stored)).
Proof.
  unfold m25p_read_status_register, transact. rewrite bind_bind.
  apply bind_proper; [reflexivity|intros _]. rewrite bind_bind.
  apply bind_proper; [reflexivity|intros stat]. rewrite bind_bind.
  apply bind_proper; [reflexivity|intros [stat' stored]]. rewrite bind_bind.
  reflexivity.
Qed.
End commands.

(** ** What the commands do to the device *)

Section effects.
Context {SL : Type} (exchange : SL -> Z -> Z * SL) (deselect : SL -> SL) (fuel : nat).

#[local] Notation "'flash_env'" := (spi_env exchange deselect).
#[local] Notation "'after'" := (delivered exchange deselect).

(** A command that succeeds has delivered all its bytes; one that fails some. *)
Definition commanded (q : SL) (tx : list Z) (o : outcome m25p_status_t) (s : spi_state) : Prop :=
  o = Stop OutOfFuel \/
  exists stat k, o = Done stat /\ bus_idle (after q (take k tx)) s /\
    (stat = M25P_SUCCESS /\ take k tx = tx \/ stat <> M25P_SUCCESS).

Lemma wp_command q tx p s : p ≈ command_of fuel tx -> Forall is_u8 tx -> bus_idle q s ->
  wp flash_env p (commanded q tx) s.
Proof.
  intros Hp H8 Hs. eapply peq_wp; [exact Hp|]. eapply wp_seq; [by apply wp_transact|].
  intros o s1 [-> |(stat & k & j & -> & Hs1 & Hstat)]; [by left|]. right.
  unfold dummies in Hs1. simpl replicate in Hs1. rewrite app_nil_r in Hs1.
  eexists _, k. split; [reflexivity|]. split; [done|].
  destruct Hstat as [(-> & -> & _)| ->]; [left|by right].
  split; [done|]. by rewrite take_ge by lia.
Qed.

Lemma address_command_bytes command address :
  is_u8 command -> Forall is_u8 (address_command command address).
Proof.
  intros Hc. unfold address_command. change 0xff with (Z.ones 8). rewrite !Z.land_ones by lia.
  repeat apply Forall_cons_2; auto using Forall_nil_2; apply u8_range.
Qed.

(** The memory's instruction with a 24-bit address, as its data sheet has it:
    most significant byte first. *)
Definition instruction (opcode address : Z) : list Z :=
  [opcode; u8 (Z.shiftr address 16); u8 (Z.shiftr address 8); u8 address].

Lemma address_command_instruction command address :
  address_command command address = instruction command address.
Proof.
  unfold address_command, instruction. change 0xff with (Z.ones 8). by rewrite !Z.land_ones by lia.
Qed.

(** C11: Reading the flash memory, whatever the timing of the transfers and the
    device on the bus: when [m25p_read_data] reports success, the buffer holds
    exactly the bytes the device shifted out after it had been sent the READ
    command and the 24-bit address, the echoes of the command itself discarded;
    when it does not, what it has stored is a prefix of them; the device is
    deselected either way, and bytes are only ever written to an empty transmit
    register while the device is selected. *)
Theorem read_data_from_the_device q s address len :
  0 <= len -> bus_idle q s ->
  wp flash_env (m25p_read_data fuel address len) (fun o s' =>
    o = Stop OutOfFuel \/
    exists stat k j, let tx := instruction 0x03 address in
      let bytes := answers exchange q tx (Z.to_nat len) in
      o = Done (stat, take j bytes) /\ length bytes = Z.to_nat len /\
      bus_idle (after q (take k (tx ++ dummies (Z.to_nat len)))) s' /\
      (stat = M25P_SUCCESS ->
         k = (4 + Z.to_nat len)%nat /\ j = Z.to_nat len)) s.
Proof.
  intros Hlen Hs. change 0x03 with M25P_READ. rewrite <- address_command_instruction.
  eapply peq_wp; [apply read_data_command|].
  eapply wp_seq; [apply wp_transact; [apply address_command_bytes; unfold is_u8, M25P_READ; lia|exact Hs]|].
  intros o s1 [-> |(stat & k & j & -> & Hs1 & Hstat)]; [by left|]. right.
  eexists _, k, j. split; [reflexivity|]. split; [|split; [done|]].
  - unfold answers, dummies. rewrite length_drop, exchanges_length, length_app, length_replicate. lia.
  - destruct Hstat as [(-> & -> & ->)| ->]; [by split|done].
Qed.

(** A command between write enable and write disable, as ext_flash.c does it. *)
Definition enabled_command (p : prog hw m25p_status_t) : prog hw m25p_status_t :=
  let! status := m25p_write_enable fuel in
  let! status := (if is_success status then p else Ret status) in
  let! _ := m25p_write_disable fuel in
  Ret status.

(** What the device has received: all three commands when success is reported
    (the last one, whose status is ignored, perhaps not), and nothing of the
    middle one unless it was enabled. *)
Definition enabled_commanded (q : SL) (tx : list Z) (o : outcome m25p_status_t) (s : spi_state)
    : Prop :=
  o = Stop OutOfFuel \/
  exists stat k k', o = Done stat /\
    (bus_idle (after (after (after q [M25P_WREN]) (take k tx)) (take k' [M25P_WRDI])) s /\
     (stat = M25P_SUCCESS -> take k tx = tx)
     \/
     stat <> M25P_SUCCESS /\
     bus_idle (after (after q (take k [M25P_WREN])) (take k' [M25P_WRDI])) s).

Lemma wp_enabled_command q tx p s : p ≈ command_of fuel tx -> Forall is_u8 tx -> bus_idle q s ->
  wp flash_env (enabled_command p) (enabled_commanded q tx) s.
Proof.
  intros Hp H8 Hs. assert (forall c, c = M25P_WREN \/ c = M25P_WRDI -> Forall is_u8 [c]) as Hc
    by (intros c [-> | ->]; repeat constructor; unfold is_u8, M25P_WREN, M25P_WRDI; lia).
  eapply wp_seq; [eapply wp_command; [apply write_enable_command|apply Hc; by left|exact Hs]|].
  intros o s1 [-> |(st1 & k1 & -> & Hs1 & Hst1)]; [by left|]. cbn [andthen].
  eapply wp_seq with (M := fun o s' => o = Stop OutOfFuel \/ exists stat k, o = Done stat /\
    (bus_idle (after (after q [M25P_WREN]) (take k tx)) s' /\
     (stat = M25P_SUCCESS -> take k tx = tx) \/
     stat <> M25P_SUCCESS /\ bus_idle (after q (take k [M25P_WREN])) s')).
  - unfold is_success. case_bool_decide as Hsucc.
    + destruct Hst1 as [[_ Hk1]|]; [|done]. rewrite Hk1 in Hs1.
      eapply wp_mono; [eapply wp_command; [exact Hp|exact H8|exact Hs1]|].
      intros o s2 [-> |(stat & k & -> & Hs2 & Hstat)]; [by left|right].
      exists stat, k. split; [done|]. left. split; [done|]. intros ->. by destruct Hstat as [[_ ?]|].
    + right. exists st1, k1. split; [done|]. by right.
  - intros o s2 [-> |(stat & k & -> & Hcase)]; [by left|]. cbn [andthen].
    assert (exists q', bus_idle q' s2) as [q' Hq'] by (destruct Hcase as [[? _]|[_ ?]]; by eexists).
    eapply wp_seq; [eapply wp_command; [apply write_disable_command|apply Hc; by right|exact Hq']|].
    intros o s3 [-> |(st3 & k3 & -> & Hs3 & _)]; [by left|]. right. exists stat, k, k3.
    assert (slave s2 = q') as <- by apply Hq'.
    split; [done|]. destruct Hcase as [[(_ & Hsl & _) Htx]|[Hne (_ & Hsl & _)]]; rewrite Hsl in Hs3;
      [left|right]; by split.
Qed.

(** C36: Storing the board's MAC address or serial number, whatever the timing
    and the device: success is reported only after the device has received a
    write enable, then one page program command with the address of the field
    and exactly its bytes (at most 26 of a serial number), each between its own
    edges of the chip select; the program command is not sent unless the write
    enable was; a write disable follows in every case. *)
Theorem board_data_written q s (data : list Z) (sn : bool) :
  Forall is_u8 data -> (if sn then True else length data = 6%nat) -> bus_idle q s ->
  wp flash_env
    (if sn then ext_flash_write_sn fuel data (Z.of_nat (length data))
     else ext_flash_write_mac_address fuel data)
    (enabled_commanded q
       (if sn then instruction 0x02 0xFC0006 ++ take 26 data
        else instruction 0x02 0xFC0000 ++ data)) s.
Proof.
  rewrite <- !address_command_instruction. intros H8 Hl Hs. assert (is_u8 M25P_PP) as Hpp by (unfold is_u8, M25P_PP; lia).
  destruct sn; apply wp_enabled_command; try exact Hs.
  - destruct (Z.ltb_spec SN_ASCII_MAXLEN (Z.of_nat (length data))) as [Hlt|Hlt];
      unfold SN_ASCII_MAXLEN in Hlt.
    + apply (page_program_command fuel SN_ASCII_OFFSET data 26). lia.
    + rewrite (take_ge data 26) by lia. rewrite <- (take_ge data (length data)) at 3 by done.
      by apply page_program_command.
  - apply Forall_app. split; [by apply address_command_bytes|by apply Forall_take].
  - rewrite <- (take_ge data 6) at 2 by lia. apply (page_program_command _ _ _ 6). lia.
  - apply Forall_app. split; [by apply address_command_bytes|done].
Qed.

Lemma wp_read_status q s : bus_idle q s ->
  wp flash_env (m25p_read_status_register fuel) (fun o s' =>
    o = Stop OutOfFuel \/
    exists stat stored k, o = Done (stat, stored) /\ bus_idle (after q (take k [M25P_RDSR; 0xFF])) s' /\
      (stat = M25P_SUCCESS -> take k [M25P_RDSR; 0xFF] = [M25P_RDSR; 0xFF] /\
         exists status, stored = Some status /\ answers exchange q [M25P_RDSR] 1 = [status])) s.
Proof.
  intros Hs. eapply peq_wp; [apply read_status_command|].
  eapply wp_seq; [apply wp_transact; [repeat constructor; unfold is_u8, M25P_RDSR; lia|exact Hs]|].
  intros o s1 [-> |(stat & k & j & -> & Hs1 & Hstat)]; [by left|]. right.
  eexists _, _, k. split; [reflexivity|]. split; [done|].
  destruct Hstat as [(-> & -> & ->)| ->]; [|done]. intros _. split; [done|].
  assert (length (answers exchange q [M25P_RDSR] 1) = 1%nat) as Hl
    by (unfold answers; by rewrite length_drop, exchanges_length).
  destruct (answers exchange q [M25P_RDSR] 1) as [|status [|]]; try discriminate Hl. by exists status.
Qed.

(** When the wait for the flash memory reports success, the last thing the
    device was asked for is its status register, and what it answered has the
    write-in-progress bit clear; the wait is over after at most 100000 reads of
    the register, with an error if the bit never was. *)
Theorem wait_for_ready_sees_ready q s : bus_idle q s ->
  wp flash_env (ext_flash_wait_for_ready fuel) (fun o s' =>
    o = Stop OutOfFuel \/
    (exists q0 status, o = Done M25P_SUCCESS /\ bus_idle (after q0 [M25P_RDSR; 0xFF]) s' /\
       answers exchange q0 [M25P_RDSR] 1 = [status] /\ has_bits status M25P_SR_WIP = false) \/
    o = Done M25P_ERROR /\ exists q', bus_idle q' s') s.
Proof.
  unfold ext_flash_wait_for_ready. generalize (Z.to_nat 100000) as timeout. intros timeout.
  revert q s. induction timeout as [|timeout IH]; intros q s Hs; [right; right; by eauto|].
  cbn [wait_for_ready_loop].
  eapply wp_seq; [by apply wp_read_status|].
  intros o s1 [-> |(stat & stored & k & -> & Hs1 & Hstat)]; [by left|]. cbn [andthen].
  unfold is_success. case_bool_decide as Hsucc; [|by eapply IH].
  destruct (Hstat Hsucc) as (Hk & status & -> & Ha). rewrite Hk in Hs1. cbn [defined bind].
  destruct (has_bits status M25P_SR_WIP) eqn:Hw; [by eapply IH|].
  right. left. exists q, status. by repeat split; try apply Hs1.
Qed.
End effects.

(** ** Completion

    A controller that finishes a transfer by the time it is looked at again. *)
Section eager.
Context {SL : Type} (exchange : SL -> Z -> Z * SL) (deselect : SL -> SL).

Definition settle (s : spi_state (SL := SL)) : spi_state :=
  let shift s b :=
    SpiState (mr s) None None (u8 (exchange (slave s) b).1) true (exchange (slave s) b).2 in
  match shifter s, tdr s with
  | None, None => s
  | Some b, None | None, Some b => shift s b
  | Some b, Some b' => shift (shift s b) b'
  end.

Definition eager (e : hwop) (s : spi_state (SL := SL)) : hw_ans e * spi_state :=
  let s := settle s in
  match e with
  | Rd a =>
    if a =? SPI_SR SPI0 then (sr_value s, s)
    else if a =? SPI_RDR SPI0 then
      (rdr s, SpiState (mr s) (tdr s) (shifter s) (rdr s) false (slave s))
    else if a =? SPI_MR SPI0 then (mr s, s) else (0, s)
  | Wr a v => (tt, spi_write_step deselect a v s)
  | RdBuf _ => ([], s)
  | NotifyWait _ => (false, s)
  | Getchar => (0, s)
  | WrBuf _ _ | NotifyStateClear | TaskDelay _ | Putchar _ => (tt, s)
  end.

Definition erun {A} (p : prog hw A) (s : spi_state (SL := SL)) : outcome A * spi_state :=
  @run hw spi_state A eager p s.

Lemma settle_ticks s : rtc (tick exchange) s (settle s).
Proof.
  destruct s as [m [t|] [b|] r f sl]; unfold settle; simpl.
  - eapply rtc_l; [constructor|]. eapply rtc_l; [constructor|]. apply rtc_once. constructor.
  - eapply rtc_l; [constructor|]. apply rtc_once. constructor.
  - apply rtc_once. constructor.
  - done.
Qed.

Lemma settle_idle s : idle (settle s).
Proof. by destruct s as [m [t|] [b|] r f sl]. Qed.

Lemma eager_possible e s :
  step (spi_env exchange deselect) e s (eager e s).1 (eager e s).2.
Proof.
  destruct e; simpl; try (exact (settle_ticks s)).
  - exists (settle s). split; [apply settle_ticks|]. unfold spi_read_step.
    destruct (a =? SPI_SR SPI0); [split; [|done]|].
    + unfold sr_value. by destruct (rdrf (settle s)), (bool_decide (tdr (settle s) = None)),
        (bool_decide (tdr (settle s) = None /\ shifter (settle s) = None)).
    + by destruct (a =? SPI_RDR SPI0); [|destruct (a =? SPI_MR SPI0)].
  - by exists (settle s); split; [apply settle_ticks|].
Qed.

Lemma erun_bind {A B} (p : prog hw A) (f : A -> prog hw B) s :
  erun (bind p f) s =
  match erun p s with
  | (Done a, s') => erun (f a) s'
  | (Stop x, s') => (Stop x, s')
  end.
Proof. apply run_bind. Qed.

Lemma erun_peq {A} (p p' : prog hw A) s : p ≈ p' -> erun p s = erun p' s.
Proof. apply peq_run. Qed.

Lemma wp_erun {A} (p : prog hw A) Q s :
  wp (spi_env exchange deselect) p Q s -> Q (erun p s).1 (erun p s).2.
Proof. apply (wp_run (spi_env exchange deselect) eager). apply eager_possible. Qed.

(** Everything but the receive register is ready at the first look. *)
Lemma erun_tx_ready n s : exists s', erun (poll n (spi_is_tx_ready SPI0)) s = (Done true, s').
Proof.
  assert (erun (spi_is_tx_ready SPI0) s = (Done 1, settle s)) as H.
  { unfold spi_is_tx_ready, test_bits. rewrite erun_bind. cbn.
    destruct (settle_idle s) as [Ht Hs]. unfold sr_value. rewrite Ht, Hs. by destruct (rdrf (settle s)). }
  destruct n; cbn [poll]; rewrite erun_bind, H; by eexists.
Qed.

Lemma erun_rx_ready n s b : tdr s = Some b ->
  exists s', erun (poll n (spi_is_rx_ready SPI0)) s = (Done true, s').
Proof.
  intros Hb. assert (erun (spi_is_rx_ready SPI0) s = (Done 1, settle s)) as H.
  { unfold spi_is_rx_ready. rewrite erun_bind. cbn.
    assert (rdrf (settle s) = true) as Hr
      by (destruct s as [m t [|] r f sl]; simpl in Hb; by subst).
    destruct (settle_idle s) as [Ht Hs]. unfold sr_value. by rewrite Ht, Hs, Hr. }
  destruct n; cbn [poll]; rewrite erun_bind, H; by eexists.
Qed.

Lemma erun_write_loop data s :
  exists s', erun (spi_write_loop SPI0 data (length data)) s = (Done STATUS_OK, s').
Proof.
  revert s. induction data as [|b data IH]; intros s; [by eexists|]. cbn [length spi_write_loop].
  rewrite erun_bind. destruct (erun_tx_ready (Z.to_nat SPI_TIMEOUT) s) as (s1 & ->).
  cbn [negb defined head tail bind]. rewrite erun_bind. apply IH.
Qed.

Lemma erun_read_loop n stored s :
  exists stored' s', erun (spi_read_loop SPI0 stored n) s = (Done (STATUS_OK, stored'), s').
Proof.
  revert stored s. induction n as [|n IH]; intros stored s; [by do 2 eexists|].
  cbn [spi_read_loop].
  rewrite erun_bind. destruct (erun_tx_ready (Z.to_nat SPI_TIMEOUT) s) as (s1 & ->).
  cbn [negb]. rewrite erun_bind.
  destruct (erun_rx_ready (Z.to_nat SPI_TIMEOUT)
    (spi_write_step deselect (SPI_TDR SPI0) (SPI_TDR_TD 0xFF) (settle s1))
    (Z.land (SPI_TDR_TD 0xFF) 0xffff)) as (s2 & Hs2); [done|].
  change (erun (spi_write_single SPI0 CONFIG_SPI_MASTER_DUMMY) s1) with
    (Done tt, spi_write_step deselect (SPI_TDR SPI0) (SPI_TDR_TD 0xFF) (settle s1)).
  cbv beta iota. rewrite erun_bind, Hs2. cbn [negb]. rewrite erun_bind. apply IH.
Qed.

Lemma erun_deselect fuel s : exists s', erun (spi_deselect_device (S fuel) SPI0) s = (Done tt, s').
Proof.
  unfold spi_deselect_device. rewrite erun_bind. cbn [iter]. rewrite erun_bind.
  assert (erun (tx_empty_round SPI0 tt) s = (Done (inr tt), settle s)) as ->.
  { unfold tx_empty_round, spi_is_tx_empty, test_bits. rewrite !erun_bind. cbn.
    destruct (settle_idle s) as [Ht Hs]. unfold sr_value. rewrite Ht, Hs. by destruct (rdrf (settle s)). }
  by eexists.
Qed.

Lemma erun_transact fuel tx n s :
  exists stored s', erun (transact (S fuel) tx n) s = (Done (STATUS_OK, stored), s').
Proof.
  unfold transact. rewrite erun_bind.
  assert (exists s1, erun (spi_select_device SPI0 0) s = (Done tt, s1)) as (s1 & ->).
  { unfold spi_select_device. rewrite erun_bind.
    assert (exists c s1, erun (spi_get_peripheral_select_decode_setting SPI0) s = (Done c, s1))
      as (c & s1 & ->) by (by do 2 eexists).
    by destruct (negb (c =? 0)); eexists. }
  rewrite erun_bind. destruct (erun_write_loop tx s1) as (s2 & ->).
  change (STATUS_OK =? STATUS_OK) with true. cbv iota.
  rewrite erun_bind. destruct (erun_read_loop n [] s2) as (stored & s3 & ->).
  rewrite erun_bind. destruct (erun_deselect fuel s3) as (s4 & ->). by do 2 eexists.
Qed.

(** The transaction, completed: what it returns and what the device has seen. *)
Lemma erun_transacted fuel q tx n s : Forall is_u8 tx -> bus_idle q s ->
  exists s', erun (transact (S fuel) tx n) s = (Done (STATUS_OK, answers exchange q tx n), s') /\
    bus_idle (delivered exchange deselect q (tx ++ dummies n)) s'.
Proof.
  intros H8 Hs. destruct (erun_transact fuel tx n s) as (stored & s' & Hr).
  pose proof (wp_erun _ _ s (wp_transact exchange deselect (S fuel) q tx n s H8 Hs)) as Ht.
  rewrite Hr in Ht. exists s'. rewrite Hr.
  destruct Ht as [|(stat & k & j & Heq & Hs' & Hstat)]; [done|].
  injection Heq as <- ->. destruct Hstat as [(_ & -> & ->)|]; [|done].
  assert (length (answers exchange q tx n) = n) as Hl
    by (unfold answers, dummies; rewrite length_drop, exchanges_length, length_app, length_replicate; lia).
  rewrite take_ge by lia. split; [done|].
  rewrite take_ge in Hs'; [done|]. unfold dummies. rewrite length_app, length_replicate. lia.
Qed.

(** Reading the flash memory completes: against a controller that finishes
    each transfer before it is asked again, any device on the bus and any
    number of bytes, one round of the unbounded wait is enough, the read
    reports success and returns all the bytes the device answers. *)
Theorem read_data_completes fuel q s address len : bus_idle q s ->
  let tx := instruction 0x03 address in
  let n := Z.to_nat len in
  let '(o, s') := erun (m25p_read_data (S fuel) address len) s in
  o = Done (M25P_SUCCESS, answers exchange q tx n) /\
  bus_idle (delivered exchange deselect q (tx ++ dummies n)) s'.
Proof.
  intros Hs. change 0x03 with M25P_READ. rewrite <- address_command_instruction. intros tx n.
  rewrite (erun_peq _ _ s (read_data_command (S fuel) address len)), erun_bind.
  destruct (erun_transacted fuel q (address_command M25P_READ address) (Z.to_nat len) s)
    as (s' & -> & Hs'); [apply address_command_bytes; unfold is_u8, M25P_READ; lia|done|]. by split.
Qed.
End eager.

(** A device that shifts out what it was sent last: a shift register. *)
Definition shift_register (sl b : Z) : Z * Z := (sl, b).

Definition at_power_up : spi_state (SL := Z) := SpiState 0 None None 0 false 0.

Example read_data_from_the_device_witness :
  wp (spi_env shift_register (fun _ => 0)) (m25p_read_data 5 0xFC0000 6) (fun o s' =>
    o = Stop OutOfFuel \/
    exists stat k j, let tx := instruction 0x03 0xFC0000 in
      let bytes := answers shift_register 0 tx 6 in
      o = Done (stat, take j bytes) /\ length bytes = 6%nat /\
      bus_idle (delivered shift_register (fun _ => 0) 0 (take k (tx ++ dummies 6))) s' /\
      (stat = M25P_SUCCESS -> k = 10%nat /\ j = 6%nat)) at_power_up.
Proof. by apply (read_data_from_the_device shift_register (fun _ => 0) 5 0 at_power_up 0xFC0000 6). Defined.

Example board_data_written_witness :
  wp (spi_env shift_register (fun _ => 0)) (ext_flash_write_mac_address 5 [0; 0x0E; 0xB2; 1; 2; 3])
    (enabled_commanded shift_register (fun _ => 0) 0
       (instruction 0x02 0xFC0000 ++ [0; 0x0E; 0xB2; 1; 2; 3])) at_power_up.
Proof.
  apply (board_data_written shift_register (fun _ => 0) 5 0 at_power_up [0; 0x0E; 0xB2; 1; 2; 3] false);
    [repeat constructor; unfold is_u8; lia|done|done].
Defined.

Example wait_for_ready_sees_ready_witness :
  wp (spi_env shift_register (fun _ => 0)) (ext_flash_wait_for_ready 5) (fun o s' =>
    o = Stop OutOfFuel \/
    (exists q0 status, o = Done M25P_SUCCESS /\
       bus_idle (delivered shift_register (fun _ => 0) q0 [M25P_RDSR; 0xFF]) s' /\
       answers shift_register q0 [M25P_RDSR] 1 = [status] /\ has_bits status M25P_SR_WIP = false) \/
    o = Done M25P_ERROR /\ exists q', bus_idle q' s') at_power_up.
Proof. by apply (wait_for_ready_sees_ready shift_register (fun _ => 0) 5 0 at_power_up). Defined.

(** The id register of a device that answers 1, 2, 3, ... *)
Example read_data_completes_witness :
  let '(o, s') := erun (fun q _ => (q, q + 1)) (fun q => q) (m25p_read_data 1 0x010203 3) (SpiState 0 None None 0 false 1) in
  o = Done (M25P_SUCCESS, answers (fun q _ => (q, q + 1)) 1 (instruction 0x03 0x010203) 3) /\
  bus_idle (delivered (fun q _ => (q, q + 1)) (fun q => q) 1
    (instruction 0x03 0x010203 ++ dummies 3)) s'.
Proof. by apply (read_data_completes (fun q _ => (q, q + 1)) (fun q => q) 0 1 _ 0x010203 3). Defined.
