(* ===== verification/FlashStore.v ===== *)
(** * The flash memory and its driver

    The memory behind the SPI bus, an M25P128 as its data sheet describes it
    (the instructions the driver uses, the write enable latch, programming that
    only clears bits, cycles during which other instructions are ignored), and
    what the functions of Flash.v do to its contents. *)

From S2P Require Import Prelude Prog Pio Spi Flash FlashBus.

(** ** The memory *)

(** [frame] is the bytes since the chip select fell; [busy] is the number of
    transactions that a program or erase cycle still lasts. *)
Record m25p := M25P { cells : Z -> Z; wel : bool; busy : nat; frame : list Z }.

Definition address24 (a2 a1 a0 : Z) : Z := 65536 * a2 + 256 * a1 + a0.

Definition status_register (d : m25p) : Z :=
  (if (busy d =? 0)%nat then 0 else 1) + (if wel d then 2 else 0).

(** What it shifts out next: while a cycle is under way it answers only for its
    status. *)
Definition answer (d : m25p) : Z :=
  match frame d with
  | 0x05 :: _ => status_register d
  | 0x03 :: a2 :: a1 :: a0 :: rest =>
    if (busy d =? 0)%nat then cells d ((address24 a2 a1 a0 + Z.of_nat (length rest)) mod 2 ^ 24) else 0xFF
  | [0x9F] => if (busy d =? 0)%nat then 0x20 else 0xFF
  | [0x9F; _] => if (busy d =? 0)%nat then 0x20 else 0xFF
  | [0x9F; _; _] => if (busy d =? 0)%nat then 0x18 else 0xFF
  | _ => 0xFF
  end.

Definition m25p_exchange (d : m25p) (b : Z) : Z * m25p :=
  (answer d, M25P (cells d) (wel d) (busy d) (frame d ++ [b])).

(** A page is 256 bytes: the data go on at its start after its end.  Bits are
    only ever cleared. *)
Definition program_page (a : Z) (data : list Z) (m : Z -> Z) (x : Z) : Z :=
  if x / 256 =? a / 256 then
    match data !! Z.to_nat ((x - a) mod 256) with Some b => Z.land (m x) b | None => m x end
  else m x.

(** A sector is 256 KB. *)
Definition erase_sector (a : Z) (m : Z -> Z) (x : Z) : Z :=
  if x / 2 ^ 18 =? a / 2 ^ 18 then 0xFF else m x.

(** How long the cycle of an instruction lasts is the memory's. *)
Section device.
Context (lasts : list Z -> nat).

(** The rise of the chip select: a cycle under way goes on, otherwise the
    instruction is carried out. *)
Definition m25p_deselect (d : m25p) : m25p :=
  match busy d with
  | S n => M25P (cells d) (wel d) n []
  | O =>
    match frame d with
    | [0x06] => M25P (cells d) true 0 []
    | [0x04] => M25P (cells d) false 0 []
    | 0x02 :: a2 :: a1 :: a0 :: _ :: _ =>
      if wel d
      then M25P (program_page (address24 a2 a1 a0) (drop 4 (frame d)) (cells d)) false (lasts (frame d)) []
      else M25P (cells d) (wel d) 0 []
    | [0xD8; a2; a1; a0] =>
      if wel d then M25P (erase_sector (address24 a2 a1 a0) (cells d)) false (lasts (frame d)) []
      else M25P (cells d) (wel d) 0 []
    | [0xC7] =>
      if wel d then M25P (fun _ => 0xFF) false (lasts (frame d)) []
      else M25P (cells d) (wel d) 0 []
    | _ => M25P (cells d) (wel d) 0 []
    end
  end.

#[local] Notation "'after'" := (delivered m25p_exchange m25p_deselect).

(** Between transactions. *)
Definition at_ease (d : m25p) : Prop := frame d = [].

Lemma exchanges_frame d bs :
  (exchanges m25p_exchange d bs).2 = M25P (cells d) (wel d) (busy d) (frame d ++ bs).
Proof.
  revert d. induction bs as [|b bs IH]; intros d; cbn [exchanges snd].
  - rewrite app_nil_r. by destruct d.
  - rewrite IH. cbn. by rewrite <- app_assoc.
Qed.

Lemma exchanges_cons m w n f b bs :
  (exchanges m25p_exchange (M25P m w n f) (b :: bs)).1 =
  u8 (answer (M25P m w n f)) :: (exchanges m25p_exchange (M25P m w n (f ++ [b])) bs).1.
Proof. done. Qed.

Lemma after_eq d bs : at_ease d -> after d bs = m25p_deselect (M25P (cells d) (wel d) (busy d) bs).
Proof. intros Hd. unfold delivered. by rewrite exchanges_frame, Hd. Qed.

Lemma address24_bytes a : 0 <= a < 2 ^ 24 ->
  address24 (u8 (Z.shiftr a 16)) (u8 (Z.shiftr a 8)) (u8 a) = a.
Proof.
  intros Ha. unfold address24, u8. rewrite !Z.shiftr_div_pow2 by lia.
  change (2 ^ 8) with 256. change (2 ^ 16) with 65536. change (2 ^ 24) with 16777216 in Ha.
  Z.to_euclidean_division_equations. lia.
Qed.

(** *** A write cycle

    A command between write enable and write disable. *)
Definition enabled (d : m25p) (tx : list Z) : m25p :=
  after (after (after d [M25P_WREN]) tx) [M25P_WRDI].

(** The memory after a cycle that changes the cells to [m]. *)
Definition cycle_done (m : Z -> Z) (d' : m25p) : Prop :=
  cells d' = m /\ at_ease d' /\ exists tx, (busy d' <= lasts tx)%nat.

Lemma disabled_after m w n : exists w' n',
  after (M25P m w n []) [M25P_WRDI] = M25P m w' n' [] /\ (n' <= n)%nat.
Proof. rewrite after_eq by done. destruct n as [|n]; do 2 eexists; (split; [reflexivity|lia]). Qed.

Lemma enabled_program d a data : at_ease d -> busy d = 0%nat -> 0 <= a < 2 ^ 24 -> data <> [] ->
  cycle_done (program_page a data (cells d)) (enabled d (instruction M25P_PP a ++ data)).
Proof.
  intros Hd Hb Ha Hdata. unfold enabled. rewrite (after_eq d) by done. rewrite Hb. cbn.
  rewrite (after_eq (M25P _ _ _ [])) by done. destruct data as [|b data]; [done|]. cbn.
  rewrite address24_bytes by done.
  match goal with |- context [delivered _ _ (M25P ?m ?w ?n []) _] =>
    destruct (disabled_after m w n) as (w' & n' & Hw & Hn) end.
  change ([4]) with [M25P_WRDI]. rewrite Hw. repeat split. eexists. exact Hn.
Qed.

Lemma enabled_erase d a : at_ease d -> busy d = 0%nat -> 0 <= a < 2 ^ 24 ->
  cycle_done (erase_sector a (cells d)) (enabled d (instruction M25P_SE a)).
Proof.
  intros Hd Hb Ha. unfold enabled. rewrite (after_eq d) by done. rewrite Hb. cbn.
  rewrite address24_bytes by done.
  match goal with |- context [delivered _ _ (M25P ?m ?w ?n []) _] =>
    destruct (disabled_after m w n) as (w' & n' & Hw & Hn) end.
  change ([4]) with [M25P_WRDI]. rewrite Hw. repeat split. eexists. exact Hn.
Qed.

(** *** Reading *)

Lemma answers_read d a n : at_ease d -> busy d = 0%nat -> 0 <= a -> a + Z.of_nat n <= 2 ^ 24 ->
  answers m25p_exchange d (instruction M25P_READ a) n = map (fun i => u8 (cells d (a + Z.of_nat i))) (seq 0 n).
Proof.
  intros Hd Hb Ha Hn. destruct n as [|n]; [done|]. assert (0 <= a < 2 ^ 24) as Ha' by lia.
  assert (forall k rest, length rest = k ->
    (exchanges m25p_exchange (M25P (cells d) (wel d) (busy d) (instruction M25P_READ a ++ rest))
       (dummies (S n - k))).1 =
    map (fun i => u8 (cells d ((a + Z.of_nat i) mod 2 ^ 24))) (seq k (S n - k))) as Hloop.
  { intros k. remember (S n - k)%nat as left eqn:Hleft. clear Hleft. revert k.
    induction left as [|left IH]; intros k rest Hk; [done|].
    cbn [dummies replicate seq map]. rewrite exchanges_cons. f_equal.
    - unfold answer. cbn [frame instruction app busy cells]. rewrite Hb. cbn [Nat.eqb].
      by rewrite address24_bytes, Hk by done.
    - rewrite <- app_assoc. apply IH. rewrite length_app. simpl. lia. }
  unfold answers. rewrite exchanges_app. cbn [fst]. rewrite exchanges_frame, Hd, app_nil_l.
  rewrite drop_app_length' by (by rewrite exchanges_length).
  specialize (Hloop 0%nat [] eq_refl). rewrite app_nil_r, Nat.sub_0_r in Hloop. rewrite Hloop.
  apply map_ext_in. intros i Hi. apply in_seq in Hi. f_equal. f_equal. apply Z.mod_small. lia.
Qed.
End device.

(** ** The driver on the memory

    Against a controller that finishes its transfers before it is asked again
    ([erun]): every command succeeds. *)
Section driver.
Context (lasts : list Z -> nat) (fuel : nat).

#[local] Notation "'after'" := (delivered m25p_exchange (m25p_deselect lasts)).
#[local] Notation "'prompt'" := (erun m25p_exchange (m25p_deselect lasts)).

Lemma prompt_command tx p q s : p ≈ command_of (S fuel) tx -> Forall is_u8 tx -> bus_idle q s ->
  exists s', prompt p s = (Done M25P_SUCCESS, s') /\ bus_idle (after q tx) s'.
Proof.
  intros Hp H8 Hs. rewrite (erun_peq _ _ _ _ s Hp). unfold command_of. rewrite erun_bind.
  destruct (erun_transacted m25p_exchange (m25p_deselect lasts) fuel q tx 0 s H8 Hs) as (s' & -> & Hs').
  exists s'. split; [done|]. unfold dummies in Hs'. simpl in Hs'. by rewrite app_nil_r in Hs'.
Qed.

Lemma prompt_enable q s : bus_idle q s ->
  exists s', prompt (m25p_write_enable (S fuel)) s = (Done M25P_SUCCESS, s') /\ bus_idle (after q [M25P_WREN]) s'.
Proof. intros Hs. eapply prompt_command; [apply write_enable_command|by repeat constructor|done]. Qed.

Lemma prompt_disable q s : bus_idle q s ->
  exists s', prompt (m25p_write_disable (S fuel)) s = (Done M25P_SUCCESS, s') /\ bus_idle (after q [M25P_WRDI]) s'.
Proof. intros Hs. eapply prompt_command; [apply write_disable_command|by repeat constructor|done]. Qed.

Lemma prompt_enabled tx p q s : p ≈ command_of (S fuel) tx -> Forall is_u8 tx -> bus_idle q s ->
  exists s', prompt (enabled_command (S fuel) p) s = (Done M25P_SUCCESS, s') /\ bus_idle (enabled lasts q tx) s'.
Proof.
  intros Hp H8 Hs. unfold enabled_command. rewrite erun_bind.
  destruct (prompt_enable q s Hs) as (s1 & -> & Hs1). unfold is_success.
  rewrite bool_decide_true by done. rewrite erun_bind.
  destruct (prompt_command tx p _ s1 Hp H8 Hs1) as (s2 & -> & Hs2). rewrite erun_bind.
  destruct (prompt_disable _ s2 Hs2) as (s3 & -> & Hs3). by exists s3.
Qed.

Lemma prompt_write_mac mac q s : length mac = 6%nat -> Forall is_u8 mac -> bus_idle q s ->
  exists s', prompt (ext_flash_write_mac_address (S fuel) mac) s = (Done M25P_SUCCESS, s') /\
    bus_idle (enabled lasts q (instruction M25P_PP MAC_ADDRESS_OFFSET ++ mac)) s'.
Proof.
  intros Hl H8 Hs.
  destruct (prompt_enabled (address_command M25P_PP MAC_ADDRESS_OFFSET ++ take 6 mac)
    (m25p_page_program (S fuel) MAC_ADDRESS_OFFSET mac 6) q s) as (s' & Hr & Hs').
  - apply (page_program_command _ _ _ 6). lia.
  - apply Forall_app. split; [by apply address_command_bytes|by apply Forall_take].
  - done.
  - rewrite address_command_instruction, take_ge in Hs' by lia. by exists s'.
Qed.

Lemma prompt_write_sn sn n q s : (n <= 26)%nat -> (n <= length sn)%nat -> Forall is_u8 (take n sn) -> bus_idle q s ->
  exists s', prompt (ext_flash_write_sn (S fuel) sn (Z.of_nat n)) s = (Done M25P_SUCCESS, s') /\
    bus_idle (enabled lasts q (instruction M25P_PP SN_ASCII_OFFSET ++ take n sn)) s'.
Proof.
  intros Hn Hl H8 Hs.
  destruct (prompt_enabled (address_command M25P_PP SN_ASCII_OFFSET ++ take n sn)
    (m25p_page_program (S fuel) SN_ASCII_OFFSET sn
       (if SN_ASCII_MAXLEN <? Z.of_nat n then SN_ASCII_MAXLEN else Z.of_nat n)) q s) as (s' & Hr & Hs').
  - unfold SN_ASCII_MAXLEN. rewrite (proj2 (Z.ltb_ge _ _)) by lia. by apply page_program_command.
  - apply Forall_app. by split; [apply address_command_bytes|].
  - done.
  - rewrite address_command_instruction in Hs'. by exists s'.
Qed.

Lemma prompt_erase a q s : bus_idle q s ->
  exists s1 s2 s3, prompt (m25p_write_enable (S fuel)) s = (Done M25P_SUCCESS, s1) /\
    prompt (m25p_sector_erase (S fuel) a) s1 = (Done M25P_SUCCESS, s2) /\
    prompt (m25p_write_disable (S fuel)) s2 = (Done M25P_SUCCESS, s3) /\
    bus_idle (enabled lasts q (instruction M25P_SE a)) s3.
Proof.
  intros Hs. destruct (prompt_enable q s Hs) as (s1 & H1 & Hs1).
  destruct (prompt_command (address_command M25P_SE a) (m25p_sector_erase (S fuel) a) (after q [M25P_WREN]) s1) as (s2 & H2 & Hs2);
    [apply sector_erase_command|by apply address_command_bytes|done|].
  destruct (prompt_disable _ s2 Hs2) as (s3 & H3 & Hs3).
  rewrite address_command_instruction in Hs3.
  by exists s1, s2, s3.
Qed.

(** The wait: one reading of the status register per transaction that the cycle
    lasts, and one that finds it over. *)
Lemma prompt_status q s : bus_idle q s -> at_ease q ->
  exists s', prompt (m25p_read_status_register (S fuel)) s =
      (Done (M25P_SUCCESS, Some (status_register q)), s') /\
    bus_idle (M25P (cells q) (wel q) (pred (busy q)) []) s'.
Proof.
  intros Hs Hq. rewrite (erun_peq _ _ _ _ s (read_status_command (S fuel))), erun_bind.
  destruct (erun_transacted m25p_exchange (m25p_deselect lasts) fuel q [M25P_RDSR] 1 s) as (s' & -> & Hs');
    [by repeat constructor|done|].
  exists s'. rewrite after_eq in Hs' by done. split.
  - unfold answers, dummies. cbn. unfold at_ease in Hq. rewrite Hq. cbn. unfold status_register. cbn.
    by destruct (busy q), (wel q).
  - by destruct (busy q).
Qed.

Lemma prompt_wait_loop timeout q s : bus_idle q s -> at_ease q -> (busy q < timeout)%nat ->
  exists s', prompt (wait_for_ready_loop (S fuel) timeout) s = (Done M25P_SUCCESS, s') /\
    bus_idle (M25P (cells q) (wel q) 0 []) s'.
Proof.
  revert q s. induction timeout as [|timeout IH]; intros q s Hs Hq Hb; [lia|]. cbn [wait_for_ready_loop].
  rewrite erun_bind. destruct (prompt_status q s Hs Hq) as (s1 & -> & Hs1).
  unfold is_success. rewrite bool_decide_true by done. cbn [defined bind].
  unfold status_register. destruct (busy q) as [|n] eqn:Hn; cbn [Nat.eqb].
  - assert (has_bits (0 + (if wel q then 2 else 0)) M25P_SR_WIP = false) as -> by (by destruct (wel q)).
    exists s1. by split.
  - assert (has_bits (1 + (if wel q then 2 else 0)) M25P_SR_WIP = true) as -> by (by destruct (wel q)).
    by destruct (IH _ s1 Hs1) as (s2 & Hr & Hs2); [done|simpl; lia|exists s2].
Qed.

Lemma prompt_wait q s : bus_idle q s -> at_ease q -> (Z.of_nat (busy q) < 100000) ->
  exists s', prompt (ext_flash_wait_for_ready (S fuel)) s = (Done M25P_SUCCESS, s') /\
    bus_idle (M25P (cells q) (wel q) 0 []) s'.
Proof. intros Hs Hq Hb. apply prompt_wait_loop; [done..|lia]. Qed.

Lemma prompt_read a n q s : bus_idle q s -> at_ease q -> busy q = 0%nat -> 0 <= a -> a + Z.of_nat n <= 2 ^ 24 ->
  exists s', prompt (m25p_read_data (S fuel) a (Z.of_nat n)) s =
      (Done (M25P_SUCCESS, map (fun i => u8 (cells q (a + Z.of_nat i))) (seq 0 n)), s') /\
    bus_idle q s'.
Proof.
  intros Hs Hq Hb Ha Hn. rewrite (erun_peq _ _ _ _ s (read_data_command (S fuel) a (Z.of_nat n))), erun_bind.
  rewrite Nat2Z.id, address_command_instruction.
  destruct (erun_transacted m25p_exchange (m25p_deselect lasts) fuel q (instruction M25P_READ a) n s)
    as (s' & -> & Hs'); [rewrite <- address_command_instruction; by apply address_command_bytes|done|].
  exists s'. rewrite answers_read by done. split; [done|].
  rewrite after_eq in Hs' by done. rewrite Hb in Hs'.
  replace q with (M25P (cells q) (wel q) 0 []); [by destruct n|].
  destruct q as [m w b f]. cbn in *. by rewrite Hq, Hb.
Qed.
End driver.
