(* ===== verification/Text.v ===== *)
(** * Text

    Strings and the conversions of printf and the C library that the monitors
    of the firmware use, over byte lists. *)

From S2P Require Import Prelude.
From Stdlib Require Ascii String.
Export String.StringSyntax.

(** The bytes of a string literal. *)
Definition text (s : String.string) : list Z :=
  map (fun c => Z.of_N (Ascii.N_of_ascii c)) (String.list_ascii_of_string s).
Arguments text s%_string_scope.

Definition crlf : list Z := [13; 10].

(** ** Hexadecimal *)

(** [%x] and [%X] digits. *)
Definition hex_digit (upper : bool) (d : Z) : Z :=
  if d <? 10 then 48 + d else (if upper then 55 else 87) + d.

Fixpoint hex_fixed (upper : bool) (n : nat) (v : Z) : list Z :=
  match n with
  | O => []
  | S n => hex_fixed upper n (v / 16) ++ [hex_digit upper (v mod 16)]
  end.

(** The digits a number needs, at least one. *)
Definition hex_width (v : Z) : nat :=
  if v <=? 0 then 1 else Z.to_nat (Z.log2 v / 4 + 1).

(** [%0<n>x]: at least [n] digits. *)
Definition hex (upper : bool) (n : nat) (v : Z) : list Z :=
  hex_fixed upper (Nat.max n (hex_width v)) v.

Fixpoint dec_digits (fuel : nat) (v : Z) : list Z :=
  match fuel with
  | O => []
  | S f => (if v <? 10 then [] else dec_digits f (v / 10)) ++ [48 + v mod 10]
  end.

(** [%d] of a non-negative int. *)
Definition dec (v : Z) : list Z := dec_digits 10 v.

(** [isxdigit], and the value of a digit. *)
Definition is_xdigit (c : Z) : bool :=
  ((48 <=? c) && (c <=? 57)) || ((97 <=? c) && (c <=? 102)) || ((65 <=? c) && (c <=? 70)).

Definition xdigit_value (c : Z) : Z :=
  if c <=? 57 then c - 48 else if c <=? 70 then c - 55 else c - 87.

Definition hex_value (cs : list Z) : Z := fold_left (fun v c => 16 * v + xdigit_value c) cs 0.

Lemma hex_digit_ok upper d : 0 <= d < 16 ->
  is_xdigit (hex_digit upper d) = true /\ xdigit_value (hex_digit upper d) = d.
Proof.
  intros Hd. unfold hex_digit, is_xdigit, xdigit_value.
  assert (d = 0 \/ d = 1 \/ d = 2 \/ d = 3 \/ d = 4 \/ d = 5 \/ d = 6 \/ d = 7 \/ d = 8 \/ d = 9 \/
    d = 10 \/ d = 11 \/ d = 12 \/ d = 13 \/ d = 14 \/ d = 15) as Hcases by lia.
  destruct upper; repeat destruct Hcases as [-> |Hcases]; subst; by split.
Qed.

Lemma hex_fixed_digits upper n v :
  Forall (fun c => is_xdigit c = true) (hex_fixed upper n v).
Proof.
  revert v. induction n as [|n IH]; intros v; simpl; [constructor|].
  apply Forall_app. split; [apply IH|]. constructor; [|constructor].
  apply hex_digit_ok. apply Z.mod_pos_bound. lia.
Qed.

Lemma hex_fixed_length upper n v : length (hex_fixed upper n v) = n.
Proof. revert v. induction n; intros v; simpl; [done|]. rewrite length_app. simpl. rewrite IHn. lia. Qed.

(** Reading back what was printed. *)
Lemma hex_value_fixed upper n v :
  0 <= v < 16 ^ Z.of_nat n -> hex_value (hex_fixed upper n v) = v.
Proof.
  revert v. induction n as [|n IH]; intros v Hv; [change (16 ^ Z.of_nat 0) with 1 in Hv; unfold hex_value; simpl; lia|].
  rewrite Nat2Z.inj_succ, Z.pow_succ_r in Hv by lia.
  unfold hex_value in *. cbn [hex_fixed]. rewrite fold_left_app. cbn [fold_left].
  rewrite IH by (split; [apply Z.div_pos; lia|apply Z.div_lt_upper_bound; lia]).
  rewrite (proj2 (hex_digit_ok upper (v mod 16) ltac:(apply Z.mod_pos_bound; lia))).
  pose proof (Z.div_mod v 16). lia.
Qed.

Lemma hex_width_bound v : 0 <= v -> v < 16 ^ Z.of_nat (hex_width v).
Proof.
  intros Hv. unfold hex_width. destruct (Z.leb_spec v 0) as [H0|H0]; [simpl; lia|].
  pose proof (Z.log2_spec v H0) as [_ Hl]. pose proof (Z.log2_nonneg v) as Hn.
  assert (0 <= Z.log2 v / 4) by (apply Z.div_pos; lia).
  rewrite Z2Nat.id by lia. change 16 with (2 ^ 4) at 1. rewrite <- Z.pow_mul_r by lia.
  eapply Z.lt_le_trans; [exact Hl|]. apply Z.pow_le_mono_r; [lia|].
  pose proof (Z.mul_succ_div_gt (Z.log2 v) 4). lia.
Qed.

Lemma hex_reads_back upper n v : 0 <= v -> hex_value (hex upper n v) = v.
Proof.
  intros Hv. apply hex_value_fixed. split; [done|].
  eapply Z.lt_le_trans; [by apply hex_width_bound|]. apply Z.pow_le_mono_r; lia.
Qed.

Lemma hex_fold_linear ds w :
  fold_left (fun v c => 16 * v + xdigit_value c) ds w =
  16 ^ Z.of_nat (length ds) * w + hex_value ds.
Proof.
  unfold hex_value. revert w. induction ds as [|c ds IH]; intros w; [simpl; lia|].
  cbn [fold_left length]. rewrite Nat2Z.inj_succ, Z.pow_succ_r by lia.
  rewrite (IH (16 * w + _)), (IH (16 * 0 + _)). lia.
Qed.

Lemma hex_fold_u32 ds w :
  u32 (fold_left (fun v c => 16 * v + xdigit_value c) ds (u32 w)) =
  u32 (fold_left (fun v c => 16 * v + xdigit_value c) ds w).
Proof.
  rewrite !hex_fold_linear. unfold u32.
  rewrite <- Zplus_mod_idemp_l, Zmult_mod_idemp_r, Zplus_mod_idemp_l. done.
Qed.

Lemma xdigit_value_range c : is_xdigit c = true -> 0 <= xdigit_value c < 16.
Proof.
  unfold is_xdigit, xdigit_value. rewrite !orb_true_iff, !andb_true_iff, !Z.leb_le. intros Hc.
  destruct (Z.leb_spec c 57), (Z.leb_spec c 70); lia.
Qed.

Lemma hex_value_range ds : Forall (fun c => is_xdigit c = true) ds ->
  0 <= hex_value ds < 16 ^ Z.of_nat (length ds).
Proof.
  induction ds as [|c ds IH] using rev_ind; intros Hds; [unfold hex_value; simpl; lia|].
  apply Forall_app in Hds as [Hds Hc]. inversion Hc as [|? ? Hc' _]; subst.
  specialize (IH Hds). pose proof (xdigit_value_range c Hc').
  unfold hex_value in *. rewrite fold_left_app, length_app. cbn [fold_left length].
  rewrite Nat2Z.inj_add, Z.pow_add_r by lia. change (16 ^ Z.of_nat 1) with 16. nia.
Qed.
