(* ===== verification/PbufSpec.v ===== *)
(** * Packet buffer chains

    What the operations of Pbuf.v do to a packet as a sequence of bytes, and
    the well-formedness that all of them keep: every [tot_len] is the length of
    the rest of the packet, every reference count a positive [u16_t]. *)

From stdpp Require Import relations.
From S2P Require Import Prelude Prog Pbuf.
#[local] Open Scope Z_scope.

Definition packet (q : list pbuf) : Prop := wf_chain q /\ live q.

(** ** Chaining *)

Lemma flat_set_tot f h : flat (map (fun p => set_tot_len p (f p)) h) = flat h.
Proof. induction h as [|p h IH]; [done|]. cbn [map]. by rewrite !flat_cons, IH. Qed.

Lemma live_set_tot f h : live h -> live (map (fun p => set_tot_len p (f p)) h).
Proof. unfold live. intros H. by apply Forall_map. Qed.

Lemma head_tot_len_wf t : wf_chain t -> head_tot_len t = Z.of_nat (length (flat t)).
Proof. destruct t as [|p t]; [done|]. intros [[H _] _]. exact H. Qed.

Lemma wf_chain_app h t : wf_chain h -> wf_chain t ->
  Z.of_nat (length (flat h) + length (flat t)) < 2 ^ 16 ->
  wf_chain (map (fun p => set_tot_len p (u16 (tot_len p + head_tot_len t))) h ++ t).
Proof.
  intros Hh Ht. induction h as [|p h IH]; intros Hl; [done|]. destruct Hh as [[Hp Hp16] Hh].
  rewrite flat_cons, length_app in Hl, Hp. cbn [map app wf_chain]. split; [|apply IH; [done|lia]].
  rewrite flat_cons, flat_app, flat_set_tot, !length_app. cbn [set_tot_len set_payload tot_len payload].
  rewrite head_tot_len_wf, Hp, u16_id by (done || unfold is_u16; lia). lia.
Qed.

Lemma pbuf_cat_eq h t : packet h -> packet t -> h <> [] -> t <> [] ->
  Z.of_nat (length (flat h) + length (flat t)) < 2 ^ 16 ->
  exists r, pbuf_cat h t = Done r /\ packet r /\ flat r = flat h ++ flat t /\ drop (length h) r = t /\
    length r = (length h + length t)%nat.
Proof.
  intros [Hh Lh] [Ht Lt] Hn Htn Hl. unfold pbuf_cat. destruct h as [|p h]; [done|]. destruct t as [|p' t]; [done|].
  cbn [LWIP_ERROR obind]. eexists. split; [done|].
  split; [split; [by apply wf_chain_app|apply Forall_app; split; [by apply live_set_tot|done]]|].
  split; [by rewrite flat_app, flat_set_tot|].
  split; [apply drop_app_length'; by rewrite length_map|by rewrite length_app, length_map].
Qed.

Lemma flat_ref q : flat (pbuf_ref q) = flat q.
Proof. by destruct q. Qed.

Lemma packet_ref q : packet q -> (forall p, head q = Some p -> ref p < 2 ^ 16 - 1) -> packet (pbuf_ref q).
Proof.
  intros [Hw Hl] Hr. destruct q as [|p q]; [done|]. specialize (Hr p eq_refl).
  apply Forall_cons_1 in Hl as [Hp Hl]. split; [done|]. constructor; [|done].
  cbn [set_ref ref]. rewrite u16_id by (unfold is_u16; lia). lia.
Qed.

Lemma wf_chain_split n q r : wf_chain q -> flat r = flat (drop n q) -> wf_chain r ->
  wf_chain (take n q ++ r).
Proof.
  revert n. induction q as [|p q IH]; intros n Hq Hf Hr; destruct n as [|n]; try done.
  destruct Hq as [Hp Hq]. cbn [take app wf_chain]. split; [|by apply IH].
  rewrite flat_cons, flat_app, Hf. cbn [drop]. by rewrite <- flat_app, take_drop, <- flat_cons.
Qed.

Lemma wf_chain_drop n q : wf_chain q -> wf_chain (drop n q).
Proof. revert n. induction q as [|p q IH]; intros [|n]; try done. intros [_ Hq]. by apply IH. Qed.

Lemma pbuf_chain_eq h t : packet h -> packet t -> h <> [] -> t <> [] ->
  Z.of_nat (length (flat h) + length (flat t)) < 2 ^ 16 ->
  (forall p, head t = Some p -> ref p < 2 ^ 16 - 1) ->
  exists r, pbuf_chain h t = Done r /\ packet r /\ flat r = flat h ++ flat t.
Proof.
  intros Hh Ht Hn Htn Hl Href. destruct (pbuf_cat_eq h t Hh Ht Hn Htn Hl) as (r & Hc & [Hw Hlv] & Hf & Hd & _).
  unfold pbuf_chain. rewrite Hc. cbn [obind]. eexists. split; [done|]. rewrite Hd.
  destruct (packet_ref t Ht Href) as [Hw' Hl'].
  split; [split|].
  - apply wf_chain_split; [done|by rewrite Hd, flat_ref|done].
  - apply Forall_app. split; [by apply Forall_take|done].
  - by rewrite <- Hf, flat_app, flat_ref, <- Hd, <- flat_app, take_drop.
Qed.

(** ** Freeing and cutting *)

Lemma free_loop_suffix q c : exists r, packet q -> packet (pbuf_free_loop q c).2 /\
  flat (pbuf_free_loop q c).2 = flat (drop r q).
Proof.
  revert c. induction q as [|p q IH]; intros c; [by exists 0%nat|]. cbn [pbuf_free_loop].
  destruct (Z.eqb_spec (u16 (ref p - 1)) 0) as [H0|H0].
  - destruct (IH (u8 (c + 1))) as [r Hr]. exists (S r). intros [[_ Hw] Hl].
    apply Forall_cons_1 in Hl as [_ Hl]. apply Hr. by split.
  - exists 0%nat. intros [[Hp Hw] Hl]. apply Forall_cons_1 in Hl as [Hrp Hl]. split; [|done].
    split; [done|]. constructor; [|done]. cbn [set_ref ref]. pose proof (u16_range (ref p - 1)).
    unfold is_u16 in *. lia.
Qed.

Lemma packet_dechain p r rs p' rest : packet (p :: r :: rs) -> pbuf_dechain (p :: r :: rs) = Done (p', rest) ->
  packet [p'] /\ flat [p'] = payload p /\ packet rest.
Proof.
  intros [[[Hp Hp16] Hw] Hl] Hd. rewrite flat_cons, length_app in Hp. unfold pbuf_dechain in Hd.
  set (r' := set_tot_len r _) in Hd. destruct (pbuf_free (r' :: rs)) as [gone left] eqn:Hfree.
  injection Hd as <- <-. pose proof (Forall_cons_1 _ _ _ Hl) as [Hrp Hlr].
  assert (packet (r' :: rs)) as Hpr.
  { pose proof (Forall_cons_1 _ _ _ Hlr) as [Hrr Hrs]. destruct Hw as [[Hr Hr16] Hw]. split; [|by constructor].
    cbn [wf_chain]. split; [|done]. rewrite flat_cons. unfold r'. cbn [set_tot_len set_payload tot_len payload].
    rewrite <- flat_cons. unfold len. rewrite Hp, u16_id by (unfold is_u16; lia). lia. }
  split; [split; [|by constructor]|split; [by rewrite flat_cons, app_nil_r|]].
  - cbn [wf_chain]. rewrite flat_cons, app_nil_r. cbn [set_tot_len set_payload tot_len payload]. unfold len. lia.
  - destruct (free_loop_suffix (r' :: rs) 0) as [k Hk]. unfold pbuf_free in Hfree. rewrite Hfree in Hk.
    destruct (0 <? gone); [by split; [|constructor]|]. by apply Hk.
Qed.

(** ** Filling and moving the payload pointer *)

Lemma take_loop_eq q data l : small q -> is_u16 l -> (Z.to_nat l <= length (flat q))%nat ->
  (Z.to_nat l <= length data)%nat -> exists q',
  pbuf_take_loop q data l = Done q' /\ flat q' = take (Z.to_nat l) data ++ drop (Z.to_nat l) (flat q) /\
  (wf_chain q -> wf_chain q') /\ (live q -> live q').
Proof.
  revert data l. induction q as [|p q IH]; intros data l Hs Hl Hq Hd; cbn [pbuf_take_loop];
    (destruct (Z.eqb_spec l 0) as [-> |H0]; [eexists; by rewrite take_0, drop_0|]).
  - change (flat []) with (@nil Z) in Hq. unfold is_u16 in Hl. simpl in Hq. lia.
  - apply Forall_cons_1 in Hs as [Hp Hs]. unfold is_u16 in Hl. rewrite flat_cons, length_app in Hq.
    set (n := if len p <? l then len p else l).
    assert (n = Z.min (len p) l) as Hn by (unfold n; destruct (Z.ltb_spec (len p) l); lia).
    pose proof (len_nonneg p). pose proof (len_nat p) as Hln. rewrite u16_id by (unfold is_u16; lia).
    destruct (IH (drop (Z.to_nat n) data) (l - n)) as (q' & -> & Hf & Hw & Hlv);
      [done|unfold is_u16; lia|lia|rewrite length_drop; lia|].
    cbn [obind]. eexists. split; [done|]. rewrite !flat_cons. cbn [set_payload payload].
    assert (length (flat q') = length (flat q)) as Hlq
      by (rewrite Hf, length_app, length_take, !length_drop; lia).
    split; [|split].
    + rewrite Hf. destruct (decide (len p <= l)) as [Hle|Hle].
      * replace (Z.to_nat n) with (length (payload p)) by lia.
        rewrite (drop_ge (payload p)), app_nil_r by lia. rewrite (drop_app_ge (payload p)) by lia.
        rewrite app_assoc. rewrite take_take_drop. f_equal; f_equal; lia.
      * replace (l - n) with 0 by lia. rewrite take_0, drop_0, app_nil_l.
        replace (Z.to_nat n) with (Z.to_nat l) by lia. by rewrite <- app_assoc, drop_app_le by lia.
    + intros [[Ht H16] Hwq]. cbn [wf_chain set_payload tot_len]. split; [|by apply Hw]. split; [|done].
      rewrite flat_cons, length_app in *. cbn [set_payload payload].
      rewrite length_app, length_take, length_drop. lia.
    + intros Hlp. apply Forall_cons_1 in Hlp as [Hp1 Hlp]. constructor; [done|by apply Hlv].
Qed.

Lemma pbuf_take_eq p q data l : packet (p :: q) -> 0 <= l <= Z.of_nat (length data) -> l <= tot_len p ->
  exists q', pbuf_take (p :: q) data l = Done (ERR_OK, q') /\ packet q' /\
    flat q' = take (Z.to_nat l) data ++ drop (Z.to_nat l) (flat (p :: q)).
Proof.
  intros [Hw Hlv] Hl Ht. pose proof Hw as [[Hp H16] _]. unfold pbuf_take. rewrite (proj2 (Z.ltb_ge _ _)) by lia.
  destruct (take_loop_eq (p :: q) data l) as (q' & -> & Hf & Hw' & Hl');
    [by apply wf_chain_small|unfold is_u16; lia|lia|lia|].
  exists q'. split; [done|]. split; [split; auto|done].
Qed.

Lemma packet_header p q inc p' r : packet (p :: q) -> is_u16 (tot_len p + inc) -> - 2 ^ 16 < inc ->
  pbuf_header p inc = Done (r, p') -> packet (p' :: q) /\
  hidden p' ++ payload p' = hidden p ++ payload p.
Proof.
  unfold is_u16. intros [[[Ht H16] Hw] Hl] Hi Hlo. apply Forall_cons_1 in Hl as [Hrp Hl].
  rewrite flat_cons, length_app in Ht.
  assert (forall h d t, (length h + length d = length (hidden p) + length (payload p))%nat -> t = u16 (tot_len p + inc) ->
    Z.of_nat (length d) = Z.of_nat (length (payload p)) + inc -> packet (set_payload p h d t :: q)) as Hset.
  { intros h d t Hhd -> Hd. split; [|by constructor]. cbn [wf_chain]. split; [|done].
    rewrite flat_cons, length_app. cbn [set_payload tot_len payload]. rewrite u16_id by (unfold is_u16; lia). lia. }
  assert (packet (p :: q)) as Hsame.
  { split; [|by constructor]. cbn [wf_chain]. rewrite flat_cons, length_app. done. }
  unfold pbuf_header. destruct (Z.eqb_spec inc 0) as [-> |H0]; [by intros [= <- <-]|].
  destruct (Z.ltb_spec inc 0) as [Hneg|Hpos].
  - rewrite u16_id by (unfold is_u16; lia). unfold LWIP_ERROR, len.
    destruct (Z.leb_spec (- inc) (Z.of_nat (length (payload p)))); cbn [obind]; [|done]. intros [= <- <-].
    split; [|cbn [set_payload hidden payload]; by rewrite <- app_assoc, take_drop].
    apply Hset; rewrite ?length_app, ?length_take, ?length_drop; try done; lia.
  - destruct (pb_type p); try (by intros [= <- <-]);
      (case_decide as Hd; [by intros [= <- <-]|]; intros [= <- <-];
       split; [|cbn [set_payload hidden payload]; by rewrite app_assoc, take_drop];
       apply Hset; rewrite ?length_app, ?length_take, ?length_drop; try done; lia).
Qed.

(** ** All operations

    What a program can be left with when it applies an operation to a packet:
    the arguments it may pass (another packet, a length within the data, an
    increment that keeps the length a [u16_t], not too many references), and a
    call that returns. *)
Inductive op_on : list pbuf -> list pbuf -> Prop :=
| on_cat q t r : packet t -> Z.of_nat (length (flat q) + length (flat t)) < 2 ^ 16 ->
    pbuf_cat q t = Done r -> op_on q r
| on_chain q t r : packet t -> Z.of_nat (length (flat q) + length (flat t)) < 2 ^ 16 ->
    (forall p, head t = Some p -> ref p < 2 ^ 16 - 1) -> pbuf_chain q t = Done r -> op_on q r
| on_ref q : (forall p, head q = Some p -> ref p < 2 ^ 16 - 1) -> op_on q (pbuf_ref q)
| on_take q data l c r : 0 <= l <= Z.of_nat (length data) -> pbuf_take q data l = Done (c, r) -> op_on q r
| on_header p q inc c p' : is_u16 (tot_len p + inc) -> - 2 ^ 16 < inc ->
    pbuf_header p inc = Done (c, p') -> op_on (p :: q) (p' :: q)
| on_dechain_head q p rest : pbuf_dechain q = Done (p, rest) -> op_on q [p]
| on_dechain_rest q p rest : pbuf_dechain q = Done (p, rest) -> op_on q rest
| on_free q : op_on q (pbuf_free q).2.

Lemma packet_nil : packet [].
Proof. split; [done|constructor]. Qed.

Lemma packet_dechain_any q p rest : packet q -> pbuf_dechain q = Done (p, rest) -> packet [p] /\ packet rest.
Proof.
  destruct q as [|p1 [|r rs]]; intros Hq Hd; [done|injection Hd as <- <-; split; [done|apply packet_nil]|].
  by destruct (packet_dechain _ _ _ _ _ Hq Hd) as (? & _ & ?).
Qed.

(** C38: Chains stay well typed: whatever operations of the library a program
    applies to a well-formed packet, one after the other, every [tot_len] of
    what it is left with is again the length of the rest of the packet and
    every reference count a positive [u16_t]. *)
Theorem chain_operations_typed q r : packet q -> rtc op_on q r -> packet r.
Proof.
  intros Hq Hr. induction Hr as [q|q r s Hop _ IH]; [done|]. apply IH. clear IH.
  destruct Hop as [q t r Ht Hl Hc|q t r Ht Hl Href Hc|q Href|q data l c r Hl Hc|p q inc c p' Hu Hlo Hc|q p rest Hc|q p rest Hc|q].
  - destruct q as [|p q]; [done|]. destruct t as [|p' t]; [done|].
    destruct (pbuf_cat_eq (p :: q) (p' :: t)) as (r' & Hc' & Hp & _); [done..|]. congruence.
  - destruct q as [|p q]; [done|]. destruct t as [|p' t]; [done|].
    destruct (pbuf_chain_eq (p :: q) (p' :: t)) as (r' & Hc' & Hp & _); [done..|]. congruence.
  - by apply packet_ref.
  - destruct q as [|p q]; [done|]. destruct (decide (l <= tot_len p)) as [Hle|Hle].
    + destruct (pbuf_take_eq p q data l Hq Hl Hle) as (q' & Hc' & Hp & _). congruence.
    + unfold pbuf_take in Hc. rewrite (proj2 (Z.ltb_lt _ _)) in Hc by lia. congruence.
  - by destruct (packet_header _ _ _ _ _ Hq Hu Hlo Hc).
  - by destruct (packet_dechain_any _ _ _ Hq Hc).
  - by destruct (packet_dechain_any _ _ _ Hq Hc).
  - destruct (free_loop_suffix q 0) as [k Hk]. by apply Hk.
Qed.

(** What is put into a packet is read back: the bytes taken into a
    well-formed chain, across its pbufs, are those that a partial copy of the
    same length returns, and the bytes behind them are untouched. *)
Theorem take_copy_roundtrip p q data l : packet (p :: q) -> 0 <= l <= Z.of_nat (length data) -> l <= tot_len p ->
  exists q', pbuf_take (p :: q) data l = Done (ERR_OK, q') /\
    pbuf_copy_partial q' l 0 = Done (take (Z.to_nat l) data, l) /\
    drop (Z.to_nat l) (flat q') = drop (Z.to_nat l) (flat (p :: q)).
Proof.
  intros Hp Hl Ht. destruct (pbuf_take_eq p q data l Hp Hl Ht) as (q' & Hc & [Hw _] & Hf). exists q'.
  destruct Hp as [[[Hpt H16] _] _].
  assert (length (take (Z.to_nat l) data) = Z.to_nat l) as Hlen by (rewrite length_take; lia).
  split; [done|]. split.
  - destruct q' as [|p' q'].
    { change (flat []) with (@nil Z) in Hf. symmetry in Hf. apply app_nil in Hf as [Hd _].
      rewrite Hd in Hlen. unfold pbuf_take in Hc. rewrite (proj2 (Z.ltb_ge _ _)) in Hc by lia.
      cbn [pbuf_take_loop] in Hc. destruct (l =? 0); [done|].
      destruct (pbuf_take_loop q _ _); done. }
    rewrite pbuf_copy_partial_eq; [|by apply wf_chain_small|unfold is_u16; lia|unfold is_u16; lia|done].
    rewrite drop_0, Hf, take_app_length' by done. cbn zeta. by rewrite Hlen, Z2Nat.id by lia.
  - rewrite Hf. by rewrite drop_app_length'.
Qed.

(** The search skips by the place of the first mismatch, which misses a match
    that overlaps a partial one: aab in aaab. *)
Lemma memfind_misses_overlap :
  pbuf_memfind [Pbuf PBUF_RAM [] [97; 97; 97; 98] 4 1] [97; 97; 98] 0 = Done 0xFFFF /\
  take 3 (drop 1 (flat [Pbuf PBUF_RAM [] [97; 97; 97; 98] 4 1])) = [97; 97; 98].
Proof. split; [by vm_compute|done]. Qed.

(** ** Samples *)

Definition sample_chain : list pbuf := [Pbuf PBUF_RAM [] [1; 2; 3] 5 1; Pbuf PBUF_RAM [] [4; 5] 2 1].

Lemma sample_chain_packet : packet sample_chain.
Proof. split; [done|by repeat constructor]. Qed.

Lemma chain_operations_typed_witness : packet [Pbuf PBUF_RAM [1] [2; 3] 4 1; Pbuf PBUF_RAM [] [4; 5] 2 1].
Proof.
  apply (chain_operations_typed sample_chain); [apply sample_chain_packet|]. eapply rtc_l; [|apply rtc_refl].
  apply (on_header _ _ (-1) 0); [split; vm_compute; done|done|done].
Defined.

Lemma take_copy_roundtrip_witness : exists q', pbuf_take sample_chain [7; 8; 9; 10] 4 = Done (ERR_OK, q') /\
  pbuf_copy_partial q' 4 0 = Done (take 4 [7; 8; 9; 10], 4) /\ drop 4 (flat q') = drop 4 (flat sample_chain).
Proof.
  apply (take_copy_roundtrip (Pbuf PBUF_RAM [] [1; 2; 3] 5 1) [Pbuf PBUF_RAM [] [4; 5] 2 1] [7; 8; 9; 10] 4);
    [apply sample_chain_packet|simpl; lia|simpl; lia].
Defined.
