(* ===== verification/PbufAlloc.v ===== *)
(** * Allocating, shrinking and copying packet buffers

    The rest of pbuf.c: the functions that call the memory manager of the stack
    (mem.c and memp.c are a parameter, with the callback that frees queued TCP
    segments when the pool is empty), and the copy of one packet into another.
    Chains are those of Pbuf.v; a block of memory is the bytes behind the
    [struct pbuf] at its start. *)

From S2P Require Import Prelude Prog Pbuf PbufSpec.

(** ** The environment: the memory manager *)

Inductive mempool := MEMP_PBUF | MEMP_PBUF_POOL.

Inductive memop : Type :=
| MempMalloc (pool : mempool)
| MempFree (pool : mempool)
| MemMalloc (size : Z)
| MemFree
| MemTrim (size : Z)
| ExchangeQueued (b : bool)
| TcpipCallback.

(** [ExchangeQueued b] stores [b] in [pbuf_free_ooseq_queued] inside a
    protected region and answers the old value; [TcpipCallback] is
    [tcpip_callback_with_block(pbuf_free_ooseq, NULL, 0)]. *)
Definition mem_ans (e : memop) : Type :=
  match e with
  | MempMalloc _ | MemMalloc _ => option (list Z)
  | ExchangeQueued _ => bool
  | TcpipCallback => Z
  | _ => unit
  end.

Definition heap : Sig := {| op := memop; ans := mem_ans |}.
Definition mcall (e : memop) : prog heap (mem_ans e) := @trigger heap e.

Definition MEM_ALIGNMENT : Z := 4.
Definition LWIP_MEM_ALIGN_SIZE (size : Z) : Z :=
  Z.land (size + MEM_ALIGNMENT - 1) (Z.lnot (MEM_ALIGNMENT - 1)).
Definition SIZEOF_STRUCT_PBUF : Z := LWIP_MEM_ALIGN_SIZE 16.
Definition PBUF_POOL_BUFSIZE : Z := 500.
Definition PBUF_POOL_BUFSIZE_ALIGNED : Z := LWIP_MEM_ALIGN_SIZE PBUF_POOL_BUFSIZE.
Definition PBUF_TRANSPORT_HLEN : Z := 20.
Definition PBUF_IP_HLEN : Z := 20.
Definition PBUF_LINK_HLEN : Z := 16.

(** ** Out of pool buffers *)

(** The control blocks in [tcp_active_pcbs], by their queue of out-of-sequence
    segments ([None]: empty): the first queue is freed. *)
Fixpoint free_first_ooseq {A} (pcbs : list (option A)) : list (option A) :=
  match pcbs with
  | [] => []
  | Some _ :: pcbs => None :: pcbs
  | None :: pcbs => None :: free_first_ooseq pcbs
  end.

Definition pbuf_free_ooseq {A} (pcbs : list (option A)) : prog heap (list (option A)) :=
  let! _ := mcall (ExchangeQueued false) in Ret (free_first_ooseq pcbs).

Definition pbuf_pool_is_empty : prog heap unit :=
  let! queued := mcall (ExchangeQueued true) in
  if negb queued then
    let! err := mcall TcpipCallback in
    if negb (err =? ERR_OK) then let! _ := mcall (ExchangeQueued false) in Ret tt else Ret tt
  else Ret tt.

(** ** Freeing *)

Definition deallocate (p : pbuf) : prog heap unit :=
  match pb_type p with
  | PBUF_POOL => mcall (MempFree MEMP_PBUF_POOL)
  | PBUF_ROM | PBUF_REF => mcall (MempFree MEMP_PBUF)
  | PBUF_RAM => mcall MemFree
  end.

(** [pbuf_free] with the calls that give the memory back. *)
Fixpoint release_loop (q : list pbuf) (count : Z) : prog heap (Z * list pbuf) :=
  match q with
  | [] => Ret (count, [])
  | p :: q' =>
    let r := u16 (ref p - 1) in
    if r =? 0 then deallocate p;; release_loop q' (u8 (count + 1))
    else Ret (count, set_ref p r :: q')
  end.
Definition release (q : list pbuf) : prog heap (Z * list pbuf) := release_loop q 0.

(** ** Allocating *)

Inductive pbuf_layer := PBUF_TRANSPORT | PBUF_IP | PBUF_LINK | PBUF_RAW.

Definition layer_offset (layer : pbuf_layer) : Z :=
  match layer with
  | PBUF_TRANSPORT => u16 (u16 (u16 (0 + PBUF_TRANSPORT_HLEN) + PBUF_IP_HLEN) + PBUF_LINK_HLEN)
  | PBUF_IP => u16 (u16 (0 + PBUF_IP_HLEN) + PBUF_LINK_HLEN)
  | PBUF_LINK => u16 (0 + PBUF_LINK_HLEN)
  | PBUF_RAW => 0
  end.

(** What [pbuf_alloc] gives: a chain, or a pbuf whose payload pointer the
    caller has yet to set ([PBUF_ROM] and [PBUF_REF]). *)
Inductive allocated :=
| Chain (q : list pbuf)
| Referring (type : pbuf_type) (length : Z).

(** A pbuf at the start of a block: [off] bytes are left free before the
    [n] bytes of the payload; the block has to be long enough. *)
Definition pbuf_in (type : pbuf_type) (block : list Z) (off n tot : Z) : prog heap pbuf :=
  if decide (Z.to_nat (off + n) <= length block)%nat then
    Ret (Pbuf type (take (Z.to_nat off) block)
           (take (Z.to_nat n) (drop (Z.to_nat off) block)) tot 1)
  else Halt Undefined.

(** The [while] loop for the rest of the chain; [p] is the chain so far. *)
Fixpoint pool_rest (k : nat) (p : list pbuf) (rem_len : Z) : prog heap (option (list pbuf)) :=
  if 0 <? rem_len then
    match k with
    | O => Halt OutOfFuel
    | S k =>
      let! q := mcall (MempMalloc MEMP_PBUF_POOL) in
      match q : option (list Z) with
      | None => pbuf_pool_is_empty;; let! _ := release p in Ret None
      | Some block =>
        let n := Z.min (u16 rem_len) PBUF_POOL_BUFSIZE_ALIGNED in
        let! q := pbuf_in PBUF_POOL block 0 n (u16 rem_len) in
        pool_rest k (p ++ [q]) (rem_len - n)
      end
    end
  else Ret (Some p).

Definition alloc_pool (offset length : Z) : prog heap (option (list pbuf)) :=
  let! p := mcall (MempMalloc MEMP_PBUF_POOL) in
  match p : option (list Z) with
  | None => pbuf_pool_is_empty;; Ret None
  | Some block =>
    let n := u16 (Z.min length (PBUF_POOL_BUFSIZE_ALIGNED - LWIP_MEM_ALIGN_SIZE offset)) in
    let! p := pbuf_in PBUF_POOL block (LWIP_MEM_ALIGN_SIZE offset) n length in
    pool_rest (Z.to_nat length) [p] (length - n)
  end.

Definition pbuf_alloc (layer : pbuf_layer) (length : Z) (type : pbuf_type)
    : prog heap (option allocated) :=
  let offset := layer_offset layer in
  match type with
  | PBUF_POOL =>
    let! r := alloc_pool offset length in
    Ret (match r with Some q => Some (Chain q) | None => None end)
  | PBUF_RAM =>
    let! p := mcall (MemMalloc (u16 (LWIP_MEM_ALIGN_SIZE (SIZEOF_STRUCT_PBUF + offset)
                                     + LWIP_MEM_ALIGN_SIZE length))) in
    match p : option (list Z) with
    | None => Ret None
    | Some block =>
      let! p := pbuf_in PBUF_RAM block (LWIP_MEM_ALIGN_SIZE offset) length length in
      Ret (Some (Chain [p]))
    end
  | PBUF_ROM | PBUF_REF =>
    let! p := mcall (MempMalloc MEMP_PBUF) in
    Ret (match p : option (list Z) with
         | Some _ => Some (Referring type length) | None => None end)
  end.

(** [payload_mem] of [payload_mem_len] bytes is the caller's.  Result: the
    free bytes before the payload, or [None]; without memory, no payload. *)
Definition pbuf_alloced_custom (l : pbuf_layer) (length : Z) (type : pbuf_type)
    (payload_mem : option (list Z)) (payload_mem_len : Z) : option (option (list Z * list Z)) :=
  let offset := layer_offset l in
  if LWIP_MEM_ALIGN_SIZE offset + length <? payload_mem_len then None
  else Some (match payload_mem with
             | Some m =>
               let off := Z.to_nat (LWIP_MEM_ALIGN_SIZE offset) in
               Some (take off m, take (Z.to_nat length) (drop off m))
             | None => None
             end).

(** ** Shrinking *)

Fixpoint realloc_loop (q : list pbuf) (rem_len grow : Z) : prog heap (list pbuf) :=
  match q with
  | [] => Halt Undefined
  | p :: q' =>
    if len p <? rem_len then
      let! r := realloc_loop q' (u16 (rem_len - len p)) grow in
      Ret (set_tot_len p (u16 (tot_len p + u16 grow)) :: r)
    else
      (if bool_decide (pb_type p = PBUF_RAM) && negb (rem_len =? len p) then
         mcall (MemTrim (u16 (SIZEOF_STRUCT_PBUF + Z.of_nat (length (hidden p)) + rem_len)))
       else Ret tt);;
      (match q' with [] => Ret tt | _ => let! _ := release q' in Ret tt end);;
      Ret [set_payload p (hidden p) (take (Z.to_nat rem_len) (payload p)) rem_len]
  end.

Definition pbuf_realloc (q : list pbuf) (new_len : Z) : prog heap (list pbuf) :=
  match q with
  | [] => Halt Undefined
  | p :: _ =>
    if tot_len p <=? new_len then Ret q
    else realloc_loop q new_len (new_len - tot_len p)
  end.

(** ** Copying *)

(** [do_not_queue]: a pbuf that ends its packet is the last of the list. *)
Definition no_queue (q : list pbuf) : outcome unit :=
  match q with
  | p :: r =>
    if len p =? tot_len p then LWIP_ERROR (match r with [] => true | _ => false end) else Done tt
  | [] => Done tt
  end.

(** The [do ... while]: [before] has been filled, [offset_to] bytes of the head
    of [p_to] too, and [offset_from] bytes of the head of [p_from] are copied.
    Every round finishes a pbuf of one of the chains. *)
Fixpoint copy_rounds (k : nat) (before p_to p_from : list pbuf) (offset_to offset_from : Z)
    : outcome (Z * list pbuf) :=
  match k with
  | O => Stop OutOfFuel
  | S k =>
    match p_to, p_from with
    | pt :: to', pf :: from' =>
      let n :=
        if len pf - offset_from <=? len pt - offset_to then u16 (len pf - offset_from)
        else u16 (len pt - offset_to) in
      let data := take (Z.to_nat n) (drop (Z.to_nat offset_from) (payload pf)) in
      let pt := set_payload pt (hidden pt)
        (take (Z.to_nat offset_to) (payload pt) ++ data
         ++ drop (Z.to_nat (offset_to + n)) (payload pt)) (tot_len pt) in
      let offset_to := u16 (offset_to + n) in
      let offset_from := u16 (offset_from + n) in
      let '(before, p_to, offset_to) :=
        if offset_to =? len pt then (before ++ [pt], to', 0) else (before, pt :: to', offset_to) in
      let '(p_from, offset_from) :=
        if len pf <=? offset_from then (from', 0) else (pf :: from', offset_from) in
      let? _ := no_queue p_from in
      let? _ := no_queue p_to in
      match p_from with
      | [] => Done (ERR_OK, before ++ p_to)
      | _ => copy_rounds k before p_to p_from offset_to offset_from
      end
    | _, _ => Stop Undefined
    end
  end.

Definition pbuf_copy (p_to p_from : list pbuf) : outcome (Z * list pbuf) :=
  let? _ := LWIP_ERROR (match p_to, p_from with
                        | t :: _, f :: _ => tot_len f <=? tot_len t | _, _ => false end) in
  copy_rounds (length p_to + length p_from) [] p_to p_from 0 0.

Definition pbuf_coalesce (p : list pbuf) (layer : pbuf_layer) : prog heap (list pbuf) :=
  match p with
  | [] => Halt Undefined
  | [_] => Ret p
  | p1 :: _ =>
    let! q := pbuf_alloc layer (tot_len p1) PBUF_RAM in
    match q with
    | None => Ret p
    | Some (Chain q) =>
      let! (_, q) := of_outcome (pbuf_copy q p) in
      let! _ := release p in
      Ret q
    | Some (Referring _ _) => Halt Undefined
    end
  end.
