(* ===== verification/PbufAllocSpec.v ===== *)
(** * Packet buffers and the memory they hold

    What the functions of PbufAlloc.v promise: an allocation takes all the
    memory of the chain it returns or none, shrinking gives back what it cuts
    off, and copying keeps the bytes. *)

From S2P Require Import Prelude Prog Pbuf PbufSpec PbufAlloc.

(** ** The memory manager

    The blocks taken, by where they come from.  An allocation may fail at any
    time; nothing is given back that has not been taken. *)
Record pools := Pools { in_pool : nat; in_pbuf : nat; in_heap : nat }.

(** A block of a pbuf of the given type. *)
Definition take_block (t : pbuf_type) (s : pools) : pools :=
  match t with
  | PBUF_POOL => Pools (S (in_pool s)) (in_pbuf s) (in_heap s)
  | PBUF_ROM | PBUF_REF => Pools (in_pool s) (S (in_pbuf s)) (in_heap s)
  | PBUF_RAM => Pools (in_pool s) (in_pbuf s) (S (in_heap s))
  end.

Definition pool_type (p : mempool) : pbuf_type :=
  match p with MEMP_PBUF => PBUF_REF | MEMP_PBUF_POOL => PBUF_POOL end.

Definition pool_block (p : mempool) (b : list Z) : Prop :=
  match p with
  | MEMP_PBUF => True
  | MEMP_PBUF_POOL => Z.of_nat (length b) = PBUF_POOL_BUFSIZE_ALIGNED
  end.

Definition mem_req (e : op heap) (s : pools) : Prop :=
  match e : memop with
  | MempFree p => exists s', s = take_block (pool_type p) s'
  | MemFree => exists s', s = take_block PBUF_RAM s'
  | _ => True
  end.

Definition mem_step (e : op heap) (s : pools) : ans heap e -> pools -> Prop :=
  match e as e return mem_ans e -> pools -> Prop with
  | MempMalloc p => fun r s' =>
    (r = None /\ s' = s) \/
    (exists b, r = Some b /\ pool_block p b /\ s' = take_block (pool_type p) s)
  | MempFree p => fun _ s' => s = take_block (pool_type p) s'
  | MemMalloc size => fun r s' =>
    (r = None /\ s' = s) \/
    (exists b, r = Some b /\ Z.of_nat (length b) = size - SIZEOF_STRUCT_PBUF /\
       s' = take_block PBUF_RAM s)
  | MemFree => fun _ s' => s = take_block PBUF_RAM s'
  | _ => fun _ s' => s' = s
  end.

Definition mem_env : env heap pools := {| req := mem_req; step := mem_step |}.

(** The state in which the blocks of a chain are taken besides those of [s]. *)
Definition holding (q : list pbuf) (s : pools) : pools := foldr (fun p => take_block (pb_type p)) s q.

Lemma take_block_inj t s s' : take_block t s = take_block t s' -> s = s'.
Proof. by destruct t, s, s'; simpl; intros [=]; subst. Qed.

Lemma take_block_comm t t' s : take_block t (take_block t' s) = take_block t' (take_block t s).
Proof. by destruct t, t'. Qed.

Lemma holding_cons p q s : holding (p :: q) s = take_block (pb_type p) (holding q s).
Proof. done. Qed.

Lemma holding_snoc q p s : holding (q ++ [p]) s = take_block (pb_type p) (holding q s).
Proof.
  induction q as [|p' q IH]; [done|]. cbn [holding app foldr]. unfold holding in IH.
  by rewrite IH, take_block_comm.
Qed.

(** ** Freeing *)

Definition unshared (q : list pbuf) : Prop := Forall (fun p => ref p = 1) q.

Lemma wp_deallocate {B} p (kont : unit -> prog heap B) Q s :
  wp mem_env (kont tt) Q s -> wp mem_env (bind (deallocate p) kont) Q (take_block (pb_type p) s).
Proof.
  intros HQ. unfold deallocate. destruct (pb_type p);
    (split; [by exists s|]); intros [] s' Hs; cbn in Hs; apply (take_block_inj PBUF_RAM) in Hs ||
    apply (take_block_inj PBUF_REF) in Hs || apply (take_block_inj PBUF_POOL) in Hs; by subst.
Qed.

(** A chain that nobody else refers to is given back whole. *)
Lemma release_gives_back q s : unshared q ->
  wp mem_env (release q) (fun o s' => (exists c, o = Done (c, [])) /\ s' = s) (holding q s).
Proof.
  unfold release. intros Hq. generalize 0 at 1. revert s.
  induction Hq as [|p q Hp _ IH]; intros s c; cbn [release_loop]; [by split; [eexists|]|].
  rewrite Hp. change (u16 (1 - 1) =? 0) with true. cbv iota. by apply wp_deallocate, IH.
Qed.

(** ** Allocating *)

Lemma wp_empty {B} (kont : unit -> prog heap B) Q s :
  wp mem_env (kont tt) Q s -> wp mem_env (bind pbuf_pool_is_empty kont) Q s.
Proof.
  intros HQ. unfold pbuf_pool_is_empty. step_in. split; [done|]. intros queued s' ->. cbn [bind].
  destruct (negb queued); [|done]. cbn [bind mcall trigger]. split; [done|]. intros err s' ->. cbn [bind].
  destruct (negb (err =? ERR_OK)); [|done]. split; [done|]. by intros x s' ->.
Qed.

Lemma wp_pbuf_in {B} type block off n tot (kont : pbuf -> prog heap B) Q s :
  0 <= off -> 0 <= n -> off + n <= Z.of_nat (length block) ->
  (forall p, pb_type p = type -> len p = n -> tot_len p = tot -> ref p = 1 ->
     Z.of_nat (length (hidden p)) = off -> wp mem_env (kont p) Q s) ->
  wp mem_env (bind (pbuf_in type block off n tot) kont) Q s.
Proof.
  intros Ho Hn Hb HQ. unfold pbuf_in. rewrite decide_True by lia. cbn [bind]. apply HQ; try done.
  - unfold len. cbn [payload]. rewrite length_take, length_drop. lia.
  - cbn [hidden]. rewrite length_take. lia.
Qed.

(** A chain of which [rem] bytes are still missing. *)
Fixpoint awaits (rem : Z) (q : list pbuf) : Prop :=
  match q with
  | [] => True
  | p :: q' => tot_len p = Z.of_nat (length (flat q)) + rem /\ tot_len p < 2 ^ 16 /\ awaits rem q'
  end.

Lemma awaits_none q : awaits 0 q -> wf_chain q.
Proof.
  induction q as [|p q IH]; [done|]. intros (Ht & H16 & Hq). split; [|by apply IH].
  split; [|done]. by rewrite Ht, Z.add_0_r.
Qed.

Lemma awaits_snoc rem q p : awaits rem q -> tot_len p = rem -> 0 <= rem < 2 ^ 16 ->
  awaits (rem - len p) (q ++ [p]).
Proof.
  intros Hq Hp Hr. induction q as [|p' q IH]; cbn [app awaits].
  - rewrite flat_cons, app_nil_r. unfold len. repeat split; lia.
  - destruct Hq as (Ht & H16 & Hq). split; [|split; [done|by apply IH]].
    rewrite !flat_cons, flat_app, !length_app in *. rewrite flat_cons, app_nil_r. unfold len. lia.
Qed.

(** What an allocation promises: the chain asked for, with its memory taken,
    or nothing. *)
Definition pooled (q : list pbuf) : Prop := Forall (fun p => pb_type p = PBUF_POOL) q.

Definition allocates (length_ : Z) (s : pools) (o : outcome (option (list pbuf))) (s' : pools) : Prop :=
  match o with
  | Done None => s' = s
  | Done (Some q) => packet q /\ unshared q /\ pooled q /\
    Z.of_nat (length (flat q)) = length_ /\ s' = holding q s
  | Stop _ => False
  end.

Lemma unshared_live q : unshared q -> live q.
Proof. intros H. eapply list.Forall_impl; [exact H|]. cbn. lia. Qed.

Lemma pool_rest_allocates k q rem length_ s :
  q <> [] -> awaits rem q -> unshared q -> pooled q -> 0 <= rem < 2 ^ 16 -> (Z.to_nat rem <= k)%nat ->
  Z.of_nat (length (flat q)) + rem = length_ ->
  wp mem_env (pool_rest k q rem) (allocates length_ s) (holding q s).
Proof.
  intros Hne. revert q rem Hne. induction k as [|k IH]; intros q rem Hne Ha Hu Hp Hr Hk Hl;
    cbn [pool_rest]; (destruct (Z.ltb_spec 0 rem) as [Hpos|Hz]; [try lia|]).
  1,3: assert (rem = 0) as -> by lia; cbn [wp allocates]; split;
    [split; [by apply awaits_none|by apply unshared_live]|]; split; [done|]; split; [done|]; split; [lia|done].
  split; [done|]. intros r s' [[-> ->]|(b & -> & Hb & ->)]; cbn [bind].
  - apply wp_empty. eapply wp_seq; [by apply release_gives_back|]. by intros o s' [[c ->] ->].
  - cbn [pool_block pool_type] in *. change PBUF_POOL_BUFSIZE_ALIGNED with 500 in *.
    rewrite u16_id by (unfold is_u16; lia).
    apply wp_pbuf_in; [lia|lia|lia|]. intros p Ht Hlen Htot Hrp _.
    rewrite <- Ht, <- holding_snoc. rewrite <- Hlen.
    apply IH; try (by destruct q); try (apply Forall_app; split; [done|by constructor]); try lia.
    + by apply awaits_snoc.
    + rewrite flat_app, flat_cons, app_nil_r, length_app. unfold len in *. lia.
Qed.

(** Room for the headers that the layers below are going to prepend. *)
Definition headroom (layer : pbuf_layer) (q : list pbuf) : Prop :=
  match q with [] => False | p :: _ => layer_offset layer <= Z.of_nat (length (hidden p)) end.

Definition allocated_as (layer : pbuf_layer) (length_ : Z) (type : pbuf_type) (s : pools)
    (o : outcome (option allocated)) (s' : pools) : Prop :=
  match o with
  | Done None => s' = s
  | Done (Some (Chain q)) =>
    packet q /\ unshared q /\ Forall (fun p => pb_type p = type) q /\ headroom layer q /\
    (type = PBUF_RAM -> length q = 1%nat) /\
    Z.of_nat (length (flat q)) = length_ /\ s' = holding q s
  | Done (Some (Referring t n)) => (type = PBUF_ROM \/ type = PBUF_REF) /\ t = type /\ n = length_ /\ s' = take_block type s
  | Stop _ => False
  end.

Lemma offset_aligned layer : 0 <= layer_offset layer <= LWIP_MEM_ALIGN_SIZE (layer_offset layer) /\
  LWIP_MEM_ALIGN_SIZE (layer_offset layer) <= 56 /\
  LWIP_MEM_ALIGN_SIZE (SIZEOF_STRUCT_PBUF + layer_offset layer) =
    SIZEOF_STRUCT_PBUF + LWIP_MEM_ALIGN_SIZE (layer_offset layer).
Proof. by destruct layer; vm_compute. Qed.

Lemma align_size n : 0 <= n -> n <= LWIP_MEM_ALIGN_SIZE n < n + 4.
Proof.
  intros Hn. unfold LWIP_MEM_ALIGN_SIZE, MEM_ALIGNMENT. change (4 - 1) with (Z.ones 2).
  rewrite <- Z.ldiff_land, Z.ldiff_ones_r, Z.shiftr_div_pow2, Z.shiftl_mul_pow2 by lia.
  change (2 ^ 2) with 4. Z.to_euclidean_division_equations; lia.
Qed.

(** The rest of the chain keeps its head. *)
Lemma pool_rest_head k q rem p : head q = Some p ->
  returns (fun r => match r with Some q' => head q' = Some p | None => True end) (pool_rest k q rem).
Proof.
  revert q rem. induction k as [|k IH]; intros q rem Hq; cbn [pool_rest]; destruct (0 <? rem); try done.
  intros [block|]; cbn [bind].
  - eapply returns_bind; [apply returns_any|]. intros p' _. apply IH. by destruct q.
  - eapply returns_bind; [apply returns_any|]. intros _ _.
    by eapply returns_bind; [apply returns_any|].
Qed.

Lemma wp_returns {E S A} (N : env E S) (P : A -> Prop) (p : prog E A) Q s :
  returns P p -> wp N p Q s ->
  wp N p (fun o s' => Q o s' /\ match o with Done a => P a | Stop _ => True end) s.
Proof.
  revert s. induction p as [a|h|e k IH]; intros s Hp HQ; simpl in *; [done..|].
  destruct HQ as [Hr Hk]. split; [done|]. intros x s' Hs. by apply IH; [|apply Hk].
Qed.

Lemma pbuf_alloc_allocates layer length_ type s :
  is_u16 length_ -> (type = PBUF_RAM -> length_ <= 65460) ->
  wp mem_env (pbuf_alloc layer length_ type) (allocated_as layer length_ type s) s.
Proof.
  unfold is_u16. intros Hl Hram. destruct (offset_aligned layer) as (Hoff & Hoff56 & Hhead).
  destruct type; unfold pbuf_alloc; cbn [bind mcall trigger].
  - specialize (Hram eq_refl). pose proof (align_size length_ ltac:(lia)) as Hal.
    assert (SIZEOF_STRUCT_PBUF = 16) as H16 by done.
    rewrite u16_id by (unfold is_u16; rewrite Hhead; lia).
    split; [done|]. intros r s' [[-> ->]|(b & -> & Hb & ->)]; cbn [bind]; [done|].
    apply wp_pbuf_in; [lia|lia|rewrite Hb, Hhead; lia|]. intros p Ht Hlen Htot Hr Hh.
    cbn [wp allocated_as]. split; [split|].
    + cbn [wf_chain]. rewrite flat_cons, app_nil_r. unfold len in Hlen. repeat split; lia.
    + constructor; [lia|constructor].
    + split; [by repeat constructor|]. split; [by repeat constructor|].
      split; [cbn [headroom]; lia|]. split; [done|]. rewrite flat_cons, app_nil_r. split; [done|].
      unfold holding. cbn [foldr]. by rewrite Ht.
  - split; [done|]. intros r s' [[-> ->]|(b & -> & Hb & ->)]; cbn [wp allocated_as bind]; [done|by split; [auto|]].
  - split; [done|]. intros r s' [[-> ->]|(b & -> & Hb & ->)]; cbn [wp allocated_as bind]; [done|by split; [auto|]].
  - unfold alloc_pool. step_in. split; [done|]. intros r s' [[-> ->]|(b & -> & Hb & ->)]; cbn [bind].
    { step_in. by apply wp_empty. }
    cbn [pool_block pool_type] in *. change PBUF_POOL_BUFSIZE_ALIGNED with 500 in *.
    rewrite u16_id by (unfold is_u16; lia). step_in.
    apply wp_pbuf_in; [lia|lia|lia|]. intros p Ht Hlen Htot Hr Hh.
    assert (take_block PBUF_POOL s = holding [p] s) as -> by (unfold holding; cbn [foldr]; by rewrite Ht).
    set (n := Z.min length_ (500 - LWIP_MEM_ALIGN_SIZE (layer_offset layer))) in *.
    eapply wp_seq.
    { eapply wp_returns; [by apply (pool_rest_head _ [p] _ p)|].
      apply (pool_rest_allocates _ [p] (length_ - n) length_ s); try done; try lia.
      - cbn [awaits]. rewrite flat_cons, app_nil_r. unfold len in Hlen. repeat split; lia.
      - by constructor.
      - by constructor.
      - rewrite flat_cons, app_nil_r. unfold len in Hlen. lia. }
    intros [[q|]|h] s' [Ho Hq]; cbn [andthen wp allocated_as allocates] in *; try done.
    destruct Ho as (Hpk & Hu & Hp & Hfl & Hs). repeat split; try done; try apply Hpk.
    destruct q as [|p' q]; [done|]. injection Hq as ->. cbn [headroom]. lia.
Qed.

(** ** Shrinking *)

Lemma holding_comm t q s : holding q (take_block t s) = take_block t (holding q s).
Proof.
  induction q as [|p q IH]; [done|]. unfold holding in *. cbn [foldr]. by rewrite IH, take_block_comm.
Qed.

Lemma holding_swap q r s : holding q (holding r s) = holding r (holding q s).
Proof. induction q as [|p q IH]; [done|]. by rewrite holding_cons, IH, <- holding_comm. Qed.

Lemma u16_shrink a g : 0 <= a + g < 2 ^ 16 -> u16 (a + u16 g) = a + g.
Proof. intros H. unfold u16. rewrite Zplus_mod_idemp_r. by apply Z.mod_small. Qed.

Lemma realloc_loop_eq q n grow s :
  packet q -> unshared (tail q) -> q <> [] -> 0 <= n <= Z.of_nat (length (flat q)) ->
  grow = n - Z.of_nat (length (flat q)) ->
  wp mem_env (realloc_loop q n grow) (fun o s' => exists r, o = Done r /\ packet r /\
    flat r = take (Z.to_nat n) (flat q) /\ s' = holding r s) (holding q s).
Proof.
  revert n s. induction q as [|p q IH]; intros n s Hpk Hu Hne Hn Hg; [done|].
  destruct Hpk as [[[Ht H16] Hw] Hlv].
  apply list.Forall_cons in Hlv as [Hr Hlv]. rewrite flat_cons, length_app in Hn, Hg, Ht.
  pose proof (len_nat p) as Hlp. pose proof (len_nonneg p) as Hlp0. cbn [realloc_loop tail] in *.
  destruct (Z.ltb_spec (len p) n) as [Hlt|Hle].
  - assert (q <> []) as Hq by (intros ->; change (flat []) with (@nil Z) in Hn; simpl in Hn; lia).
    rewrite u16_id by (unfold is_u16; lia). eapply wp_seq.
    { rewrite holding_cons, <- holding_comm.
      apply IH; [by split| |done|lia|lia]. destruct q; [done|]. by inversion Hu. }
    intros o s' (r & -> & [Hwr Hlr] & Hf & ->). cbn [andthen wp]. eexists. split; [done|].
    assert (length (flat r) = Z.to_nat (n - len p)) as Hfl by (rewrite Hf, length_take; lia).
    split; [split|split].
    + cbn [wf_chain]. split; [|done]. rewrite flat_cons, length_app.
      cbn [set_tot_len set_payload tot_len payload]. rewrite u16_shrink by lia. lia.
    + by constructor.
    + rewrite !flat_cons, Hf. cbn [set_tot_len set_payload payload].
      rewrite take_app_ge by lia. f_equal. f_equal. lia.
    + rewrite holding_comm. done.
  - assert (forall B (kont : unit -> prog heap B) Q s0, wp mem_env (kont tt) Q s0 ->
      wp mem_env (bind (if bool_decide (pb_type p = PBUF_RAM) && negb (n =? len p)
        then mcall (MemTrim (u16 (SIZEOF_STRUCT_PBUF + Z.of_nat (length (hidden p)) + n)))
        else Ret tt) kont) Q s0) as Htrim.
    { intros B kont Q s0 HQ. destruct (_ && _); [|done]. split; [done|]. by intros [] s' ->. }
    apply Htrim. eapply (wp_seq _ _ _ (fun o s' => o = Done tt /\ s' = holding [p] s)).
    + destruct q as [|p' q]; [done|]. rewrite (holding_cons p (p' :: q)), <- (holding_comm (pb_type p) (p' :: q) s).
      eapply wp_seq; [by apply (release_gives_back (p' :: q))|]. by intros o s' [[c ->] ->].
    + intros o s' [-> ->]. eexists. split; [done|]. split; [split|split; [|done]].
      * cbn [wf_chain]. rewrite flat_cons, app_nil_r. cbn [set_payload tot_len payload].
        rewrite length_take. repeat split; lia.
      * constructor; [done|constructor].
      * rewrite !flat_cons, app_nil_r. cbn [set_payload payload]. by rewrite take_app_le by lia.
Qed.

Lemma pbuf_realloc_eq q n s : packet q -> unshared (tail q) -> q <> [] -> is_u16 n ->
  wp mem_env (pbuf_realloc q n) (fun o s' => exists r, o = Done r /\ packet r /\
    flat r = take (Z.to_nat n) (flat q) /\ s' = holding r s) (holding q s).
Proof.
  intros Hp Hu Hne Hn. unfold is_u16 in Hn. destruct q as [|p q]; [done|]. unfold pbuf_realloc.
  pose proof Hp as [[[Ht H16] _] _]. destruct (Z.leb_spec (tot_len p) n) as [Hle|Hlt].
  - exists (p :: q). split; [done|]. split; [done|]. split; [|done]. rewrite firstn_all2; [done|lia].
  - apply realloc_loop_eq; try done; lia.
Qed.

(** No pbuf is empty. *)
Definition full (q : list pbuf) : Prop := Forall (fun p => payload p <> []) q.

(** What becomes of the head: it keeps its first bytes and all else. *)
Definition cut_head (n : Z) (p : pbuf) (r : list pbuf) : Prop :=
  exists r0 rs, r = r0 :: rs /\ payload r0 = take (Z.to_nat n) (payload p) /\
    hidden r0 = hidden p /\ pb_type r0 = pb_type p /\ ref r0 = ref p.

Lemma realloc_cuts p q n : packet (p :: q) -> is_u16 n -> unshared (p :: q) ->
  returns (fun r => cut_head n p r /\ unshared r /\ (full (p :: q) -> 0 < n -> full r)) (pbuf_realloc (p :: q) n).
Proof.
  intros [[[Ht _] _] _] Hn Hu. rewrite flat_cons, length_app in Ht. unfold is_u16 in Hn. unfold pbuf_realloc.
  destruct (Z.leb_spec (tot_len p) n) as [Hle|Hlt].
  { split; [|done]. exists p, q. rewrite firstn_all2 by lia. done. }
  assert (forall p r, 0 < r -> payload p <> [] -> take (Z.to_nat r) (payload p) <> []) as Htake.
  { intros [? ? [|b l] ? ?] r Hr; [done|]. intros _. cbn [payload]. destruct (Z.to_nat r) eqn:?; [lia|done]. }
  assert (forall q n g, n < 2 ^ 16 -> unshared q -> returns (fun r => unshared r /\ (full q -> 0 < n -> full r)) (realloc_loop q n g)) as Hloop.
  { clear - Htake. intros q. induction q as [|p q IH]; intros n g Hn Hu; [done|]. apply list.Forall_cons in Hu as [Hp Hu].
    cbn [realloc_loop]. destruct (Z.ltb_spec (len p) n) as [Hl|Hl].
    - pose proof (len_nonneg p). rewrite u16_id by (unfold is_u16; lia).
      eapply returns_bind; [apply IH; [lia|done]|]. intros r [Hr Hfr]. split; [by apply list.Forall_cons|].
      intros [Hf0 Hf]%list.Forall_cons _. apply list.Forall_cons. split; [done|]. apply Hfr; [done|lia].
    - eapply returns_bind; [apply returns_any|]. intros _ _. eapply returns_bind; [apply returns_any|]. intros _ _.
      split; [apply list.Forall_cons; split; [done|constructor]|].
      intros [Hf0 Hf]%list.Forall_cons Hpos. apply list.Forall_cons. split; [by apply Htake|constructor]. }
  apply list.Forall_cons in Hu as [Hp Hu]. cbn [realloc_loop]. destruct (Z.ltb_spec (len p) n) as [Hl|Hl].
  - pose proof (len_nonneg p). rewrite u16_id by (unfold is_u16; lia).
    eapply returns_bind; [apply Hloop; [lia|done]|]. intros r [Hr Hfr]. split; [|split; [by apply list.Forall_cons|]].
    + eexists _, _. split; [done|]. cbn [payload hidden set_tot_len set_payload]. unfold len in Hl. by rewrite firstn_all2 by lia.
    + intros [Hf0 Hf]%list.Forall_cons _. apply list.Forall_cons. split; [done|]. apply Hfr; [done|lia].
  - eapply returns_bind; [apply returns_any|]. intros _ _. eapply returns_bind; [apply returns_any|]. intros _ _.
    split; [by eexists _, _|]. split; [apply list.Forall_cons; split; [done|constructor]|].
    intros [Hf0 Hf]%list.Forall_cons Hpos. apply list.Forall_cons. split; [by apply Htake|constructor].
Qed.

(** ** Copying *)

(** The bytes [d] written over those of [l] from [i] on. *)
Definition splice (i : nat) (d l : list Z) : list Z := take i l ++ d ++ drop (i + length d) l.

Lemma splice_length i d l : (i + length d <= length l)%nat -> length (splice i d l) = length l.
Proof. intros H. unfold splice. rewrite !length_app, length_take, length_drop. lia. Qed.

Lemma splice_app_l i d l r : (i + length d <= length l)%nat -> splice i d (l ++ r) = splice i d l ++ r.
Proof.
  intros H. unfold splice. rewrite take_app_le, drop_app_le by lia. by rewrite <- !app_assoc.
Qed.

(** Bytes up to the end of the first list go on at the start of the second. *)
Lemma splice_app i d e l r : (i + length d = length l)%nat ->
  splice i (d ++ e) (l ++ r) = splice i d l ++ splice 0 e r.
Proof.
  intros H. unfold splice. rewrite take_app_le by lia. rewrite (drop_ge l (i + length d)) by lia.
  rewrite (drop_app_ge l) by (rewrite length_app; lia). rewrite app_nil_r, take_0, app_nil_l, <- !app_assoc.
  do 4 f_equal. rewrite length_app. lia.
Qed.

Lemma splice_splice i d e l : (i + length d + length e <= length l)%nat ->
  splice (i + length d) e (splice i d l) = splice i (d ++ e) l.
Proof.
  intros H. unfold splice. rewrite (app_assoc (take i l)).
  rewrite take_app_length' by (rewrite length_app, length_take; lia).
  rewrite drop_app_ge by (rewrite length_app, length_take; lia). rewrite drop_drop, <- !app_assoc.
  do 4 f_equal. rewrite !length_app, length_take. lia.
Qed.

(** The pbufs of a chain keep their shape when bytes are copied into it. *)
Definition same_shape (p p' : pbuf) : Prop :=
  pb_type p' = pb_type p /\ hidden p' = hidden p /\ length (payload p') = length (payload p) /\
  tot_len p' = tot_len p /\ ref p' = ref p.

Lemma shape_flat q q' : Forall2 same_shape q q' -> length (flat q') = length (flat q).
Proof.
  induction 1 as [|p p' q q' (_ & _ & Hl & _) _ IH]; [done|]. rewrite !flat_cons, !length_app. lia.
Qed.

Lemma shape_packet q q' : Forall2 same_shape q q' -> packet q -> packet q'.
Proof.
  intros Hs [Hw Hl]. split.
  - induction Hs as [|p p' q q' (_ & _ & Hp & Ht & _) Hs IH]; [done|]. destruct Hw as [[Hpt H16] Hw].
    apply list.Forall_cons in Hl as [_ Hl]. split; [|by apply IH].
    rewrite Ht. split; [|done]. rewrite Hpt, !flat_cons, !length_app, Hp, (shape_flat _ _ Hs). done.
  - induction Hs as [|p p' q q' (_ & _ & _ & _ & Hr) _ IH]; [done|].
    apply list.Forall_cons in Hl as [Hlp Hl]. destruct Hw as [_ Hw]. constructor; [by rewrite Hr|by apply IH].
Qed.

Lemma no_queue_ok q : wf_chain q -> full q -> no_queue q = Done tt.
Proof.
  intros Hw Hf. destruct q as [|p r]; [done|]. cbn [no_queue]. destruct Hw as [[Ht _] _].
  rewrite flat_cons, length_app in Ht. destruct (Z.eqb_spec (len p) (tot_len p)) as [He|]; [|done].
  destruct r as [|p' r]; [done|]. apply list.Forall_cons in Hf as [_ Hf]. apply list.Forall_cons in Hf as [Hf _].
  rewrite flat_cons, length_app in Ht. unfold len in He. destruct (payload p'); [done|]. simpl in Ht. lia.
Qed.

(** [n] bytes copied from one pbuf into another. *)
Definition filled (pt pf : pbuf) (i j n : Z) : pbuf :=
  set_payload pt (hidden pt)
    (splice (Z.to_nat i) (take (Z.to_nat n) (drop (Z.to_nat j) (payload pf))) (payload pt))
    (tot_len pt).

Lemma filled_shape pt pf i j n : 0 <= i -> 0 <= n -> i + n <= len pt ->
  same_shape pt (filled pt pf i j n).
Proof.
  intros Ho Hn Hl. unfold len in Hl. repeat split. cbn [filled set_payload payload].
  rewrite splice_length; [done|]. rewrite length_take. lia.
Qed.

Lemma filled_chain pt pf i j n to : 0 <= i -> 0 <= n -> i + n <= len pt ->
  wf_chain (pt :: to) -> full (pt :: to) ->
  wf_chain (filled pt pf i j n :: to) /\ full (filled pt pf i j n :: to).
Proof.
  intros Hi Hn Hl [[Ht H16] Hw] Hf. destruct (filled_shape pt pf i j n Hi Hn Hl) as (_ & _ & Hp & Htl & _).
  apply list.Forall_cons in Hf as [Hne Hf]. split.
  - split; [|done]. rewrite Htl. split; [|done]. by rewrite Ht, !flat_cons, !length_app, Hp.
  - constructor; [|done]. intros E. rewrite E in Hp. by destruct (payload pt).
Qed.

(** A round of the loop, by the pbufs it finishes. *)
Lemma copy_round k before pt to pf from i j n :
  wf_chain (pt :: to) -> wf_chain (pf :: from) -> full (pt :: to) -> full (pf :: from) ->
  0 <= i < len pt -> 0 <= j < len pf -> n = Z.min (len pf - j) (len pt - i) ->
  copy_rounds (S k) before (pt :: to) (pf :: from) i j =
  let pt' := filled pt pf i j n in
  let '(before, to, i) :=
    if i + n =? len pt then (before ++ [pt'], to, 0) else (before, pt' :: to, i + n) in
  if len pf <=? j + n then
    match from with
    | [] => Done (ERR_OK, before ++ to)
    | _ => copy_rounds k before to from i 0
    end
  else copy_rounds k before to (pf :: from) i (j + n).
Proof.
  intros Hwt Hwf Hft Hff Ho Hof Hn.
  pose proof (wf_chain_small _ Hwt) as Hst. pose proof (wf_chain_small _ Hwf) as Hsf.
  apply list.Forall_cons in Hst as [Hst _]. apply list.Forall_cons in Hsf as [Hsf _].
  assert (0 <= n /\ j + n <= len pf /\ i + n <= len pt) as (Hn0 & Hnf & Hnt) by lia.
  cbn [copy_rounds].
  assert ((if len pf - j <=? len pt - i then u16 (len pf - j) else u16 (len pt - i)) = n) as ->.
  { destruct (Z.leb_spec (len pf - j) (len pt - i)); rewrite u16_id by (unfold is_u16; lia); lia. }
  rewrite (u16_id (i + n)), (u16_id (j + n)) by (unfold is_u16; lia).
  assert (length (take (Z.to_nat n) (drop (Z.to_nat j) (payload pf))) = Z.to_nat n) as Hd
    by (rewrite length_take, length_drop; unfold len in *; lia).
  assert (set_payload pt (hidden pt) (take (Z.to_nat i) (payload pt) ++
      take (Z.to_nat n) (drop (Z.to_nat j) (payload pf)) ++ drop (Z.to_nat (i + n)) (payload pt))
      (tot_len pt) = filled pt pf i j n) as ->.
  { unfold filled, splice. rewrite Hd. by rewrite Z2Nat.inj_add by lia. }
  pose proof (filled_shape pt pf i j n ltac:(lia) Hn0 Hnt) as Hsh. cbv zeta.
  assert (len (filled pt pf i j n) = len pt) as -> by (unfold len; by destruct Hsh as (_ & _ & -> & _)).
  assert (no_queue (filled pt pf i j n :: to) = Done tt) as Hq1.
  { destruct (filled_chain pt pf i j n to) as [Hw Hf]; [lia..|done|done|by apply no_queue_ok]. }
  assert (no_queue to = Done tt) as Hq2.
  { destruct Hwt as [_ Hwt]. apply list.Forall_cons in Hft as [_ Hft]. by apply no_queue_ok. }
  assert (no_queue from = Done tt) as Hq3.
  { destruct Hwf as [_ Hwf]. apply list.Forall_cons in Hff as [_ Hff]. by apply no_queue_ok. }
  assert (no_queue (pf :: from) = Done tt) as Hq4 by (by apply no_queue_ok).
  destruct (i + n =? len pt), (len pf <=? j + n);
    rewrite ?Hq1, ?Hq2, ?Hq3, ?Hq4; cbn [obind]; rewrite ?Hq1, ?Hq2; by destruct from.
Qed.

Lemma full_len p : payload p <> [] -> 0 < len p.
Proof. unfold len. destruct (payload p); [done|]. simpl. lia. Qed.

(** A chain that has room for [n] more bytes, of which there are some, has a pbuf. *)
Lemma room_head q n : full q -> (0 < n <= length (flat q))%nat ->
  exists p q', q = p :: q' /\ 0 < len p.
Proof.
  intros Hq Hn. destruct q as [|p q]; [simpl in Hn; lia|]. apply list.Forall_cons in Hq as [Hp _].
  exists p, q. split; [done|by apply full_len].
Qed.

Lemma shape_trans_head p p' q r : same_shape p p' -> Forall2 same_shape (p' :: q) r ->
  Forall2 same_shape (p :: q) r.
Proof.
  intros (? & ? & ? & ? & ?) Hr. inversion Hr as [|? p2 ? r' (? & ? & ? & ? & ?) Hr']; subst.
  constructor; [|done]. repeat split; congruence.
Qed.

Lemma shape_refl q : Forall2 same_shape q q.
Proof. induction q as [|p q IH]; by constructor. Qed.

(** What the copy leaves: [before] as it is, and the bytes of [from] after the
    first [j] over those of [to] from [i] on. *)
Definition copied before to from i j (res : outcome (Z * list pbuf)) : Prop :=
  exists q, res = Done (ERR_OK, before ++ q) /\ Forall2 same_shape to q /\
    flat q = splice (Z.to_nat i) (drop (Z.to_nat j) (flat from)) (flat to).

Lemma splice_nil i l : splice i [] l = l.
Proof. unfold splice. cbn [length app]. by rewrite Nat.add_0_r, take_drop. Qed.

Lemma copied_all before to i : copied before to [] i 0 (Done (ERR_OK, before ++ to)).
Proof. exists to. split; [done|]. split; [apply shape_refl|]. symmetry. apply splice_nil. Qed.

Lemma round_bytes pf j n : 0 <= j -> 0 <= n -> j + n <= len pf ->
  length (take (Z.to_nat n) (drop (Z.to_nat j) (payload pf))) = Z.to_nat n.
Proof. unfold len. intros. rewrite length_take, length_drop. lia. Qed.

(** A round: [n] bytes of [pf] go to [pt], and [from'] at [j'] is what is left. *)
Section round.
Context (pt pf : pbuf) (to from from' : list pbuf) (i j n j' : Z) (before : list pbuf)
  (res : outcome (Z * list pbuf)).
Context (Hi : 0 <= i) (Hn : 0 <= n) (Hj : 0 <= j) (Ht : i + n <= len pt) (Hf : j + n <= len pf).
Context (Hrest : drop (Z.to_nat j) (flat (pf :: from)) =
  take (Z.to_nat n) (drop (Z.to_nat j) (payload pf)) ++ drop (Z.to_nat j') (flat from')).

Lemma copied_full : i + n = len pt ->
  copied (before ++ [filled pt pf i j n]) to from' 0 j' res ->
  copied before (pt :: to) (pf :: from) i j res.
Proof.
  intros He (q & -> & Hq & Hqf). exists (filled pt pf i j n :: q). rewrite <- app_assoc. split; [done|].
  split; [constructor; [by apply filled_shape|done]|].
  rewrite Hrest, !flat_cons, splice_app by (rewrite round_bytes by done; unfold len in *; lia).
  by rewrite Hqf.
Qed.

Lemma copied_partly : (length (drop (Z.to_nat j') (flat from')) + Z.to_nat (i + n) <= length (flat (pt :: to)))%nat ->
  copied before (filled pt pf i j n :: to) from' (i + n) j' res ->
  copied before (pt :: to) (pf :: from) i j res.
Proof.
  intros Hroom (q & -> & Hq & Hqf). exists q. split; [done|].
  split; [by apply (shape_trans_head _ _ _ _ (filled_shape pt pf i j n Hi Hn Ht))|]. pose proof (round_bytes pf j n Hj Hn Hf) as Hd.
  rewrite Hqf, Hrest, (flat_cons (filled pt pf i j n) to), flat_cons. rewrite flat_cons, length_app in Hroom.
  change (payload (filled pt pf i j n)) with
    (splice (Z.to_nat i) (take (Z.to_nat n) (drop (Z.to_nat j) (payload pf))) (payload pt)).
  rewrite <- splice_app_l by (rewrite Hd; unfold len in *; lia).
  rewrite Z2Nat.inj_add by lia. rewrite <- Hd at 1. apply splice_splice.
  rewrite length_app. lia.
Qed.
End round.

Lemma full_bytes q : full q -> q <> [] -> (0 < length (flat q))%nat.
Proof.
  intros Hq Hn. destruct q as [|p q]; [done|]. apply list.Forall_cons in Hq as [Hp _].
  apply full_len in Hp. rewrite flat_cons, length_app. unfold len in Hp. lia.
Qed.

(** The bytes left after a round. *)
Lemma rest_bytes pf from j n : 0 <= j -> 0 <= n -> j + n <= len pf ->
  drop (Z.to_nat j) (flat (pf :: from)) =
  take (Z.to_nat n) (drop (Z.to_nat j) (payload pf)) ++ drop (Z.to_nat (j + n)) (flat (pf :: from)).
Proof.
  intros Hj Hn Hl. unfold len in Hl. rewrite flat_cons, !drop_app_le by lia.
  by rewrite app_assoc, Z2Nat.inj_add, <- drop_drop, take_drop by lia.
Qed.

Lemma rest_none pf from : drop (Z.to_nat (len pf)) (flat (pf :: from)) = drop (Z.to_nat 0) (flat from).
Proof. unfold len. rewrite flat_cons, Nat2Z.id, drop_app_length. done. Qed.

Lemma drop_within pf from j : 0 <= j < len pf -> (0 < length (drop (Z.to_nat j) (flat (pf :: from))))%nat.
Proof. unfold len. intros Hj. rewrite length_drop, flat_cons, length_app. lia. Qed.

Definition within (q : list pbuf) (i : Z) : Prop :=
  match q with p :: _ => 0 <= i < len p | [] => False end.

(** There is a pbuf for the next byte. *)
Lemma within_start q n : full q -> (0 < n <= length (flat q))%nat -> within q 0.
Proof. intros Hq Hn. destruct (room_head q n Hq Hn) as (p & q' & -> & Hp). simpl. lia. Qed.

Lemma copy_rounds_eq k before to from i j :
  wf_chain to -> wf_chain from -> full to -> full from -> within to i -> within from j ->
  (length (drop (Z.to_nat j) (flat from)) + Z.to_nat i <= length (flat to))%nat ->
  (length to + length from <= k)%nat ->
  copied before to from i j (copy_rounds k before to from i j).
Proof.
  revert before to from i j. induction k as [|k IH]; intros before to from i j Hwt Hwf Hft Hff Hi Hj Hl Hk;
    (destruct to as [|pt to]; [done|]); (destruct from as [|pf from]; [done|]); [simpl in Hk; lia|].
  cbn [within] in Hi, Hj. remember (Z.min (len pf - j) (len pt - i)) as n eqn:Hn.
  rewrite (copy_round k before pt to pf from i j n) by done. cbv zeta.
  destruct (filled_chain pt pf i j n to) as [Hwt' Hft']; [lia..|done|done|].
  pose proof (filled_shape pt pf i j n ltac:(lia) ltac:(lia) ltac:(lia)) as (_ & _ & Hlen & _).
  pose proof (rest_bytes pf from j n ltac:(lia) ltac:(lia) ltac:(lia)) as Hrest.
  rewrite Hrest, length_app, round_bytes, (flat_cons pt), length_app in Hl by lia. cbn [length] in Hk.
  assert (Z.of_nat (length (payload pt)) = len pt) as Hpt by done.
  assert (j + n = len pf -> drop (Z.to_nat (j + n)) (flat (pf :: from)) = drop (Z.to_nat 0) (flat from)) as Hnone
    by (intros ->; apply rest_none).
  assert (wf_chain to /\ wf_chain from /\ full to /\ full from) as (Hwt2 & Hwf2 & Hft2 & Hff2)
    by (destruct Hwt, Hwf; apply list.Forall_cons in Hft as [_ Hft], Hff as [_ Hff]; done).
  destruct (Z.eqb_spec (i + n) (len pt)) as [He|He], (Z.leb_spec (len pf) (j + n)) as [Hfin|Hfin];
    rewrite ?Hnone in Hrest, Hl by lia.
  - apply (copied_full pt pf to from from i j n 0); try done; try lia.
    destruct from as [|pf2 from]; [apply copied_all|]. pose proof (full_bytes _ Hff2 ltac:(done)) as H2.
    apply IH; try done; [| |lia|simpl in *; lia];
      (eapply within_start; [done|]); (split; [exact H2|]); [|done].
    change (Z.to_nat 0) with 0%nat in Hl. rewrite drop_0 in Hl. lia.
  - pose proof (drop_within pf from (j + n) ltac:(lia)) as H2.
    apply (copied_full pt pf to from (pf :: from) i j n (j + n)); try done; try lia.
    apply IH; try done; [|simpl; lia|lia|simpl in *; lia].
    eapply within_start; [done|]. split; [exact H2|lia].
  - apply (copied_partly pt pf to from from i j n 0); try done; try lia.
    { rewrite flat_cons, length_app. lia. }
    destruct from as [|pf2 from]; [apply copied_all|]. pose proof (full_bytes _ Hff2 ltac:(done)) as H2.
    apply IH; try done; [| | |simpl in *; lia].
    + cbn [within]. unfold len in *. rewrite Hlen. lia.
    + eapply within_start; [done|]. by split; [exact H2|].
    + rewrite (flat_cons (filled pt pf i j n)), length_app, Hlen. lia.
  - exfalso. lia.
Qed.

(** A packet copied into one with as much room: the pbufs stay as they are and
    the bytes are those of the source. *)
Lemma pbuf_copy_eq to from : packet to -> packet from -> full to -> full from ->
  to <> [] -> from <> [] -> (length (flat from) <= length (flat to))%nat ->
  exists q, pbuf_copy to from = Done (ERR_OK, q) /\ Forall2 same_shape to q /\
    flat q = flat from ++ drop (length (flat from)) (flat to).
Proof.
  intros [Hwt _] [Hwf _] Hft Hff Ht Hf Hl. destruct to as [|pt to], from as [|pf from]; try done.
  pose proof Hft as Ht0. pose proof Hff as Hf0.
  apply list.Forall_cons in Ht0 as [Ht0 _]. apply list.Forall_cons in Hf0 as [Hf0 _].
  apply full_len in Ht0, Hf0. unfold pbuf_copy.
  assert ((tot_len pf <=? tot_len pt) = true) as ->.
  { destruct Hwt as [[-> _] _], Hwf as [[-> _] _]. lia. }
  cbn [LWIP_ERROR obind].
  destruct (copy_rounds_eq (length (pt :: to) + length (pf :: from)) [] (pt :: to) (pf :: from) 0 0)
    as (q & -> & Hq & Hflat); try done; try lia.
  { change (Z.to_nat 0) with 0%nat. rewrite drop_0. lia. }
  exists q. split; [done|]. split; [done|]. by rewrite Hflat.
Qed.

(** ** Coalescing *)

Lemma one_full q : length q = 1%nat -> (0 < length (flat q))%nat -> full q.
Proof.
  intros Hq Hb. destruct q as [|p [|? ?]]; [done| |done]. constructor; [|done].
  rewrite flat_cons, app_nil_r in Hb. by destruct (payload p); [simpl in Hb; lia|].
Qed.

Lemma shape_holding q q' s : Forall2 same_shape q q' -> holding q' s = holding q s.
Proof.
  induction 1 as [|p p' q q' (Ht & _) _ IH]; [done|]. by rewrite !holding_cons, Ht, IH.
Qed.

Lemma wp_coalesce layer q s : packet q -> unshared q -> full q -> q <> [] ->
  Z.of_nat (length (flat q)) <= 65460 ->
  wp mem_env (pbuf_coalesce q layer) (fun o s' => exists r, o = Done r /\
    (r = q \/ length r = 1%nat /\ headroom layer r) /\ packet r /\ flat r = flat q /\ s' = holding r s)
    (holding q s).
Proof.
  intros Hp Hu Hf Hne Hl. destruct q as [|p1 [|p2 q]]; [done| |].
  { exists [p1]. split; [done|]. split; [by left|done]. }
  unfold pbuf_coalesce. set (q0 := p1 :: p2 :: q) in *.
  assert (tot_len p1 = Z.of_nat (length (flat q0))) as Ht by apply Hp. rewrite Ht.
  pose proof (full_bytes q0 Hf Hne) as H0.
  eapply wp_seq; [apply pbuf_alloc_allocates; [unfold is_u16; lia|done]|].
  intros [[[r|t n]|]|h] s' Ho; cbn [andthen] in *; try done.
  - destruct Ho as (Hpr & Hur & _ & Hh & H1 & Hlr & ->). specialize (H1 eq_refl).
    destruct (pbuf_copy_eq r q0) as (r' & -> & Hs & Hfr);
      [done..|apply one_full; [done|lia]|done|by destruct r|done|lia|].
    cbn [of_outcome bind]. rewrite drop_ge, app_nil_r in Hfr by lia.
    eapply (wp_seq _ _ _ (fun o s' => (exists c, o = Done (c, [])) /\ s' = holding r s)).
    { rewrite holding_swap. by apply release_gives_back. }
    intros o s' [[c ->] ->]. exists r'. split; [done|]. split; [right|].
    + split; [by rewrite <- (list.Forall2_length _ _ _ Hs)|].
      destruct Hs as [|p p' r r' (_ & Hhd & _)]; [done|]. cbn [headroom] in *. by rewrite Hhd.
    + split; [by eapply shape_packet|]. split; [done|by rewrite (shape_holding r r')].
  - by destruct Ho as ([|] & _).
  - exists q0. split; [done|]. split; [by left|]. by subst.
Qed.

(** ** The claims *)

(** C30: [pbuf_alloc] takes all the memory of the buffer it returns or keeps
    none, for a length of 16 bits, and of at most 65460 bytes for a buffer in one
    block of the heap (above that the size of the block wraps around).  Whatever
    the memory manager answers, it ends without a failed
    assertion; a chain it returns has exactly the bytes asked for, correct
    lengths, one reference per pbuf and room for the headers of its layer, and
    holds one block per pbuf of the requested type; when it returns [NULL],
    every block it had already taken from the pool has been given back. *)
Theorem alloc_all_or_nothing layer length_ type s :
  is_u16 length_ -> (type = PBUF_RAM -> length_ <= 65460) ->
  wp mem_env (pbuf_alloc layer length_ type) (allocated_as layer length_ type s) s.
Proof. apply pbuf_alloc_allocates. Qed.

Lemma alloc_all_or_nothing_witness :
  wp mem_env (pbuf_alloc PBUF_TRANSPORT 1500 PBUF_POOL)
    (allocated_as PBUF_TRANSPORT 1500 PBUF_POOL (Pools 3 0 1)) (Pools 3 0 1) /\
  wp mem_env (pbuf_alloc PBUF_RAW 40 PBUF_RAM)
    (allocated_as PBUF_RAW 40 PBUF_RAM (Pools 3 0 1)) (Pools 3 0 1).
Proof.
  split; [apply (alloc_all_or_nothing PBUF_TRANSPORT 1500 PBUF_POOL)
         |apply (alloc_all_or_nothing PBUF_RAW 40 PBUF_RAM)];
    unfold is_u16; intros; lia || discriminate.
Defined.

(** [pbuf_coalesce] makes one pbuf of a chain without changing a byte of
    the packet.  Either there is no memory and the chain comes back as it was,
    or the result is a single pbuf with the same bytes and room for the headers
    of the layer asked for, and the blocks of the old chain, and no others, have
    been given back.  (No pbuf of the chain may be empty.) *)
Theorem coalesce_keeps_bytes layer q s :
  packet q -> unshared q -> full q -> q <> [] -> Z.of_nat (length (flat q)) <= 65460 ->
  wp mem_env (pbuf_coalesce q layer) (fun o s' => exists r, o = Done r /\
    (r = q \/ length r = 1%nat /\ headroom layer r) /\ packet r /\ flat r = flat q /\ s' = holding r s)
    (holding q s).
Proof. apply wp_coalesce. Qed.

Lemma coalesce_keeps_bytes_witness :
  let q := [Pbuf PBUF_POOL [] [1; 2; 3] 5 1; Pbuf PBUF_POOL [] [4; 5] 2 1] in
  wp mem_env (pbuf_coalesce q PBUF_RAW) (fun o s' => exists r, o = Done r /\
    (r = q \/ length r = 1%nat /\ headroom PBUF_RAW r) /\ packet r /\ flat r = [1; 2; 3; 4; 5] /\
    s' = holding r (Pools 0 0 0)) (Pools 2 0 0).
Proof.
  apply (coalesce_keeps_bytes PBUF_RAW
    [Pbuf PBUF_POOL [] [1; 2; 3] 5 1; Pbuf PBUF_POOL [] [4; 5] 2 1] (Pools 0 0 0)).
  - by repeat constructor.
  - by repeat constructor.
  - by repeat constructor.
  - done.
  - by vm_compute.
Defined.
