(* ===== verification/Xvc.v ===== *)
(** * The XVC server (src/src/xvc/xvc_server.c): data and operations

    A TCP server that lets a remote tool drive the JTAG port of the FPGA.
    This file holds the model; XvcShift.v, XvcProto.v and XvcState.v hold the
    theorems on bit shifting, on the protocol and on the server state. *)

From S2P Require Import Prelude Prog Pio Pbuf.

(** ** Constants and types *)

Definition XILTMS : Z := 96.
Definition XILTCK : Z := 97.
Definition JTAGSEL : Z := 98.
Definition MMCTDO : Z := 99.
Definition XILTDI : Z := 100.
Definition NXILJTAG : Z := 101.
Definition USBPOWER : Z := 68.

Definition XVC_PORT : Z := 2542.

Inductive xvc_status_t := XVC_STATUS_OK | XVC_STATUS_ERROR | XVC_STATUS_MORE_DATA_NEEDED.
#[global] Instance xvc_status_eq_dec : EqDecision xvc_status_t.
Proof. solve_decision. Defined.

Inductive xvc_command_t :=
| XVC_COMMAND_GETINFO | XVC_COMMAND_NOT_SET | XVC_COMMAND_SETTCK | XVC_COMMAND_SHIFT.
#[global] Instance xvc_command_eq_dec : EqDecision xvc_command_t.
Proof. solve_decision. Defined.

Inductive xvc_server_state_t :=
| XVC_SERVER_CONFIG_IN_PROGRESS
| XVC_SERVER_STATE_DISABLE_REQUESTED
| XVC_SERVER_STATE_DISABLED
| XVC_SERVER_STATE_DISABLING
| XVC_SERVER_STATE_ENABLED
| XVC_SERVER_STATE_ENABLING
| XVC_SERVER_STATE_IO_IN_PROGRESS.
#[global] Instance xvc_server_state_eq_dec : EqDecision xvc_server_state_t.
Proof. solve_decision. Defined.

(** The command words as their character codes. *)
Definition XVC_COMMAND_STR_GETINFO : list Z := [103; 101; 116; 105; 110; 102; 111; 58].
Definition XVC_COMMAND_STR_GETINFO_LEN : Z := 8.
Definition XVC_COMMAND_STR_SETTCK : list Z := [115; 101; 116; 116; 99; 107; 58].
Definition XVC_COMMAND_STR_SETTCK_LEN : Z := 7.
Definition XVC_COMMAND_STR_SHIFT : list Z := [115; 104; 105; 102; 116; 58].
Definition XVC_COMMAND_STR_SHIFT_LEN : Z := 6.
Definition XVC_COMMAND_STR_MIN_LEN : Z := 6.

(** "xvcServer_v1.0:1024\n" *)
Definition XVC_INFO_STR : list Z :=
  [120; 118; 99; 83; 101; 114; 118; 101; 114; 95; 118; 49; 46; 48; 58; 49; 48; 50; 52; 10].

Definition XVC_SHIFT_VECTOR_LENGTH_NOT_SET : Z := 0xFFFFFFFF.
Definition XVC_SHIFT_VECTOR_MAX_LEN_IN_BYTES : Z := 512.
Definition XVC_SHIFT_VECTOR_MAX_LEN_IN_BITS : Z := XVC_SHIFT_VECTOR_MAX_LEN_IN_BYTES * 8.
Definition XVC_BUFFER_MAX_LEN : Z := XVC_SHIFT_VECTOR_MAX_LEN_IN_BYTES * 2.

(** [struct xvc_server_connection_state_t]; [buffer] is the block the buffer
    pointer points to, [XVC_BUFFER_MAX_LEN] bytes once allocated. *)
Record conn_state := ConnState {
  current_command : xvc_command_t;
  buffer : list Z;
  buffer_len : Z;
  shift_vector_length_in_bits : Z
}.

Definition with_command (c : xvc_command_t) (st : conn_state) : conn_state :=
  ConnState c (buffer st) (buffer_len st) (shift_vector_length_in_bits st).
Definition with_buffer (b : list Z) (n : Z) (st : conn_state) : conn_state :=
  ConnState (current_command st) b n (shift_vector_length_in_bits st).
Definition with_length (n : Z) (st : conn_state) : conn_state :=
  ConnState (current_command st) (buffer st) (buffer_len st) n.

(** ** The environment of the server

    Hardware calls; the shared variable [xvc_server_state], read and written
    whole or, in a critical section, updated by a function of its old value
    (the answer), which nothing can interrupt; and the netconn API, whose
    answers are the network's. *)

Inductive xop : Type :=
| XHw (e : hwop)
| Critical (f : xvc_server_state_t -> xvc_server_state_t)
| LoadState
| StoreState (s : xvc_server_state_t)
| MemMalloc (n : Z)
| MemFree
| NetconnNew
| NetconnBind (port : Z)
| NetconnListen
| NetconnAccept
| NetconnRecv
| NetconnWrite (data : list Z)
| NetconnClose (listener : bool)
| NetconnDelete (listener : bool)
| PbufFree.

Definition xop_ans (e : xop) : Type :=
  match e with
  | XHw e => hw_ans e
  | Critical _ | LoadState => xvc_server_state_t
  | MemMalloc _ => option (list Z)
  | NetconnNew => bool
  | NetconnBind _ | NetconnListen | NetconnAccept | NetconnWrite _ => Z
  | NetconnRecv => (Z * list pbuf)%type
  | _ => unit
  end.

Definition xvc : Sig := {| op := xop; ans := xop_ans |}.

Definition xcall (e : xop) : prog xvc (xop_ans e) := @trigger xvc e.

(** A driver call made by the server. *)
Definition on_hw {A} (p : prog hw A) : prog xvc A :=
  @embed hw xvc XHw (fun e x => x) A p.

(** ** GPIO access *)

(** The registers shared by the JTAG pins: the pointers that
    [xvc_server_init] computes. *)
Definition xvc_server_pio_codr : Z := PIO_CODR (pio_get_pin_group XILTMS).
Definition xvc_server_pio_pdsr : Z := PIO_PDSR (pio_get_pin_group XILTMS).
Definition xvc_server_pio_sodr : Z := PIO_SODR (pio_get_pin_group XILTMS).

Definition xvc_server_bits_to_bytes (bits : Z) : Z := u32 (bits + 7) / 8.

Definition xvc_server_get_tdo : prog xvc Z :=
  let! r := on_hw (rd xvc_server_pio_pdsr) in
  Ret (Z.land (Z.shiftr r (Z.land MMCTDO 0x1F)) 1).

Definition xvc_server_set_tck_high : prog xvc unit :=
  on_hw (wr xvc_server_pio_sodr (u32 (Z.shiftl 1 (Z.land XILTCK 0x1F)))).

Definition xvc_server_set_tck_low : prog xvc unit :=
  on_hw (wr xvc_server_pio_codr (u32 (Z.shiftl 1 (Z.land XILTCK 0x1F)))).

Definition xvc_server_set_tdi_tms (tdi tms : Z) : prog xvc unit :=
  let tdi_clear := u32 (Z.shiftl (Z.land (Z.lnot tdi) 1) (Z.land XILTDI 0x1F)) in
  let tms_clear := u32 (Z.shiftl (Z.land (Z.lnot tms) 1) (Z.land XILTMS 0x1F)) in
  let tdi_set := u32 (Z.shiftl tdi (Z.land XILTDI 0x1F)) in
  let tms_set := u32 (Z.shiftl tms (Z.land XILTMS 0x1F)) in
  on_hw (wr xvc_server_pio_codr (Z.lor tdi_clear tms_clear));;
  on_hw (wr xvc_server_pio_sodr (Z.lor tdi_set tms_set)).

Definition xvc_server_jtag_cable_connected : prog xvc bool :=
  let! v := on_hw (pio_get_pin_value NXILJTAG) in
  Ret (v =? 0).

Definition xvc_server_usb_cable_connected : prog xvc bool :=
  let! v := on_hw (pio_get_pin_value USBPOWER) in
  Ret (negb (v =? 0)).

Definition configure_pin (pin ty : Z) : prog xvc unit :=
  let! _ := on_hw (pio_configure_pin pin ty) in Ret tt.

(** ** Enabling and disabling the server *)

Definition xvc_server_update_gpio_config (expected_state : xvc_server_state_t)
    : prog xvc xvc_status_t :=
  let! old := xcall (Critical (fun s =>
    if decide (s = expected_state) then XVC_SERVER_CONFIG_IN_PROGRESS else s)) in
  if decide (old <> expected_state) then Ret XVC_STATUS_ERROR
  else
    let! jtag_cable_connected := xvc_server_jtag_cable_connected in
    let! usb_cable_connected := xvc_server_usb_cable_connected in
    (if bool_decide (expected_state = XVC_SERVER_STATE_DISABLED)
        || bool_decide (expected_state = XVC_SERVER_STATE_DISABLING)
        || jtag_cable_connected || usb_cable_connected
     then configure_pin XILTCK PIO_INPUT;;
          configure_pin XILTDI PIO_INPUT;;
          configure_pin XILTMS PIO_INPUT
     else Ret tt);;
    let! refused :=
      (if bool_decide (expected_state = XVC_SERVER_STATE_ENABLED)
          || bool_decide (expected_state = XVC_SERVER_STATE_ENABLING)
       then
         if jtag_cable_connected || usb_cable_connected then Ret true
         else
           on_hw (pio_set_pin_high JTAGSEL);;
           configure_pin XILTCK PIO_OUTPUT_0;;
           configure_pin XILTDI PIO_OUTPUT_0;;
           configure_pin XILTMS PIO_OUTPUT_0;;
           Ret false
       else Ret false) in
    if refused : bool then Ret XVC_STATUS_ERROR
    else
      (if jtag_cable_connected then on_hw (pio_set_pin_high JTAGSEL)
       else if usb_cable_connected then on_hw (pio_set_pin_low JTAGSEL)
       else Ret tt);;
      xcall (StoreState expected_state);;
      Ret XVC_STATUS_OK.

(** The one critical section of [xvc_server_disable] and what each of its
    branches does to the state. *)
Definition disable_request (s : xvc_server_state_t) : xvc_server_state_t :=
  match s with
  | XVC_SERVER_STATE_IO_IN_PROGRESS => XVC_SERVER_STATE_DISABLE_REQUESTED
  | XVC_SERVER_STATE_ENABLED => XVC_SERVER_STATE_DISABLING
  | s => s
  end.

Definition xvc_server_disable : prog xvc xvc_status_t :=
  let! old := xcall (Critical disable_request) in
  if decide (old = XVC_SERVER_STATE_DISABLED) then Ret XVC_STATUS_OK
  else if decide (old = XVC_SERVER_STATE_IO_IN_PROGRESS) then Ret XVC_STATUS_ERROR
  else if decide (old <> XVC_SERVER_STATE_ENABLED) then Ret XVC_STATUS_ERROR
  else
    let! _ := xvc_server_update_gpio_config XVC_SERVER_STATE_DISABLING in
    let! _ := xcall (Critical (fun _ => XVC_SERVER_STATE_DISABLED)) in
    Ret XVC_STATUS_OK.

Definition xvc_server_enable : prog xvc xvc_status_t :=
  let! old := xcall (Critical (fun s =>
    if decide (s = XVC_SERVER_STATE_DISABLED) then XVC_SERVER_STATE_ENABLING else s)) in
  if decide (old = XVC_SERVER_STATE_ENABLED) then Ret XVC_STATUS_OK
  else if decide (old <> XVC_SERVER_STATE_DISABLED) then Ret XVC_STATUS_ERROR
  else
    let! status := xvc_server_update_gpio_config XVC_SERVER_STATE_ENABLING in
    let! _ := xcall (Critical (fun _ =>
      if decide (status = XVC_STATUS_OK) then XVC_SERVER_STATE_ENABLED
      else XVC_SERVER_STATE_DISABLED)) in
    Ret status.

Definition xvc_server_init : prog xvc unit :=
  configure_pin MMCTDO PIO_INPUT;;
  configure_pin NXILJTAG PIO_INPUT;;
  configure_pin USBPOWER PIO_INPUT;;
  configure_pin JTAGSEL PIO_OUTPUT_0.

Definition xvc_server_is_enabled : prog xvc bool :=
  let! s := xcall LoadState in
  Ret (bool_decide (s = XVC_SERVER_STATE_ENABLED)
       || bool_decide (s = XVC_SERVER_STATE_IO_IN_PROGRESS)).

Definition xvc_server_update_jtagsel : prog xvc unit :=
  let! jtag := xvc_server_jtag_cable_connected in
  if jtag : bool then
    let! s := xcall LoadState in
    if decide (s <> XVC_SERVER_STATE_DISABLED) then
      let! _ := xvc_server_disable in Ret tt
    else
      let! sel := on_hw (pio_get_pin_value JTAGSEL) in
      if sel =? 0 then
        let! _ := xvc_server_update_gpio_config XVC_SERVER_STATE_DISABLED in Ret tt
      else Ret tt
  else
    let! power := on_hw (pio_get_pin_value USBPOWER) in
    if negb (power =? 0) then
      let! s := xcall LoadState in
      if decide (s <> XVC_SERVER_STATE_DISABLED) then
        let! _ := xvc_server_disable in Ret tt
      else
        let! sel := on_hw (pio_get_pin_value JTAGSEL) in
        if negb (sel =? 0) then
          let! _ := xvc_server_update_gpio_config XVC_SERVER_STATE_DISABLED in Ret tt
        else Ret tt
    else Ret tt.

(** ** Shifting bits *)

(** The locals of [xvc_server_do_shift] that live across iterations. *)
Record shift_state := ShiftState {
  next_bit_index_in_byte : Z;
  next_byte_index : Z;
  tdi_next_byte : Z;
  tms_next_byte : Z;
  next_tdi : Z;
  next_tms : Z;
  shifted_bytes : list Z
}.

Definition byte_at (bs : list Z) (i : Z) : prog xvc Z := defined (bs !! Z.to_nat i).

(** One round of the [for] loop. *)
Definition shift_bit (tms_bytes : list Z) (last_byte_index : Z) (st : shift_state)
    : prog xvc shift_state :=
  let bit_index_in_byte := next_bit_index_in_byte st in
  let byte_index := next_byte_index st in
  xvc_server_set_tdi_tms (next_tdi st) (next_tms st);;
  xvc_server_set_tck_high;;
  let! (nbit, nbyte, tdi_byte, tms_byte, bytes) :=
    (if (bit_index_in_byte =? 7) && negb (byte_index =? last_byte_index) then
       let nbyte := u32 (byte_index + 1) in
       let! tdi_byte := byte_at (shifted_bytes st) nbyte in
       let! tms_byte := byte_at tms_bytes nbyte in
       Ret (0, nbyte, tdi_byte, tms_byte, <[Z.to_nat nbyte := 0]> (shifted_bytes st))
     else
       Ret (u32 (bit_index_in_byte + 1), byte_index, tdi_next_byte st, tms_next_byte st,
            shifted_bytes st)) in
  let tdi := Z.land (Z.shiftr tdi_byte nbit) 1 in
  let tms := Z.land (Z.shiftr tms_byte nbit) 1 in
  let! tdo := xvc_server_get_tdo in
  let! old := byte_at bytes byte_index in
  let bytes :=
    <[Z.to_nat byte_index := u8 (Z.lor old (Z.shiftl tdo bit_index_in_byte))]> bytes in
  xvc_server_set_tck_low;;
  Ret (ShiftState nbit nbyte tdi_byte tms_byte tdi tms bytes).

Fixpoint shift_bits (tms_bytes : list Z) (last_byte_index : Z) (n : nat) (st : shift_state)
    : prog xvc shift_state :=
  match n with
  | O => Ret st
  | S n =>
    let! st := shift_bit tms_bytes last_byte_index st in
    shift_bits tms_bytes last_byte_index n st
  end.

(** The result carries the bytes that [tdi_tdo_bytes] points to afterwards. *)
Definition xvc_server_do_shift (tdi_tdo_bytes tms_bytes : list Z) (length_in_bits : Z)
    : prog xvc (xvc_status_t * list Z) :=
  let length_in_bytes := xvc_server_bits_to_bytes length_in_bits in
  let last_byte_index := u32 (length_in_bytes - 1) in
  c_assert (length_in_bytes <=? XVC_SHIFT_VECTOR_MAX_LEN_IN_BYTES);;
  if length_in_bits =? 0 then Ret (XVC_STATUS_OK, tdi_tdo_bytes)
  else
    let! old := xcall (Critical (fun s =>
      if decide (s = XVC_SERVER_STATE_ENABLED) then XVC_SERVER_STATE_IO_IN_PROGRESS
      else s)) in
    if decide (old <> XVC_SERVER_STATE_ENABLED) then Ret (XVC_STATUS_ERROR, tdi_tdo_bytes)
    else
      xvc_server_set_tck_low;;
      let! tdi_next_byte := byte_at tdi_tdo_bytes 0 in
      let! tms_next_byte := byte_at tms_bytes 0 in
      let! st := shift_bits tms_bytes last_byte_index (Z.to_nat length_in_bits)
        (ShiftState 0 0 tdi_next_byte tms_next_byte
           (Z.land tdi_next_byte 1) (Z.land tms_next_byte 1)
           (<[0%nat := 0]> tdi_tdo_bytes)) in
      let! old := xcall (Critical (fun _ => XVC_SERVER_STATE_ENABLED)) in
      if decide (old = XVC_SERVER_STATE_DISABLE_REQUESTED) then
        let! _ := xvc_server_disable in
        Ret (XVC_STATUS_ERROR, shifted_bytes st)
      else Ret (XVC_STATUS_OK, shifted_bytes st).
