(* ===== verification/XvcProto.v ===== *)
(** * The XVC server: the protocol over a TCP stream

    The receive path of xvc_server.c ([xvc_server_read_command],
    [xvc_server_read_uint32], [xvc_server_read_data_shift_vector],
    [xvc_server_handle_receive]) and the server task.  What it implements is in
    XvcSpec.v, the proof that it does in XvcRefine.v. *)

From S2P Require Import Prelude Prog Pio Pbuf Xvc.

(** ** Interface to the JTAG shifter

    The protocol code needs of [xvc_server_do_shift] that the bytes it hands
    back are as many as it was given, and that it returns on vectors of the
    length that goes with an admissible bit count. *)

(** Bytes of one of the two vectors of a shift of [n] bits. *)
Definition vector_len (n : Z) : nat := Z.to_nat ((n + 7) / 8).

Class JtagShifter := {
  do_shift : list Z -> list Z -> Z -> prog xvc (xvc_status_t * list Z);
  do_shift_length tdi tms n :
    returns (fun r => length r.2 = length tdi) (do_shift tdi tms n);
  do_shift_total tdi tms n :
    0 <= n <= XVC_SHIFT_VECTOR_MAX_LEN_IN_BITS ->
    length tdi = vector_len n -> length tms = vector_len n -> total (do_shift tdi tms n)
}.

(** ** Reading from the receive buffer *)

(** [pbuf_copy_partial(recv_buffer, buf + n, want, 0)] followed by [n += copy_len]
    and [pbuf_header(recv_buffer, -copy_len)], whose result is ignored. *)
Definition take_bytes (recv_buffer : list pbuf) (buf : list Z) (n want : Z)
    : prog xvc (list pbuf * list Z * Z) :=
  let! (bs, copy_len) := of_outcome (pbuf_copy_partial recv_buffer (u16 want) 0) in
  let! buf := defined (store buf (Z.to_nat n) bs) in
  let n := u32 (n + copy_len) in
  match recv_buffer with
  | [] => Halt Undefined
  | p :: q =>
    let! (_, p) := of_outcome (pbuf_header p (s16 (- copy_len))) in
    Ret (p :: q, buf, n)
  end.

(** [memcmp(buf, str, n)]: does it report a difference?  Reading past the
    string's terminator is undefined. *)
Definition memcmp (buf str : list Z) (n : Z) : prog xvc bool :=
  if Z.of_nat (length str) + 1 <? n then Halt Undefined
  else Ret (negb (bool_decide (take (Z.to_nat n) buf = take (Z.to_nat n) (str ++ [0])))).

Definition recv_len (recv_buffer : list pbuf) : Z :=
  match recv_buffer with [] => 0 | p :: _ => len p end.

(** The common tail of the three branches: read up to the full length of the
    candidate, compare what is there, decide. *)
Definition read_command_rest (recv_buffer : list pbuf) (command_buffer : list Z)
    (bytes_received : Z) (str : list Z) (str_len : Z) (command : xvc_command_t)
    : prog xvc (xvc_status_t * list pbuf * list Z * Z * xvc_command_t) :=
  let! (recv_buffer, command_buffer, bytes_received) :=
    take_bytes recv_buffer command_buffer bytes_received (str_len - bytes_received) in
  let! differ := memcmp command_buffer str bytes_received in
  if differ : bool then
    Ret (XVC_STATUS_ERROR, recv_buffer, command_buffer, bytes_received, XVC_COMMAND_NOT_SET)
  else if bytes_received =? str_len then
    Ret (XVC_STATUS_OK, recv_buffer, command_buffer, bytes_received, command)
  else
    Ret (XVC_STATUS_MORE_DATA_NEEDED, recv_buffer, command_buffer, bytes_received,
         XVC_COMMAND_NOT_SET).

(** The branches on the first characters, once a byte at least has been read. *)
Definition read_command_branch (recv_buffer : list pbuf) (command_buffer : list Z)
    (bytes_received : Z)
    : prog xvc (xvc_status_t * list pbuf * list Z * Z * xvc_command_t) :=
  let! c0 := byte_at command_buffer 0 in
  let error :=
    Ret (XVC_STATUS_ERROR, recv_buffer, command_buffer, bytes_received,
         XVC_COMMAND_NOT_SET) in
  if c0 =? 103 (* 'g' *) then
    read_command_rest recv_buffer command_buffer bytes_received
      XVC_COMMAND_STR_GETINFO XVC_COMMAND_STR_GETINFO_LEN XVC_COMMAND_GETINFO
  else if c0 =? 115 (* 's' *) then
    if bytes_received <? 2 then
      Ret (XVC_STATUS_MORE_DATA_NEEDED, recv_buffer, command_buffer, bytes_received,
           XVC_COMMAND_NOT_SET)
    else
      let! c1 := byte_at command_buffer 1 in
      if c1 =? 101 (* 'e' *) then
        read_command_rest recv_buffer command_buffer bytes_received
          XVC_COMMAND_STR_SETTCK XVC_COMMAND_STR_SETTCK_LEN XVC_COMMAND_SETTCK
      else if c1 =? 104 (* 'h' *) then
        read_command_rest recv_buffer command_buffer bytes_received
          XVC_COMMAND_STR_SHIFT XVC_COMMAND_STR_SHIFT_LEN XVC_COMMAND_SHIFT
      else error
  else error.

(** The result carries the caller's objects as they are afterwards: the
    receive buffer, the command buffer, [*bytes_received] and [*command]. *)
Definition xvc_server_read_command (recv_buffer : list pbuf) (command_buffer : list Z)
    (bytes_received : Z)
    : prog xvc (xvc_status_t * list pbuf * list Z * Z * xvc_command_t) :=
  c_assert (negb (recv_len recv_buffer =? 0));;
  let! (recv_buffer, command_buffer, bytes_received) :=
    (if bytes_received <? XVC_COMMAND_STR_MIN_LEN then
       take_bytes recv_buffer command_buffer bytes_received
         (XVC_COMMAND_STR_MIN_LEN - bytes_received)
     else Ret (recv_buffer, command_buffer, bytes_received)) in
  c_assert (negb (bytes_received =? 0));;
  read_command_branch recv_buffer command_buffer bytes_received.

(** The [while] loop: one byte per round while the head pbuf has one and fewer
    than four have been read.  [k] bounds the rounds: [4 - *bytes_received]. *)
Fixpoint read_uint32_loop (k : nat) (recv_buffer : list pbuf) (data_buffer : list Z)
    (bytes_received : Z) : prog xvc (list pbuf * list Z * Z) :=
  match recv_buffer with
  | [] => Halt Undefined
  | p :: q =>
    if negb (len p =? 0) && (bytes_received <? 4) then
      match k with
      | O => Halt OutOfFuel
      | S k =>
        let value := pbuf_get_at (p :: q) 0 in
        let! (_, p) := of_outcome (pbuf_header p (-1)) in
        let word := le_val (take 4 data_buffer) in
        let word := u32 (Z.lor word (u32 (Z.shiftl value (bytes_received * 8)))) in
        let! data_buffer := defined (store data_buffer 0 (le_bytes4 word)) in
        read_uint32_loop k (p :: q) data_buffer (u32 (bytes_received + 1))
      end
    else Ret (p :: q, data_buffer, bytes_received)
  end.

Definition xvc_server_read_uint32 (recv_buffer : list pbuf) (data_buffer : list Z)
    (bytes_received : Z) : prog xvc (xvc_status_t * list pbuf * list Z * Z) :=
  let! data_buffer :=
    (if bytes_received =? 0 then defined (store data_buffer 0 (le_bytes4 0))
     else Ret data_buffer) in
  let! (recv_buffer, data_buffer, bytes_received) :=
    read_uint32_loop 4 recv_buffer data_buffer bytes_received in
  Ret (if bytes_received =? 4 then XVC_STATUS_OK else XVC_STATUS_MORE_DATA_NEEDED,
       recv_buffer, data_buffer, bytes_received).

Definition xvc_server_read_data_shift_vector (recv_buffer : list pbuf)
    (length_in_bits : Z) (data_buffer : list Z) (bytes_received : Z)
    : prog xvc (xvc_status_t * list pbuf * list Z * Z) :=
  let bytes_remaining :=
    u16 (xvc_server_bits_to_bytes length_in_bits * 2 - bytes_received) in
  c_assert (length_in_bits <=? XVC_SHIFT_VECTOR_MAX_LEN_IN_BITS);;
  match recv_buffer with
  | [] => Halt Undefined
  | p :: q =>
    if bytes_remaining <=? len p then
      let! (bs, _) := of_outcome (pbuf_copy_partial (p :: q) bytes_remaining 0) in
      let! data_buffer := defined (store data_buffer (Z.to_nat bytes_received) bs) in
      let! (_, p) := of_outcome (pbuf_header p (s16 (- bytes_remaining))) in
      Ret (XVC_STATUS_OK, p :: q, data_buffer, bytes_received)
    else
      let! (bs, _) := of_outcome (pbuf_copy_partial (p :: q) (len p) 0) in
      let! data_buffer := defined (store data_buffer (Z.to_nat bytes_received) bs) in
      let bytes_received := u32 (bytes_received + len p) in
      let! (_, p) := of_outcome (pbuf_header p (s16 (- len p))) in
      Ret (XVC_STATUS_MORE_DATA_NEEDED, p :: q, data_buffer, bytes_received)
  end.

(** ** Handling received data *)

Section handle_receive.
Context `{JtagShifter}.

Definition round : Type := (xvc_status_t * conn_state * list pbuf)%type.
Definition again (s : xvc_status_t) (st : conn_state) (q : list pbuf)
    : prog xvc (round + xvc_status_t * conn_state) := Ret (inl (s, st, q)).
Definition leave (s : xvc_status_t) (st : conn_state)
    : prog xvc (round + xvc_status_t * conn_state) := Ret (inr (s, st)).

(** [case XVC_COMMAND_GETINFO] *)
Definition handle_getinfo (status : xvc_status_t) (st : conn_state) (q : list pbuf) :=
  let! err := xcall (NetconnWrite XVC_INFO_STR) in
  if negb (err =? ERR_OK) then leave XVC_STATUS_ERROR st
  else again status (with_command XVC_COMMAND_NOT_SET st) q.

(** [case XVC_COMMAND_SETTCK]: the period offered by the client is dropped,
    the reply is the fixed 690 ns. *)
Definition handle_settck (st : conn_state) (q : list pbuf) :=
  let! (status, q, buf, n) := xvc_server_read_uint32 q (buffer st) (buffer_len st) in
  match status with
  | XVC_STATUS_OK =>
    let st := with_buffer buf 0 st in
    let clock_period := 690 in
    let! err := xcall (NetconnWrite (le_bytes4 clock_period)) in
    if negb (err =? ERR_OK) then leave XVC_STATUS_ERROR st
    else again status (with_command XVC_COMMAND_NOT_SET st) q
  | XVC_STATUS_MORE_DATA_NEEDED => again status (with_buffer buf n st) q
  | XVC_STATUS_ERROR => leave XVC_STATUS_ERROR (with_buffer buf n st)
  end.

(** The vectors of a shift command, once its length is known. *)
Definition handle_shift_data (st : conn_state) (q : list pbuf) :=
  if XVC_SHIFT_VECTOR_MAX_LEN_IN_BITS <? shift_vector_length_in_bits st
  then leave XVC_STATUS_ERROR st
  else
    let! (status, q, buf, n) :=
      xvc_server_read_data_shift_vector q (shift_vector_length_in_bits st)
        (buffer st) (buffer_len st) in
    match status with
    | XVC_STATUS_OK =>
      let length_in_bytes := xvc_server_bits_to_bytes (shift_vector_length_in_bits st) in
      let k := Z.to_nat length_in_bytes in
      let tms_bytes := take k buf in
      let tdi_tdo_bytes := take k (drop k buf) in
      let! (shifted, tdo) :=
        do_shift tdi_tdo_bytes tms_bytes (shift_vector_length_in_bits st) in
      let! buf := defined (store buf k tdo) in
      if decide (shifted <> XVC_STATUS_OK)
      then leave XVC_STATUS_ERROR (with_buffer buf n st)
      else
        let! err := xcall (NetconnWrite (take k (drop k buf))) in
        if negb (err =? ERR_OK) then leave XVC_STATUS_ERROR (with_buffer buf n st)
        else again status
               (ConnState XVC_COMMAND_NOT_SET buf 0 XVC_SHIFT_VECTOR_LENGTH_NOT_SET) q
    | XVC_STATUS_MORE_DATA_NEEDED => again status (with_buffer buf n st) q
    | XVC_STATUS_ERROR => leave XVC_STATUS_ERROR (with_buffer buf n st)
    end.

(** [case XVC_COMMAND_SHIFT] *)
Definition handle_shift (st : conn_state) (q : list pbuf) :=
  if shift_vector_length_in_bits st =? XVC_SHIFT_VECTOR_LENGTH_NOT_SET then
    let! (status, q, buf, n) := xvc_server_read_uint32 q (buffer st) (buffer_len st) in
    match status with
    | XVC_STATUS_OK =>
      handle_shift_data (with_length (le_val (take 4 buf)) (with_buffer buf 0 st)) q
    | XVC_STATUS_MORE_DATA_NEEDED => again status (with_buffer buf n st) q
    | XVC_STATUS_ERROR => leave XVC_STATUS_ERROR (with_buffer buf n st)
    end
  else handle_shift_data st q.

(** The second [switch] of the loop body. *)
Definition handle_command (status : xvc_status_t) (st : conn_state) (q : list pbuf) :=
  match current_command st with
  | XVC_COMMAND_GETINFO => handle_getinfo status st q
  | XVC_COMMAND_SETTCK => handle_settck st q
  | XVC_COMMAND_SHIFT => handle_shift st q
  | XVC_COMMAND_NOT_SET => leave XVC_STATUS_ERROR st
  end.

(** One round of [while (recv_buffer->len || recv_buffer->next)]. *)
Definition handle_round (r : round) : prog xvc (round + xvc_status_t * conn_state) :=
  let '(status, st, recv_buffer) := r in
  match recv_buffer with
  | [] => Halt Undefined
  | p :: q =>
    if (len p =? 0) && bool_decide (q = []) then
      leave (if decide (status = XVC_STATUS_MORE_DATA_NEEDED) then XVC_STATUS_OK
             else status) st
    else if len p =? 0 then again status st q
    else if decide (current_command st = XVC_COMMAND_NOT_SET) then
      let! (status, rest, buf, n, command) :=
        xvc_server_read_command (p :: q) (buffer st) (buffer_len st) in
      match status with
      | XVC_STATUS_OK =>
        handle_command status (with_command command (with_buffer buf 0 st)) rest
      | XVC_STATUS_MORE_DATA_NEEDED => again status (with_buffer buf n st) rest
      | XVC_STATUS_ERROR => leave XVC_STATUS_ERROR (with_buffer buf n st)
      end
    else handle_command status st (p :: q)
  end.

(** Every round but the last takes a byte or moves to the next pbuf. *)
Definition receive_fuel (q : list pbuf) : nat := S (length (flat q) + length q).

Definition xvc_server_handle_receive (st : conn_state) (recv_buffer : list pbuf)
    : prog xvc (xvc_status_t * conn_state) :=
  iter (receive_fuel recv_buffer) handle_round (XVC_STATUS_OK, st, recv_buffer).
End handle_receive.

(** ** The connection state and the server task *)

Definition xvc_server_connection_state_reset (st : conn_state) : conn_state :=
  ConnState XVC_COMMAND_NOT_SET (buffer st) 0 XVC_SHIFT_VECTOR_LENGTH_NOT_SET.

Definition xvc_server_connection_state_init : prog xvc (xvc_status_t * conn_state) :=
  let! m := xcall (MemMalloc XVC_BUFFER_MAX_LEN) in
  match m : option (list Z) with
  | None => Ret (XVC_STATUS_ERROR, ConnState XVC_COMMAND_NOT_SET [] 0 0)
  | Some block =>
    Ret (XVC_STATUS_OK,
         xvc_server_connection_state_reset (ConnState XVC_COMMAND_NOT_SET block 0 0))
  end.

Definition xvc_server_connection_state_free (st : conn_state) : prog xvc conn_state :=
  let! _ := xcall MemFree in Ret (with_buffer [] (buffer_len st) st).

Definition ERR_MEM : Z := -1.
Definition ERR_TIMEOUT : Z := -3.

Section task.
Context `{JtagShifter}.

(** The inner [do ... while]: serve one connection until it ends.  The
    session lasts as long as the peer wants: [fuel] bounds the receive calls. *)
Definition serve_round (st : conn_state) : prog xvc (conn_state + conn_state) :=
  let! s := xcall LoadState in
  if decide (s <> XVC_SERVER_STATE_ENABLED) then Ret (inr st)
  else
    let! (err, recv_buffer) := xcall NetconnRecv in
    if err =? ERR_OK then
      let! (status, st) := xvc_server_handle_receive st recv_buffer in
      let! _ := xcall PbufFree in
      if decide (status <> XVC_STATUS_OK) then Ret (inr st) else Ret (inl st)
    else if err =? ERR_TIMEOUT then Ret (inl st)
    else Ret (inr st).

(** The outer loop: [inl] to accept the next connection, [inr] after a fatal
    error of the listener.  A memory shortage or a time-out waits ten ticks. *)
Definition accept_round (fuel : nat) (st : conn_state) : prog xvc (conn_state + conn_state) :=
  let! listener_status := xcall NetconnAccept in
  if listener_status =? ERR_OK then
    let! st := iter fuel serve_round st in
    let! _ := xcall (NetconnClose false) in
    let! _ := xcall (NetconnDelete false) in
    Ret (inl (xvc_server_connection_state_reset st))
  else if (listener_status =? ERR_MEM) || (listener_status =? ERR_TIMEOUT) then
    let! _ := xcall (XHw (TaskDelay 10)) in Ret (inl st)
  else Ret (inr st).

Definition xvc_cleanup (st : conn_state) : prog xvc unit :=
  let! _ := xcall (NetconnClose true) in
  let! _ := xcall (NetconnDelete true) in
  let! _ := xvc_server_connection_state_free st in
  Ret tt.

Definition vXvcServer (fuel : nat) : prog xvc unit :=
  let! (status, st) := xvc_server_connection_state_init in
  if decide (status <> XVC_STATUS_OK) then Ret tt
  else
    let! listener := xcall NetconnNew in
    if negb listener then Ret tt
    else
      let! err := xcall (NetconnBind XVC_PORT) in
      if negb (err =? ERR_OK) then xvc_cleanup st
      else
        let! err := xcall NetconnListen in
        if negb (err =? ERR_OK) then xvc_cleanup st
        else
          let! st := iter fuel (accept_round fuel) st in
          xvc_cleanup st.
End task.
