(* ===== verification/XvcShift.v ===== *)
(** * The XVC server: shifting bits

    [xvc_server_do_shift] works in place: it replaces the TDI bytes by the TDO
    bytes it samples while it is still reading the former.  Here: the wire
    protocol written down bit by bit, and the proof that the in-place routine
    is equivalent to it. *)

From S2P Require Import Prelude Prog Pio Pbuf Xvc XvcProto.

(** ** Reference: one TCK period per bit *)

(** Bit [i] of a vector, first bit in the least significant bit of byte 0. *)
Definition bit_of (l : list Z) (i : nat) : Z :=
  Z.land (Z.shiftr (nth (i / 8) l 0) (Z.of_nat (i mod 8))) 1.

(** TDI and TMS are set while TCK is low; TDO is sampled while it is high. *)
Definition clock_bit (tdi tms : Z) : prog xvc Z :=
  xvc_server_set_tdi_tms tdi tms;;
  xvc_server_set_tck_high;;
  let! tdo := xvc_server_get_tdo in
  xvc_server_set_tck_low;;
  Ret tdo.

Fixpoint clock_bits (tdi tms : list Z) (i k : nat) : prog xvc (list Z) :=
  match k with
  | O => Ret []
  | S k =>
    let! b := clock_bit (bit_of tdi i) (bit_of tms i) in
    let! bs := clock_bits tdi tms (S i) k in
    Ret (b :: bs)
  end.

(** The value of at most eight bits, and a bit list as [k] bytes. *)
Fixpoint bits_val (bs : list Z) : Z :=
  match bs with [] => 0 | b :: bs => b + 2 * bits_val bs end.

Definition byte_bits (bits : list Z) (j : nat) : list Z := take 8 (drop (8 * j) bits).
Arguments byte_bits : simpl never.

Definition pack (k : nat) (bits : list Z) : list Z :=
  map (fun j => bits_val (byte_bits bits j)) (seq 0 k).

Definition reference_shift (tdi tms : list Z) (n : Z) : prog xvc (xvc_status_t * list Z) :=
  if n =? 0 then Ret (XVC_STATUS_OK, tdi)
  else
    let! old := xcall (Critical (fun s =>
      if decide (s = XVC_SERVER_STATE_ENABLED) then XVC_SERVER_STATE_IO_IN_PROGRESS
      else s)) in
    if decide (old = XVC_SERVER_STATE_ENABLED) then
      xvc_server_set_tck_low;;
      let! bits := clock_bits tdi tms 0 (Z.to_nat n) in
      let! old := xcall (Critical (fun _ => XVC_SERVER_STATE_ENABLED)) in
      if decide (old = XVC_SERVER_STATE_DISABLE_REQUESTED) then
        let! _ := xvc_server_disable in
        Ret (XVC_STATUS_ERROR, pack (vector_len n) bits)
      else Ret (XVC_STATUS_OK, pack (vector_len n) bits)
    else Ret (XVC_STATUS_ERROR, tdi).

(** ** Packing *)

Definition is_bit (b : Z) : Prop := b = 0 \/ b = 1.

Lemma land_1_bit z : is_bit (Z.land z 1).
Proof.
  assert (Z.land z 1 = z mod 2) as -> by (apply (Z.land_ones z 1); lia).
  unfold is_bit. pose proof (Z.mod_pos_bound z 2). lia.
Qed.

Lemma bits_val_range bs : Forall is_bit bs -> 0 <= bits_val bs < 2 ^ Z.of_nat (length bs).
Proof.
  induction 1 as [|b bs Hb _ IH]; [simpl; lia|]. cbn [bits_val length].
  rewrite Nat2Z.inj_succ, Z.pow_succ_r by lia. destruct Hb; lia.
Qed.

Lemma bits_val_snoc bs b :
  bits_val (bs ++ [b]) = bits_val bs + 2 ^ Z.of_nat (length bs) * b.
Proof.
  induction bs as [|c bs IH]; [simpl; lia|]. cbn [bits_val length app].
  rewrite IH, Nat2Z.inj_succ, Z.pow_succ_r by lia. lia.
Qed.

Lemma pack_length k bits : length (pack k bits) = k.
Proof. unfold pack. by rewrite length_map, length_seq. Qed.

Lemma byte_bits_lt bits b j :
  (j < length bits / 8)%nat -> byte_bits (bits ++ [b]) j = byte_bits bits j.
Proof.
  intros Hj. assert (8 * j + 8 <= length bits)%nat by (pose proof (Nat.div_mod_eq (length bits) 8); lia).
  unfold byte_bits. rewrite drop_app_le by lia. rewrite take_app_le; [done|].
  rewrite length_drop. lia.
Qed.

(** The bits of the byte under construction. *)
Lemma byte_bits_cur bits b :
  byte_bits (bits ++ [b]) (length bits / 8) = byte_bits bits (length bits / 8) ++ [b] /\
  length (byte_bits bits (length bits / 8)) = (length bits mod 8)%nat.
Proof.
  pose proof (Nat.div_mod_eq (length bits) 8). pose proof (Nat.mod_upper_bound (length bits) 8 ltac:(done)).
  unfold byte_bits. rewrite drop_app_le by lia.
  assert (length (drop (8 * (length bits / 8)) bits) < 8)%nat by (rewrite length_drop; lia).
  rewrite (firstn_all2 (n := 8) (_ ++ [b])) by (rewrite length_app; cbn [length]; lia).
  rewrite firstn_all2 by lia.
  split; [done|]. rewrite length_drop. lia.
Qed.

(** Or-ing the sampled bit into the byte under construction. *)
Lemma pack_snoc bits b :
  Forall is_bit bits -> is_bit b ->
  let j := (length bits / 8)%nat in
  <[j := u8 (Z.lor (nth j (pack (S j) bits) 0) (Z.shiftl b (Z.of_nat (length bits mod 8))))]>
    (pack (S j) bits) = pack (S j) (bits ++ [b]).
Proof.
  intros Hbits Hb j. unfold pack. rewrite seq_S, !map_app. cbn [map plus].
  assert (length (map (fun j => bits_val (byte_bits bits j)) (seq 0 j)) = j) as Hl
    by (by rewrite length_map, length_seq).
  rewrite app_nth2, Hl, Nat.sub_diag by lia. cbn [nth].
  rewrite insert_app_r_alt, Hl, Nat.sub_diag by lia. unfold insert. cbn [list_insert].
  f_equal.
  - apply map_ext_in. intros i Hi%in_seq. by rewrite byte_bits_lt by (unfold j in *; lia).
  - f_equal. destruct (byte_bits_cur bits b) as [Hc Hlen]. fold j in Hc, Hlen. rewrite Hc.
    pose proof (Nat.mod_upper_bound (length bits) 8 ltac:(done)).
    assert (Forall is_bit (byte_bits bits j)) as Hf by (by apply Forall_take, Forall_drop).
    pose proof (bits_val_range _ Hf) as Hr. rewrite Hlen in Hr.
    rewrite bits_val_snoc, Hlen, lor_disjoint_add by lia.
    rewrite Z.shiftl_mul_pow2, Z.mul_comm by lia. apply u8_id.
    assert (2 ^ (Z.of_nat (length bits mod 8) + 1) <= 2 ^ 8) as Hp
      by (apply Z.pow_le_mono_r; lia).
    rewrite Z.pow_add_r in Hp by lia. unfold is_u8. destruct Hb as [-> | ->]; lia.
Qed.

(** ** The in-place loop *)

(** Before bit [i]: the TDO bits so far are in the bytes up to [i / 8], the
    TDI bytes above are untouched, and byte [i / 8] of both vectors has been
    fetched. *)
Definition shift_inv (tdi tms : list Z) (bits : list Z) (st : shift_state) : Prop :=
  let i := length bits in
  let j := (i / 8)%nat in
  Forall is_bit bits /\
  next_bit_index_in_byte st = Z.of_nat (i mod 8) /\
  next_byte_index st = Z.of_nat j /\
  tdi_next_byte st = nth j tdi 0 /\ tms_next_byte st = nth j tms 0 /\
  next_tdi st = bit_of tdi i /\ next_tms st = bit_of tms i /\
  shifted_bytes st = pack (S j) bits ++ drop (S j) tdi.

Lemma byte_at_nth l i :
  (i < length l)%nat -> byte_at l (Z.of_nat i) = Ret (nth i l 0).
Proof.
  intros Hi. unfold byte_at. rewrite Nat2Z.id.
  destruct (nth_lookup_or_length l i 0) as [-> |?]; [done|lia].
Qed.

Lemma insert_pack k bits tl v :
  <[k := v]> (pack (S k) bits ++ tl) = <[k := v]> (pack (S k) bits) ++ tl.
Proof. apply insert_app_l. rewrite pack_length. lia. Qed.

Lemma nth_pack k bits tl : nth k (pack (S k) bits ++ tl) 0 = nth k (pack (S k) bits) 0.
Proof. apply app_nth1. rewrite pack_length. lia. Qed.

(** The bit count [n] and the index of the last byte. *)
Lemma vector_index n (i : nat) :
  0 < n -> (i < Z.to_nat n)%nat -> (i / 8 < vector_len n)%nat.
Proof.
  intros Hn Hi. unfold vector_len. pose proof (Nat.div_mod_eq i 8).
  assert (Z.of_nat (i / 8) < (n + 7) / 8); [|lia].
  rewrite Nat2Z.inj_div. Z.to_euclidean_division_equations. lia.
Qed.

Lemma vector_index_last n (i : nat) :
  0 < n -> S i = Z.to_nat n -> vector_len n = S (i / 8).
Proof.
  intros Hn Hi. unfold vector_len. apply Nat2Z.inj.
  rewrite Nat2Z.inj_succ, Nat2Z.inj_div, Z2Nat.id; Z.to_euclidean_division_equations; lia.
Qed.

Lemma pack_next k bits :
  length bits = (8 * k)%nat -> pack k bits ++ [0] = pack (S k) bits.
Proof.
  intros Hl. unfold pack. rewrite seq_S, map_app. cbn [map plus]. unfold byte_bits.
  rewrite drop_ge by lia. done.
Qed.

Lemma div_mod_succ (i : nat) :
  (i mod 8 < 7 /\ S i mod 8 = S (i mod 8) /\ S i / 8 = i / 8)%nat \/
  (i mod 8 = 7 /\ S i mod 8 = 0 /\ S i / 8 = S (i / 8))%nat.
Proof.
  pose proof (Nat.div_mod_eq i 8). pose proof (Nat.mod_upper_bound i 8 ltac:(done)).
  pose proof (Nat.div_mod_eq (S i) 8). pose proof (Nat.mod_upper_bound (S i) 8 ltac:(done)). lia.
Qed.

Definition bit_post (n : Z) (tdi tms bits : list Z) (st : shift_state) (b : Z) : Prop :=
  is_bit b /\
  ((S (length bits) < Z.to_nat n)%nat -> shift_inv tdi tms (bits ++ [b]) st) /\
  (S (length bits) = Z.to_nat n -> shifted_bytes st = pack (vector_len n) (bits ++ [b])).

Lemma get_tdo_bit : returns is_bit xvc_server_get_tdo.
Proof. intros x. apply land_1_bit. Qed.

(** Storing the sampled bit in the current byte. *)
Lemma store_bit bits b sh tl :
  Forall is_bit bits -> is_bit b -> sh = pack (S (length bits / 8)) bits ++ tl ->
  <[(length bits / 8)%nat :=
      u8 (Z.lor (nth (length bits / 8) sh 0) (Z.shiftl b (Z.of_nat (length bits mod 8))))]> sh =
    pack (S (length bits / 8)) (bits ++ [b]) ++ tl.
Proof.
  intros Hbits Hb ->. rewrite nth_pack, insert_pack. f_equal. by apply pack_snoc.
Qed.

(** The end of a round, once the current byte [bytes] is known. *)
Lemma sample_sim n tdi tms bits bytes nbit nbyte tdi_byte tms_byte :
  (length bits / 8 < length bytes)%nat ->
  (forall b, is_bit b -> bit_post n tdi tms bits
    (ShiftState nbit nbyte tdi_byte tms_byte
       (Z.land (Z.shiftr tdi_byte nbit) 1) (Z.land (Z.shiftr tms_byte nbit) 1)
       (<[(length bits / 8)%nat :=
          u8 (Z.lor (nth (length bits / 8) bytes 0)
                (Z.shiftl b (Z.of_nat (length bits mod 8))))]> bytes)) b) ->
  prog_rel never (bit_post n tdi tms bits)
    (let! tdo := xvc_server_get_tdo in
     let! old := byte_at bytes (Z.of_nat (length bits / 8)) in
     xvc_server_set_tck_low;;
     Ret (ShiftState nbit nbyte tdi_byte tms_byte
       (Z.land (Z.shiftr tdi_byte nbit) 1) (Z.land (Z.shiftr tms_byte nbit) 1)
       (<[Z.to_nat (Z.of_nat (length bits / 8)) :=
          u8 (Z.lor old (Z.shiftl tdo (Z.of_nat (length bits mod 8))))]> bytes)))
    (let! tdo := xvc_server_get_tdo in xvc_server_set_tck_low;; Ret tdo).
Proof.
  intros Hj Hpost. eapply prog_rel_bind_returns; [exact get_tdo_bit|]. intros b Hb.
  rewrite byte_at_nth by done. cbn [bind]. rewrite Nat2Z.id.
  apply prog_rel_bind_same. intros _. by apply Hpost.
Qed.

(** Taking the next byte of the vector and clearing its place. *)
Lemma next_byte_taken k tdi bits :
  nth k (pack k bits ++ drop k tdi) 0 = nth k tdi 0.
Proof.
  rewrite app_nth2, pack_length, Nat.sub_diag, nth_skipn, Nat.add_0_r by (rewrite pack_length; lia). done.
Qed.

Lemma next_byte_cleared k tdi bits : (k < length tdi)%nat ->
  <[k := 0]> (pack k bits ++ drop k tdi) = pack k bits ++ (0 :: drop (S k) tdi).
Proof.
  intros Hk. rewrite insert_app_r_alt by (rewrite pack_length; lia).
  rewrite pack_length, Nat.sub_diag. f_equal. rewrite (drop_S tdi (nth k tdi 0)); [done|].
  destruct (nth_lookup_or_length tdi k 0); [done|lia].
Qed.

Lemma shift_bit_sim n tdi tms bits st :
  0 < n <= XVC_SHIFT_VECTOR_MAX_LEN_IN_BITS ->
  length tdi = vector_len n -> length tms = vector_len n ->
  (length bits < Z.to_nat n)%nat -> shift_inv tdi tms bits st ->
  prog_rel never (bit_post n tdi tms bits)
    (shift_bit tms (Z.of_nat (vector_len n) - 1) st)
    (clock_bit (bit_of tdi (length bits)) (bit_of tms (length bits))).
Proof.
  unfold XVC_SHIFT_VECTOR_MAX_LEN_IN_BITS, XVC_SHIFT_VECTOR_MAX_LEN_IN_BYTES.
  intros Hn Htdi Htms Hlt (Hbits & Hbi & Hby & Hti & Htm & Hnti & Hntm & Hsh).
  pose proof (vector_index n (length bits) ltac:(lia) Hlt) as Hj.
  pose proof (Nat.mod_upper_bound (length bits) 8 ltac:(done)) as Hm8.
  assert (Z.of_nat (vector_len n) <= 512) as H512.
  { unfold vector_len. rewrite Z2Nat.id; Z.to_euclidean_division_equations; lia. }
  assert (length (shifted_bytes st) = vector_len n) as Hshl.
  { rewrite Hsh, length_app, pack_length, length_drop. lia. }
  unfold shift_bit, clock_bit. rewrite Hnti, Hntm, Hbi, Hby, Hti, Htm.
  apply prog_rel_bind_same. intros _. apply prog_rel_bind_same. intros _.
  destruct ((Z.of_nat (length bits mod 8) =? 7) &&
    negb (Z.of_nat (length bits / 8) =? Z.of_nat (vector_len n) - 1)) eqn:Hc.
  - apply andb_true_iff in Hc as [Hm Hl]. to_prop.
    assert (S (length bits) < Z.to_nat n)%nat as HS.
    { destruct (decide (S (length bits) = Z.to_nat n)) as [E|]; [|lia].
      apply vector_index_last in E; lia. }
    destruct (div_mod_succ (length bits)) as [?|(_ & HmS & HdS)]; [lia|].
    rewrite u32_id by (unfold is_u32; lia).
    replace (Z.of_nat (length bits / 8) + 1) with (Z.of_nat (S (length bits / 8))) by lia.
    rewrite !byte_at_nth by lia. cbn [bind]. rewrite Nat2Z.id.
    apply sample_sim; [rewrite length_insert; lia|].
    intros b Hb. split; [done|]. split; [|lia]. intros _.
    pose proof (Nat.div_mod_eq (length bits) 8) as Hdm.
    assert (S (length bits / 8) < length tdi)%nat as Hk by lia.
    pose proof (next_byte_cleared (S (length bits / 8)) tdi bits Hk) as Hz. rewrite <- Hsh in Hz.
    rewrite Hsh, next_byte_taken, <- Hsh.
    split; [apply Forall_app; by auto|]. rewrite length_app. cbn [length].
    rewrite Nat.add_1_r. cbn [next_bit_index_in_byte next_byte_index tdi_next_byte
      tms_next_byte next_tdi next_tms shifted_bytes]. unfold bit_of. rewrite HmS, HdS.
    repeat (split; [reflexivity|]).
    rewrite (store_bit _ _ _ _ Hbits Hb Hz). rewrite cons_middle, app_assoc, pack_next; [done|].
    rewrite length_app. simpl length. lia.
  - cbn [bind]. apply sample_sim; [lia|]. intros b Hb. split; [done|].
    rewrite (store_bit _ _ _ _ Hbits Hb Hsh). split.
    + intros HS. destruct (div_mod_succ (length bits)) as [(Hm & HmS & HdS)|(Hm & HmS & HdS)].
      2: { pose proof (vector_index n _ ltac:(lia) HS). apply andb_false_iff in Hc as [?|?];
           to_prop; lia. }
      split; [apply Forall_app; by auto|]. rewrite length_app. cbn [length].
      rewrite Nat.add_1_r. cbn [next_bit_index_in_byte next_byte_index tdi_next_byte
        tms_next_byte next_tdi next_tms shifted_bytes]. unfold bit_of. rewrite HmS, HdS.
      rewrite u32_id by (unfold is_u32; lia).
      replace (Z.of_nat (length bits mod 8) + 1) with (Z.of_nat (S (length bits mod 8))) by lia.
      done.
    + intros HS. cbn [shifted_bytes]. pose proof (vector_index_last n _ ltac:(lia) HS) as Hl.
      rewrite drop_ge by lia. by rewrite app_nil_r, Hl.
Qed.

Lemma shift_bits_sim n tdi tms k bits st :
  0 < n <= XVC_SHIFT_VECTOR_MAX_LEN_IN_BITS ->
  length tdi = vector_len n -> length tms = vector_len n ->
  (length bits + S k)%nat = Z.to_nat n -> shift_inv tdi tms bits st ->
  prog_rel never (fun st' bs => shifted_bytes st' = pack (vector_len n) (bits ++ bs))
    (shift_bits tms (Z.of_nat (vector_len n) - 1) (S k) st)
    (clock_bits tdi tms (length bits) (S k)).
Proof.
  intros Hn Htdi Htms. revert bits st.
  induction k as [|k IH]; intros bits st Hk Hinv;
    (eapply prog_rel_bind; [apply shift_bit_sim; try done; lia|]);
    intros st' b (Hb & Hmid & Hlast).
  - simpl. rewrite Hlast by lia. done.
  - specialize (IH (bits ++ [b]) st'). rewrite length_app in IH.
    cbn [length] in IH. rewrite Nat.add_1_r in IH.
    eapply prog_rel_bind_map; [apply IH; [lia|apply Hmid; lia]|].
    intros st2 bs ->. by rewrite <- app_assoc.
Qed.

(** ** The theorems *)

Lemma shift_bit_length tms last st :
  returns (fun st' => length (shifted_bytes st') = length (shifted_bytes st))
    (shift_bit tms last st).
Proof.
  unfold shift_bit. do 2 (eapply returns_bind; [apply returns_any|intros _ _]).
  eapply (returns_bind (fun r => length r.2 = length (shifted_bytes st))).
  { destruct (_ && _); [|done]. unfold byte_at.
    destruct (_ !! _); [|done]. simpl. destruct (_ !! _); [|done]. simpl. apply length_insert. }
  intros [[[[nbit nbyte] tdi_byte] tms_byte] bytes] Hl. simpl in Hl.
  eapply returns_bind; [apply returns_any|intros tdo _].
  eapply returns_bind; [apply returns_any|intros old _].
  eapply returns_bind; [apply returns_any|intros _ _]. simpl. by rewrite length_insert.
Qed.

Lemma shift_bits_length tms last k st :
  returns (fun st' => length (shifted_bytes st') = length (shifted_bytes st))
    (shift_bits tms last k st).
Proof.
  revert st. induction k as [|k IH]; intros st; [done|].
  cbn [shift_bits]. eapply returns_bind; [apply shift_bit_length|]. intros st' Hst.
  eapply returns_mono; [apply IH|]. intros st2 ->. done.
Qed.

Lemma xvc_server_do_shift_length tdi tms n :
  returns (fun r => length r.2 = length tdi) (xvc_server_do_shift tdi tms n).
Proof.
  unfold xvc_server_do_shift. eapply returns_bind; [apply returns_any|intros _ _].
  destruct (n =? 0); [done|].
  eapply returns_bind; [apply returns_any|intros old _].
  destruct (decide _); [done|].
  eapply returns_bind; [apply returns_any|intros _ _].
  eapply returns_bind; [apply returns_any|intros ? _].
  eapply returns_bind; [apply returns_any|intros ? _].
  eapply returns_bind; [apply shift_bits_length|]. intros st Hst. simpl in Hst.
  rewrite length_insert in Hst.
  eapply returns_bind; [apply returns_any|intros old2 _].
  destruct (decide _); [|done].
  eapply returns_bind; [apply returns_any|intros ? _]. done.
Qed.

Lemma bits_to_bytes_vector n :
  0 <= n <= XVC_SHIFT_VECTOR_MAX_LEN_IN_BITS ->
  xvc_server_bits_to_bytes n = Z.of_nat (vector_len n) /\ (vector_len n <= 512)%nat.
Proof.
  unfold XVC_SHIFT_VECTOR_MAX_LEN_IN_BITS, XVC_SHIFT_VECTOR_MAX_LEN_IN_BYTES.
  intros Hn. unfold xvc_server_bits_to_bytes, vector_len.
  rewrite u32_id by (unfold is_u32; lia).
  split; Z.to_euclidean_division_equations; lia.
Qed.

Lemma do_shift_equiv tdi tms n :
  0 <= n <= XVC_SHIFT_VECTOR_MAX_LEN_IN_BITS ->
  length tdi = vector_len n -> length tms = vector_len n ->
  xvc_server_do_shift tdi tms n ≈ reference_shift tdi tms n.
Proof.
  intros Hn Htdi Htms. destruct (bits_to_bytes_vector n Hn) as [Hv Hv512].
  unfold xvc_server_do_shift, reference_shift, c_assert.
  rewrite Hv. rewrite (proj2 (Z.leb_le _ _)) by (unfold XVC_SHIFT_VECTOR_MAX_LEN_IN_BYTES; lia).
  cbn [bind]. destruct (Z.eqb_spec n 0) as [|Hn0]; [reflexivity|].
  assert (0 < vector_len n)%nat as Hpos.
  { unfold vector_len. Z.to_euclidean_division_equations; lia. }
  apply prog_rel_bind_same. intros old.
  destruct (decide (old = XVC_SERVER_STATE_ENABLED)) as [->|Hold];
    [rewrite decide_False by auto|by rewrite decide_True by done].
  apply prog_rel_bind_same. intros _.
  change (byte_at tdi 0) with (byte_at tdi (Z.of_nat 0)).
  change (byte_at tms 0) with (byte_at tms (Z.of_nat 0)).
  rewrite !byte_at_nth by lia. cbn [bind].
  rewrite u32_id by (unfold is_u32; lia).
  destruct (Z.to_nat n) as [|k] eqn:Hk; [lia|].
  eapply prog_rel_bind; [apply (shift_bits_sim n tdi tms k [])|]; try done; try lia.
  - split; [constructor|]. simpl. repeat (split; [done|]).
    destruct tdi; [simpl in Htdi; lia|done].
  - intros st bits Hst. cbn [app] in Hst. rewrite Hst. apply prog_rel_refl. done.
Qed.

Lemma clock_bits_total tdi tms i k : total (clock_bits tdi tms i k).
Proof.
  revert i. induction k as [|k IH]; intros i; cbn [clock_bits]; [done|].
  apply total_seq; [|intros b; apply total_seq; [apply IH|done]].
  unfold clock_bit, xvc_server_set_tdi_tms, xvc_server_set_tck_high, xvc_server_get_tdo,
    xvc_server_set_tck_low, on_hw. total_tac.
Qed.

Lemma configure_pin_total pin ty : total (configure_pin pin ty).
Proof. unfold configure_pin, on_hw. total_tac. Qed.
#[export] Hint Resolve clock_bits_total configure_pin_total : total.

Lemma update_gpio_config_total s : total (xvc_server_update_gpio_config s).
Proof.
  unfold xvc_server_update_gpio_config, xvc_server_jtag_cable_connected,
    xvc_server_usb_cable_connected, on_hw, xcall. total_tac.
Qed.
#[export] Hint Resolve update_gpio_config_total : total.

Lemma disable_total : total xvc_server_disable.
Proof. unfold xvc_server_disable, xcall. total_tac. Qed.
#[export] Hint Resolve disable_total : total.

Lemma xvc_server_do_shift_total tdi tms n :
  0 <= n <= XVC_SHIFT_VECTOR_MAX_LEN_IN_BITS ->
  length tdi = vector_len n -> length tms = vector_len n ->
  total (xvc_server_do_shift tdi tms n).
Proof.
  intros Hn Htdi Htms. eapply total_rel; [by apply do_shift_equiv|].
  unfold reference_shift, xvc_server_set_tck_low, on_hw, xcall. total_tac.
Qed.

#[export] Instance xvc_shifter : JtagShifter := {|
  do_shift := xvc_server_do_shift;
  do_shift_length := xvc_server_do_shift_length;
  do_shift_total := xvc_server_do_shift_total
|}.

(** ** On the wire

    The pins of port D as the port's set and clear registers drive them, and a
    device that samples TDI and TMS at each rising edge of TCK and drives TDO
    as a function [dev] of the samples it has seen. *)

Record wire := Wire { pins : Z; edges : list (Z * Z); server : xvc_server_state_t }.

Definition pin_bit (v pin : Z) : Z := Z.b2z (Z.testbit v (Z.land pin 0x1F)).

Section wire.
Variable dev : list (Z * Z) -> bool.

Definition drive (v : Z) (s : wire) : wire :=
  Wire v
    (if negb (Z.testbit (pins s) (Z.land XILTCK 0x1F)) && Z.testbit v (Z.land XILTCK 0x1F)
     then edges s ++ [(pin_bit v XILTDI, pin_bit v XILTMS)] else edges s)
    (server s).

Definition wire_hw (e : hwop) (s : wire) : hw_ans e * wire :=
  match e with
  | Rd a =>
    (if a =? xvc_server_pio_pdsr
     then Z.shiftl (Z.b2z (dev (edges s))) (Z.land MMCTDO 0x1F) else 0, s)
  | Wr a v =>
    (tt, if a =? xvc_server_pio_sodr then drive (Z.lor (pins s) v) s
         else if a =? xvc_server_pio_codr then drive (Z.ldiff (pins s) v) s else s)
  | WrBuf _ _ => (tt, s)
  | RdBuf _ => ([], s)
  | NotifyStateClear => (tt, s)
  | NotifyWait _ => (false, s)
  | TaskDelay _ => (tt, s)
  | Putchar _ => (tt, s)
  | Getchar => (0, s)
  end.

Definition wire_handler (e : xop) (s : wire) : xop_ans e * wire :=
  match e with
  | XHw e => wire_hw e s
  | Critical f => (server s, Wire (pins s) (edges s) (f (server s)))
  | LoadState => (server s, s)
  | StoreState t => (tt, Wire (pins s) (edges s) t)
  | MemMalloc _ => (None, s)
  | MemFree => (tt, s)
  | NetconnNew => (false, s)
  | NetconnBind _ | NetconnListen | NetconnAccept | NetconnWrite _ => (0, s)
  | NetconnRecv => ((0, []), s)
  | NetconnClose _ | NetconnDelete _ => (tt, s)
  | PbufFree => (tt, s)
  end.

#[local] Notation "'wrun' p" := (run wire_handler (E := xvc) p) (at level 10, p at level 9).

Definition tck_low (s : wire) : Prop := Z.testbit (pins s) (Z.land XILTCK 0x1F) = false.

Lemma run_codr v s :
  wrun (on_hw (wr xvc_server_pio_codr v)) s = (Done tt, drive (Z.ldiff (pins s) v) s).
Proof. done. Qed.
Lemma run_sodr v s :
  wrun (on_hw (wr xvc_server_pio_sodr v)) s = (Done tt, drive (Z.lor (pins s) v) s).
Proof. done. Qed.

Lemma run_get_tdo s : wrun xvc_server_get_tdo s = (Done (Z.b2z (dev (edges s))), s).
Proof.
  unfold xvc_server_get_tdo. cbn -[Z.b2z Z.land Z.shiftr Z.shiftl].
  by destruct (dev (edges s)).
Qed.

Lemma drive_quiet v s :
  Z.testbit (pins s) 1 = true \/ Z.testbit v 1 = false ->
  drive v s = Wire v (edges s) (server s).
Proof.
  intros Hq. unfold drive. change (Z.land XILTCK 0x1F) with 1.
  destruct Hq as [-> | ->]; [done|]. by rewrite andb_false_r.
Qed.

(** One clocked bit: one rising edge, at which the device sees the bit. *)
Lemma clock_bit_run t m s :
  is_bit t -> is_bit m -> tck_low s ->
  exists p', let s' := Wire p' (edges s ++ [(t, m)]) (server s) in
    wrun (clock_bit t m) s = (Done (Z.b2z (dev (edges s'))), s') /\ tck_low s'.
Proof.
  intros Ht Hm Hlow. destruct s as [p es sv]. unfold tck_low in *. cbn [pins edges server] in *.
  change (Z.land XILTCK 0x1F) with 1 in *.
  unfold clock_bit, xvc_server_set_tdi_tms, xvc_server_set_tck_high, xvc_server_set_tck_low.
  assert (exists c d, Z.lor (u32 (Z.shiftl (Z.land (Z.lnot t) 1) (Z.land XILTDI 31)))
      (u32 (Z.shiftl (Z.land (Z.lnot m) 1) (Z.land XILTMS 31))) = c /\
    Z.lor (u32 (Z.shiftl t (Z.land XILTDI 31))) (u32 (Z.shiftl m (Z.land XILTMS 31))) = d /\
    Z.testbit c 1 = false /\ Z.testbit d 1 = false /\
    Z.testbit d 4 = (t =? 1) /\ Z.testbit d 0 = (m =? 1) /\
    Z.testbit c 4 = negb (t =? 1) /\ Z.testbit c 0 = negb (m =? 1))
    as (c & d & -> & -> & Hc1 & Hd1 & Hd4 & Hd0 & Hc4 & Hc0).
  { eexists _, _. split; [reflexivity|]. split; [reflexivity|].
    destruct Ht as [-> | ->], Hm as [-> | ->]; vm_compute; repeat split. }
  repeat (rewrite run_bind, ?run_codr, ?run_sodr, ?run_get_tdo; cbv beta iota).
  change (u32 (Z.shiftl 1 (Z.land XILTCK 0x1F))) with 2.
  rewrite (drive_quiet (Z.ldiff p c)) by (right; by rewrite Z.ldiff_spec, Hlow).
  cbn [pins edges server].
  rewrite (drive_quiet (Z.lor (Z.ldiff p c) d))
    by (right; by rewrite Z.lor_spec, Z.ldiff_spec, Hlow, Hd1).
  cbn [pins edges server].
  set (p1 := Z.lor (Z.ldiff p c) d).
  assert (drive (Z.lor p1 2) (Wire p1 es sv) = Wire (Z.lor p1 2) (es ++ [(t, m)]) sv) as ->.
  { unfold drive. cbn [pins edges server]. change (Z.land XILTCK 0x1F) with 1.
    unfold pin_bit. change (Z.land XILTDI 0x1F) with 4. change (Z.land XILTMS 0x1F) with 0.
    unfold p1. rewrite !Z.lor_spec, !Z.ldiff_spec, Hlow, Hd1, Hd4, Hd0, Hc4, Hc0. cbn.
    rewrite !negb_involutive, !orb_false_r.
    destruct Ht as [-> | ->], Hm as [-> | ->]; cbn; by rewrite ?andb_false_r, ?orb_true_r. }
  cbn [pins edges server run].
  rewrite drive_quiet by (left; cbn [pins]; rewrite Z.lor_spec; apply orb_true_r).
  eexists. split; [reflexivity|]. cbn [pins]. rewrite Z.ldiff_spec. apply andb_false_r.
Qed.

(** What the device sees and answers over a whole vector. *)
Definition samples (tdi tms : list Z) (i k : nat) : list (Z * Z) :=
  map (fun j => (bit_of tdi j, bit_of tms j)) (seq i k).

Definition answers (es : list (Z * Z)) (ss : list (Z * Z)) : list Z :=
  map (fun k => Z.b2z (dev (es ++ take (S k) ss))) (seq 0 (length ss)).

Lemma bit_of_bit l i : is_bit (bit_of l i).
Proof. apply land_1_bit. Qed.

Lemma samples_answers_cons es s ss :
  answers es (s :: ss) = Z.b2z (dev (es ++ [s])) :: answers (es ++ [s]) ss.
Proof.
  unfold answers. simpl. f_equal. rewrite <- seq_shift, map_map. apply map_ext.
  intros k. by rewrite <- app_assoc.
Qed.

Lemma clock_bits_run tdi tms k i s :
  tck_low s ->
  exists p', let s' := Wire p' (edges s ++ samples tdi tms i k) (server s) in
    wrun (clock_bits tdi tms i k) s =
      (Done (answers (edges s) (samples tdi tms i k)), s') /\ tck_low s'.
Proof.
  revert i s. induction k as [|k IH]; intros i s Hlow.
  { exists (pins s). cbn. rewrite app_nil_r. by destruct s. }
  cbn [clock_bits]. rewrite run_bind.
  destruct (clock_bit_run (bit_of tdi i) (bit_of tms i) s) as (p1 & -> & Hlow1);
    [apply bit_of_bit|apply bit_of_bit|done|].
  rewrite run_bind. destruct (IH (S i) _ Hlow1) as (p2 & -> & Hlow2).
  exists p2. cbn [edges server] in *. unfold samples. cbn [seq map].
  rewrite samples_answers_cons, <- app_assoc. by split.
Qed.

(** A shift that nothing disturbs, seen from the pins. *)
Lemma do_shift_run tdi tms n s :
  0 < n <= XVC_SHIFT_VECTOR_MAX_LEN_IN_BITS ->
  length tdi = vector_len n -> length tms = vector_len n ->
  server s = XVC_SERVER_STATE_ENABLED ->
  let ss := samples tdi tms 0 (Z.to_nat n) in
  exists p', let s' := Wire p' (edges s ++ ss) XVC_SERVER_STATE_ENABLED in
    wrun (xvc_server_do_shift tdi tms n) s =
      (Done (XVC_STATUS_OK, pack (vector_len n) (answers (edges s) ss)), s') /\ tck_low s'.
Proof.
  intros Hn Htdi Htms Hsrv ss.
  destruct (@prog_rel_run xvc wire _ _ never eq wire_handler _ _ s
    (do_shift_equiv tdi tms n ltac:(lia) Htdi Htms)) as [(x & s' & _ & [])|[Hs Ho]].
  assert (exists p', let s' := Wire p' (edges s ++ ss) XVC_SERVER_STATE_ENABLED in
    wrun (reference_shift tdi tms n) s =
      (Done (XVC_STATUS_OK, pack (vector_len n) (answers (edges s) ss)), s') /\ tck_low s')
    as (p' & Hr & Hlow).
  { unfold reference_shift. rewrite (proj2 (Z.eqb_neq _ _)) by lia.
    destruct s as [p es sv]. cbn [server] in Hsrv. subst sv.
    rewrite run_bind. cbn [xcall trigger run wire_handler server]. rewrite decide_True by done.
    rewrite decide_True by done. unfold xvc_server_set_tck_low.
    rewrite run_bind, run_codr. cbn [pins edges].
    change (u32 (Z.shiftl 1 (Z.land XILTCK 0x1F))) with 2.
    set (s1 := drive (Z.ldiff p 2) _).
    assert (s1 = Wire (Z.ldiff p 2) es XVC_SERVER_STATE_IO_IN_PROGRESS) as ->.
    { unfold s1. rewrite drive_quiet; [done|]. right. rewrite Z.ldiff_spec. apply andb_false_r. }
    rewrite run_bind.
    destruct (clock_bits_run tdi tms (Z.to_nat n) 0
      (Wire (Z.ldiff p 2) es XVC_SERVER_STATE_IO_IN_PROGRESS)) as (p' & -> & Hlow).
    { unfold tck_low. cbn [pins]. rewrite Z.ldiff_spec. apply andb_false_r. }
    rewrite run_bind. cbn [xcall trigger run wire_handler server pins edges].
    rewrite decide_False by done. by exists p'. }
  exists p'. split; [|done]. rewrite Hr in Hs, Ho. cbn [fst snd] in Hs, Ho.
  destruct (wrun (xvc_server_do_shift tdi tms n) s) as [[r|h] s']; cbn [fst snd] in *; [|done].
  by subst.
Qed.
End wire.

(** C34: the in-place shift is the wire protocol.  For every admissible bit count
    and vectors of the length that goes with it, [xvc_server_do_shift], which
    overwrites the TDI bytes by TDO bytes while it still reads them, is equivalent to
    the reference that clocks out bit after bit and packs the samples at the
    end: the same register accesses in the same order, the same status (OK,
    ERROR when the server is not enabled, ERROR after a disable request) and the same bytes. *)
Theorem do_shift_equals_reference tdi tms n :
  0 <= n <= XVC_SHIFT_VECTOR_MAX_LEN_IN_BITS ->
  length tdi = vector_len n -> length tms = vector_len n ->
  xvc_server_do_shift tdi tms n ≈ reference_shift tdi tms n.
Proof. apply do_shift_equiv. Qed.

Lemma do_shift_equals_reference_witness :
  xvc_server_do_shift [0xA5; 0x01] [0x00; 0x01] 9 ≈ reference_shift [0xA5; 0x01] [0x00; 0x01] 9.
Proof. by apply do_shift_equals_reference. Defined.

(** C3: what the device sees.  On pins driven through the port's set and clear
    registers, an enabled server's shift of [n] bits makes exactly [n] rising
    edges of TCK; at edge [i] the device samples bit [i] of the two vectors;
    bit [i] of the result is the device's answer after that edge; TCK is left
    low and the server enabled. *)
Theorem do_shift_on_the_wire dev tdi tms n s :
  0 < n <= XVC_SHIFT_VECTOR_MAX_LEN_IN_BITS ->
  length tdi = vector_len n -> length tms = vector_len n ->
  server s = XVC_SERVER_STATE_ENABLED ->
  let ss := samples tdi tms 0 (Z.to_nat n) in
  exists p', let s' := Wire p' (edges s ++ ss) XVC_SERVER_STATE_ENABLED in
    @run xvc wire _ (wire_handler dev) (xvc_server_do_shift tdi tms n) s =
      (Done (XVC_STATUS_OK, pack (vector_len n) (answers dev (edges s) ss)), s') /\ tck_low s'.
Proof. apply do_shift_run. Qed.

(** A device whose TDO is the TDI of the last edge. *)
Definition loopback (es : list (Z * Z)) : bool :=
  match rev es with (t, _) :: _ => t =? 1 | [] => false end.

Lemma do_shift_on_the_wire_witness :
  exists p', let s' := Wire p' ([] ++ samples [0xA5; 0x01] [0x00; 0x01] 0 9) XVC_SERVER_STATE_ENABLED in
    @run xvc wire _ (wire_handler loopback) (xvc_server_do_shift [0xA5; 0x01] [0x00; 0x01] 9)
      (Wire 0 [] XVC_SERVER_STATE_ENABLED) =
      (Done (XVC_STATUS_OK, [0xA5; 0x01]), s') /\ tck_low s'.
Proof. by apply (do_shift_on_the_wire loopback [0xA5; 0x01] [0x00; 0x01] 9). Defined.
