(* ===== verification/XvcSpec.v ===== *)
(** * The XVC protocol: specification

    XVC 1.0 as a byte-at-a-time automaton over the shift routine and the
    replies of the server, and the laws of the automaton that the refinement of
    XvcRefine.v rests on. *)

From S2P Require Import Prelude Prog Pio Pbuf Xvc XvcProto.

(** ** Specification: the XVC 1.0 protocol, one byte at a time

    A client sends "getinfo:", "settck:" and a 32-bit period, or "shift:", a
    32-bit bit count [n] and two vectors of [n] bits; every command has one
    reply.  The parser state is what has been received of the command under
    way; [None] is a violation, after which the connection is closed. *)

Inductive pstate :=
| PCmd (w : list Z)
| PSettck (got : list Z)
| PShiftLen (got : list Z)
| PShiftData (n : Z) (got : list Z).

Definition commands : list (list Z) :=
  [XVC_COMMAND_STR_GETINFO; XVC_COMMAND_STR_SETTCK; XVC_COMMAND_STR_SHIFT].

Definition viable (w : list Z) : Prop := exists s, s ∈ commands /\ w `prefix_of` s.

#[global] Instance viable_dec w : Decision (viable w).
Proof.
  refine (cast_if (decide (Exists (fun s => w `prefix_of` s) commands)));
    unfold viable; by rewrite <- list.Exists_exists.
Defined.

Section spec.
Context `{JtagShifter}.

Definition reply (data : list Z) (next : pstate) : prog xvc (option pstate) :=
  let! err := xcall (NetconnWrite data) in
  Ret (if err =? ERR_OK then Some next else None).

Definition spec_shift (n : Z) (got : list Z) : prog xvc (option pstate) :=
  let! (s, tdo) := do_shift (drop (vector_len n) got) (take (vector_len n) got) n in
  if decide (s = XVC_STATUS_OK) then reply tdo (PCmd []) else Ret None.

(** What completing a command word does. *)
Definition spec_word (w : list Z) : prog xvc (option pstate) :=
  if decide (w = XVC_COMMAND_STR_GETINFO) then reply XVC_INFO_STR (PCmd [])
  else if decide (w = XVC_COMMAND_STR_SETTCK) then Ret (Some (PSettck []))
  else if decide (w = XVC_COMMAND_STR_SHIFT) then Ret (Some (PShiftLen []))
  else if decide (viable w) then Ret (Some (PCmd w))
  else Ret None.

Definition spec_settck (got : list Z) : prog xvc (option pstate) :=
  if decide (length got = 4%nat) then reply (le_bytes4 690) (PCmd [])
  else Ret (Some (PSettck got)).

Definition spec_data (n : Z) (got : list Z) : prog xvc (option pstate) :=
  if decide (length got = 2 * vector_len n)%nat then spec_shift n got
  else Ret (Some (PShiftData n got)).

Definition spec_len (got : list Z) : prog xvc (option pstate) :=
  if decide (length got = 4%nat) then
    if XVC_SHIFT_VECTOR_MAX_LEN_IN_BITS <? le_val got then Ret None
    else spec_data (le_val got) []
  else Ret (Some (PShiftLen got)).

Definition spec_byte (ps : pstate) (b : Z) : prog xvc (option pstate) :=
  match ps with
  | PCmd w => spec_word (w ++ [b])
  | PSettck got => spec_settck (got ++ [b])
  | PShiftLen got => spec_len (got ++ [b])
  | PShiftData n got => spec_data n (got ++ [b])
  end.

Fixpoint spec_feed (ps : pstate) (bs : list Z) : prog xvc (option pstate) :=
  match bs with
  | [] => Ret (Some ps)
  | b :: bs =>
    let! r := spec_byte ps b in
    match r with Some ps => spec_feed ps bs | None => Ret None end
  end.

Definition and_feed (bs : list Z) (r : option pstate) : prog xvc (option pstate) :=
  match r with Some ps => spec_feed ps bs | None => Ret None end.

(** The specification does not see how the stream is cut into segments. *)
Lemma spec_feed_app ps xs ys :
  spec_feed ps (xs ++ ys) ≈ bind (spec_feed ps xs) (and_feed ys).
Proof.
  revert ps. induction xs as [|b xs IH]; intros ps; simpl; [reflexivity|].
  rewrite bind_bind. apply bind_proper; [reflexivity|].
  intros [ps'|]; simpl; [apply IH|reflexivity].
Qed.
End spec.

(** ** Where in the stream the parser is

    The state after some bytes when no answer ends the connection, and [None]
    behind a violation of the protocol. *)

Definition next_data (n : Z) (got : list Z) : pstate :=
  if decide (length got = 2 * vector_len n)%nat then PCmd [] else PShiftData n got.

Definition next_byte (ps : pstate) (b : Z) : option pstate :=
  match ps with
  | PCmd w =>
    let w := w ++ [b] in
    if decide (w = XVC_COMMAND_STR_GETINFO) then Some (PCmd [])
    else if decide (w = XVC_COMMAND_STR_SETTCK) then Some (PSettck [])
    else if decide (w = XVC_COMMAND_STR_SHIFT) then Some (PShiftLen [])
    else if decide (viable w) then Some (PCmd w)
    else None
  | PSettck got =>
    let got := got ++ [b] in
    Some (if decide (length got = 4%nat) then PCmd [] else PSettck got)
  | PShiftLen got =>
    let got := got ++ [b] in
    if decide (length got = 4%nat) then
      if XVC_SHIFT_VECTOR_MAX_LEN_IN_BITS <? le_val got then None
      else Some (next_data (le_val got) [])
    else Some (PShiftLen got)
  | PShiftData n got => Some (next_data n (got ++ [b]))
  end.

Fixpoint next_bytes (ps : pstate) (bs : list Z) : option pstate :=
  match bs with
  | [] => Some ps
  | b :: bs => ps ← next_byte ps b; next_bytes ps bs
  end.

Lemma next_bytes_app ps xs ys : next_bytes ps (xs ++ ys) = ps' ← next_bytes ps xs; next_bytes ps' ys.
Proof.
  revert ps. induction xs as [|b xs IH]; intros ps; [done|]. cbn [app next_bytes].
  destruct (next_byte ps b); [apply IH|done].
Qed.

(** No command word is under way. *)
Definition resting (ps : pstate) : Prop := match ps with PCmd w => w = [] | _ => True end.

Lemma word_under_way w bs ps : (forall s, s ∈ commands -> ~ s `prefix_of` (w ++ bs)) ->
  next_bytes (PCmd w) bs = Some ps -> ps = PCmd (w ++ bs).
Proof.
  revert w. induction bs as [|b bs IH]; intros w Hs; [rewrite app_nil_r; by intros [= <-]|].
  replace (w ++ b :: bs) with ((w ++ [b]) ++ bs) in * by (by rewrite <- app_assoc).
  cbn [next_bytes next_byte]. rewrite 3!decide_False.
  2-4: intros E; apply (Hs (w ++ [b])); [|by eexists]; rewrite E; unfold commands; rewrite !elem_of_cons; auto.
  case_decide; [|done]. cbn [mbind option_bind]. by apply IH.
Qed.

Section next.
Context `{JtagShifter}.

(** The automaton is there, unless an answer has ended the connection. *)
Definition goes_to (r o : option pstate) : Prop := o = None \/ o = r.

Lemma reply_next data ps : returns (goes_to (Some ps)) (reply data ps).
Proof. intros err. simpl. destruct (err =? ERR_OK); [by right|by left]. Qed.

Lemma spec_data_next n got : returns (goes_to (Some (next_data n got))) (spec_data n got).
Proof.
  unfold spec_data, next_data, spec_shift. case_decide; [|by right].
  eapply returns_bind; [apply returns_any|]. intros [s tdo] _. case_decide; [apply reply_next|by left].
Qed.

Lemma spec_byte_next ps b : returns (goes_to (next_byte ps b)) (spec_byte ps b).
Proof.
  destruct ps as [w|got|got|n got]; cbn [spec_byte next_byte].
  - unfold spec_word. repeat case_decide; try apply reply_next; by right.
  - unfold spec_settck. case_decide; [apply reply_next|by right].
  - unfold spec_len. case_decide; [|by right]. destruct (_ <? _); [by left|apply spec_data_next].
  - apply spec_data_next.
Qed.

Lemma spec_feed_next ps bs : returns (goes_to (next_bytes ps bs)) (spec_feed ps bs).
Proof.
  revert ps. induction bs as [|b bs IH]; intros ps; [by right|]. cbn [spec_feed next_bytes].
  eapply returns_bind; [apply spec_byte_next|]. intros o [-> | ->]; [by left|].
  destruct (next_byte ps b); [apply IH|by left].
Qed.
End next.

(** ** Command words *)

Lemma commands_prefix_free s s' :
  s ∈ commands -> s' ∈ commands -> s `prefix_of` s' -> s = s'.
Proof.
  assert (Forall (fun s => Forall (fun s' => s `prefix_of` s' -> s = s') commands) commands)
    as Hall.
  { repeat constructor; intros Hp; try done; exfalso; revert Hp; apply (bool_decide_unpack _);
      vm_compute; exact I. }
  rewrite list.Forall_forall in Hall. intros Hs Hs'.
  specialize (Hall s Hs). rewrite list.Forall_forall in Hall. auto.
Qed.

Lemma prefix_strict_not_command w s :
  s ∈ commands -> w `prefix_of` s -> w <> s -> w ∉ commands.
Proof. intros Hs Hp Hne Hw. by apply Hne, commands_prefix_free. Qed.

(** [w] and the command [s] agree as far as both go. *)
Definition compat (w s : list Z) : Prop := w `prefix_of` s \/ s `prefix_of` w.
Definition no_command (w : list Z) : Prop := forall s, s ∈ commands -> ~ compat w s.

Lemma compat_prefix w w' s : w `prefix_of` w' -> compat w' s -> compat w s.
Proof.
  intros Hw [Hs|Hs]; [left; by etrans|]. unfold compat. eapply prefix_weak_total; eauto.
Qed.

Lemma not_viable_single w b :
  viable w -> w ∉ commands -> no_command (w ++ [b]) \/ viable (w ++ [b]).
Proof.
  intros Hv Hw. destruct (decide (viable (w ++ [b]))) as [|Hn]; [by right|left].
  intros s Hs [Hp|Hp]; [by apply Hn; exists s|].
  destruct (prefix_weak_total w s (w ++ [b])) as [Hws|Hsw]; [by eexists|done|..].
  - destruct Hws as [[|c z] ->].
    + apply Hw. by rewrite app_nil_r in Hs.
    + apply prefix_app_inv in Hp. apply prefix_cons_inv_2 in Hp as Hz.
      apply prefix_cons_inv_1 in Hp as ->.
      apply prefix_nil_inv in Hz as ->. by apply Hn; exists (w ++ [b]).
  - destruct Hv as (s' & Hs' & Hp2).
    assert (s = s') as <- by (apply commands_prefix_free; auto; by etrans).
    apply Hw. assert (w = s) as -> by (by apply (anti_symm prefix)). done.
Qed.

Section words.
Context `{JtagShifter}.

(** Bytes that keep a command open are accumulated: whatever the parser
    reads piecewise (a word, a number, the vectors) can be read at once. *)
Lemma feed_gulp (P : list Z -> pstate) (f : list Z -> prog xvc (option pstate)) xs got :
  (forall w b, spec_byte (P w) b = f (w ++ [b])) ->
  (forall zs, zs `prefix_of` xs -> zs <> xs -> f (got ++ zs) = Ret (Some (P (got ++ zs)))) ->
  bind (f got) (and_feed xs) ≈ f (got ++ xs).
Proof.
  intros Hf. revert got. induction xs as [|b xs IH]; intros got Ho.
  { rewrite app_nil_r. apply bind_ret_id. by intros [?|]. }
  assert (f got = Ret (Some (P got))) as ->.
  { pose proof (Ho []) as H0. rewrite app_nil_r in H0. apply H0; [apply prefix_nil|done]. }
  simpl. rewrite Hf.
  replace (got ++ b :: xs) with ((got ++ [b]) ++ xs) by (by rewrite <- app_assoc).
  apply IH.
  intros zs Hz Hne. rewrite <- app_assoc. apply Ho; [by apply prefix_cons|]. by intros [= ->].
Qed.

Lemma spec_word_open w : viable w -> w ∉ commands -> spec_word w = Ret (Some (PCmd w)).
Proof.
  intros Hv Hw. unfold commands in Hw. rewrite !not_elem_of_cons in Hw.
  destruct Hw as (? & ? & ? & _). unfold spec_word.
  by rewrite !decide_False, decide_True by done.
Qed.

Lemma spec_word_bad w : no_command w -> spec_word w = Ret None.
Proof.
  intros Hn. assert (w ∉ commands) as Hw by (intros Hw; apply (Hn _ Hw); by left).
  assert (~ viable w) by (intros (s & Hs & Hp); apply (Hn _ Hs); by left).
  unfold commands in Hw. rewrite !not_elem_of_cons in Hw.
  destruct Hw as (? & ? & ? & _). unfold spec_word. by rewrite !decide_False by done.
Qed.

Lemma spec_feed_word w xs :
  viable w -> w ∉ commands -> viable (w ++ xs) -> spec_feed (PCmd w) xs ≈ spec_word (w ++ xs).
Proof.
  intros Hv Hw (s & Hs & Hp).
  rewrite <- (feed_gulp PCmd spec_word xs w); [by rewrite spec_word_open|done|].
  intros zs Hz Hne. apply spec_word_open.
  - exists s. split; [done|]. etrans; [by apply prefix_app|done].
  - eapply prefix_strict_not_command; [exact Hs|etrans; [by apply prefix_app|done]|].
    intros <-. apply Hne. apply prefix_app_inv in Hp. by apply (anti_symm prefix).
Qed.

Lemma spec_feed_bad w xs :
  viable w -> w ∉ commands -> xs <> [] -> no_command (w ++ xs) ->
  spec_feed (PCmd w) xs = Ret None.
Proof.
  revert w. induction xs as [|b xs IH]; intros w Hv Hw Hx Hn; [done|].
  assert (w ++ [b] ∉ commands) as Hb.
  { intros Hb. apply (Hn _ Hb). right. exists xs. by rewrite <- app_assoc. }
  simpl. destruct (not_viable_single w b Hv Hw) as [Hbad|Hv'].
  - by rewrite spec_word_bad.
  - rewrite spec_word_open by done. simpl.
    replace (w ++ b :: xs) with ((w ++ [b]) ++ xs) in Hn by (by rewrite <- app_assoc).
    apply IH; [done|done| |done]. intros ->. rewrite app_nil_r in Hn.
    destruct Hv' as (s & Hs & Hp). apply (Hn s Hs). by left.
Qed.
End words.
