(* ===== verification/XvcRefine.v ===== *)
(** * The XVC receive path refines the protocol automaton

    [xvc_server_handle_receive] on a received packet behaves as [spec_feed] on
    the bytes of the packet; the connection state it leaves represents the
    parser state the specification ends in. *)

From S2P Require Import Prelude Prog Pio Pbuf Xvc XvcProto XvcShift XvcSpec.

(** ** Representation of parser states *)

Definition buffer_size : nat := 1024.

Inductive abs : conn_state -> pstate -> Prop :=
| abs_cmd w buf :
    length buf = buffer_size -> viable w -> w ∉ commands -> take (length w) buf = w ->
    abs (ConnState XVC_COMMAND_NOT_SET buf (Z.of_nat (length w)) XVC_SHIFT_VECTOR_LENGTH_NOT_SET)
        (PCmd w)
| abs_settck got buf :
    length buf = buffer_size -> (length got < 4)%nat -> Forall is_u8 got ->
    (got <> [] -> take 4 buf = got ++ replicate (4 - length got) 0) ->
    abs (ConnState XVC_COMMAND_SETTCK buf (Z.of_nat (length got)) XVC_SHIFT_VECTOR_LENGTH_NOT_SET)
        (PSettck got)
| abs_len got buf :
    length buf = buffer_size -> (length got < 4)%nat -> Forall is_u8 got ->
    (got <> [] -> take 4 buf = got ++ replicate (4 - length got) 0) ->
    abs (ConnState XVC_COMMAND_SHIFT buf (Z.of_nat (length got)) XVC_SHIFT_VECTOR_LENGTH_NOT_SET)
        (PShiftLen got)
| abs_data n got buf :
    length buf = buffer_size -> 0 <= n <= XVC_SHIFT_VECTOR_MAX_LEN_IN_BITS ->
    (length got < 2 * vector_len n)%nat -> take (length got) buf = got ->
    abs (ConnState XVC_COMMAND_SHIFT buf (Z.of_nat (length got)) n) (PShiftData n got).

(** What a received chain satisfies: bytes, and lengths that fit [u16_t]. *)
Definition good (q : list pbuf) : Prop := small q /\ Forall is_u8 (flat q).

(** ** Reading *)

Lemma store_length_take buf w bs :
  take (length w) buf = w -> (length w + length bs <= length buf)%nat ->
  exists buf', store buf (length w) bs = Some buf' /\ length buf' = length buf /\
    take (length (w ++ bs)) buf' = w ++ bs.
Proof.
  intros Hw Hb. pose proof (store_in_bounds _ _ _ Hb) as Hs.
  eexists. split; [exact Hs|]. split; [by eapply store_length|].
  rewrite length_app. by rewrite (store_take _ _ _ _ Hs), Hw.
Qed.

(** [pbuf_copy_partial] and [pbuf_header] together: the first [want] bytes of
    the packet move to the buffer, or the head pbuf is too short for them. *)
Lemma take_bytes_eq p q w buf want :
  good (p :: q) -> take (length w) buf = w -> 0 <= want < 2 ^ 15 ->
  (length w + Z.to_nat want <= length buf)%nat -> Z.of_nat (length buf) < 2 ^ 16 ->
  (take_bytes (p :: q) buf (Z.of_nat (length w)) want = Halt Hang /\ flat q <> [] /\
     (length (payload p) < Z.to_nat want)%nat) \/
  exists p' buf', let xs := take (Z.to_nat want) (flat (p :: q)) in
    take_bytes (p :: q) buf (Z.of_nat (length w)) want =
      Ret (p' :: q, buf', Z.of_nat (length (w ++ xs))) /\
    flat (p :: q) = xs ++ flat (p' :: q) /\ good (p' :: q) /\
    length buf' = length buf /\ take (length (w ++ xs)) buf' = w ++ xs /\
    payload p' = drop (length xs) (payload p) /\ (length xs <= length (payload p))%nat.
Proof.
  intros [Hg H8] Hw Hwant Hb Hl.
  set (xs := take (Z.to_nat want) (flat (p :: q))).
  assert (length xs <= Z.to_nat want)%nat as Hxs by (unfold xs; rewrite length_take; lia).
  unfold take_bytes. rewrite (u16_id want) by (unfold is_u16; lia).
  rewrite pbuf_copy_partial_eq by (done || unfold is_u16; lia).
  change (Z.to_nat 0) with 0%nat. rewrite drop_0. cbv zeta. fold xs. cbn [of_outcome bind].
  destruct (store_length_take buf w xs) as (buf' & Hs & Hlen & Htake); [done|lia|].
  rewrite Nat2Z.id, Hs. cbn [defined bind].
  assert (s16 (- Z.of_nat (length xs)) = - Z.of_nat (length xs)) as ->.
  { unfold s16. destruct (decide (length xs = 0)%nat) as [-> |]; [done|].
    apply signed_neg; lia. }
  destruct (decide (length xs <= length (payload p))%nat) as [Hle|Hgt].
  - right. destruct (pbuf_header_hide p (length xs)) as (p' & -> & Hp' & _);
      [unfold is_u16; lia|done|].
    exists p', buf'. cbn [of_outcome bind]. rewrite u32_id by (unfold is_u32; lia).
    rewrite length_app, Nat2Z.inj_add.
    assert (flat (p :: q) = xs ++ flat (p' :: q)) as Hf.
    { rewrite (flat_cons p'), Hp', <- drop_app_le by done. rewrite <- flat_cons.
      rewrite <- (take_drop (Z.to_nat want) (flat (p :: q))) at 2. fold xs.
      rewrite drop_app_length. unfold xs. by rewrite take_drop. }
    split; [done|]. split; [done|]. split; [|by rewrite <- length_app].
    split.
    + inversion Hg; subst. constructor; [|done]. unfold len in *. rewrite Hp', length_drop. lia.
    + rewrite Hf in H8. by apply Forall_app in H8 as [_ H8].
  - left. rewrite pbuf_header_hang by (unfold is_u16; lia). split; [done|].
    unfold xs in Hgt. rewrite length_take, flat_cons, length_app in Hgt.
    split; [intros E; rewrite E in Hgt; simpl in Hgt; lia|lia].
Qed.

(** ** Command words *)

Definition command_str (c : xvc_command_t) : list Z :=
  match c with
  | XVC_COMMAND_GETINFO => XVC_COMMAND_STR_GETINFO
  | XVC_COMMAND_SETTCK => XVC_COMMAND_STR_SETTCK
  | XVC_COMMAND_SHIFT => XVC_COMMAND_STR_SHIFT
  | XVC_COMMAND_NOT_SET => []
  end.

(** What the status and the command of [xvc_server_read_command] say of the
    bytes received so far. *)
Definition word_result (s : xvc_status_t) (c : xvc_command_t) (w : list Z) : Prop :=
  match s with
  | XVC_STATUS_OK => c <> XVC_COMMAND_NOT_SET /\ w = command_str c
  | XVC_STATUS_MORE_DATA_NEEDED => viable w /\ w ∉ commands
  | XVC_STATUS_ERROR => no_command w
  end.

(** The head pbuf ends before the command word that has begun with [w] does, and
    there are bytes behind it. *)
Definition cut_word (w : list Z) (q0 : list pbuf) : Prop :=
  match q0 with
  | [] => False
  | p :: q => flat q <> [] /\ forall s, s ∈ commands -> ~ s `prefix_of` (w ++ payload p)
  end.

(** A read either runs into the end of the head pbuf in the middle of the word,
    or it consumes [xs] and reports [P] of the bytes it has. *)
Definition reads {A} (m : prog xvc A) (q0 : list pbuf) (w : list Z) (nonempty : Prop)
    (P : list Z -> list Z -> list pbuf -> A -> Prop) : Prop :=
  (m = Halt Hang /\ cut_word w q0) \/
  exists xs p' buf' r, m = Ret r /\
    let q' := p' :: tail q0 in
    flat q0 = xs ++ flat q' /\ (nonempty -> xs <> []) /\ good q' /\
    length buf' = buffer_size /\ P (w ++ xs) buf' q' r.

Lemma memcmp_eq w buf str :
  take (length w) buf = w -> (length w <= length str)%nat ->
  memcmp buf str (Z.of_nat (length w)) = Ret (negb (bool_decide (w `prefix_of` str))).
Proof.
  intros Hw Hl. unfold memcmp. rewrite (proj2 (Z.ltb_ge _ _)) by lia.
  rewrite Nat2Z.id, Hw, take_app_le by lia. do 2 f_equal. apply bool_decide_ext.
  split; intros Hp.
  - rewrite Hp. by exists (drop (length w) str); rewrite take_drop.
  - destruct Hp as [z ->]. by rewrite take_app_length.
Qed.

Lemma command_str_in c : c <> XVC_COMMAND_NOT_SET -> command_str c ∈ commands.
Proof. intros. unfold commands. rewrite !elem_of_cons. destruct c; by auto. Qed.

Ltac in_commands H :=
  unfold commands in H; rewrite !elem_of_cons in H;
  destruct H as [-> |[-> |[-> |[]%elem_of_nil]]].

Lemma command_long s : s ∈ commands -> (6 <= length s)%nat.
Proof. intros Hs. in_commands Hs; simpl; lia. Qed.

Lemma read_command_rest_eq p q w buf c :
  good (p :: q) -> take (length w) buf = w -> length buf = buffer_size ->
  c <> XVC_COMMAND_NOT_SET ->
  (forall s, s ∈ commands -> compat w s -> s = command_str c) ->
  (length w <= length (command_str c))%nat ->
  reads (read_command_rest (p :: q) buf (Z.of_nat (length w)) (command_str c)
           (Z.of_nat (length (command_str c))) c)
    (p :: q) w (len p <> 0 /\ (length w < length (command_str c))%nat)
    (fun w' buf' q' r => exists s c', r = (s, q', buf', Z.of_nat (length w'), c') /\
       take (length w') buf' = w' /\ word_result s c' w').
Proof.
  intros Hg Hw Hb Hc Hu Hl. unfold reads, read_command_rest.
  assert (length (command_str c) <= 8)%nat as H8 by (destruct c; simpl; lia).
  destruct (take_bytes_eq p q w buf (Z.of_nat (length (command_str c)) - Z.of_nat (length w)))
    as [(-> & Hq & Hlt)|(p' & buf' & -> & Hf & Hg' & Hb' & Hw' & _)];
    [done|done|lia|unfold buffer_size in *; lia|unfold buffer_size in *; lia| |].
  { left. split; [done|]. split; [done|]. intros s Hs Hp.
    assert (s = command_str c) as ->.
    { apply Hu; [done|]. unfold compat. eapply prefix_weak_total; [by eexists|exact Hp]. }
    apply prefix_length in Hp. rewrite length_app in Hp. lia. }
  right. set (xs := take (Z.to_nat (_ - _)) _) in *. cbn [bind].
  assert (length (w ++ xs) <= length (command_str c))%nat as Hle.
  { rewrite length_app. unfold xs. rewrite length_take. lia. }
  rewrite memcmp_eq by done. cbn [bind].
  assert (forall s c', word_result s c' (w ++ xs) -> exists xs0 p'0 buf'0 r,
    Ret (E := xvc) (s, p' :: q, buf', Z.of_nat (length (w ++ xs)), c') = Ret r /\
    flat (p :: q) = xs0 ++ flat (p'0 :: q) /\
    (len p <> 0 /\ (length w < length (command_str c))%nat -> xs0 <> []) /\ good (p'0 :: q) /\
    length buf'0 = buffer_size /\
    exists s c', r = (s, p'0 :: q, buf'0, Z.of_nat (length (w ++ xs0)), c') /\
      take (length (w ++ xs0)) buf'0 = w ++ xs0 /\ word_result s c' (w ++ xs0)) as Hret.
  { intros s c' Hr. exists xs, p', buf'. eexists. split; [done|]. split; [done|].
    split; [intros [Hp Hlt] Hxs; apply (f_equal length) in Hxs; unfold len in Hp;
            unfold xs in Hxs; rewrite length_take, flat_cons, length_app in Hxs;
            simpl in Hxs; lia|]. split; [done|]. split; [congruence|]. by exists s, c'. }
  case_bool_decide as Hp; cbn [negb]; [destruct (Z.eqb_spec (Z.of_nat (length (w ++ xs)))
    (Z.of_nat (length (command_str c)))) as [Hd|Hd]|]; apply Hret; cbn.
  - split; [done|]. destruct Hp as [z Hz]. rewrite Hz in Hd |- *.
    rewrite (length_app (w ++ xs)) in Hd. destruct z; [by rewrite app_nil_r|simpl in Hd; lia].
  - pose proof (command_str_in c Hc) as Hin. split; [by eexists|].
    eapply prefix_strict_not_command; [exact Hin|done|congruence].
  - intros s Hs Hcomp.
    assert (s = command_str c) as ->.
    { apply Hu; [done|]. eapply compat_prefix; [|done]. by eexists. }
    destruct Hcomp as [|[z Hz]]; [done|]. apply Hp. rewrite Hz in Hle |- *.
    rewrite length_app in Hle. destruct z; [|simpl in Hle; lia]. by rewrite app_nil_r.
Qed.

Lemma take_head (w buf : list Z) : w <> [] -> take (length w) buf = w ->
  exists a t, w = a :: t /\ buf !! 0%nat = Some a.
Proof. destruct w as [|a t], buf as [|a' b]; try done. intros _ [= -> _]. by exists a, t. Qed.

Lemma take_two (w buf : list Z) : (2 <= length w)%nat -> take (length w) buf = w ->
  exists a b t, w = a :: b :: t /\ buf !! 0%nat = Some a /\ buf !! 1%nat = Some b.
Proof.
  destruct w as [|a [|b t]], buf as [|a' [|b' u]]; simpl; try (done || lia).
  intros _ [= -> -> _]. by exists a, b, t.
Qed.

(** A nonempty word agrees with a command in its first byte, a longer one in
    its first two. *)
Lemma compat_head a t s : compat (a :: t) s -> s ∈ commands -> hd 0 s = a.
Proof.
  intros Hc Hs. unfold commands in Hs. rewrite !elem_of_cons in Hs.
  destruct Hs as [-> |[-> |[-> |[]%elem_of_nil]]];
    destruct Hc as [Hp|Hp]; by apply prefix_cons_inv_1 in Hp.
Qed.

Lemma compat_second a b t s : compat (a :: b :: t) s -> s ∈ commands -> nth 1 s 0 = b.
Proof.
  intros Hc Hs. unfold commands in Hs. rewrite !elem_of_cons in Hs.
  destruct Hs as [-> |[-> |[-> |[]%elem_of_nil]]];
    destruct Hc as [Hp|Hp]; by apply prefix_cons_inv_2, prefix_cons_inv_1 in Hp.
Qed.

Definition command_result (w' buf' : list Z) (q' : list pbuf)
    (r : xvc_status_t * list pbuf * list Z * Z * xvc_command_t) : Prop :=
  exists s c', r = (s, q', buf', Z.of_nat (length w'), c') /\
    take (length w') buf' = w' /\ word_result s c' w'.

Lemma reads_now {A} (r : A) p q w buf (P : list Z -> list Z -> list pbuf -> A -> Prop) :
  good (p :: q) -> length buf = buffer_size -> P w buf (p :: q) r ->
  forall nonempty : Prop, ~ nonempty -> reads (Ret r) (p :: q) w nonempty P.
Proof.
  intros Hg Hb HP ne Hne. right. exists [], p, buf, r. rewrite app_nil_r.
  split; [done|]. split; [done|]. by split.
Qed.

Lemma reads_weaken {A} (m : prog xvc A) q w (ne ne' : Prop) P :
  (ne' -> ne) -> reads m q w ne P -> reads m q w ne' P.
Proof.
  intros Hne [?|(xs & p' & buf' & r & ? & ? & ? & ?)]; [by left|right].
  exists xs, p', buf', r. split; [done|]. split; [done|]. split; [by auto|done].
Qed.

Definition partial_word (w : list Z) : Prop := viable w /\ w ∉ commands.

Lemma partial_shorter w c :
  partial_word w -> (forall s, s ∈ commands -> compat w s -> s = command_str c) ->
  (length w < length (command_str c))%nat.
Proof.
  intros [(s & Hs & Hp) Hw] Hu. assert (s = command_str c) as <- by (apply Hu; [done|by left]).
  destruct Hp as [z ->]. rewrite length_app. destruct z; [by rewrite app_nil_r in Hs|simpl; lia].
Qed.

Lemma partial_not_no_command w : partial_word w -> ~ no_command w.
Proof. intros [(s & Hs & Hp) _] Hn. apply (Hn s Hs). by left. Qed.

Lemma read_command_branch_eq p q w buf :
  good (p :: q) -> take (length w) buf = w -> length buf = buffer_size -> w <> [] ->
  (length w <= 7)%nat -> (hd 0 w = 103 \/ nth 1 w 0 = 101 \/ (length w <= 6)%nat) ->
  reads (read_command_branch (p :: q) buf (Z.of_nat (length w))) (p :: q) w
    (len p <> 0 /\ (2 <= length w)%nat /\ partial_word w) command_result.
Proof.
  intros Hg Hw Hb Hne H7 Hlong.
  destruct (take_head w buf Hne Hw) as (a & t & Hat & H0).
  unfold read_command_branch, byte_at. change (Z.to_nat 0) with 0%nat. rewrite H0. cbn [defined bind].
  assert (forall s c, word_result s c w -> (no_command w \/ (length w < 2)%nat) ->
    reads (Ret (s, p :: q, buf, Z.of_nat (length w), c)) (p :: q) w
      (len p <> 0 /\ (2 <= length w)%nat /\ partial_word w) command_result) as Hnow.
  { intros s c Hr Hn. apply (reads_now _ _ _ _ buf); [done..|by exists s, c|].
    intros (_ & Hlen & Hpw). destruct Hn; [by eapply partial_not_no_command|lia]. }
  assert (forall c, c <> XVC_COMMAND_NOT_SET ->
    (forall s, s ∈ commands -> compat w s -> s = command_str c) ->
    (length w <= length (command_str c))%nat ->
    reads (read_command_rest (p :: q) buf (Z.of_nat (length w)) (command_str c)
      (Z.of_nat (length (command_str c))) c) (p :: q) w
      (len p <> 0 /\ (2 <= length w)%nat /\ partial_word w) command_result) as Hrest.
  { intros c Hc Hu Hl. eapply reads_weaken; [|by apply read_command_rest_eq].
    intros (? & _ & ?). split; [done|]. by apply partial_shorter. }
  destruct (Z.eqb_spec a 103) as [-> |Hg'].
  { apply (Hrest XVC_COMMAND_GETINFO); [done| |simpl; lia].
    intros s Hs Hc. rewrite Hat in Hc. apply compat_head in Hc; [|done]. by in_commands Hs. }
  destruct (Z.eqb_spec a 115) as [-> |Hs'].
  2: { assert (no_command w); [|by apply Hnow; auto].
       intros s Hs Hc. rewrite Hat in Hc. apply compat_head in Hc; [|done].
       in_commands Hs; vm_compute in Hc; congruence. }
  destruct (Z.ltb_spec (Z.of_nat (length w)) 2).
  { apply Hnow; [|right; lia]. destruct t; [|rewrite Hat in *; simpl in *; lia]. rewrite Hat.
    split; [|apply (bool_decide_unpack _); vm_compute; exact I].
    exists XVC_COMMAND_STR_SHIFT. split; [|by eexists]. unfold commands. rewrite !elem_of_cons. auto. }
  destruct (take_two w buf) as (a' & b & t' & Hab & _ & H1); [lia|done|].
  change (Z.to_nat 1) with 1%nat. rewrite H1. cbn [defined bind].
  assert (forall s, s ∈ commands -> compat w s -> hd 0 s = 115 /\ nth 1 s 0 = b) as Htwo.
  { intros s Hs Hc. split; [rewrite Hat in Hc; by apply compat_head in Hc|].
    rewrite Hab in Hc. by eapply compat_second. }
  destruct (Z.eqb_spec b 101) as [-> |Hb1].
  { apply (Hrest XVC_COMMAND_SETTCK); [done| |simpl; lia].
    intros s Hs [Hc Hc1]%Htwo; [|done]. by in_commands Hs. }
  destruct (Z.eqb_spec b 104) as [-> |Hb2].
  - apply (Hrest XVC_COMMAND_SHIFT); [done| |].
    + intros s Hs [Hc Hc1]%Htwo; [|done]. by in_commands Hs.
    + destruct Hlong as [E|[E|E]]; [rewrite Hat in E|rewrite Hab in E|exact E]; done.
  - assert (no_command w); [|by apply Hnow; auto].
    intros s Hs [Hc Hc1]%Htwo; [|done]. in_commands Hs; vm_compute in Hc, Hc1; congruence.
Qed.

Lemma partial_word_long w : partial_word w -> (6 <= length w)%nat ->
  (length w <= 7)%nat /\ (hd 0 w = 103 \/ nth 1 w 0 = 101 \/ (length w <= 6)%nat).
Proof.
  intros [(s & Hs & Hp) Hw] H6. destruct Hp as [z Hz].
  assert (z <> []) as Hne by (intros ->; rewrite app_nil_r in Hz; by subst).
  assert (length w < length s)%nat by (rewrite Hz, length_app; destruct z; [done|simpl; lia]).
  destruct w as [|a [|b w]]; simpl in H6; [lia..|]. simpl.
  in_commands Hs;
    unfold XVC_COMMAND_STR_GETINFO, XVC_COMMAND_STR_SETTCK, XVC_COMMAND_STR_SHIFT in *;
    simpl in *; injection Hz; intros; lia.
Qed.

Lemma read_command_eq p q w buf :
  good (p :: q) -> len p <> 0 -> partial_word w -> take (length w) buf = w ->
  length buf = buffer_size ->
  reads (xvc_server_read_command (p :: q) buf (Z.of_nat (length w))) (p :: q) w True command_result.
Proof.
  intros Hg Hp Hw Ht Hb. unfold xvc_server_read_command, c_assert. simpl recv_len.
  rewrite (proj2 (Z.eqb_neq _ _)) by done. cbn [negb bind].
  destruct (Z.ltb_spec (Z.of_nat (length w)) XVC_COMMAND_STR_MIN_LEN) as [Hlt|Hge];
    unfold XVC_COMMAND_STR_MIN_LEN in *.
  - destruct (take_bytes_eq p q w buf (6 - Z.of_nat (length w)))
      as [(-> & Hq & Hlt')|(p' & buf' & -> & Hf & Hg' & Hb' & Hw' & Hpay & _)];
      [done|done|lia|unfold buffer_size in *; lia|unfold buffer_size in *; lia| |].
    { left. split; [done|]. split; [done|]. intros s Hs Hpre. apply prefix_length in Hpre.
      rewrite length_app in Hpre. apply command_long in Hs. lia. }
    set (xs := take (Z.to_nat (_ - _)) _) in *. cbn [bind].
    assert (length (w ++ xs) <= 6 /\ 0 < length xs)%nat as [H6 Hx].
    { unfold xs. rewrite length_app, length_take, flat_cons, length_app. unfold len in Hp. lia. }
    rewrite length_app in H6.
    rewrite (proj2 (Z.eqb_neq _ _)) by (rewrite length_app; lia). cbn [negb bind].
    destruct (read_command_branch_eq p' q (w ++ xs) buf')
      as [[-> Hcut]|(ys & p2 & buf2 & r & -> & Hf2 & _ & Hg2 & Hb2 & Hr)];
      [done|done|congruence|intros E; apply (f_equal length) in E; rewrite length_app in E; simpl in E; lia|rewrite length_app; lia
      |right; right; rewrite length_app; lia| |].
    { left. split; [done|]. destruct Hcut as [Hq Hs]. split; [done|].
      assert (w ++ payload p = (w ++ xs) ++ payload p') as ->; [|done].
      rewrite <- app_assoc. f_equal. rewrite !flat_cons, app_assoc in Hf. by apply app_inv_tail in Hf. }
    right. exists (xs ++ ys), p2, buf2, r. split; [done|]. simpl tail in *.
    split; [by rewrite Hf, Hf2, app_assoc|].
    split; [|split; [done|split; [done|by rewrite app_assoc]]].
    intros _ E. apply (f_equal length) in E. rewrite length_app in E. simpl in E. lia.
  - cbn [bind]. rewrite (proj2 (Z.eqb_neq _ _)) by lia. cbn [negb bind].
    destruct (partial_word_long w Hw) as [H7 Hlong]; [lia|].
    eapply reads_weaken; [|apply read_command_branch_eq; try done]; [|intros ->; simpl in Hge; lia].
    intros _. split; [done|]. split; [lia|done].
Qed.

(** ** Numbers *)

Definition zeros (n : nat) : list Z := replicate n 0.

(** The word under construction: the bytes received, zeros above them. *)
Definition holds_word (got buf : list Z) : Prop := take 4 buf = got ++ zeros (4 - length got).

Lemma holds_word_val got buf : holds_word got buf -> le_val (take 4 buf) = le_val got.
Proof. intros ->. rewrite le_val_app. unfold zeros. rewrite le_val_zeros. lia. Qed.

Lemma word_step got b :
  Forall is_u8 got -> is_u8 b -> (length got < 4)%nat ->
  le_bytes4 (u32 (Z.lor (le_val got) (u32 (Z.shiftl b (Z.of_nat (length got) * 8))))) =
  (got ++ [b]) ++ zeros (4 - length (got ++ [b])).
Proof.
  intros Hg Hb Hl. set (w := (got ++ [b]) ++ zeros (4 - length (got ++ [b]))).
  assert (length w = 4%nat) as Hw.
  { unfold w, zeros. rewrite length_app, length_replicate, length_app. simpl. lia. }
  assert (Forall is_u8 w) as Hw8.
  { unfold w, zeros. rewrite !Forall_app. repeat split; [done|by constructor|].
    apply Forall_replicate. by unfold is_u8. }
  pose proof (le_val_range got Hg) as Hgr. pose proof (le_val_range w Hw8) as Hr.
  rewrite Hw in Hr. change (2 ^ (8 * Z.of_nat 4)) with (2 ^ 32) in Hr.
  rewrite (Z.mul_comm _ 8).
  assert (le_val w = le_val got + Z.shiftl b (8 * Z.of_nat (length got))) as Hv.
  { unfold w, zeros. rewrite !le_val_app, le_val_zeros. simpl le_val.
    rewrite Z.shiftl_mul_pow2 by lia. lia. }
  assert (0 <= Z.shiftl b (8 * Z.of_nat (length got))) as Hnn
    by (apply Z.shiftl_nonneg; unfold is_u8 in Hb; lia).
  rewrite (u32_id (Z.shiftl _ _)) by (unfold is_u32; lia).
  rewrite lor_disjoint_add by lia. rewrite <- Hv, u32_id by exact Hr.
  by apply le_bytes4_le_val.
Qed.

Lemma read_uint32_loop_eq k p q got buf :
  good (p :: q) -> Forall is_u8 got -> holds_word got buf -> length buf = buffer_size ->
  (length got <= 4)%nat -> (4 - length got <= k)%nat ->
  exists xs p' buf',
    read_uint32_loop k (p :: q) buf (Z.of_nat (length got)) =
      Ret (p' :: q, buf', Z.of_nat (length (got ++ xs))) /\
    flat (p :: q) = xs ++ flat (p' :: q) /\ good (p' :: q) /\ length buf' = buffer_size /\
    holds_word (got ++ xs) buf' /\ (length (got ++ xs) <= 4)%nat /\ Forall is_u8 (got ++ xs) /\
    (len p <> 0 -> (length got < 4)%nat -> xs <> []).
Proof.
  revert p got buf. induction k as [|k IH]; intros p got buf Hg H8 Hw Hb Hl Hk; cbn [read_uint32_loop].
  - exists [], p, buf. rewrite app_nil_r.
    rewrite (proj2 (Z.ltb_ge _ _)) by lia. rewrite andb_false_r.
    repeat (split; [done|]). lia.
  - destruct (negb (len p =? 0) && (Z.of_nat (length got) <? 4)) eqn:Hc.
    2: { exists [], p, buf. rewrite app_nil_r. repeat (split; [done|]).
         intros Hp Hlt. apply andb_false_iff in Hc as [?|?]; to_prop; lia. }
    apply andb_true_iff in Hc as [Hp Hlt]. to_prop.
    destruct (payload p) as [|b rest] eqn:Hpay; [unfold len in Hp; by rewrite Hpay in Hp|].
    destruct Hg as [Hs Hf8]. rewrite flat_cons, Hpay in Hf8. inversion Hf8; subst.
    destruct (pbuf_header_hide p 1) as (p' & Hh & Hp' & _);
      [by unfold is_u16|rewrite Hpay; simpl; lia|].
    change (- Z.of_nat 1) with (-1) in Hh. rewrite Hh, Hpay in *. cbn [of_outcome bind].
    rewrite (pbuf_get_at_eq (p :: q)) by (unfold is_u16; lia). rewrite flat_cons, Hpay.
    rewrite (holds_word_val got buf Hw). change (nth _ ((b :: rest) ++ _) 0) with b.
    rewrite word_step by (done || lia).
    set (w := (got ++ [b]) ++ zeros (4 - length (got ++ [b]))).
    assert (length w = 4%nat) as Hwl.
    { unfold w, zeros. rewrite length_app, length_replicate, length_app. simpl. lia. }
    destruct (store buf 0 w) as [buf'|] eqn:Hst.
    2: { rewrite store_in_bounds in Hst; [done|]. rewrite Hwl, Hb. unfold buffer_size. lia. }
    cbn [defined bind].
    assert (u32 (Z.of_nat (length got) + 1) = Z.of_nat (length (got ++ [b]))) as ->.
    { rewrite length_app, u32_id by (unfold is_u32; lia). simpl. lia. }
    destruct (IH p' (got ++ [b]) buf') as (xs & p2 & buf2 & -> & Hf & Hg2 & Hb2 & Hw2 & Hl2 & H82 & _).
    + split.
      * inversion Hs as [|? ? Hlen]; subst. constructor; [|done]. unfold len in Hlen |- *.
        rewrite Hpay in Hlen. rewrite Hp', length_drop. lia.
      * by rewrite flat_cons, Hp'.
    + apply Forall_app; auto.
    + unfold holds_word. pose proof (store_take _ _ _ _ Hst) as Ht.
      rewrite Hwl in Ht. exact Ht.
    + rewrite <- Hb. by eapply store_length.
    + rewrite length_app; simpl; lia.
    + rewrite length_app; simpl; lia.
    + exists (b :: xs), p2, buf2. rewrite <- app_assoc in *. simpl in *.
      split; [done|]. split; [|by repeat (split; [done|])].
      by rewrite <- Hf, (flat_cons p'), Hp'.
Qed.

Lemma read_uint32_eq p q got buf :
  good (p :: q) -> Forall is_u8 got -> (got <> [] -> holds_word got buf) ->
  length buf = buffer_size -> (length got < 4)%nat ->
  exists xs p' buf', let got' := got ++ xs in
    xvc_server_read_uint32 (p :: q) buf (Z.of_nat (length got)) =
      Ret (if decide (length got' = 4%nat) then XVC_STATUS_OK else XVC_STATUS_MORE_DATA_NEEDED,
           p' :: q, buf', Z.of_nat (length got')) /\
    flat (p :: q) = xs ++ flat (p' :: q) /\ good (p' :: q) /\ length buf' = buffer_size /\
    holds_word got' buf' /\ (length got' <= 4)%nat /\ Forall is_u8 got' /\
    (len p <> 0 -> xs <> []).
Proof.
  intros Hg H8 Hw Hb Hl. unfold xvc_server_read_uint32.
  assert (exists buf0, (if Z.of_nat (length got) =? 0 then defined (store buf 0 (le_bytes4 0))
      else Ret buf) = Ret (E := xvc) buf0 /\ holds_word got buf0 /\ length buf0 = buffer_size)
    as (buf0 & -> & Hw0 & Hb0).
  { destruct got as [|a got]; simpl.
    - pose proof (store_in_bounds buf 0 (le_bytes4 0)) as Hst.
      rewrite Hst by (rewrite Hb; simpl; unfold buffer_size; lia).
      eexists. split; [done|]. specialize (Hst ltac:(rewrite Hb; simpl; unfold buffer_size; lia)).
      split; [exact (store_take _ _ _ _ Hst)|]. rewrite <- Hb. by eapply store_length.
    - exists buf. split; [done|]. by split; [apply Hw|]. }
  cbn [bind].
  destruct (read_uint32_loop_eq 4 p q got buf0)
    as (xs & p' & buf' & -> & Hf & Hg' & Hb' & Hw' & Hl' & H8' & Hne); try (done || lia).
  exists xs, p', buf'. cbn [bind]. split; [|repeat (split; [done|]); auto with lia].
  do 5 f_equal. case_decide as Hd;
    [by rewrite (proj2 (Z.eqb_eq _ _)) by lia|by rewrite (proj2 (Z.eqb_neq _ _)) by lia].
Qed.

(** ** Shift vectors *)

Lemma bits_to_bytes_eq n :
  0 <= n <= XVC_SHIFT_VECTOR_MAX_LEN_IN_BITS ->
  xvc_server_bits_to_bytes n = Z.of_nat (vector_len n) /\ (vector_len n <= 512)%nat.
Proof.
  unfold XVC_SHIFT_VECTOR_MAX_LEN_IN_BITS, XVC_SHIFT_VECTOR_MAX_LEN_IN_BYTES.
  intros Hn. unfold xvc_server_bits_to_bytes, vector_len.
  rewrite u32_id by (unfold is_u32; lia).
  split; Z.to_euclidean_division_equations; lia.
Qed.

(** Taking [k] bytes of the head pbuf, which has as many, to the buffer. *)
Lemma take_head_eq p q got buf (k : nat) :
  good (p :: q) -> take (length got) buf = got -> (k <= length (payload p))%nat ->
  (length got + k <= length buf)%nat -> (k < Z.to_nat (2 ^ 15))%nat ->
  exists p' buf', let xs := take k (payload p) in
    pbuf_copy_partial (p :: q) (Z.of_nat k) 0 = Done (xs, Z.of_nat k) /\
    store buf (length got) xs = Some buf' /\
    pbuf_header p (s16 (- Z.of_nat k)) = Done (0, p') /\
    length xs = k /\ flat (p :: q) = xs ++ flat (p' :: q) /\ good (p' :: q) /\
    length buf' = length buf /\ take (length (got ++ xs)) buf' = got ++ xs.
Proof.
  intros [Hs H8] Hgot Hk Hb Hk15. set (xs := take k (payload p)).
  assert (length xs = k) as Hxs by (unfold xs; rewrite length_take; lia).
  rewrite pbuf_copy_partial_eq by (done || unfold is_u16; lia). cbv zeta.
  change (Z.to_nat 0) with 0%nat. rewrite drop_0, Nat2Z.id, flat_cons, take_app_le by done.
  fold xs. rewrite Hxs.
  destruct (store_length_take buf got xs) as (buf' & Hst & Hlen & Htake); [done|lia|].
  assert (s16 (- Z.of_nat k) = - Z.of_nat k) as ->.
  { unfold s16. destruct (decide (k = 0)%nat) as [-> |]; [done|]. apply signed_neg; lia. }
  destruct (pbuf_header_hide p k) as (p' & -> & Hp' & _); [unfold is_u16; lia|done|].
  exists p', buf'. repeat (split; [done|]). rewrite (flat_cons p'), Hp'.
  split; [unfold xs; by rewrite app_assoc, take_drop|]. split; [|done]. split.
  - constructor; [|by apply Forall_inv_tail in Hs]. apply Forall_inv in Hs.
    unfold len in Hs |- *. rewrite Hp', length_drop. lia.
  - rewrite flat_cons, Forall_app in H8. rewrite flat_cons, Hp', Forall_app.
    destruct H8. split; [by apply Forall_drop|done].
Qed.

Lemma read_data_eq p q n got buf :
  good (p :: q) -> take (length got) buf = got -> length buf = buffer_size ->
  0 <= n <= XVC_SHIFT_VECTOR_MAX_LEN_IN_BITS -> (length got <= 2 * vector_len n)%nat ->
  exists xs p' buf', let got' := got ++ xs in
    xvc_server_read_data_shift_vector (p :: q) n buf (Z.of_nat (length got)) =
      Ret (if decide (length got' = 2 * vector_len n)%nat
           then (XVC_STATUS_OK, p' :: q, buf', Z.of_nat (length got))
           else (XVC_STATUS_MORE_DATA_NEEDED, p' :: q, buf', Z.of_nat (length got'))) /\
    flat (p :: q) = xs ++ flat (p' :: q) /\ good (p' :: q) /\ length buf' = buffer_size /\
    take (length got') buf' = got' /\ (length got' <= 2 * vector_len n)%nat /\
    (len p <> 0 -> (length got < 2 * vector_len n)%nat -> xs <> []).
Proof.
  intros Hg Hgot Hb Hn Hl. destruct (bits_to_bytes_eq n Hn) as [Hv Hv512].
  unfold xvc_server_read_data_shift_vector, c_assert.
  rewrite (proj2 (Z.leb_le _ _)) by lia. rewrite Hv. cbn [bind].
  set (k := (2 * vector_len n - length got)%nat).
  assert (u16 (Z.of_nat (vector_len n) * 2 - Z.of_nat (length got)) = Z.of_nat k) as ->.
  { rewrite u16_id; unfold is_u16; lia. }
  destruct (Z.leb_spec (Z.of_nat k) (len p)) as [Hle|Hgt]; unfold len in *.
  - destruct (take_head_eq p q got buf k)
      as (p' & buf' & Hc & Hst & Hh & Hxs & Hf & Hg' & Hb' & Ht');
      [done|done|lia|unfold buffer_size in *; lia|lia|].
    exists (take k (payload p)), p', buf'.
    rewrite Hc. cbn [of_outcome bind]. rewrite Nat2Z.id, Hst. cbn [defined bind].
    rewrite Hh. cbn [of_outcome bind]. rewrite length_app, Hxs in *.
    rewrite decide_True by lia.
    repeat (split; [first [done|congruence|lia]|]).
    intros ? ? E. rewrite E in Hxs. simpl in Hxs. lia.
  - destruct (take_head_eq p q got buf (length (payload p)))
      as (p' & buf' & Hc & Hst & Hh & Hxs & Hf & Hg' & Hb' & Ht');
      [done|done|lia|unfold buffer_size in *; lia|lia|].
    rewrite firstn_all in Hc, Hst, Hf, Ht'. exists (payload p), p', buf'.
    rewrite Hc. cbn [of_outcome bind]. rewrite Nat2Z.id, Hst. cbn [defined bind].
    rewrite Hh. cbn [of_outcome bind]. rewrite length_app in *.
    rewrite decide_False by lia. rewrite u32_id by (unfold is_u32; lia). rewrite Nat2Z.inj_add.
    repeat (split; [first [done|congruence|lia]|]).
    intros ? ? E. rewrite E in *. simpl in *. lia.
Qed.

(** ** Simulation of one round *)

(** No pbuf of the chain ends in the middle of a command word, or behind a
    violation of the protocol, with bytes behind it. *)
Fixpoint uncut (ps : pstate) (q : list pbuf) : Prop :=
  match q with
  | [] => True
  | p :: q =>
    match next_bytes ps (payload p) with
    | Some ps' => (payload p = [] \/ flat q = [] \/ resting ps') /\ uncut ps' q
    | None => flat q = []
    end
  end.

Lemma uncut_empty ps p q : payload p = [] -> uncut ps (p :: q) -> uncut ps q.
Proof. cbn [uncut]. intros ->. cbn [next_bytes]. tauto. Qed.

Lemma uncut_after ps p q xs p' ps' : payload p = xs ++ payload p' -> next_bytes ps xs = Some ps' ->
  uncut ps (p :: q) -> uncut ps' (p' :: q).
Proof.
  cbn [uncut]. intros -> Hxs. rewrite next_bytes_app, Hxs. cbn [mbind option_bind].
  destruct (next_bytes ps' (payload p')); [|done]. intros [Hr Hq]. split; [|done].
  destruct Hr as [E|?]; [left; by apply app_eq_nil in E as [_ ?]|by right].
Qed.

Lemma cut_word_cut w p q : payload p <> [] -> cut_word w (p :: q) -> ~ uncut (PCmd w) (p :: q).
Proof.
  intros Hp [Hq Hs]. cbn [uncut]. destruct (next_bytes (PCmd w) (payload p)) as [ps'|] eqn:Hn; [|done].
  apply word_under_way in Hn as ->; [|done]. intros [[?|[?|Hr]] _]; [done..|]. cbn in Hr.
  by apply app_eq_nil in Hr as [_ ?].
Qed.

Section simulation.
Context `{JtagShifter} (ok : halt -> Prop).

(** A round goes on with the rest of the packet in a state that represents
    the specification's, or leaves where the specification gives up. *)
Definition round_post (tl : list pbuf) (ys : list Z)
    (r : round + xvc_status_t * conn_state) (o : option pstate) : Prop :=
  match r with
  | inl (s, st, q) =>
    s <> XVC_STATUS_ERROR /\ (exists p, q = p :: tl) /\ flat q = ys /\ good q /\
    exists ps, o = Some ps /\ abs st ps
  | inr (s, _) => s = XVC_STATUS_ERROR /\ o = None
  end.

(** The program consumes some of the packet and does what [sp] does on it. *)
Definition simulates (m : prog xvc (round + xvc_status_t * conn_state)) (q : list pbuf)
    (sp : list Z -> prog xvc (option pstate)) (nonempty : Prop) : Prop :=
  exists xs ys, flat q = xs ++ ys /\ (nonempty -> xs <> []) /\
    prog_rel ok (round_post (tail q) ys) m (sp xs).

Lemma simulates_mono m q sp sp' (ne ne' : Prop) :
  simulates m q sp ne -> (ne' -> ne) -> (forall xs, sp xs ≈ sp' xs) -> simulates m q sp' ne'.
Proof.
  intros (xs & ys & Hf & Hne & Hm) Himp Heq. exists xs, ys. split; [done|].
  split; [by auto|]. by rewrite <- Heq.
Qed.

(** One program after the bytes [xs1] have been taken off the packet. *)
Lemma simulates_after m q q' xs1 sp (ne : Prop) :
  flat q = xs1 ++ flat q' -> tail q' = tail q -> (ne -> xs1 <> []) ->
  simulates m q' (fun xs => sp (xs1 ++ xs)) False -> simulates m q sp ne.
Proof.
  intros Hf Ht Hne (xs & ys & Hf' & _ & Hm). exists (xs1 ++ xs), ys.
  split; [by rewrite Hf, Hf', app_assoc|]. split; [|by rewrite <- Ht].
  intros Hn E. apply (f_equal length) in E. rewrite length_app in E. simpl in E.
  apply (Hne Hn). destruct xs1; [done|simpl in E; lia].
Qed.

Lemma simulates_leave st q sp xs ys (ne : Prop) :
  flat q = xs ++ ys -> (ne -> xs <> []) -> sp xs ≈ Ret None ->
  simulates (leave XVC_STATUS_ERROR st) q sp ne.
Proof. intros Hf Hne Hsp. exists xs, ys. split; [done|]. split; [done|]. by rewrite Hsp. Qed.

Lemma simulates_again s st p q p' xs sp (ne : Prop) ps :
  flat (p :: q) = xs ++ flat (p' :: q) -> (ne -> xs <> []) -> good (p' :: q) ->
  s <> XVC_STATUS_ERROR -> abs st ps -> sp xs ≈ Ret (Some ps) ->
  simulates (again s st (p' :: q)) (p :: q) sp ne.
Proof.
  intros Hf Hne Hg Hs Ha Hsp. exists xs, (flat (p' :: q)).
  split; [done|]. split; [done|]. rewrite Hsp. simpl. repeat (split; [by eauto|]). by eauto.
Qed.

Lemma abs_ready buf :
  length buf = buffer_size ->
  abs (ConnState XVC_COMMAND_NOT_SET buf 0 XVC_SHIFT_VECTOR_LENGTH_NOT_SET) (PCmd []).
Proof.
  intros Hb. apply (abs_cmd [] buf); [done| |apply (bool_decide_unpack _); vm_compute; exact I|done].
  exists XVC_COMMAND_STR_SHIFT. split; [|apply prefix_nil].
  unfold commands. rewrite !elem_of_cons. auto.
Qed.

(** A reply followed by readiness for the next command. *)
Lemma simulates_reply data s st st' p q :
  good (p :: q) -> s <> XVC_STATUS_ERROR -> abs st (PCmd []) ->
  prog_rel ok (round_post q (flat (p :: q)))
    (let! err := xcall (NetconnWrite data) in
     if negb (err =? ERR_OK) then leave XVC_STATUS_ERROR st' else again s st (p :: q))
    (reply data (PCmd [])).
Proof.
  intros Hg Hs Ha. exists eq_refl. intros err. simpl.
  destruct (err =? ERR_OK); simpl; [|done].
  repeat (split; [by eauto|]). by eauto.
Qed.

(** *** The parsers of the specification, several bytes at a time *)

Lemma feed_settck got xs :
  (length got < 4)%nat -> (length (got ++ xs) <= 4)%nat ->
  spec_feed (PSettck got) xs ≈ spec_settck (got ++ xs).
Proof.
  intros Hl Hx. rewrite <- (feed_gulp PSettck spec_settck xs got); [|done|].
  - unfold spec_settck at 1. by rewrite decide_False by lia.
  - intros zs [z ->] Hne. unfold spec_settck. rewrite decide_False; [done|].
    rewrite !length_app in *. destruct z; [by rewrite app_nil_r in Hne|simpl in Hx; lia].
Qed.

Lemma feed_len got xs :
  (length got < 4)%nat -> (length (got ++ xs) <= 4)%nat ->
  spec_feed (PShiftLen got) xs ≈ spec_len (got ++ xs).
Proof.
  intros Hl Hx. rewrite <- (feed_gulp PShiftLen spec_len xs got); [|done|].
  - unfold spec_len at 1. by rewrite decide_False by lia.
  - intros zs [z ->] Hne. unfold spec_len. rewrite decide_False; [done|].
    rewrite !length_app in *. destruct z; [by rewrite app_nil_r in Hne|simpl in Hx; lia].
Qed.

Lemma feed_data n got xs :
  (length (got ++ xs) <= 2 * vector_len n)%nat ->
  bind (spec_data n got) (and_feed xs) ≈ spec_data n (got ++ xs).
Proof.
  intros Hx. apply (feed_gulp (PShiftData n) (spec_data n) xs got); [done|].
  intros zs [z ->] Hne. unfold spec_data. rewrite decide_False; [done|].
  rewrite !length_app in *. destruct z; [by rewrite app_nil_r in Hne|simpl in Hx; lia].
Qed.

(** *** The commands *)

Lemma take_vectors (k : nat) (got buf : list Z) :
  length got = (2 * k)%nat -> take (length got) buf = got ->
  take k buf = take k got /\ take k (drop k buf) = drop k got.
Proof.
  intros Hl Ht. split.
  - rewrite <- Ht, take_take. f_equal. lia.
  - rewrite <- Ht, skipn_firstn_comm. f_equal. lia.
Qed.

Lemma shift_data_sim p q got buf n :
  good (p :: q) -> take (length got) buf = got -> length buf = buffer_size ->
  0 <= n <= XVC_SHIFT_VECTOR_MAX_LEN_IN_BITS -> (length got <= 2 * vector_len n)%nat ->
  simulates (handle_shift_data (ConnState XVC_COMMAND_SHIFT buf (Z.of_nat (length got)) n) (p :: q))
    (p :: q) (fun xs => bind (spec_data n got) (and_feed xs))
    (len p <> 0 /\ (length got < 2 * vector_len n)%nat).
Proof.
  intros Hg Ht Hb Hn Hl. destruct (bits_to_bytes_eq n Hn) as [Hv Hv512].
  unfold handle_shift_data. cbn [shift_vector_length_in_bits buffer buffer_len].
  rewrite (proj2 (Z.ltb_ge _ _)) by lia.
  destruct (read_data_eq p q n got buf)
    as (xs & p' & buf' & Hrd & Hf & Hg' & Hb' & Ht' & Hl' & Hne); [done..|].
  assert (len p <> 0 /\ (length got < 2 * vector_len n)%nat -> xs <> []) as Hne' by (intros []; auto).
  rewrite Hrd. clear Hrd. case_decide as Hd; cbn [bind].
  2: { apply (simulates_again _ _ _ _ p' xs _ _ (PShiftData n (got ++ xs))); [done..| |].
       - apply abs_data; [done|done|lia|done].
       - rewrite feed_data by done. unfold spec_data. by rewrite decide_False. }
  exists xs, (flat (p' :: q)). split; [done|]. split; [done|].
  rewrite feed_data by done. unfold spec_data, spec_shift. rewrite decide_True by done.
  rewrite Hv, Nat2Z.id. destruct (take_vectors (vector_len n) (got ++ xs) buf') as [-> ->]; [done..|].
  eapply prog_rel_bind_returns; [apply do_shift_length|].
  intros [s tdo] Htdo. cbn [snd] in Htdo. rewrite length_drop in Htdo.
  destruct (store_length_take buf' (take (vector_len n) buf') tdo) as (buf2 & Hst & Hb2 & Ht2).
  { rewrite length_take. f_equal. unfold buffer_size in *. lia. }
  { rewrite length_take. unfold buffer_size in *. lia. }
  rewrite length_take, Nat.min_l in Hst by (unfold buffer_size in *; lia).
  rewrite Hst. cbn [defined bind].
  destruct (decide (s = XVC_STATUS_OK)) as [-> |Hs].
  - rewrite decide_False by auto.
    assert (take (vector_len n) (drop (vector_len n) buf2) = tdo) as ->.
    { rewrite firstn_skipn_comm. rewrite length_app, length_take, Nat.min_l in Ht2
        by (unfold buffer_size in *; lia).
      replace (vector_len n + vector_len n)%nat with (vector_len n + length tdo)%nat by lia.
      rewrite Ht2, drop_app_length'; [done|]. rewrite length_take. unfold buffer_size in *. lia. }
    apply simulates_reply; [done|done|]. apply abs_ready. congruence.
  - rewrite decide_True by done. by split.
Qed.

Lemma shift_sim st p q ps got :
  good (p :: q) -> abs st ps -> ps = PShiftLen got ->
  simulates (handle_shift st (p :: q)) (p :: q) (spec_feed ps) (len p <> 0).
Proof.
  intros Hg Ha ->. inversion Ha as [| |? buf Hb Hl H8 Hw|]; subst. clear Ha.
  unfold handle_shift. cbn [shift_vector_length_in_bits buffer buffer_len].
  rewrite Z.eqb_refl.
  destruct (read_uint32_eq p q got buf)
    as (xs & p' & buf' & -> & Hf & Hg' & Hb' & Hw' & Hl' & H8' & Hne); [done..|].
  case_decide as Hd; cbn [bind].
  2: { apply (simulates_again _ _ _ _ p' xs _ _ (PShiftLen (got ++ xs))); [done..| |].
       - apply abs_len; [done|lia|done|by intros _].
       - rewrite feed_len by done. unfold spec_len. by rewrite decide_False. }
  unfold with_length, with_buffer. cbn [current_command buffer buffer_len].
  rewrite (holds_word_val _ _ Hw').
  pose proof (le_val_range _ H8') as Hr.
  destruct (XVC_SHIFT_VECTOR_MAX_LEN_IN_BITS <? le_val (got ++ xs)) eqn:Hmax.
  { unfold handle_shift_data. cbn [shift_vector_length_in_bits]. rewrite Hmax.
    eapply simulates_leave; [done|done|]. rewrite feed_len by done.
    unfold spec_len. by rewrite decide_True, Hmax. }
  to_prop. apply (simulates_after _ _ (p' :: q) xs); [done|done|done|].
  eapply (simulates_mono _ _ _ _ _ _ (shift_data_sim p' q [] buf' _ Hg' _ Hb' _ _));
    [done|]. intros ys. rewrite spec_feed_app, feed_len by done.
  unfold spec_len. rewrite decide_True by done. by rewrite (proj2 (Z.ltb_ge _ _)) by lia.
  Unshelve. all: simpl; lia || done.
Qed.

Lemma data_sim st p q n got :
  good (p :: q) -> abs st (PShiftData n got) ->
  simulates (handle_shift st (p :: q)) (p :: q) (spec_feed (PShiftData n got)) (len p <> 0).
Proof.
  intros Hg Ha. inversion Ha as [| | |? ? buf Hb Hn Hl Ht]; subst.
  unfold handle_shift. cbn [shift_vector_length_in_bits].
  rewrite (proj2 (Z.eqb_neq _ _)) by
    (unfold XVC_SHIFT_VECTOR_LENGTH_NOT_SET, XVC_SHIFT_VECTOR_MAX_LEN_IN_BITS,
       XVC_SHIFT_VECTOR_MAX_LEN_IN_BYTES in *; lia).
  eapply simulates_mono; [apply shift_data_sim; [done|done|done|done|lia]|done|].
  intros xs. unfold spec_data. by rewrite decide_False by lia.
Qed.

Lemma settck_sim st p q got :
  good (p :: q) -> abs st (PSettck got) ->
  simulates (handle_settck st (p :: q)) (p :: q) (spec_feed (PSettck got)) (len p <> 0).
Proof.
  intros Hg Ha. inversion Ha as [|? buf Hb Hl H8 Hw| |]; subst.
  unfold handle_settck. cbn [buffer buffer_len].
  destruct (read_uint32_eq p q got buf)
    as (xs & p' & buf' & -> & Hf & Hg' & Hb' & Hw' & Hl' & H8' & Hne); [done..|].
  case_decide as Hd; cbn [bind].
  - exists xs, (flat (p' :: q)). split; [done|]. split; [done|].
    rewrite feed_settck by done. unfold spec_settck. rewrite decide_True by done.
    apply simulates_reply; [done|done|]. by apply abs_ready.
  - apply (simulates_again _ _ _ _ p' xs _ _ (PSettck (got ++ xs))); [done..| |].
    + apply abs_settck; [done|lia|done|by intros _].
    + rewrite feed_settck by done. unfold spec_settck. by rewrite decide_False.
Qed.

(** *** A round of the receive loop *)

Lemma word_done_sim st p q ps c buf :
  good (p :: q) -> length buf = buffer_size -> c <> XVC_COMMAND_NOT_SET ->
  st = ConnState c buf 0 XVC_SHIFT_VECTOR_LENGTH_NOT_SET -> ps = command_str c ->
  simulates (handle_command XVC_STATUS_OK st (p :: q)) (p :: q)
    (fun xs => bind (spec_word ps) (and_feed xs)) False.
Proof.
  intros Hg Hb Hc -> ->. unfold handle_command. cbn [current_command].
  destruct c; [|done|..].
  - exists [], (flat (p :: q)). split; [done|]. split; [done|].
    rewrite bind_ret_id by (by intros []). unfold spec_word. rewrite decide_True by done.
    apply simulates_reply; [done|done|]. by apply abs_ready.
  - eapply simulates_mono; [apply (settck_sim _ p q []); [done|]|done|].
    + apply (abs_settck [] buf); [done|simpl; lia|done|done].
    + intros xs. reflexivity.
  - eapply simulates_mono; [apply (shift_sim _ p q (PShiftLen []) []); [done| |done]|done|].
    + apply (abs_len [] buf); [done|simpl; lia|done|done].
    + intros xs. reflexivity.
Qed.

Lemma round_sim s st p q ps :
  good (p :: q) -> abs st ps -> len p <> 0 -> (~ uncut ps (p :: q) -> ok Hang) ->
  simulates (handle_round (s, st, p :: q)) (p :: q) (spec_feed ps) True.
Proof.
  intros Hg Ha Hp Hok. unfold handle_round.
  rewrite (proj2 (Z.eqb_neq _ _)) by done. cbn [andb].
  destruct ps as [w|got|got|n got].
  - inversion Ha as [? buf Hb Hv Hw Ht| | |]; subst.
    cbn [current_command buffer buffer_len]. rewrite decide_True by done.
    destruct (read_command_eq p q w buf)
      as [[-> Hq]|(xs & p' & buf' & r & -> & Hf & Hne & Hg' & Hb' & s' & c & -> & Ht' & Hr)];
      [done|done|by split|done|done|..].
    + exists (flat (p :: q)), []. rewrite app_nil_r. split; [done|]. split.
      * intros _ E. apply (f_equal length) in E. rewrite flat_cons, length_app in E.
        unfold len in Hp. simpl in E. lia.
      * left. apply Hok. apply cut_word_cut; [|done]. intros E. apply Hp. unfold len. by rewrite E.
    + simpl tail in *. cbn [bind]. destruct s'; simpl in Hr.
      * destruct Hr as [Hc Hr]. apply (simulates_after _ _ (p' :: q) xs); [done|done|by auto|].
        eapply simulates_mono; [eapply (word_done_sim _ p' q _ c buf'); done|done|].
        intros ys. rewrite spec_feed_app. rewrite spec_feed_word; [reflexivity|done|done|].
        exists (w ++ xs). split; [|done]. rewrite Hr. by apply command_str_in.
      * eapply simulates_leave; [done|by auto|].
        rewrite spec_feed_bad; [reflexivity|done|done|by auto|done].
      * destruct Hr as [Hv' Hw'].
        apply (simulates_again _ _ _ _ p' xs _ _ (PCmd (w ++ xs))); [done|by auto|done|done| |].
        -- by apply abs_cmd.
        -- rewrite spec_feed_word by done. by rewrite spec_word_open.
  - inversion Ha; subst. cbn [current_command]. rewrite decide_False by done.
    unfold handle_command. cbn [current_command].
    eapply simulates_mono; [by apply settck_sim|done|reflexivity].
  - inversion Ha; subst. cbn [current_command]. rewrite decide_False by done.
    unfold handle_command. cbn [current_command].
    eapply simulates_mono; [by eapply shift_sim|done|reflexivity].
  - inversion Ha; subst. cbn [current_command]. rewrite decide_False by done.
    unfold handle_command. cbn [current_command].
    eapply simulates_mono; [by apply data_sim|done|reflexivity].
Qed.

Definition receive_post (r : xvc_status_t * conn_state) (o : option pstate) : Prop :=
  match o with
  | Some ps => r.1 = XVC_STATUS_OK /\ abs r.2 ps
  | None => r.1 = XVC_STATUS_ERROR
  end.

Lemma receive_loop_sim n s st q ps :
  good q -> q <> [] -> abs st ps -> (~ uncut ps q -> ok Hang) -> s <> XVC_STATUS_ERROR ->
  (length (flat q) + length q < n)%nat ->
  prog_rel ok receive_post (iter n handle_round (s, st, q)) (spec_feed ps (flat q)).
Proof.
  revert s st q ps. induction n as [|n IH]; intros s st q ps Hg Hq Ha Hok Hs Hn; [lia|].
  destruct q as [|p q]; [done|]. cbn [iter].
  destruct (decide (len p = 0)) as [Hp|Hp].
  - assert (payload p = []) as Hpay by (apply nil_length_inv; unfold len in Hp; lia).
    unfold handle_round. rewrite (proj2 (Z.eqb_eq _ _)) by done.
    rewrite flat_cons, Hpay in *. simpl app in *.
    destruct q as [|p' q]; simpl andb; cbn [bind leave again].
    + change (flat []) with (@nil Z). simpl. destruct s; [|done|]; by split.
    + apply IH; [|done|done| |done|simpl in *; lia].
      2: { intros Hc. apply Hok. intros Hu. apply Hc. by eapply uncut_empty. }
      destruct Hg as [Hsm H8]. split; [by apply Forall_inv_tail in Hsm|].
      by rewrite flat_cons, Hpay in H8.
  - destruct (round_sim s st p q ps Hg Ha Hp Hok) as (xs & ys & Hf & Hne & Hm).
    rewrite Hf, spec_feed_app. eapply prog_rel_bind; [apply prog_rel_returns_r; [exact Hm|apply spec_feed_next]|].
    intros [[[s' st'] q']|[s' st']] o [Hpost Hnext]; simpl in Hpost.
    + destruct Hpost as (Hs' & [p' ->] & Hys & Hg' & ps' & -> & Ha').
      destruct Hnext as [|Hnext]; [done|].
      simpl and_feed. rewrite <- Hys. apply IH; try done.
      1: { intros Hc. apply Hok. intros Hu. apply Hc. apply (uncut_after ps p q xs p'); [|done|done].
           rewrite <- Hys in Hf. simpl in Hf. rewrite !flat_cons, app_assoc in Hf. by apply app_inv_tail in Hf. }
      rewrite Hys. rewrite Hf, length_app in Hn. specialize (Hne I). simpl in *.
      destruct xs; [done|simpl in Hn; lia].
    + by destruct Hpost as [-> ->].
Qed.
End simulation.

(** ** Totality of the specification *)

Definition pstate_ok (ps : pstate) : Prop :=
  match ps with
  | PShiftLen got => Forall is_u8 got
  | PShiftData n got =>
    0 <= n <= XVC_SHIFT_VECTOR_MAX_LEN_IN_BITS /\ (length got < 2 * vector_len n)%nat
  | _ => True
  end.

Definition option_ok (o : option pstate) : Prop :=
  match o with Some ps => pstate_ok ps | None => True end.

Lemma abs_ok st ps : abs st ps -> pstate_ok ps.
Proof. by inversion 1. Qed.

Section spec_total.
Context `{JtagShifter}.

Lemma reply_total data ps :
  pstate_ok ps -> total (reply data ps) /\ returns option_ok (reply data ps).
Proof. intros Hps. split; intros err; [done|]. simpl. by destruct (_ =? _). Qed.

Lemma spec_data_total n got :
  0 <= n <= XVC_SHIFT_VECTOR_MAX_LEN_IN_BITS -> (length got <= 2 * vector_len n)%nat ->
  total (spec_data n got) /\ returns option_ok (spec_data n got).
Proof.
  intros Hn Hl. unfold spec_data, spec_shift. case_decide as Hd.
  - split.
    + apply total_seq.
      * apply do_shift_total; [done|rewrite length_drop; lia|rewrite length_take; lia].
      * intros [s tdo]. case_decide; [|done]. by apply reply_total.
    + eapply returns_bind; [apply returns_any|]. intros [s tdo] _. case_decide; [|done].
      by apply reply_total.
  - split; [done|]. simpl. split; [done|lia].
Qed.

Lemma spec_byte_total ps b :
  pstate_ok ps -> is_u8 b -> total (spec_byte ps b) /\ returns option_ok (spec_byte ps b).
Proof.
  intros Hps Hb. destruct ps as [w|got|got|n got]; simpl in *.
  - unfold spec_word. repeat case_decide; try (by apply reply_total); split; try done. constructor.
  - unfold spec_settck. case_decide; [by apply reply_total|done].
  - assert (Forall is_u8 (got ++ [b])) as H8 by (apply Forall_app; auto).
    unfold spec_len. case_decide; [|done]. split_tests; [done|]. to_prop.
    apply spec_data_total; [|simpl; lia].
    pose proof (le_val_range _ H8). lia.
  - destruct Hps as [Hn Hl]. apply spec_data_total; [done|].
    rewrite length_app. simpl. lia.
Qed.

Lemma spec_feed_total ps bs : pstate_ok ps -> Forall is_u8 bs -> total (spec_feed ps bs).
Proof.
  intros Hps Hbs. revert ps Hps. induction Hbs as [|b bs Hb _ IH]; intros ps Hps; [done|].
  destruct (spec_byte_total ps b Hps Hb) as [Ht Hr].
  simpl. eapply total_bind; [exact Ht|exact Hr|]. intros [ps'|] Ho; [by apply IH|done].
Qed.
End spec_total.

(** ** Segments of a stream *)

(** A segment as the stack delivers it: one pbuf. *)
Definition segment (bs : list Z) : pbuf :=
  Pbuf PBUF_POOL [] bs (Z.of_nat (length bs)) 1.

Definition segment_ok (bs : list Z) : Prop :=
  Forall is_u8 bs /\ Z.of_nat (length bs) < 2 ^ 16.

Lemma segment_good bs : segment_ok bs -> good [segment bs].
Proof.
  intros [H8 Hl]. split; [by repeat constructor|]. unfold flat. simpl. by rewrite app_nil_r.
Qed.

(** Consecutive segments, as the server task hands them on until one fails. *)
Fixpoint receive_all `{JtagShifter} (st : conn_state) (segs : list (list pbuf))
    : prog xvc (xvc_status_t * conn_state) :=
  match segs with
  | [] => Ret (XVC_STATUS_OK, st)
  | q :: segs =>
    let! (status, st) := xvc_server_handle_receive st q in
    if decide (status = XVC_STATUS_OK) then receive_all st segs else Ret (status, st)
  end.

Section streams.
Context `{JtagShifter}.

Lemma handle_receive_sim ok st q ps :
  good q -> q <> [] -> abs st ps -> (~ uncut ps q -> ok Hang) ->
  prog_rel ok receive_post (xvc_server_handle_receive st q) (spec_feed ps (flat q)).
Proof.
  intros Hg Hq Ha Hok. unfold xvc_server_handle_receive, receive_fuel.
  apply receive_loop_sim; try done. lia.
Qed.

Lemma flat_segment bs : flat [segment bs] = bs.
Proof. unfold flat. simpl. apply app_nil_r. Qed.

Lemma uncut_single ps p : uncut ps [p].
Proof. cbn [uncut]. destruct (next_bytes ps (payload p)); [|done]. split; [right; by left|done]. Qed.

(** A received segment: a nonempty chain of pbufs. *)
Definition chain_ok (q : list pbuf) : Prop := good q /\ q <> [].

(** No command word is cut by the end of a pbuf within a segment; a word may be
    cut by the end of a segment. *)
Fixpoint uncut_stream (ps : pstate) (segs : list (list pbuf)) : Prop :=
  match segs with
  | [] => True
  | q :: segs =>
    uncut ps q /\ match next_bytes ps (flat q) with Some ps' => uncut_stream ps' segs | None => True end
  end.

Lemma receive_all_sim (ok : halt -> Prop) st segs ps :
  Forall chain_ok segs -> abs st ps -> (~ uncut_stream ps segs -> ok Hang) ->
  prog_rel ok receive_post (receive_all st segs) (spec_feed ps (concat (map flat segs))).
Proof.
  intros Hs. revert st ps. induction Hs as [|q segs [Hq Hne] _ IH]; intros st ps Ha Hok; simpl; [done|].
  rewrite spec_feed_app. eapply prog_rel_bind.
  - apply prog_rel_returns_r; [|apply spec_feed_next]. apply handle_receive_sim; [done..|].
    intros Hc. apply Hok. cbn [uncut_stream]. tauto.
  - intros [status st'] [ps'|] [Hpost Hnext]; simpl in *.
    + destruct Hpost as [-> Ha']. destruct Hnext as [|Hnext]; [done|]. rewrite decide_True by done.
      apply IH; [done|]. intros Hc. apply Hok. rewrite <- Hnext. tauto.
    + by rewrite Hpost, decide_False.
Qed.
End streams.

(** The first step of a command split over two pbufs. *)
Lemma take_bytes_straddle p q w buf want :
  good (p :: q) -> take (length w) buf = w -> 0 <= want < 2 ^ 15 ->
  (length w + Z.to_nat want <= length buf)%nat -> Z.of_nat (length buf) < 2 ^ 16 ->
  (length (payload p) < Z.to_nat want <= length (flat (p :: q)))%nat ->
  take_bytes (p :: q) buf (Z.of_nat (length w)) want = Halt Hang.
Proof.
  intros Hg Hw Hwant Hb Hl Hst.
  destruct (take_bytes_eq p q w buf want) as [[? _]|(p' & buf' & _ & _ & _ & _ & _ & _ & Hle)];
    try done.
  rewrite length_take in Hle. lia.
Qed.

(** A connection that expects a command, with any buffer contents. *)
Definition ready (buf : list Z) : conn_state :=
  ConnState XVC_COMMAND_NOT_SET buf 0 XVC_SHIFT_VECTOR_LENGTH_NOT_SET.

Lemma branch_straddle c p q buf :
  c <> XVC_COMMAND_NOT_SET -> c <> XVC_COMMAND_SHIFT ->
  good (p :: q) -> length buf = buffer_size -> take 6 buf = take 6 (command_str c) ->
  (length (payload p) < length (command_str c) - 6 <= length (flat (p :: q)))%nat ->
  read_command_branch (p :: q) buf 6 = Halt Hang.
Proof.
  intros Hc Hns Hg Hb Ht Hl.
  assert (length (take 6 (command_str c)) = 6%nat) as H6 by (by destruct c).
  destruct (take_two (take 6 (command_str c)) buf) as (a & b & t & Hw & H0 & H1);
    [lia|by rewrite H6|].
  pose proof (take_bytes_straddle p q (take 6 (command_str c)) buf
    (Z.of_nat (length (command_str c)) - 6) Hg) as Hst.
  rewrite H6 in Hst. unfold buffer_size in Hb.
  assert (length (command_str c) <= 8)%nat as H8 by (destruct c; simpl; lia).
  specialize (Hst Ht ltac:(lia) ltac:(lia) ltac:(lia) ltac:(lia)).
  unfold read_command_branch, byte_at. change (Z.to_nat 0) with 0%nat. change (Z.to_nat 1) with 1%nat.
  rewrite H0, H1. cbn [defined bind]. unfold read_command_rest.
  change (Z.of_nat 6) with 6 in Hst.
  destruct c; try done; injection Hw as <- <- _; cbn [Z.eqb Z.ltb]; simpl Z.compare.
  - change (Z.of_nat (length (command_str XVC_COMMAND_GETINFO)))
      with XVC_COMMAND_STR_GETINFO_LEN in Hst. simpl. by rewrite Hst.
  - change (Z.of_nat (length (command_str XVC_COMMAND_SETTCK)))
      with XVC_COMMAND_STR_SETTCK_LEN in Hst. simpl. by rewrite Hst.
Qed.

Lemma read_command_straddle c a b rest buf :
  c <> XVC_COMMAND_NOT_SET -> command_str c = a ++ b -> a <> [] -> b <> [] ->
  segment_ok (b ++ rest) -> length buf = buffer_size ->
  xvc_server_read_command [segment a; segment (b ++ rest)] buf 0 = Halt Hang.
Proof.
  intros Hc Hab Ha Hb Hseg Hbuf.
  assert (length a + length b = length (command_str c))%nat as Hlen
    by (by rewrite Hab, length_app).
  assert (0 < length a /\ 0 < length b)%nat as [Hla Hlb]
    by (destruct a, b; try done; simpl; lia).
  assert (6 <= length (command_str c) <= 8)%nat as H68 by (destruct c; simpl; try done; lia).
  assert (Forall is_u8 a) as Ha8.
  { assert (Forall is_u8 (command_str c)) as Hc8
      by (destruct c; repeat constructor; unfold is_u8; lia).
    rewrite Hab in Hc8. by apply Forall_app in Hc8 as [? _]. }
  assert (flat [segment a; segment (b ++ rest)] = command_str c ++ rest) as Hflat.
  { unfold flat. simpl. by rewrite app_nil_r, app_assoc, Hab. }
  assert (good [segment a; segment (b ++ rest)]) as Hg.
  { destruct Hseg as [Hs8 Hsl]. split.
    - repeat constructor; unfold len; simpl; lia.
    - rewrite Hflat, Hab, <- app_assoc. by apply Forall_app. }
  unfold buffer_size in *.
  unfold xvc_server_read_command, c_assert. simpl recv_len.
  rewrite (proj2 (Z.eqb_neq _ _)) by (unfold len; simpl; lia). cbn [negb bind].
  change (0 <? XVC_COMMAND_STR_MIN_LEN) with true. cbv iota.
  destruct (take_bytes_eq (segment a) [segment (b ++ rest)] [] buf 6)
    as [[Hh _]|(p' & buf' & Hok & Hf & Hg' & Hb' & Ht' & Hp' & Hle)];
    [done|done|lia|simpl; lia|lia| |].
  { change (Z.of_nat (length [])) with 0 in Hh. change (XVC_COMMAND_STR_MIN_LEN - 0) with 6. by rewrite Hh. }
  change (XVC_COMMAND_STR_MIN_LEN - 0) with 6. change (Z.of_nat (length [])) with 0 in Hok.
  rewrite Hok. clear Hok. cbn [bind].
  rewrite app_nil_l, Hflat in *. change (Z.to_nat 6) with 6%nat in *.
  rewrite take_app_le in * by lia.
  assert (length (take 6 (command_str c)) = 6)%nat as H6 by (rewrite length_take; lia).
  rewrite H6 in *. simpl payload in *. cbn [negb Z.eqb Z.of_nat Pos.of_succ_nat bind].
  simpl. apply (branch_straddle c); [done| |done|unfold buffer_size; lia|done|].
  - intros ->. simpl in Hlen. lia.
  - rewrite Hp', length_drop. split; [lia|]. rewrite flat_cons, Hp', length_app, length_drop.
    unfold flat. simpl. rewrite !length_app. simpl. lia.
Qed.

Definition empty_buffer : list Z := replicate buffer_size 0.

Lemma ready_abs : abs (ready empty_buffer) (PCmd []).
Proof. apply abs_ready. by apply length_replicate. Qed.

Section properties.
Context `{JtagShifter}.

(** C1: the receive path refines the XVC protocol.  For every connection state that
    represents a parser state and every received segment, in one pbuf or in a
    chain of them, [xvc_server_handle_receive] makes exactly the calls (replies,
    shifts), with exactly the results, that the byte-at-a-time automaton makes on
    the bytes of the segment; it returns XVC_STATUS_OK with a state that
    represents the automaton's, and XVC_STATUS_ERROR exactly when the protocol is
    violated, a reply cannot be written or a shift fails.  The one exception: it
    may stop returning, and only where a pbuf of the chain ends, with bytes behind
    it, in the middle of a command word or behind a violation
    ([straddling_command_hangs]); numbers and vectors may be cut anywhere, and a
    segment in one pbuf is never such a case. *)
Theorem receive_refines_protocol st ps q :
  good q -> q <> [] -> abs st ps ->
  prog_rel (fun h => h = Hang /\ ~ uncut ps q) receive_post
    (xvc_server_handle_receive st q) (spec_feed ps (flat q)).
Proof. intros Hg Hq Ha. by apply handle_receive_sim. Qed.

(** C31: the server does not see how TCP cuts the stream into segments: handing
    the segments of any cut of a byte stream to the receive path one after the
    other, each in one pbuf or in a chain, is equivalent to running the automaton
    over the whole stream, across commands, numbers and vectors that straddle
    segments; it may only stop returning where a pbuf within a segment ends in
    the middle of a command word, or behind a violation. *)
Theorem receive_any_segmentation st ps segs :
  Forall chain_ok segs -> abs st ps ->
  prog_rel (fun h => h = Hang /\ ~ uncut_stream ps segs) receive_post
    (receive_all st segs) (spec_feed ps (concat (map flat segs))).
Proof. intros Hs Ha. by apply receive_all_sim. Qed.

(** It does stop: whenever the boundary between two pbufs of a chain
    falls inside a command word, [pbuf_copy_partial] reads across it but
    [pbuf_header] is asked to move the first pbuf's payload beyond its end, and
    the failing LWIP_ERROR loops for ever. *)
Theorem straddling_command_hangs c a b rest buf :
  c <> XVC_COMMAND_NOT_SET -> command_str c = a ++ b -> a <> [] -> b <> [] ->
  segment_ok (b ++ rest) -> length buf = buffer_size ->
  xvc_server_handle_receive (ready buf) [segment a; segment (b ++ rest)] = Halt Hang.
Proof.
  intros Hc Hab Ha Hb Hs Hbuf. unfold xvc_server_handle_receive, receive_fuel.
  cbn [iter]. unfold handle_round at 1.
  rewrite (proj2 (Z.eqb_neq _ _)) by (unfold len; destruct a; done).
  cbn [andb current_command ready buffer buffer_len].
  rewrite decide_True by done. by rewrite (read_command_straddle c).
Qed.

(** C39: the receive path always returns on a single-pbuf segment: no [assert]
    fails, no loop is endless, the loop's fuel suffices, no access leaves the
    1024-byte buffer, whatever the network and the shifted device answer. *)
Theorem receive_total st ps bs :
  segment_ok bs -> abs st ps -> total (xvc_server_handle_receive st [segment bs]).
Proof.
  intros Hs Ha. pose proof (handle_receive_sim never st [segment bs] ps) as Hh.
  rewrite flat_segment in Hh. eapply total_rel; [apply Hh; try done; [by apply segment_good|]|].
  { intros Hc. by apply Hc, uncut_single. }
  apply spec_feed_total; [by eapply abs_ok|apply Hs].
Qed.
End properties.

(** "getinfo:" followed by the first half of "shift:". *)
Definition sample_segment : list Z := XVC_COMMAND_STR_GETINFO ++ [115; 104; 105].

Lemma sample_segment_ok : segment_ok sample_segment.
Proof. split; [|done]. repeat constructor; by unfold is_u8. Qed.

(** A period that is cut by the end of the first pbuf, then a command word that
    is cut by the end of the segment. *)
Definition sample_chain : list pbuf :=
  [segment (XVC_COMMAND_STR_SETTCK ++ [100; 0]); segment ([0; 0] ++ XVC_COMMAND_STR_GETINFO ++ [115; 104; 105])].

Lemma sample_chain_ok : chain_ok sample_chain.
Proof. split; [|done]. split; [by repeat constructor|]. repeat constructor; by unfold is_u8. Qed.

Lemma receive_refines_protocol_witness :
  prog_rel (fun h => h = Hang /\ ~ uncut (PCmd []) sample_chain) receive_post
    (xvc_server_handle_receive (ready empty_buffer) sample_chain)
    (spec_feed (PCmd []) (flat sample_chain)) /\ uncut (PCmd []) sample_chain.
Proof.
  split; [apply receive_refines_protocol; [apply sample_chain_ok..|apply ready_abs]|].
  cbn. split; [by right; right|]. split; [by right; left|done].
Defined.

Lemma receive_any_segmentation_witness :
  prog_rel (fun h => h = Hang /\ ~ uncut_stream (PCmd []) [sample_chain; [segment [102; 116; 58]]]) receive_post
    (receive_all (ready empty_buffer) [sample_chain; [segment [102; 116; 58]]])
    (spec_feed (PCmd []) (flat sample_chain ++ [102; 116; 58] ++ [])).
Proof.
  apply (receive_any_segmentation _ _ [sample_chain; [segment [102; 116; 58]]]); [|apply ready_abs].
  constructor; [apply sample_chain_ok|]. constructor; [|done].
  split; [|done]. apply segment_good. split; [|done]. repeat constructor; by unfold is_u8.
Defined.

Lemma straddling_command_hangs_witness :
  xvc_server_handle_receive (ready empty_buffer)
    [segment [103; 101]; segment [116; 105; 110; 102; 111; 58]] = Halt Hang.
Proof.
  apply (straddling_command_hangs XVC_COMMAND_GETINFO [103; 101] [116; 105; 110; 102; 111; 58] []);
    try done.
  split; [|done]. repeat constructor; by unfold is_u8.
Defined.

Lemma receive_total_witness :
  total (xvc_server_handle_receive (ready empty_buffer) [segment sample_segment]).
Proof. apply (receive_total _ (PCmd [])); [apply sample_segment_ok|apply ready_abs]. Defined.
