(* ===== verification/XvcSession.v ===== *)
(** * The XVC server and its clients

    The whole server task linked to the network and to the pins: clients that
    connect one after the other, send requests cut into segments in any way and
    leave in the middle of one if they like, and a device on the JTAG pins.
    Each client gets the reply of each of its requests, and the device sees the
    bits of all shift requests, in order, and nothing else. *)

From S2P Require Import Prelude Prog Pio Pbuf Xvc XvcProto XvcShift XvcSpec XvcRefine.

(** ** Requests and their replies *)

Inductive request :=
| Getinfo
| Settck (period : Z)
| Shift (n : Z) (tms tdi : list Z).

Definition request_bytes (r : request) : list Z :=
  match r with
  | Getinfo => XVC_COMMAND_STR_GETINFO
  | Settck period => XVC_COMMAND_STR_SETTCK ++ le_bytes4 period
  | Shift n tms tdi => XVC_COMMAND_STR_SHIFT ++ le_bytes4 n ++ tms ++ tdi
  end.

Definition request_ok (r : request) : Prop :=
  match r with
  | Getinfo => True
  | Settck period => is_u32 period
  | Shift n tms tdi =>
    0 <= n <= XVC_SHIFT_VECTOR_MAX_LEN_IN_BITS /\
    length tms = vector_len n /\ length tdi = vector_len n
  end.

(** The (TDI, TMS) pairs that a request clocks into the device, and its reply,
    given what the device has seen before. *)
Definition clocked (r : request) : list (Z * Z) :=
  match r with
  | Shift n tms tdi => samples tdi tms 0 (Z.to_nat n)
  | _ => []
  end.

Definition answer (dev : list (Z * Z) -> bool) (es : list (Z * Z)) (r : request) : list Z :=
  match r with
  | Getinfo => XVC_INFO_STR
  | Settck _ => le_bytes4 690
  | Shift n _ _ => pack (vector_len n) (answers dev es (clocked r))
  end.

Fixpoint conversation (dev : list (Z * Z) -> bool) (es : list (Z * Z)) (rs : list request)
    : list Z :=
  match rs with
  | [] => []
  | r :: rs => answer dev es r ++ conversation dev (es ++ clocked r) rs
  end.

(** ** Clients

    What a client sends after its last complete request: part of another one,
    bytes that no command starts with, or a shift that is too long. *)
Definition leftover_ok (bs : list Z) : Prop :=
  (exists r, request_ok r /\ bs `prefix_of` request_bytes r /\ bs <> request_bytes r) \/
  no_command bs \/
  (exists n rest, XVC_SHIFT_VECTOR_MAX_LEN_IN_BITS < n < 2 ^ 32 /\
     bs = XVC_COMMAND_STR_SHIFT ++ le_bytes4 n ++ rest).

(** What [netconn_recv] sees: segments, each a chain of pbufs, and time-outs in
    between ([None]). *)
Definition arrivals : Type := list (option (list pbuf)).
Definition arrived (a : arrivals) : list Z := concat (map flat (omap id a)).

Record client := Client {
  requests : list request;
  leftover : list Z;
  sends : arrivals
}.

(** A segment may be a chain, but none of its pbufs but the last ends in the
    middle of a command word. *)
Definition client_ok (c : client) : Prop :=
  Forall request_ok (requests c) /\ leftover_ok (leftover c) /\
  Forall chain_ok (omap id (sends c)) /\ uncut_stream (PCmd []) (omap id (sends c)) /\
  arrived (sends c) = concat (map request_bytes (requests c)) ++ leftover c.

Definition all_clocked (rs : list request) : list (Z * Z) := concat (map clocked rs).

(** The replies that each of the clients gets. *)
Fixpoint conversations (dev : list (Z * Z) -> bool) (es : list (Z * Z)) (cs : list client)
    : list (list Z) :=
  match cs with
  | [] => []
  | c :: cs =>
    conversation dev es (requests c) :: conversations dev (es ++ all_clocked (requests c)) cs
  end.

(** ** The world of the server task

    The pins and the bytes written to the connection; the calls that
    [netconn_accept] is going to see (clients and time-outs), what the current
    client still sends, and the bytes that the clients served so far have got.
    Every write is accepted, and the listener fails when all clients have been
    served. *)
Record link := Link { jtag : wire; outbox : list Z }.

Record world := World {
  line : link;
  calling : list (option arrivals);
  inbox : arrivals;
  served : list (list Z)
}.

Definition with_line (l : link) (w : world) : world :=
  World l (calling w) (inbox w) (served w).
Definition with_jtag (s : wire) (l : link) : link := Link s (outbox l).

Definition ERR_ABRT : Z := -10.
Definition ERR_CLSD : Z := -12.

Section world.
Variable dev : list (Z * Z) -> bool.
(** The block [mem_malloc] hands out for the command buffer. *)
Variable block : list Z.

Definition link_handler (e : xop) (l : link) : xop_ans e * link :=
  match e with
  | NetconnWrite data => (ERR_OK, Link (jtag l) (outbox l ++ data))
  | e => ((wire_handler dev e (jtag l)).1, with_jtag (wire_handler dev e (jtag l)).2 l)
  end.

Definition world_handler (e : xop) (w : world) : xop_ans e * world :=
  match e with
  | MemMalloc _ => (Some block, w)
  | NetconnNew => (true, w)
  | NetconnAccept =>
    match calling w with
    | [] => (ERR_ABRT, w)
    | None :: cs => (ERR_TIMEOUT, World (line w) cs (inbox w) (served w))
    | Some a :: cs => (ERR_OK, World (Link (jtag (line w)) []) cs a (served w))
    end
  | NetconnRecv =>
    match inbox w with
    | [] => ((ERR_CLSD, []), w)
    | None :: a => ((ERR_TIMEOUT, []), World (line w) (calling w) a (served w))
    | Some q :: a => ((ERR_OK, q), World (line w) (calling w) a (served w))
    end
  | NetconnDelete false =>
    (tt, World (Link (jtag (line w)) []) (calling w) [] (served w ++ [outbox (line w)]))
  | e => ((link_handler e (line w)).1, with_line (link_handler e (line w)).2 w)
  end.
End world.

(** ** The bytes of a request *)

Section feed.
Context `{JtagShifter}.

(** What the automaton does on a whole request. *)
Definition perform_request (r : request) : prog xvc (option pstate) :=
  match r with
  | Getinfo => reply XVC_INFO_STR (PCmd [])
  | Settck _ => reply (le_bytes4 690) (PCmd [])
  | Shift n tms tdi => spec_shift n (tms ++ tdi)
  end.

Lemma start_open : viable [] /\ [] ∉ commands.
Proof. by split; apply (bool_decide_unpack _); vm_compute. Qed.

Lemma feed_command w : w ∈ commands -> spec_feed (PCmd []) w ≈ spec_word w.
Proof.
  intros Hw. destruct start_open. apply (spec_feed_word [] w); [done|done|].
  exists w. by split.
Qed.

Lemma feed_then w bs : w ∈ commands ->
  spec_feed (PCmd []) (w ++ bs) ≈ bind (spec_word w) (and_feed bs).
Proof. intros Hw. by rewrite spec_feed_app, feed_command. Qed.

Lemma starts_settck bs : (length bs <= 4)%nat -> spec_feed (PSettck []) bs ≈ spec_settck bs.
Proof. intros Hl. apply (feed_settck []); [simpl; lia|done]. Qed.

Lemma starts_len bs : (length bs <= 4)%nat -> spec_feed (PShiftLen []) bs ≈ spec_len bs.
Proof. intros Hl. apply (feed_len []); [simpl; lia|done]. Qed.

Lemma spec_len_number n : is_u32 n ->
  spec_len (le_bytes4 n) =
  if XVC_SHIFT_VECTOR_MAX_LEN_IN_BITS <? n then Ret None else spec_data n [].
Proof. intros Hn. unfold spec_len. rewrite decide_True by done. by rewrite le_val_bytes4. Qed.

Lemma max_bits_u32 n : 0 <= n <= XVC_SHIFT_VECTOR_MAX_LEN_IN_BITS -> is_u32 n.
Proof.
  unfold XVC_SHIFT_VECTOR_MAX_LEN_IN_BITS, XVC_SHIFT_VECTOR_MAX_LEN_IN_BYTES, is_u32. lia.
Qed.

(** A shift, once its length is known. *)
Lemma feed_shift n bs : 0 <= n <= XVC_SHIFT_VECTOR_MAX_LEN_IN_BITS ->
  (length bs <= 2 * vector_len n)%nat ->
  spec_feed (PCmd []) (XVC_COMMAND_STR_SHIFT ++ le_bytes4 n ++ bs) ≈ spec_data n bs.
Proof.
  intros Hn Hl. rewrite feed_then by (unfold commands; rewrite !elem_of_cons; auto).
  change (spec_word XVC_COMMAND_STR_SHIFT) with (Ret (E := xvc) (Some (PShiftLen []))).
  cbn [bind and_feed]. rewrite spec_feed_app, starts_len by done.
  rewrite spec_len_number by (by apply max_bits_u32).
  rewrite (proj2 (Z.ltb_ge _ _)) by lia. by apply (feed_data n []).
Qed.

Lemma feed_request r : request_ok r -> spec_feed (PCmd []) (request_bytes r) ≈ perform_request r.
Proof.
  destruct r as [|period|n tms tdi]; cbn [request_ok request_bytes perform_request].
  - intros _. rewrite feed_command by (unfold commands; rewrite !elem_of_cons; auto). reflexivity.
  - intros Hp. rewrite feed_then by (unfold commands; rewrite !elem_of_cons; auto).
    change (spec_word XVC_COMMAND_STR_SETTCK) with (Ret (E := xvc) (Some (PSettck []))).
    cbn [bind and_feed]. rewrite starts_settck by done. reflexivity.
  - intros (Hn & Hm & Hi). rewrite feed_shift by (rewrite ?length_app; lia).
    unfold spec_data. rewrite decide_True by (rewrite length_app; lia). reflexivity.
Qed.

(** A client that leaves, or violates the protocol, after its last request
    causes no call. *)
Lemma prefix_app_cases {A} (x a b : list A) : x `prefix_of` a ++ b ->
  (x `prefix_of` a /\ x <> a) \/ exists b', x = a ++ b' /\ b' `prefix_of` b.
Proof.
  intros Hx. destruct (prefix_weak_total x a (a ++ b)) as [Hxa|[b' ->]];
    [done|by apply prefix_app_r| |].
  - destruct Hxa as [z ->]. destruct z as [|c z].
    + right. exists []. rewrite !app_nil_r. split; [done|apply prefix_nil].
    + left. split; [by eexists|]. intros E%(f_equal length). rewrite length_app in E. simpl in E. lia.
  - right. exists b'. split; [done|]. by apply prefix_app_inv in Hx.
Qed.

Lemma feed_partial_word w bs :
  w ∈ commands -> bs `prefix_of` w -> bs <> w -> spec_feed (PCmd []) bs ≈ Ret (Some (PCmd bs)).
Proof.
  intros Hw Hp Hne. destruct start_open.
  rewrite (spec_feed_word [] bs) by (try done; by exists w).
  cbn [app]. rewrite spec_word_open; [reflexivity|by exists w|].
  by eapply prefix_strict_not_command.
Qed.

Lemma feed_partial r bs : request_ok r -> bs `prefix_of` request_bytes r ->
  bs <> request_bytes r -> exists ps, spec_feed (PCmd []) bs ≈ Ret (Some ps).
Proof.
  assert (Forall (fun w => w ∈ commands)
    [XVC_COMMAND_STR_GETINFO; XVC_COMMAND_STR_SETTCK; XVC_COMMAND_STR_SHIFT]) as Hw
    by (by apply list.Forall_forall).
  inversion_clear Hw as [|? ? Hg Hw']. inversion_clear Hw' as [|? ? Hst Hw''].
  inversion_clear Hw'' as [|? ? Hsh _].
  destruct r as [|period|n tms tdi]; cbn [request_ok request_bytes]; intros Hr Hp Hne.
  - eexists. by apply (feed_partial_word XVC_COMMAND_STR_GETINFO).
  - apply prefix_app_cases in Hp as [[Hp Hn]|(b & -> & Hb)].
    + eexists. by apply (feed_partial_word XVC_COMMAND_STR_SETTCK).
    + exists (PSettck b). rewrite feed_then by done.
      change (spec_word XVC_COMMAND_STR_SETTCK) with (Ret (E := xvc) (Some (PSettck []))).
      cbn [bind and_feed]. pose proof (prefix_length _ _ Hb) as Hl. cbn in Hl.
      rewrite starts_settck by done. unfold spec_settck. rewrite decide_False; [reflexivity|].
      intros H4. apply Hne. f_equal. by apply prefix_length_eq; [|rewrite H4].
  - apply prefix_app_cases in Hp as [[Hp Hn]|(b & -> & Hb)].
    { eexists. by apply (feed_partial_word XVC_COMMAND_STR_SHIFT). }
    apply prefix_app_cases in Hb as [[Hb Hn]|(d & -> & Hd)].
    + exists (PShiftLen b). rewrite feed_then by done.
      change (spec_word XVC_COMMAND_STR_SHIFT) with (Ret (E := xvc) (Some (PShiftLen []))).
      cbn [bind and_feed]. pose proof (prefix_length _ _ Hb) as Hl. cbn in Hl.
      rewrite starts_len by done. unfold spec_len. rewrite decide_False; [reflexivity|].
      intros H4. apply Hn. by apply prefix_length_eq; [|rewrite H4].
    + destruct Hr as (Hn & Hm & Hi). pose proof (prefix_length _ _ Hd) as Hl.
      rewrite length_app in Hl. exists (PShiftData n d).
      rewrite feed_shift by lia. unfold spec_data. rewrite decide_False; [reflexivity|].
      intros H2. apply Hne. do 2 f_equal. apply prefix_length_eq; [done|].
      rewrite length_app. lia.
Qed.

Lemma feed_leftover bs : leftover_ok bs -> exists o, spec_feed (PCmd []) bs ≈ Ret o.
Proof.
  intros [(r & Hr & Hp & Hne)|[Hn|(n & rest & Hn & ->)]].
  - destruct (feed_partial r bs Hr Hp Hne) as [ps Hps]. by eexists.
  - destruct (decide (bs = [])) as [->|Hb]; [by exists (Some (PCmd []))|].
    exists None. destruct start_open. by rewrite (spec_feed_bad [] bs).
  - exists None. rewrite feed_then by (unfold commands; rewrite !elem_of_cons; auto).
    change (spec_word XVC_COMMAND_STR_SHIFT) with (Ret (E := xvc) (Some (PShiftLen []))).
    cbn [bind and_feed]. rewrite spec_feed_app, starts_len by done.
    unfold XVC_SHIFT_VECTOR_MAX_LEN_IN_BITS, XVC_SHIFT_VECTOR_MAX_LEN_IN_BYTES in Hn.
    rewrite spec_len_number by (unfold is_u32; lia).
    rewrite (proj2 (Z.ltb_lt _ _))
      by (unfold XVC_SHIFT_VECTOR_MAX_LEN_IN_BITS, XVC_SHIFT_VECTOR_MAX_LEN_IN_BYTES; lia).
    reflexivity.
Qed.
End feed.

(** ** Running on the link

    The shift routine only touches the pins and the shared state; the receive
    path also writes to the connection. *)
Definition silent (e : op xvc) : Prop :=
  match e : xop with XHw _ | Critical _ | LoadState | StoreState _ => True | _ => False end.
Definition talking (e : op xvc) : Prop :=
  match e : xop with NetconnWrite _ => True | e => silent e end.

Lemma only_any {E A} (P : op E -> Prop) (p : prog E A) : (forall e, P e) -> only P p.
Proof. intros HP. induction p as [a|h|e k IH]; simpl; auto. Qed.

Lemma silent_on_hw {A} (p : prog hw A) : only silent (on_hw p).
Proof. apply (only_embed (fun _ => True)); [done|]. by apply only_any. Qed.

Create HintDb silent.
#[export] Hint Resolve silent_on_hw : silent.

Ltac only_tac :=
  repeat first
    [ exact I
    | solve [auto 1 with silent nocore]
    | apply only_bind; [|intros ?]
    | match goal with
      | |- only _ (Ret _) => exact I
      | |- only _ (Halt _) => exact I
      | |- only _ (trigger _) => split; [exact I|intros ?; exact I]
      | |- only _ (if ?b then _ else _) => destruct b
      | |- only _ (match ?x with _ => _ end) => destruct x
      end ].

Lemma silent_gpio s : only silent (xvc_server_update_gpio_config s).
Proof.
  unfold xvc_server_update_gpio_config, xvc_server_jtag_cable_connected,
    xvc_server_usb_cable_connected, configure_pin, xcall.
  only_tac.
Qed.
#[export] Hint Resolve silent_gpio : silent.

Lemma silent_clock_bits tdi tms i k : only silent (clock_bits tdi tms i k).
Proof.
  revert i. induction k as [|k IH]; intros i; cbn [clock_bits]; [done|].
  apply only_bind; [|intros b; apply only_bind; [apply IH|done]].
  unfold clock_bit, xvc_server_set_tdi_tms, xvc_server_set_tck_high, xvc_server_set_tck_low,
    xvc_server_get_tdo. only_tac.
Qed.
#[export] Hint Resolve silent_clock_bits : silent.

Lemma silent_shift tdi tms n :
  0 <= n <= XVC_SHIFT_VECTOR_MAX_LEN_IN_BITS ->
  length tdi = vector_len n -> length tms = vector_len n ->
  only silent (xvc_server_do_shift tdi tms n).
Proof.
  intros Hn Htdi Htms. eapply only_rel; [by apply do_shift_equiv|].
  unfold reference_shift, xvc_server_set_tck_low, xvc_server_disable, xcall.
  only_tac.
Qed.
#[export] Hint Resolve silent_shift : silent.

Lemma talking_silent {A} (p : prog xvc A) : only silent p -> only talking p.
Proof.
  induction p as [a|h|e k IH]; simpl; [done..|]. intros [He Hk].
  split; [by destruct e|]. intros x. by apply IH.
Qed.

Lemma returns_run {E S A} (P : A -> Prop) (h : forall e : op E, S -> ans E e * S)
    (p : prog E A) s a s' : returns P p -> run h p s = (Done a, s') -> P a.
Proof.
  revert s. induction p as [b|x|e k IH]; intros s Hp Hr; simpl in *; [by simplify_eq|done|].
  destruct (h e s) as [x s1]. by eapply IH.
Qed.

Section runs.
Variable dev : list (Z * Z) -> bool.
Variable block : list Z.
#[local] Abbreviation prun := (run (E := xvc) (wire_handler dev)).
#[local] Abbreviation lrun := (run (E := xvc) (link_handler dev)).
#[local] Abbreviation wrun := (run (E := xvc) (world_handler dev block)).

Definition enabled (l : link) : Prop := server (jtag l) = XVC_SERVER_STATE_ENABLED.

Lemma silent_run {A} (p : prog xvc A) l : only silent p ->
  lrun p l = ((prun p (jtag l)).1, with_jtag (prun p (jtag l)).2 l).
Proof.
  intros Hp. apply (run_focus (E := xvc) silent (wire_handler dev) (link_handler dev) jtag with_jtag); try done.
  - by intros [].
  - by intros [] t He.
Qed.

Lemma talking_run {A} (p : prog xvc A) w : only talking p ->
  wrun p w = ((lrun p (line w)).1, with_line (lrun p (line w)).2 w).
Proof.
  intros Hp.
  apply (run_focus (E := xvc) talking (link_handler dev) (world_handler dev block) line with_line); try done.
  - by intros [].
  - by intros [] t He.
Qed.

Lemma shift_run tdi tms n l :
  0 <= n <= XVC_SHIFT_VECTOR_MAX_LEN_IN_BITS ->
  length tdi = vector_len n -> length tms = vector_len n -> enabled l ->
  let es := edges (jtag l) in
  let ss := samples tdi tms 0 (Z.to_nat n) in
  exists p, lrun (xvc_server_do_shift tdi tms n) l =
    (Done (XVC_STATUS_OK, pack (vector_len n) (answers dev es ss)),
     Link (Wire p (es ++ ss) XVC_SERVER_STATE_ENABLED) (outbox l)).
Proof.
  intros Hn Htdi Htms He. cbv zeta. rewrite silent_run by (by apply silent_shift).
  destruct (decide (n = 0)) as [->|Hn0].
  - exists (pins (jtag l)). rewrite (peq_run _ _ _ _ (do_shift_equiv tdi tms 0 Hn Htdi Htms)).
    apply nil_length_inv in Htdi as ->. cbn. rewrite app_nil_r.
    destruct l as [[p es s] out]. by unfold enabled in He; simpl in *; subst.
  - destruct (do_shift_run dev tdi tms n (jtag l)) as (p & -> & _); [lia|done..|].
    by exists p.
Qed.

(** A whole request: its bits go to the device, its answer to the client. *)
Lemma request_run r l : request_ok r -> enabled l ->
  exists p, lrun (perform_request r) l =
    (Done (Some (PCmd [])),
     Link (Wire p (edges (jtag l) ++ clocked r) XVC_SERVER_STATE_ENABLED)
       (outbox l ++ answer dev (edges (jtag l)) r)).
Proof.
  intros Hr He. destruct r as [|period|n tms tdi]; cbn [perform_request clocked answer].
  - exists (pins (jtag l)). destruct l as [[p es s] out]. unfold enabled in He. simpl in He.
    subst. simpl. by rewrite app_nil_r.
  - exists (pins (jtag l)). destruct l as [[p es s] out]. unfold enabled in He. simpl in He.
    subst. simpl. by rewrite app_nil_r.
  - destruct Hr as (Hn & Hm & Hi). unfold spec_shift. cbn [do_shift xvc_shifter].
    rewrite drop_app_length', take_app_length' by lia.
    rewrite run_bind. destruct (shift_run tdi tms n l) as [p ->]; [done..|].
    rewrite decide_True by done. by exists p.
Qed.

Lemma requests_run rs rest l : Forall request_ok rs -> leftover_ok rest -> enabled l ->
  exists o p, lrun (spec_feed (PCmd []) (concat (map request_bytes rs) ++ rest)) l =
    (Done o,
     Link (Wire p (edges (jtag l) ++ all_clocked rs) XVC_SERVER_STATE_ENABLED)
       (outbox l ++ conversation dev (edges (jtag l)) rs)).
Proof.
  intros Hrs Hrest. revert l. induction Hrs as [|r rs Hr _ IH]; intros l He.
  - destruct (feed_leftover rest Hrest) as [o Ho]. exists o, (pins (jtag l)).
    cbn [map concat app]. rewrite (peq_run _ _ _ _ Ho). unfold all_clocked. cbn.
    rewrite !app_nil_r. destruct l as [[p es s] out]. unfold enabled in He. simpl in *. by subst.
  - cbn [map concat]. rewrite <- app_assoc, (peq_run _ _ _ _ (spec_feed_app _ _ _)), run_bind.
    rewrite (peq_run _ _ _ _ (feed_request r Hr)).
    destruct (request_run r l Hr He) as [p ->]. cbn [and_feed].
    match goal with |- context [lrun _ ?l1] => destruct (IH l1 eq_refl) as (o & p' & ->) end.
    exists o, p'. cbn [jtag edges outbox]. unfold all_clocked. cbn [map concat conversation].
    by rewrite <- !app_assoc.
Qed.

(** ** The automaton on the link *)

Lemma talking_reply data ps : only talking (reply data ps).
Proof. unfold reply, xcall. only_tac. Qed.

Lemma data_run n got l :
  0 <= n <= XVC_SHIFT_VECTOR_MAX_LEN_IN_BITS -> (length got <= 2 * vector_len n)%nat ->
  only talking (spec_data n got) /\
  (enabled l -> exists o l', lrun (spec_data n got) l = (Done o, l') /\ enabled l').
Proof.
  intros Hn Hl. unfold spec_data, spec_shift. case_decide as Hd; [|by split; [|eauto]].
  cbn [do_shift xvc_shifter].
  assert (length (drop (vector_len n) got) = vector_len n) by (rewrite length_drop; lia).
  assert (length (take (vector_len n) got) = vector_len n) by (rewrite length_take; lia).
  split.
  - apply only_bind; [by apply talking_silent, silent_shift|]. intros [s tdo].
    case_decide; [apply talking_reply|done].
  - intros He. rewrite run_bind. edestruct shift_run as [p ->]; [done..|].
    rewrite decide_True by done. simpl. by eexists _, _.
Qed.

Lemma byte_run ps b l : pstate_ok ps -> is_u8 b ->
  only talking (spec_byte ps b) /\
  (enabled l -> exists o l', lrun (spec_byte ps b) l = (Done o, l') /\ enabled l').
Proof.
  intros Hps Hb. destruct ps as [w|got|got|n got]; simpl in *.
  - unfold spec_word. repeat case_decide; (split; [done|]); intros He; by eexists _, _.
  - unfold spec_settck. case_decide; (split; [done|]); intros He; by eexists _, _.
  - assert (Forall is_u8 (got ++ [b])) as H8 by (apply Forall_app; auto).
    unfold spec_len. case_decide; [|by split; [|eauto]]. split_tests; [by split; [|eauto]|].
    to_prop. apply data_run; [|simpl; lia]. pose proof (le_val_range _ H8). lia.
  - destruct Hps as [Hn Hl]. apply data_run; [done|]. rewrite length_app. simpl. lia.
Qed.

Lemma feed_run ps bs l : pstate_ok ps -> Forall is_u8 bs ->
  only talking (spec_feed ps bs) /\
  (enabled l -> exists o l', lrun (spec_feed ps bs) l = (Done o, l') /\ enabled l').
Proof.
  intros Hps Hbs. split.
  - revert ps Hps. induction Hbs as [|b bs Hb _ IH]; intros ps Hps; [done|].
    destruct (spec_byte_total ps b Hps Hb) as [_ Hr]. cbn [spec_feed].
    eapply only_bind_returns; [apply (byte_run ps b l Hps Hb)|exact Hr|].
    intros [ps'|] Ho; [by apply IH|done].
  - revert ps Hps l. induction Hbs as [|b bs Hb _ IH]; intros ps Hps l He; [by eexists _, _|].
    destruct (spec_byte_total ps b Hps Hb) as [_ Hr]. cbn [spec_feed]. rewrite run_bind.
    destruct (byte_run ps b l Hps Hb) as [_ Hrun]. destruct (Hrun He) as (o & l' & Ho & He').
    rewrite Ho. pose proof (returns_run _ _ _ _ _ _ Hr Ho) as Hok.
    destruct o as [ps'|]; [by apply IH|by eexists _, _].
Qed.
End runs.

(** ** The command buffer keeps its size *)

Section buffer.
Context `{JtagShifter}.

Lemma returns_outcome {E A} (P : A -> Prop) (o : outcome A) :
  (forall a, o = Done a -> P a) -> returns P (of_outcome (E := E) o).
Proof. destruct o; simpl; auto. Qed.

Lemma returns_store {A} (P : A -> Prop) buf off bs (f : list Z -> prog xvc A) :
  (forall buf', length buf' = length buf -> returns P (f buf')) ->
  returns P (bind (defined (store buf off bs)) f).
Proof.
  intros Hf. destruct (store buf off bs) as [buf'|] eqn:Hs; [|done]. cbn.
  apply Hf. by eapply store_length.
Qed.

(** Programs built from case analysis, calls and results of stored buffers. *)
Ltac keeps_tac :=
  repeat first
    [ progress cbn [fst snd buffer with_buffer with_command with_length] in *
    | solve [simpl; congruence]
    | exact I
    | apply returns_store; intros ? ?
    | apply returns_any
    | match goal with
      | |- returns _ (Ret _) => simpl
      | |- returns _ (leave _ _) => unfold leave
      | |- returns _ (again _ _ _) => unfold again
      | |- returns _ (bind (c_assert _) _) => eapply returns_bind; [apply returns_any|intros ? _]
      | |- returns _ (bind (of_outcome _) _) => eapply returns_bind; [apply returns_any|intros ? _]
      | |- returns _ (bind (xcall _) _) => intros ?; cbn [bind]
      | |- returns _ (bind (byte_at _ _) _) => eapply returns_bind; [apply returns_any|intros ? _]
      | |- returns _ (bind (memcmp _ _ _) _) => eapply returns_bind; [apply returns_any|intros ? _]
      | |- returns _ (bind (do_shift _ _ _) _) => eapply returns_bind; [apply returns_any|intros ? _]
      | |- returns _ (bind (match ?x with _ => _ end) _) => destruct x
      | |- returns _ (if ?b then _ else _) => destruct b
      | |- returns _ (match ?x with _ => _ end) => destruct x
      end ].

Lemma take_bytes_keeps q buf n want :
  returns (fun r => length r.1.2 = length buf) (take_bytes q buf n want).
Proof. unfold take_bytes. keeps_tac. Qed.

Lemma rest_keeps q buf n str k c :
  returns (fun r => length r.1.1.2 = length buf) (read_command_rest q buf n str k c).
Proof.
  unfold read_command_rest. eapply returns_bind; [apply take_bytes_keeps|].
  intros [[q' buf'] n'] Hl. simpl in Hl. keeps_tac.
Qed.

Lemma branch_keeps q buf n :
  returns (fun r => length r.1.1.2 = length buf) (read_command_branch q buf n).
Proof.
  unfold read_command_branch. cbv zeta. repeat first [apply rest_keeps | progress keeps_tac].
Qed.

Lemma read_command_keeps q buf n :
  returns (fun r => length r.1.1.2 = length buf) (xvc_server_read_command q buf n).
Proof.
  unfold xvc_server_read_command. eapply returns_bind; [apply returns_any|intros _ _].
  apply (returns_bind (fun r => length r.1.2 = length buf)).
  - destruct (_ <? _); [apply take_bytes_keeps|done].
  - intros [[q' buf'] n'] Hl. simpl in Hl. eapply returns_bind; [apply returns_any|intros _ _].
    eapply returns_mono; [apply branch_keeps|]. simpl. congruence.
Qed.

Lemma uint32_loop_keeps k q buf n :
  returns (fun r => length r.1.2 = length buf) (read_uint32_loop k q buf n).
Proof.
  revert q buf n. induction k as [|k IH]; intros [|p q] buf n; cbn [read_uint32_loop]; [done| |done|];
    destruct (_ && _); try done.
  cbv zeta. eapply returns_bind; [apply returns_any|intros [? p'] _].
  apply returns_store. intros buf' Hl. eapply returns_mono; [apply IH|]. simpl. congruence.
Qed.

Lemma read_uint32_keeps q buf n :
  returns (fun r => length r.1.2 = length buf) (xvc_server_read_uint32 q buf n).
Proof.
  unfold xvc_server_read_uint32. apply (returns_bind (fun b => length b = length buf)).
  - destruct (n =? 0); [|done]. destruct (store _ _ _) as [b|] eqn:Hs; [|done]. by eapply store_length.
  - intros b Hb. eapply returns_bind; [apply uint32_loop_keeps|].
    intros [[q' b'] n'] Hl. simpl in *. congruence.
Qed.

Lemma read_vector_keeps q k buf n :
  returns (fun r => length r.1.2 = length buf) (xvc_server_read_data_shift_vector q k buf n).
Proof. unfold xvc_server_read_data_shift_vector. keeps_tac. Qed.

(** A round of the receive path: the connection state it goes on or ends with. *)
Definition sized (r : round + xvc_status_t * conn_state) : Prop :=
  match r with
  | inl (_, st, _) | inr (_, st) => length (buffer st) = buffer_size
  end.

Lemma settck_keeps st q : length (buffer st) = buffer_size -> returns sized (handle_settck st q).
Proof.
  intros Hb. unfold handle_settck. eapply returns_bind; [apply read_uint32_keeps|].
  intros [[[s q'] b] n] Hl. simpl in Hl. destruct s; keeps_tac.
Qed.

Lemma shift_data_keeps st q :
  length (buffer st) = buffer_size -> returns sized (handle_shift_data st q).
Proof.
  intros Hb. unfold handle_shift_data. destruct (_ <? _); [done|].
  eapply returns_bind; [apply read_vector_keeps|].
  intros [[[s q'] b] n] Hl. simpl in Hl. destruct s; keeps_tac.
Qed.

Lemma shift_keeps st q : length (buffer st) = buffer_size -> returns sized (handle_shift st q).
Proof.
  intros Hb. unfold handle_shift. destruct (_ =? _); [|by apply shift_data_keeps].
  eapply returns_bind; [apply read_uint32_keeps|].
  intros [[[s q'] b] n] Hl. simpl in Hl. destruct s; keeps_tac.
  apply shift_data_keeps. simpl. congruence.
Qed.

Lemma command_keeps s st q :
  length (buffer st) = buffer_size -> returns sized (handle_command s st q).
Proof.
  intros Hb. unfold handle_command. destruct (current_command st);
    [|done|by apply settck_keeps|by apply shift_keeps].
  unfold handle_getinfo. keeps_tac.
Qed.

Lemma round_keeps r :
  length (buffer r.1.2) = buffer_size -> returns sized (handle_round r).
Proof.
  destruct r as [[s st] q]. cbn [fst snd]. intros Hb. unfold handle_round.
  destruct q as [|p q]; [done|]. destruct (_ && _); [done|]. destruct (len p =? 0); [done|].
  case_decide; [|by apply command_keeps].
  eapply returns_bind; [apply read_command_keeps|].
  intros [[[[s' q'] b] n] c] Hl. simpl in Hl. destruct s'; keeps_tac.
  apply command_keeps. simpl. congruence.
Qed.

Lemma receive_keeps st q : length (buffer st) = buffer_size ->
  returns (fun r => length (buffer r.2) = buffer_size) (xvc_server_handle_receive st q).
Proof.
  intros Hb. unfold xvc_server_handle_receive.
  apply (returns_iter (fun r => length (buffer r.1.2) = buffer_size)); [|done].
  intros r Hr. eapply returns_mono; [by apply round_keeps|]. by intros [[[? ?] ?]|[? ?]].
Qed.
End buffer.

(** ** The server task *)

Section server.
Variable dev : list (Z * Z) -> bool.
Variable block : list Z.
#[local] Abbreviation lrun := (run (E := xvc) (link_handler dev)).
#[local] Abbreviation wrun := (run (E := xvc) (world_handler dev block)).

Definition expecting (st : conn_state) : Prop :=
  abs st (PCmd []) /\ length (buffer st) = buffer_size.

Lemma reset_expecting st : length (buffer st) = buffer_size ->
  expecting (xvc_server_connection_state_reset st).
Proof. intros Hb. split; [by apply abs_ready|done]. Qed.

Lemma arrived_cons q a : arrived (Some q :: a) = flat q ++ arrived a.
Proof. done. Qed.

(** One received segment: the automaton's effect on the link. *)
Lemma receive_run st ps q w :
  abs st ps -> length (buffer st) = buffer_size -> chain_ok q -> uncut ps q -> enabled (line w) ->
  exists o l' status st',
    lrun (spec_feed ps (flat q)) (line w) = (Done o, l') /\ enabled l' /\ goes_to (next_bytes ps (flat q)) o /\
    wrun (xvc_server_handle_receive st q) w = (Done (status, st'), with_line l' w) /\
    receive_post (status, st') o /\ length (buffer st') = buffer_size.
Proof.
  intros Ha Hb [Hg Hne] Hcut He.
  pose proof (handle_receive_sim never st q ps Hg Hne Ha ltac:(done)) as Hr.
  destruct (feed_run dev ps (flat q) (line w) (abs_ok _ _ Ha) (proj2 Hg)) as [Ht Hrun].
  destruct (Hrun He) as (o & l' & Ho & He').
  destruct (prog_rel_run (E := xvc) never receive_post (world_handler dev block) _ _ w Hr)
    as [(? & ? & _ & [])|[Hs Hpost]].
  rewrite (talking_run dev block _ w Ht), Ho in Hs, Hpost. cbn [fst snd] in Hs, Hpost.
  destruct (wrun (xvc_server_handle_receive st q) w) as [[[status st']|h] w'] eqn:Hw;
    cbn [fst snd] in *; [|done]. subst w'.
  pose proof (returns_run _ _ _ _ _ _ (receive_keeps st q Hb) Hw) as Hb'.
  pose proof (returns_run _ _ _ _ _ _ (spec_feed_next ps (flat q)) Ho) as Hnext.
  by eexists o, l', status, st'.
Qed.

(** The calls of the task around the receive path. *)
Lemma load_run w : wrun (xcall LoadState) w = (Done (server (jtag (line w))), w).
Proof. by destruct w as [[[] ?] ? ? ?]. Qed.

Lemma free_run w : wrun (xcall PbufFree) w = (Done tt, w).
Proof. by destruct w as [[[] ?] ? ? ?]. Qed.

Lemma recv_run l cs a sv :
  wrun (xcall NetconnRecv) (World l cs a sv) =
  match a with
  | [] => (Done (ERR_CLSD, []), World l cs [] sv)
  | None :: a => (Done (ERR_TIMEOUT, []), World l cs a sv)
  | Some q :: a => (Done (ERR_OK, q), World l cs a sv)
  end.
Proof. by destruct a as [|[|] a]. Qed.

(** A connection: everything that arrives is received until the client closes
    or violates the protocol. *)
Lemma serve_run fuel st ps l cs a sv :
  abs st ps -> length (buffer st) = buffer_size -> Forall chain_ok (omap id a) ->
  uncut_stream ps (omap id a) -> enabled l -> (length a < fuel)%nat ->
  exists st' rest,
    wrun (iter fuel serve_round st) (World l cs a sv) =
      (Done st', World (lrun (spec_feed ps (arrived a)) l).2 cs rest sv) /\
    length (buffer st') = buffer_size.
Proof.
  revert fuel st ps l.
  induction a as [|ev a IH]; intros [|fuel] st ps l Ha Hb Hseg Hcut He Hf; simpl in Hf; try lia;
    cbn [iter]; unfold serve_round at 1;
    rewrite !run_bind, load_run; cbn [line]; rewrite He, decide_False by auto;
    rewrite run_bind, recv_run; closed_tests; cbv iota.
  - by exists st, [].
  - destruct ev as [bs|]; cbn [omap list_omap id] in Hseg, Hcut; closed_tests; cbv iota.
    + apply list.Forall_cons in Hseg as [Hbs Hseg]. destruct Hcut as [Hc Hcut]. rewrite run_bind.
      destruct (receive_run st ps bs (World l cs a sv)) as (o & l' & s & st' & Ho & He' & Hnext & -> & Hp & Hb');
        [done..|]. cbn [line] in Ho. rewrite arrived_cons.
      assert (lrun (spec_feed ps (flat bs ++ arrived a)) l = lrun (and_feed (arrived a) o) l') as ->
        by (by rewrite (peq_run _ _ _ _ (spec_feed_app _ _ _)), run_bind, Ho).
      rewrite run_bind, free_run. destruct o as [ps'|]; cbn [receive_post fst snd] in Hp.
      * destruct Hp as [-> Ha']. rewrite decide_False by auto. cbn [run and_feed].
        destruct Hnext as [|Hnext]; [done|]. rewrite <- Hnext in Hcut.
        apply IH; try done. simpl in Hf. lia.
      * subst s. rewrite decide_True by done. cbn [run and_feed snd]. by eexists st', a.
    + cbn [run]. apply IH; try done. lia.
Qed.

Lemma accept_call l cs a sv :
  wrun (xcall NetconnAccept) (World l cs a sv) =
  match cs with
  | [] => (Done ERR_ABRT, World l [] a sv)
  | None :: cs => (Done ERR_TIMEOUT, World l cs a sv)
  | Some b :: cs => (Done ERR_OK, World (Link (jtag l) []) cs b sv)
  end.
Proof. by destruct cs as [|[|] cs]. Qed.

Lemma delay_run w : wrun (xcall (XHw (TaskDelay 10))) w = (Done tt, w).
Proof. by destruct w as [[[] ?] ? ? ?]. Qed.

Lemma close_run b w : wrun (xcall (NetconnClose b)) w = (Done tt, w).
Proof. by destruct b, w as [[[] ?] ? ? ?]. Qed.

Lemma delete_run b w :
  wrun (xcall (NetconnDelete b)) w =
  (Done tt, if b then w else World (Link (jtag (line w)) []) (calling w) [] (served w ++ [outbox (line w)])).
Proof. by destruct b, w as [[[] ?] ? ? ?]. Qed.

Lemma init_run w :
  wrun xvc_server_connection_state_init w =
  (Done (XVC_STATUS_OK,
     xvc_server_connection_state_reset (ConnState XVC_COMMAND_NOT_SET block 0 0)), w).
Proof. done. Qed.

Lemma listener_run w :
  wrun (xcall NetconnNew) w = (Done true, w) /\
  wrun (xcall (NetconnBind XVC_PORT)) w = (Done 0, w) /\
  wrun (xcall NetconnListen) w = (Done 0, w).
Proof. by destruct w as [[[] ?] ? ? ?]. Qed.

Lemma cleanup_run st w : wrun (xvc_cleanup st) w = (Done tt, w).
Proof. by destruct w as [[[] ?] ? ? ?]. Qed.

Lemma all_clocked_app rs rs' : all_clocked (rs ++ rs') = all_clocked rs ++ all_clocked rs'.
Proof. unfold all_clocked. by rewrite map_app, concat_app. Qed.

Definition all_requests (calls : list (option client)) : list request :=
  concat (map requests (omap id calls)).

Lemma accept_run fuel n st w sv calls :
  expecting st -> server w = XVC_SERVER_STATE_ENABLED ->
  Forall client_ok (omap id calls) ->
  Forall (fun c => length (sends c) < fuel)%nat (omap id calls) -> (length calls < n)%nat ->
  exists p st',
    wrun (iter n (accept_round fuel) st) (World (Link w []) (map (option_map sends) calls) [] sv) =
      (Done st', World (Link (Wire p (edges w ++ all_clocked (all_requests calls))
                          XVC_SERVER_STATE_ENABLED) []) [] []
                   (sv ++ conversations dev (edges w) (omap id calls))).
Proof.
  revert n st w sv. induction calls as [|call calls IH];
    intros [|n] st w sv Hst Hw Hok Hfuel Hn; simpl in Hn; try lia;
    cbn [iter]; unfold accept_round at 1; rewrite !run_bind, accept_call.
  { cbn [map]. closed_tests. cbn. exists (pins w), st. rewrite !app_nil_r.
    destruct w as [p es s]. simpl in *. by subst. }
  destruct call as [c|]; cbn [map option_map fmap option_fmap]; closed_tests; cbv iota; cbn [orb].
  - cbn [omap list_omap id] in Hok, Hfuel.
    apply list.Forall_cons in Hok as [(Hrs & Hlo & Hseg & Hcut & Harr) Hok].
    apply list.Forall_cons in Hfuel as [Hf Hfuel].
    destruct Hst as [Ha Hb]. cbn [jtag]. rewrite run_bind.
    destruct (serve_run fuel st (PCmd []) (Link w []) (map (option_map sends) calls) (sends c) sv)
      as (st' & rest & -> & Hb'); [done..|].
    rewrite Harr. destruct (requests_run dev (requests c) (leftover c) (Link w [])) as (o & p & ->);
      [done..|]. cbn [snd jtag outbox app].
    rewrite run_bind, close_run, run_bind, delete_run. cbn [run line jtag outbox served calling].
    destruct (IH n (xvc_server_connection_state_reset st')
      (Wire p (edges w ++ all_clocked (requests c)) XVC_SERVER_STATE_ENABLED)
      (sv ++ [conversation dev (edges w) (requests c)])) as (p' & st2 & ->);
      [by apply reset_expecting|done..|lia|].
    exists p', st2. cbn [edges]. unfold all_requests. cbn [omap list_omap id map concat conversations].
    rewrite all_clocked_app, <- !app_assoc. done.
  - rewrite run_bind, delay_run. cbn [run]. apply IH; try done. lia.
Qed.
End server.


(** A client that asks for the version and shifts nine bits, in segments cut
    inside the words and the vectors, one of them a chain cut inside a vector, and
    leaves in the middle of a third request; a time-out; a client that sets the
    clock and then sends rubbish. *)
Definition first_client : client :=
  Client [Getinfo; Shift 9 [0x00; 0x01] [0xA5; 0x01]] [115; 101; 116]
    [Some [segment [103; 101; 116; 105]]; None;
     Some [segment [110; 102; 111; 58; 115; 104; 105; 102; 116; 58; 9; 0]];
     Some [segment [0; 0; 0x00]; segment [0x01; 0xA5; 0x01; 115]]; Some [segment [101; 116]]].
Definition second_client : client :=
  Client [Settck 1000] [120] [Some [segment [115; 101; 116; 116; 99; 107; 58; 0xE8; 3; 0; 0; 120]]].

Lemma sample_segments_ok c : c = first_client \/ c = second_client ->
  Forall chain_ok (omap id (sends c)).
Proof.
  intros Hc. eapply list.Forall_impl with
    (P := fun q => q <> [] /\ Forall (fun p => len p < 13) q /\ Forall is_u8 (flat q)).
  - destruct Hc as [-> | ->]; apply (bool_decide_unpack _); vm_compute; exact I.
  - intros q (Hne & Hl & H8). split; [|done]. split; [|done]. eapply list.Forall_impl; [exact Hl|].
    intros p Hp. cbv beta in *. unfold is_u16. lia.
Qed.

Lemma sample_segments_uncut c : c = first_client \/ c = second_client ->
  uncut_stream (PCmd []) (omap id (sends c)).
Proof.
  intros [-> | ->]; cbn; repeat split; try (right; by left); try (by right; right); done.
Qed.

Lemma sample_clients_ok : Forall client_ok [first_client; second_client].
Proof.
  apply list.Forall_cons. split; [|apply list.Forall_singleton]; (split; [by repeat constructor|]);
    (split; [|split; [apply sample_segments_ok; auto|split; [apply sample_segments_uncut; auto|done]]]).
  - left. exists (Settck 0). split; [done|]. split; [|done]. by exists [116; 99; 107; 58; 0; 0; 0; 0].
  - right; left. intros s Hs. unfold commands in Hs. rewrite !elem_of_cons, elem_of_nil in Hs.
    destruct Hs as [-> |[-> |[-> |[]]]]; intros [Hp|Hp]; revert Hp;
      apply (bool_decide_unpack _); vm_compute; exact I.
Qed.

