(* ===== verification/XvcState.v ===== *)
(** * The XVC server: one state variable, many tasks

    [xvc_server_state] is the lock of the JTAG port: the tasks of the firmware
    (the server task, the telnet commands, the task that watches the cables)
    call the functions of xvc_server.c concurrently.  Here every interleaving
    of such calls is a run of a step relation on the shared variable and the
    tasks' remaining programs; a protocol of roles shows that the pins have
    one writer at a time. *)

From stdpp Require Import relations.
From S2P Require Import Prelude Prog Pio Pbuf Xvc XvcProto XvcShift.

(** ** Tasks *)

(** The calls a task can make of the server. *)
Inductive apiop : Type :=
| ApiEnable
| ApiDisable
| ApiIsEnabled
| ApiUpdateJtagsel
| ApiDoShift (tdi tms : list Z) (n : Z).

Definition api_ans (e : apiop) : Type :=
  match e with
  | ApiEnable | ApiDisable => xvc_status_t
  | ApiIsEnabled => bool
  | ApiUpdateJtagsel => unit
  | ApiDoShift _ _ _ => (xvc_status_t * list Z)%type
  end.

Definition api : Sig := {| op := apiop; ans := api_ans |}.

Definition api_impl (e : op api) : prog xvc (ans api e) :=
  match e with
  | ApiEnable => xvc_server_enable
  | ApiDisable => xvc_server_disable
  | ApiIsEnabled => xvc_server_is_enabled
  | ApiUpdateJtagsel => xvc_server_update_jtagsel
  | ApiDoShift tdi tms n => xvc_server_do_shift tdi tms n
  end.

(** A task: any program that makes such calls, linked to the code. *)
Definition task (p : prog api unit) : prog xvc unit := interp api_impl p.

(** ** The system *)

Definition sys : Type := (xvc_server_state_t * list (prog xvc unit))%type.

(** What one environment call does to the shared variable and may answer:
    critical sections are atomic, everything else can answer anything. *)
Definition shared (e : xop) (s : xvc_server_state_t) (x : xop_ans e)
    (s' : xvc_server_state_t) : Prop :=
  match e return xop_ans e -> Prop with
  | Critical f => fun x => x = s /\ s' = f s
  | LoadState => fun x => x = s /\ s' = s
  | StoreState t => fun _ => s' = t
  | _ => fun _ => s' = s
  end x.

Inductive sys_step : sys -> sys -> Prop :=
| task_step s s' ts i e k x :
    ts !! i = Some (@Vis xvc unit e k) -> shared e s x s' ->
    sys_step (s, ts) (s', <[i := k x]> ts).

Definition initial (c : sys) : Prop :=
  c.1 = XVC_SERVER_STATE_DISABLED /\ Forall (fun t => exists p, t = task p) c.2.

Definition reachable (c : sys) : Prop := exists c0, initial c0 /\ rtc sys_step c0 c.

(** ** Roles *)

Inductive role := Idle | Shifting | Configuring (c : xvc_server_state_t).
#[global] Instance role_eq_dec : EqDecision role.
Proof. solve_decision. Defined.

Definition config_state (s : xvc_server_state_t) : bool :=
  match s with
  | XVC_SERVER_STATE_ENABLING | XVC_SERVER_STATE_DISABLING | XVC_SERVER_CONFIG_IN_PROGRESS => true
  | _ => false
  end.

Definition shift_state_b (s : xvc_server_state_t) : bool :=
  match s with
  | XVC_SERVER_STATE_IO_IN_PROGRESS | XVC_SERVER_STATE_DISABLE_REQUESTED => true
  | _ => false
  end.

Definition free_state (s : xvc_server_state_t) : bool :=
  match s with XVC_SERVER_STATE_ENABLED | XVC_SERVER_STATE_DISABLED => true | _ => false end.

(** What a task in a role knows of the shared variable. *)
Definition knows (r : role) (s : xvc_server_state_t) : Prop :=
  match r with
  | Idle => True
  | Shifting => shift_state_b s = true
  | Configuring c => s = c /\ config_state c = true
  end.

(** The updates a role allows, with the role they lead to. *)
Definition next_role (r : role) (s t : xvc_server_state_t) : option role :=
  match r with
  | Idle =>
    if decide (s = t) then Some Idle
    else match s, t with
    | XVC_SERVER_STATE_ENABLED, XVC_SERVER_STATE_IO_IN_PROGRESS => Some Shifting
    | XVC_SERVER_STATE_ENABLED, XVC_SERVER_STATE_DISABLING => Some (Configuring t)
    | XVC_SERVER_STATE_DISABLED, XVC_SERVER_STATE_ENABLING => Some (Configuring t)
    | XVC_SERVER_STATE_DISABLED, XVC_SERVER_CONFIG_IN_PROGRESS => Some (Configuring t)
    | XVC_SERVER_STATE_IO_IN_PROGRESS, XVC_SERVER_STATE_DISABLE_REQUESTED => Some Idle
    | _, _ => None
    end
  | Shifting =>
    if decide (t = XVC_SERVER_STATE_ENABLED) then Some Idle
    else if decide (s = t) then Some Shifting else None
  | Configuring _ =>
    if free_state t then Some Idle
    else if config_state t then Some (Configuring t) else None
  end.

Definition data_register (a : Z) : bool :=
  (a =? xvc_server_pio_codr) || (a =? xvc_server_pio_sodr).

(** The protocol: which calls a role may make, and what it becomes. *)
Definition role_req (e : xop) (r : role) : Prop :=
  match e with
  | Critical f => forall s, knows r s -> is_Some (next_role r s (f s))
  | StoreState t =>
    match r with Configuring c => is_Some (next_role r c t) | _ => False end
  | XHw (Wr a _) =>
    match r with
    | Idle => False
    | Shifting => data_register a = true
    | Configuring _ => True
    end
  | _ => True
  end.

Definition role_next (e : xop) (r : role) (x : xop_ans e) (r' : role) : Prop :=
  match e return xop_ans e -> Prop with
  | Critical f => fun s => knows r s /\ next_role r s (f s) = Some r'
  | LoadState => fun s => knows r s /\ r' = r
  | StoreState t => fun _ =>
    match r with Configuring c => next_role r c t = Some r' | _ => False end
  | _ => fun _ => r' = r
  end x.

Definition role_env : env xvc role := {| req := role_req : op xvc -> _; step := role_next |}.

(** A program that keeps to the protocol and gives its role up when it ends. *)
Definition releases {A} (o : outcome A) (r : role) : Prop :=
  match o with Done _ => r = Idle | Stop _ => True end.

Definition conforms {A} (r : role) (p : prog xvc A) : Prop := wp role_env p releases r.

(** ** The functions keep to the protocol *)

Definition stays {A} (r : role) (o : outcome A) (r' : role) : Prop := r' = r.
Definition configuring {A} (o : outcome A) (r : role) : Prop := exists c, r = Configuring c.

(** A task that configures may touch the hardware in any way. *)
Lemma config_hw {A} c (p : prog hw A) :
  wp role_env (on_hw p) (stays (Configuring c)) (Configuring c).
Proof.
  induction p as [a|h|e k IH]; [done..|]. simpl. split; [by destruct e|].
  intros x r' ->. apply IH.
Qed.

Lemma config_pin c pin ty :
  wp role_env (configure_pin pin ty) (stays (Configuring c)) (Configuring c).
Proof.
  unfold configure_pin. eapply wp_seq; [apply config_hw|].
  intros [a|h] r' ->; done.
Qed.

(** Any task may read pins. *)
Lemma pin_value r pin : wp role_env (on_hw (pio_get_pin_value pin)) (stays r) r.
Proof. simpl. split; [done|]. by intros x r' ->. Qed.

Lemma jtag_cable r : wp role_env xvc_server_jtag_cable_connected (stays r) r.
Proof.
  unfold xvc_server_jtag_cable_connected. eapply wp_seq; [apply pin_value|].
  by intros [a|h] r' ->.
Qed.

Lemma usb_cable r : wp role_env xvc_server_usb_cable_connected (stays r) r.
Proof.
  unfold xvc_server_usb_cable_connected. eapply wp_seq; [apply pin_value|].
  by intros [a|h] r' ->.
Qed.

(** Sequencing after a part that keeps the role. *)
Lemma wp_stays {A B} r (p : prog xvc A) (f : A -> prog xvc B) Q :
  wp role_env p (stays r) r -> (forall a, wp role_env (f a) Q r) -> (forall h, Q (Stop h) r) ->
  wp role_env (bind p f) Q r.
Proof. intros Hp Hf Hh. eapply wp_seq; [exact Hp|]. intros [a|h] r' ->; simpl; auto. Qed.

Ltac role_step :=
  match goal with
  | |- wp _ (bind (configure_pin _ _) _) _ (Configuring _) =>
    apply wp_stays; [apply config_pin|intros ?|intros ?; try done; try by eexists]
  | |- wp _ (bind (on_hw _) _) _ (Configuring _) =>
    apply wp_stays; [apply config_hw|intros ?|intros ?; try done; try by eexists]
  | |- wp _ (bind (on_hw (pio_get_pin_value _)) _) _ _ =>
    apply wp_stays; [apply pin_value|intros ?|intros ?; try done; try by eexists]
  | |- wp _ (bind xvc_server_jtag_cable_connected _) _ _ =>
    apply wp_stays; [apply jtag_cable|intros ?|intros ?; try done; try by eexists]
  | |- wp _ (bind xvc_server_usb_cable_connected _) _ _ =>
    apply wp_stays; [apply usb_cable|intros ?|intros ?; try done; try by eexists]
  end.

(** The body of [xvc_server_update_gpio_config] past its critical section. *)
Lemma config_pins_stay c (b : bool) :
  wp role_env (if b then configure_pin XILTCK PIO_INPUT;; configure_pin XILTDI PIO_INPUT;;
                         configure_pin XILTMS PIO_INPUT else Ret tt)
    (stays (Configuring c)) (Configuring c).
Proof. destruct b; [|done]. repeat role_step. apply config_pin. Qed.

Lemma jtagsel_stay c (jtag usb : bool) :
  wp role_env (if jtag then on_hw (pio_set_pin_high JTAGSEL)
               else if usb then on_hw (pio_set_pin_low JTAGSEL) else Ret tt)
    (stays (Configuring c)) (Configuring c).
Proof. destruct jtag; [apply config_hw|]. destruct usb; [apply config_hw|done]. Qed.

Lemma outputs_stay c (b refuse : bool) :
  wp role_env
    (if b then
       if refuse then Ret true
       else on_hw (pio_set_pin_high JTAGSEL);; configure_pin XILTCK PIO_OUTPUT_0;;
            configure_pin XILTDI PIO_OUTPUT_0;; configure_pin XILTMS PIO_OUTPUT_0;; Ret false
     else Ret false) (stays (Configuring c)) (Configuring c).
Proof. destruct b; [|done]. destruct refuse; [done|]. by repeat role_step. Qed.

(** Called by the task that holds the configuration role. *)
Lemma update_gpio_config_held c :
  config_state c = true ->
  wp role_env (xvc_server_update_gpio_config c) configuring (Configuring c).
Proof.
  intros Hc. unfold xvc_server_update_gpio_config. split.
  { intros s [-> _]. simpl. rewrite decide_True by done. by eexists. }
  intros s r' [[-> _] Hn]. simpl in Hn. rewrite decide_True in Hn by done.
  injection Hn as <-. cbn [bind]. rewrite decide_False by auto.
  role_step. role_step.
  apply wp_stays; [apply config_pins_stay|intros _|by eexists].
  apply wp_stays; [apply outputs_stay|intros refused|by eexists].
  destruct refused; [by eexists|].
  apply wp_stays; [apply jtagsel_stay|intros _|by eexists].
  simpl. rewrite Hc. destruct c; try done; (split; [by eexists|]); intros _ r' [= <-]; by eexists.
Qed.

(** Called by a task without a role, to re-route the JTAG port. *)
Lemma update_gpio_config_idle :
  wp role_env (xvc_server_update_gpio_config XVC_SERVER_STATE_DISABLED) releases Idle.
Proof.
  unfold xvc_server_update_gpio_config. split.
  { intros s _. simpl. destruct s; simpl; by eexists. }
  intros s r' [_ Hn]. cbn [bind].
  destruct (decide (s = XVC_SERVER_STATE_DISABLED)) as [-> |Hs].
  - injection Hn as <-. rewrite decide_False by auto.
    role_step. role_step.
    apply wp_stays; [apply config_pins_stay|intros _|done].
    change (bool_decide (XVC_SERVER_STATE_DISABLED = XVC_SERVER_STATE_ENABLED)
            || bool_decide (XVC_SERVER_STATE_DISABLED = XVC_SERVER_STATE_ENABLING)) with false.
    cbn [bind]. apply wp_stays; [apply jtagsel_stay|intros _|done].
    simpl. split; [by eexists|]. by intros _ r' [= <-].
  - rewrite decide_False in Hn by done. simpl in Hn. rewrite decide_True in Hn by done.
    injection Hn as <-. by rewrite decide_True.
Qed.

Ltac critical :=
  split;
  [ intros s _; destruct s; simpl; by eexists
  | intros s r' [_ Hn]; destruct s; simpl in Hn; injection Hn as <- ].

Lemma disable_conforms : conforms Idle xvc_server_disable.
Proof.
  unfold conforms, xvc_server_disable. critical; cbn [bind]; try done.
  eapply wp_seq; [by apply update_gpio_config_held|].
  intros [st|h] r [c ->]; [|done]. simpl. split; [intros s _; by eexists|].
  by intros s r' [_ [= <-]].
Qed.

Lemma enable_conforms : conforms Idle xvc_server_enable.
Proof.
  unfold conforms, xvc_server_enable. critical; cbn [bind]; try done.
  eapply wp_seq; [by apply update_gpio_config_held|].
  intros [st|h] r [c ->]; [|done]. simpl. split.
  - intros s _. destruct (decide _); by eexists.
  - intros s r' [_ Hn]. by destruct (decide _); injection Hn as <-.
Qed.

Lemma is_enabled_conforms : conforms Idle xvc_server_is_enabled.
Proof. split; [done|]. by intros s r' [_ ->]. Qed.

Lemma conforms_seq {A B} r (p : prog xvc A) (f : A -> prog xvc B) :
  conforms r p -> (forall a, conforms Idle (f a)) -> conforms r (bind p f).
Proof.
  intros Hp Hf. eapply wp_seq; [exact Hp|]. intros [a|h] r' Hr; simpl in *; [subst; apply Hf|done].
Qed.

Lemma update_jtagsel_conforms : conforms Idle xvc_server_update_jtagsel.
Proof.
  unfold xvc_server_update_jtagsel, conforms. role_step.
  assert (forall (b : bool), conforms Idle
    (let! s := xcall LoadState in
     if decide (s <> XVC_SERVER_STATE_DISABLED) then let! _ := xvc_server_disable in Ret tt
     else let! sel := on_hw (pio_get_pin_value JTAGSEL) in
          if (if b then sel =? 0 else negb (sel =? 0)) then
            let! _ := xvc_server_update_gpio_config XVC_SERVER_STATE_DISABLED in Ret tt
          else Ret tt)) as Hbody.
  { intros b. split; [done|]. intros s r' [_ ->]. cbn [bind].
    destruct (decide _).
    - apply conforms_seq; [apply disable_conforms|done].
    - unfold conforms. role_step. destruct (if b then _ else _); [|done].
      apply conforms_seq; [apply update_gpio_config_idle|done]. }
  destruct a; [apply (Hbody true)|]. role_step.
  destruct (negb _); [apply (Hbody false)|done].
Qed.

(** Shifting: the data registers only. *)
Definition shifting {A} (o : outcome A) (r : role) : Prop := stays Shifting o r.

Lemma set_tdi_tms_stay t m : wp role_env (xvc_server_set_tdi_tms t m) (stays Shifting) Shifting.
Proof. unfold xvc_server_set_tdi_tms. simpl. split; [done|]. intros ? r ->. split; [done|]. by intros ? r' ->. Qed.
Lemma set_tck_high_stay : wp role_env xvc_server_set_tck_high (stays Shifting) Shifting.
Proof. split; [done|]. by intros x r' ->. Qed.
Lemma set_tck_low_stay : wp role_env xvc_server_set_tck_low (stays Shifting) Shifting.
Proof. split; [done|]. by intros x r' ->. Qed.
Lemma get_tdo_stay : wp role_env xvc_server_get_tdo (stays Shifting) Shifting.
Proof. split; [done|]. by intros x r' ->. Qed.
Lemma byte_at_stay l i r : wp role_env (byte_at l i) (stays r) r.
Proof. unfold byte_at. by destruct (_ !! _). Qed.

Lemma shift_bit_stay tms last st : wp role_env (shift_bit tms last st) (stays Shifting) Shifting.
Proof.
  unfold shift_bit.
  apply wp_stays; [apply set_tdi_tms_stay|intros _|done].
  apply wp_stays; [apply set_tck_high_stay|intros _|done].
  apply wp_stays; [|intros [[[[nbit nbyte] tdi_byte] tms_byte] bytes]|done].
  { destruct (_ && _); [|done]. apply wp_stays; [apply byte_at_stay|intros ?|done].
    apply wp_stays; [apply byte_at_stay|done|done]. }
  apply wp_stays; [apply get_tdo_stay|intros tdo|done].
  apply wp_stays; [apply byte_at_stay|intros old|done].
  by apply wp_stays; [apply set_tck_low_stay|intros _|].
Qed.

Lemma shift_bits_stay tms last k st :
  wp role_env (shift_bits tms last k st) (stays Shifting) Shifting.
Proof.
  revert st. induction k as [|k IH]; intros st; [done|]. cbn [shift_bits].
  by apply wp_stays; [apply shift_bit_stay|intros st'|].
Qed.

Lemma do_shift_conforms tdi tms n : conforms Idle (xvc_server_do_shift tdi tms n).
Proof.
  unfold xvc_server_do_shift. apply conforms_seq; [by unfold c_assert; destruct (_ <=? _)|intros _].
  destruct (n =? 0); [done|]. unfold conforms. critical; cbn [bind]; try done.
  apply wp_stays; [apply set_tck_low_stay|intros _|done].
  apply wp_stays; [apply byte_at_stay|intros ?|done].
  apply wp_stays; [apply byte_at_stay|intros ?|done].
  apply wp_stays; [apply shift_bits_stay|intros st|done].
  split; [intros s _; by eexists|]. intros s r' [_ [= <-]]. cbn [bind].
  destruct (decide _); [|done]. apply conforms_seq; [apply disable_conforms|done].
Qed.

Lemma api_conforms e : conforms Idle (api_impl e).
Proof.
  destruct e; [apply enable_conforms|apply disable_conforms|apply is_enabled_conforms
    |apply update_jtagsel_conforms|apply do_shift_conforms].
Qed.

Lemma task_conforms p : conforms Idle (task p).
Proof.
  induction p as [a|h|e k IH]; [done..|]. apply conforms_seq; [apply api_conforms|apply IH].
Qed.

(** ** The invariant of the system *)

Definition task_ok (r : role) (t : prog xvc unit) : Prop := conforms r t.

(** One role per task; at most one is not [Idle]; it knows the shared variable;
    a state that is neither ENABLED nor DISABLED has an owner. *)
Record sys_inv (s : xvc_server_state_t) (rs : list role) (ts : list (prog xvc unit)) : Prop := {
  inv_tasks : Forall2 task_ok rs ts;
  inv_knows : forall i r, rs !! i = Some r -> knows r s;
  inv_unique : forall i j ri rj, rs !! i = Some ri -> rs !! j = Some rj ->
    ri <> Idle -> rj <> Idle -> i = j;
  inv_owner : free_state s = false -> exists i r, rs !! i = Some r /\ r <> Idle
}.

(** What one step of a task in role [r] does to the shared variable, when the
    task keeps to the protocol. *)
Lemma shared_role e s x s' r :
  role_req e r -> knows r s -> shared e s x s' ->
  exists r', role_next e r x r' /\ knows r' s' /\
    (forall q, q <> Idle -> r = Idle -> knows q s -> r' = Idle /\ knows q s') /\
    (r' = Idle -> free_state s' = false -> free_state s = false /\ r = Idle).
Proof.
  intros Hreq Hk Hsh.
  assert (forall r', next_role r s s' = Some r' -> knows r' s' /\
    (forall q, q <> Idle -> r = Idle -> knows q s -> r' = Idle /\ knows q s') /\
    (r' = Idle -> free_state s' = false -> free_state s = false /\ r = Idle)) as Hnext.
  { intros r' Hn. destruct r as [| |c]; simpl in Hn, Hk.
    - split; [by destruct s, s'; simpl in Hn; simplify_eq|].
      split; [|by destruct s, s'; simpl in Hn; simplify_eq].
      intros [| |c] Hq _ Hkq; simpl in *; [done|..].
      + by destruct s, s'; simpl in Hn; simplify_eq.
      + destruct Hkq as [-> Hc]. by destruct c, s'; simpl in Hn; simplify_eq.
    - split; [by destruct s, s'; simpl in Hn; simplify_eq|].
      split; [done|]. by destruct s, s'; simpl in Hn; simplify_eq.
    - split; [by destruct s'; simpl in Hn; simplify_eq|].
      split; [done|]. by destruct s'; simpl in Hn; simplify_eq. }
  assert (s' = s -> exists r', r' = r /\ knows r' s' /\
    (forall q, q <> Idle -> r = Idle -> knows q s -> r' = Idle /\ knows q s') /\
    (r' = Idle -> free_state s' = false -> free_state s = false /\ r = Idle)) as Hsame.
  { intros ->. exists r. by repeat split; try done; subst. }
  destruct e; try (by apply Hsame).
  - destruct Hsh as [-> ->]. destruct (Hreq s Hk) as [r' Hr']. exists r'. by split; [|apply Hnext].
  - destruct Hsh as [-> ->]. destruct (Hsame eq_refl) as (r' & -> & ?). by exists r.
  - simpl in Hreq, Hsh. subst s'. destruct r as [| |c]; try done.
    destruct Hk as [-> _]. destruct Hreq as [r' Hr']. exists r'. by split; [|apply Hnext].
Qed.

Lemma sys_inv_step s rs ts s' ts' :
  sys_inv s rs ts -> sys_step (s, ts) (s', ts') -> exists rs', sys_inv s' rs' ts'.
Proof.
  intros Hinv Hst. inversion Hst as [? ? ? i e k x Hi Hsh]; subst.
  destruct (Forall2_lookup_r _ _ _ _ _ (inv_tasks _ _ _ Hinv) Hi) as (r & Hr & Hok).
  destruct Hok as [Hreq Hcont].
  destruct (shared_role e s x s' r Hreq (inv_knows _ _ _ Hinv i r Hr) Hsh)
    as (r' & Hnext & Hk' & Hothers & Hown).
  assert (i < length rs)%nat as Hlen by (by eapply lookup_lt_Some).
  exists (<[i := r']> rs). split.
  - apply Forall2_insert; [apply Hinv|]. by apply Hcont.
  - intros j q Hj. destruct (decide (i = j)) as [<-|Hij].
    + rewrite list_lookup_insert_eq in Hj by done. by injection Hj as <-.
    + rewrite list_lookup_insert_ne in Hj by done. destruct (decide (q = Idle)) as [-> |Hq]; [done|].
      destruct (decide (r = Idle)) as [Hri|Hri].
      * apply Hothers; [done|done|]. by eapply inv_knows.
      * exfalso. by apply Hij, (inv_unique _ _ _ Hinv i j r q).
  - assert (r' <> Idle -> forall j q, j <> i -> rs !! j = Some q -> q = Idle) as Halone.
    { intros Hr' j q Hij Hj. destruct (decide (q = Idle)) as [|Hq]; [done|exfalso].
      destruct (decide (r = Idle)) as [Hri|Hri].
      - apply Hr', (Hothers q); [done|done|]. by eapply inv_knows.
      - by apply Hij, (inv_unique _ _ _ Hinv j i q r). }
    intros j1 j2 q1 q2 H1 H2 Hq1 Hq2.
    destruct (decide (j1 = i)) as [-> |Hj1], (decide (j2 = i)) as [-> |Hj2]; [done|..].
    + rewrite list_lookup_insert_eq in H1 by done. injection H1 as <-.
      rewrite list_lookup_insert_ne in H2 by done. by destruct Hq2; eapply Halone.
    + rewrite list_lookup_insert_eq in H2 by done. injection H2 as <-.
      rewrite list_lookup_insert_ne in H1 by done. by destruct Hq1; eapply Halone.
    + rewrite list_lookup_insert_ne in H1, H2 by done. by eapply inv_unique.
  - intros Hf. destruct (decide (r' = Idle)) as [Hr'|Hr'].
    + destruct (Hown Hr' Hf) as [Hfs ->].
      destruct (inv_owner _ _ _ Hinv Hfs) as (j & q & Hj & Hq). exists j, q. split; [|done].
      rewrite list_lookup_insert_ne; [done|]. intros <-. congruence.
    + exists i, r'. by rewrite list_lookup_insert_eq.
Qed.

Lemma initial_inv s ts : initial (s, ts) -> exists rs, sys_inv s rs ts.
Proof.
  intros [Hs Hts]. simpl in *. subst s. exists (replicate (length ts) Idle).
  assert (forall i r, replicate (length ts) Idle !! i = Some r -> r = Idle) as Hidle
    by (intros i r [-> _]%lookup_replicate_1; done).
  split.
  - induction Hts as [|t ts [p ->] _ IH]; constructor; [apply task_conforms|].
    apply IH. intros i r [-> _]%lookup_replicate_1; done.
  - intros i r Hr. by rewrite (Hidle i r Hr).
  - intros i j ri rj Hi Hj Hri. by destruct Hri; eapply Hidle.
  - done.
Qed.

Lemma reachable_inv s ts : reachable (s, ts) -> exists rs, sys_inv s rs ts.
Proof.
  intros ([s0 ts0] & Hinit & Hsteps). apply initial_inv in Hinit as [rs0 Hinv].
  remember (s0, ts0) as c0 eqn:E0. remember (s, ts) as c eqn:E.
  revert s0 ts0 rs0 E0 Hinv. induction Hsteps as [c0|c0 [s1 ts1] c Hst Hsteps IH];
    intros s0 ts0 rs0 -> Hinv.
  - injection E as -> ->. eauto.
  - destruct (sys_inv_step _ _ _ _ _ Hinv Hst) as [rs1 Hinv1]. by eapply IH.
Qed.

(** A task about to write a peripheral register. *)
Definition writes (a : Z) (t : prog xvc unit) : Prop :=
  match t with @Vis _ _ (XHw (Wr b _)) _ => b = a | _ => False end.

Definition finished (t : prog xvc unit) : Prop := match t with Ret _ => True | _ => False end.

Lemma writes_role s rs ts i t a :
  sys_inv s rs ts -> ts !! i = Some t -> writes a t ->
  exists r, rs !! i = Some r /\ knows r s /\ r <> Idle /\ (r = Shifting -> data_register a = true).
Proof.
  intros Hinv Hi Hw. destruct (Forall2_lookup_r _ _ _ _ _ (inv_tasks _ _ _ Hinv) Hi) as (r & Hr & Hok).
  exists r. split; [done|]. split; [by eapply inv_knows|].
  destruct t as [|h|e k]; try done. destruct e as [e| | | | | | | | | | | | | |]; try done.
  destruct e; try done. simpl in Hw. subst. destruct Hok as [Hreq _]. simpl in Hreq.
  split; [by intros ->|by intros ->].
Qed.

(** C12: the pins have one writer.  In every state reachable by any interleaving
    of any tasks' calls, if a task is about to write a peripheral register
    then the server is neither ENABLED nor DISABLED, no other task is about
    to write one, and while a shift is under way only the set and clear
    registers of the JTAG pins are written, never their configuration. *)
Theorem pin_writes_exclusive s ts i t a :
  reachable (s, ts) -> ts !! i = Some t -> writes a t ->
  free_state s = false /\
  (shift_state_b s = true -> data_register a = true) /\
  (forall j u b, ts !! j = Some u -> writes b u -> j = i).
Proof.
  intros [rs Hinv]%reachable_inv Hi Hw.
  destruct (writes_role s rs ts i t a Hinv Hi Hw) as (r & Hr & Hk & Hne & Hd).
  split; [|split].
  - destruct r as [| |c]; [done|by destruct s|]. destruct Hk as [-> Hc]. by destruct c.
  - intros Hs. destruct r as [| |c]; [done|by apply Hd|]. destruct Hk as [-> Hc]. by destruct c.
  - intros j u b Hj Hwu.
    destruct (writes_role s rs ts j u b Hinv Hj Hwu) as (q & Hq & _ & Hqne & _).
    by apply (inv_unique _ _ _ Hinv j i q r).
Qed.

(** No call leaves the server stuck: once every task has finished its calls,
    the server is ENABLED or DISABLED, however the calls were interleaved. *)
Theorem no_stuck_server s ts :
  reachable (s, ts) -> Forall finished ts -> free_state s = true.
Proof.
  intros [rs Hinv]%reachable_inv Hfin. destruct (free_state s) eqn:Hf; [done|exfalso].
  destruct (inv_owner _ _ _ Hinv Hf) as (i & r & Hr & Hne).
  destruct (Forall2_lookup_l _ _ _ _ _ (inv_tasks _ _ _ Hinv) Hr) as (t & Ht & Hok).
  pose proof (Forall_lookup_1 _ _ _ _ Hfin Ht) as Hd. destruct t; [|done..].
  by apply Hne.
Qed.

(** One task that reacts to a JTAG cable, one that does nothing. *)
Definition cable_task : prog xvc unit := task (@Vis api unit ApiUpdateJtagsel (fun _ => Ret tt)).
Definition done_task : prog xvc unit := task (Ret tt).

Ltac hw_read v :=
  eapply rtc_l; [eapply (task_step _ _ _ 0 (XHw (Rd _)) _ v); reflexivity|];
  cbn [list_insert insert].
Ltac shared_read e x :=
  eapply rtc_l; [eapply (task_step _ _ _ 0 e _ x); [reflexivity|split; reflexivity]|];
  cbn [list_insert insert].

Definition about_to_write (c : sys) : Prop :=
  exists t, c.2 !! 0%nat = Some t /\ writes (PIO_IDR (pio_get_pin_group XILTCK)) t.

Lemma reachable_write : exists c,
  reachable c /\ c.1 = XVC_SERVER_CONFIG_IN_PROGRESS /\ about_to_write c.
Proof.
  eexists. split.
  - exists (XVC_SERVER_STATE_DISABLED, [cable_task; done_task]). split.
    { split; [done|]. repeat constructor; by eexists. }
    hw_read 0. shared_read LoadState XVC_SERVER_STATE_DISABLED. hw_read 0.
    eapply rtc_l; [eapply (task_step _ _ _ 0 (Critical _) _ XVC_SERVER_STATE_DISABLED);
      [reflexivity|split; reflexivity]|].
    hw_read 0. hw_read 0. apply rtc_refl.
  - split; [reflexivity|]. eexists. split; reflexivity.
Qed.

Lemma pin_writes_exclusive_witness :
  exists s ts t a, reachable (s, ts) /\ ts !! 0%nat = Some t /\ writes a t /\
    free_state s = false /\
    (shift_state_b s = true -> data_register a = true) /\
    (forall j u b, ts !! j = Some u -> writes b u -> j = 0%nat).
Proof.
  destruct reachable_write as ([s ts] & Hr & _ & t & Ht & Hw). exists s, ts, t.
  eexists. split; [exact Hr|]. split; [exact Ht|]. split; [exact Hw|].
  exact (pin_writes_exclusive s ts 0 t _ Hr Ht Hw).
Defined.

Lemma no_stuck_server_witness : free_state XVC_SERVER_STATE_DISABLED = true.
Proof.
  apply (no_stuck_server _ [done_task]).
  - exists (XVC_SERVER_STATE_DISABLED, [done_task]). split; [|apply rtc_refl].
    split; [done|]. repeat constructor. by eexists.
  - by repeat constructor.
Defined.
