(* ===== verification/Telnet.v ===== *)
(** * The telnet server (BasicTelnet.c)

    src/src/ASF/thirdparty/freertos/demo/lwip_avr32_uc3_example/network/
    basictelnet/BasicTelnet.c, over the network stack, the FPGA functions and
    the XVC server. *)

From S2P Require Import Prelude Prog Text Twi TwiBus FpgaTwi Xvc.

Definition LINEBUF_LENGTH : Z := 80.
Definition telnetMAX_PAGE_SIZE : Z := 512.
Definition TELNET_PORT : Z := 23.
Definition telnetSHORT_DELAY : Z := 10.
Definition ERR_OK : Z := 0.
Definition ERR_MEM : Z := -1.
Definition ERR_RST : Z := -11.
Definition ERR_CLSD : Z := -12.

(** ** Parsing a number *)

(** [for (; linebuf[pos] == ' '; pos++);] on what follows [pos]; [None] when
    the scan leaves the buffer. *)
Fixpoint skip_spaces (pos : nat) (rest : list Z) : option (nat * list Z) :=
  match rest with
  | [] => None
  | c :: rest' => if c =? 32 then skip_spaces (S pos) rest' else Some (pos, rest)
  end.

(** The digits: [st], [data_u32] and [pos]. *)
Fixpoint hex_run (pos : nat) (st data_u32 : Z) (rest : list Z) : option (nat * Z * Z) :=
  match rest with
  | [] => None
  | c :: rest =>
    if ((48 <=? c) && (c <=? 57)) || ((97 <=? c) && (c <=? 102)) || ((65 <=? c) && (c <=? 70)) then
      let ch := u8 (c - 48) in
      let ch := if 9 <? ch then u8 (ch - (65 - 57 - 1)) else ch in
      let ch := if 15 <? ch then u8 (ch - (97 - 65)) else ch in
      hex_run (S pos) 0 (u32 (u32 (Z.shiftl data_u32 4) + ch)) rest
    else Some (pos, st, data_u32)
  end.

(** The result and what is stored through [data]. *)
Definition linebuf_set_u32 (linebuf : list Z) (pos : nat) : option (Z * Z) :=
  match skip_spaces pos (drop pos linebuf) with
  | None => None
  | Some (pos, rest) =>
    match hex_run pos (-1) 0 rest with
    | None => None
    | Some (pos, st, data_u32) => Some (if st =? 0 then Z.of_nat pos else st, data_u32)
    end
  end.

(** ** The calls of the server *)

Class Netconn (E : Sig) := {
  netconn_new : prog E unit;
  netconn_bind : Z -> prog E unit;
  netconn_listen : prog E unit;
  netconn_accept : prog E (Z * bool);
  netconn_write : list Z -> prog E unit;
  netconn_recv : prog E (Z * option (list Z));
  netbuf_delete : prog E unit;
  netconn_close : prog E unit;
  netconn_delete : prog E unit;
  vTaskDelay : Z -> prog E unit
}.

Class XvcControl (E : Sig) := {
  is_enabled : prog E bool;
  enable : prog E xvc_status_t;
  disable : prog E xvc_status_t
}.

Definition help_page : list Z :=
  text "Help" ++ crlf ++ text "====" ++ crlf ++
  text "d <address>                " ++ text "Dump registers" ++ crlf ++
  text "j                          " ++ text "Toggle XVC server enable" ++ crlf ++
  text "m <address>                " ++ text "Read register (short)" ++ crlf ++
  text "m <address> <short data>   " ++ text "Write register (short)" ++ crlf ++
  text "x                          Exit" ++ crlf ++ crlf ++
  text "Address and data in hexadecimal format" ++ crlf ++
  text "Base address for EVR/EVM function is 80000000." ++ crlf.

Section telnet.
Context {E : Sig} `{Opb E} `{Netconn E} `{XvcControl E}.

(** ** The commands: the page they leave in [cTelnetPage] *)

(** The eight reads of a dump. *)
Fixpoint dump (n : nat) (lptr : Z) (page : list Z) : prog E (Z * list Z) :=
  match n with
  | O => Ret (lptr, page)
  | S n =>
    let! (status, test) := opb_read_short (u32 lptr) in
    let! cell :=
      (if negb (status =? 0) then Ret (text " failed")
       else let! test := defined test in Ret (text " " ++ hex false 4 test)) in
    dump n (s32 (lptr + 2)) (page ++ cell)
  end.

Definition command_dump (linebuf : list Z) (lptr : Z) : prog E (Z * list Z) :=
  let! (st, addr) := defined (linebuf_set_u32 linebuf 1) in
  let lptr := if 0 <? st then s32 addr else lptr in
  let! (lptr, page) := dump 8 lptr (text "Addr " ++ hex false 8 (u32 lptr) ++ text ": ") in
  Ret (lptr, page ++ crlf).

Definition command_xvc : prog E (list Z) :=
  let! e := is_enabled in
  if e : bool then
    let! r := disable in
    Ret (if bool_decide (r = XVC_STATUS_OK) then text "XVC server has been disabled." ++ crlf
         else text "XVC server could not be disabled." ++ crlf ++
              text "Please ensure that there is no active XVC connection." ++ crlf)
  else
    let! r := enable in
    Ret (if bool_decide (r = XVC_STATUS_OK) then
           text "XVC server has been enabled." ++ crlf ++
           text "XVC connections are accepted on TCP port 2542." ++ crlf
         else text "XVC server could not be enabled." ++ crlf ++
              text "Typically, this happens when a JTAG cable or USB cable is connected." ++ crlf).

Definition command_modify (linebuf : list Z) : prog E (list Z) :=
  let! (st, addr) := defined (linebuf_set_u32 linebuf 1) in
  if 0 <? st then
    let page := text "Addr " ++ hex false 8 addr ++ text ": " ++
                text "st " ++ dec st ++ text " " in
    let! (st, data32) := defined (linebuf_set_u32 linebuf (Z.to_nat st)) in
    let! page :=
      (if 0 <? st then
         netconn_write (page ++ text " write " ++ hex false 4 data32 ++ text ", read");;
         let! _ := opb_write_short addr (Z.land (u16 data32) 0xffff) in Ret []
       else Ret page) in
    let! (status, test) := opb_read_short addr in
    if negb (status =? 0) then Ret (page ++ text " failed" ++ crlf)
    else let! test := defined test in Ret (page ++ text " " ++ hex false 4 test ++ crlf)
  else Ret [].

(** The [switch] on the first character of a line; [lptr] is kept for dumps. *)
Definition command (linebuf : list Z) (lptr : Z) : prog E (Z * list Z) :=
  let! c := defined (linebuf !! 0%nat) in
  if c =? 100 then command_dump linebuf lptr
  else if (c =? 104) || (c =? 72) || (c =? 63) then Ret (lptr, help_page)
  else if (c =? 106) || (c =? 74) then let! page := command_xvc in Ret (lptr, page)
  else if (c =? 109) || (c =? 77) then let! page := command_modify linebuf in Ret (lptr, page)
  else Ret (lptr, []).

(** ** The connection *)

Record telnet_state := TelnetState { linebuf : list Z; linebufpos : Z; lptr : Z }.

(** One received character. *)
Definition telnet_char (ch : Z) (st : telnet_state) : prog E telnet_state :=
  let ch := if ch =? 10 then 0 else ch in
  let! st :=
    (if linebufpos st <? LINEBUF_LENGTH then
       let! buf := defined (store (linebuf st) (Z.to_nat (linebufpos st)) [ch]) in
       Ret (TelnetState buf (linebufpos st + 1) (lptr st))
     else Ret st) in
  if ch =? 0 then
    let! (lptr, page) := command (linebuf st) (lptr st) in
    (match page with [] => Ret tt | _ => netconn_write page end);;
    Ret (TelnetState (linebuf st) 0 lptr)
  else Ret st.

Fixpoint telnet_chars (chars : list Z) (st : telnet_state) : prog E telnet_state :=
  match chars with
  | [] => Ret st
  | ch :: chars => let! st := telnet_char ch st in telnet_chars chars st
  end.

(** [while (rc != ERR_OK && rc != ERR_CLSD && rc != ERR_MEM)] after the first
    receive. *)
Definition recv_round (r : Z * option (list Z))
    : prog E ((Z * option (list Z)) + (Z * option (list Z))) :=
  if negb (r.1 =? ERR_OK) && negb (r.1 =? ERR_CLSD) && negb (r.1 =? ERR_MEM) then
    vTaskDelay telnetSHORT_DELAY;;
    let! r := netconn_recv in Ret (inl r)
  else Ret (inr r).

Context (fuel : nat).

(** One round of the [do ... while (!telnet_exit)]; the received bytes are those
    of the first pbuf of the netbuf. *)
Definition telnet_round (st : telnet_state) : prog E (telnet_state + unit) :=
  netconn_write (text "> ");;
  let! r := netconn_recv in
  let! (uc_rc, buffer) := iter fuel recv_round r in
  if (uc_rc =? ERR_CLSD) || (uc_rc =? ERR_MEM) then Ret (inr tt)
  else
    match buffer with
    | None => Ret (inl st)
    | Some chars =>
      let! st := telnet_chars chars st in
      let! c := defined (chars !! 0%nat) in
      netbuf_delete;;
      Ret (if c =? 120 then inr tt else inl st)
    end.

(** [garbage] is what the uninitialised line buffer and [lptr] hold. *)
Definition prvtelnet_Connection (garbage : telnet_state) : prog E unit :=
  iter fuel telnet_round (TelnetState (linebuf garbage) 0 (lptr garbage));;
  netconn_close;;
  netconn_delete.

Definition telnet_accept_round (r : Z * bool) : prog E ((Z * bool) + bool) :=
  if negb (r.1 =? ERR_OK) then
    vTaskDelay telnetSHORT_DELAY;;
    let! r := netconn_accept in Ret (inl r)
  else Ret (inr r.2).

Definition vBasicTelnetServer (garbage : telnet_state) : prog E unit :=
  netconn_new;;
  netconn_bind TELNET_PORT;;
  netconn_listen;;
  iter fuel (fun _ : unit =>
    let! r := netconn_accept in
    let! connection := iter fuel telnet_accept_round r in
    (if connection : bool then prvtelnet_Connection garbage else Ret tt);;
    Ret (inl tt)) tt.
End telnet.
