(* ===== verification/TelnetSpec.v ===== *)
(** * What the telnet server does with its lines

    Parsing, the line buffer and its bounds, the commands' effect on the FPGA,
    and the connection loop, for the definitions of Telnet.v. *)

From S2P Require Import Prelude Prog Text Twi TwiBus FpgaTwi Xvc Telnet.

(** ** Parsing *)

Lemma skip_spaces_run pos k c rest : c <> 32 ->
  skip_spaces pos (replicate k 32 ++ c :: rest) = Some ((pos + k)%nat, c :: rest).
Proof.
  intros Hc. revert pos. induction k as [|k IH]; intros pos; simpl.
  - rewrite (proj2 (Z.eqb_neq _ _)) by done. by rewrite Nat.add_0_r.
  - rewrite IH. by rewrite Nat.add_succ_comm.
Qed.

(** The C arithmetic on a digit gives its value. *)
Lemma digit_arithmetic c : is_xdigit c = true ->
  (let ch := u8 (c - 48) in
   let ch := if 9 <? ch then u8 (ch - (65 - 57 - 1)) else ch in
   if 15 <? ch then u8 (ch - (97 - 65)) else ch) = xdigit_value c /\ 0 <= xdigit_value c < 16.
Proof.
  unfold is_xdigit, xdigit_value. rewrite !orb_true_iff, !andb_true_iff, !Z.leb_le.
  intros Hc. cbv zeta. rewrite (u8_id (c - 48)) by (unfold is_u8; lia).
  destruct (Z.ltb_spec 9 (c - 48)).
  - rewrite (u8_id (c - 48 - _)) by (unfold is_u8; lia).
    destruct (Z.ltb_spec 15 (c - 48 - (65 - 57 - 1))).
    + rewrite u8_id by (unfold is_u8; lia).
      destruct (Z.leb_spec c 57), (Z.leb_spec c 70); lia.
    + destruct (Z.leb_spec c 57), (Z.leb_spec c 70); lia.
  - rewrite (proj2 (Z.ltb_ge _ _)) by lia. destruct (Z.leb_spec c 57); lia.
Qed.

Lemma hex_run_digits ds pos st v t rest :
  Forall (fun c => is_xdigit c = true) ds -> is_xdigit t = false -> is_u32 v ->
  hex_run pos st v (ds ++ t :: rest) =
  Some ((pos + length ds)%nat, if decide (ds = []) then st else 0,
        u32 (fold_left (fun v c => 16 * v + xdigit_value c) ds v)).
Proof.
  intros Hds Ht. revert pos st v. induction Hds as [|c ds Hc _ IH]; intros pos st v Hv.
  - cbn [app hex_run]. unfold is_xdigit in Ht. rewrite Ht. simpl. by rewrite Nat.add_0_r, u32_id.
  - cbn [app hex_run]. destruct (digit_arithmetic c Hc) as [Hd Hrange]. cbv zeta in Hd |- *.
    rewrite Hd. unfold is_xdigit in Hc. rewrite Hc. rewrite IH by apply u32_range.
    rewrite (decide_False (P := c :: ds = [])) by done. cbn [length].
    rewrite Nat.add_succ_comm. cbn [fold_left]. rewrite <- (hex_fold_u32 ds (16 * v + _)).
    assert (u32 (u32 (Z.shiftl v 4) + xdigit_value c) = u32 (16 * v + xdigit_value c)) as ->.
    { unfold u32. rewrite Zplus_mod_idemp_l, Z.shiftl_mul_pow2 by lia. f_equal. lia. }
    by destruct (decide (ds = [])).
Qed.

(** A number after some spaces and before something that is no digit. *)
Lemma parse_number pre k ds t rest :
  Forall (fun c => is_xdigit c = true) ds -> ds <> [] -> is_xdigit t = false ->
  linebuf_set_u32 (pre ++ replicate k 32 ++ ds ++ t :: rest) (length pre) =
  Some (Z.of_nat (length pre + k + length ds), u32 (hex_value ds)).
Proof.
  intros Hds Hne Ht. unfold linebuf_set_u32. rewrite drop_app_length.
  destruct ds as [|c ds]; [done|]. cbn [app].
  rewrite skip_spaces_run.
  2: { intros ->. by inversion Hds. }
  change (c :: ds ++ t :: rest) with ((c :: ds) ++ t :: rest).
  rewrite hex_run_digits by (done || (unfold is_u32; lia)).
  rewrite decide_False by done. done.
Qed.

Lemma parse_nothing pre k t rest : is_xdigit t = false -> t <> 32 ->
  linebuf_set_u32 (pre ++ replicate k 32 ++ t :: rest) (length pre) = Some (-1, 0).
Proof.
  intros Ht H32. unfold linebuf_set_u32. rewrite drop_app_length, skip_spaces_run by done.
  pose proof (hex_run_digits [] (length pre + k) (-1) 0 t rest ltac:(constructor) Ht
    ltac:(unfold is_u32; lia)) as Hr.
  cbn [app] in Hr. by rewrite Hr.
Qed.

(** Numbers round-trip through the telnet parser: a value below [2^32]
    printed in hexadecimal with any number of leading zeros, in upper or lower
    case, after any number of spaces, is read back as itself, and the position
    returned is the one just behind it. *)
Theorem telnet_number_roundtrip upper n v pre k t rest :
  is_u32 v -> is_xdigit t = false ->
  linebuf_set_u32 (pre ++ replicate k 32 ++ hex upper n v ++ t :: rest) (length pre) =
  Some (Z.of_nat (length pre + k + length (hex upper n v)), v).
Proof.
  intros Hv Ht. rewrite parse_number; [|apply hex_fixed_digits| |done].
  - by rewrite hex_reads_back, u32_id by apply Hv.
  - intros Hnil. apply (f_equal length) in Hnil. unfold hex in Hnil.
    rewrite hex_fixed_length in Hnil. unfold hex_width in Hnil. simpl in Hnil.
    destruct (v <=? 0); [lia|]. assert (0 <= Z.log2 v / 4) by (apply Z.div_pos; [apply Z.log2_nonneg|lia]).
    lia.
Qed.

Example telnet_number_roundtrip_witness :
  linebuf_set_u32 ([109] ++ replicate 1 32 ++ hex false 8 0x8000004C ++ 0 :: []) 1 =
  Some (Z.of_nat (1 + 1 + 8), 0x8000004C).
Proof.
  apply (telnet_number_roundtrip false 8 0x8000004C [109] 1 0 []); [unfold is_u32; lia|reflexivity].
Defined.

(** ** Lines *)

(** Characters that do not end a line and fit into it are stored in order. *)
Section chars.
Context {E : Sig} {OE : Opb E} {NE : Netconn E} {XE : XvcControl E}.

Lemma telnet_chars_stored cs rest buf pos lp :
  Forall (fun c => c <> 0 /\ c <> 10) cs -> length buf = 80%nat -> (pos + length cs <= 80)%nat ->
  telnet_chars (cs ++ rest) (TelnetState buf (Z.of_nat pos) lp) =
  telnet_chars rest (TelnetState (take pos buf ++ cs ++ drop (pos + length cs) buf)
                       (Z.of_nat (pos + length cs)) lp).
Proof.
  intros Hcs. revert buf pos. induction Hcs as [|c cs [H0 H10] _ IH]; intros buf pos Hl Hp.
  - cbn [app length]. by rewrite Nat.add_0_r, take_drop.
  - cbn [length] in Hp. cbn [app telnet_chars]. unfold telnet_char. cbn [linebufpos linebuf lptr].
    rewrite (proj2 (Z.eqb_neq c 10)), (proj2 (Z.eqb_neq c 0)) by done.
    rewrite (proj2 (Z.ltb_lt _ _)) by (unfold LINEBUF_LENGTH; lia). rewrite Nat2Z.id.
    rewrite store_in_bounds by (simpl; lia). cbn [defined bind length].
    replace (Z.of_nat pos + 1) with (Z.of_nat (pos + 1)) by lia.
    rewrite IH.
    + assert (take (pos + 1) (take pos buf ++ [c] ++ drop (pos + 1) buf) = take pos buf ++ [c]) as ->.
      { rewrite app_assoc, take_app_length'; [done|]. rewrite length_app, length_take. simpl. lia. }
      assert (drop (pos + 1 + length cs) (take pos buf ++ [c] ++ drop (pos + 1) buf) =
        drop (pos + S (length cs)) buf) as ->.
      { rewrite app_assoc, drop_app_ge by (rewrite length_app, length_take; simpl; lia).
        rewrite drop_drop. f_equal. rewrite length_app, length_take. simpl. lia. }
      rewrite <- app_assoc. cbn [app]. do 2 f_equal. lia.
    + rewrite !length_app, length_take, length_drop. simpl. lia.
    + simpl. lia.
Qed.

(** What is done with a whole line that fits. *)
Lemma telnet_line line rest buf lp :
  Forall (fun c => c <> 0 /\ c <> 10) line -> length buf = 80%nat -> (length line < 80)%nat ->
  let buf' := line ++ 0 :: drop (length line + 1) buf in
  telnet_chars (line ++ 10 :: rest) (TelnetState buf 0 lp) =
  (let! st :=
     (let! (lptr, page) := command buf' lp in
      (match page with [] => Ret tt | _ => netconn_write page end);;
      Ret (TelnetState buf' 0 lptr)) in
   telnet_chars rest st).
Proof.
  intros Hline Hl Hlt buf'. change 0 with (Z.of_nat 0) at 1.
  rewrite telnet_chars_stored by (done || lia). cbn [telnet_chars]. unfold telnet_char.
  cbn [linebufpos linebuf lptr]. rewrite Z.eqb_refl.
  rewrite (proj2 (Z.ltb_lt _ _)) by (unfold LINEBUF_LENGTH; lia). rewrite Nat2Z.id.
  rewrite store_in_bounds by (rewrite !length_app, length_take, length_drop; simpl; lia).
  cbn [defined bind]. rewrite Z.eqb_refl. cbn [linebuf linebufpos lptr].
  assert (take (0 + length line) (take 0 buf ++ line ++ drop (0 + length line) buf) ++
    [0] ++ drop (0 + length line + length [0]) (take 0 buf ++ line ++ drop (0 + length line) buf) = buf')
    as ->; [|done].
  unfold buf'. change (0 + length line)%nat with (length line).
  change (take 0 buf ++ line ++ drop (length line) buf) with (line ++ drop (length line) buf).
  change (length [0]) with 1%nat. rewrite take_app_length. f_equal. f_equal.
  rewrite drop_app_ge by lia. rewrite drop_drop. f_equal. lia.
Qed.
End chars.

(** ** Writing a register *)

(** The two pages of [m <address> <data>]. *)
Definition modify_announce (st addr data : Z) : list Z :=
  text "Addr " ++ hex false 8 addr ++ text ": " ++ text "st " ++ dec st ++ text " " ++
  text " write " ++ hex false 4 data ++ text ", read".

Definition modify_result (r : Z * option Z) : list Z :=
  match r with
  | (0, Some v) => text " " ++ hex false 4 v ++ crlf
  | _ => text " failed" ++ crlf
  end.

Lemma hex_nonempty upper n v : hex upper n v <> [].
Proof.
  intros Hnil. apply (f_equal length) in Hnil. unfold hex in Hnil.
  rewrite hex_fixed_length in Hnil. unfold hex_width in Hnil. simpl in Hnil.
  destruct (v <=? 0); [lia|].
  assert (0 <= Z.log2 v / 4) by (apply Z.div_pos; [apply Z.log2_nonneg|lia]). lia.
Qed.

Lemma hex_chars upper n v : Forall (fun c => c <> 0 /\ c <> 10) (hex upper n v).
Proof.
  unfold hex. eapply Forall_impl; [|apply hex_fixed_digits]. intros c Hc. split; by intros ->.
Qed.

(** The line [m <address> <data>], in any of the spellings of the numbers
    that fit the line buffer and whatever was in the buffer before, announces
    the write, writes the low 16 bits of the data to the FPGA register, reads
    the register back and reports the value read or the failure; the next line
    starts with an empty buffer. *)
Theorem telnet_write_register {E} {OE : Opb E} {NE : Netconn E} {XE : XvcControl E} {LE : OpbLaws E}
    upper n m addr data buf lp :
  let line := 109 :: 32 :: hex upper n addr ++ 32 :: hex upper m data in
  is_u32 addr -> is_u32 data -> (length line < 80)%nat -> length buf = 80%nat ->
  telnet_chars (line ++ [10]) (TelnetState buf 0 lp) ≈
  (netconn_write (modify_announce (2 + Z.of_nat (length (hex upper n addr))) addr data);;
   let! _ := opb_write_short addr (u16 data) in
   let! r := opb_read_short addr in
   netconn_write (modify_result r);;
   Ret (TelnetState (line ++ 0 :: drop (length line + 1) buf) 0 lp)).
Proof.
  intros line Ha Hd Hlen Hbuf. rewrite (telnet_line line []); [|unfold line|done|done].
  2: { repeat (constructor; [done|]). apply Forall_app. split; [apply hex_chars|].
       constructor; [done|apply hex_chars]. }
  cbn [telnet_chars]. rewrite bind_ret_r.
  set (buf' := line ++ 0 :: drop (length line + 1) buf).
  assert (linebuf_set_u32 buf' 1 = Some (2 + Z.of_nat (length (hex upper n addr)), addr)) as Hp1.
  { unfold buf', line. rewrite <- app_comm_cons, <- app_comm_cons, <- app_assoc.
    pose proof (parse_number [109] 1 (hex upper n addr) 32 (hex upper m data ++ 0 :: drop (length line + 1) buf)
      (hex_fixed_digits _ _ _) (hex_nonempty _ _ _) eq_refl) as Hp.
    cbn [app replicate length] in Hp. etransitivity; [exact Hp|].
    rewrite hex_reads_back, u32_id by apply Ha. f_equal. f_equal. lia. }
  assert (exists st, 0 < st /\ linebuf_set_u32 buf' (2 + length (hex upper n addr)) = Some (st, data))
    as (st & Hst & Hp2).
  { pose proof (parse_number (109 :: 32 :: hex upper n addr) 1 (hex upper m data) 0
      (drop (length line + 1) buf) (hex_fixed_digits _ _ _) (hex_nonempty _ _ _) eq_refl) as Hp.
    rewrite hex_reads_back, u32_id in Hp by apply Hd. eexists; split; [|etransitivity; [|exact Hp]];
      [cbn [length]; lia|]. unfold buf', line. cbn [app replicate length]. by rewrite <- app_assoc. }
  unfold command. change (buf' !! 0%nat) with (Some 109). cbn [defined bind]. closed_tests.
  cbn [orb]. unfold command_modify. rewrite Hp1. cbn [defined bind].
  rewrite (proj2 (Z.ltb_lt _ _)) by lia.
  replace (Z.to_nat (2 + Z.of_nat (length (hex upper n addr)))) with
    (2 + length (hex upper n addr))%nat by lia.
  rewrite Hp2. cbn [defined bind]. rewrite (proj2 (Z.ltb_lt _ _)) by done.
  rewrite !bind_bind. apply bind_proper.
  { unfold modify_announce. by rewrite <- !app_assoc. }
  intros _. change 0xffff with (Z.ones 16). rewrite Z.land_ones by lia.
  change (u16 data mod 2 ^ 16) with (u16 (u16 data)). rewrite (u16_id (u16 data)) by apply u16_range.
  rewrite !bind_bind. apply bind_proper; [reflexivity|intros _]. cbn [bind]. rewrite !bind_bind.
  eapply prog_rel_bind_returns; [apply opb_read_short_stores|]. intros [status test] Hs.
  destruct (Z.eqb_spec status 0) as [-> |Hne]; cbn [negb].
  - destruct (Hs eq_refl) as [v Hv]. simpl in Hv. subst test. reflexivity.
  - assert (modify_result (status, test) = text " failed" ++ crlf) as -> by (by destruct status).
    reflexivity.
Qed.

(** ** The calls of the server, one by one *)

Inductive telop :=
| TRead (w : width) (a : Z)
| TWrite (w : width) (a d : Z)
| TSend (page : list Z)
| TRecv
| TAccept
| TIsEnabled
| TEnable
| TDisable
| TNetbufDelete
| TNetconn
| TDelay (ticks : Z).

Definition telop_ans (e : telop) : Type :=
  match e with
  | TRead _ _ => Z * option Z
  | TWrite _ _ _ => Z
  | TRecv => Z * option (list Z)
  | TAccept => Z * bool
  | TIsEnabled => bool
  | TEnable | TDisable => xvc_status_t
  | _ => unit
  end.

Definition tel : Sig := {| op := telop; ans := telop_ans |}.

#[export] Instance tel_opb : Opb tel := {|
  opb_read_byte a := @trigger tel (TRead W8 a);
  opb_read_short a := @trigger tel (TRead W16 a);
  opb_read_long a := @trigger tel (TRead W32 a);
  opb_write_byte a d := @trigger tel (TWrite W8 a d);
  opb_write_short a d := @trigger tel (TWrite W16 a d);
  opb_write_long a d := @trigger tel (TWrite W32 a d)
|}.

#[export] Instance tel_netconn : Netconn tel := {|
  netconn_new := @trigger tel TNetconn;
  netconn_bind _ := @trigger tel TNetconn;
  netconn_listen := @trigger tel TNetconn;
  netconn_accept := @trigger tel TAccept;
  netconn_write p := @trigger tel (TSend p);
  netconn_recv := @trigger tel TRecv;
  netbuf_delete := @trigger tel TNetbufDelete;
  netconn_close := @trigger tel TNetconn;
  netconn_delete := @trigger tel TNetconn;
  vTaskDelay n := @trigger tel (TDelay n)
|}.

#[export] Instance tel_xvc : XvcControl tel := {|
  is_enabled := @trigger tel TIsEnabled;
  enable := @trigger tel TEnable;
  disable := @trigger tel TDisable
|}.

(** ** Lines and pages within their bounds *)

(** The page buffer is large enough for what is sent; the FPGA answers a 16-bit
    value when it reports success. *)
Definition tel_req (e : telop) (_ : unit) : Prop :=
  match e with
  | TSend page => Z.of_nat (length page) < telnetMAX_PAGE_SIZE
  | _ => True
  end.

Definition tel_step (e : telop) (_ : unit) : telop_ans e -> unit -> Prop :=
  match e with
  | TRead W16 _ => fun r _ => r.1 = 0 -> exists v, r.2 = Some v /\ is_u16 v
  | _ => fun _ _ => True
  end.

Definition tel_env : env tel unit := {| req := tel_req : op tel -> _; step := tel_step |}.

(** Every line, from a column on, ends before the buffer is full. *)
Fixpoint lines_fit (column : nat) (chars : list Z) : Prop :=
  match chars with
  | [] => True
  | c :: chars =>
    if (c =? 0) || (c =? 10) then lines_fit 0 chars
    else (column + 1 < 80)%nat /\ lines_fit (column + 1) chars
  end.

Lemma hex_length_le upper n k v : (1 <= k)%nat -> v < 16 ^ Z.of_nat k ->
  (length (hex upper n v) <= Nat.max n k)%nat.
Proof.
  intros Hk Hv. unfold hex. rewrite hex_fixed_length. unfold hex_width.
  destruct (Z.leb_spec v 0); [lia|].
  assert (Z.log2 v < 4 * Z.of_nat k) as Hl.
  { apply Z.log2_lt_pow2; [done|]. rewrite Z.pow_mul_r by lia. exact Hv. }
  assert (Z.log2 v / 4 < Z.of_nat k) by (apply Z.div_lt_upper_bound; lia). lia.
Qed.

Lemma dec_length v : (length (dec v) <= 10)%nat.
Proof.
  unfold dec. generalize 10%nat as n. intros n. revert v.
  induction n as [|n IH]; intros v; simpl; [lia|]. rewrite length_app. simpl.
  destruct (v <? 10); simpl; [lia|]. specialize (IH (v / 10)). lia.
Qed.

Lemma skip_spaces_before i rest pos : rest !! i = Some 0 ->
  exists k, skip_spaces pos rest = Some ((pos + k)%nat, drop k rest) /\ (k <= i)%nat.
Proof.
  revert i pos. induction rest as [|c rest IH]; intros i pos Hi; [done|]. simpl.
  destruct (Z.eqb_spec c 32) as [-> |].
  - destruct i as [|i]; [done|]. destruct (IH i (S pos) Hi) as (k & -> & Hk).
    exists (S k). rewrite Nat.add_succ_comm. split; [done|lia].
  - exists 0%nat. rewrite Nat.add_0_r. split; [done|lia].
Qed.

Lemma hex_run_before i rest pos st v : rest !! i = Some 0 -> is_u32 v ->
  exists k st' v', hex_run pos st v rest = Some ((pos + k)%nat, st', v') /\ (k <= i)%nat /\ is_u32 v' /\
    (st' = st \/ st' = 0).
Proof.
  revert i pos st v. induction rest as [|c rest IH]; intros i pos st v Hi Hv; [done|]. simpl.
  destruct (_ || _) eqn:Hc.
  - destruct i as [|i]; [injection Hi as ->; discriminate Hc|].
    edestruct (IH i (S pos) 0) as (k & st' & v' & -> & Hk & Hv' & Hst); [exact Hi|apply u32_range|].
    exists (S k), st', v'. rewrite Nat.add_succ_comm. repeat split; [lia|apply Hv'..|].
    destruct Hst; by right.
  - exists 0%nat, st, v. rewrite Nat.add_0_r. repeat split; [lia|apply Hv..|by left].
Qed.

(** With a NUL ahead the parser stays in the buffer. *)
Lemma parse_before buf p pos : buf !! p = Some 0 -> (pos <= p)%nat ->
  exists st v, linebuf_set_u32 buf pos = Some (st, v) /\ is_u32 v /\
    (st = -1 \/ Z.of_nat pos <= st <= Z.of_nat p).
Proof.
  intros Hp Hle. unfold linebuf_set_u32.
  assert (drop pos buf !! (p - pos)%nat = Some 0) as Hi
    by (rewrite lookup_drop; by replace (pos + (p - pos))%nat with p by lia).
  destruct (skip_spaces_before _ _ pos Hi) as (k & -> & Hk).
  assert (drop k (drop pos buf) !! (p - pos - k)%nat = Some 0) as Hi'
    by (rewrite lookup_drop; by replace (k + (p - pos - k))%nat with (p - pos)%nat by lia).
  destruct (hex_run_before _ _ (pos + k) (-1) 0 Hi' ltac:(unfold is_u32; lia))
    as (k' & st & v & -> & Hk' & Hv & Hst).
  destruct Hst as [-> | ->]; simpl; eexists _, v; (split; [reflexivity|]); (split; [done|]);
    [by left|right; lia].
Qed.

(** A page that fits. *)
Definition page_fits (page : list Z) : Prop := Z.of_nat (length page) < telnetMAX_PAGE_SIZE.

Definition replied (o : outcome (list Z)) (_ : unit) : Prop :=
  exists page, o = Done page /\ page_fits page.

Definition command_done (o : outcome (Z * list Z)) (_ : unit) : Prop :=
  exists lp page, o = Done (lp, page) /\ page_fits page.

Lemma hex4_length v : is_u16 v -> (length (hex false 4 v) <= 4)%nat.
Proof. intros Hv. apply (hex_length_le _ 4 4); [lia|]. unfold is_u16 in Hv. simpl. lia. Qed.

Lemma hex8_length n v : (n <= 8)%nat -> is_u32 v -> (length (hex false n v) <= 8)%nat.
Proof.
  intros Hn Hv. pose proof (hex_length_le false n 8 v ltac:(lia)) as H.
  unfold is_u32 in Hv. specialize (H ltac:(simpl; lia)). lia.
Qed.

Lemma wp_dump n lp page :
  wp tel_env (dump n lp page) (fun o _ => exists lp' page', o = Done (lp', page') /\
    (length page' <= length page + 7 * n)%nat) tt.
Proof.
  revert lp page. induction n as [|n IH]; intros lp page; [exists lp, page; split; [done|lia]|].
  cbn [dump]. split; [done|]. intros [status test] [] Hs. simpl in Hs. cbn [bind].
  assert (forall cell, (length cell <= 7)%nat -> wp tel_env (dump n (s32 (lp + 2)) (page ++ cell))
    (fun o _ => exists lp' page', o = Done (lp', page') /\
       (length page' <= length page + 7 * S n)%nat) tt) as Hnext.
  { intros cell Hc. eapply wp_mono; [apply IH|]. intros o _ (lp' & page' & -> & Hl).
    exists lp', page'. split; [done|]. rewrite length_app in Hl. lia. }
  destruct (Z.eqb_spec status 0) as [-> |]; cbn [negb bind]; [|by apply Hnext].
  destruct (Hs eq_refl) as (v & -> & Hv). cbn [defined bind]. apply Hnext.
  rewrite length_app. pose proof (hex4_length v Hv). simpl. lia.
Qed.

Lemma wp_command_dump buf p lp : buf !! p = Some 0 -> (1 <= p)%nat ->
  wp tel_env (command_dump buf lp) command_done tt.
Proof.
  intros Hp H1. unfold command_dump.
  destruct (parse_before buf p 1 Hp H1) as (st & v & -> & Hv & _). cbn [defined bind].
  eapply wp_seq; [apply wp_dump|]. intros o [] (lp' & page & -> & Hl). cbn [andthen].
  exists lp', (page ++ crlf). split; [done|]. unfold page_fits, telnetMAX_PAGE_SIZE.
  rewrite !length_app in *. pose proof (hex8_length 8 (u32 (if 0 <? st then s32 v else lp))
    ltac:(lia) ltac:(apply u32_range)). simpl in *. lia.
Qed.

Lemma wp_command_xvc : wp tel_env command_xvc replied tt.
Proof.
  split; [done|]. intros [] [] _; cbn [bind]; (split; [done|]); intros r [] _;
    (eexists; split; [reflexivity|]); case_bool_decide; by vm_compute.
Qed.

Lemma wp_command_modify buf p : buf !! p = Some 0 -> (1 <= p)%nat ->
  wp tel_env (command_modify buf) replied tt.
Proof.
  intros Hp H1. unfold command_modify.
  destruct (parse_before buf p 1 Hp H1) as (st & v & -> & Hv & Hst). cbn [defined bind].
  destruct (Z.ltb_spec 0 st) as [Hpos|]; [|by exists []].
  destruct (parse_before buf p (Z.to_nat st) Hp) as (st' & v' & -> & Hv' & _); [lia|].
  cbn [defined bind].
  pose proof (hex8_length 8 v ltac:(lia) Hv) as Ha. pose proof (hex8_length 4 v' ltac:(lia) Hv') as Hd.
  pose proof (dec_length st) as Hdec.
  set (page := text "Addr " ++ _).
  assert (length page <= 40)%nat as Hpage by (unfold page; rewrite !length_app; simpl; lia).
  assert (forall page, (length page <= 40)%nat -> wp tel_env (
    let! (status, test) := opb_read_short v in
    if negb (status =? 0) then Ret (page ++ text " failed" ++ crlf)
    else let! test := defined test in Ret (page ++ text " " ++ hex false 4 test ++ crlf))
    replied tt) as Hread.
  { intros pg Hpg. split; [done|]. intros [status test] [] Hs. simpl in Hs. cbn [bind].
    destruct (Z.eqb_spec status 0) as [-> |]; cbn [negb].
    - destruct (Hs eq_refl) as (w & -> & Hw). cbn [defined bind]. eexists. split; [reflexivity|].
      pose proof (hex4_length w Hw). unfold page_fits, telnetMAX_PAGE_SIZE. rewrite !length_app. simpl. lia.
    - eexists. split; [reflexivity|]. unfold page_fits, telnetMAX_PAGE_SIZE. rewrite !length_app. simpl. lia. }
  destruct (0 <? st'); cbn [bind]; [|by apply Hread].
  split; [cbn [req tel_env tel_req netconn_write tel_netconn]; unfold telnetMAX_PAGE_SIZE;
    rewrite !length_app; change (length (text " write ")) with 7%nat;
    change (length (text ", read")) with 6%nat; lia|].
  intros [] [] _. cbn [bind]. split; [done|]. intros w [] _. cbn [bind]. apply Hread. simpl. lia.
Qed.

Lemma wp_telnet_command buf p lp : buf !! p = Some 0 -> wp tel_env (command buf lp) command_done tt.
Proof.
  intros Hp. unfold command. destruct (buf !! 0%nat) as [c|] eqn:Hc.
  2: { apply lookup_ge_None in Hc. apply lookup_lt_Some in Hp. simpl in Hc. lia. }
  cbn [defined bind].
  assert (c <> 0 -> (1 <= p)%nat) as H1 by (intros Hc0; destruct p; [congruence|lia]).
  assert (forall q, wp tel_env q replied tt ->
    wp tel_env (let! page := q in Ret (lp, page)) command_done tt) as Hpage.
  { intros q Hq. eapply wp_seq; [exact Hq|]. intros o [] (page & -> & Hf). by exists lp, page. }
  destruct (Z.eqb_spec c 100) as [-> |]; [by apply (wp_command_dump _ p); [|apply H1]|].
  destruct ((c =? 104) || (c =? 72) || (c =? 63)); [exists lp, help_page; split; [done|by vm_compute]|].
  destruct ((c =? 106) || (c =? 74)); [apply Hpage, wp_command_xvc|].
  destruct ((c =? 109) || (c =? 77)) eqn:Hm; [|by exists lp, []].
  apply Hpage, (wp_command_modify _ p); [done|]. apply H1. intros ->. discriminate Hm.
Qed.

Definition line_state (column : nat) (o : outcome telnet_state) (_ : unit) : Prop :=
  exists st, o = Done st /\ length (linebuf st) = 80%nat /\ linebufpos st = Z.of_nat column.

Lemma wp_telnet_char c column st : (column < 80)%nat ->
  length (linebuf st) = 80%nat -> linebufpos st = Z.of_nat column ->
  wp tel_env (telnet_char c st)
    (line_state (if (c =? 0) || (c =? 10) then 0 else column + 1)) tt.
Proof.
  intros Hcol Hl Hp. unfold telnet_char. rewrite Hp.
  rewrite (proj2 (Z.ltb_lt _ _)) by (unfold LINEBUF_LENGTH; lia). rewrite Nat2Z.id.
  rewrite store_in_bounds by (simpl; lia). cbn [defined bind length].
  set (c' := if c =? 10 then 0 else c).
  assert ((c' =? 0) = ((c =? 0) || (c =? 10))) as Hc'.
  { unfold c'. destruct (Z.eqb_spec c 10) as [-> |]; [done|]. by rewrite orb_false_r. }
  set (buf := take column (linebuf st) ++ _).
  assert (length buf = 80%nat) as Hbuf
    by (unfold buf; rewrite !length_app, length_take, length_drop; simpl; lia).
  rewrite Hc'. destruct ((c =? 0) || (c =? 10)).
  - cbn [linebuf lptr]. eapply wp_seq; [apply (wp_telnet_command _ column)|].
    { unfold buf. rewrite lookup_app_r by (rewrite length_take; lia).
      rewrite length_take, Nat.min_l, Nat.sub_diag by lia. cbn. f_equal. by apply Z.eqb_eq. }
    intros o [] (lp & page & -> & Hf). cbn [andthen].
    destruct page as [|ch page]; [by eexists|]. split; [exact Hf|]. intros [] [] _. by eexists.
  - eexists. split; [reflexivity|]. split; [exact Hbuf|]. simpl. lia.
Qed.

(** C40: Every sequence of lines that fit the 80-byte line buffer is served
    within bounds, whatever the FPGA, the XVC server and the network answer: no
    scan leaves the line buffer, every page sent is shorter than the 512 bytes
    of the page buffer, and the server is ready for the next character. *)
Theorem telnet_lines_within_bounds column chars st :
  (column < 80)%nat -> length (linebuf st) = 80%nat -> linebufpos st = Z.of_nat column ->
  lines_fit column chars ->
  wp tel_env (telnet_chars chars st) (fun o _ =>
    exists st' column', o = Done st' /\ length (linebuf st') = 80%nat /\
      linebufpos st' = Z.of_nat column' /\ (column' < 80)%nat) tt.
Proof.
  revert column st. induction chars as [|c chars IH]; intros column st Hcol Hl Hp Hfit.
  { by exists st, column. }
  cbn [telnet_chars]. eapply wp_seq; [by apply (wp_telnet_char c column)|].
  intros o [] (st' & -> & Hl' & Hp'). cbn [andthen]. cbn [lines_fit] in Hfit.
  destruct (_ || _); [apply (IH 0%nat); (done || lia)|].
  destruct Hfit as [Hlt Hfit]. by apply (IH (column + 1)%nat).
Qed.

Example telnet_lines_within_bounds_witness :
  wp tel_env (telnet_chars (text "m 8000004c 12ff" ++ [13; 10]) (TelnetState (replicate 80 55) 0 7))
    (fun o _ => exists st' column', o = Done st' /\ length (linebuf st') = 80%nat /\
       linebufpos st' = Z.of_nat column' /\ (column' < 80)%nat) tt.
Proof.
  apply (telnet_lines_within_bounds 0); [lia|done|done|]. cbn. repeat split; lia.
Defined.

(** A line of 80 digits or more after [m] makes the parser run off the end
    of the line buffer: the terminating NUL has no room and is dropped. *)
Theorem overlong_line_leaves_buffer {E} {OE : Opb E} {NE : Netconn E} {XE : XvcControl E}
    digits rest buf lp :
  Forall (fun c => is_xdigit c = true) digits -> length digits = 79%nat -> length buf = 80%nat ->
  telnet_chars (109 :: digits ++ 10 :: rest) (TelnetState buf 0 lp) = Halt Undefined.
Proof.
  intros Hd Hl Hbuf. change (109 :: digits ++ 10 :: rest) with ((109 :: digits) ++ 10 :: rest).
  change 0 with (Z.of_nat 0). rewrite telnet_chars_stored; [|constructor; [done|]|done|simpl; lia].
  2: { eapply Forall_impl; [|exact Hd]. intros c Hc. split; by intros ->. }
  rewrite drop_ge by (simpl; lia). rewrite app_nil_r. cbn [take app telnet_chars].
  unfold telnet_char. cbn [linebufpos linebuf lptr]. rewrite Z.eqb_refl.
  rewrite (proj2 (Z.ltb_ge _ _)) by (unfold LINEBUF_LENGTH; simpl length; lia).
  cbn [bind linebuf lptr]. rewrite Z.eqb_refl.
  change (take 0 buf ++ 109 :: digits) with (109 :: digits).
  unfold command. change ((109 :: digits) !! 0%nat) with (Some 109). cbn [defined bind].
  closed_tests. cbn [orb]. unfold command_modify.
  assert (linebuf_set_u32 (109 :: digits) 1 = None) as ->; [|done].
  unfold linebuf_set_u32.
  assert (forall pos st v, hex_run pos st v digits = None) as Hrun.
  { clear Hl. induction Hd as [|c ds Hc _ IH]; intros pos st v; [done|].
    cbn [hex_run]. unfold is_xdigit in Hc. rewrite Hc. apply IH. }
  destruct digits as [|c digits]; [done|].
  assert (skip_spaces 1 (c :: digits) = Some (1%nat, c :: digits)) as Hs.
  { apply (skip_spaces_run 1 0 c digits). intros ->. by inversion Hd. }
  change (drop 1 (109 :: c :: digits)) with (c :: digits). by rewrite Hs, Hrun.
Qed.

Example overlong_line_leaves_buffer_witness :
  @telnet_chars tel _ _ _ (109 :: replicate 79 48 ++ 10 :: []) (TelnetState (replicate 80 0) 0 0) =
  Halt Undefined.
Proof.
  apply overlong_line_leaves_buffer; [|done|done]. apply Forall_replicate. done.
Defined.

(** The calls of the server with an FPGA whose reads store what they report. *)
#[local] Instance tel_fpga : Opb tel := {|
  opb_read_byte a := let! r := @trigger tel (TRead W8 a) in Ret (0, Some (u8 (default 0 r.2)));
  opb_read_short a := let! r := @trigger tel (TRead W16 a) in Ret (0, Some (u16 (default 0 r.2)));
  opb_read_long a := let! r := @trigger tel (TRead W32 a) in Ret (0, Some (u32 (default 0 r.2)));
  opb_write_byte a d := @trigger tel (TWrite W8 a d);
  opb_write_short a d := @trigger tel (TWrite W16 a d);
  opb_write_long a d := @trigger tel (TWrite W32 a d)
|}.

#[local] Instance tel_fpga_laws : OpbLaws tel.
Proof. split; intros a r _; by eexists. Qed.

Example telnet_write_register_witness :
  @telnet_chars tel tel_fpga _ _
    ((109 :: 32 :: hex false 8 0x8000004C ++ 32 :: hex false 4 0x12FF) ++ [10])
    (TelnetState (replicate 80 1) 0 0) ≈
  (netconn_write (modify_announce (2 + Z.of_nat (length (hex false 8 0x8000004C))) 0x8000004C 0x12FF);;
   let! _ := @opb_write_short tel tel_fpga 0x8000004C (u16 0x12FF) in
   let! r := @opb_read_short tel tel_fpga 0x8000004C in
   netconn_write (modify_result r);;
   Ret (TelnetState ((109 :: 32 :: hex false 8 0x8000004C ++ 32 :: hex false 4 0x12FF) ++
     0 :: drop (length (109 :: 32 :: hex false 8 0x8000004C ++ 32 :: hex false 4 0x12FF) + 1)
            (replicate 80 1)) 0 0)).
Proof.
  apply (telnet_write_register (LE := tel_fpga_laws)); [unfold is_u32; lia|unfold is_u32; lia| |done].
  vm_compute. lia.
Defined.

(** ** A connection that was reset

    lwIP answers every further [netconn_recv] of a connection with the fatal
    error it has recorded for it; [tel_dead] is a peer that has reset. *)
Definition tel_dead (err : Z) (e : telop) (n : nat) : telop_ans e * nat :=
  match e with
  | TRead _ _ => ((0, Some 0), n)
  | TWrite _ _ _ => (0, n)
  | TRecv => ((err, None), S n)
  | TAccept => ((ERR_OK, true), n)
  | TIsEnabled => (false, n)
  | TEnable | TDisable => (XVC_STATUS_OK, n)
  | TSend _ | TNetbufDelete | TNetconn | TDelay _ => (tt, n)
  end.

Definition trun {A} (err : Z) (p : prog tel A) (n : nat) : outcome A * nat :=
  @run tel nat A (tel_dead err) p n.

Lemma trun_recv_loop err f n :
  err <> ERR_OK -> err <> ERR_CLSD -> err <> ERR_MEM ->
  trun err (iter f recv_round (err, None)) n = (Stop OutOfFuel, (n + f)%nat).
Proof.
  intros H0 H1 H2. revert n. induction f as [|f IH]; intros n; [by rewrite Nat.add_0_r|].
  cbn [iter]. unfold recv_round at 1. cbn [fst].
  rewrite !(proj2 (Z.eqb_neq _ _)) by done. cbn.
  change (trun err (iter f recv_round (err, None)) (S n) = (Stop OutOfFuel, (n + S f)%nat)).
  rewrite IH. f_equal. lia.
Qed.

(** When the peer resets the connection, or it is aborted, the telnet task
    never leaves it: for every number of rounds the handler is still asking for
    data (any receive error but closed and out of memory has this effect), so
    that no other connection is served any more. *)
Theorem telnet_stuck_after_reset err f garbage n :
  err <> ERR_OK -> err <> ERR_CLSD -> err <> ERR_MEM ->
  trun err (prvtelnet_Connection f garbage) n = (Stop OutOfFuel, (n + if decide (f = 0%nat) then 0 else S f)%nat).
Proof.
  intros H0 H1 H2. unfold prvtelnet_Connection, trun. rewrite run_bind.
  destruct f as [|f]; [by rewrite Nat.add_0_r|]. rewrite decide_False by done.
  assert (trun err (iter (S f) (telnet_round (S f)) (TelnetState (linebuf garbage) 0 (lptr garbage))) n =
    (Stop OutOfFuel, (n + S (S f))%nat)) as Hr; [|unfold trun in Hr; by rewrite Hr].
  unfold trun. cbn [iter]. rewrite run_bind.
  assert (trun err (telnet_round (S f) (TelnetState (linebuf garbage) 0 (lptr garbage))) n =
    (Stop OutOfFuel, (n + S (S f))%nat)) as Hr; [|unfold trun in Hr; by rewrite Hr].
  unfold trun, telnet_round. cbn [bind netconn_write tel_netconn trigger run tel_dead netconn_recv].
  rewrite run_bind. pose proof (trun_recv_loop err (S f) (S n) H0 H1 H2) as Hl. unfold trun in Hl.
  rewrite Hl. f_equal. lia.
Qed.

Example telnet_stuck_after_reset_witness :
  trun ERR_RST (prvtelnet_Connection 1000 (TelnetState (replicate 80 0) 0 0)) 0 =
  (Stop OutOfFuel, (0 + if decide (1000 = 0)%nat then 0 else 1001)%nat).
Proof. by apply telnet_stuck_after_reset. Defined.
