(* ===== verification/Serial.v ===== *)
(** * The serial monitor (serial_monitor.c)

    src/src/ASF/thirdparty/freertos/demo/lwip_sam_example/serial_monitor.c, over
    the console, the FPGA functions, the flash functions and the memory. *)

From S2P Require Import Prelude Prog Text Twi TwiBus FpgaTwi Flash.

(** ** The calls of the monitor *)

Class Console (E : Sig) := {
  putchar : Z -> prog E unit;
  printf : list Z -> prog E unit;
  getchar : prog E Z;
  uart_is_rx_ready : prog E bool;
  vTaskDelay : Z -> prog E unit;
  ioport_set_pin_level : Z -> bool -> prog E unit
}.

(** The functions of evm300.h that [Opb] does not have. *)
Class FpgaRaw (E : Sig) := {
  raw_test_write : prog E Z;
  raw_write_command : Z -> prog E Z;
  raw_write_opb_address : Z -> prog E Z;
  raw_read_data : prog E (Z * option Z)
}.

Class FlashApi (E : Sig) := {
  api_write_enable : prog E m25p_status_t;
  api_sector_erase : Z -> prog E m25p_status_t;
  api_write_disable : prog E m25p_status_t;
  api_wait_for_ready : prog E m25p_status_t;
  api_write_mac_address : list Z -> prog E m25p_status_t;
  api_write_sn : list Z -> Z -> prog E m25p_status_t
}.

(** Words of the processor's address space. *)
Class Memory (E : Sig) := {
  load32 : Z -> prog E Z;
  store32 : Z -> Z -> prog E unit
}.

Definition LED_RED1_ON : Z := 21.
Definition LED_GREEN1_OFF : Z := 94.
Definition LED_BLUE2_OFF : Z := 93.
Definition LED_GREEN2_OFF : Z := 83.
Definition LED_RED2_ON : Z := 82.
Definition LED_BLUE1_OFF : Z := 53.
Definition MRF_OUI_0 : Z := 0x00.
Definition MRF_OUI_1 : Z := 0x0E.
Definition MRF_OUI_2 : Z := 0xB2.

(** The functions of ctype.h, in the C locale. *)
Definition isprint (c : Z) : bool := (32 <=? c) && (c <=? 126).
Definition toupper (c : Z) : Z := if (97 <=? c) && (c <=? 122) then c - 32 else c.

(** A C string: what precedes the first NUL; [None] if there is none. *)
Fixpoint c_string (s : list Z) : option (list Z) :=
  match s with
  | [] => None
  | c :: s => if c =? 0 then Some [] else option_map (cons c) (c_string s)
  end.

Section monitor.
Context {E : Sig} `{Console E} `{Opb E} `{FpgaRaw E} `{FlashApi E} `{Memory E}.
Context (fuel : nat).

(** ** Input *)

Fixpoint put_string (s : list Z) : prog E unit :=
  match s with
  | [] => Ret tt
  | c :: s => putchar c;; put_string s
  end.

(** One round of the [do ... while]: the buffer and [i]. *)
Definition editline_round (len : Z) (st : list Z * Z) : prog E ((list Z * Z) + (list Z * Z * Z)) :=
  let '(s, i) := st in
  let! c := getchar in
  let! (s, i) :=
    (if i <? len - 1 then
       if isprint c then
         putchar c;;
         let! s := defined (store s (Z.to_nat i) [c]) in Ret (s, i + 1)
       else Ret (s, i)
     else Ret (s, i)) in
  let! i :=
    (if c =? 8 then
       if 0 <? i then putchar 8;; putchar 32;; putchar 8;; Ret (i - 1) else Ret i
     else Ret i) in
  Ret (if negb (c =? 3) && negb (c =? 13) && negb (c =? 10) then inl (s, i) else inr (s, i, c)).

(** The buffer and the result. *)
Definition serial_editline (s : list Z) (len : Z) : prog E (list Z * Z) :=
  let! old := defined (c_string s) in
  put_string old;;
  let! (s, i, c) := iter fuel (editline_round len) (s, Z.of_nat (length old)) in
  let! s := defined (store s (Z.to_nat i) [0]) in
  Ret (s, if c =? 3 then -1 else i).

Definition serial_yes : prog E bool :=
  printf (text "(yes/no) ? ");;
  let! c := getchar in
  if (c =? 121) || (c =? 89) then
    putchar c;;
    let! c := getchar in
    if (c =? 101) || (c =? 69) then
      putchar c;;
      let! c := getchar in
      if (c =? 115) || (c =? 83) then putchar c;; Ret true
      else Ret false
    else Ret false
  else Ret false.

(** [todo] is [8 - i]; the result is [d], [i] and the last character. *)
Fixpoint hexread_loop (todo : nat) (d i : Z) : prog E (Z * Z * Z) :=
  match todo with
  | O => Ret (d, i, 0)
  | S todo =>
    let! c := getchar in
    putchar c;;
    if is_xdigit c then
      let c' := toupper c in
      let c' := if 57 <? c' then u8 (c' - (65 - 10)) else u8 (c' - 48) in
      let d := u32 (u32 (Z.shiftl d 4) + c') in
      match todo with
      | O => Ret (d, i + 1, c')
      | _ => hexread_loop todo d (i + 1)
      end
    else Ret (d, i, c)
  end.

(** The result and the value stored through [x]. *)
Definition serial_hexread32 : prog E (bool * Z) :=
  let! (d, i, c) := hexread_loop 8 0 0 in
  Ret ((i =? 8) || ((0 <? i) && ((c =? 10) || (c =? 13))), d).

(** ** ext_flash.c: the name of a status *)
Definition ext_flash_print_status (status : m25p_status_t) : prog E unit :=
  printf (match status with
    | M25P_SUCCESS => text "SUCCESS"
    | M25P_SECTOR_PROTECTED => text "SECTOR_PROTECTED"
    | M25P_SECTOR_UNPROTECTED => text "SECTOR_UNPROTECTED"
    | M25P_ERROR_INIT => text "ERROR_INIT"
    | M25P_ERROR_NOT_FOUND => text "ERROR_NOT_FOUND"
    | M25P_ERROR_WRITE => text "ERROR_WRITE"
    | M25P_ERROR_BUSY => text "ERROR_BUSY"
    | M25P_ERROR_PROTECTED => text "ERROR_PROTECTED"
    | M25P_ERROR_SPI => text "ERROR_SPI"
    | _ => text "ERROR"
    end).

(** ** The commands *)

Fixpoint blink (n : nat) : prog E unit :=
  match n with
  | O => Ret tt
  | S n =>
    ioport_set_pin_level LED_RED1_ON true;;
    ioport_set_pin_level LED_RED2_ON true;;
    ioport_set_pin_level LED_GREEN1_OFF false;;
    ioport_set_pin_level LED_GREEN2_OFF false;;
    ioport_set_pin_level LED_BLUE1_OFF false;;
    ioport_set_pin_level LED_BLUE2_OFF false;;
    vTaskDelay 20;;
    blink n
  end.

(** [x & (-size)]. *)
Definition align (x size : Z) : Z := Z.land x (u32 (- size)).

(** A read of [size] bytes at [x] and its report. *)
Definition print_fpga (size x : Z) : prog E unit :=
  let report digits (r : Z * option Z) :=
    if negb (r.1 =? 0) then printf (text " failed")
    else let! data := defined r.2 in printf (text " " ++ hex true digits data) in
  if size =? 1 then let! r := opb_read_byte x in report 2%nat r
  else if size =? 2 then let! r := opb_read_short x in report 4%nat r
  else if size =? 4 then let! r := opb_read_long x in report 8%nat r
  else Ret tt.

Fixpoint dump_fpga (n : nat) (size x : Z) : prog E Z :=
  match n with
  | O => Ret x
  | S n => print_fpga size x;; dump_fpga n size (u32 (x + size))
  end.

Fixpoint dump_memory (n : nat) (x : Z) : prog E Z :=
  match n with
  | O => Ret x
  | S n =>
    let! v := load32 x in
    printf (text " " ++ hex true 8 v);;
    dump_memory n (u32 (x + 4))
  end.

Definition failed_unless (status : Z) : prog E unit :=
  if negb (status =? 0) then printf (text "...failed") else Ret tt.

(** [for (i = 100; i; i--) if (ready) break;]: the final [i]. *)
Fixpoint wait_erased (i : nat) : prog E nat :=
  match i with
  | O => Ret O
  | S i' =>
    let! s := api_wait_for_ready in
    if is_success s then Ret i else wait_erased i'
  end.

Definition command_erase : prog E unit :=
  printf (text "Erase Setup Flash ");;
  let! yes := serial_yes in
  if yes : bool then
    let! status := api_write_enable in
    let! _ := (if is_success status then api_sector_erase MAC_ADDRESS_OFFSET else Ret status) in
    let! _ := api_write_disable in
    let! i := wait_erased 100 in
    (if (i =? 0)%nat then printf (text " READY" ++ crlf) else printf (text " TIMEOUT" ++ crlf))
  else Ret tt.

Definition print_mac (mac : list Z) : list Z :=
  match map (hex true 2) mac with
  | [a; b; c; d; e; f] =>
    a ++ text ":" ++ b ++ text ":" ++ c ++ text ":" ++ d ++ text ":" ++ e ++ text ":" ++ f
  | _ => []
  end.

Definition ready_or_timeout : prog E unit :=
  let! s := api_wait_for_ready in
  if is_success s then printf (text " READY" ++ crlf) else printf (text " TIMEOUT" ++ crlf).

(** [strcpy(dst, src)] into a buffer. *)
Definition strcpy (dst src : list Z) : prog E (list Z) :=
  let! s := defined (c_string src) in
  defined (store dst 0 (s ++ [0])).

(** The globals [gs_uc_mac_address] and [serial_number], and what the locals
    [new_mac_address] and [new_serial_number] hold before they are set. *)
Definition command_setup (mac serial_number garbage_mac garbage_sn : list Z) : prog E unit :=
  printf (crlf ++ text "MAC address " ++ print_mac mac ++ text ", (enter 3 LSB) ? ");;
  let! (ok, d) := serial_hexread32 in
  let new_mac_address :=
    if ok : bool then
      [MRF_OUI_0; MRF_OUI_1; MRF_OUI_2; Z.land (Z.shiftr d 16) 0xff; Z.land (Z.shiftr d 8) 0xff;
       Z.land d 0xff]
    else garbage_mac in
  printf (crlf ++ text "Serial number: ");;
  let! sn := strcpy garbage_sn serial_number in
  let! (sn, r) := serial_editline sn SN_ASCII_MAXLEN in
  let! sn := (if r <? 0 then strcpy sn serial_number else Ret sn) in
  printf crlf;;
  printf (text "New MAC address: " ++ print_mac new_mac_address ++ crlf);;
  let! name := defined (c_string sn) in
  printf (text "New serial number: " ++ name ++ crlf);;
  printf (text "Write to flash ");;
  let! yes := serial_yes in
  if yes : bool then
    printf (text "Writing MAC address, ");;
    let! status := api_write_mac_address new_mac_address in
    ext_flash_print_status status;;
    ready_or_timeout;;
    printf (text "Writing serial number, ");;
    let! name := defined (c_string sn) in
    let! status := api_write_sn sn (Z.of_nat (length name) + 1) in
    ext_flash_print_status status;;
    ready_or_timeout
  else Ret tt.

(** The monitor's state: the access size and the address. *)
Record monitor_state := MonitorState { size : Z; x : Z }.

Definition command_dump_fpga (st : monitor_state) : prog E monitor_state :=
  let a := align (x st) (size st) in
  printf (crlf ++ hex true 8 a ++ text ":");;
  let! a := dump_fpga (Z.to_nat (16 / size st)) (size st) a in
  Ret (MonitorState (size st) a).

Definition command_dump_memory (st : monitor_state) : prog E monitor_state :=
  let a := align (x st) (size st) in
  printf (crlf ++ hex true 8 a ++ text ":");;
  let! a := dump_memory (Z.to_nat (16 / size st)) a in
  Ret (MonitorState (size st) a).

Definition command_modify_fpga (st : monitor_state) : prog E monitor_state :=
  let a := align (x st) (size st) in
  printf (crlf ++ hex true 8 a ++ text ": ");;
  print_fpga (size st) a;;
  printf (text " ? ");;
  let! (ok, d) := serial_hexread32 in
  let! _ :=
    (if ok : bool then
       if size st =? 1 then opb_write_byte a (Z.land (u8 d) 0xff)
       else if size st =? 2 then opb_write_short a (Z.land (u16 d) 0xffff)
       else if size st =? 4 then opb_write_long a d else Ret 0
     else Ret 0) in
  Ret (MonitorState (size st) a).

(** The pointer is the address before it is aligned. *)
Definition command_modify_memory (st : monitor_state) : prog E monitor_state :=
  let p := x st in
  let a := align (x st) (size st) in
  let! v := load32 p in
  printf (crlf ++ hex true 8 a ++ text ": " ++ hex true 8 v ++ text " ? ");;
  let! (ok, d) := serial_hexread32 in
  (if ok : bool then store32 p d else Ret tt);;
  Ret (MonitorState (size st) a).

Context (mac serial_number garbage_mac garbage_sn : list Z).

(** The [switch] on the upper-case command character. *)
Definition serial_command (c : Z) (st : monitor_state) : prog E monitor_state :=
  if c =? 35 then blink 100;; Ret st
  else if c =? 49 then printf (crlf ++ text "Access size byte.");; Ret (MonitorState 1 (x st))
  else if c =? 50 then printf (crlf ++ text "Access size short.");; Ret (MonitorState 2 (x st))
  else if c =? 52 then printf (crlf ++ text "Access size long word.");; Ret (MonitorState 4 (x st))
  else if c =? 88 then
    putchar 32;; let! (_, d) := serial_hexread32 in Ret (MonitorState (size st) d)
  else if c =? 67 then
    putchar 32;;
    let! (ok, cmd) := serial_hexread32 in
    (if ok : bool then
       printf (crlf ++ text "Command " ++ hex true 2 cmd);;
       let! status := raw_write_command (u8 cmd) in failed_unless status
     else Ret tt);;
    Ret st
  else if c =? 87 then
    printf (crlf ++ text "Write OPB Address");;
    let! status := raw_write_opb_address (x st) in failed_unless status;; Ret st
  else if c =? 82 then let! _ := raw_read_data in Ret st
  else if c =? 68 then command_dump_fpga st
  else if c =? 72 then command_dump_memory st
  else if c =? 77 then command_modify_fpga st
  else if c =? 78 then command_modify_memory st
  else if c =? 84 then
    printf (text " Test write TWI");;
    let! status := raw_test_write in failed_unless status;; Ret st
  else if c =? 69 then command_erase;; Ret st
  else if c =? 83 then command_setup mac serial_number garbage_mac garbage_sn;; Ret st
  else Ret st.

Definition rx_wait_round (_ : unit) : prog E (unit + unit) :=
  let! ready := uart_is_rx_ready in
  if ready : bool then Ret (inr tt) else vTaskDelay 10;; Ret (inl tt).

(** One round of the endless loop. *)
Definition serial_round (st : monitor_state) : prog E monitor_state :=
  printf (crlf ++ hex true 8 (x st) ++ text "> ");;
  iter fuel rx_wait_round tt;;
  let! c := getchar in
  putchar c;;
  serial_command (toupper c) st.

Definition task_serial : prog E unit :=
  iter fuel (fun st => let! st := serial_round st in Ret (inl st)) (MonitorState 4 0).
End monitor.
