(* ===== verification/SerialSpec.v ===== *)
(** * What the serial monitor does with its input

    Numbers, the line editor and its bounds, and the two flash commands, for
    the definitions of Serial.v. *)

From S2P Require Import Prelude Prog Text Twi TwiBus FpgaTwi Flash Serial.

(** ** The calls of the monitor, one by one *)

Inductive flash_call :=
| FWriteEnable
| FSectorErase (address : Z)
| FWriteDisable
| FWaitReady
| FWriteMac (mac : list Z)
| FWriteSn (sn : list Z) (len : Z).

Inductive serop :=
| SPut (cs : list Z)
| SGet
| SReady
| SWait
| SOpb (call : Z + Z * Z)
| SStatus
| SFlash (call : flash_call)
| SLoad (a : Z)
| SStore (a v : Z).

Definition serop_ans (e : serop) : Type :=
  match e with
  | SGet | SLoad _ | SStatus => Z
  | SReady => bool
  | SOpb _ => Z * option Z
  | SFlash _ => m25p_status_t
  | _ => unit
  end.

Definition ser : Sig := {| op := serop; ans := serop_ans |}.

#[export] Instance ser_console : Console ser := {|
  putchar c := @trigger ser (SPut [c]);
  printf s := @trigger ser (SPut s);
  getchar := @trigger ser SGet;
  uart_is_rx_ready := @trigger ser SReady;
  vTaskDelay _ := @trigger ser SWait;
  ioport_set_pin_level _ _ := @trigger ser SWait
|}.

#[export] Instance ser_flash : FlashApi ser := {|
  api_write_enable := @trigger ser (SFlash FWriteEnable);
  api_sector_erase a := @trigger ser (SFlash (FSectorErase a));
  api_write_disable := @trigger ser (SFlash FWriteDisable);
  api_wait_for_ready := @trigger ser (SFlash FWaitReady);
  api_write_mac_address m := @trigger ser (SFlash (FWriteMac m));
  api_write_sn s n := @trigger ser (SFlash (FWriteSn s n))
|}.

(** ** A console with its input at hand

    [input] is what is typed, [output] what has been printed, [flashed] the
    calls of flash functions in order;
    [ready] is whether the flash memory gets ready, once asked. *)
Record desk := Desk { input : list Z; output : list Z; flashed : list flash_call; ready : bool }.

Definition desk_handler (e : serop) (d : desk) : serop_ans e * desk :=
  match e with
  | SPut cs => (tt, Desk (input d) (output d ++ cs) (flashed d) (ready d))
  | SGet => (hd 3 (input d), Desk (tl (input d)) (output d) (flashed d) (ready d))
  | SReady => (true, d)
  | SWait => (tt, d)
  | SOpb _ => ((0, Some 0), d)
  | SStatus => (0, d)
  | SFlash call => (match call with
                    | FWaitReady => if ready d then M25P_SUCCESS else M25P_ERROR
                    | _ => M25P_SUCCESS
                    end, Desk (input d) (output d) (flashed d ++ [call]) (ready d))
  | SLoad _ => (0, d)
  | SStore _ _ => (tt, d)
  end.

Definition drun {A} (p : prog ser A) (d : desk) : outcome A * desk :=
  @run ser desk A desk_handler p d.

Lemma drun_bind {A B} (p : prog ser A) (f : A -> prog ser B) d :
  drun (bind p f) d =
  match drun p d with
  | (Done a, d') => drun (f a) d'
  | (Stop x, d') => (Stop x, d')
  end.
Proof. apply run_bind. Qed.

(** ** Numbers *)

Lemma drun_get {A} (k : Z -> prog ser A) d :
  drun (bind getchar k) d =
  drun (k (hd 3 (input d))) (Desk (tl (input d)) (output d) (flashed d) (ready d)).
Proof. done. Qed.

Lemma drun_put {A} c (k : unit -> prog ser A) d :
  drun (bind (putchar c) k) d =
  drun (k tt) (Desk (input d) (output d ++ [c]) (flashed d) (ready d)).
Proof. done. Qed.

Lemma hexread_digit c : is_xdigit c = true ->
  (let c' := toupper c in if 57 <? c' then u8 (c' - (65 - 10)) else u8 (c' - 48)) = xdigit_value c.
Proof.
  unfold is_xdigit, xdigit_value, toupper. rewrite !orb_true_iff, !andb_true_iff, !Z.leb_le.
  intros Hc. cbv zeta.
  destruct (Z.leb_spec 97 c), (Z.leb_spec c 122); cbn [andb]; try lia.
  - destruct (Z.ltb_spec 57 (c - 32)); [|lia]. rewrite u8_id by (unfold is_u8; lia).
    destruct (Z.leb_spec c 57), (Z.leb_spec c 70); lia.
  - destruct (Z.ltb_spec 57 c); rewrite u8_id by (unfold is_u8; lia);
      destruct (Z.leb_spec c 57), (Z.leb_spec c 70); lia.
Qed.

(** The desk after the first characters of the input have been read and echoed. *)
Definition echoed (cs rest : list Z) (d : desk) : desk :=
  Desk rest (output d ++ cs) (flashed d) (ready d).

(** Digits up to the limit, or up to the character that is none. *)
Lemma drun_hexread ds todo v i rest tail d :
  Forall (fun c => is_xdigit c = true) ds -> is_u32 v -> input d = ds ++ rest ->
  (length ds = todo /\ tail = [] \/
   (length ds < todo)%nat /\ exists t rest', rest = t :: rest' /\ tail = [t] /\ is_xdigit t = false) ->
  exists c, drun (hexread_loop todo v i) d =
    (Done (u32 (fold_left (fun v c => 16 * v + xdigit_value c) ds v), i + Z.of_nat (length ds), c),
     echoed (ds ++ tail) (drop (length tail) rest) d) /\ (tail = [] \/ tail = [c]).
Proof.
  intros Hds. revert todo v i d. induction Hds as [|c ds Hc Hds IH]; intros todo v i d Hv Hin Hend.
  - destruct Hend as [[<- ->]|(Hl & t & rest' & -> & -> & Ht)].
    + exists 0. split; [|by left]. simpl in *. unfold echoed. rewrite app_nil_r, drop_0, u32_id, Z.add_0_r by done.
      by destruct d; simpl in *; subst.
    + exists t. split; [|by right]. destruct todo as [|todo]; [simpl in Hl; lia|]. cbn [hexread_loop].
      rewrite drun_get, Hin. cbn [app hd tl]. rewrite drun_put, Ht. cbn [output input flashed ready].
      simpl. by rewrite drop_0, Z.add_0_r, u32_id.
  - destruct todo as [|todo]; [simpl in Hend; lia|]. cbn [hexread_loop].
    rewrite drun_get, Hin. cbn [app hd tl]. rewrite drun_put, Hc. cbn [output input flashed ready].
    pose proof (hexread_digit c Hc) as Hd. cbv zeta in Hd |- *. rewrite Hd.
    assert (u32 (u32 (Z.shiftl v 4) + xdigit_value c) = u32 (16 * v + xdigit_value c)) as ->.
    { unfold u32. rewrite Zplus_mod_idemp_l, Z.shiftl_mul_pow2 by lia. f_equal. lia. }
    cbn [fold_left length]. rewrite <- hex_fold_u32.
    replace (i + Z.of_nat (S (length ds))) with (i + 1 + Z.of_nat (length ds)) by lia.
    destruct todo as [|todo].
    + destruct Hend as [[Hl ->]|[Hl _]]; [|simpl in Hl; lia]. destruct ds; [|done].
      eexists. split; [|by left]. simpl. unfold echoed. rewrite drop_0, Z.add_0_r. f_equal. f_equal. f_equal.
      f_equal. unfold u32. by rewrite Zmod_mod.
    + destruct (IH (S todo) (u32 (16 * v + xdigit_value c)) (i + 1)
        (Desk (ds ++ rest) (output d ++ [c]) (flashed d) (ready d))) as (c' & Hr & Ht);
        [apply u32_range|done| |].
      { destruct Hend as [[Hl ->]|[Hl Hx]]; [left|right]; simpl in Hl; (split; [lia|done]). }
      exists c'. split; [|done]. rewrite Hr. unfold echoed. cbn [output flashed ready].
      by rewrite <- app_assoc.
Qed.

(** The monitor reads back any number it or a user prints: up to eight
    hexadecimal digits of either case, ended by a carriage return or line feed
    unless there are eight, give their value and success, are echoed, and
    leave the rest of the input alone. *)
Theorem serial_number_read ds t rest out wr rdy :
  Forall (fun c => is_xdigit c = true) ds -> ds <> [] -> (length ds <= 8)%nat ->
  t = 13 \/ t = 10 ->
  let tail := if decide (length ds = 8%nat) then [] else [t] in
  drun serial_hexread32 (Desk (ds ++ tail ++ rest) out wr rdy) =
  (Done (true, hex_value ds), Desk rest (out ++ ds ++ tail) wr rdy).
Proof.
  intros Hds Hne Hl Ht tail. unfold serial_hexread32. rewrite drun_bind.
  destruct (drun_hexread ds 8 0 0 (tail ++ rest) tail (Desk (ds ++ tail ++ rest) out wr rdy))
    as (c & Hr & Hc); [done|unfold is_u32; lia|done| |].
  { unfold tail. case_decide; [by left|right]. split; [lia|]. exists t, rest.
    split; [done|]. split; [done|]. by destruct Ht as [-> | ->]. }
  rewrite Hr. rewrite drop_app_length. unfold echoed. cbn [output flashed ready].
  pose proof (hex_value_range ds Hds) as Hv. fold (hex_value ds).
  assert (16 ^ Z.of_nat (length ds) <= 16 ^ 8) by (apply Z.pow_le_mono_r; lia).
  rewrite u32_id by (unfold is_u32; lia).
  unfold drun. cbn [run]. f_equal. f_equal. f_equal. rewrite Z.add_0_l.
  unfold tail in Hc. case_decide as H8; [by rewrite H8|].
  destruct Hc as [|[= <-]]; [done|]. rewrite orb_true_iff, andb_true_iff. right.
  split; [apply Z.ltb_lt; destruct ds; [done|simpl; lia]|]. by destruct Ht as [-> | ->].
Qed.

Example serial_number_read_witness :
  drun serial_hexread32 (Desk (text "8000004c" ++ [] ++ text "yes") [] [] true) =
  (Done (true, hex_value (text "8000004c")), Desk (text "yes") ([] ++ text "8000004c" ++ []) [] true).
Proof.
  apply (serial_number_read (text "8000004c") 13 (text "yes"));
    [repeat (constructor; [reflexivity|]); constructor|done|simpl; lia|by left].
Defined.

(** ** The line editor *)

Definition stop_key (c : Z) : bool := (c =? 3) || (c =? 13) || (c =? 10).

(** What a key does to the text and to the screen: a printable character is
    appended while there is room for it and for the NUL, a backspace takes the
    last character away, and any other key is ignored. *)
Definition edit_key (len : Z) (st : list Z * list Z) (c : Z) : list Z * list Z :=
  let '(t, out) := st in
  if isprint c then
    if Z.of_nat (length t) <? len - 1 then (t ++ [c], out ++ [c]) else (t, out)
  else if (c =? 8) && (0 <? Z.of_nat (length t)) then (removelast t, out ++ [8; 32; 8])
  else (t, out).

(** The buffer [s] of [len] bytes with [i] characters in it holds the text [t]. *)
Record edits (len : Z) (s : list Z) (i : Z) (t : list Z) := {
  edits_size : Z.of_nat (length s) = len;
  edits_pos : i = Z.of_nat (length t);
  edits_room : Z.of_nat (length t) < len;
  edits_text : take (length t) s = t;
  edits_nonzero : Forall (fun c => c <> 0) t
}.

Lemma edits_push len s i t c : edits len s i t -> i < len - 1 -> c <> 0 ->
  exists s', store s (Z.to_nat i) [c] = Some s' /\ edits len s' (i + 1) (t ++ [c]).
Proof.
  intros [Hs -> Hr Ht Hz] Hi Hc. rewrite Nat2Z.id.
  destruct (store s (length t) [c]) as [s'|] eqn:Hst; [|by rewrite store_in_bounds in Hst by (simpl; lia)].
  exists s'. split; [done|].
  pose proof (store_length _ _ _ _ Hst) as Hl. pose proof (store_take _ _ _ _ Hst) as Hk.
  split; rewrite ?length_app; cbn [length]; try lia.
  - cbn [length] in Hk. by rewrite Hk, Ht.
  - apply Forall_app. by repeat constructor.
Qed.

Lemma edits_pop len s i t : edits len s i t -> 0 < i -> edits len s (i - 1) (removelast t).
Proof.
  intros [Hs -> Hr Ht Hz] Hi. destruct t as [|c t _] using rev_ind; [simpl in Hi; lia|].
  rewrite removelast_last. rewrite length_app in *. cbn [length] in *.
  apply Forall_app in Hz as [Hz _]. split; try done; try lia.
  assert (take (length t) (take (length t + 1) s) = take (length t) (t ++ [c])) as He by by rewrite Ht.
  rewrite take_take, take_app_length in He. by rewrite Nat.min_l in He by lia.
Qed.

Lemma drun_editline_round len s i t c inp out wr rdy : edits len s i t ->
  exists s' i', edits len s' i' (edit_key len (t, out) c).1 /\
    drun (editline_round len (s, i)) (Desk (c :: inp) out wr rdy) =
    (Done (if stop_key c then inr (s', i', c) else inl (s', i')),
     Desk inp (edit_key len (t, out) c).2 wr rdy).
Proof.
  intros He. unfold editline_round. rewrite drun_get. cbn [hd tl input output flashed ready].
  assert (negb (c =? 3) && negb (c =? 13) && negb (c =? 10) = negb (stop_key c)) as Hs
    by (unfold stop_key; by destruct (c =? 3), (c =? 13), (c =? 10)).
  rewrite Hs. clear Hs. pose proof (edits_pos _ _ _ _ He) as Hp. unfold edit_key. rewrite <- Hp.
  destruct (isprint c) eqn:Hc.
  - assert (c <> 0 /\ (c =? 8) = false) as [Hc0 Hc8].
    { unfold isprint in Hc. rewrite andb_true_iff, !Z.leb_le in Hc. split; [lia|]. apply Z.eqb_neq. lia. }
    destruct (Z.ltb_spec i (len - 1)) as [Hi|Hi].
    + destruct (edits_push len s i t c He Hi Hc0) as (s' & Hst & He').
      exists s', (i + 1). split; [done|]. rewrite Hst, Hc8. by destruct (stop_key c).
    + exists s, i. split; [done|]. rewrite Hc8. by destruct (stop_key c).
  - exists s. destruct (c =? 8) eqn:H8; cbn [andb].
    + destruct (Z.ltb_spec 0 i) as [Hi|Hi].
      * exists (i - 1). split; [by apply edits_pop|].
        destruct (i <? len - 1), (stop_key c); cbn [negb]; unfold drun; simpl;
          rewrite (proj2 (Z.ltb_lt 0 i) Hi); simpl; by rewrite <- !app_assoc.
      * exists i. split; [done|]. destruct (i <? len - 1), (stop_key c); unfold drun; simpl;
          by rewrite (proj2 (Z.ltb_ge 0 i) Hi).
    + exists i. split; [done|]. by destruct (i <? len - 1), (stop_key c).
Qed.

(** The buffer, the position and the terminator after the keys of a line. *)
Lemma drun_editline_loop fuel len s i t ks c rest out wr rdy :
  edits len s i t -> Forall (fun k => stop_key k = false) ks -> stop_key c = true ->
  (length ks < fuel)%nat ->
  exists s' i', edits len s' i' (fold_left (edit_key len) ks (t, out)).1 /\
    drun (iter fuel (editline_round len) (s, i)) (Desk (ks ++ c :: rest) out wr rdy) =
    (Done (s', i', c), Desk rest (fold_left (edit_key len) ks (t, out)).2 wr rdy).
Proof.
  intros He Hks Hc. revert fuel s i t out He.
  induction Hks as [|k ks Hk Hks IH]; intros [|fuel] s i t out He Hf; simpl in Hf; try lia.
  - destruct (drun_editline_round len s i t c rest out wr rdy He) as (s' & i' & He' & Hr).
    assert (edit_key len (t, out) c = (t, out)) as Hid.
    { unfold stop_key in Hc. rewrite !orb_true_iff, !Z.eqb_eq in Hc. by destruct Hc as [[-> | ->]| ->]. }
    rewrite Hid in *. exists s', i'. split; [done|]. cbn [iter app fold_left]. rewrite drun_bind, Hr, Hc. done.
  - destruct (drun_editline_round len s i t k (ks ++ c :: rest) out wr rdy He) as (s1 & i1 & He1 & Hr).
    cbn [iter app fold_left]. rewrite drun_bind, Hr, Hk.
    destruct (edit_key len (t, out) k) as [t1 out1]. apply IH; [done|lia].
Qed.

Lemma drun_put_string cs d : drun (put_string cs) d = (Done tt, Desk (input d) (output d ++ cs) (flashed d) (ready d)).
Proof.
  revert d. induction cs as [|c cs IH]; intros d; [simpl; rewrite app_nil_r; by destruct d|].
  cbn [put_string]. rewrite drun_put, IH. cbn [input output flashed ready]. by rewrite <- app_assoc.
Qed.

Lemma c_string_spec s t : c_string s = Some t ->
  (length t < length s)%nat /\ take (length t) s = t /\ Forall (fun c => c <> 0) t.
Proof.
  revert t. induction s as [|c s IH]; intros t; simpl; [done|].
  destruct (Z.eqb_spec c 0) as [->|Hc]; [intros [= <-]; simpl; split; [lia|done]|].
  destruct (c_string s) as [t'|]; [|done]. intros [= <-].
  destruct (IH t' eq_refl) as (Hl & Ht & Hz). simpl. rewrite Ht. repeat split; [lia|by constructor].
Qed.

Lemma c_string_app t s : Forall (fun c => c <> 0) t -> c_string (t ++ 0 :: s) = Some t.
Proof.
  induction 1 as [|c t Hc Ht IH]; [done|]. simpl. rewrite IH. by destruct (Z.eqb_spec c 0).
Qed.

Lemma drun_editline fuel s len old ks c rest out wr rdy :
  Z.of_nat (length s) = len -> c_string s = Some old ->
  Forall (fun k => stop_key k = false) ks -> stop_key c = true -> (length ks < fuel)%nat ->
  let e := fold_left (edit_key len) ks (old, out ++ old) in
  exists s', drun (serial_editline fuel s len) (Desk (ks ++ c :: rest) out wr rdy) =
      (Done (s', if c =? 3 then -1 else Z.of_nat (length e.1)), Desk rest e.2 wr rdy) /\
    length s' = length s /\ take (length e.1 + 1) s' = e.1 ++ [0] /\ c_string s' = Some e.1.
Proof.
  intros Hlen Hold Hks Hc Hf. destruct (c_string_spec s old Hold) as (Hl & Ht & Hz).
  assert (edits len s (Z.of_nat (length old)) old) as He by (split; [done|done|lia|done|done]).
  destruct (drun_editline_loop fuel len s _ old ks c rest (out ++ old) wr rdy He Hks Hc Hf)
    as (s1 & i1 & [Hs1 -> Hr1 Ht1 Hz1] & Hr).
  destruct (fold_left (edit_key len) ks (old, out ++ old)) as [new out']. cbn [fst snd] in *.
  destruct (store s1 (length new) [0]) as [s2|] eqn:Hst;
    [|by rewrite store_in_bounds in Hst by (simpl; lia)].
  exists s2. pose proof (store_length _ _ _ _ Hst). pose proof (store_take _ _ _ _ Hst) as Hk.
  rewrite Ht1 in Hk. split; [|split; [lia|split; [done|]]].
  - unfold serial_editline. rewrite drun_bind, Hold. cbn [defined]. unfold drun at 1. cbn [run].
    rewrite drun_bind, drun_put_string. cbn [input output flashed ready].
    rewrite drun_bind, Hr. cbn beta. rewrite Nat2Z.id, Hst. done.
  - rewrite <- (take_drop (length new + length [0]) s2), Hk, <- app_assoc.
    by apply c_string_app.
Qed.

(** The line editor of the monitor: from a buffer of [len] bytes that
    holds a string, any keys up to a carriage return, a line feed or ^C leave
    in the buffer the string that results from editing the old one with each
    key in turn, NUL-terminated and within the [len] bytes, and its length (or
    -1 for ^C) as the result; the screen shows the old string and each edit,
    and what is typed after the line is not read. *)
Theorem serial_editline_edits fuel s len old ks c rest out wr rdy :
  Z.of_nat (length s) = len -> c_string s = Some old ->
  Forall (fun k => stop_key k = false) ks -> stop_key c = true -> (length ks < fuel)%nat ->
  let '(new, out') := fold_left (edit_key len) ks (old, out ++ old) in
  exists s', drun (serial_editline fuel s len) (Desk (ks ++ c :: rest) out wr rdy) =
      (Done (s', if c =? 3 then -1 else Z.of_nat (length new)), Desk rest out' wr rdy) /\
    length s' = length s /\ c_string s' = Some new.
Proof.
  intros Hlen Hold Hks Hc Hf.
  destruct (drun_editline fuel s len old ks c rest out wr rdy Hlen Hold Hks Hc Hf) as (s' & Hr & Hl & _ & Hs).
  destruct (fold_left (edit_key len) ks (old, out ++ old)). by exists s'.
Qed.

Lemma serial_editline_edits_witness :
  let s := text "R1" ++ [0; 7; 7] in
  let ks := [8; 8] ++ text "NEW_SN" in
  let '(new, out') := fold_left (edit_key 5) ks (text "R1", [] ++ text "R1") in
  exists s', drun (serial_editline 20 s 5) (Desk (ks ++ 13 :: text "yes") [] [] true) =
      (Done (s', if 13 =? 3 then -1 else Z.of_nat (length new)), Desk (text "yes") out' [] true) /\
    length s' = length s /\ c_string s' = Some new.
Proof.
  apply (serial_editline_edits 20 (text "R1" ++ [0; 7; 7]) 5 (text "R1") ([8; 8] ++ text "NEW_SN") 13 (text "yes"));
    [reflexivity|reflexivity|repeat (constructor; [reflexivity|]); constructor|reflexivity|simpl; lia].
Defined.

(** ** The flash commands *)

Lemma drun_printf {A} cs (k : unit -> prog ser A) d :
  drun (bind (printf cs) k) d =
  drun (k tt) (Desk (input d) (output d ++ cs) (flashed d) (ready d)).
Proof. done. Qed.

(** The answer to "(yes/no) ?": three keys, at most. *)
Definition confirms (inp : list Z) : bool :=
  let key n a b := let c := nth n inp 3 in (c =? a) || (c =? b) in
  key 0%nat 121 89 && key 1%nat 101 69 && key 2%nat 115 83.

Lemma drun_yes inp out wr rdy : exists inp' out',
  drun serial_yes (Desk inp out wr rdy) = (Done (confirms inp), Desk inp' out' wr rdy) /\
  (confirms inp = true -> inp' = drop 3 inp).
Proof.
  unfold serial_yes, confirms. rewrite drun_printf, drun_get. cbn [input output flashed ready].
  destruct inp as [|a inp]; cbn [hd tl nth]; [by do 2 eexists|].
  destruct ((a =? 121) || (a =? 89)); cbn [andb]; [|by do 2 eexists].
  rewrite drun_put, drun_get. cbn [input output flashed ready].
  destruct inp as [|b inp]; cbn [hd tl nth]; [by do 2 eexists|].
  destruct ((b =? 101) || (b =? 69)); cbn [andb]; [|by do 2 eexists].
  rewrite drun_put, drun_get. cbn [input output flashed ready].
  destruct inp as [|c inp]; cbn [hd tl nth]; [by do 2 eexists|].
  destruct ((c =? 115) || (c =? 83)); cbn [andb]; by do 2 eexists.
Qed.

Lemma drun_wait_erased n inp out wr rdy :
  drun (wait_erased n) (Desk inp out wr rdy) =
  (Done (if rdy then n else O),
   Desk inp out (wr ++ replicate (if rdy then Nat.min n 1 else n) FWaitReady) rdy).
Proof.
  revert wr. induction n as [|n IH]; intros wr; [destruct rdy; cbn [Nat.min replicate]; by rewrite app_nil_r|].
  cbn [wait_erased]. rewrite drun_bind. destruct rdy; [by rewrite Nat.min_r by lia|]. etransitivity; [apply IH|].
  by rewrite <- app_assoc.
Qed.

(** A flash function that changes something, and the question for readiness. *)
Lemma drun_flash {A} call (k : m25p_status_t -> prog ser A) inp out wr rdy : call <> FWaitReady ->
  drun (@bind ser m25p_status_t A (@trigger ser (SFlash call)) k) (Desk inp out wr rdy) =
  drun (k M25P_SUCCESS) (Desk inp out (wr ++ [call]) rdy).
Proof. by destruct call. Qed.

Lemma drun_ready {A} (k : m25p_status_t -> prog ser A) inp out wr rdy :
  drun (bind api_wait_for_ready k) (Desk inp out wr rdy) =
  drun (k (if rdy then M25P_SUCCESS else M25P_ERROR)) (Desk inp out (wr ++ [FWaitReady]) rdy).
Proof. done. Qed.

(** Command E erases the sector of the MAC address and the serial number
    once and only after a confirmation, with the memory unprotected before and
    protected again after it; but its report is the wrong way round, TIMEOUT
    when the memory has become ready and READY when it has not. *)
Theorem erase_report_inverted inp out wr rdy : exists inp' out',
  (confirms inp = true -> inp' = drop 3 inp) /\
  drun command_erase (Desk inp out wr rdy) =
    (Done tt,
     Desk inp'
       (out' ++ (if confirms inp then if rdy then text " TIMEOUT" ++ crlf else text " READY" ++ crlf else []))
       (wr ++ (if confirms inp then [FWriteEnable; FSectorErase MAC_ADDRESS_OFFSET; FWriteDisable] ++
                replicate (if rdy then 1 else 100) FWaitReady else []))
       rdy).
Proof.
  unfold command_erase. rewrite drun_printf, drun_bind. cbn [input output flashed ready].
  edestruct (drun_yes inp) as (inp' & out' & Hr & Hin). rewrite Hr. clear Hr.
  exists inp', out'. split; [exact Hin|]. destruct (confirms inp); [|by rewrite !app_nil_r].
  cbn [api_write_enable api_sector_erase api_write_disable ser_flash].
  rewrite drun_flash by done. unfold is_success. rewrite bool_decide_true by done. cbn match.
  rewrite !drun_flash by done.
  rewrite drun_bind, drun_wait_erased. rewrite <- !app_assoc. by destruct rdy.
Qed.

(** ** Entering the MAC address and the serial number *)

(** Up to seven digits and a key that is none. *)
Lemma drun_hexread32 ds t rest out wr rdy :
  Forall (fun c => is_xdigit c = true) ds -> (length ds < 8)%nat -> is_xdigit t = false ->
  drun serial_hexread32 (Desk (ds ++ t :: rest) out wr rdy) =
  (Done (negb (bool_decide (ds = [])) && ((t =? 10) || (t =? 13)), hex_value ds),
   Desk rest (out ++ ds ++ [t]) wr rdy).
Proof.
  intros Hds Hl Ht. unfold serial_hexread32. rewrite drun_bind.
  destruct (drun_hexread ds 8 0 0 (t :: rest) [t] (Desk (ds ++ t :: rest) out wr rdy))
    as (c & Hr & Hc); [done|unfold is_u32; lia|done|right; split; [lia|by exists t, rest]|].
  destruct Hc as [|[= <-]]; [done|].
  rewrite Hr. unfold echoed. cbn [output flashed ready drop length].
  pose proof (hex_value_range ds Hds) as Hv. fold (hex_value ds).
  assert (16 ^ Z.of_nat (length ds) <= 16 ^ 8) by (apply Z.pow_le_mono_r; lia).
  rewrite u32_id by (unfold is_u32; lia). unfold drun. cbn [run]. rewrite Z.add_0_l.
  assert ((Z.of_nat (length ds) =? 8) = false) as -> by (apply Z.eqb_neq; lia). cbn [orb].
  repeat f_equal. destruct ds; [done|]. rewrite bool_decide_false by done.
  by rewrite (proj2 (Z.ltb_lt _ _)) by (simpl; lia).
Qed.

(** The text does not depend on the screen. *)
Lemma edit_keys_text len ks t out out' :
  (fold_left (edit_key len) ks (t, out)).1 = (fold_left (edit_key len) ks (t, out')).1.
Proof.
  revert t out out'. induction ks as [|k ks IH]; intros t out out'; [done|]. cbn [fold_left].
  unfold edit_key at 2 4. split_tests; apply IH.
Qed.

Lemma strcpy_ok dst src old : c_string src = Some old -> (length old < length dst)%nat ->
  exists dst', (forall d, drun (strcpy dst src) d = (Done dst', d)) /\
    length dst' = length dst /\ c_string dst' = Some old /\ take (length old + 1) dst' = old ++ [0].
Proof.
  intros Hsrc Hl. destruct (c_string_spec src old Hsrc) as (_ & _ & Hz).
  destruct (store dst 0 (old ++ [0])) as [dst'|] eqn:Hst;
    [|by rewrite store_in_bounds in Hst by (rewrite length_app; simpl; lia)].
  pose proof (store_length _ _ _ _ Hst) as Hl'. pose proof (store_take _ _ _ _ Hst) as Hk.
  rewrite length_app in Hk. cbn [length] in Hk. rewrite take_0, Nat.add_0_l, app_nil_l in Hk.
  exists dst'. split; [|split; [done|split; [|done]]].
  - intros d. unfold strcpy. rewrite drun_bind, Hsrc. cbn [defined]. unfold drun. cbn [run]. by rewrite Hst.
  - rewrite <- (take_drop (length old + 1) dst'), Hk, <- app_assoc. by apply c_string_app.
Qed.

Lemma drun_ready_or_timeout inp out wr rdy : exists out',
  drun ready_or_timeout (Desk inp out wr rdy) = (Done tt, Desk inp out' (wr ++ [FWaitReady]) rdy).
Proof. unfold ready_or_timeout. rewrite drun_ready. destruct rdy; by eexists. Qed.

Lemma drun_setup fuel mac serial_number old garbage_mac garbage_sn ds t ks c conf out wr rdy :
  c_string serial_number = Some old -> Z.of_nat (length old) < SN_ASCII_MAXLEN ->
  Z.of_nat (length garbage_sn) = SN_ASCII_MAXLEN ->
  Forall (fun c => is_xdigit c = true) ds -> (length ds < 8)%nat -> is_xdigit t = false ->
  Forall (fun k => stop_key k = false) ks -> stop_key c = true -> (length ks < fuel)%nat ->
  let accepted := negb (bool_decide (ds = [])) && ((t =? 10) || (t =? 13)) in
  let d := hex_value ds in
  let new := if c =? 3 then old else (fold_left (edit_key SN_ASCII_MAXLEN) ks (old, [])).1 in
  exists inp' out' sn, take (length new + 1) sn = new ++ [0] /\ c_string sn = Some new /\
    length sn = length garbage_sn /\
    drun (command_setup fuel mac serial_number garbage_mac garbage_sn)
      (Desk (ds ++ t :: ks ++ c :: conf) out wr rdy) =
    (Done tt, Desk inp' out'
      (wr ++ (if confirms conf then
                [FWriteMac (if accepted then
                   [0x00; 0x0E; 0xB2; u8 (Z.shiftr d 16); u8 (Z.shiftr d 8); u8 d] else garbage_mac);
                 FWaitReady; FWriteSn sn (Z.of_nat (length new) + 1); FWaitReady]
              else [])) rdy).
Proof.
  intros Hold Hlo Hlg Hds Hl Ht Hks Hc Hf accepted d new.
  destruct (strcpy_ok garbage_sn serial_number old Hold) as (sn0 & Hcpy & Hl0 & Hs0 & _); [lia|].
  unfold command_setup. rewrite drun_printf, drun_bind. cbn [input output flashed ready].
  rewrite drun_hexread32 by done. rewrite drun_printf, drun_bind, Hcpy, drun_bind. cbn [input output flashed ready].
  match goal with |- context [Desk (ks ++ c :: conf) ?o wr rdy] =>
    destruct (drun_editline fuel sn0 SN_ASCII_MAXLEN old ks c conf o wr rdy) as (sn1 & -> & Hl1 & Hk1 & Hs1);
      try done; [lia|];
    rewrite (edit_keys_text _ _ _ _ []) in *;
    generalize (fold_left (edit_key SN_ASCII_MAXLEN) ks (old, o ++ old)).2; intros o1
  end.
  assert (exists sn2, (forall d, drun (if (if c =? 3 then -1 else
        Z.of_nat (length (fold_left (edit_key SN_ASCII_MAXLEN) ks (old, [])).1)) <? 0
      then strcpy sn1 serial_number else Ret sn1) d = (Done sn2, d)) /\
    take (length new + 1) sn2 = new ++ [0] /\ c_string sn2 = Some new /\
    length sn2 = length garbage_sn) as (sn2 & H2 & Hk2 & Hs2 & Hl2).
  { unfold new. destruct (c =? 3).
    - destruct (strcpy_ok sn1 serial_number old Hold) as (sn2 & H2 & Hl2 & Hs2 & Hk2); [lia|].
      exists sn2. repeat split; try done. congruence.
    - exists sn1. rewrite (proj2 (Z.ltb_ge _ 0)) by lia. repeat split; try done. congruence. }
  cbn beta. rewrite drun_bind, H2, !drun_printf, drun_bind, Hs2. cbn [input output flashed ready defined].
  unfold drun at 1. cbn [run]. rewrite !drun_printf, drun_bind. cbn [input output flashed ready].
  match goal with |- context [drun serial_yes (Desk conf ?o wr rdy)] =>
    destruct (drun_yes conf o wr rdy) as (inp' & o2 & -> & _) end.
  destruct (confirms conf); [|exists inp', o2, sn2; rewrite app_nil_r; by repeat split].
  rewrite drun_printf. cbn [input output flashed ready api_write_mac_address api_write_sn ser_flash].
  rewrite drun_flash by done. unfold ext_flash_print_status.
  rewrite drun_printf, drun_bind. cbn [input output flashed ready].
  match goal with |- context [drun ready_or_timeout (Desk _ ?o ?w _)] =>
    destruct (drun_ready_or_timeout inp' o w rdy) as (o3 & ->) end.
  rewrite drun_printf, drun_bind. cbn [input output flashed ready defined].
  unfold drun at 1. cbn [run]. rewrite drun_flash by done.
  rewrite drun_printf. cbn [input output flashed ready].
  match goal with |- context [drun ready_or_timeout (Desk _ ?o ?w _)] =>
    destruct (drun_ready_or_timeout inp' o w rdy) as (o4 & ->) end.
  exists inp', o4, sn2. do 3 (split; [done|]). rewrite <- !app_assoc. unfold u8, accepted. cbn [app].
  do 2 f_equal. f_equal. f_equal. f_equal.
  destruct (_ && _); [|done]. change 255 with (Z.ones 8). rewrite !Z.land_ones by lia. done.
Qed.

(** Command S on any keys: digits ended by a key that is none, then an
    edited line for the serial number, then the confirmation.  Without the
    confirmation nothing is written.  With it, what is written as the serial
    number is the edited text (the old one after ^C) and its NUL, and what is
    written as the MAC address is the vendor's prefix with the three low bytes
    of the number; but if the number was not accepted, as when the line is left
    empty to keep the address shown, whatever the six uninitialised bytes of
    the local hold is written over the old address. *)
Theorem setup_writes fuel mac serial_number old garbage_mac garbage_sn ds t ks c conf out wr rdy :
  c_string serial_number = Some old -> Z.of_nat (length old) < SN_ASCII_MAXLEN ->
  Z.of_nat (length garbage_sn) = SN_ASCII_MAXLEN ->
  Forall (fun c => is_xdigit c = true) ds -> (length ds < 8)%nat -> is_xdigit t = false ->
  Forall (fun k => stop_key k = false) ks -> stop_key c = true -> (length ks < fuel)%nat ->
  let accepted := negb (bool_decide (ds = [])) && ((t =? 10) || (t =? 13)) in
  let d := hex_value ds in
  let new := if c =? 3 then old else (fold_left (edit_key SN_ASCII_MAXLEN) ks (old, [])).1 in
  exists inp' out' sn, take (length new + 1) sn = new ++ [0] /\
    drun (command_setup fuel mac serial_number garbage_mac garbage_sn)
      (Desk (ds ++ t :: ks ++ c :: conf) out wr rdy) =
    (Done tt, Desk inp' out'
      (wr ++ (if confirms conf then
                [FWriteMac (if accepted then
                   [0x00; 0x0E; 0xB2; u8 (Z.shiftr d 16); u8 (Z.shiftr d 8); u8 d] else garbage_mac);
                 FWaitReady; FWriteSn sn (Z.of_nat (length new) + 1); FWaitReady]
              else [])) rdy).
Proof.
  intros Hold Hlo Hlg Hds Hl Ht Hks Hc Hf accepted d new.
  destruct (drun_setup fuel mac serial_number old garbage_mac garbage_sn ds t ks c conf out wr rdy)
    as (inp' & out' & sn & Hk & _ & _ & Hr); [done..|].
  by exists inp', out', sn.
Qed.

Example setup_writes_witness :
  let new := if 13 =? 3 then text "S1" else (fold_left (edit_key SN_ASCII_MAXLEN) [] (text "S1", [])).1 in
  exists inp' out' sn, take (length new + 1) sn = new ++ [0] /\
    drun (command_setup 5 [0;0;0;0;0;0] (text "S1" ++ [0]) [9;9;9;9;9;9] (replicate 26 7))
      (Desk ([] ++ 13 :: [] ++ 13 :: text "yes") [] [] true) =
    (Done tt, Desk inp' out'
      ([] ++ (if confirms (text "yes") then
                [FWriteMac (if negb (bool_decide (@nil Z = [])) && ((13 =? 10) || (13 =? 13)) then
                   [0x00; 0x0E; 0xB2; u8 (Z.shiftr (hex_value []) 16); u8 (Z.shiftr (hex_value []) 8);
                    u8 (hex_value [])] else [9;9;9;9;9;9]);
                 FWaitReady; FWriteSn sn (Z.of_nat (length new) + 1); FWaitReady]
              else [])) true).
Proof.
  apply (setup_writes 5 [0;0;0;0;0;0] (text "S1" ++ [0]) (text "S1") [9;9;9;9;9;9] (replicate 26 7)
    [] 13 [] 13 (text "yes") [] [] true);
    first [reflexivity | solve [simpl; lia] | solve [constructor]].
Defined.
