(* ===== verification/Console.v ===== *)
(** * The console on the wire

    The streams of Uart.v against a model of the UART and its line, and the
    refinement: whatever is proved of a program over an ideal console, with
    the characters typed at hand and an output that takes everything, holds
    for the program linked to printf, getchar and the UART, however slow the
    line is; and however fast, for a console that loses a character when two
    wait. *)

From stdpp Require Import relations.
From S2P Require Import Prelude Prog Pio Ioport Usart Uart Text FpgaTwi Flash Serial.

(** ** The ideal console *)

Inductive conop :=
| CPut (cs : list Z)
| CGet
| CReady
| CDelay (ticks : Z)
| CPin (pin : Z) (level : bool).

Definition con_ans (e : conop) : Type :=
  match e with
  | CGet => Z
  | CReady => bool
  | _ => unit
  end.

Definition con : Sig := {| op := conop; ans := con_ans |}.

#[export] Instance con_console : Console con := {|
  putchar c := @trigger con (CPut [c]);
  printf s := @trigger con (CPut s);
  getchar := @trigger con CGet;
  uart_is_rx_ready := @trigger con CReady;
  vTaskDelay t := @trigger con (CDelay t);
  ioport_set_pin_level pin level := @trigger con (CPin pin level)
|}.

(** What has been typed and not been read, and what has been printed. *)
Record desk := Desk { input : list Z; output : list Z }.

(** When two characters wait to be read, one of them may be lost. *)
Inductive loses : desk -> desk -> Prop :=
| loses_second c1 c2 t o : loses (Desk (c1 :: c2 :: t) o) (Desk (c1 :: t) o)
| loses_first c1 c2 t o : loses (Desk (c1 :: c2 :: t) o) (Desk (c2 :: t) o).

(** Nothing is lost unless the typing is [fast]. *)
Definition losing (fast : bool) (d d' : desk) : Prop := if fast then rtc loses d d' else d' = d.

Lemma losing_refl fast d : losing fast d d.
Proof. destruct fast; [apply rtc_refl|done]. Qed.

Lemma losing_trans fast d1 d2 d3 : losing fast d1 d2 -> losing fast d2 d3 -> losing fast d1 d3.
Proof. destruct fast; cbn; [apply transitivity|congruence]. Qed.

Lemma loses_step d d' : loses d d' ->
  output d' = output d /\ (input d <> [] -> input d' <> []) /\ forall o, loses (Desk (input d) o) (Desk (input d') o).
Proof. intros []; (split; [done|]; split; [done|]); intros o'; constructor. Qed.

Lemma losing_keeps fast d d' : losing fast d d' ->
  output d' = output d /\ (input d <> [] -> input d' <> []) /\
  forall o, losing fast (Desk (input d) o) (Desk (input d') o).
Proof.
  destruct fast; cbn; [|by intros ->]. intros H.
  induction H as [d|d d1 d2 Hl _ (Ho & Hi & Hd)]; [done|]. destruct (loses_step d d1 Hl) as (Ho1 & Hi1 & Hd1).
  split; [congruence|]. split; [by auto|]. intros o. eapply rtc_l; [apply Hd1|apply Hd].
Qed.

Section desk.
Context (fast : bool).

(** A program may read when something has been typed; whether it sees that
    is a matter of time. *)
Definition desk_step (e : conop) (d : desk) : con_ans e -> desk -> Prop :=
  match e with
  | CPut cs => fun _ d' => d' = Desk (input d) (output d ++ map u8 cs)
  | CGet => fun x d' => exists t, input d = x :: t /\ d' = Desk t (output d)
  | CReady => fun b d' => (b = true -> input d <> []) /\ d' = d
  | _ => fun _ d' => d' = d
  end.

Definition desk_env : env con desk := {|
  req (e : op con) d := match e with
    | CGet => input d <> []
    | CPin pin _ => 0 <= pin < 192
    | _ => True
    end;
  step (e : op con) d x d' := exists d1, losing fast d d1 /\ desk_step e d1 x d'
|}.
End desk.

(** ** The link: the streams of the C library, unbuffered, over the UART *)

Definition console_stdio (fuel : nat) : stdio :=
  Stdio UART (Some (usart_serial_putchar fuel)) (Some (usart_serial_getchar fuel)).

Definition link (fuel : nat) (e : conop) : prog hw (con_ans e) :=
  match e with
  | CPut cs => let! _ := _write (console_stdio fuel) 1 cs (Z.of_nat (length cs)) in Ret tt
  | CGet => let! (_, v) := _read (console_stdio fuel) 0 1 in defined v
  | CReady => let! r := Uart.uart_is_rx_ready UART in Ret (negb (r =? 0))
  | CDelay t => @trigger hw (TaskDelay t)
  | CPin pin level => Ioport.ioport_set_pin_level pin level
  end.

Definition linked {A} (fuel : nat) (p : prog con A) : prog hw A :=
  @interp con hw (link fuel) A p.

(** ** The UART and its line

    [thr] and [rhr] are the holding registers, [line] the bytes sent, [typed]
    those under way to the receiver.  At any reading of the status a byte may
    leave the one or enter the other; with [k] readings without progress it
    does.  On a [fast] line a byte may arrive at any moment; at a receiver that
    is full it is an overrun: the byte or the one that waits is lost. *)
Record wire := Wire {
  thr : option Z;
  line : list Z;
  rhr : option Z;
  typed : list Z;
  tx_wait : nat;
  rx_wait : nat
}.

Definition opt_list (o : option Z) : list Z := match o with Some c => [c] | None => [] end.

Section wire.
Context (fast : bool) (k : nat).

Inductive overrun : wire -> wire -> Prop :=
| overrun_dropped o l c c' t tw rw : overrun (Wire o l (Some c) (c' :: t) tw rw) (Wire o l (Some c) t tw rw)
| overrun_overwritten o l c c' t tw rw : overrun (Wire o l (Some c) (c' :: t) tw rw) (Wire o l (Some c') t tw rw).

Definition overruns (s s' : wire) : Prop := if fast then rtc overrun s s' else s' = s.

Inductive transmitted : wire -> wire -> Prop :=
| tx_empty l r t tw rw : transmitted (Wire None l r t tw rw) (Wire None l r t k rw)
| tx_stays c l r t tw rw :
    transmitted (Wire (Some c) l r t (S tw) rw) (Wire (Some c) l r t tw rw)
| tx_leaves c l r t tw rw :
    transmitted (Wire (Some c) l r t tw rw) (Wire None (l ++ [c]) r t k rw).

Inductive received : wire -> wire -> Prop :=
| rx_full o l c t tw rw : received (Wire o l (Some c) t tw rw) (Wire o l (Some c) t tw k)
| rx_silent o l tw rw : received (Wire o l None [] tw rw) (Wire o l None [] tw k)
| rx_stays o l t tw rw : received (Wire o l None t tw (S rw)) (Wire o l None t tw rw)
| rx_arrives o l c t tw rw :
    received (Wire o l None (c :: t) tw rw) (Wire o l (Some c) t tw k).

Definition read_reg (a : Z) (s : wire) (v : Z) (s' : wire) : Prop :=
  if a =? UART_SR UART then
    exists s1, transmitted s s1 /\ received s1 s' /\
      has_bits v UART_SR_TXRDY = bool_decide (thr s' = None) /\
      has_bits v UART_SR_RXRDY = bool_decide (rhr s' <> None)
  else if a =? UART_RHR UART then
    match rhr s with
    | Some c => u8 v = c /\ s' = Wire (thr s) (line s) None (typed s) (tx_wait s) k
    | None => s' = s
    end
  else s' = s.

Definition write_reg (a v : Z) (s s' : wire) : Prop :=
  if a =? UART_THR UART then
    s' = Wire (Some (u8 v)) (line s) (rhr s) (typed s) k (rx_wait s)
  else s' = s.

(** The transmitter is never overrun and no other register of the UART is
    written. *)
Definition may_write (a : Z) (s : wire) : Prop :=
  if a =? UART_THR UART then thr s = None else a < UART \/ UART + 0x128 <= a.

Definition wire_env : env hw wire := {|
  req (e : op hw) s := match e with Wr a _ => may_write a s | _ => True end;
  step (e : op hw) s x s' := exists s1, overruns s s1 /\
    match e return hw_ans e -> Prop with
    | Rd a => fun v => read_reg a s1 v s'
    | Wr a v => fun _ => write_reg a v s1 s'
    | _ => fun _ => s' = s1
    end x
|}.

(** The desk that a wire shows. *)
Definition shows (s : wire) : desk :=
  Desk (opt_list (rhr s) ++ typed s) (line s ++ opt_list (thr s)).

(** Both directions make progress in the end. *)
Definition in_time (s : wire) : Prop := (tx_wait s <= k)%nat /\ (rx_wait s <= k)%nat.

(** An overrun is a loss at the desk; the transmitter goes on. *)
Lemma overrun_shows s s' : overrun s s' ->
  loses (shows s) (shows s') /\ thr s' = thr s /\ tx_wait s' = tx_wait s /\ rx_wait s' = rx_wait s.
Proof. intros []; (split; [constructor|done]). Qed.

Lemma overruns_show s s' : overruns s s' ->
  losing fast (shows s) (shows s') /\ thr s' = thr s /\ tx_wait s' = tx_wait s /\ rx_wait s' = rx_wait s.
Proof.
  unfold overruns, losing. destruct fast; [|by intros ->]. intros H.
  induction H as [s|s s1 s2 Ho _ (Hl & Ht & Hw & Hr)]; [done|]. destruct (overrun_shows s s1 Ho) as (Hl1 & Ht1 & Hw1 & Hr1).
  split; [by eapply rtc_l|]. split; [congruence|]. split; congruence.
Qed.

Lemma overruns_full s s' c : rhr s = Some c -> overruns s s' -> exists c', rhr s' = Some c'.
Proof.
  unfold overruns. destruct fast; [|intros ? ->; by exists c]. intros Hc H. revert c Hc.
  induction H as [s|s s1 s2 Ho _ IH]; intros c Hc; [by exists c|]. destruct Ho; cbn in *; by eapply IH.
Qed.

Lemma status_read s s1 s' : transmitted s s1 -> received s1 s' -> in_time s ->
  shows s' = shows s /\ in_time s' /\
  (thr s' <> None -> (tx_wait s' < tx_wait s)%nat) /\
  (rhr s' = None -> input (shows s) <> [] -> (rx_wait s' < rx_wait s)%nat).
Proof.
  unfold in_time, shows. intros Ht Hr [Hk1 Hk2].
  destruct Ht; inversion Hr; subst; simpl in *; rewrite ?app_nil_r; repeat split; try done; lia.
Qed.

Lemma wp_uart_status {A} (kont : Z -> prog hw A) Q s : in_time s ->
  (forall s' v, losing fast (shows s) (shows s') -> in_time s' ->
     (thr s' <> None -> (tx_wait s' < tx_wait s)%nat) ->
     (rhr s' = None -> input (shows s) <> [] -> (rx_wait s' < rx_wait s)%nat) ->
     has_bits v UART_SR_TXRDY = bool_decide (thr s' = None) ->
     has_bits v UART_SR_RXRDY = bool_decide (rhr s' <> None) -> wp wire_env (kont v) Q s') ->
  wp wire_env (bind (rd (UART_SR UART)) kont) Q s.
Proof.
  intros Hs H. split; [done|]. intros v s' (s0 & Ho & Hst). cbn in Hst. destruct Hst as (s1 & Ht & Hr & Hb1 & Hb2).
  destruct (overruns_show s s0 Ho) as (Hl & _ & Htw & Hrw). unfold in_time in *.
  destruct (status_read s0 s1 s' Ht Hr) as (Hsh & Hin & Htx & Hrx); [unfold in_time; lia|].
  apply H; [by rewrite Hsh|done| |intros Hn Hi|done|done]; [rewrite <- Htw; exact Htx|].
  rewrite <- Hrw. apply Hrx; [done|]. by apply (losing_keeps _ _ _ Hl).
Qed.

(** Polling the transmitter: after at most [tx_wait] rounds it takes the
    character. *)
Lemma wp_uart_put n c s Q : (tx_wait s < n)%nat -> in_time s ->
  (forall s' d, in_time s' -> losing fast (shows s) d -> shows s' = Desk (input d) (output d ++ [u8 c]) ->
     Q (Done tt) s') ->
  wp wire_env (iter n (write_until (uart_write UART c)) tt) Q s.
Proof.
  revert s. induction n as [|n IH]; intros s Hn Hk HQ; [lia|]. cbn [iter].
  unfold write_until at 1, uart_write at 1. do 2 step_in. apply wp_uart_status; [done|].
  intros s' v Hsh Hk' Htx _ Hv _. rewrite Hv. case_bool_decide as Hthr; cbn [negb bind].
  - split; [done|]. intros [] s2 (s3 & Ho & Hw). change (write_reg (UART_THR UART) c s3 s2) in Hw.
    destruct (overruns_show s' s3 Ho) as (Hl & Hthr3 & Htw & Hrw).
    unfold write_reg in Hw. rewrite Z.eqb_refl in Hw. subst s2. apply (HQ _ (shows s3)).
    + unfold in_time in *. simpl. lia.
    + by eapply losing_trans.
    + unfold shows. simpl. by rewrite Hthr3, Hthr, app_nil_r.
  - closed_tests. cbn [negb bind]. apply IH; [specialize (Htx Hthr); lia|done|].
    intros s2 d Hk2 Hd Hs2. apply (HQ _ d); [done|by eapply losing_trans|done].
Qed.

(** Polling the receiver: what has been typed arrives. *)
Lemma wp_uart_get n s Q : (rx_wait s < n)%nat -> in_time s -> input (shows s) <> [] ->
  (forall c t d s', in_time s' -> losing fast (shows s) d -> input d = c :: t -> shows s' = Desk t (output d) ->
     Q (Done c) s') ->
  wp wire_env (iter n (read_until (uart_read UART)) tt) Q s.
Proof.
  revert s. induction n as [|n IH]; intros s Hn Hk Hin HQ; [lia|]. cbn [iter].
  unfold read_until at 1, uart_read at 1. do 2 step_in. apply wp_uart_status; [done|].
  intros s' v Hsh Hk' _ Hrx _ Hv.
  assert ((Z.land v UART_SR_RXRDY =? 0) = bool_decide (rhr s' = None)) as ->.
  { unfold has_bits in Hv. destruct (Z.land v UART_SR_RXRDY =? 0); simpl in Hv;
      case_bool_decide; case_bool_decide; congruence. }
  clear Hv. case_bool_decide as Hr; cbn [bind].
  - closed_tests. cbn [negb bind]. apply IH; [specialize (Hrx Hr Hin); lia|done|by apply (losing_keeps _ _ _ Hsh)|].
    intros c t d s2 Hk2 Hd Hc Hs2. eapply HQ; [done|by eapply losing_trans|done|done].
  - split; [done|]. intros w s2 (s3 & Ho & Hw). change (read_reg (UART_RHR UART) s3 w s2) in Hw.
    destruct (overruns_show s' s3 Ho) as (Hl & _ & Htw & Hrw).
    unfold read_reg in Hw. replace (UART_RHR UART =? UART_SR UART) with false in Hw by done.
    rewrite Z.eqb_refl in Hw. destruct (rhr s') as [c0|] eqn:Hc0; [|done].
    destruct (overruns_full s' s3 c0 Hc0 Ho) as [c Hc]. rewrite Hc in Hw. destruct Hw as [Hu ->].
    cbn. rewrite Hu. apply (HQ c (typed s3) (shows s3)).
    + unfold in_time in *. simpl. lia.
    + by eapply losing_trans.
    + unfold shows. simpl. by rewrite Hc.
    + unfold shows. by simpl.
Qed.

(** ** The calls of the console *)

Context (fuel : nat).
Hypothesis Hfuel : (k < fuel)%nat.

Lemma wp_uart_write_loop cs n s Q : in_time s ->
  (forall s' d, in_time s' -> losing fast (shows s) d -> shows s' = Desk (input d) (output d ++ map u8 cs) ->
     Q (Done (n + Z.of_nat (length cs))) s') ->
  wp wire_env (write_loop (usart_serial_putchar fuel UART) cs (Z.of_nat (length cs)) n) Q s.
Proof.
  revert n s. induction cs as [|c cs IH]; intros n s Hk HQ.
  - cbn. replace n with (n + Z.of_nat (@length Z [])) by (simpl; lia). apply (HQ s (shows s)); [done|apply losing_refl|].
    cbn [map]. rewrite app_nil_r. by destruct (shows s).
  - cbn [write_loop length]. rewrite (proj2 (Z.eqb_neq _ 0)) by lia.
    unfold usart_serial_putchar at 1. rewrite Z.eqb_refl. step_in.
    apply wp_bind. apply wp_uart_put; [destruct Hk; lia|done|]. intros s1 d1 Hk1 Hd1 Hs1. cbn [andthen bind].
    closed_tests. cbv iota. replace (Z.of_nat (S (length cs)) - 1) with (Z.of_nat (length cs)) by lia.
    apply IH; [done|]. intros s2 d2 Hk2 Hd2 Hs2. replace (n + 1 + Z.of_nat (length cs)) with (n + Z.of_nat (length (c :: cs)))
      by (simpl; lia).
    destruct (losing_keeps _ _ _ Hd2) as (Ho & _ & Hl). rewrite Hs1 in Ho, Hl. cbn [input output] in Ho, Hl.
    apply (HQ _ (Desk (input d2) (output d1))); [done| |].
    + eapply losing_trans; [exact Hd1|]. specialize (Hl (output d1)). by destruct d1.
    + rewrite Hs2, Ho. cbn [input output map]. by rewrite <- app_assoc.
Qed.

Lemma pin_level_off_uart pin level s : 0 <= pin < 192 ->
  wp wire_env (Ioport.ioport_set_pin_level pin level) (fun o s' => o = Done tt /\ overruns s s') s.
Proof.
  intros Hp.
  unfold Ioport.ioport_set_pin_level, arch_ioport_set_pin_level, arch_ioport_pin_to_base,
    arch_ioport_port_to_base, arch_ioport_pin_to_port_id.
  assert (0 <= Z.shiftr pin 5 < 6) as Hq
    by (rewrite Z.shiftr_div_pow2 by lia; Z.to_euclidean_division_equations; lia).
  rewrite u32_id by (unfold is_u32, IOPORT_BASE_ADDRESS, IOPORT_PIO_OFFSET, PIOA, PIOB; lia).
  destruct level; (split; [|intros [] s' (s1 & Ho & Hw); split; [done|]; cut (s' = s1); [by intros ->|]; revert Hw]);
    cbn; unfold may_write, write_reg, PIO_SODR, PIO_CODR, UART_THR, UART, IOPORT_BASE_ADDRESS,
      IOPORT_PIO_OFFSET, PIOA, PIOB; rewrite (proj2 (Z.eqb_neq _ _)) by lia; try done; lia.
Qed.

(** Each call of the ideal console, made through the streams and the UART. *)
Lemma link_refines (e : conop) s : in_time s -> req (desk_env fast) e (shows s) ->
  wp wire_env (link fuel e) (fun o s' => in_time s' /\
    exists x, o = Done x /\ step (desk_env fast) e (shows s) x (shows s')) s.
Proof.
  intros Hk Hreq. destruct e as [cs| | |t|pin level]; cbn [link].
  - unfold _write, console_stdio. closed_tests. cbn [negb andb ptr_put defined bind Uart.stdio_base].
    apply wp_bind, wp_uart_write_loop; [done|]. intros s' d Hk' Hd Hs'. split; [done|]. exists tt. split; [done|]. by exists d.
  - unfold _read, console_stdio. closed_tests. cbn [negb ptr_get defined bind Uart.stdio_base].
    unfold usart_serial_getchar. rewrite Z.eqb_refl. do 2 step_in. apply wp_bind.
    apply wp_uart_get; [destruct Hk; lia|done..|]. intros c t d s' Hk' Hd Hin Hs'. cbn [andthen bind defined].
    split; [done|]. exists c. split; [done|]. exists d. split; [done|]. by exists t.
  - unfold Uart.uart_is_rx_ready, test_bits. step_in. apply wp_uart_status; [done|].
    intros s' v Hsh Hk' _ _ _ Hv. cbn [bind]. split; [done|]. eexists. split; [done|].
    exists (shows s'). split; [done|]. split; [|done]. rewrite Hv. unfold shows. simpl.
    case_bool_decide; [|done]. by destruct (rhr s').
  - split; [done|]. intros [] s' (s1 & Ho & ->). destruct (overruns_show s s1 Ho) as (Hl & _ & Htw & Hrw).
    split; [unfold in_time in *; lia|]. exists tt. split; [done|]. by exists (shows s1).
  - eapply wp_mono; [by apply pin_level_off_uart|]. intros o s' [-> Ho]. destruct (overruns_show s s' Ho) as (Hl & _ & Htw & Hrw).
    split; [unfold in_time in *; lia|]. exists tt. split; [done|]. by exists (shows s').
Qed.
End wire.

(** C10: The console of the firmware is the ideal console: whatever holds of a
    program over an ideal console, that answers with the characters typed and
    takes all output, holds for the program linked to the C library's streams,
    the serial service and the UART driver, on a line of any speed: characters
    are read once each and in order, every byte printed goes out once and in
    order, the transmitter is never overrun, and no poll goes on for ever as
    long as the line makes progress within [k] readings of the status.
    Nothing typed is lost as long as the next character comes when the one before
    has been read.  On a line that is faster ([fast]) the receiver may be overrun
    at any moment, and the same holds with a console that may lose one of two
    characters that wait. *)
Theorem console_refines_desk {A} (p : prog con A) fast k fuel Q s :
  (k < fuel)%nat -> in_time k s -> wp (desk_env fast) p Q (shows s) ->
  wp (wire_env fast k) (linked fuel p) (fun o s' => in_time k s' /\ Q o (shows s')) s.
Proof.
  intros Hf. unfold linked. revert s. induction p as [a|h|e kont IH]; intros s Hk Hp; [done..|].
  destruct Hp as [Hreq Hstep]. cbn [interp]. eapply wp_seq; [by apply link_refines|].
  intros o s' (Hk' & x & -> & Hs). cbn [andthen]. by apply IH, Hstep.
Qed.

(** A character and its echo, while another one comes in: either may be read. *)
Lemma echo_overrun : wp (desk_env true) (let! c := getchar in putchar c)
  (fun o d => o = Done tt /\ (output d = [97] \/ output d = [98])) (Desk [97; 98] []).
Proof.
  split; [done|]. intros x d (d1 & Hl & t & Hin & ->). split; [done|]. intros [] d2 (d3 & Hl2 & ->).
  assert (Forall (fun c => c = 97 \/ c = 98) (input d1) /\ output d1 = []) as [Hc Ho].
  { assert (forall d d', rtc loses d d' -> Forall (fun c => c = 97 \/ c = 98) (input d) -> Forall (fun c => c = 97 \/ c = 98) (input d')) as H.
    { intros d d' H. induction H as [|? ? ? [] _ IH]; [done| |]; cbn; intros Hf; apply IH; cbn;
        apply list.Forall_cons in Hf as [? Hf]; apply list.Forall_cons in Hf as [? ?]; by apply list.Forall_cons. }
    split; [apply (H _ _ Hl); cbn; apply list.Forall_cons; split; [by left|]; apply list.Forall_cons; split; [by right|done]|by apply (losing_keeps true _ _ Hl)]. }
  destruct (losing_keeps true _ _ Hl2) as (Ho2 & _ & _). cbn in Ho2 |- *. rewrite Hin in Hc.
  apply list.Forall_cons in Hc as [Hx _]. rewrite Ho2, Ho. split; [done|]. by destruct Hx as [-> | ->]; [left|right].
Qed.

(** The line editor of the serial monitor on a line with nothing typed yet:
    [ab] and a carriage return. *)
Lemma console_refines_desk_witness :
  let s := Wire None [] None [97; 98; 13] 2 2 in
  wp (wire_env false 2) (linked 3 (serial_editline 4 [0; 0; 0; 0] 4)) (fun o s' => in_time 2 s' /\
    o = Done ([97; 98; 0; 0], 2) /\ shows s' = Desk [] [97; 98]) s /\
  wp (wire_env true 2) (linked 3 (let! c := getchar in putchar c)) (fun o s' => in_time 2 s' /\
    o = Done tt /\ (output (shows s') = [97] \/ output (shows s') = [98])) (Wire None [] (Some 97) [98] 2 2).
Proof.
  split.
  - apply (console_refines_desk (serial_editline 4 [0; 0; 0; 0] 4) false 2 3
      (fun o d => o = Done ([97; 98; 0; 0], 2) /\ d = Desk [] [97; 98])); [lia|by split|].
    repeat (split; [done|]; intros ? ? Hs; cbn in Hs; destruct Hs as (? & -> & Hs);
      first [destruct Hs as (? & [= <- <-] & ->)|subst]; cbn).
    done.
  - apply (console_refines_desk (let! c := getchar in putchar c) true 2 3
      (fun o d => o = Done tt /\ (output d = [97] \/ output d = [98]))); [lia|by split|apply echo_overrun].
Defined.
