(* ===== verification/Emac.v ===== *)
(** * The Ethernet controller driver (emac.c, emac.h)

    src/src/ASF/sam/drivers/emac/: register functions, the rings of transmit
    and receive descriptors that the driver shares with the controller, and the
    interrupt handler. *)

From S2P Require Import Prelude Prog.

(** ** Registers and their bits *)

Definition EMAC : Z := 0x400B0000.
Definition EMAC_NCR p := p + 0x00.
Definition EMAC_NCFGR p := p + 0x04.
Definition EMAC_NSR p := p + 0x08.
Definition EMAC_TSR p := p + 0x14.
Definition EMAC_RBQP p := p + 0x18.
Definition EMAC_TBQP p := p + 0x1C.
Definition EMAC_RSR p := p + 0x20.
Definition EMAC_ISR p := p + 0x24.
Definition EMAC_IER p := p + 0x28.
Definition EMAC_IDR p := p + 0x2C.
Definition EMAC_IMR p := p + 0x30.
Definition EMAC_MAN p := p + 0x34.
Definition EMAC_PTR p := p + 0x38.
Definition EMAC_HRB p := p + 0x90.
Definition EMAC_HRT p := p + 0x94.
Definition EMAC_SAxB p i := p + 0x98 + 8 * i.
Definition EMAC_SAxT p i := p + 0x98 + 8 * i + 4.
Definition EMAC_TID p := p + 0xB8.
Definition EMAC_USRIO p := p + 0xC0.

Definition EMAC_NCR_RE : Z := Z.shiftl 1 2.
Definition EMAC_NCR_TE : Z := Z.shiftl 1 3.
Definition EMAC_NCR_MPE : Z := Z.shiftl 1 4.
Definition EMAC_NCR_CLRSTAT : Z := Z.shiftl 1 5.
Definition EMAC_NCR_INCSTAT : Z := Z.shiftl 1 6.
Definition EMAC_NCR_WESTAT : Z := Z.shiftl 1 7.
Definition EMAC_NCR_BP : Z := Z.shiftl 1 8.
Definition EMAC_NCR_TSTART : Z := Z.shiftl 1 9.
Definition EMAC_NCR_THALT : Z := Z.shiftl 1 10.
Definition EMAC_NCFGR_SPD : Z := Z.shiftl 1 0.
Definition EMAC_NCFGR_FD : Z := Z.shiftl 1 1.
Definition EMAC_NCFGR_JFRAME : Z := Z.shiftl 1 3.
Definition EMAC_NCFGR_CAF : Z := Z.shiftl 1 4.
Definition EMAC_NCFGR_NBC : Z := Z.shiftl 1 5.
Definition EMAC_NCFGR_UNI : Z := Z.shiftl 1 7.
Definition EMAC_NCFGR_BIG : Z := Z.shiftl 1 8.
Definition EMAC_NCFGR_CLK_Msk : Z := Z.shiftl 3 10.
Definition EMAC_NCFGR_CLK_MCK_8 : Z := Z.shiftl 0 10.
Definition EMAC_NCFGR_CLK_MCK_16 : Z := Z.shiftl 1 10.
Definition EMAC_NCFGR_CLK_MCK_32 : Z := Z.shiftl 2 10.
Definition EMAC_NCFGR_CLK_MCK_64 : Z := Z.shiftl 3 10.
Definition EMAC_NCFGR_RTY : Z := Z.shiftl 1 12.
Definition EMAC_NCFGR_PAE : Z := Z.shiftl 1 13.
Definition EMAC_NCFGR_RBOF_Msk : Z := Z.shiftl 3 14.
Definition EMAC_NCFGR_RLCE : Z := Z.shiftl 1 16.
Definition EMAC_NCFGR_DRFCS : Z := Z.shiftl 1 17.
Definition EMAC_NCFGR_EFRHD : Z := Z.shiftl 1 18.
Definition EMAC_NCFGR_IRXFCS : Z := Z.shiftl 1 19.
Definition EMAC_NSR_MDIO : Z := Z.shiftl 1 1.
Definition EMAC_NSR_IDLE : Z := Z.shiftl 1 2.
Definition EMAC_TSR_UBR : Z := Z.shiftl 1 0.
Definition EMAC_TSR_COL : Z := Z.shiftl 1 1.
Definition EMAC_TSR_RLES : Z := Z.shiftl 1 2.
Definition EMAC_TSR_BEX : Z := Z.shiftl 1 4.
Definition EMAC_TSR_COMP : Z := Z.shiftl 1 5.
Definition EMAC_TSR_UND : Z := Z.shiftl 1 6.
Definition EMAC_RBQP_ADDR_Msk : Z := Z.shiftl 0x3fffffff 2.
Definition EMAC_TBQP_ADDR_Msk : Z := Z.shiftl 0x3fffffff 2.
Definition EMAC_RSR_BNA : Z := Z.shiftl 1 0.
Definition EMAC_RSR_REC : Z := Z.shiftl 1 1.
Definition EMAC_RSR_OVR : Z := Z.shiftl 1 2.
Definition EMAC_ISR_RCOMP : Z := Z.shiftl 1 1.
Definition EMAC_ISR_TCOMP : Z := Z.shiftl 1 7.
Definition EMAC_IER_RCOMP : Z := Z.shiftl 1 1.
Definition EMAC_IER_RXUBR : Z := Z.shiftl 1 2.
Definition EMAC_IER_TUND : Z := Z.shiftl 1 4.
Definition EMAC_IER_RLE : Z := Z.shiftl 1 5.
Definition EMAC_IER_TXERR : Z := Z.shiftl 1 6.
Definition EMAC_IER_TCOMP : Z := Z.shiftl 1 7.
Definition EMAC_IER_ROVR : Z := Z.shiftl 1 10.
Definition EMAC_IER_HRESP : Z := Z.shiftl 1 11.
Definition EMAC_IER_PFR : Z := Z.shiftl 1 12.
Definition EMAC_IER_PTZ : Z := Z.shiftl 1 13.
Definition EMAC_IDR_RCOMP : Z := Z.shiftl 1 1.
Definition EMAC_MAN_DATA_Msk : Z := 0xffff.
Definition EMAC_MAN_DATA (value : Z) : Z := Z.land EMAC_MAN_DATA_Msk value.
Definition EMAC_MAN_CODE (value : Z) : Z := Z.land (Z.shiftl 0x3 16) (u32 (Z.shiftl value 16)).
Definition EMAC_MAN_REGA (value : Z) : Z := Z.land (Z.shiftl 0x1f 18) (u32 (Z.shiftl value 18)).
Definition EMAC_MAN_PHYA (value : Z) : Z := Z.land (Z.shiftl 0x1f 23) (u32 (Z.shiftl value 23)).
Definition EMAC_MAN_RW (value : Z) : Z := Z.land (Z.shiftl 0x3 28) (u32 (Z.shiftl value 28)).
Definition EMAC_MAN_SOF (value : Z) : Z := Z.land (Z.shiftl 0x3 30) (u32 (Z.shiftl value 30)).
Definition EMAC_TID_TID_Msk : Z := 0xffff.
Definition EMAC_USRIO_RMII : Z := Z.shiftl 1 0.
Definition EMAC_USRIO_CLKEN : Z := Z.shiftl 1 1.

Definition EMAC_RXD_ADDR_MASK : Z := 0xFFFFFFFC.
Definition EMAC_RXD_WRAP : Z := Z.shiftl 1 1.
Definition EMAC_RXD_OWNERSHIP : Z := Z.shiftl 1 0.
Definition EMAC_RXD_EOF : Z := Z.shiftl 1 15.
Definition EMAC_RXD_SOF : Z := Z.shiftl 1 14.
Definition EMAC_RXD_LEN_MASK : Z := 0xFFF.
Definition EMAC_TXD_USED : Z := Z.shiftl 1 31.
Definition EMAC_TXD_WRAP : Z := Z.shiftl 1 30.
Definition EMAC_TXD_LAST : Z := Z.shiftl 1 15.
Definition EMAC_TXD_LEN_MASK : Z := 0x7FF.

Definition EMAC_RX_UNITSIZE : Z := 128.
Definition EMAC_TX_UNITSIZE : Z := 1518.
Definition EMAC_CLOCK_SPEED_160MHZ : Z := 160 * 1000 * 1000.
Definition EMAC_CLOCK_SPEED_80MHZ : Z := 80 * 1000 * 1000.
Definition EMAC_CLOCK_SPEED_40MHZ : Z := 40 * 1000 * 1000.
Definition EMAC_CLOCK_SPEED_20MHZ : Z := 20 * 1000 * 1000.
Definition EMAC_MAN_CODE_VALUE : Z := 10.
Definition EMAC_MAN_SOF_VALUE : Z := 1.
Definition EMAC_MAN_RW_TYPE : Z := 2.
Definition EMAC_MAN_READ_ONLY : Z := 1.
Definition EMAC_RX_BUFFERS : Z := 16.
Definition EMAC_TX_BUFFERS : Z := 8.
Definition MAC_PHY_RETRY_MAX : Z := 1000000.

(** [emac_status_t] *)
Definition EMAC_OK : Z := 0.
Definition EMAC_TIMEOUT : Z := 1.
Definition EMAC_TX_BUSY : Z := 2.
Definition EMAC_RX_NULL : Z := 3.
Definition EMAC_SIZE_TOO_SMALL : Z := 4.
Definition EMAC_PARAM : Z := 5.
Definition EMAC_INVALID : Z := 0xFF.

(** ** The inline functions of emac.h *)

(** [if (enable) reg |= m; else reg &= ~m;] *)
Definition switch (a m uc_enable : Z) : prog hw unit :=
  if negb (uc_enable =? 0) then modify a (fun v => Z.lor v m)
  else modify a (fun v => Z.land v (not32 m)).

Definition emac_network_control (p ul_ncr : Z) := wr (EMAC_NCR p) ul_ncr.
Definition emac_get_network_control (p : Z) := rd (EMAC_NCR p).
Definition emac_enable_receive (p uc_enable : Z) := switch (EMAC_NCR p) EMAC_NCR_RE uc_enable.
Definition emac_enable_transmit (p uc_enable : Z) := switch (EMAC_NCR p) EMAC_NCR_TE uc_enable.
Definition emac_enable_management (p uc_enable : Z) := switch (EMAC_NCR p) EMAC_NCR_MPE uc_enable.
Definition emac_clear_statistics (p : Z) := modify (EMAC_NCR p) (fun v => Z.lor v EMAC_NCR_CLRSTAT).
Definition emac_increase_statistics (p : Z) :=
  modify (EMAC_NCR p) (fun v => Z.lor v EMAC_NCR_INCSTAT).
Definition emac_enable_statistics_write (p uc_enable : Z) :=
  switch (EMAC_NCR p) EMAC_NCR_WESTAT uc_enable.
Definition emac_enable_back_pressure (p uc_enable : Z) := switch (EMAC_NCR p) EMAC_NCR_BP uc_enable.
Definition emac_start_transmission (p : Z) := modify (EMAC_NCR p) (fun v => Z.lor v EMAC_NCR_TSTART).
Definition emac_halt_transmission (p : Z) := modify (EMAC_NCR p) (fun v => Z.lor v EMAC_NCR_THALT).
Definition emac_set_configure (p ul_cfg : Z) := wr (EMAC_NCFGR p) ul_cfg.
Definition emac_get_configure (p : Z) := rd (EMAC_NCFGR p).
Definition emac_set_speed (p uc_speed : Z) := switch (EMAC_NCFGR p) EMAC_NCFGR_SPD uc_speed.
Definition emac_enable_full_duplex (p uc_enable : Z) := switch (EMAC_NCFGR p) EMAC_NCFGR_FD uc_enable.
Definition emac_enable_copy_all (p uc_enable : Z) := switch (EMAC_NCFGR p) EMAC_NCFGR_CAF uc_enable.
Definition emac_enable_jumbo_frames (p uc_enable : Z) :=
  switch (EMAC_NCFGR p) EMAC_NCFGR_JFRAME uc_enable.
Definition emac_disable_broadcast (p uc_enable : Z) := switch (EMAC_NCFGR p) EMAC_NCFGR_NBC uc_enable.
Definition emac_enable_multicast_hash (p uc_enable : Z) :=
  switch (EMAC_NCFGR p) EMAC_NCFGR_UNI uc_enable.
Definition emac_enable_big_frame (p uc_enable : Z) := switch (EMAC_NCFGR p) EMAC_NCFGR_BIG uc_enable.

Definition emac_set_clock (p ul_mck : Z) : prog hw Z :=
  if EMAC_CLOCK_SPEED_160MHZ <? ul_mck then Ret EMAC_INVALID
  else
    let ul_clk :=
      if EMAC_CLOCK_SPEED_80MHZ <? ul_mck then EMAC_NCFGR_CLK_MCK_64
      else if EMAC_CLOCK_SPEED_40MHZ <? ul_mck then EMAC_NCFGR_CLK_MCK_32
      else if EMAC_CLOCK_SPEED_20MHZ <? ul_mck then EMAC_NCFGR_CLK_MCK_16
      else EMAC_NCFGR_CLK_MCK_8 in
    modify (EMAC_NCFGR p) (fun v => Z.land v (not32 EMAC_NCFGR_CLK_Msk));;
    modify (EMAC_NCFGR p) (fun v => Z.lor v ul_clk);;
    Ret EMAC_OK.

Definition emac_enable_retry_test (p uc_enable : Z) := switch (EMAC_NCFGR p) EMAC_NCFGR_RTY uc_enable.
Definition emac_enable_pause_frame (p uc_enable : Z) := switch (EMAC_NCFGR p) EMAC_NCFGR_PAE uc_enable.
Definition emac_set_rx_buffer_offset (p uc_offset : Z) : prog hw unit :=
  modify (EMAC_NCFGR p) (fun v => Z.land v (not32 EMAC_NCFGR_RBOF_Msk));;
  modify (EMAC_NCFGR p) (fun v => Z.lor v (Z.land EMAC_NCFGR_RBOF_Msk (Z.shiftl uc_offset 14))).
Definition emac_enable_rx_length_check (p uc_enable : Z) :=
  switch (EMAC_NCFGR p) EMAC_NCFGR_RLCE uc_enable.
Definition emac_enable_discard_fcs (p uc_enable : Z) :=
  switch (EMAC_NCFGR p) EMAC_NCFGR_DRFCS uc_enable.
Definition emac_enable_efrhd (p uc_enable : Z) := switch (EMAC_NCFGR p) EMAC_NCFGR_EFRHD uc_enable.
Definition emac_enable_ignore_rx_fcs (p uc_enable : Z) :=
  switch (EMAC_NCFGR p) EMAC_NCFGR_IRXFCS uc_enable.
Definition emac_get_status (p : Z) := rd (EMAC_NSR p).
Definition emac_get_MDIO (p : Z) : prog hw bool :=
  let! v := rd (EMAC_NSR p) in Ret (0 <? Z.land v EMAC_NSR_MDIO).
Definition emac_is_phy_idle (p : Z) : prog hw bool :=
  let! v := rd (EMAC_NSR p) in Ret (0 <? Z.land v EMAC_NSR_IDLE).
Definition emac_get_tx_status (p : Z) := rd (EMAC_TSR p).
Definition emac_clear_tx_status (p ul_status : Z) := wr (EMAC_TSR p) ul_status.
Definition emac_get_rx_status (p : Z) := rd (EMAC_RSR p).
Definition emac_clear_rx_status (p ul_status : Z) := wr (EMAC_RSR p) ul_status.
Definition emac_set_rx_queue (p ul_addr : Z) := wr (EMAC_RBQP p) (Z.land EMAC_RBQP_ADDR_Msk ul_addr).
Definition emac_get_rx_queue (p : Z) := rd (EMAC_RBQP p).
Definition emac_set_tx_queue (p ul_addr : Z) := wr (EMAC_TBQP p) (Z.land EMAC_TBQP_ADDR_Msk ul_addr).
Definition emac_get_tx_queue (p : Z) := rd (EMAC_TBQP p).
Definition emac_enable_interrupt (p ul_source : Z) := wr (EMAC_IER p) ul_source.
Definition emac_disable_interrupt (p ul_source : Z) := wr (EMAC_IDR p) ul_source.
Definition emac_get_interrupt_status (p : Z) := rd (EMAC_ISR p).
Definition emac_get_interrupt_mask (p : Z) := rd (EMAC_IMR p).
Definition emac_set_pause_time (p us_pause_time : Z) := wr (EMAC_PTR p) us_pause_time.
Definition emac_set_hash (p ul_hash_top ul_hash_bottom : Z) : prog hw unit :=
  wr (EMAC_HRB p) ul_hash_bottom;; wr (EMAC_HRT p) ul_hash_top.
Definition emac_set_hash64 (p ull_hash : Z) : prog hw unit :=
  wr (EMAC_HRB p) (u32 ull_hash);; wr (EMAC_HRT p) (u32 (Z.shiftr ull_hash 32)).
Definition emac_set_address (p uc_index : Z) (mac : list Z) : prog hw unit :=
  match mac with
  | [m0; m1; m2; m3; m4; m5] =>
    wr (EMAC_SAxB p uc_index)
      (u32 (Z.lor (Z.lor (Z.lor (Z.shiftl m3 24) (Z.shiftl m2 16)) (Z.shiftl m1 8)) m0));;
    wr (EMAC_SAxT p uc_index) (Z.lor (Z.shiftl m5 8) m4)
  | _ => Halt Undefined
  end.
Definition emac_set_address32 (p uc_index ul_mac_top ul_mac_bottom : Z) : prog hw unit :=
  wr (EMAC_SAxB p uc_index) ul_mac_bottom;; wr (EMAC_SAxT p uc_index) ul_mac_top.
Definition emac_set_address64 (p uc_index ull_mac : Z) : prog hw unit :=
  wr (EMAC_SAxB p uc_index) (u32 ull_mac);; wr (EMAC_SAxT p uc_index) (u32 (Z.shiftr ull_mac 32)).
Definition emac_set_type_id (p us_type_id : Z) := wr (EMAC_TID p) (Z.land EMAC_TID_TID_Msk us_type_id).
Definition emac_get_type_id (p : Z) : prog hw Z :=
  let! v := rd (EMAC_TID p) in Ret (Z.land v EMAC_TID_TID_Msk).
Definition emac_enable_rmii (p uc_enable : Z) := switch (EMAC_USRIO p) EMAC_USRIO_RMII uc_enable.
Definition emac_enable_transceiver_clock (p uc_enable : Z) :=
  switch (EMAC_USRIO p) EMAC_USRIO_CLKEN uc_enable.

(** ** Memory shared with the controller, and callbacks

    A descriptor is two words; the buffers are memory at an address.  The
    controller may change any of it between two accesses. *)

Inductive ring := TxRing | RxRing.
Inductive field := Addr | Status.

#[global] Instance ring_eq_dec : EqDecision ring.
Proof. solve_decision. Defined.
#[global] Instance field_eq_dec : EqDecision field.
Proof. solve_decision. Defined.

Inductive emac_op :=
| Reg (e : hwop)
| DescRd (r : ring) (i : Z) (f : field)
| DescWr (r : ring) (i : Z) (f : field) (v : Z)
| CopyTo (address : Z) (bs : list Z)
| CopyFrom (address : Z) (n : Z)
| Callback (cb : Z) (status : Z)
| Wakeup (cb : Z).

Definition emac_ans (e : emac_op) : Type :=
  match e with
  | Reg e => hw_ans e
  | DescRd _ _ _ => Z
  | CopyFrom _ _ => list Z
  | _ => unit
  end.

Definition emac : Sig := {| op := emac_op; ans := emac_ans |}.

Definition reg {A} (p : prog hw A) : prog emac A := @embed hw emac Reg (fun _ x => x) A p.
Definition desc_rd (r : ring) (i : Z) (f : field) : prog emac Z := @trigger emac (DescRd r i f).
Definition desc_wr (r : ring) (i : Z) (f : field) (v : Z) : prog emac unit :=
  @trigger emac (DescWr r i f v).
Definition copy_to (address : Z) (bs : list Z) : prog emac unit := @trigger emac (CopyTo address bs).
Definition copy_from (address n : Z) : prog emac (list Z) := @trigger emac (CopyFrom address n).
Definition callback (cb status : Z) : prog emac unit := @trigger emac (Callback cb status).
Definition wakeup (cb : Z) : prog emac unit := @trigger emac (Wakeup cb).

(** A function pointer is [None] when it is NULL.  The descriptor lists are the
    two rings; their addresses and those of the buffers are kept. *)
Record emac_device := EmacDevice {
  p_hw : Z;
  p_tx_buffer : Z;
  p_rx_buffer : Z;
  p_rx_dscr : Z;
  p_tx_dscr : Z;
  func_rx_cb : option Z;
  func_wakeup_cb : option Z;
  func_tx_cb_list : list (option Z);
  us_rx_list_size : Z;
  us_rx_idx : Z;
  us_tx_list_size : Z;
  us_tx_head : Z;
  us_tx_tail : Z;
  uc_wakeup_threshold : Z
}.

Definition set_tx (d : emac_device) (head tail : Z) : emac_device :=
  EmacDevice (p_hw d) (p_tx_buffer d) (p_rx_buffer d) (p_rx_dscr d) (p_tx_dscr d) (func_rx_cb d)
    (func_wakeup_cb d) (func_tx_cb_list d) (us_rx_list_size d) (us_rx_idx d) (us_tx_list_size d)
    head tail (uc_wakeup_threshold d).
Definition set_rx_idx (d : emac_device) (idx : Z) : emac_device :=
  EmacDevice (p_hw d) (p_tx_buffer d) (p_rx_buffer d) (p_rx_dscr d) (p_tx_dscr d) (func_rx_cb d)
    (func_wakeup_cb d) (func_tx_cb_list d) (us_rx_list_size d) idx (us_tx_list_size d)
    (us_tx_head d) (us_tx_tail d) (uc_wakeup_threshold d).
Definition set_tx_cb (d : emac_device) (cbs : list (option Z)) : emac_device :=
  EmacDevice (p_hw d) (p_tx_buffer d) (p_rx_buffer d) (p_rx_dscr d) (p_tx_dscr d) (func_rx_cb d)
    (func_wakeup_cb d) cbs (us_rx_list_size d) (us_rx_idx d) (us_tx_list_size d)
    (us_tx_head d) (us_tx_tail d) (uc_wakeup_threshold d).
Definition set_rx_cb (d : emac_device) (cb : option Z) : emac_device :=
  EmacDevice (p_hw d) (p_tx_buffer d) (p_rx_buffer d) (p_rx_dscr d) (p_tx_dscr d) cb
    (func_wakeup_cb d) (func_tx_cb_list d) (us_rx_list_size d) (us_rx_idx d) (us_tx_list_size d)
    (us_tx_head d) (us_tx_tail d) (uc_wakeup_threshold d).
Definition set_wakeup (d : emac_device) (cb : option Z) (threshold : Z) : emac_device :=
  EmacDevice (p_hw d) (p_tx_buffer d) (p_rx_buffer d) (p_rx_dscr d) (p_tx_dscr d) (func_rx_cb d)
    cb (func_tx_cb_list d) (us_rx_list_size d) (us_rx_idx d) (us_tx_list_size d)
    (us_tx_head d) (us_tx_tail d) threshold.

(** ** Circular buffers

    The operands are promoted to [int], so [%] is the remainder that takes the
    sign of the dividend. *)

Definition CIRC_CNT (head tail size : Z) : Z := Z.rem (head - tail) size.
Definition CIRC_SPACE (head tail size : Z) : Z := CIRC_CNT tail (head + 1) size.
Definition CIRC_EMPTY (head tail : Z) : bool := head =? tail.

Definition circ_inc (headortail size : Z) : Z :=
  let v := u16 (headortail + 1) in if size <=? v then 0 else v.

(** ** The PHY *)

(** [retry = 0] waits for ever. *)
Definition wait_phy_round (p ul_retry ul_retry_count : Z) : prog hw (Z + Z) :=
  let! idle := emac_is_phy_idle p in
  if idle : bool then Ret (inr EMAC_OK)
  else if ul_retry =? 0 then Ret (inl ul_retry_count)
  else
    let ul_retry_count := u32 (ul_retry_count + 1) in
    Ret (if ul_retry <=? ul_retry_count then inr EMAC_TIMEOUT else inl ul_retry_count).

Definition emac_wait_phy (fuel : nat) (p ul_retry : Z) : prog hw Z :=
  iter fuel (wait_phy_round p ul_retry) 0.

Definition wait_idle_round (p : Z) (_ : unit) : prog hw (unit + unit) :=
  let! v := rd (EMAC_NSR p) in
  Ret (if Z.land v EMAC_NSR_IDLE =? 0 then inl tt else inr tt).

Definition emac_maintain_phy (fuel : nat) (p uc_phy_addr uc_reg_addr uc_rw us_data : Z)
    : prog hw unit :=
  iter fuel (wait_idle_round p) tt;;
  wr (EMAC_MAN p)
    (Z.lor (Z.lor (Z.lor (Z.lor (Z.lor (EMAC_MAN_CODE EMAC_MAN_CODE_VALUE)
      (EMAC_MAN_SOF EMAC_MAN_SOF_VALUE)) (EMAC_MAN_PHYA uc_phy_addr)) (EMAC_MAN_REGA uc_reg_addr))
      (EMAC_MAN_RW (if negb (uc_rw =? 0) then EMAC_MAN_RW_TYPE else EMAC_MAN_READ_ONLY)))
      (EMAC_MAN_DATA us_data)).

Definition emac_get_phy_data (fuel : nat) (p : Z) : prog hw Z :=
  iter fuel (wait_idle_round p) tt;;
  let! v := rd (EMAC_MAN p) in
  Ret (u16 (Z.land v EMAC_MAN_DATA_Msk)).

(** The status and the value stored, if any. *)
Definition emac_phy_read (fuel : nat) (p uc_phy_address uc_address : Z) : prog hw (Z * option Z) :=
  emac_maintain_phy fuel p uc_phy_address uc_address 1 0;;
  let! r := emac_wait_phy fuel p MAC_PHY_RETRY_MAX in
  if r =? EMAC_TIMEOUT then Ret (EMAC_TIMEOUT, None)
  else let! v := emac_get_phy_data fuel p in Ret (EMAC_OK, Some v).

Definition emac_phy_write (fuel : nat) (p uc_phy_address uc_address ul_value : Z) : prog hw Z :=
  emac_maintain_phy fuel p uc_phy_address uc_address 0 (u16 ul_value);;
  let! r := emac_wait_phy fuel p MAC_PHY_RETRY_MAX in
  Ret (if r =? EMAC_TIMEOUT then EMAC_TIMEOUT else EMAC_OK).

(** ** Descriptor lists *)

Fixpoint reset_tx_descriptors (n : nat) (p_tx_buff ul_index : Z) : prog emac unit :=
  match n with
  | O => Ret tt
  | S n =>
    desc_wr TxRing ul_index Addr (u32 (p_tx_buff + ul_index * EMAC_TX_UNITSIZE));;
    desc_wr TxRing ul_index Status EMAC_TXD_USED;;
    reset_tx_descriptors n p_tx_buff (ul_index + 1)
  end.

Definition emac_reset_tx_mem (d : emac_device) : prog emac emac_device :=
  reg (emac_enable_transmit (p_hw d) 0);;
  let d := set_tx d 0 0 in
  reset_tx_descriptors (Z.to_nat (us_tx_list_size d)) (p_tx_buffer d) 0;;
  desc_wr TxRing (us_tx_list_size d - 1) Status (Z.lor EMAC_TXD_USED EMAC_TXD_WRAP);;
  reg (emac_set_tx_queue (p_hw d) (p_tx_dscr d));;
  Ret d.

Fixpoint reset_rx_descriptors (n : nat) (p_rx_buff ul_index : Z) : prog emac unit :=
  match n with
  | O => Ret tt
  | S n =>
    desc_wr RxRing ul_index Addr
      (Z.land (u32 (p_rx_buff + ul_index * EMAC_RX_UNITSIZE)) EMAC_RXD_ADDR_MASK);;
    desc_wr RxRing ul_index Status 0;;
    reset_rx_descriptors n p_rx_buff (ul_index + 1)
  end.

Definition emac_reset_rx_mem (d : emac_device) : prog emac emac_device :=
  reg (emac_enable_receive (p_hw d) 0);;
  let d := set_rx_idx d 0 in
  reset_rx_descriptors (Z.to_nat (us_rx_list_size d)) (p_rx_buffer d) 0;;
  let! v := desc_rd RxRing (us_rx_list_size d - 1) Addr in
  desc_wr RxRing (us_rx_list_size d - 1) Addr (Z.lor v EMAC_RXD_WRAP);;
  reg (emac_set_rx_queue (p_hw d) (p_rx_dscr d));;
  Ret d.

Record emac_dev_mem := EmacDevMem {
  mm_rx_buffer : Z;
  mm_rx_dscr : Z;
  us_rx_size : Z;
  mm_tx_buffer : Z;
  mm_tx_dscr : Z;
  us_tx_size : Z
}.

Definition emac_init_mem (d : emac_device) (p_dev_mm : emac_dev_mem)
    (p_tx_cb : option (list (option Z))) : prog emac (Z * emac_device) :=
  match p_tx_cb with
  | Some cbs =>
    if (us_rx_size p_dev_mm <=? 1) || (us_tx_size p_dev_mm <=? 1) then Ret (EMAC_PARAM, d)
    else
      let unaligned a := negb (Z.land a 0x7 =? 0) in
      let rx_size :=
        if unaligned (mm_rx_buffer p_dev_mm) || unaligned (mm_rx_dscr p_dev_mm)
        then u16 (us_rx_size p_dev_mm - 1) else us_rx_size p_dev_mm in
      let tx_size :=
        if unaligned (mm_tx_buffer p_dev_mm) || unaligned (mm_tx_dscr p_dev_mm)
        then u16 (us_tx_size p_dev_mm - 1) else us_tx_size p_dev_mm in
      let aligned a := Z.land a 0xFFFFFFF8 in
      let d := EmacDevice (p_hw d) (aligned (mm_tx_buffer p_dev_mm))
                 (aligned (mm_rx_buffer p_dev_mm)) (aligned (mm_rx_dscr p_dev_mm))
                 (aligned (mm_tx_dscr p_dev_mm)) (func_rx_cb d) (func_wakeup_cb d) cbs rx_size
                 (us_rx_idx d) tx_size (us_tx_head d) (us_tx_tail d) (uc_wakeup_threshold d) in
      let! d := emac_reset_rx_mem d in
      let! d := emac_reset_tx_mem d in
      reg (emac_enable_transmit (p_hw d) 1);;
      reg (emac_enable_receive (p_hw d) 1);;
      reg (emac_enable_statistics_write (p_hw d) 1);;
      reg (emac_enable_interrupt (p_hw d)
        (Z.lor (Z.lor (Z.lor (Z.lor (Z.lor (Z.lor (Z.lor (Z.lor EMAC_IER_RXUBR EMAC_IER_TUND)
           EMAC_IER_RLE) EMAC_IER_TXERR) EMAC_IER_TCOMP) EMAC_IER_ROVR) EMAC_IER_HRESP)
           EMAC_IER_PFR) EMAC_IER_PTZ));;
      Ret (EMAC_OK, d)
  | None => Ret (EMAC_PARAM, d)
  end.

(** The options and the addresses of the file's static arrays. *)
Record emac_options := EmacOptions {
  uc_copy_all_frame : Z;
  uc_no_boardcast : Z;
  uc_mac_addr : list Z
}.

Definition emac_dev_init (gs_rx_buffer gs_rx_desc gs_tx_buffer gs_tx_desc : Z)
    (gs_tx_callback : list (option Z)) (d : emac_device) (p_opt : emac_options)
    : prog emac emac_device :=
  let p := p_hw d in
  reg (emac_network_control p 0);;
  reg (emac_disable_interrupt p 0xFFFFFFFF);;
  reg (emac_clear_statistics p);;
  reg (emac_clear_rx_status p (Z.lor (Z.lor EMAC_RSR_OVR EMAC_RSR_REC) EMAC_RSR_BNA));;
  reg (emac_clear_tx_status p
    (Z.lor (Z.lor (Z.lor (Z.lor (Z.lor EMAC_TSR_UBR EMAC_TSR_COL) EMAC_TSR_RLES) EMAC_TSR_BEX)
       EMAC_TSR_COMP) EMAC_TSR_UND));;
  let! _ := reg (emac_get_interrupt_status p) in
  let! cfg := reg (emac_get_configure p) in
  reg (emac_set_configure p (Z.lor (Z.lor cfg EMAC_NCFGR_DRFCS) EMAC_NCFGR_PAE));;
  reg (emac_enable_copy_all p (uc_copy_all_frame p_opt));;
  reg (emac_disable_broadcast p (uc_no_boardcast p_opt));;
  let! (_, d) := emac_init_mem d
    (EmacDevMem gs_rx_buffer gs_rx_desc EMAC_RX_BUFFERS gs_tx_buffer gs_tx_desc EMAC_TX_BUFFERS)
    (Some gs_tx_callback) in
  reg (emac_set_address p 0 (uc_mac_addr p_opt));;
  Ret d.

Definition emac_dev_reset (d : emac_device) : prog emac emac_device :=
  let! d := emac_reset_rx_mem d in
  let! d := emac_reset_tx_mem d in
  reg (emac_network_control (p_hw d)
    (Z.lor (Z.lor (Z.lor EMAC_NCR_TE EMAC_NCR_RE) EMAC_NCR_WESTAT) EMAC_NCR_CLRSTAT));;
  Ret d.

(** ** Receiving *)

(** [p_dscr[idx].addr.val &= ~EMAC_RXD_OWNERSHIP] *)
Definition release (idx : Z) : prog emac unit :=
  let! v := desc_rd RxRing idx Addr in
  desc_wr RxRing idx Addr (Z.land v (not32 EMAC_RXD_OWNERSHIP)).

(** [while (us_rx_idx != last) { release; circ_inc }]: the descriptor that
    [p_rx_td] points to afterwards and the device. *)
Definition release_round (last : Z) (s : Z * emac_device)
    : prog emac ((Z * emac_device) + (Z * emac_device)) :=
  let '(p_rx_td, d) := s in
  if us_rx_idx d =? last then Ret (inr (p_rx_td, d))
  else
    release (us_rx_idx d);;
    Ret (inl (us_rx_idx d, set_rx_idx d (circ_inc (us_rx_idx d) (us_rx_list_size d)))).

(** The locals of [emac_dev_read]; [p_rx_td] is the index of the descriptor it
    points to, [p_tmp_frame] is [tmp_ul_frame_size] bytes into [p_frame]. *)
Record read_state := ReadState {
  p_rx_td : Z;
  us_tmp_idx : Z;
  c_is_frame : bool;
  tmp_ul_frame_size : Z;
  p_frame : list Z;
  dev : emac_device
}.

Section read.
Context (fuel : nat) (ul_frame_size : Z).

Definition release_until (last td : Z) (d : emac_device) : prog emac (Z * emac_device) :=
  iter fuel (release_round last) (td, d).

(** The test of a start of frame at the top of the loop. *)
Definition read_start (s : read_state) : prog emac read_state :=
  let! status := desc_rd RxRing (p_rx_td s) Status in
  if Z.land status EMAC_RXD_SOF =? EMAC_RXD_SOF then
    let! (td, d) := release_until (us_tmp_idx s) (p_rx_td s) (dev s) in
    Ret (ReadState td (us_tmp_idx s) true 0 (p_frame s) d)
  else Ret s.

(** Copying a fragment, and the end of the frame; [inr] returns the status and
    the frame size. *)
Definition read_fragment (s : read_state)
    : prog emac (read_state + (Z * Z * list Z * emac_device)) :=
  if us_tmp_idx s =? us_rx_idx (dev s) then
    let d := dev s in
    release (us_rx_idx d);;
    let! (_, d) := release_until (us_tmp_idx s) (p_rx_td s)
      (set_rx_idx d (circ_inc (us_rx_idx d) (us_rx_list_size d))) in
    Ret (inr (EMAC_RX_NULL, 0, p_frame s, d))
  else
    let us_buffer_length :=
      if ul_frame_size <? u32 (tmp_ul_frame_size s + EMAC_RX_UNITSIZE)
      then u16 (ul_frame_size - tmp_ul_frame_size s) else EMAC_RX_UNITSIZE in
    let! address := desc_rd RxRing (p_rx_td s) Addr in
    let! bs := copy_from (Z.land address EMAC_RXD_ADDR_MASK) us_buffer_length in
    let! frame := defined (store (p_frame s) (Z.to_nat (tmp_ul_frame_size s)) bs) in
    let size := u32 (tmp_ul_frame_size s + us_buffer_length) in
    let! status := desc_rd RxRing (p_rx_td s) Status in
    if Z.land status EMAC_RXD_EOF =? EMAC_RXD_EOF then
      let! status := desc_rd RxRing (p_rx_td s) Status in
      let rcv_size := Z.land status EMAC_RXD_LEN_MASK in
      let! (_, d) := release_until (us_tmp_idx s) (p_rx_td s) (dev s) in
      Ret (inr (if size <? rcv_size then EMAC_SIZE_TOO_SMALL else EMAC_OK, rcv_size, frame, d))
    else Ret (inl (ReadState (p_rx_td s) (us_tmp_idx s) true size frame (dev s))).

(** One round of the loop over the descriptors. *)
Definition read_round (s : read_state)
    : prog emac (read_state + (Z * Z * list Z * emac_device)) :=
  let! address := desc_rd RxRing (p_rx_td s) Addr in
  if Z.land address EMAC_RXD_OWNERSHIP =? EMAC_RXD_OWNERSHIP then
    let! s := read_start s in
    let s := ReadState (p_rx_td s) (circ_inc (us_tmp_idx s) (us_rx_list_size (dev s)))
               (c_is_frame s) (tmp_ul_frame_size s) (p_frame s) (dev s) in
    let! r :=
      (if c_is_frame s then read_fragment s
       else
         release (p_rx_td s);;
         Ret (inl (ReadState (p_rx_td s) (us_tmp_idx s) false (tmp_ul_frame_size s) (p_frame s)
                     (set_rx_idx (dev s) (us_tmp_idx s))))) in
    Ret (match r with
      | inl s => inl (ReadState (us_tmp_idx s) (us_tmp_idx s) (c_is_frame s) (tmp_ul_frame_size s)
                        (p_frame s) (dev s))
      | inr r => inr r
      end)
  else Ret (inr (EMAC_RX_NULL, 0, p_frame s, dev s)).

(** The status, the frame size stored through [p_rcv_size], the frame buffer
    and the device. *)
Definition emac_dev_read (frame : option (list Z)) (d : emac_device)
    : prog emac (Z * option Z * option (list Z) * emac_device) :=
  match frame with
  | None => Ret (EMAC_PARAM, None, None, d)
  | Some frame =>
    let! (st, size, frame, d) :=
      iter fuel read_round (ReadState (us_rx_idx d) (us_rx_idx d) false 0 frame d) in
    Ret (st, Some size, Some frame, d)
  end.
End read.

(** ** Transmitting *)

(** [buffer] is [None] for NULL; it has [ul_size] bytes or more. *)
Definition emac_dev_write (d : emac_device) (buffer : option (list Z)) (ul_size : Z)
    (func_tx_cb : option Z) : prog emac (Z * emac_device) :=
  if EMAC_TX_UNITSIZE <? ul_size then Ret (EMAC_PARAM, d)
  else
    let head := us_tx_head d in
    if CIRC_SPACE head (us_tx_tail d) (us_tx_list_size d) =? 0 then Ret (EMAC_TX_BUSY, d)
    else
      (match buffer with
       | Some bs =>
         if negb (ul_size =? 0) then
           let! address := desc_rd TxRing head Addr in
           copy_to address (take (Z.to_nat ul_size) bs)
         else Ret tt
       | None => Ret tt
       end);;
      let d := set_tx_cb d (<[Z.to_nat head := func_tx_cb]> (func_tx_cb_list d)) in
      desc_wr TxRing head Status
        (if head =? us_tx_list_size d - 1
         then Z.lor (Z.lor (Z.land ul_size EMAC_TXD_LEN_MASK) EMAC_TXD_LAST) EMAC_TXD_WRAP
         else Z.lor (Z.land ul_size EMAC_TXD_LEN_MASK) EMAC_TXD_LAST);;
      let d := set_tx d (circ_inc head (us_tx_list_size d)) (us_tx_tail d) in
      reg (emac_start_transmission (p_hw d));;
      Ret (EMAC_OK, d).

Definition emac_dev_get_tx_load (d : emac_device) : Z :=
  u32 (CIRC_CNT (us_tx_head d) (us_tx_tail d) (us_tx_list_size d)).

Definition emac_dev_set_rx_callback (d : emac_device) (func_rx_cb : option Z)
    : prog emac emac_device :=
  match func_rx_cb with
  | None =>
    reg (emac_disable_interrupt (p_hw d) EMAC_IDR_RCOMP);;
    Ret (set_rx_cb d None)
  | Some cb =>
    let d := set_rx_cb d (Some cb) in
    reg (emac_enable_interrupt (p_hw d) EMAC_IER_RCOMP);;
    Ret d
  end.

Definition emac_dev_set_tx_wakeup_callback (d : emac_device) (func_wakeup_cb : option Z)
    (uc_threshold : Z) : Z * emac_device :=
  match func_wakeup_cb with
  | None => (EMAC_OK, set_wakeup d None (uc_wakeup_threshold d))
  | Some cb =>
    if uc_threshold <=? us_tx_list_size d then (EMAC_OK, set_wakeup d (Some cb) uc_threshold)
    else (EMAC_PARAM, d)
  end.

(** ** The interrupt handler *)

Definition call_tx (d : emac_device) (index status : Z) : prog emac unit :=
  let! cb := defined (func_tx_cb_list d !! Z.to_nat index) in
  match cb with Some cb => callback cb status | None => Ret tt end.

(** One round of the [do ... while] over the sent descriptors. *)
Definition retire_round (ul_tx_status_flag : Z) (d : emac_device)
    : prog emac (emac_device + emac_device) :=
  let! status := desc_rd TxRing (us_tx_tail d) Status in
  if Z.land status EMAC_TXD_USED =? 0 then Ret (inr d)
  else
    call_tx d (us_tx_tail d) ul_tx_status_flag;;
    let d := set_tx d (us_tx_head d) (circ_inc (us_tx_tail d) (us_tx_list_size d)) in
    Ret (if negb (CIRC_CNT (us_tx_head d) (us_tx_tail d) (us_tx_list_size d) =? 0)
         then inl d else inr d).

Definition handle_rx (ul_isr ul_rsr : Z) (d : emac_device) : prog emac unit :=
  if has_bits ul_isr EMAC_ISR_RCOMP || has_bits ul_rsr EMAC_RSR_REC then
    let flag := EMAC_RSR_REC in
    let flag := if has_bits ul_rsr EMAC_RSR_OVR then Z.lor flag EMAC_RSR_OVR else flag in
    let flag := if has_bits ul_rsr EMAC_RSR_BNA then Z.lor flag EMAC_RSR_BNA else flag in
    reg (emac_clear_rx_status (p_hw d) flag);;
    match func_rx_cb d with Some cb => callback cb flag | None => Ret tt end
  else Ret tt.

(** After a retry limit the callback that is called at the end is that of the
    descriptor that was the oldest. *)
Definition handle_tx (fuel : nat) (ul_isr ul_tsr : Z) (d : emac_device) : prog emac emac_device :=
  if has_bits ul_isr EMAC_ISR_TCOMP || has_bits ul_tsr EMAC_TSR_COMP then
    let rles := has_bits ul_tsr EMAC_TSR_RLES in
    let p_tx_cb := us_tx_tail d in
    let flag :=
      if rles then
        u32 (Z.lor EMAC_TSR_RLES (CIRC_CNT (us_tx_head d) (us_tx_tail d) (us_tx_list_size d)))
      else EMAC_TSR_COMP in
    let! d :=
      (if rles then
         let! d := emac_reset_tx_mem d in
         reg (emac_enable_transmit (p_hw d) 1);;
         Ret d
       else Ret d) in
    let flag := if has_bits ul_tsr EMAC_TSR_COL then Z.lor flag EMAC_TSR_COL else flag in
    let flag := if has_bits ul_tsr EMAC_TSR_BEX then Z.lor flag EMAC_TSR_BEX else flag in
    let flag := if has_bits ul_tsr EMAC_TSR_UND then Z.lor flag EMAC_TSR_UND else flag in
    reg (emac_clear_tx_status (p_hw d) flag);;
    let! d :=
      (if negb (CIRC_EMPTY (us_tx_head d) (us_tx_tail d)) then iter fuel (retire_round flag) d
       else Ret d) in
    (if rles then call_tx d p_tx_cb flag else Ret tt);;
    (match func_wakeup_cb d with
     | Some cb =>
       if uc_wakeup_threshold d <=? CIRC_SPACE (us_tx_head d) (us_tx_tail d) (us_tx_list_size d)
       then wakeup cb else Ret tt
     | None => Ret tt
     end);;
    Ret d
  else Ret d.

Definition emac_handler (fuel : nat) (d : emac_device) : prog emac emac_device :=
  let! ul_isr := reg (emac_get_interrupt_status (p_hw d)) in
  let! ul_rsr := reg (emac_get_rx_status (p_hw d)) in
  let! ul_tsr := reg (emac_get_tx_status (p_hw d)) in
  let! mask := reg (emac_get_interrupt_mask (p_hw d)) in
  let ul_isr := Z.land ul_isr (not32 (Z.lor mask 0xFFC300)) in
  handle_rx ul_isr ul_rsr d;;
  handle_tx fuel ul_isr ul_tsr d.
