(* ===== verification/EmacTx.v ===== *)
(** * The transmit ring of the Ethernet driver

    The descriptors and buffers are shared with the controller, which sends
    the frames it owns at any moment, also in the middle of a driver function.
    The driver never touches what the controller owns, and the frames go out
    once each, unchanged and in the order in which they were accepted. *)

From stdpp Require Import relations.
From S2P Require Import Prelude Prog Emac.
#[local] Open Scope Z_scope.

(** ** The controller

    [pos] is the descriptor it looks at next, [wire] the frames it has sent,
    [woken] the calls of the wakeup callback, [go] whether it is transmitting. *)
Record txs := Txs {
  addrs : list Z;
  stats : list Z;
  bufs : list (list Z);
  pos : nat;
  wire : list (list Z);
  woken : list Z;
  go : bool
}.

(** A descriptor that is not marked used belongs to the controller.  Once it has
    been started it sends such a descriptor's frame and goes to the next; at a
    used one it stops, and sends nothing until it is started again. *)
Definition used (st : Z) : bool := has_bits st EMAC_TXD_USED.

Inductive tick : txs -> txs -> Prop :=
| tick_send a ss bs p w k st b :
  ss !! p = Some st -> used st = false -> bs !! p = Some b ->
  tick (Txs a ss bs p w k true)
       (Txs a (<[p := Z.lor st EMAC_TXD_USED]> ss) bs
          (if has_bits st EMAC_TXD_WRAP then 0%nat else S p)
          (w ++ [take (Z.to_nat (Z.land st EMAC_TXD_LEN_MASK)) b]) k true)
| tick_stop a ss bs p w k st :
  ss !! p = Some st -> used st = true ->
  tick (Txs a ss bs p w k true) (Txs a ss bs p w k false).

(** What a write of the control register makes of it: a disabled transmitter
    does not transmit, TSTART starts it, THALT stops it. *)
Definition started (v : Z) (g : bool) : bool :=
  has_bits v EMAC_NCR_TE && (has_bits v EMAC_NCR_TSTART || g && negb (has_bits v EMAC_NCR_THALT)).

Definition set_go (s : txs) (g : bool) : txs :=
  Txs (addrs s) (stats s) (bufs s) (pos s) (wire s) (woken s) g.

(** The driver writes a buffer or a status only while the descriptor is its own. *)
Definition tx_req (e : emac_op) (s : txs) : Prop :=
  match e with
  | DescWr TxRing i Status _ => exists st, stats s !! Z.to_nat i = Some st /\ used st = true
  | DescWr _ _ _ _ => False
  | CopyTo a bs => exists i st, addrs s !! i = Some a /\ stats s !! i = Some st /\ used st = true /\
      Z.of_nat (length bs) <= EMAC_TX_UNITSIZE
  | _ => True
  end.

(** A transmit-complete interrupt, without the retry limit having been hit; the
    transmitter has been enabled. *)
Definition tx_read (a x : Z) : Prop :=
  (a = EMAC_TSR EMAC -> has_bits x EMAC_TSR_COMP = true /\ has_bits x EMAC_TSR_RLES = false) /\
  (a = EMAC_NCR EMAC -> has_bits x EMAC_NCR_TE = true).

Definition tx_apply (e : emac_op) (s : txs) : emac_ans e -> txs -> Prop :=
  match e with
  | Reg (Rd a) => fun x s' => tx_read a x /\ s' = s
  | Reg (Wr a v) => fun _ s' => s' = if a =? EMAC_NCR EMAC then set_go s (started v (go s)) else s
  | Reg _ => fun _ s' => s' = s
  | DescRd TxRing i f => fun x s' =>
      (match f with Addr => addrs s | Status => stats s end) !! Z.to_nat i = Some x /\ s' = s
  | DescWr TxRing i Status v => fun _ s' =>
      s' = Txs (addrs s) (<[Z.to_nat i := v]> (stats s)) (bufs s) (pos s) (wire s) (woken s) (go s)
  | CopyTo a bs => fun _ s' => exists i old, addrs s !! i = Some a /\ bufs s !! i = Some old /\
      s' = Txs (addrs s) (stats s) (<[i := bs ++ drop (length bs) old]> (bufs s)) (pos s) (wire s)
             (woken s) (go s)
  | Wakeup cb => fun _ s' =>
      s' = Txs (addrs s) (stats s) (bufs s) (pos s) (wire s) (woken s ++ [cb]) (go s)
  | _ => fun _ s' => s' = s
  end.

Definition tx_step (e : op emac) (s : txs) (x : ans emac e) (s' : txs) : Prop :=
  exists s1, rtc tick s s1 /\ tx_apply e s1 x s'.

Definition tx_env : env emac txs := {| req := tx_req : op emac -> _; step := tx_step |}.

(** ** The ring *)

Definition slot (n t o : nat) : nat := ((t + o) mod n)%nat.

Lemma slot_lt n t o : (0 < n)%nat -> (slot n t o < n)%nat.
Proof. intros. apply Nat.mod_upper_bound. lia. Qed.

Lemma slot_slot n t r o : slot n (slot n t r) o = slot n t (r + o).
Proof. unfold slot. by rewrite Nat.Div0.add_mod_idemp_l, Nat.add_assoc. Qed.

Lemma slot_0 n t : (t < n)%nat -> slot n t 0 = t.
Proof. intros. unfold slot. rewrite Nat.add_0_r. by apply Nat.mod_small. Qed.

Lemma slot_cases n t o : (t < n)%nat -> (o <= n)%nat ->
  slot n t o = (t + o)%nat /\ (t + o < n)%nat \/ slot n t o = (t + o - n)%nat /\ (n <= t + o)%nat.
Proof.
  intros Ht Ho. unfold slot. destruct (decide (t + o < n)%nat); [left; split; [|lia]; by apply Nat.mod_small|].
  right. split; [|lia]. symmetry. apply (Nat.mod_unique _ _ 1); lia.
Qed.

Lemma slot_inj n t o o' : (t < n)%nat -> (o < n)%nat -> (o' < n)%nat ->
  slot n t o = slot n t o' -> o = o'.
Proof.
  intros Ht Ho Ho' He. destruct (slot_cases n t o Ht) as [[]|[]], (slot_cases n t o' Ht) as [[]|[]]; lia.
Qed.

Lemma slot_next n t o : (t < n)%nat -> (o < n)%nat ->
  slot n t (S o) = if decide (slot n t o = (n - 1)%nat) then 0%nat else S (slot n t o).
Proof.
  intros Ht Ho. pose proof (slot_cases n t o Ht ltac:(lia)). pose proof (slot_cases n t (S o) Ht ltac:(lia)).
  case_decide; lia.
Qed.

(** What a slot at distance [o] from the tail holds when the frames [q] are in
    the ring and the first [j] of them have been sent. *)
Definition holds (q : list (list Z)) (j o : nat) (last : bool) (st : Z) (b : list Z) : Prop :=
  has_bits st EMAC_TXD_WRAP = last /\ Z.of_nat (length b) = EMAC_TX_UNITSIZE /\
  match (if decide (j <= o)%nat then q !! o else None) with
  | Some f => used st = false /\ Z.land st EMAC_TXD_LEN_MASK = Z.of_nat (length f) /\
              take (length f) b = f
  | None => used st = true
  end.

Record inv (n t : nat) (q : list (list Z)) (j : nat) (s : txs) : Prop := {
  inv_tail : (t < n)%nat;
  inv_room : (length q < n)%nat;
  inv_sent : (j <= length q)%nat;
  inv_addrs : length (addrs s) = n;
  inv_distinct : NoDup (addrs s);
  inv_pos : pos s = slot n t j;
  inv_slots : forall o, (o < n)%nat -> exists st b,
    stats s !! slot n t o = Some st /\ bufs s !! slot n t o = Some b /\
    holds q j o (bool_decide (slot n t o = n - 1)%nat) st b
}.

(** At least [m] of the frames [q] of the ring have been sent, and what is on
    the wire or on its way to it is [acc]. *)
Definition ring (n t : nat) (q acc : list (list Z)) (m : nat) (s : txs) : Prop :=
  exists j, (m <= j)%nat /\ inv n t q j s /\ wire s ++ drop j q = acc.

Lemma has_bits_lor v m m' : Z.land m m' = 0 -> has_bits (Z.lor v m) m' = has_bits v m'.
Proof. intros H. unfold has_bits. by rewrite Z.land_lor_distr_l, H, Z.lor_0_r. Qed.

Lemma has_bits_set v m : m <> 0 -> has_bits (Z.lor v m) m = true.
Proof.
  intros Hm. apply has_bits_true. rewrite Z.land_lor_distr_l, Z.land_diag. intros H. by apply Z.lor_eq_0_iff in H as [_ ?].
Qed.

Lemma used_lor st : used (Z.lor st EMAC_TXD_USED) = true.
Proof.
  unfold used, has_bits. rewrite Z.land_lor_distr_l, Z.land_diag. apply negb_true_iff, Z.eqb_neq.
  intros H. apply Z.lor_eq_0_iff in H. by destruct H.
Qed.

(** The controller sends the oldest frame that is not sent yet, or stops when
    there is none. *)
Definition sends_or_stops (q : list (list Z)) (j j' : nat) (s' : txs) : Prop :=
  ((j < length q)%nat /\ j' = S j /\ go s' = true) \/ (j = length q /\ j' = j /\ go s' = false).

Lemma tick_inv n t q j s s' : inv n t q j s -> tick s s' -> exists j',
  sends_or_stops q j j' s' /\ inv n t q j' s' /\ woken s' = woken s /\ addrs s' = addrs s /\
  bufs s' = bufs s /\
  wire s' ++ drop j' q = wire s ++ drop j q.
Proof.
  intros [Ht Hr Hj Ha Hd Hp Hs] Hk. destruct Hk as [a ss bs p w k st b Hst Hu Hb|a ss bs p w k st Hst Hu];
    cbn [addrs stats bufs pos wire woken] in *; subst p; cycle 1.
  { exists j. destruct (Hs j) as (st' & b & Hst' & _ & _ & _ & Hh); [lia|]. rewrite decide_True in Hh by lia.
    assert (st' = st) as -> by congruence. split; [|by split].
    right. split; [|done]. destruct (q !! j) as [f|] eqn:Hf; [|apply lookup_ge_None in Hf; lia].
    destruct Hh as [Hn _]. congruence. }
  exists (S j).
  destruct (Hs j) as (st' & b' & Hst' & Hb' & Hw & Hlb & Hh); [lia|].
  assert (st' = st) as -> by congruence. assert (b' = b) as -> by congruence.
  rewrite decide_True in Hh by lia.
  destruct (q !! j) as [f|] eqn:Hf; [|congruence]. destruct Hh as (_ & Hlen & Htk).
  apply lookup_lt_Some in Hf as Hjl. split; [by left|].
  assert ((w ++ [take (Z.to_nat (Z.land st EMAC_TXD_LEN_MASK)) b]) ++ drop (S j) q = w ++ drop j q) as Hwire.
  { rewrite Hlen, Nat2Z.id, Htk, <- app_assoc. f_equal. symmetry. by apply drop_S. }
  split; [|done]. split; cbn [addrs stats bufs pos wire woken]; try done; try lia.
  - rewrite Hw, slot_next by lia. case_bool_decide; case_decide; done.
  - intros o Ho. destruct (decide (o = j)) as [-> |Hne].
    + exists (Z.lor st EMAC_TXD_USED), b. split; [by rewrite list_lookup_insert_eq by by eapply lookup_lt_Some|].
      split; [done|]. split; [by rewrite has_bits_lor|]. split; [done|].
      rewrite decide_False by lia. apply used_lor.
    + destruct (Hs o Ho) as (st1 & b1 & Hst1 & Hb1 & Hw1 & Hlb1 & Hh1). exists st1, b1.
      split; [rewrite list_lookup_insert_ne; [done|]; intros He; apply Hne; symmetry; apply (slot_inj n t); (done || lia)|].
      split; [done|]. split; [done|]. split; [done|].
      destruct (decide (S j <= o)%nat), (decide (j <= o)%nat); try lia; done.
Qed.

Lemma ticks_ring n t q acc m s s' : ring n t q acc m s -> rtc tick s s' ->
  ring n t q acc m s' /\ woken s' = woken s /\ addrs s' = addrs s /\ bufs s' = bufs s.
Proof.
  intros Hr Ht. revert Hr. induction Ht as [s|s s1 s2 Hk _ IH]; [by intros|].
  intros (j & Hm & Hi & Ha). destruct (tick_inv _ _ _ _ _ _ Hi Hk) as (j' & Hj & Hi' & Hw & Had & Hb & Hwire).
  assert (j <= j')%nat by (destruct Hj as [(_ & -> & _)|(_ & -> & _)]; lia).
  destruct IH as (Hr2 & Hw2 & Ha2 & Hb2); [exists j'; split; [lia|]; split; [done|congruence]|].
  split; [done|]. split; [congruence|]. split; congruence.
Qed.

(** ** The driver's view of the ring *)

(** The device record describes a ring of [n] descriptors whose oldest frame is
    at [t] and which holds the frames [q]. *)
Record view (d : emac_device) (n t : nat) (q : list (list Z)) : Prop := {
  view_hw : p_hw d = EMAC;
  view_size : us_tx_list_size d = Z.of_nat n;
  view_small : Z.of_nat n < 2 ^ 16;
  view_tail : us_tx_tail d = Z.of_nat t;
  view_head : us_tx_head d = Z.of_nat (slot n t (length q));
  view_cbs : length (func_tx_cb_list d) = n
}.

Lemma circ_inc_slot n t o : (t < n)%nat -> (o < n)%nat -> Z.of_nat n < 2 ^ 16 ->
  circ_inc (Z.of_nat (slot n t o)) (Z.of_nat n) = Z.of_nat (slot n t (S o)).
Proof.
  intros Ht Ho Hn. pose proof (slot_lt n t o ltac:(lia)). rewrite slot_next by done. unfold circ_inc.
  rewrite u16_id by (unfold is_u16; lia). case_decide; destruct (Z.leb_spec (Z.of_nat n) (Z.of_nat (slot n t o) + 1)); lia.
Qed.

Lemma circ_cnt_slot n t k : (t < n)%nat -> (k < n)%nat ->
  (CIRC_CNT (Z.of_nat (slot n t k)) (Z.of_nat t) (Z.of_nat n) =? 0) = bool_decide (k = 0)%nat.
Proof.
  intros Ht Hk. unfold CIRC_CNT.
  pose proof (slot_cases n t k Ht ltac:(lia)) as Hs.
  destruct (Z.eqb_spec (Z.rem (Z.of_nat (slot n t k) - Z.of_nat t) (Z.of_nat n)) 0) as [H0|H0]; symmetry;
    [apply bool_decide_eq_true|apply bool_decide_eq_false].
  - apply Z.rem_divide in H0 as [z Hz]; [|lia].
    destruct Hs as [[He ?]|[He ?]]; rewrite He in Hz; [assert (z = 0) by nia|assert (z = -1) by nia]; nia.
  - intros ->. apply H0. destruct Hs as [[-> ?]|[-> ?]]; [|lia].
    replace (Z.of_nat (t + 0) - Z.of_nat t) with 0 by lia. apply Z.rem_0_l. lia.
Qed.

Lemma circ_space_slot n t k : (t < n)%nat -> (k < n)%nat ->
  (CIRC_SPACE (Z.of_nat (slot n t k)) (Z.of_nat t) (Z.of_nat n) =? 0) = bool_decide (S k = n).
Proof.
  intros Ht Hk. unfold CIRC_SPACE, CIRC_CNT.
  pose proof (slot_cases n t k Ht ltac:(lia)) as Hs.
  destruct (Z.eqb_spec (Z.rem (Z.of_nat t - (Z.of_nat (slot n t k) + 1)) (Z.of_nat n)) 0) as [H0|H0]; symmetry;
    [apply bool_decide_eq_true|apply bool_decide_eq_false].
  - apply Z.rem_divide in H0 as [z Hz]; [|lia].
    destruct Hs as [[He ?]|[He ?]]; rewrite He in Hz; [assert (z = -1) by nia|assert (z = 0) by nia]; nia.
  - intros <-. apply H0. apply Z.rem_divide; [lia|]. destruct Hs as [[-> ?]|[-> ?]];
      [exists (-1)|exists 0]; lia.
Qed.

(** A space that is negative when the head is not below the tail. *)
Lemma circ_space_neg head tail size : 0 < size -> 0 <= tail <= head -> head < size ->
  CIRC_SPACE head tail size <= 0.
Proof.
  intros Hs Ht Hh. unfold CIRC_SPACE, CIRC_CNT.
  replace (tail - (head + 1)) with (- (head + 1 - tail)) by lia. rewrite Z.rem_opp_l by lia.
  pose proof (Z.rem_nonneg (head + 1 - tail) size). lia.
Qed.

(** ** Rules for the accesses *)

Lemma wp_op {A} (e : op emac) (k : ans emac e -> prog emac A) Q s :
  tx_req e s -> (forall x s1 s', rtc tick s s1 -> tx_apply e s1 x s' -> wp tx_env (k x) Q s') ->
  wp tx_env (bind (trigger e) k) Q s.
Proof. intros Hr Hk. split; [done|]. intros x s' (s1 & Ht & Ha). by eapply Hk. Qed.

Lemma ring_go n t q acc m s g : ring n t q acc m s -> ring n t q acc m (set_go s g).
Proof. intros (j & Hm & [] & Hacc). exists j. split; [done|]. by split. Qed.

Lemma wp_reg_write {A} a v (k : unit -> prog emac A) n t q acc m w Q s :
  ring n t q acc m s -> woken s = w ->
  (forall s', ring n t q acc m s' -> woken s' = w ->
     (a = EMAC_NCR EMAC -> has_bits v EMAC_NCR_TE = true -> has_bits v EMAC_NCR_TSTART = true -> go s' = true) ->
     wp tx_env (k tt) Q s') ->
  wp tx_env (bind (reg (wr a v)) k) Q s.
Proof.
  intros Hr Hw Hk. change (reg (wr a v)) with (@trigger emac (Reg (Wr a v))).
  apply wp_op; [done|]. intros [] s1 s' Ht ->.
  destruct (ticks_ring _ _ _ _ _ _ _ Hr Ht) as (Hr1 & Hw1 & _).
  destruct (Z.eqb_spec a (EMAC_NCR EMAC)); apply Hk; try done; try (cbn [woken set_go]; congruence).
  - by apply ring_go.
  - intros _ Hte Hts. cbn [go set_go]. unfold started. by rewrite Hte, Hts.
Qed.

Lemma wp_reg_read {A} a (k : Z -> prog emac A) n t q acc m w Q s :
  ring n t q acc m s -> woken s = w ->
  (forall x s', ring n t q acc m s' -> woken s' = w -> tx_read a x -> wp tx_env (k x) Q s') ->
  wp tx_env (bind (reg (rd a)) k) Q s.
Proof.
  intros Hr Hw Hk. change (reg (rd a)) with (@trigger emac (Reg (Rd a))).
  apply wp_op; [done|]. intros x s1 s' Ht [Hx ->].
  destruct (ticks_ring _ _ _ _ _ _ _ Hr Ht) as (Hr1 & Hw1 & _). apply Hk; (done || congruence).
Qed.

(** The slot behind the last frame is the driver's own. *)
Lemma ring_free n t q acc m s : ring n t q acc m s ->
  let i := slot n t (length q) in
  exists st b, stats s !! i = Some st /\ bufs s !! i = Some b /\ used st = true /\
    has_bits st EMAC_TXD_WRAP = bool_decide (i = n - 1)%nat /\ Z.of_nat (length b) = EMAC_TX_UNITSIZE.
Proof.
  intros (j & _ & [Ht Hr Hj Ha Hd Hp Hs] & _) i.
  destruct (Hs (length q) Hr) as (st & b & Hst & Hb & Hw & Hlb & Hh). exists st, b.
  rewrite lookup_ge_None_2 in Hh by done. by destruct (decide (j <= length q)%nat).
Qed.

(** Filling its buffer does not disturb the frames in the ring. *)
Lemma ring_fill n t q acc m s b : ring n t q acc m s -> Z.of_nat (length b) = EMAC_TX_UNITSIZE ->
  ring n t q acc m (Txs (addrs s) (stats s) (<[slot n t (length q) := b]> (bufs s)) (pos s) (wire s) (woken s) (go s)).
Proof.
  intros (j & Hm & [Ht Hr Hj Ha Hd Hp Hs] & Hacc) Hb. exists j. split; [done|]. split; [|done].
  split; cbn [addrs stats bufs pos wire woken]; try done.
  intros o Ho. destruct (Hs o Ho) as (st & b' & Hst & Hb' & Hw & Hlb & Hh).
  destruct (decide (o = length q)) as [-> |Hne].
  - exists st, b. split; [done|]. split; [apply list_lookup_insert_eq; by eapply lookup_lt_Some|].
    split; [done|]. split; [done|]. rewrite lookup_ge_None_2 in * by done. by destruct (decide (j <= length q)%nat).
  - exists st, b'. split; [done|]. split; [|done].
    rewrite list_lookup_insert_ne; [done|]. intros He. apply Hne. symmetry. apply (slot_inj n t); (done || lia).
Qed.

(** Handing it over adds a frame at the end. *)
Lemma ring_push n t q acc m s f b v :
  ring n t q acc m s -> (S (length q) < n)%nat ->
  bufs s !! slot n t (length q) = Some b -> take (length f) b = f ->
  has_bits v EMAC_TXD_WRAP = bool_decide (slot n t (length q) = n - 1)%nat ->
  used v = false -> Z.land v EMAC_TXD_LEN_MASK = Z.of_nat (length f) ->
  ring n t (q ++ [f]) (acc ++ [f]) m
    (Txs (addrs s) (<[slot n t (length q) := v]> (stats s)) (bufs s) (pos s) (wire s) (woken s) (go s)).
Proof.
  intros (j & Hm & [Ht Hr Hj Ha Hd Hp Hs] & <-) Hq Hb Hf Hw Hu Hl. exists j. split; [done|].
  split; [|cbn [wire]; by rewrite drop_app_le, app_assoc by done].
  split; cbn [addrs stats bufs pos wire woken]; rewrite ?length_app; cbn [length]; try done; try lia.
  intros o Ho. destruct (Hs o Ho) as (st & b' & Hst & Hb' & Hw' & Hlb & Hh).
  destruct (decide (o = length q)) as [-> |Hne].
  - exists v, b'. split; [apply list_lookup_insert_eq; by eapply lookup_lt_Some|]. split; [done|].
    split; [done|]. split; [done|]. rewrite decide_True by done.
    rewrite lookup_app_r, Nat.sub_diag by done. cbn. assert (b' = b) as -> by congruence. done.
  - exists st, b'. split; [|split; [done|]; split; [done|]; split; [done|]].
    + rewrite list_lookup_insert_ne; [done|]. intros He. apply Hne. symmetry. apply (slot_inj n t); (done || lia).
    + destruct (decide (j <= o)%nat); [|done].
      destruct (decide (o < length q)%nat); [by rewrite lookup_app_l by done|].
      rewrite lookup_ge_None_2 in Hh by lia. rewrite lookup_ge_None_2; [done|]. rewrite length_app. simpl. lia.
Qed.

(** The status word of a frame that is handed over. *)
Lemma frame_status n i size : 0 <= size <= EMAC_TX_UNITSIZE -> (i < n)%nat ->
  let v := if Z.of_nat i =? Z.of_nat n - 1
    then Z.lor (Z.lor (Z.land size EMAC_TXD_LEN_MASK) EMAC_TXD_LAST) EMAC_TXD_WRAP
    else Z.lor (Z.land size EMAC_TXD_LEN_MASK) EMAC_TXD_LAST in
  has_bits v EMAC_TXD_WRAP = bool_decide (i = n - 1)%nat /\ used v = false /\
  Z.land v EMAC_TXD_LEN_MASK = size.
Proof.
  intros Hs Hi v. unfold EMAC_TX_UNITSIZE in Hs.
  assert (Z.land size EMAC_TXD_LEN_MASK = size) as Hm.
  { change EMAC_TXD_LEN_MASK with (Z.ones 11). rewrite Z.land_ones by lia. apply Z.mod_small. lia. }
  assert (forall m, Z.land EMAC_TXD_LEN_MASK m = 0 -> Z.land size m = 0) as H0
    by (intros m Hz; by rewrite <- Hm, <- Z.land_assoc, Hz, Z.land_0_r).
  unfold v, used, has_bits.
  destruct (Z.eqb_spec (Z.of_nat i) (Z.of_nat n - 1)) as [He|He];
    rewrite Hm, !Z.land_lor_distr_l, !(H0 EMAC_TXD_WRAP), !(H0 EMAC_TXD_USED), Hm by done;
    [rewrite bool_decide_true by lia|rewrite bool_decide_false by lia]; split; try done; split; try done;
    cbn; by rewrite ?Z.lor_0_r.
Qed.

(** The copy into the buffer at the head. *)
Lemma wp_copy d n t q acc m w bs size (k : unit -> prog emac (Z * emac_device)) Q s :
  view d n t q -> ring n t q acc m s -> woken s = w ->
  0 <= size <= EMAC_TX_UNITSIZE -> size <= Z.of_nat (length bs) ->
  (forall s' b, ring n t q acc m s' -> woken s' = w -> bufs s' !! slot n t (length q) = Some b ->
     take (Z.to_nat size) b = take (Z.to_nat size) bs -> wp tx_env (k tt) Q s') ->
  wp tx_env (bind (if negb (size =? 0) then
      let! address := desc_rd TxRing (us_tx_head d) Addr in
      copy_to address (take (Z.to_nat size) bs) else Ret tt) k) Q s.
Proof.
  intros [_ _ _ _ Hh _] Hr Hw Hs Hl Hk. rewrite Hh.
  destruct (ring_free _ _ _ _ _ _ Hr) as (st & b & Hst & Hb & _).
  destruct (Z.eqb_spec size 0) as [-> |H0]; cbn [negb]; [by apply (Hk s b)|].
  step_in.
  apply wp_op; [done|]. intros a s1 s' Ht [Ha ->]. cbn in Ha. rewrite Nat2Z.id in Ha.
  destruct (ticks_ring _ _ _ _ _ _ _ Hr Ht) as (Hr1 & Hw1 & _ & _).
  destruct (ring_free _ _ _ _ _ _ Hr1) as (st1 & b1 & Hst1 & Hb1 & Hu1 & _).
  assert (length (take (Z.to_nat size) bs) = Z.to_nat size) as Hlt by (rewrite length_take; lia).
  apply wp_op.
  { exists (slot n t (length q)), st1. rewrite Hlt. repeat split; (done || lia). }
  intros [] s2 s3 Ht2 (i & old & Hi & Hold & ->).
  destruct (ticks_ring _ _ _ _ _ _ _ Hr1 Ht2) as (Hr2 & Hw2 & Ha2 & _).
  assert (i = slot n t (length q)) as ->.
  { destruct Hr2 as (j & _ & [] & _). rewrite <- Ha2 in Ha. by eapply NoDup_lookup. }
  destruct (ring_free _ _ _ _ _ _ Hr2) as (st2 & b2 & _ & Hb2 & _ & _ & Hlb).
  assert (old = b2) as -> by congruence.
  eapply (Hk _ (take (Z.to_nat size) bs ++ drop (length (take (Z.to_nat size) bs)) b2)).
  - apply ring_fill; [done|]. rewrite length_app, length_drop, Hlt. lia.
  - cbn [woken]. congruence.
  - cbn [bufs]. apply list_lookup_insert_eq. by eapply lookup_lt_Some.
  - by rewrite <- Hlt at 1; rewrite take_app_length.
Qed.

Lemma view_push d n t q f cb : view d n t q -> (t < n)%nat -> (S (length q) < n)%nat ->
  view (set_tx (set_tx_cb d (<[Z.to_nat (us_tx_head d) := cb]> (func_tx_cb_list d)))
          (circ_inc (us_tx_head d) (us_tx_list_size d)) (us_tx_tail d)) n t (q ++ [f]).
Proof.
  intros [Hhw Hsz Hsm Ht Hh Hcb] Htn Hq. split; cbn; rewrite ?length_app, ?length_insert; try done.
  rewrite Hh, Hsz, circ_inc_slot by lia. f_equal. f_equal. simpl. lia.
Qed.

Lemma wp_write d n t q acc m bs size cb s :
  view d n t q -> ring n t q acc m s ->
  0 <= size <= EMAC_TX_UNITSIZE -> size <= Z.of_nat (length bs) ->
  wp tx_env (emac_dev_write d (Some bs) size cb) (fun o s' =>
    if decide (S (length q) = n) then o = Done (EMAC_TX_BUSY, d) /\ ring n t q acc m s'
    else exists d', let f := take (Z.to_nat size) bs in
      o = Done (EMAC_OK, d') /\ view d' n t (q ++ [f]) /\ ring n t (q ++ [f]) (acc ++ [f]) m s' /\ go s' = true) s.
Proof.
  intros Hv Hr Hs Hl. pose proof Hr as (j & _ & [Htn Hq _ _ _ _ _] & _).
  unfold emac_dev_write. rewrite (proj2 (Z.ltb_ge _ _)) by lia.
  rewrite (view_head _ _ _ _ Hv), (view_tail _ _ _ _ Hv), (view_size _ _ _ _ Hv), circ_space_slot by done.
  destruct (decide (S (length q) = n)) as [Hf|Hf];
    [rewrite bool_decide_true by done; by split|rewrite bool_decide_false by done].
  rewrite <- (view_head _ _ _ _ Hv).
  eapply wp_copy; try done. intros s1 b Hr1 Hw1 Hb Htk. set (f := take (Z.to_nat size) bs).
  assert (Z.of_nat (length f) = size) as Hlf by (unfold f; rewrite length_take; lia).
  destruct (frame_status n (slot n t (length q)) size Hs ltac:(apply slot_lt; lia)) as (Hwr & Hu & Hlen).
  rewrite (view_head _ _ _ _ Hv).
  apply wp_op.
  { destruct (ring_free _ _ _ _ _ _ Hr1) as (st & ? & Hst & _ & Hus & _). exists st. by rewrite Nat2Z.id. }
  intros [] s2 s3 Ht2 ->. destruct (ticks_ring _ _ _ _ _ _ _ Hr1 Ht2) as (Hr2 & Hw2 & _ & Hb2).
  rewrite Nat2Z.id. rewrite <- Hb2 in Hb.
  assert (length f = Z.to_nat size) as Hlf' by lia.
  assert (take (length f) b = f) as Htf by (rewrite Hlf'; exact Htk).
  cbn [us_tx_list_size us_tx_tail p_hw func_tx_cb_list set_tx_cb]. rewrite (view_size _ _ _ _ Hv).
  match goal with |- wp _ _ _ (Txs _ (<[_ := ?v]> _) _ _ _ _ _) =>
    pose proof (ring_push n t q acc m s2 f b v Hr2 ltac:(lia) ltac:(congruence) Htf Hwr Hu ltac:(congruence)) as Hr3
  end.
  change (reg (emac_start_transmission ?p))
    with (bind (reg (rd (EMAC_NCR p))) (fun v => reg (wr (EMAC_NCR p) (Z.lor v EMAC_NCR_TSTART)))).
  step_in.
  eapply wp_reg_read; [exact Hr3|done|]. intros x s4 Hr4 Hw4 [_ Hte].
  eapply wp_reg_write; [exact Hr4|done|]. intros s5 Hr5 _ Hgo.
  eexists. split; [reflexivity|]. split; [|split; [done|]].
  2: { apply Hgo; [cbn; f_equal; apply Hv|rewrite has_bits_lor; [apply Hte; cbn; f_equal; apply Hv|done]|apply has_bits_set; done]. }
  pose proof (view_push d n t q f cb Hv Htn ltac:(lia)) as Hv'.
  rewrite (view_size _ _ _ _ Hv), (view_head _ _ _ _ Hv), Nat2Z.id in Hv'. exact Hv'.
Qed.

(** C17: Accepting a frame for transmission, while the controller is sending:
    if the ring has a free descriptor (one is always left free), the frame is
    queued behind those already accepted and the write succeeds, otherwise
    nothing changes and it is refused; no buffer or descriptor that the
    controller owns is written, so that the frames on the wire are the accepted
    ones, each sent once, unchanged and in order. *)
Theorem tx_write_queues d n t q acc m bs size cb s :
  view d n t q -> ring n t q acc m s ->
  0 <= size <= EMAC_TX_UNITSIZE -> size <= Z.of_nat (length bs) ->
  wp tx_env (emac_dev_write d (Some bs) size cb) (fun o s' =>
    if decide (S (length q) = n) then o = Done (EMAC_TX_BUSY, d) /\ ring n t q acc m s'
    else exists d', let f := take (Z.to_nat size) bs in
      o = Done (EMAC_OK, d') /\ view d' n t (q ++ [f]) /\ ring n t (q ++ [f]) (acc ++ [f]) m s') s.
Proof.
  intros Hv Hr Hs Hl. eapply wp_mono; [by apply wp_write|]. intros o s'. cbv beta. case_decide; [done|].
  intros (d' & Ho & Hv' & Hr' & _). by exists d'.
Qed.

(** ** The interrupt handler *)

Lemma inv_shift n t f q j s : inv n t (f :: q) (S j) s -> inv n (slot n t 1) q j s.
Proof.
  intros [Ht Hr Hj Ha Hd Hp Hs]. simpl in Hr, Hj.
  split; try done; try lia; [apply slot_lt; lia|by rewrite slot_slot|].
  intros o Ho. rewrite slot_slot. cbn [plus].
  destruct (decide (S o = n)) as [He|He].
  - destruct (Hs 0%nat) as (st & b & Hst & Hb & Hw & Hlb & Hh); [lia|].
    assert (slot n t (S o) = slot n t 0) as ->.
    { unfold slot. rewrite He, Nat.add_0_r. by rewrite <- Nat.Div0.add_mod_idemp_r, Nat.Div0.mod_same, Nat.add_0_r. }
    exists st, b. split; [done|]. split; [done|]. split; [done|]. split; [done|].
    rewrite lookup_ge_None_2 by lia. by destruct (decide (j <= o)%nat).
  - destruct (Hs (S o)) as (st & b & Hst & Hb & Hw & Hlb & Hh); [lia|].
    exists st, b. split; [done|]. split; [done|]. split; [done|]. split; [done|].
    destruct (decide (S j <= S o)%nat), (decide (j <= o)%nat); try lia; done.
Qed.

Lemma ring_retire n t f q acc m s : ring n t (f :: q) acc (S m) s -> ring n (slot n t 1) q acc m s.
Proof.
  intros (j & Hm & Hi & Hacc). destruct j as [|j]; [lia|].
  exists j. split; [lia|]. split; [by eapply inv_shift|done].
Qed.

Lemma ring_sent n t f q acc m s st : ring n t (f :: q) acc m s ->
  stats s !! t = Some st -> used st = true -> ring n t (f :: q) acc (S (m - 1)) s.
Proof.
  intros (j & Hm & Hi & Hacc) Hst Hu. pose proof Hi as [Ht Hr Hj _ _ _ Hs].
  exists j. split; [|done]. destruct j as [|j]; [|lia].
  destruct (Hs 0%nat) as (st' & b & Hst' & _ & _ & _ & Hh); [lia|].
  rewrite slot_0 in Hst' by done. assert (st' = st) as -> by congruence.
  cbn in Hh. destruct Hh as [Hn _]. congruence.
Qed.

Lemma ring_unsent n t q acc m s st : ring n t q acc m s ->
  stats s !! t = Some st -> used st = false -> m = 0%nat.
Proof.
  intros (j & Hm & [Ht Hr Hj _ _ _ Hs] & _) Hst Hu. destruct j as [|j]; [lia|].
  destruct (Hs 0%nat) as (st' & b & Hst' & _ & _ & _ & Hh); [lia|].
  rewrite slot_0 in Hst' by done. assert (st' = st) as -> by congruence.
  rewrite decide_False in Hh by lia. congruence.
Qed.

Lemma view_retire d n t f q : view d n t (f :: q) -> (t < n)%nat -> (length (f :: q) < n)%nat ->
  view (set_tx d (us_tx_head d) (circ_inc (us_tx_tail d) (us_tx_list_size d))) n (slot n t 1) q.
Proof.
  intros [Hhw Hsz Hsm Ht Hh Hcb] Htn Hq. split; cbn; try done.
  - rewrite Ht, Hsz. rewrite <- (slot_0 n t Htn) at 1. by rewrite circ_inc_slot by lia.
  - by rewrite slot_slot.
Qed.

Lemma wp_call_tx d n t q acc m w flag i (k : unit -> prog emac emac_device) Q s :
  view d n t q -> ring n t q acc m s -> woken s = w -> (i < n)%nat ->
  (forall s', ring n t q acc m s' -> woken s' = w -> wp tx_env (k tt) Q s') ->
  wp tx_env (bind (call_tx d (Z.of_nat i) flag) k) Q s.
Proof.
  intros [_ _ _ _ _ Hcb] Hr Hw Hi Hk. unfold call_tx. rewrite Nat2Z.id.
  destruct (lookup_lt_is_Some_2 (func_tx_cb_list d) i) as [cb Hc]; [lia|]. rewrite Hc.
  destruct cb as [cb|]; [|by apply Hk].
  change (wp tx_env (bind (callback cb flag) k) Q s). apply wp_op; [done|]. intros [] s1 s' Ht ->.
  destruct (ticks_ring _ _ _ _ _ _ _ Hr Ht) as (Hr1 & Hw1 & _). apply Hk; (done || congruence).
Qed.

(** What has become of the ring when [r] frames have been retired, at least
    those that were known to be sent. *)
Definition retired (n t : nat) (q acc : list (list Z)) (m : nat) (d d' : emac_device) (s' : txs) : Prop :=
  exists r, (m <= r <= length q)%nat /\ view d' n (slot n t r) (drop r q) /\
    ring n (slot n t r) (drop r q) acc 0 s' /\
    func_wakeup_cb d' = func_wakeup_cb d /\ uc_wakeup_threshold d' = uc_wakeup_threshold d.

Lemma wp_retire_loop flag fuel d n t q acc m w s :
  view d n t q -> ring n t q acc m s -> woken s = w -> q <> [] -> (length q <= fuel)%nat ->
  wp tx_env (iter fuel (retire_round flag) d)
    (fun o s' => exists d', o = Done d' /\ retired n t q acc m d d' s' /\ woken s' = w) s.
Proof.
  revert d t q m s. induction fuel as [|fuel IH]; intros d t q m s Hv Hr Hw Hq Hf;
    destruct q as [|f q]; try done; simpl in Hf; try lia.
  pose proof Hr as (j & _ & [Htn Hrn _ _ _ _ _] & _).
  cbn [iter]. step_in. rewrite (view_tail _ _ _ _ Hv).
  apply wp_op; [done|]. intros st s1 s' Ht [Hst ->]. cbn in Hst. rewrite Nat2Z.id in Hst.
  destruct (ticks_ring _ _ _ _ _ _ _ Hr Ht) as (Hr1 & Hw1 & _).
  assert ((Z.land st EMAC_TXD_USED =? 0) = negb (used st)) as ->
    by (unfold used, has_bits; by rewrite negb_involutive).
  destruct (used st) eqn:Hu; cbn [negb].
  - step_in.
    pose proof (ring_sent _ _ _ _ _ _ _ _ Hr1 Hst Hu) as Hr1'.
    eapply wp_call_tx; [exact Hv|exact Hr1'|reflexivity|done|]. intros s2 Hr2 Hw2.
    pose proof (ring_retire _ _ _ _ _ _ _ Hr2) as Hr3.
    rewrite <- (view_tail _ _ _ _ Hv).
    pose proof (view_retire _ _ _ _ _ Hv Htn Hrn) as Hv3. set (d3 := set_tx d _ _) in *.
    rewrite (view_head _ _ _ _ Hv3), (view_tail _ _ _ _ Hv3), (view_size _ _ _ _ Hv3).
    rewrite circ_cnt_slot; [|apply slot_lt; lia|simpl in Hrn; lia].
    destruct (decide (length q = 0)%nat) as [Hq0|Hq0];
      [rewrite bool_decide_true by done|rewrite bool_decide_false by done]; cbn [negb bind wp].
    + exists d3. split; [done|]. split; [|congruence]. destruct q; [|done].
      destruct Hr2 as (j2 & Hm2 & [_ _ Hj2 _ _ _ _] & _). simpl in Hj2.
      exists 1%nat. split; [simpl; lia|]. split; [done|]. split; [|done].
      destruct Hr3 as (j3 & _ & Hi3). exists j3. split; [lia|done].
    + eapply wp_mono; [eapply (IH d3 _ q); [done|exact Hr3|congruence|by intros ->|lia]|].
      intros o s3 (d' & -> & (r & Hmr & Hv' & Hr' & Hwk) & Hw3). exists d'. split; [done|].
      split; [|congruence]. exists (S r). split; [simpl; lia|]. rewrite slot_slot in Hv', Hr'. by split.
  - cbn [bind wp]. exists d. split; [done|]. split; [|congruence].
    pose proof (ring_unsent _ _ _ _ _ _ _ Hr1 Hst Hu) as ->.
    exists 0%nat. split; [lia|]. rewrite slot_0, drop_0 by done. done.
Qed.

Lemma wp_callback {A} cb flag (k : unit -> prog emac A) n t q acc m w Q s :
  ring n t q acc m s -> woken s = w ->
  (forall s', ring n t q acc m s' -> woken s' = w -> wp tx_env (k tt) Q s') ->
  wp tx_env (bind (callback cb flag) k) Q s.
Proof.
  intros Hr Hw Hk. apply wp_op; [done|]. intros [] s1 s' Ht ->.
  destruct (ticks_ring _ _ _ _ _ _ _ Hr Ht) as (Hr1 & Hw1 & _). apply Hk; (done || congruence).
Qed.

Lemma wp_handle_rx {A} isr rsr d (k : unit -> prog emac A) n t q acc m w Q s :
  ring n t q acc m s -> woken s = w ->
  (forall s', ring n t q acc m s' -> woken s' = w -> wp tx_env (k tt) Q s') ->
  wp tx_env (bind (handle_rx isr rsr d) k) Q s.
Proof.
  intros Hr Hw Hk. unfold handle_rx. destruct (_ || _); [|by apply Hk].
  step_in. eapply wp_reg_write; [exact Hr|exact Hw|].
  intros s1 Hr1 Hw1 _. destruct (func_rx_cb d); [by eapply wp_callback|by apply Hk].
Qed.

(** The wakeup callbacks the handler calls. *)
Definition wakes (d d' : emac_device) : list Z :=
  match func_wakeup_cb d with
  | Some cb =>
    if uc_wakeup_threshold d <=? CIRC_SPACE (us_tx_head d') (us_tx_tail d') (us_tx_list_size d')
    then [cb] else []
  | None => []
  end.

Lemma ring_weaken n t q acc m s : ring n t q acc m s -> ring n t q acc 0 s.
Proof. intros (j & _ & H). exists j. split; [lia|done]. Qed.

Lemma retire_nothing d n t acc m s : view d n t [] -> ring n t [] acc m s ->
  retired n t [] acc m d d s.
Proof.
  intros Hv Hr. pose proof Hr as (j & Hm & [Htn _ Hj _ _ _ _] & _). simpl in Hj.
  exists 0%nat. split; [simpl; lia|]. rewrite slot_0, drop_0 by done. split; [done|].
  split; [by eapply ring_weaken|done].
Qed.

Lemma wp_handle_tx fuel isr tsr d n t q acc m w s :
  view d n t q -> ring n t q acc m s -> woken s = w -> (length q <= fuel)%nat ->
  has_bits tsr EMAC_TSR_COMP = true -> has_bits tsr EMAC_TSR_RLES = false ->
  wp tx_env (handle_tx fuel isr tsr d) (fun o s' => exists d', o = Done d' /\
    retired n t q acc m d d' s' /\ woken s' = w ++ wakes d d') s.
Proof.
  intros Hv Hr Hw Hf Hc Hl. unfold handle_tx. rewrite Hc, Hl, orb_true_r. cbn [bind].
  eapply wp_reg_write; [exact Hr|exact Hw|]. intros s1 Hr1 Hw1 _.
  eapply wp_seq with (M := fun o s' => exists d', o = Done d' /\ retired n t q acc m d d' s' /\ woken s' = w).
  - pose proof Hr as (j & _ & [Htn Hrn _ _ _ _ _] & _).
    unfold CIRC_EMPTY. rewrite (view_head _ _ _ _ Hv), (view_tail _ _ _ _ Hv).
    destruct (Z.eqb_spec (Z.of_nat (slot n t (length q))) (Z.of_nat t)) as [He|He]; cbn [negb].
    + assert (q = []) as ->.
      { destruct q as [|f q]; [done|]. apply Nat2Z.inj in He. rewrite <- (slot_0 n t Htn) in He at 2.
        apply slot_inj in He; (done || lia). }
      exists d. split; [done|]. split; [by apply retire_nothing|done].
    + apply wp_retire_loop; try done. intros ->. apply He. by rewrite slot_0.
  - intros o s2 (d' & -> & Hret & Hw2). cbn [andthen].
    pose proof Hret as (r & Hmr & Hv' & Hr2 & Hwk & Hth). cbn [bind]. unfold wakes. rewrite Hwk, Hth.
    destruct (func_wakeup_cb d) as [cb|] eqn:Hcb; cbn [bind wp]; [|exists d'; by rewrite app_nil_r].
    destruct (_ <=? _) eqn:Hsp; cbn [bind wp]; [|exists d'; by rewrite Hsp, app_nil_r].
    apply wp_op; [done|]. intros [] s3 s4 Ht ->.
    destruct (ticks_ring _ _ _ _ _ _ _ Hr2 Ht) as (Hr3 & Hw3 & _).
    exists d'. split; [done|]. split; [|rewrite Hsp; cbn [woken]; congruence]. exists r. split; [done|]. split; [done|].
    split; [|split; congruence]. destruct Hr3 as (j & Hm & [] & Hacc). exists j. split; [done|]. by split.
Qed.

Lemma wp_handler fuel d n t q acc m w s :
  view d n t q -> ring n t q acc m s -> woken s = w -> (length q <= fuel)%nat ->
  wp tx_env (emac_handler fuel d) (fun o s' => exists d', o = Done d' /\
    retired n t q acc m d d' s' /\ woken s' = w ++ wakes d d') s.
Proof.
  intros Hv Hr Hw Hf. unfold emac_handler. rewrite (view_hw _ _ _ _ Hv).
  eapply wp_reg_read; [exact Hr|exact Hw|]. intros isr s1 Hr1 Hw1 _.
  eapply wp_reg_read; [exact Hr1|exact Hw1|]. intros rsr s2 Hr2 Hw2 _.
  eapply wp_reg_read; [exact Hr2|exact Hw2|]. intros tsr s3 Hr3 Hw3 Htsr.
  eapply wp_reg_read; [exact Hr3|exact Hw3|]. intros mask s4 Hr4 Hw4 _.
  eapply wp_handle_rx; [exact Hr4|exact Hw4|]. intros s5 Hr5 Hw5.
  destruct (proj1 Htsr eq_refl). by apply wp_handle_tx.
Qed.

(** C35: The transmit-complete interrupt, while the controller goes on sending:
    the handler returns, takes off the ring a number of frames that have been
    sent, oldest first, and all of those that had been sent when it was
    entered, so that their descriptors can be used again; it changes nothing on
    the wire or in the frames that are still to be sent. *)
Theorem tx_handler_retires fuel d n t q acc m s :
  view d n t q -> ring n t q acc m s -> (length q <= fuel)%nat ->
  wp tx_env (emac_handler fuel d) (fun o s' => exists d' r, o = Done d' /\
    (m <= r <= length q)%nat /\ view d' n (slot n t r) (drop r q) /\
    ring n (slot n t r) (drop r q) acc 0 s') s.
Proof.
  intros Hv Hr Hf. eapply wp_mono; [by eapply wp_handler|].
  intros o s' (d' & -> & (r & Hmr & Hv' & Hr' & _) & _). by exists d', r.
Qed.

(** ** Progress *)

(** However the controller goes on, it reaches a state where [P] holds, and it
    can always go on until then. *)
Inductive eventually (P : txs -> Prop) (s : txs) : Prop :=
| ev_now : P s -> eventually P s
| ev_later : (exists s', tick s s') -> (forall s', tick s s' -> eventually P s') -> eventually P s.

Lemma eventually_mono (P Q : txs -> Prop) s : (forall s, P s -> Q s) -> eventually P s -> eventually Q s.
Proof. intros HPQ H. induction H as [|s Hex _ IH]; [by apply ev_now, HPQ|by apply ev_later]. Qed.

Lemma tick_enabled n t q j s : inv n t q j s -> (j < length q)%nat -> go s = true -> exists s', tick s s'.
Proof.
  intros [Ht Hr Hj Ha Hd Hp Hs] Hl Hgo. destruct s as [aa ss bs p w k g]. cbn in *. subst p g.
  destruct (Hs j) as (st & b & Hst & Hb & _ & _ & Hh); [lia|].
  destruct (lookup_lt_is_Some_2 q j Hl) as [f Hf]. rewrite decide_True, Hf in Hh by lia.
  destruct Hh as [Hu _]. eexists. by econstructor.
Qed.

(** A controller that has been started sends all that it owns. *)
Lemma ring_drains n t q acc m s : ring n t q acc m s -> go s = true ->
  eventually (fun s' => wire s' = acc /\ ring n t q acc (length q) s') s.
Proof.
  intros (j & _ & Hi & Hacc). remember (length q - j)%nat as k eqn:Hk. revert j s Hi Hacc Hk.
  induction k as [|k IH]; intros j s Hi Hacc Hk Hgo.
  - pose proof (inv_sent _ _ _ _ _ Hi). assert (j = length q) as -> by lia. apply ev_now. split.
    + by rewrite <- Hacc, drop_ge, app_nil_r by lia.
    + by exists (length q).
  - apply ev_later; [apply (tick_enabled n t q j); [done|lia|done]|]. intros s' Hs.
    destruct (tick_inv _ _ _ _ _ _ Hi Hs) as (j' & [(_ & -> & Hgo')|(-> & _)] & Hi' & _ & _ & _ & Hw); [|lia].
    apply (IH (S j)); [done|congruence|lia|done].
Qed.

(** What a controller that is not started has in its ring stays there. *)
Lemma not_started_stays s s' : go s = false -> rtc tick s s' -> s' = s.
Proof. intros Hg H. destruct H as [|s s1 s2 Hk _]; [done|]. by destruct Hk. Qed.

(** C18: A frame that is accepted is eventually sent, also by a controller that
    had stopped at the end of the frames before: it sends nothing unless it is
    started, and the write starts it.  On a link where no frame exceeds its retry
    limit, the controller reaches from there, however it goes on, a state where
    the accepted frames are all on the wire, this one last, and where the next
    transmit-complete interrupt makes the whole ring free again. *)
Theorem tx_accepted_is_sent d n t q acc m bs size cb s :
  view d n t q -> ring n t q acc m s -> (S (length q) < n)%nat ->
  0 <= size <= EMAC_TX_UNITSIZE -> size <= Z.of_nat (length bs) ->
  wp tx_env (emac_dev_write d (Some bs) size cb) (fun o s' => exists d', o = Done (EMAC_OK, d') /\
    eventually (fun s2 => wire s2 = acc ++ [take (Z.to_nat size) bs] /\
      wp tx_env (emac_handler n d') (fun o s3 => exists d2, o = Done d2 /\
        view d2 n (slot n t (S (length q))) []) s2) s') s.
Proof.
  intros Hv Hr Hq Hs Hl. eapply wp_mono; [by apply wp_write|].
  intros o s'. cbv beta. case_decide as Hd; [lia|]. intros (d' & -> & Hv' & Hr' & Hgo). exists d'. split; [done|].
  eapply eventually_mono; [|by eapply ring_drains]. intros s2 [Hw Hr2]. split; [done|].
  eapply wp_mono; [eapply wp_handler; [exact Hv'|exact Hr2|reflexivity|rewrite length_app; simpl; lia]|].
  intros o s3 (d2 & -> & (r & Hr3 & Hv3 & _) & _). exists d2. split; [done|].
  rewrite length_app in Hr3. simpl in Hr3. assert (r = S (length q)) as -> by lia.
  by rewrite drop_ge in Hv3 by (rewrite length_app; simpl; lia).
Qed.

(** The wakeup of a task that waits for a free descriptor is missed: the
    space is computed with the remainder of C, which is negative unless the
    head is below the tail, so that the handler does not call the callback
    when the head has not yet wrapped around, nor when it has just emptied the
    whole ring. *)
Theorem tx_wakeup_missed fuel d n t q acc m s :
  view d n t q -> ring n t q acc m s -> (length q <= fuel)%nat -> 0 < uc_wakeup_threshold d ->
  wp tx_env (emac_handler fuel d) (fun o s' => exists d', o = Done d' /\
    (us_tx_tail d' <= us_tx_head d' -> woken s' = woken s)) s.
Proof.
  intros Hv Hr Hf Hth. eapply wp_mono; [by eapply wp_handler|].
  intros o s' (d' & -> & (r & _ & Hv' & Hr' & _) & Hw). exists d'. split; [done|]. intros Hle.
  rewrite Hw. unfold wakes. destruct Hr' as (j & _ & [Htn Hrn _ _ _ _ _] & _).
  destruct (func_wakeup_cb d); [|by rewrite app_nil_r].
  pose proof (slot_lt n (slot n t r) (length (drop r q)) ltac:(lia)).
  pose proof (circ_space_neg (us_tx_head d') (us_tx_tail d') (us_tx_list_size d')) as Hneg.
  rewrite (view_head _ _ _ _ Hv'), (view_tail _ _ _ _ Hv'), (view_size _ _ _ _ Hv') in *.
  rewrite (proj2 (Z.leb_gt _ _)); [by rewrite app_nil_r|]. lia.
Qed.

(** ** An eight-descriptor ring *)

Definition zero_buffer : list Z := replicate 1518 0.

(** One frame of three bytes is in the ring, in descriptor 0; it is not yet sent
    when [st] is its status as handed over, and the controller is working on it. *)
Definition sample_state (st : Z) : txs := {|
  addrs := map (fun i => 0x20070000 + 1518 * Z.of_nat i) (seq 0 8);
  stats := st :: replicate 6 EMAC_TXD_USED ++ [Z.lor EMAC_TXD_USED EMAC_TXD_WRAP];
  bufs := ([1; 2; 3] ++ replicate 1515 0) :: replicate 7 zero_buffer;
  pos := 0; wire := []; woken := []; go := true
|}.

Definition sample_device (head : Z) : emac_device :=
  EmacDevice EMAC 0x20070000 0 0 0 None (Some 1) (replicate 8 None) 16 0 8 head 0 1.

Lemma sample_view : view (sample_device 1) 8 0 [[1; 2; 3]].
Proof. by split. Qed.

Lemma sample_ring : ring 8 0 [[1; 2; 3]] [[1; 2; 3]] 0 (sample_state (Z.lor 3 EMAC_TXD_LAST)).
Proof.
  exists 0%nat. split; [done|]. split; [|done]. split; try (done || (simpl; lia)).
  - apply NoDup_ListNoDup. cbv. repeat constructor; simpl; lia.
  - intros o Ho. do 8 (destruct o as [|o]; [eexists _, _; repeat split; reflexivity|]). lia.
Qed.

(** The frame has been sent and the controller has stopped behind it. *)
Definition sent_state : txs :=
  let s := sample_state (Z.lor (Z.lor 3 EMAC_TXD_LAST) EMAC_TXD_USED) in
  Txs (addrs s) (stats s) (bufs s) 1 [[1; 2; 3]] [] false.

Lemma sent_ring : ring 8 0 [[1; 2; 3]] [[1; 2; 3]] 1 sent_state.
Proof.
  exists 1%nat. split; [done|]. split; [|done]. split; try (done || (simpl; lia)).
  - apply NoDup_ListNoDup. cbv. repeat constructor; simpl; lia.
  - intros o Ho. do 8 (destruct o as [|o]; [eexists _, _; repeat split; reflexivity|]). lia.
Qed.

Lemma tx_write_queues_witness :
  wp tx_env (emac_dev_write (sample_device 1) (Some [4; 5]) 2 None) (fun o s' =>
    if decide (2 = 8)%nat then o = Done (EMAC_TX_BUSY, sample_device 1) /\
      ring 8 0 [[1; 2; 3]] [[1; 2; 3]] 0 s'
    else exists d', let f := [4; 5] in o = Done (EMAC_OK, d') /\ view d' 8 0 ([[1; 2; 3]] ++ [f]) /\
      ring 8 0 ([[1; 2; 3]] ++ [f]) ([[1; 2; 3]] ++ [f]) 0 s') (sample_state (Z.lor 3 EMAC_TXD_LAST)).
Proof.
  apply (tx_write_queues (sample_device 1) 8 0 [[1; 2; 3]] [[1; 2; 3]] 0 [4; 5] 2 None);
    [apply sample_view|apply sample_ring|unfold EMAC_TX_UNITSIZE; lia|simpl; lia].
Defined.

Lemma tx_handler_retires_witness :
  wp tx_env (emac_handler 1 (sample_device 1)) (fun o s' => exists d' r, o = Done d' /\
    (0 <= r <= 1)%nat /\ view d' 8 (slot 8 0 r) (drop r [[1; 2; 3]]) /\
    ring 8 (slot 8 0 r) (drop r [[1; 2; 3]]) [[1; 2; 3]] 0 s') (sample_state (Z.lor 3 EMAC_TXD_LAST)).
Proof.
  apply (tx_handler_retires 1 (sample_device 1) 8 0 [[1; 2; 3]] [[1; 2; 3]] 0);
    [apply sample_view|apply sample_ring|simpl; lia].
Defined.

Lemma tx_wakeup_missed_witness :
  wp tx_env (emac_handler 1 (sample_device 1)) (fun o s' => exists d', o = Done d' /\
    (us_tx_tail d' <= us_tx_head d' -> woken s' = [])) (sample_state (Z.lor 3 EMAC_TXD_LAST)).
Proof.
  apply (tx_wakeup_missed 1 (sample_device 1) 8 0 [[1; 2; 3]] [[1; 2; 3]] 0);
    [apply sample_view|apply sample_ring|simpl; lia|simpl; lia].
Defined.

Lemma tx_accepted_is_sent_witness :
  wp tx_env (emac_dev_write (sample_device 1) (Some [4; 5]) 2 None) (fun o s' => exists d',
    o = Done (EMAC_OK, d') /\
    eventually (fun s2 => wire s2 = [[1; 2; 3]] ++ [[4; 5]] /\
      wp tx_env (emac_handler 8 d') (fun o s3 => exists d2, o = Done d2 /\
        view d2 8 (slot 8 0 2) []) s2) s') sent_state.
Proof.
  apply (tx_accepted_is_sent (sample_device 1) 8 0 [[1; 2; 3]] [[1; 2; 3]] 1 [4; 5] 2 None);
    [apply sample_view|apply sent_ring|simpl; lia|unfold EMAC_TX_UNITSIZE; lia|simpl; lia].
Defined.
