(* ===== verification/EmacRx.v ===== *)
(** * The receive ring of the Ethernet driver

    The controller fills the descriptors in order, a frame of more than 128
    bytes into several; the driver gathers the fragments and gives the
    descriptors back, while the controller goes on receiving. *)

From stdpp Require Import relations.
From S2P Require Import Prelude Prog Emac EmacTx.
#[local] Open Scope Z_scope.

(** ** The controller

    [rpos] is the descriptor it fills next. *)
Record rxs := Rxs {
  raddrs : list Z;
  rstats : list Z;
  rbufs : list (list Z);
  rpos : nat
}.

(** A descriptor with the ownership bit belongs to the driver. *)
Definition owned (a : Z) : bool := has_bits a EMAC_RXD_OWNERSHIP.

Inductive receive : rxs -> rxs -> Prop :=
| receive_fragment aa ss bs p a st b :
  aa !! p = Some a -> owned a = false -> Z.of_nat (length b) = EMAC_RX_UNITSIZE ->
  receive (Rxs aa ss bs p)
    (Rxs (<[p := Z.lor a EMAC_RXD_OWNERSHIP]> aa) (<[p := st]> ss) (<[p := b]> bs)
       (if has_bits a EMAC_RXD_WRAP then 0%nat else S p)).

(** The driver writes a descriptor and reads a buffer only while it owns them. *)
Definition rx_req (e : emac_op) (s : rxs) : Prop :=
  match e with
  | DescWr RxRing i Addr _ => exists a, raddrs s !! Z.to_nat i = Some a /\ owned a = true
  | DescWr _ _ _ _ | CopyTo _ _ => False
  | CopyFrom address n => 0 <= n <= EMAC_RX_UNITSIZE /\ exists i a, raddrs s !! i = Some a /\
      owned a = true /\ Z.land a EMAC_RXD_ADDR_MASK = address
  | _ => True
  end.

Definition rx_apply (e : emac_op) (s : rxs) : emac_ans e -> rxs -> Prop :=
  match e with
  | DescRd RxRing i f => fun x s' =>
      (match f with Addr => raddrs s | Status => rstats s end) !! Z.to_nat i = Some x /\ s' = s
  | DescWr RxRing i Addr v => fun _ s' =>
      s' = Rxs (<[Z.to_nat i := v]> (raddrs s)) (rstats s) (rbufs s) (rpos s)
  | CopyFrom address n => fun x s' => s' = s /\ exists i a b, raddrs s !! i = Some a /\
      Z.land a EMAC_RXD_ADDR_MASK = address /\ rbufs s !! i = Some b /\ x = take (Z.to_nat n) b
  | _ => fun _ s' => s' = s
  end.

Definition rx_step (e : op emac) (s : rxs) (x : ans emac e) (s' : rxs) : Prop :=
  exists s1, rtc receive s s1 /\ rx_apply e s1 x s'.

Definition rx_env : env emac rxs := {| req := rx_req : op emac -> _; step := rx_step |}.

(** ** The ring *)

(** The slot at distance [o] from the driver's index, whose buffer is at
    [base], when the fragments [fr] (status word and buffer) wait to be read. *)
Definition rholds (fr : list (Z * list Z)) (o : nat) (last : bool) (base a st : Z) (b : list Z) : Prop :=
  Z.land a EMAC_RXD_ADDR_MASK = base /\ has_bits a EMAC_RXD_WRAP = last /\
  match fr !! o with
  | Some f => owned a = true /\ st = f.1 /\ b = f.2 /\ Z.of_nat (length b) = EMAC_RX_UNITSIZE
  | None => owned a = false
  end.

Record rinv (bases : list Z) (r : nat) (fr : list (Z * list Z)) (s : rxs) : Prop := {
  rinv_idx : (r < length bases)%nat;
  rinv_room : (length fr <= length bases)%nat;
  rinv_distinct : NoDup bases;
  rinv_len : length (raddrs s) = length bases;
  rinv_pos : rpos s = slot (length bases) r (length fr);
  rinv_slots : forall o, (o < length bases)%nat -> exists base a st b,
    let i := slot (length bases) r o in
    bases !! i = Some base /\ raddrs s !! i = Some a /\ rstats s !! i = Some st /\ rbufs s !! i = Some b /\
    rholds fr o (bool_decide (i = length bases - 1)%nat) base a st b
}.

(** The fragments [fr] wait to be read, and maybe more. *)
Definition rring (bases : list Z) (r : nat) (fr : list (Z * list Z)) (s : rxs) : Prop :=
  exists more, rinv bases r (fr ++ more) s.

Lemma owned_lor a : owned (Z.lor a EMAC_RXD_OWNERSHIP) = true.
Proof.
  unfold owned, has_bits. rewrite Z.land_lor_distr_l, Z.land_diag. apply negb_true_iff, Z.eqb_neq.
  intros H. apply Z.lor_eq_0_iff in H. by destruct H.
Qed.

Lemma addr_lor a m : Z.land m EMAC_RXD_ADDR_MASK = 0 ->
  Z.land (Z.lor a m) EMAC_RXD_ADDR_MASK = Z.land a EMAC_RXD_ADDR_MASK.
Proof. intros H. by rewrite Z.land_lor_distr_l, H, Z.lor_0_r. Qed.

Lemma receive_rinv bases r fr s s' : rinv bases r fr s -> receive s s' ->
  exists f, rinv bases r (fr ++ [f]) s'.
Proof.
  intros [Hr Hl Hd Hn Hp Hs] Hk. destruct Hk as [aa ss bs p a st b Ha Ho Hb].
  cbn [raddrs rstats rbufs rpos] in *. subst p. set (n := length bases) in *.
  destruct (decide (length fr = n)) as [He|He].
  { destruct (Hs 0%nat) as (base & a' & st' & b' & _ & Ha' & _ & _ & _ & _ & Hh); [lia|].
    rewrite He in Ha. unfold slot in Ha, Ha'.
    rewrite Nat.add_0_r in Ha'. rewrite <- Nat.Div0.add_mod_idemp_r, Nat.Div0.mod_same, Nat.add_0_r in Ha.
    destruct fr as [|f fr]; simpl in *; [lia|]. destruct Hh as [Hh _]. congruence. }
  exists (st, b). split; rewrite ?length_app; cbn [length raddrs rstats rbufs rpos]; try done.
  - lia.
  - by rewrite length_insert.
  - destruct (Hs (length fr)) as (base & a' & st' & b' & _ & Ha' & _ & _ & _ & Hw & _); [lia|].
    assert (a' = a) as -> by congruence. rewrite Hw, Nat.add_1_r, slot_next by lia.
    by case_bool_decide; case_decide.
  - intros o Hon. destruct (Hs o Hon) as (base & a' & st' & b' & Hbase & Ha' & Hst' & Hb' & Hrh).
    unfold rholds in Hrh. destruct Hrh as (Hm & Hw & Hh).
    destruct (decide (o = length fr)) as [-> |Hne].
    + assert (a' = a) as -> by congruence.
      exists base, (Z.lor a EMAC_RXD_OWNERSHIP), st, b. split; [done|].
      split; [apply list_lookup_insert_eq; by eapply lookup_lt_Some|].
      split; [apply list_lookup_insert_eq; by eapply lookup_lt_Some|].
      split; [apply list_lookup_insert_eq; by eapply lookup_lt_Some|].
      split; [by rewrite addr_lor|]. split; [by rewrite has_bits_lor|].
      rewrite lookup_app_r, Nat.sub_diag by done. cbn. by rewrite owned_lor.
    + assert (slot n r (length fr) <> slot n r o) as Hsl
        by (intros Heq; apply Hne; symmetry; apply (slot_inj n r); (done || lia)).
      exists base, a', st', b'. rewrite !list_lookup_insert_ne by done. unfold rholds.
      do 6 (split; [done|]).
      destruct (decide (o < length fr)%nat) as [Hol|Hol]; [by rewrite lookup_app_l|].
      rewrite lookup_ge_None_2 in Hh by lia.
      rewrite (lookup_ge_None_2 (fr ++ _) o); [done|]. rewrite length_app. simpl. lia.
Qed.

Lemma receives_rring bases r fr s s' : rring bases r fr s -> rtc receive s s' -> rring bases r fr s'.
Proof.
  intros Hr Ht. induction Ht as [|s s1 s2 Hk _ IH]; [done|]. apply IH.
  destruct Hr as [more Hr]. destruct (receive_rinv _ _ _ _ _ Hr Hk) as [f Hf].
  exists (more ++ [f]). by rewrite app_assoc.
Qed.


(** The controller leaves the descriptors of the driver alone. *)
Lemma receives_owned i a s s' : raddrs s !! i = Some a -> owned a = true -> rtc receive s s' ->
  raddrs s' !! i = Some a.
Proof.
  intros Ha Ho Ht. induction Ht as [|s s1 s2 Hk _ IH]; [done|]. apply IH.
  destruct Hk as [aa ss bs p a' st b Ha' Ho' _]. cbn in *.
  rewrite list_lookup_insert_ne; [done|]. intros ->. congruence.
Qed.

(** ** Rules for the accesses *)

Lemma wp_rx {A} (e : op emac) (k : ans emac e -> prog emac A) Q s :
  rx_req e s -> (forall x s1 s', rtc receive s s1 -> rx_apply e s1 x s' -> wp rx_env (k x) Q s') ->
  wp rx_env (bind (trigger e) k) Q s.
Proof. intros Hr Hk. split; [done|]. intros x s' (s1 & Ht & Ha). by eapply Hk. Qed.

(** The fragment at distance [o] and its descriptor. *)
Lemma rring_slot bases r fr s o f : rring bases r fr s -> fr !! o = Some f ->
  exists a, bases !! slot (length bases) r o = Some (Z.land a EMAC_RXD_ADDR_MASK) /\
    raddrs s !! slot (length bases) r o = Some a /\ rstats s !! slot (length bases) r o = Some f.1 /\
    rbufs s !! slot (length bases) r o = Some f.2 /\ owned a = true /\
    Z.of_nat (length f.2) = EMAC_RX_UNITSIZE.
Proof.
  intros [more [Hr Hl Hd Hn Hp Hs]] Hf. assert (o < length (fr ++ more))%nat as Ho
    by (rewrite length_app; apply lookup_lt_Some in Hf; lia).
  destruct (Hs o) as (base & a & st & b & Hbase & Ha & Hst & Hb & Hm & Hw & Hh); [lia|].
  rewrite (lookup_app_l_Some _ _ _ _ Hf) in Hh. destruct Hh as (Hown & -> & -> & Hlen).
  exists a. rewrite Hm. done.
Qed.

Lemma wp_rx_addr {A} bases r fr o f (k : Z -> prog emac A) Q s :
  rring bases r fr s -> fr !! o = Some f ->
  (forall a s', rring bases r fr s' -> raddrs s' !! slot (length bases) r o = Some a ->
     owned a = true -> bases !! slot (length bases) r o = Some (Z.land a EMAC_RXD_ADDR_MASK) ->
     wp rx_env (k a) Q s') ->
  wp rx_env (bind (desc_rd RxRing (Z.of_nat (slot (length bases) r o)) Addr) k) Q s.
Proof.
  intros Hr Hf Hk. apply wp_rx; [done|]. intros a s1 s' Ht [Ha ->]. cbn in Ha. rewrite Nat2Z.id in Ha.
  pose proof (receives_rring _ _ _ _ _ Hr Ht) as Hr1.
  destruct (rring_slot _ _ _ _ _ _ Hr1 Hf) as (a' & Hb & Ha' & _ & _ & Ho & _).
  assert (a' = a) as -> by congruence. by apply Hk.
Qed.

Lemma wp_rx_status {A} bases r fr o f (k : Z -> prog emac A) Q s :
  rring bases r fr s -> fr !! o = Some f ->
  (forall s', rring bases r fr s' -> wp rx_env (k f.1) Q s') ->
  wp rx_env (bind (desc_rd RxRing (Z.of_nat (slot (length bases) r o)) Status) k) Q s.
Proof.
  intros Hr Hf Hk. apply wp_rx; [done|]. intros st s1 s' Ht [Hst ->]. cbn in Hst. rewrite Nat2Z.id in Hst.
  pose proof (receives_rring _ _ _ _ _ Hr Ht) as Hr1.
  destruct (rring_slot _ _ _ _ _ _ Hr1 Hf) as (a' & _ & _ & Hst' & _).
  assert (st = f.1) as -> by congruence. by apply Hk.
Qed.

Lemma wp_rx_copy {A} bases r fr o f base size (k : list Z -> prog emac A) Q s :
  rring bases r fr s -> fr !! o = Some f -> bases !! slot (length bases) r o = Some base ->
  0 <= size <= EMAC_RX_UNITSIZE ->
  (forall s', rring bases r fr s' -> wp rx_env (k (take (Z.to_nat size) f.2)) Q s') ->
  wp rx_env (bind (copy_from base size) k) Q s.
Proof.
  intros Hr Hf Hb Hs Hk. apply wp_rx.
  { destruct (rring_slot _ _ _ _ _ _ Hr Hf) as (a & Hba & Ha & _ & _ & Ho & _).
    split; [done|]. exists (slot (length bases) r o), a. split; [done|]. split; [done|]. congruence. }
  intros x s1 s' Ht (-> & i & a & b & Hi & Hai & Hbi & ->).
  pose proof (receives_rring _ _ _ _ _ Hr Ht) as Hr1.
  destruct (rring_slot _ _ _ _ _ _ Hr1 Hf) as (a' & Hba & Ha & _ & Hbf & Ho & _).
  pose proof Hr1 as [more [Hrl Hl Hd Hn Hp Hsl]].
  destruct (lookup_lt_is_Some_2 bases i) as [base' Hb']; [rewrite <- Hn; by eapply lookup_lt_Some|].
  assert (i = slot (length bases) r o) as ->.
  { eapply NoDup_lookup; [exact Hd| |exact Hb]. rewrite Hb'. f_equal.
    assert (exists o', (o' < length bases)%nat /\ slot (length bases) r o' = i) as (o' & Ho' & <-).
    { apply lookup_lt_Some in Hb'. destruct (decide (r <= i)%nat).
      - exists (i - r)%nat. split; [lia|]. unfold slot. replace (r + (i - r))%nat with i by lia. by apply Nat.mod_small.
      - exists (i + length bases - r)%nat. split; [lia|].
        destruct (slot_cases (length bases) r (i + length bases - r)) as [[]|[]]; lia. }
    destruct (Hsl o' Ho') as (base2 & a2 & st2 & b2 & Hb2 & Ha2 & _ & _ & Hm & _). congruence. }
  assert (b = f.2) as -> by congruence. by apply Hk.
Qed.

(** ** Giving descriptors back *)

Lemma release_bits v : let v' := Z.land v (not32 EMAC_RXD_OWNERSHIP) in
  owned v' = false /\ Z.land v' EMAC_RXD_ADDR_MASK = Z.land v EMAC_RXD_ADDR_MASK /\
  has_bits v' EMAC_RXD_WRAP = has_bits v EMAC_RXD_WRAP.
Proof.
  intros v'. unfold v', owned, has_bits. rewrite <- !Z.land_assoc.
  change (Z.land (not32 EMAC_RXD_OWNERSHIP) EMAC_RXD_OWNERSHIP) with 0. by rewrite Z.land_0_r.
Qed.

Lemma rinv_release bases r f fr s a : rinv bases r (f :: fr) s -> raddrs s !! r = Some a ->
  rinv bases (slot (length bases) r 1) fr
    (Rxs (<[r := Z.land a (not32 EMAC_RXD_OWNERSHIP)]> (raddrs s)) (rstats s) (rbufs s) (rpos s)).
Proof.
  intros [Hr Hl Hd Hn Hp Hs] Ha. simpl in Hl, Hp.
  split; cbn [raddrs rstats rbufs rpos]; rewrite ?length_insert; try done; try lia.
  - apply slot_lt. lia.
  - by rewrite slot_slot.
  - intros o Ho. rewrite slot_slot. cbn [plus]. destruct (decide (S o = length bases)) as [He|He].
    + destruct (Hs 0%nat) as (base & a' & st & b & Hbase & Ha' & Hst & Hb & Hrh); [lia|].
      assert (slot (length bases) r (S o) = r) as ->.
      { unfold slot. rewrite He, <- Nat.Div0.add_mod_idemp_r, Nat.Div0.mod_same, Nat.add_0_r.
        by apply Nat.mod_small. }
      rewrite slot_0 in * by done. assert (a' = a) as -> by congruence.
      exists base, (Z.land a (not32 EMAC_RXD_OWNERSHIP)), st, b. split; [done|].
      split; [apply list_lookup_insert_eq; by eapply lookup_lt_Some|]. split; [done|]. split; [done|].
      destruct (release_bits a) as (Hu & Hm & Hw), Hrh as (Hm' & Hw' & _).
      split; [congruence|]. split; [congruence|]. by rewrite lookup_ge_None_2 by lia.
    + destruct (Hs (S o)) as (base & a' & st & b & Hbase & Ha' & Hst & Hb & Hrh); [lia|].
      exists base, a', st, b. rewrite list_lookup_insert_ne; [done|].
      intros Heq. rewrite <- (slot_0 (length bases) r Hr) in Heq at 1.
      apply slot_inj in Heq; (done || lia).
Qed.

Lemma rring_release bases r f fr s a : rring bases r (f :: fr) s -> raddrs s !! r = Some a ->
  rring bases (slot (length bases) r 1) fr
    (Rxs (<[r := Z.land a (not32 EMAC_RXD_OWNERSHIP)]> (raddrs s)) (rstats s) (rbufs s) (rpos s)).
Proof. intros [more Hr] Ha. exists more. by eapply rinv_release. Qed.

Lemma rring_idx bases r fr s : rring bases r fr s -> (r < length bases)%nat /\ (length fr <= length bases)%nat.
Proof. intros [more [Hr Hl _ _ _ _]]. rewrite length_app in Hl. split; [done|lia]. Qed.

Lemma wp_release {A} bases r f fr (k : unit -> prog emac A) Q s :
  rring bases r (f :: fr) s ->
  (forall s', rring bases (slot (length bases) r 1) fr s' -> wp rx_env (k tt) Q s') ->
  wp rx_env (bind (release (Z.of_nat r)) k) Q s.
Proof.
  intros Hr Hk. destruct (rring_idx _ _ _ _ Hr) as [Hrl _].
  unfold release. step_in.
  rewrite <- (slot_0 (length bases) r Hrl) at 1. eapply wp_rx_addr; [exact Hr|reflexivity|].
  intros a s1 Hr1 Ha Ho _. rewrite slot_0 in Ha by done.
  apply wp_rx; [exists a; by rewrite Nat2Z.id|]. intros [] s2 s3 Ht ->. rewrite Nat2Z.id. apply Hk.
  apply rring_release with f; [by eapply receives_rring|by eapply receives_owned].
Qed.

(** ** The driver's view *)

Record rview (d : emac_device) (n r : nat) : Prop := {
  rview_size : us_rx_list_size d = Z.of_nat n;
  rview_small : Z.of_nat n < 2 ^ 16;
  rview_idx : us_rx_idx d = Z.of_nat r
}.

Lemma rview_set d n r r' : rview d n r -> rview (set_rx_idx d (Z.of_nat r')) n r'.
Proof. intros []. by split. Qed.

Lemma rview_inc d n r : rview d n r -> (r < n)%nat ->
  circ_inc (us_rx_idx d) (us_rx_list_size d) = Z.of_nat (slot n r 1).
Proof.
  intros [Hs Hm Hi] Hr. rewrite Hs, Hi. rewrite <- (slot_0 n r Hr) at 1. by apply circ_inc_slot; lia.
Qed.

Lemma rview_self d n r : rview d n r -> set_rx_idx d (Z.of_nat r) = d.
Proof. intros []. destruct d. unfold set_rx_idx. simpl in *. congruence. Qed.

Lemma set_rx_idx_twice d i j : set_rx_idx (set_rx_idx d i) j = set_rx_idx d j.
Proof. done. Qed.

(** The first [k] fragments are given back. *)
Lemma wp_release_until {A} fuel bases n r fk fr td d (kont : Z * emac_device -> prog emac A) Q s :
  n = length bases -> rview d n r -> rring bases r (fk ++ fr) s -> (length fk < n)%nat ->
  (length fk < fuel)%nat ->
  (forall td' s', (fk = [] -> td' = td) -> rring bases (slot n r (length fk)) fr s' ->
     wp rx_env (kont (td', set_rx_idx d (Z.of_nat (slot n r (length fk))))) Q s') ->
  wp rx_env (bind (release_until fuel (Z.of_nat (slot n r (length fk))) td d) kont) Q s.
Proof.
  intros -> . unfold release_until. revert r fk td d s.
  induction fuel as [|fuel IH]; intros r fk td d s Hv Hr Hk Hf Hkont; [lia|].
  destruct (rring_idx _ _ _ _ Hr) as [Hrl _]. cbn [iter]. unfold release_round at 1.
  step_in. rewrite (rview_idx _ _ _ Hv).
  destruct fk as [|f fk]; cbn [length] in *.
  - rewrite slot_0, Z.eqb_refl in * by done. cbn [bind].
    rewrite <- (rview_self _ _ _ Hv) at 1. by apply Hkont.
  - destruct (Z.eqb_spec (Z.of_nat r) (Z.of_nat (slot (length bases) r (S (length fk))))) as [He|He].
    { apply Nat2Z.inj in He. rewrite <- (slot_0 (length bases) r Hrl) in He at 1.
      apply slot_inj in He; (done || lia). }
    step_in. eapply wp_release; [exact Hr|]. intros s1 Hr1.
    cbn [bind]. rewrite <- (rview_idx _ _ _ Hv) at 1 2. rewrite (rview_inc _ _ _ Hv Hrl).
    rewrite <- slot_slot with (r := 1%nat) in Hkont |- * .
    eapply IH; [by apply rview_set with r|exact Hr1|lia|lia|].
    intros td' s' _ Hr'. rewrite set_rx_idx_twice. by apply Hkont.
Qed.

(** ** Frames *)

Definition sof (f : Z * list Z) : bool := has_bits f.1 EMAC_RXD_SOF.
Definition eof (f : Z * list Z) : bool := has_bits f.1 EMAC_RXD_EOF.

(** The fragments of one frame: the first starts it, the last ends it. *)
Record is_frame (front : list (Z * list Z)) (last : Z * list Z) : Prop := {
  frame_sof : exists f rest, front ++ [last] = f :: rest /\ sof f = true /\ Forall (fun f => sof f = false) rest;
  frame_eof : Forall (fun f => eof f = false) front /\ eof last = true
}.

Definition frame_bytes (fr : list (Z * list Z)) : list Z := concat (map snd fr).

Lemma frame_bytes_snoc fr f : frame_bytes (fr ++ [f]) = frame_bytes fr ++ f.2.
Proof. unfold frame_bytes. rewrite map_app, concat_app. simpl. by rewrite app_nil_r. Qed.

(** A buffer that begins with [got]. *)
Definition filled (got buf : list Z) : list Z := got ++ drop (length got) buf.

Lemma bit_test v k : 0 <= k -> (Z.land v (Z.shiftl 1 k) =? Z.shiftl 1 k) = has_bits v (Z.shiftl 1 k).
Proof.
  intros Hk. unfold has_bits. rewrite Z.shiftl_1_l.
  assert (Z.land v (2 ^ k) = if Z.testbit v k then 2 ^ k else 0) as ->.
  { apply Z.bits_inj'. intros i Hi. rewrite Z.land_spec, Z.pow2_bits_eqb by done.
    destruct (Z.eqb_spec k i) as [-> |Hne].
    - destruct (Z.testbit v i); [by rewrite Z.pow2_bits_true|by rewrite Z.bits_0].
    - rewrite andb_false_r. destruct (Z.testbit v k); [by rewrite Z.pow2_bits_false|by rewrite Z.bits_0]. }
  destruct (Z.testbit v k); [by rewrite Z.eqb_refl; symmetry; apply negb_true_iff, Z.eqb_neq; lia|].
  apply Z.eqb_neq. pose proof (Z.pow_pos_nonneg 2 k). lia.
Qed.

(** Copying one more fragment behind what is already in the buffer. *)
Lemma filled_store cap buf data b : Z.of_nat (length b) = EMAC_RX_UNITSIZE -> (cap <= length buf)%nat ->
  let got := take cap data in
  let size := if Z.of_nat cap <? Z.of_nat (length got) + EMAC_RX_UNITSIZE
    then Z.of_nat cap - Z.of_nat (length got) else EMAC_RX_UNITSIZE in
  0 <= size <= EMAC_RX_UNITSIZE /\
  store (filled got buf) (length got) (take (Z.to_nat size) b) = Some (filled (take cap (data ++ b)) buf) /\
  Z.of_nat (length got) + size = Z.of_nat (length (take cap (data ++ b))).
Proof.
  intros Hb Hc got size. unfold EMAC_RX_UNITSIZE in *.
  assert (length got = cap `min` length data)%nat as Hg by (unfold got; by rewrite length_take).
  assert (0 <= size <= 128) as Hs by (unfold size; destruct (Z.ltb_spec (Z.of_nat cap) (Z.of_nat (length got) + 128)); lia).
  split; [done|].
  assert (take cap (data ++ b) = got ++ take (Z.to_nat size) b) as Ht.
  { rewrite take_app. unfold got. f_equal. unfold size.
    destruct (Z.ltb_spec (Z.of_nat cap) (Z.of_nat (length got) + 128)) as [Hl|Hl];
      [f_equal; lia|rewrite !take_ge by lia; done]. }
  rewrite Ht, length_app, length_take. split; [|lia].
  assert (length got + Z.to_nat size <= length buf)%nat as Hle by (apply (f_equal length) in Ht;
    rewrite length_app, !length_take in Ht; lia).
  unfold filled. rewrite store_in_bounds by (rewrite !length_app, length_take, length_drop; lia).
  rewrite !length_app, length_take.
  f_equal. rewrite take_app_length, <- app_assoc. f_equal. f_equal.
  rewrite drop_app_ge, drop_drop by lia. f_equal. lia.
Qed.

(** The size as the code computes it. *)
Lemma copy_size cap g : (g <= cap)%nat -> Z.of_nat cap < 2 ^ 31 ->
  (if Z.of_nat cap <? u32 (Z.of_nat g + EMAC_RX_UNITSIZE) then u16 (Z.of_nat cap - Z.of_nat g)
   else EMAC_RX_UNITSIZE) =
  (if Z.of_nat cap <? Z.of_nat g + EMAC_RX_UNITSIZE then Z.of_nat cap - Z.of_nat g else EMAC_RX_UNITSIZE).
Proof.
  unfold EMAC_RX_UNITSIZE. intros Hg Hc. rewrite u32_id by (unfold is_u32; lia).
  destruct (Z.ltb_spec (Z.of_nat cap) (Z.of_nat g + 128)); [|done]. apply u16_id. unfold is_u16. lia.
Qed.

(** ** The loop *)

Section gather.
Context (fuel : nat) (cap : nat) (bases : list Z) (buf : list Z) (d : emac_device) (r : nat).
#[local] Notation "'n'" := (length bases).
#[local] Notation "'cap_z'" := (Z.of_nat cap).
#[local] Notation "'result'" := (read_state + (Z * Z * list Z * emac_device))%type.
Context (Hview : rview d n r) (Hcap : (cap <= length buf)%nat) (Hcap32 : Z.of_nat cap < 2 ^ 31).

(** The state of the loop when the fragments [fd] have been copied. *)
Definition gathering (fd : list (Z * list Z)) (td tmp : Z) : read_state :=
  ReadState td tmp true (Z.of_nat (length (take cap (frame_bytes fd)))) (filled (take cap (frame_bytes fd)) buf) d.

Definition frame_result (fd : list (Z * list Z)) (last : Z * list Z) (d' : emac_device)
    : Z * Z * list Z * emac_device :=
  let got := take cap (frame_bytes (fd ++ [last])) in
  let size := Z.land last.1 EMAC_RXD_LEN_MASK in
  (if Z.of_nat (length got) <? size then EMAC_SIZE_TOO_SMALL else EMAC_OK, size, filled got buf, d').

Lemma wp_read_fragment {A} fd f rest (kont : result -> prog emac A) Q s :
  rring bases r (fd ++ f :: rest) s -> (S (length fd) < n)%nat -> (S (length fd) < fuel)%nat ->
  let td := Z.of_nat (slot n r (length fd)) in
  let next := Z.of_nat (slot n r (S (length fd))) in
  (if eof f then forall s', rring bases (slot n r (S (length fd))) rest s' ->
     wp rx_env (kont (inr (frame_result fd f (set_rx_idx d next)))) Q s'
   else forall s', rring bases r ((fd ++ [f]) ++ rest) s' ->
     wp rx_env (kont (inl (gathering (fd ++ [f]) td next))) Q s') ->
  wp rx_env (bind (read_fragment fuel cap_z (gathering fd td next)) kont) Q s.
Proof.
  intros Hr Hk Hf td next Hkont. destruct (rring_idx _ _ _ _ Hr) as [Hrl Hlen].
  assert ((fd ++ f :: rest) !! length fd = Some f) as Hat by (by rewrite lookup_app_r, Nat.sub_diag by done).
  destruct (rring_slot _ _ _ _ _ _ Hr Hat) as (a0 & _ & _ & _ & _ & _ & Hlf).
  destruct (filled_store cap buf (frame_bytes fd) f.2 Hlf Hcap) as (Hsz & Hst & Hgot).
  unfold read_fragment, gathering; cbn [us_tmp_idx dev tmp_ul_frame_size p_frame p_rx_td].
  rewrite (rview_idx _ _ _ Hview). destruct (Z.eqb_spec next (Z.of_nat r)) as [He|_].
  { unfold next in He. apply Nat2Z.inj in He. rewrite <- (slot_0 n r Hrl) in He at 2.
    apply slot_inj in He; (done || lia). }
  pose proof (length_take (frame_bytes fd) cap) as Hlg.
  revert Hsz Hst Hgot. cbv zeta. rewrite <- (copy_size cap (length (take cap (frame_bytes fd)))) by lia.
  set (size := if Z.of_nat cap <? u32 _ then _ else _). intros Hsz Hst Hgot.
  rewrite Nat2Z.id. step_in. eapply wp_rx_addr; [exact Hr|exact Hat|]. intros a s1 Hr1 _ _ Hb.
  step_in. eapply wp_rx_copy; [exact Hr1|exact Hat|exact Hb|exact Hsz|]. intros s2 Hr2.
  rewrite Hst. cbn [defined bind].
  step_in. eapply wp_rx_status; [exact Hr2|exact Hat|]. intros s3 Hr3.
  assert (u32 (Z.of_nat (length (take cap (frame_bytes fd))) + size) =
    Z.of_nat (length (take cap (frame_bytes (fd ++ [f]))))) as Hsize.
  { rewrite frame_bytes_snoc, Hgot. apply u32_id. unfold is_u32. rewrite length_take. lia. }
  rewrite Hsize. clear Hsize. rewrite <- frame_bytes_snoc. change (Z.land f.1 EMAC_RXD_EOF =? EMAC_RXD_EOF) with
    (Z.land f.1 (Z.shiftl 1 15) =? Z.shiftl 1 15). rewrite bit_test by done.
  change (has_bits f.1 (Z.shiftl 1 15)) with (eof f). destruct (eof f).
  - step_in. eapply wp_rx_status; [exact Hr3|exact Hat|]. intros s4 Hr4.
    step_in. replace (fd ++ f :: rest) with ((fd ++ [f]) ++ rest) in Hr4 by (by rewrite <- app_assoc).
    assert (length (fd ++ [f]) = S (length fd)) as Hls by (rewrite length_app; simpl; lia).
    unfold next. rewrite <- Hls. eapply wp_release_until; [done|exact Hview|exact Hr4|lia|lia|].
    rewrite Hls. intros td' s5 _ Hr5. cbn [bind]. by apply Hkont.
  - cbn [bind]. apply Hkont. by rewrite <- app_assoc.
Qed.

(** The first fragment of a frame, or the next one. *)
Definition at_fragment (fd : list (Z * list Z)) (f : Z * list Z) (st : read_state) : Prop :=
  let td := Z.of_nat (slot n r (length fd)) in
  (sof f = false /\ st = gathering fd td td) \/ (fd = [] /\ sof f = true /\ st = ReadState td td false 0 buf d).

Lemma owned_test a : (Z.land a EMAC_RXD_OWNERSHIP =? EMAC_RXD_OWNERSHIP) = owned a.
Proof. unfold owned. change EMAC_RXD_OWNERSHIP with (Z.shiftl 1 0). by apply bit_test. Qed.

Lemma sof_test (f : Z * list Z) : (Z.land f.1 EMAC_RXD_SOF =? EMAC_RXD_SOF) = sof f.
Proof. unfold sof. change EMAC_RXD_SOF with (Z.shiftl 1 14). by apply bit_test. Qed.

Lemma wp_read_start {A} fd f rest st (kont : read_state -> prog emac A) Q s :
  rring bases r (fd ++ f :: rest) s -> at_fragment fd f st -> (0 < fuel)%nat ->
  (forall s', rring bases r (fd ++ f :: rest) s' ->
     wp rx_env (kont (gathering fd (Z.of_nat (slot n r (length fd))) (Z.of_nat (slot n r (length fd))))) Q s') ->
  wp rx_env (bind (read_start fuel st) kont) Q s.
Proof.
  intros Hr Hat Hf Hkont. destruct (rring_idx _ _ _ _ Hr) as [Hrl _].
  assert ((fd ++ f :: rest) !! length fd = Some f) as Hlk by (by rewrite lookup_app_r, Nat.sub_diag by done).
  assert (p_rx_td st = Z.of_nat (slot n r (length fd))) as Htd by (by destruct Hat as [[_ ->]|(_ & _ & ->)]).
  unfold read_start. rewrite Htd. step_in. eapply wp_rx_status; [exact Hr|exact Hlk|]. intros s1 Hr1.
  rewrite sof_test. destruct Hat as [[-> ->]|(-> & -> & ->)]; cbn [bind]; [by apply Hkont|].
  cbn [length us_tmp_idx p_rx_td dev p_frame] in *. step_in.
  rewrite <- (slot_slot n r 0 0), (slot_0 n r Hrl) at 1. change 0%nat with (length (@nil (Z * list Z))) at 1.
  eapply wp_release_until; [done|exact Hview|exact Hr1|simpl; lia|simpl; lia|].
  intros td' s2 -> Hr2; [|done]. cbn [length bind] in *. rewrite slot_0 in * by done.
  rewrite (rview_self _ _ _ Hview). replace (gathering [] _ _) with
    (ReadState (Z.of_nat r) (Z.of_nat r) true 0 buf d) in Hkont; [by apply Hkont|].
  unfold gathering, frame_bytes. simpl. by rewrite take_nil.
Qed.

Lemma wp_read_round {A} fd f rest st (kont : result -> prog emac A) Q s :
  rring bases r (fd ++ f :: rest) s -> at_fragment fd f st -> (S (length fd) < n)%nat ->
  (S (length fd) < fuel)%nat ->
  let next := Z.of_nat (slot n r (S (length fd))) in
  (if eof f then forall s', rring bases (slot n r (S (length fd))) rest s' ->
     wp rx_env (kont (inr (frame_result fd f (set_rx_idx d next)))) Q s'
   else forall s', rring bases r ((fd ++ [f]) ++ rest) s' ->
     wp rx_env (kont (inl (gathering (fd ++ [f]) next next))) Q s') ->
  wp rx_env (bind (read_round fuel cap_z st) kont) Q s.
Proof.
  intros Hr Hat Hk Hf next Hkont. destruct (rring_idx _ _ _ _ Hr) as [Hrl _].
  assert ((fd ++ f :: rest) !! length fd = Some f) as Hlk by (by rewrite lookup_app_r, Nat.sub_diag by done).
  assert (p_rx_td st = Z.of_nat (slot n r (length fd))) as Htd by (by destruct Hat as [[_ ->]|(_ & _ & ->)]).
  unfold read_round. rewrite Htd. step_in. eapply wp_rx_addr; [exact Hr|exact Hlk|].
  intros a s1 Hr1 _ Ho _. rewrite owned_test, Ho. step_in.
  eapply wp_read_start; [exact Hr1|exact Hat|lia|]. intros s2 Hr2.
  cbn [gathering p_rx_td us_tmp_idx c_is_frame tmp_ul_frame_size p_frame dev].
  rewrite (rview_size _ _ _ Hview), circ_inc_slot; [|done|lia|by destruct Hview].
  step_in. fold next. eapply (wp_read_fragment fd f rest); [exact Hr2|done|done|].
  fold next. destruct (eof f); intros s3 Hr3; by apply Hkont.
Qed.

Lemma wp_read_rounds m fd todo last st s rest :
  rring bases r ((fd ++ todo ++ [last]) ++ rest) s ->
  (forall f, head (todo ++ [last]) = Some f -> at_fragment fd f st) ->
  Forall (fun f => sof f = false) (tail (todo ++ [last])) ->
  Forall (fun f => eof f = false) todo -> eof last = true ->
  (length (fd ++ todo ++ [last]) < n)%nat -> (length (fd ++ todo ++ [last]) < fuel)%nat ->
  (length todo < m)%nat ->
  let stop := slot n r (length (fd ++ todo ++ [last])) in
  wp rx_env (iter m (read_round fuel cap_z) st) (fun o s' =>
    o = Done (frame_result (fd ++ todo) last (set_rx_idx d (Z.of_nat stop))) /\
    rring bases stop rest s') s.
Proof.
  revert m fd st s. induction todo as [|f todo IH]; intros m fd st s Hr Hat Hs He Hl Hn Hf Hm stop;
    (destruct m as [|m]; [simpl in Hm; lia|]); cbn [iter]; rewrite !length_app in *; cbn [length] in *.
  - eapply (wp_read_round fd last rest); [by rewrite <- app_assoc in Hr|apply Hat; reflexivity|lia|lia|].
    rewrite Hl. intros s1 Hr1. cbn [wp]. rewrite app_nil_r.
    assert (stop = slot n r (S (length fd))) as -> by (unfold stop; rewrite !length_app; cbn [length]; f_equal; lia). done.
  - apply Forall_cons_1 in He as [Hef He]. cbn [app tail] in Hs.
    eapply (wp_read_round fd f ((todo ++ [last]) ++ rest)); [by rewrite <- app_assoc in Hr|apply Hat; reflexivity|lia|lia|].
    rewrite Hef. intros s1 Hr1. eapply wp_mono; [eapply (IH m (fd ++ [f]))|]; rewrite ?length_app; cbn [length]; try done; try lia.
    + by rewrite <- (app_assoc (fd ++ [f])).
    + intros f' Hf'. left. split; [destruct (todo ++ [last]); [done|]; injection Hf' as ->; by apply Forall_inv in Hs|].
      rewrite length_app. cbn [length]. replace (length fd + 1)%nat with (S (length fd)) by lia. done.
    + destruct (todo ++ [last]); [done|]. by apply Forall_inv_tail in Hs.
    + intros o s2 [-> Hr2]. rewrite <- app_assoc.
      assert (stop = slot n r (length fd + 1 + (length todo + 1))) as ->
        by (unfold stop; rewrite !length_app; cbn [length]; f_equal; lia). done.
Qed.
End gather.

(** A fragment before any start of frame is given back. *)
Lemma wp_read_skip {A} fuel cap bases buf d r f fr kont Q s :
  rview d (length bases) r -> rring bases r (f :: fr) s -> sof f = false ->
  (forall s', let r' := slot (length bases) r 1 in rring bases r' fr s' ->
     wp rx_env (kont (inl (ReadState (Z.of_nat r') (Z.of_nat r') false 0 buf (set_rx_idx d (Z.of_nat r'))))) Q s') ->
  wp rx_env (@bind _ _ A (read_round fuel cap (ReadState (Z.of_nat r) (Z.of_nat r) false 0 buf d)) kont) Q s.
Proof.
  intros Hv Hr Hs Hkont. destruct (rring_idx _ _ _ _ Hr) as [Hrl _].
  unfold read_round; cbn [p_rx_td us_tmp_idx c_is_frame tmp_ul_frame_size p_frame dev]. step_in.
  rewrite <- (slot_0 (length bases) r Hrl) at 1. eapply wp_rx_addr; [exact Hr|reflexivity|].
  intros a s1 Hr1 _ Ho _. rewrite owned_test, Ho. step_in. unfold read_start; cbn [p_rx_td]. step_in.
  rewrite <- (slot_0 (length bases) r Hrl) at 1. eapply wp_rx_status; [exact Hr1|reflexivity|].
  intros s2 Hr2. rewrite sof_test, Hs. cbn [bind p_rx_td us_tmp_idx c_is_frame tmp_ul_frame_size p_frame dev].
  step_in. step_in. eapply wp_release; [exact Hr2|]. intros s3 Hr3. cbn [bind].
  rewrite <- (rview_idx _ _ _ Hv), (rview_inc _ _ _ Hv Hrl). by apply Hkont.
Qed.

Lemma wp_read_garbage fuel cap bases buf m d r gar front last rest s :
  let n := length bases in
  rview d n r -> rring bases r (gar ++ (front ++ [last]) ++ rest) s ->
  Forall (fun f => sof f = false) gar -> is_frame front last ->
  (length front + 1 < n)%nat -> (length front + 1 < fuel)%nat ->
  (length gar + length front < m)%nat -> (cap <= length buf)%nat -> Z.of_nat cap < 2 ^ 31 ->
  let stop := slot n r (length gar + length front + 1) in
  wp rx_env (iter m (read_round fuel (Z.of_nat cap)) (ReadState (Z.of_nat r) (Z.of_nat r) false 0 buf d))
    (fun o s' => o = Done (frame_result cap buf front last (set_rx_idx d (Z.of_nat stop))) /\
       rring bases stop rest s') s.
Proof.
  intros n. revert m d r s. induction gar as [|f gar IH]; intros m d r s Hv Hr Hg Hfr Hn Hf Hm Hc Hc32 stop.
  - destruct Hfr as [(f & tl & Hcons & Hsf & Htl) [He Hl]]. destruct (rring_idx _ _ _ _ Hr) as [Hrl _].
    eapply wp_mono; [apply (wp_read_rounds fuel cap bases buf d r Hv Hc Hc32 m [] front last _ _ rest)|];
      cbn [app length] in *; rewrite ?length_app; cbn [length]; try done; try lia.
    + intros f' Hf'. rewrite Hcons in Hf'. injection Hf' as <-. right. by rewrite slot_0.
    + by rewrite Hcons.
  - apply Forall_cons_1 in Hg as [Hf0 Hg]. destruct m as [|m]; [simpl in Hm; lia|]. cbn [iter length] in *.
    eapply wp_read_skip; [exact Hv|exact Hr|exact Hf0|]. intros s1 r' Hr1.
    eapply wp_mono; [apply (IH m _ r'); try done; try lia; by eapply rview_set|].
    intros o s2 H. rewrite set_rx_idx_twice in H. unfold r' in H. rewrite slot_slot in H. exact H.
Qed.

Lemma wp_read fuel cap bases buf d r gar front last rest s :
  let n := length bases in
  rview d n r -> rring bases r (gar ++ (front ++ [last]) ++ rest) s ->
  Forall (fun f => sof f = false) gar -> is_frame front last ->
  (length front + 1 < n)%nat -> (length gar + length front + 1 < fuel)%nat ->
  (cap <= length buf)%nat -> Z.of_nat cap < 2 ^ 31 ->
  wp rx_env (emac_dev_read fuel (Z.of_nat cap) (Some buf) d) (fun o s' =>
    let got := take cap (frame_bytes (front ++ [last])) in
    let size := Z.land last.1 EMAC_RXD_LEN_MASK in
    let stop := slot n r (length gar + length front + 1) in
    o = Done (if Z.of_nat (length got) <? size then EMAC_SIZE_TOO_SMALL else EMAC_OK, Some size,
              Some (got ++ drop (length got) buf), set_rx_idx d (Z.of_nat stop)) /\
    rring bases stop rest s') s.
Proof.
  intros n Hv Hr Hg Hfr Hn Hf Hc Hc32. unfold emac_dev_read. rewrite (rview_idx _ _ _ Hv).
  eapply wp_seq; [apply (wp_read_garbage fuel cap bases buf fuel d r gar front last rest); (done || lia)|].
  intros o s' [-> Hr']. by split.
Qed.

(** C19: Receiving a frame, while the controller goes on receiving: the frame is
    the first in the ring, but for fragments that carry no start of frame (the
    end of a frame whose beginning is gone), and it fits into the ring with a
    descriptor to spare.  Those fragments are skipped, and the fragments of the
    frame are copied in order, up to the size of the buffer; the length reported
    is the one in the last descriptor, and success is reported exactly when that
    much has been copied.  All these descriptors are given back, and the frames
    behind them stay.  A frame that has begun and was not finished is not among
    the leftovers allowed: the frame behind one is spoilt ([rx_stale_fragment]). *)
Theorem rx_read_gathers fuel cap bases buf d r gar front last rest s :
  let n := length bases in
  rview d n r -> rring bases r (gar ++ (front ++ [last]) ++ rest) s ->
  Forall (fun f => sof f = false) gar -> is_frame front last ->
  (length front + 1 < n)%nat -> (length gar + length front + 1 < fuel)%nat ->
  (cap <= length buf)%nat -> Z.of_nat cap < 2 ^ 31 ->
  wp rx_env (emac_dev_read fuel (Z.of_nat cap) (Some buf) d) (fun o s' =>
    let got := take cap (frame_bytes (front ++ [last])) in
    let size := Z.land last.1 EMAC_RXD_LEN_MASK in
    let stop := slot n r (length gar + length front + 1) in
    o = Done (if Z.of_nat (length got) <? size then EMAC_SIZE_TOO_SMALL else EMAC_OK, Some size,
              Some (got ++ drop (length got) buf), set_rx_idx d (Z.of_nat stop)) /\
    rring bases stop rest s') s.
Proof. apply wp_read. Qed.

(** ** A frame behind an unfinished one

    A controller that has stopped receiving, as a function. *)

Definition rx_quiet (e : op emac) (s : rxs) : ans emac e * rxs :=
  match e as e return emac_ans e * rxs with
  | Reg e => (match e as e return hw_ans e with
      | Rd _ | Getchar => 0 | RdBuf _ => [] | NotifyWait _ => false | _ => tt end, s)
  | DescRd _ i f =>
      (default 0 ((match f with Addr => raddrs s | Status => rstats s end) !! Z.to_nat i), s)
  | DescWr _ i Addr v => (tt, Rxs (<[Z.to_nat i := v]> (raddrs s)) (rstats s) (rbufs s) (rpos s))
  | DescWr _ _ Status _ => (tt, s)
  | CopyFrom a n =>
      (default [] (i ← list_find (fun a' => Z.land a' EMAC_RXD_ADDR_MASK = a) (raddrs s);
                   b ← rbufs s !! i.1; Some (take (Z.to_nat n) b)), s)
  | CopyTo _ _ => (tt, s)
  | Callback _ _ => (tt, s)
  | Wakeup _ => (tt, s)
  end.

(** A ring of four descriptors, the controller about to fill descriptor
    [length fr]. *)
Definition sample_rx (fr : list (Z * list Z)) : rxs := {|
  raddrs := imap (fun i _ => Z.lor (0x20070000 + 128 * Z.of_nat i)
    (Z.lor (if decide (i < length fr)%nat then EMAC_RXD_OWNERSHIP else 0)
           (if decide (i = 3)%nat then EMAC_RXD_WRAP else 0))) (replicate 4 tt);
  rstats := map fst fr ++ replicate (4 - length fr) 0;
  rbufs := map snd fr ++ replicate (4 - length fr) (replicate 128 0);
  rpos := length fr
|}.

Definition sample_rx_device : emac_device :=
  EmacDevice EMAC 0 0x20070000 0 0 None None [] 4 0 8 0 0 0.

Definition bytes128 (a : nat -> Z) : list Z := map a (seq 0 128).

(** When the start of a frame follows fragments of a frame that was not
    finished, the skipping of the latter leaves the descriptor pointer at the
    last descriptor it has given back: the frame that is returned as received
    begins with the bytes of the unfinished frame [a] in the place of its own
    first fragment [b]. *)
Theorem rx_stale_fragment (a b c : nat -> Z) :
  let fr := [(EMAC_RXD_SOF, bytes128 a); (EMAC_RXD_SOF, bytes128 b); (Z.lor EMAC_RXD_EOF 256, bytes128 c)] in
  (run rx_quiet (emac_dev_read 4 256 (Some (replicate 256 0)) sample_rx_device) (sample_rx fr)).1 =
  Done (EMAC_OK, Some 256, Some (bytes128 a ++ bytes128 c), set_rx_idx sample_rx_device 3).
Proof. vm_compute. reflexivity. Qed.

Definition sample_fragments : list (Z * list Z) :=
  [(0, replicate 128 7); (EMAC_RXD_SOF, replicate 128 1); (Z.lor EMAC_RXD_EOF 200, replicate 128 2)].

Lemma sample_rx_ring : rring [0x20070000; 0x20070080; 0x20070100; 0x20070180] 0 sample_fragments
  (sample_rx sample_fragments).
Proof.
  exists []. split; try (done || (simpl; lia)).
  - apply NoDup_ListNoDup. cbv. repeat constructor; simpl; lia.
  - intros o Ho. do 4 (destruct o as [|o]; [eexists _, _, _, _; repeat split; reflexivity|]). simpl in Ho. lia.
Qed.

Lemma rx_read_gathers_witness :
  let bases := [0x20070000; 0x20070080; 0x20070100; 0x20070180] in
  let front := [(EMAC_RXD_SOF, replicate 128 1)] in
  let last := (Z.lor EMAC_RXD_EOF 200, replicate 128 2) in
  let buf := replicate 300 0 in
  wp rx_env (emac_dev_read 5 300 (Some buf) sample_rx_device) (fun o s' =>
    let got := take 300 (frame_bytes (front ++ [last])) in
    let size := Z.land last.1 EMAC_RXD_LEN_MASK in
    let stop := slot 4 0 (1 + 1 + 1) in
    o = Done (if Z.of_nat (length got) <? size then EMAC_SIZE_TOO_SMALL else EMAC_OK, Some size,
              Some (got ++ drop (length got) buf), set_rx_idx sample_rx_device (Z.of_nat stop)) /\
    rring bases stop [] s') (sample_rx sample_fragments).
Proof.
  intros bases front last buf.
  apply (rx_read_gathers 5 300 bases buf sample_rx_device 0 [(0, replicate 128 7)] front last []
    (sample_rx sample_fragments)); try (simpl; lia); try done.
  - exact sample_rx_ring.
  - by repeat constructor.
  - split; [eexists _, _; split; [reflexivity|]; split; [done|by repeat constructor]|].
    split; [by repeat constructor|done].
Defined.
