(* ===== verification/Rstc.v ===== *)
(** * The reset controller driver (src/src/ASF/sam/drivers/rstc/rstc.c)

    The mode register accepts a value only with the key in its top byte. *)

From S2P Require Import Prelude Prog.

Definition RSTC : Z := 0x400E1A00.
Definition RSTC_CR p := p + 0x00.
Definition RSTC_SR p := p + 0x04.
Definition RSTC_MR p := p + 0x08.

Definition RSTC_CR_PROCRST : Z := Z.shiftl 1 0.
Definition RSTC_CR_PERRST : Z := Z.shiftl 1 2.
Definition RSTC_CR_EXTRST : Z := Z.shiftl 1 3.
Definition RSTC_SR_RSTTYP_Msk : Z := Z.shiftl 0x7 8.
Definition RSTC_SR_NRSTL : Z := Z.shiftl 1 16.
Definition RSTC_MR_URSTEN : Z := Z.shiftl 1 0.
Definition RSTC_MR_URSTIEN : Z := Z.shiftl 1 4.
Definition RSTC_MR_ERSTL_Msk : Z := Z.shiftl 0xf 8.
Definition RSTC_MR_ERSTL (value : Z) : Z := Z.land RSTC_MR_ERSTL_Msk (u32 (Z.shiftl value 8)).
Definition RSTC_MR_KEY_Msk : Z := Z.shiftl 0xff 24.
Definition RSTC_KEY : Z := 0xA5000000.

Definition rstc_set_external_reset (p_rstc ul_length : Z) : prog hw unit :=
  let! mode := rd (RSTC_MR p_rstc) in
  let mode := Z.land mode (not32 (Z.lor RSTC_MR_ERSTL_Msk RSTC_MR_KEY_Msk)) in
  wr (RSTC_MR p_rstc) (Z.lor mode (Z.lor (RSTC_MR_ERSTL ul_length) RSTC_KEY)).

Definition rstc_enable_user_reset (p_rstc : Z) : prog hw unit :=
  let! mode := rd (RSTC_MR p_rstc) in
  wr (RSTC_MR p_rstc) (Z.lor (Z.land mode (not32 RSTC_MR_KEY_Msk)) (Z.lor RSTC_MR_URSTEN RSTC_KEY)).

Definition rstc_disable_user_reset (p_rstc : Z) : prog hw unit :=
  let! mode := rd (RSTC_MR p_rstc) in
  wr (RSTC_MR p_rstc) (Z.lor (Z.land mode (not32 (Z.lor RSTC_MR_URSTEN RSTC_MR_KEY_Msk))) RSTC_KEY).

Definition rstc_enable_user_reset_interrupt (p_rstc : Z) : prog hw unit :=
  let! mode := rd (RSTC_MR p_rstc) in
  wr (RSTC_MR p_rstc) (Z.lor (Z.land mode (not32 RSTC_MR_KEY_Msk)) (Z.lor RSTC_MR_URSTIEN RSTC_KEY)).

Definition rstc_disable_user_reset_interrupt (p_rstc : Z) : prog hw unit :=
  let! mode := rd (RSTC_MR p_rstc) in
  wr (RSTC_MR p_rstc) (Z.lor (Z.land mode (not32 (Z.lor RSTC_MR_URSTIEN RSTC_MR_KEY_Msk))) RSTC_KEY).

Definition rstc_start_software_reset (p_rstc : Z) : prog hw unit :=
  wr (RSTC_CR p_rstc) (Z.lor (Z.lor RSTC_KEY RSTC_CR_PROCRST) RSTC_CR_PERRST).

Definition rstc_reset_extern (p_rstc : Z) : prog hw unit :=
  wr (RSTC_CR p_rstc) (Z.lor RSTC_KEY RSTC_CR_EXTRST).

Definition rstc_get_status (p_rstc : Z) : prog hw Z := rd (RSTC_SR p_rstc).

Definition rstc_get_reset_cause (p_rstc : Z) : prog hw Z :=
  let! sr := rd (RSTC_SR p_rstc) in Ret (Z.land sr RSTC_SR_RSTTYP_Msk).
