(* ===== verification/Tc.v ===== *)
(** * The timer counter driver (src/src/ASF/sam/drivers/tc/tc.c)

    The functions that the SAM3X compiles.  [Assert] is empty in this build, so
    a channel is whatever the caller gives. *)

From S2P Require Import Prelude Prog.

Definition TC_CHANNEL (p channel : Z) : Z := p + 0x40 * channel.
Definition TC_CCR c := c + 0x00.
Definition TC_CMR c := c + 0x04.
Definition TC_SMMR c := c + 0x08.
Definition TC_CV c := c + 0x10.
Definition TC_RA c := c + 0x14.
Definition TC_RB c := c + 0x18.
Definition TC_RC c := c + 0x1C.
Definition TC_SR c := c + 0x20.
Definition TC_IER c := c + 0x24.
Definition TC_IDR c := c + 0x28.
Definition TC_IMR c := c + 0x2C.
Definition TC_BCR p := p + 0xC0.
Definition TC_BMR p := p + 0xC4.
Definition TC_QIER p := p + 0xC8.
Definition TC_QIDR p := p + 0xCC.
Definition TC_QIMR p := p + 0xD0.
Definition TC_QISR p := p + 0xD4.
Definition TC_WPMR p := p + 0xE4.

Definition TC_CCR_CLKEN : Z := Z.shiftl 0x1 0.
Definition TC_CCR_CLKDIS : Z := Z.shiftl 0x1 1.
Definition TC_CCR_SWTRG : Z := Z.shiftl 0x1 2.
Definition TC_BCR_SYNC : Z := Z.shiftl 0x1 0.
Definition TC_WPMR_WPEN : Z := Z.shiftl 0x1 0.
Definition TC_WPMR_WPKEY_Pos : Z := 8.
Definition TC_WPMR_WPKEY_Msk : Z := Z.shiftl 0xffffff TC_WPMR_WPKEY_Pos.
Definition TC_WPMR_WPKEY (value : Z) : Z :=
  Z.land TC_WPMR_WPKEY_Msk (u32 (Z.shiftl value TC_WPMR_WPKEY_Pos)).
Definition TC_WPMR_WPKEY_PASSWD : Z := TC_WPMR_WPKEY 0x54494D.

(** ** Channels *)

(** Reading the status register clears it. *)
Definition tc_init (p_tc ul_channel ul_mode : Z) : prog hw unit :=
  let tc_channel := TC_CHANNEL p_tc ul_channel in
  wr (TC_CCR tc_channel) TC_CCR_CLKDIS;;
  wr (TC_IDR tc_channel) 0xFFFFFFFF;;
  let! _ := rd (TC_SR tc_channel) in
  wr (TC_CMR tc_channel) ul_mode.

Definition tc_sync_trigger (p_tc : Z) : prog hw unit := wr (TC_BCR p_tc) TC_BCR_SYNC.

Definition tc_set_block_mode (p_tc ul_blockmode : Z) : prog hw unit := wr (TC_BMR p_tc) ul_blockmode.

Definition tc_init_2bit_gray (p_tc ul_channel ul_steppermode : Z) : prog hw Z :=
  wr (TC_SMMR (TC_CHANNEL p_tc ul_channel)) ul_steppermode;; Ret 0.

Definition tc_start (p_tc ul_channel : Z) : prog hw unit :=
  wr (TC_CCR (TC_CHANNEL p_tc ul_channel)) (Z.lor TC_CCR_CLKEN TC_CCR_SWTRG).

Definition tc_stop (p_tc ul_channel : Z) : prog hw unit :=
  wr (TC_CCR (TC_CHANNEL p_tc ul_channel)) TC_CCR_CLKDIS.

Definition tc_read_cv (p_tc ul_channel : Z) : prog hw Z := rd (TC_CV (TC_CHANNEL p_tc ul_channel)).
Definition tc_read_ra (p_tc ul_channel : Z) : prog hw Z := rd (TC_RA (TC_CHANNEL p_tc ul_channel)).
Definition tc_read_rb (p_tc ul_channel : Z) : prog hw Z := rd (TC_RB (TC_CHANNEL p_tc ul_channel)).
Definition tc_read_rc (p_tc ul_channel : Z) : prog hw Z := rd (TC_RC (TC_CHANNEL p_tc ul_channel)).

Definition tc_write_ra (p_tc ul_channel ul_value : Z) : prog hw unit :=
  wr (TC_RA (TC_CHANNEL p_tc ul_channel)) ul_value.
Definition tc_write_rb (p_tc ul_channel ul_value : Z) : prog hw unit :=
  wr (TC_RB (TC_CHANNEL p_tc ul_channel)) ul_value.
Definition tc_write_rc (p_tc ul_channel ul_value : Z) : prog hw unit :=
  wr (TC_RC (TC_CHANNEL p_tc ul_channel)) ul_value.

(** ** Interrupts *)

Definition tc_enable_interrupt (p_tc ul_channel ul_sources : Z) : prog hw unit :=
  wr (TC_IER (TC_CHANNEL p_tc ul_channel)) ul_sources.
Definition tc_disable_interrupt (p_tc ul_channel ul_sources : Z) : prog hw unit :=
  wr (TC_IDR (TC_CHANNEL p_tc ul_channel)) ul_sources.
Definition tc_get_interrupt_mask (p_tc ul_channel : Z) : prog hw Z :=
  rd (TC_IMR (TC_CHANNEL p_tc ul_channel)).
Definition tc_get_status (p_tc ul_channel : Z) : prog hw Z := rd (TC_SR (TC_CHANNEL p_tc ul_channel)).

Definition tc_enable_qdec_interrupt (p_tc ul_sources : Z) : prog hw unit := wr (TC_QIER p_tc) ul_sources.
Definition tc_disable_qdec_interrupt (p_tc ul_sources : Z) : prog hw unit := wr (TC_QIDR p_tc) ul_sources.
Definition tc_get_qdec_interrupt_mask (p_tc : Z) : prog hw Z := rd (TC_QIMR p_tc).
Definition tc_get_qdec_interrupt_status (p_tc : Z) : prog hw Z := rd (TC_QISR p_tc).

Definition tc_set_writeprotect (p_tc ul_enable : Z) : prog hw unit :=
  if negb (ul_enable =? 0) then wr (TC_WPMR p_tc) (Z.lor TC_WPMR_WPKEY_PASSWD TC_WPMR_WPEN)
  else wr (TC_WPMR p_tc) TC_WPMR_WPKEY_PASSWD.

(** ** The clock divisor *)

Definition TC_DIV_FACTOR : Z := 65536.
Definition FREQ_SLOW_CLOCK_EXT : Z := 32768.

Definition divisors (ul_boardmck : Z) : list Z := [2; 8; 32; 128; ul_boardmck / FREQ_SLOW_CLOCK_EXT].

(** The loop from index [i] on, [ds] being the divisors from there: the divisor
    and its index, or [None] for the result 0. *)
Fixpoint find_divisor (ul_freq ul_mck i : Z) (ds : list Z) : outcome (option (Z * Z)) :=
  match ds with
  | [] => Done None
  | d :: ds =>
    if d =? 0 then Stop Undefined
    else
      let ul_high := ul_mck / d in
      let ul_low := ul_high / TC_DIV_FACTOR in
      if ul_high <? ul_freq then Done None
      else if ul_low <=? ul_freq then Done (Some (d, i))
      else find_divisor ul_freq ul_mck (i + 1) ds
  end.

(** The result, and what is stored through [p_uldiv] and [p_ultcclks]. *)
Definition tc_find_mck_divisor (ul_freq ul_mck ul_boardmck : Z) : outcome (Z * option (Z * Z)) :=
  match find_divisor ul_freq ul_mck 0 (divisors ul_boardmck) with
  | Done (Some r) => Done (1, Some r)
  | Done None => Done (0, None)
  | Stop h => Stop h
  end.

(** ** What the divisor is *)

(** The range that the documentation of the function promises. *)
Definition suits (freq mck d : Z) : Prop := mck / (d * 65536) <= freq <= mck / d.

Definition chosen (freq mck : Z) (ds : list Z) (i : Z) (r : option (Z * Z)) : Prop :=
  match r with
  | Some (d, j) =>
    i <= j /\ ds !! Z.to_nat (j - i) = Some d /\ suits freq mck d /\
    (forall d', d' ∈ ds -> suits freq mck d' -> d <= d')
  | None => forall d, d ∈ ds -> ~ suits freq mck d
  end.

Lemma suits_bounds freq mck d : 0 < d -> suits freq mck d <-> mck / d / 65536 <= freq <= mck / d.
Proof. intros Hd. unfold suits. by rewrite Z.div_div by lia. Qed.

Definition found (r : option (Z * Z)) : Z := match r with Some _ => 1 | None => 0 end.

(** Divisors that ascend. *)
Fixpoint ascending (ds : list Z) : Prop :=
  match ds with
  | [] => True
  | d :: ds' => 0 < d /\ (forall d', d' ∈ ds' -> d <= d') /\ ascending ds'
  end.

Lemma div_antitone mck d e : 0 <= mck -> 0 < d <= e -> mck / e <= mck / d.
Proof. intros Hm Hd. apply Z.div_le_compat_l; lia. Qed.

Lemma find_divisor_chosen freq mck i ds : 0 <= mck -> ascending ds ->
  exists r, find_divisor freq mck i ds = Done r /\ chosen freq mck ds i r.
Proof.
  intros Hm. revert i. induction ds as [|d ds IH]; intros i Ha; cbn [find_divisor].
  { exists None. split; [done|]. intros d Hd. by apply elem_of_nil in Hd. }
  destruct Ha as (Hd & Hle & Ha). rewrite (proj2 (Z.eqb_neq _ _)) by lia. cbv zeta.
  unfold TC_DIV_FACTOR. destruct (Z.ltb_spec (mck / d) freq) as [Hhigh|Hhigh].
  { exists None. split; [done|]. intros d' [->|Hd']%elem_of_cons [_ Hs]; [lia|].
    pose proof (div_antitone mck d d' Hm ltac:(split; [lia|by apply Hle])). lia. }
  destruct (Z.leb_spec (mck / d / 65536) freq) as [Hlow|Hlow].
  { exists (Some (d, i)). split; [done|]. cbn [chosen]. rewrite Z.sub_diag. split; [lia|]. split; [done|].
    split; [by apply suits_bounds|]. intros d' [->|Hd']%elem_of_cons _; [lia|by apply Hle]. }
  assert (~ suits freq mck d) as Hno by (rewrite suits_bounds by lia; lia).
  destruct (IH (i + 1) Ha) as (r & Hr & Hc). exists r. split; [done|].
  destruct r as [[e j]|]; cbn [chosen] in *.
  - destruct Hc as (Hj & He & Hs & Hmin). split; [lia|]. split; [|split; [done|]].
    + replace (Z.to_nat (j - i)) with (S (Z.to_nat (j - (i + 1)))) by lia. done.
    + intros d' [->|Hd']%elem_of_cons Hs'; [done|by apply Hmin].
  - intros d' [->|Hd']%elem_of_cons; [done|by apply Hc].
Qed.

(** The timer divisor is the one promised.  For a board clock of 2^22 Hz
    at least, [tc_find_mck_divisor] returns 1 with the lowest divisor of the
    five for which MCK / (DIV * 65536) <= freq <= MCK / DIV, and with the
    index that selects it, and returns 0 exactly when there is none. *)
Theorem tc_divisor_is_best ul_freq ul_mck ul_boardmck :
  0 <= ul_mck -> 2 ^ 22 <= ul_boardmck ->
  exists r, tc_find_mck_divisor ul_freq ul_mck ul_boardmck = Done (found r, r) /\
    chosen ul_freq ul_mck (divisors ul_boardmck) 0 r.
Proof.
  intros Hm Hb.
  destruct (find_divisor_chosen ul_freq ul_mck 0 (divisors ul_boardmck)) as (r & Hr & Hc); [done| |].
  - assert (128 <= ul_boardmck / FREQ_SLOW_CLOCK_EXT)
      by (unfold FREQ_SLOW_CLOCK_EXT; apply Z.div_le_lower_bound; lia).
    unfold divisors, ascending. repeat setoid_rewrite list_elem_of_In. cbn [In].
    repeat split; try lia; intros d' Hd'; lia.
  - exists r. unfold tc_find_mck_divisor. rewrite Hr. by destruct r.
Qed.

Lemma tc_divisor_is_best_witness :
  (0 <= 84000000 /\ 2 ^ 22 <= 84000000) /\
  exists r, tc_find_mck_divisor 1000 84000000 84000000 = Done (found r, r) /\
    chosen 1000 84000000 (divisors 84000000) 0 r.
Proof. split; [lia|]. apply tc_divisor_is_best; lia. Defined.
