(* ===== verification/EthPhy.v ===== *)
(** * The Ethernet PHY (src/src/ASF/sam/components/ethernet_phy/dm9161a/)

    ethernet_phy.c: finding the PHY on the management port, negotiating the
    link, and setting the controller to what has been negotiated. *)

From S2P Require Import Prelude Prog Emac.

Definition MII_BMCR : Z := 0.
Definition MII_BMSR : Z := 1.
Definition MII_PHYID1 : Z := 2.
Definition MII_ANAR : Z := 4.
Definition MII_ANLPAR : Z := 5.
Definition MII_DSCSR : Z := 17.

Definition MII_RESET : Z := Z.shiftl 1 15.
Definition MII_LOOPBACK : Z := Z.shiftl 1 14.
Definition MII_SPEED_SELECT : Z := Z.shiftl 1 13.
Definition MII_AUTONEG : Z := Z.shiftl 1 12.
Definition MII_POWER_DOWN : Z := Z.shiftl 1 11.
Definition MII_ISOLATE : Z := Z.shiftl 1 10.
Definition MII_RESTART_AUTONEG : Z := Z.shiftl 1 9.
Definition MII_DUPLEX_MODE : Z := Z.shiftl 1 8.
Definition MII_100BASE_TX_FD : Z := Z.shiftl 1 14.
Definition MII_100BASE_T4_HD : Z := Z.shiftl 1 13.
Definition MII_10BASE_T_FD : Z := Z.shiftl 1 12.
Definition MII_10BASE_T_HD : Z := Z.shiftl 1 11.
Definition MII_AUTONEG_COMP : Z := Z.shiftl 1 5.
Definition MII_LINK_STATUS : Z := Z.shiftl 1 2.
Definition MII_OUI_MSB : Z := 0x0181.
Definition MII_TX_FDX : Z := Z.shiftl 1 8.
Definition MII_TX_HDX : Z := Z.shiftl 1 7.
Definition MII_10_FDX : Z := Z.shiftl 1 6.
Definition MII_10_HDX : Z := Z.shiftl 1 5.
Definition MII_AN_IEEE_802_3 : Z := 0x0001.
Definition MII_100FDX : Z := Z.shiftl 1 15.
Definition MII_100HDX : Z := Z.shiftl 1 14.
Definition MII_10FDX : Z := Z.shiftl 1 13.
Definition MII_10HDX : Z := Z.shiftl 1 12.

Definition ETH_PHY_MAX_ADDR : Z := 31.
Definition ETH_PHY_RETRY_MAX : Z := 1000000.
Definition ETH_PHY_TIMEOUT : Z := 10.
Definition BOARD_EMAC_MODE_MII : Z := 0.
Definition ETH_PHY_MODE : Z := BOARD_EMAC_MODE_MII.

Section phy.
Context (fuel : nat) (p_emac : Z).

(** A variable keeps its value when the read stores none. *)
Definition phy_read_into (uc_phy_addr reg old : Z) : prog hw (Z * Z) :=
  let! (rc, v) := emac_phy_read fuel p_emac uc_phy_addr reg in Ret (rc, default old v).

(** [n] addresses are left to be tried. *)
Fixpoint find_phy (n : nat) (uc_phy_address ul_value : Z) : prog hw (Z * Z * Z) :=
  match n with
  | O => Ret (0xFF, uc_phy_address, ul_value)
  | S n =>
    let uc_phy_address := Z.land (uc_phy_address + 1) 0x1F in
    let! (_, ul_value) := phy_read_into uc_phy_address MII_PHYID1 ul_value in
    if ul_value =? MII_OUI_MSB then Ret (uc_phy_address, uc_phy_address, ul_value)
    else find_phy n uc_phy_address ul_value
  end.

Definition ethernet_phy_find_valid (uc_phy_addr addrStart : Z) : prog hw Z :=
  emac_enable_management p_emac 1;;
  let! (_, ul_value) := phy_read_into uc_phy_addr MII_PHYID1 0 in
  let! (rc, uc_phy_address, ul_value) :=
    (if negb (ul_value =? MII_OUI_MSB)
     then find_phy (Z.to_nat (ETH_PHY_MAX_ADDR + 1 - addrStart)) uc_phy_addr ul_value
     else Ret (uc_phy_addr, uc_phy_addr, ul_value)) in
  emac_enable_management p_emac 0;;
  (if negb (rc =? 0xFF) then
     let! _ := phy_read_into uc_phy_address MII_DSCSR ul_value in Ret tt
   else Ret tt);;
  Ret rc.

(** One round of the wait for the end of the reset; [inr] is the time left. *)
Definition reset_round (uc_phy_addr : Z) (s : Z * Z) : prog hw ((Z * Z) + Z) :=
  let '(ul_bmcr, ul_timeout) := s in
  let! (_, ul_bmcr) := phy_read_into uc_phy_addr MII_BMCR ul_bmcr in
  let ul_timeout := u32 (ul_timeout - 1) in
  Ret (if has_bits ul_bmcr MII_RESET && negb (ul_timeout =? 0)
       then inl (ul_bmcr, ul_timeout) else inr ul_timeout).

Definition ethernet_phy_reset (uc_phy_addr : Z) : prog hw Z :=
  emac_enable_management p_emac 1;;
  let! _ := emac_phy_write fuel p_emac uc_phy_addr MII_BMCR MII_RESET in
  let! ul_timeout := iter fuel (reset_round uc_phy_addr) (MII_RESET, ETH_PHY_TIMEOUT) in
  emac_enable_management p_emac 0;;
  Ret (if ul_timeout =? 0 then EMAC_OK else EMAC_TIMEOUT).

Definition ethernet_phy_init (uc_phy_addr mck : Z) : prog hw Z :=
  let! uc_rc := emac_set_clock p_emac mck in
  if negb (uc_rc =? EMAC_OK) then Ret 0
  else
    let! uc_phy := ethernet_phy_find_valid uc_phy_addr 0 in
    if uc_phy =? 0xFF then Ret 0
    else
      (if negb (uc_phy =? uc_phy_addr) then
         let! _ := ethernet_phy_reset uc_phy_addr in Ret tt
       else Ret tt);;
      Ret uc_rc.

(** [if (rc != EMAC_OK) { emac_enable_management(p_emac, false); return rc; }] *)
Definition or_leave {A} (r : Z * A) (next : A -> prog hw Z) : prog hw Z :=
  let '(rc, a) := r in
  if negb (rc =? EMAC_OK) then emac_enable_management p_emac 0;; Ret rc else next a.

(** The uninitialised locals are arguments. *)
Definition ethernet_phy_set_link (uc_speed uc_fd : Z) (uc_phy_addr uc_apply_setting_flag : Z)
    : prog hw Z :=
  emac_enable_management p_emac 1;;
  let! r := phy_read_into uc_phy_addr MII_BMSR 0 in
  or_leave r (fun ul_stat1 =>
    if Z.land ul_stat1 MII_LINK_STATUS =? 0 then
      emac_enable_management p_emac 0;; Ret EMAC_INVALID
    else if uc_apply_setting_flag =? 0 then
      emac_enable_management p_emac 0;; Ret EMAC_OK
    else
      let! r := phy_read_into uc_phy_addr MII_DSCSR 0 in
      or_leave r (fun ul_stat2 =>
        let '(uc_speed, uc_fd) :=
          if has_bits ul_stat1 MII_100BASE_TX_FD && has_bits ul_stat2 MII_100FDX
          then (1, 1) else (uc_speed, uc_fd) in
        let '(uc_speed, uc_fd) :=
          if has_bits ul_stat1 MII_10BASE_T_FD && has_bits ul_stat2 MII_10FDX
          then (0, 1) else (uc_speed, uc_fd) in
        let '(uc_speed, uc_fd) :=
          if has_bits ul_stat1 MII_100BASE_T4_HD && has_bits ul_stat2 MII_100HDX
          then (1, 0) else (uc_speed, uc_fd) in
        let '(uc_speed, uc_fd) :=
          if has_bits ul_stat1 MII_10BASE_T_HD && has_bits ul_stat2 MII_10HDX
          then (0, 0) else (uc_speed, uc_fd) in
        emac_set_speed p_emac uc_speed;;
        emac_enable_full_duplex p_emac uc_fd;;
        emac_enable_management p_emac 0;;
        Ret EMAC_OK)).

Definition phy_write (uc_phy_addr reg v : Z) : prog hw (Z * unit) :=
  let! rc := emac_phy_write fuel p_emac uc_phy_addr reg v in Ret (rc, tt).

(** Waiting for the end of the negotiation; [inr rc] leaves with [rc]. *)
Definition negotiate_round (uc_phy_addr ul_retry_max ul_retry_count : Z) : prog hw (Z + Z) :=
  let! (rc, ul_value) := phy_read_into uc_phy_addr MII_BMSR 0 in
  if negb (rc =? EMAC_OK) then Ret (inr rc)
  else if has_bits ul_value MII_AUTONEG_COMP then Ret (inr EMAC_OK)
  else if negb (ul_retry_max =? 0) then
    let ul_retry_count := u32 (ul_retry_count + 1) in
    Ret (if ul_retry_max <=? ul_retry_count then inr EMAC_TIMEOUT else inl ul_retry_count)
  else Ret (inl ul_retry_count).

Definition anar : Z :=
  Z.lor (Z.lor (Z.lor (Z.lor MII_TX_FDX MII_TX_HDX) MII_10_FDX) MII_10_HDX) MII_AN_IEEE_802_3.

(** Speed and duplex for the abilities both sides have. *)
Definition link_mode (common : Z) : Z * Z :=
  if has_bits common MII_TX_FDX then (1, 1)
  else if has_bits common MII_10_FDX then (0, 1)
  else if has_bits common MII_TX_HDX then (1, 0)
  else if has_bits common MII_10_HDX then (0, 0)
  else (0, 0).

Definition ethernet_phy_auto_negotiate (uc_phy_addr : Z) : prog hw Z :=
  emac_enable_management p_emac 1;;
  let! r := phy_read_into uc_phy_addr MII_BMCR 0 in
  or_leave r (fun ul_value =>
    let ul_value := Z.land ul_value (not32 MII_AUTONEG) in
    let ul_value := Z.land ul_value (not32 (Z.lor MII_LOOPBACK MII_POWER_DOWN)) in
    let ul_value := Z.lor ul_value MII_ISOLATE in
    let! r := phy_write uc_phy_addr MII_BMCR ul_value in
    or_leave r (fun _ =>
      let! r := phy_write uc_phy_addr MII_ANAR anar in
      or_leave r (fun _ =>
        let! r := phy_read_into uc_phy_addr MII_BMCR ul_value in
        or_leave r (fun ul_value =>
          let ul_value := Z.lor ul_value (Z.lor (Z.lor MII_SPEED_SELECT MII_AUTONEG) MII_DUPLEX_MODE) in
          let! r := phy_write uc_phy_addr MII_BMCR ul_value in
          or_leave r (fun _ =>
            let ul_value := Z.lor ul_value MII_RESTART_AUTONEG in
            let ul_value := Z.land ul_value (not32 MII_ISOLATE) in
            let! r := phy_write uc_phy_addr MII_BMCR ul_value in
            or_leave r (fun _ =>
              let! rc := iter fuel (negotiate_round uc_phy_addr ETH_PHY_RETRY_MAX) 0 in
              or_leave (rc, tt) (fun _ =>
                let! r := phy_read_into uc_phy_addr MII_ANLPAR 0 in
                or_leave r (fun ul_phy_analpar =>
                  let '(uc_speed, uc_fd) := link_mode (Z.land anar ul_phy_analpar) in
                  emac_set_speed p_emac uc_speed;;
                  emac_enable_full_duplex p_emac uc_fd;;
                  emac_enable_rmii p_emac ETH_PHY_MODE;;
                  emac_enable_transceiver_clock p_emac 1;;
                  emac_enable_management p_emac 0;;
                  Ret EMAC_OK)))))))).
End phy.
