(* ===== verification/EthPhySpec.v ===== *)
(** * Negotiating the Ethernet link

    The management functions against any PHY that completes its transfers,
    with any answers. *)

From S2P Require Import Prelude Prog Emac EthPhy.
#[local] Open Scope Z_scope.

(** ** The management port

    [busy] bounds the polls until a transfer is complete, [log] has the
    transfers, oldest first: the word written to the maintenance register, and
    what was read from it. *)
Record port := Port {
  ncr : Z;
  ncfgr : Z;
  usrio : Z;
  busy : nat;
  log : list (Z + Z)
}.

Definition set_busy (s : port) (b : nat) : port := Port (ncr s) (ncfgr s) (usrio s) b (log s).

Section port.
Context (k : nat).

Definition port_step (e : op hw) (s : port) (x : ans hw e) (s' : port) : Prop :=
  match e as e return hw_ans e -> Prop with
  | Rd a => fun x =>
      if a =? EMAC_NCR EMAC then x = ncr s /\ s' = s
      else if a =? EMAC_NCFGR EMAC then x = ncfgr s /\ s' = s
      else if a =? EMAC_USRIO EMAC then x = usrio s /\ s' = s
      else if a =? EMAC_NSR EMAC then
        s' = set_busy s (pred (busy s)) /\ (busy s = 0%nat -> has_bits x EMAC_NSR_IDLE = true)
      else if a =? EMAC_MAN EMAC then
        s' = Port (ncr s) (ncfgr s) (usrio s) (busy s) (log s ++ [inr x])
      else s' = s
  | Wr a v => fun _ =>
      if a =? EMAC_NCR EMAC then s' = Port v (ncfgr s) (usrio s) (busy s) (log s)
      else if a =? EMAC_NCFGR EMAC then s' = Port (ncr s) v (usrio s) (busy s) (log s)
      else if a =? EMAC_USRIO EMAC then s' = Port (ncr s) (ncfgr s) v (busy s) (log s)
      else if a =? EMAC_MAN EMAC then
        exists b, (b <= k)%nat /\ s' = Port (ncr s) (ncfgr s) (usrio s) b (log s ++ [inl v])
      else s' = s
  | _ => fun _ => s' = s
  end x.

Definition port_env : env hw port := {| req _ _ := True; step := port_step |}.

(** The controller's registers are as in [s]. *)
Definition same_regs (s s' : port) : Prop :=
  ncr s' = ncr s /\ ncfgr s' = ncfgr s /\ usrio s' = usrio s.

(** The word that starts a transfer. *)
Definition man_word (phy reg rw data : Z) : Z :=
  Z.lor (Z.lor (Z.lor (Z.lor (Z.lor (EMAC_MAN_CODE EMAC_MAN_CODE_VALUE)
    (EMAC_MAN_SOF EMAC_MAN_SOF_VALUE)) (EMAC_MAN_PHYA phy)) (EMAC_MAN_REGA reg))
    (EMAC_MAN_RW (if negb (rw =? 0) then EMAC_MAN_RW_TYPE else EMAC_MAN_READ_ONLY)))
    (EMAC_MAN_DATA data).

Lemma wp_rd_nsr {A} (kont : Z -> prog hw A) Q s :
  (forall x, (busy s = 0%nat -> has_bits x EMAC_NSR_IDLE = true) ->
     wp port_env (kont x) Q (set_busy s (pred (busy s)))) ->
  wp port_env (bind (rd (EMAC_NSR EMAC)) kont) Q s.
Proof.
  intros H. split; [done|]. intros x s' Hs.
  change (s' = set_busy s (pred (busy s)) /\ (busy s = 0%nat -> has_bits x EMAC_NSR_IDLE = true)) in Hs.
  destruct Hs as [-> Hi]. by apply H.
Qed.

Lemma wp_rd_man {A} (kont : Z -> prog hw A) Q s :
  (forall x, wp port_env (kont x) Q (Port (ncr s) (ncfgr s) (usrio s) (busy s) (log s ++ [inr x]))) ->
  wp port_env (bind (rd (EMAC_MAN EMAC)) kont) Q s.
Proof.
  intros H. split; [done|]. intros x s' Hs.
  change (s' = Port (ncr s) (ncfgr s) (usrio s) (busy s) (log s ++ [inr x])) in Hs. subst. by apply H.
Qed.

Lemma wp_wr_man {A} v (kont : unit -> prog hw A) Q s :
  (forall b, (b <= k)%nat ->
     wp port_env (kont tt) Q (Port (ncr s) (ncfgr s) (usrio s) b (log s ++ [inl v]))) ->
  wp port_env (bind (wr (EMAC_MAN EMAC) v) kont) Q s.
Proof.
  intros H. split; [done|]. intros [] s' Hs.
  change (exists b, (b <= k)%nat /\ s' = Port (ncr s) (ncfgr s) (usrio s) b (log s ++ [inl v])) in Hs.
  destruct Hs as (b & Hb & ->). by apply H.
Qed.

(** ** Switching bits *)

Definition switched (v m e : Z) : Z := if negb (e =? 0) then Z.lor v m else Z.land v (not32 m).

Lemma wp_switch_ncr {A} m e (kont : unit -> prog hw A) Q s :
  wp port_env (kont tt) Q (Port (switched (ncr s) m e) (ncfgr s) (usrio s) (busy s) (log s)) ->
  wp port_env (bind (switch (EMAC_NCR EMAC) m e) kont) Q s.
Proof.
  intros H. unfold switch, switched in *. destruct (negb (e =? 0)); split; try done; intros x s' Hs;
    change (x = ncr s /\ s' = s) in Hs; destruct Hs as [-> ->]; split; try done; intros [] s' Hs;
    match type of Hs with step _ (Wr _ ?w) _ _ _ =>
      change (s' = Port w (ncfgr s) (usrio s) (busy s) (log s)) in Hs end; by subst.
Qed.

Lemma wp_switch_ncfgr {A} m e (kont : unit -> prog hw A) Q s :
  wp port_env (kont tt) Q (Port (ncr s) (switched (ncfgr s) m e) (usrio s) (busy s) (log s)) ->
  wp port_env (bind (switch (EMAC_NCFGR EMAC) m e) kont) Q s.
Proof.
  intros H. unfold switch, switched in *. destruct (negb (e =? 0)); split; try done; intros x s' Hs;
    change (x = ncfgr s /\ s' = s) in Hs; destruct Hs as [-> ->]; split; try done; intros [] s' Hs;
    match type of Hs with step _ (Wr _ ?w) _ _ _ =>
      change (s' = Port (ncr s) w (usrio s) (busy s) (log s)) in Hs end; by subst.
Qed.

Lemma wp_switch_usrio {A} m e (kont : unit -> prog hw A) Q s :
  wp port_env (kont tt) Q (Port (ncr s) (ncfgr s) (switched (usrio s) m e) (busy s) (log s)) ->
  wp port_env (bind (switch (EMAC_USRIO EMAC) m e) kont) Q s.
Proof.
  intros H. unfold switch, switched in *. destruct (negb (e =? 0)); split; try done; intros x s' Hs;
    change (x = usrio s /\ s' = s) in Hs; destruct Hs as [-> ->]; split; try done; intros [] s' Hs;
    match type of Hs with step _ (Wr _ ?w) _ _ _ =>
      change (s' = Port (ncr s) (ncfgr s) w (busy s) (log s)) in Hs end; by subst.
Qed.

(** ** Transfers *)

Lemma wp_wait_idle {A} n (kont : unit -> prog hw A) Q s : (busy s < n)%nat ->
  (forall b, (b <= busy s)%nat -> wp port_env (kont tt) Q (set_busy s b)) ->
  wp port_env (bind (iter n (wait_idle_round EMAC) tt) kont) Q s.
Proof.
  revert s. induction n as [|n IH]; intros s Hb H; [lia|]. cbn [iter]. unfold wait_idle_round at 1.
  step_in. step_in. apply wp_rd_nsr. intros x Hx. cbn [bind].
  destruct (Z.eqb_spec (Z.land x EMAC_NSR_IDLE) 0) as [H0|H0]; cbn [bind]; [|apply H; lia].
  destruct (busy s) as [|b] eqn:Hbs; [specialize (Hx eq_refl); apply has_bits_true in Hx; done|].
  apply IH; [simpl; lia|]. intros b' Hb'. apply H. simpl in Hb'. lia.
Qed.

Lemma idle_test x : (0 <? Z.land x EMAC_NSR_IDLE) = has_bits x EMAC_NSR_IDLE.
Proof.
  unfold has_bits. assert (0 <= Z.land x EMAC_NSR_IDLE) by (apply Z.land_nonneg; by right).
  destruct (Z.ltb_spec 0 (Z.land x EMAC_NSR_IDLE)); symmetry; [apply negb_true_iff, Z.eqb_neq|apply negb_false_iff, Z.eqb_eq]; lia.
Qed.

Lemma wp_wait_phy {A} n count (kont : Z -> prog hw A) Q s : (busy s < n)%nat ->
  (forall b, (b <= busy s)%nat -> wp port_env (kont EMAC_OK) Q (set_busy s b)) ->
  (forall b, (b <= busy s)%nat -> wp port_env (kont EMAC_TIMEOUT) Q (set_busy s b)) ->
  wp port_env (bind (iter n (wait_phy_round EMAC MAC_PHY_RETRY_MAX) count) kont) Q s.
Proof.
  revert count s. induction n as [|n IH]; intros count s Hb Hok Hto; [lia|]. cbn [iter].
  unfold wait_phy_round at 1, emac_is_phy_idle. do 3 step_in. apply wp_rd_nsr. intros x Hx. cbn [bind].
  rewrite idle_test. destruct (has_bits x EMAC_NSR_IDLE); cbn [bind]; [apply Hok; lia|].
  change (MAC_PHY_RETRY_MAX =? 0) with false. cbn [bind].
  destruct (busy s) as [|b] eqn:Hbs; [by specialize (Hx eq_refl)|].
  destruct (MAC_PHY_RETRY_MAX <=? _); cbn [bind]; [apply Hto; simpl; lia|].
  apply IH; [simpl; lia|..]; intros b' Hb'; simpl in Hb'; [apply Hok|apply Hto]; lia.
Qed.

Context (fuel : nat) (Hfuel : (k < fuel)%nat).

(** The transfers before and after. *)
Definition after (s : port) (b : nat) (l : list (Z + Z)) : port :=
  Port (ncr s) (ncfgr s) (usrio s) b (log s ++ l).

Lemma wp_phy_read {A} phy reg old (kont : Z * Z -> prog hw A) Q s : (busy s <= k)%nat ->
  (forall b v, (b <= k)%nat ->
     wp port_env (kont (EMAC_OK, u16 v)) Q (after s b [inl (man_word phy reg 1 0); inr v])) ->
  (forall b, (b <= k)%nat ->
     wp port_env (kont (EMAC_TIMEOUT, old)) Q (after s b [inl (man_word phy reg 1 0)])) ->
  wp port_env (bind (phy_read_into fuel EMAC phy reg old) kont) Q s.
Proof.
  intros Hb Hok Hto. unfold phy_read_into, emac_phy_read, emac_maintain_phy.
  do 3 step_in. apply wp_wait_idle; [lia|]. intros b1 Hb1. cbn [bind].
  apply wp_wr_man. intros b2 Hb2. cbn [bind]. step_in.
  apply wp_wait_phy; [simpl; lia|..]; intros b3 Hb3; simpl in Hb3.
  - change (EMAC_OK =? EMAC_TIMEOUT) with false. unfold emac_get_phy_data. cbn [bind]. do 2 step_in.
    apply wp_wait_idle; [simpl; lia|]. intros b4 Hb4. simpl in Hb4. step_in. apply wp_rd_man. intros v. cbn [bind default].
    replace (u16 (Z.land v EMAC_MAN_DATA_Msk)) with (u16 v).
    + specialize (Hok b4 v ltac:(lia)). unfold after in Hok. cbn [log set_busy ncr ncfgr usrio busy].
      by rewrite <- app_assoc.
    + unfold u16. change EMAC_MAN_DATA_Msk with (Z.ones 16). rewrite Z.land_ones, Z.mod_mod by lia. done.
  - change (EMAC_TIMEOUT =? EMAC_TIMEOUT) with true. cbn [bind default]. apply Hto. lia.
Qed.

Lemma wp_emac_phy_write {A} phy reg v (kont : Z -> prog hw A) Q s : (busy s <= k)%nat ->
  (forall b rc, (b <= k)%nat -> rc = EMAC_OK \/ rc = EMAC_TIMEOUT ->
     wp port_env (kont rc) Q (after s b [inl (man_word phy reg 0 (u16 v))])) ->
  wp port_env (bind (emac_phy_write fuel EMAC phy reg v) kont) Q s.
Proof.
  intros Hb Hk. unfold emac_phy_write, emac_maintain_phy.
  do 2 step_in. apply wp_wait_idle; [lia|]. intros b1 Hb1. cbn [bind].
  apply wp_wr_man. intros b2 Hb2. cbn [bind]. step_in.
  apply wp_wait_phy; [simpl; lia|..]; intros b3 Hb3; simpl in Hb3; cbn [bind].
  - change (EMAC_OK =? EMAC_TIMEOUT) with false. apply Hk; [lia|by left].
  - change (EMAC_TIMEOUT =? EMAC_TIMEOUT) with true. apply Hk; [lia|by right].
Qed.

Lemma wp_phy_write {A} phy reg v (kont : Z * unit -> prog hw A) Q s : (busy s <= k)%nat ->
  (forall b rc, (b <= k)%nat -> rc = EMAC_OK \/ rc = EMAC_TIMEOUT ->
     wp port_env (kont (rc, tt)) Q (after s b [inl (man_word phy reg 0 (u16 v))])) ->
  wp port_env (bind (phy_write fuel EMAC phy reg v) kont) Q s.
Proof. intros Hb Hk. unfold phy_write. step_in. by apply wp_emac_phy_write. Qed.

(** The polls of the status register: all but the last without the bit that
    says that the negotiation is complete. *)
Inductive polls (phy : Z) : list (Z + Z) -> Z -> Prop :=
| polls_last v : has_bits (u16 v) MII_AUTONEG_COMP = true ->
    polls phy [inl (man_word phy MII_BMSR 1 0); inr v] v
| polls_more v l w : has_bits (u16 v) MII_AUTONEG_COMP = false -> polls phy l w ->
    polls phy (inl (man_word phy MII_BMSR 1 0) :: inr v :: l) w.

Lemma after_after s b l b' l' : after (after s b l) b' l' = after s b' (l ++ l').
Proof. unfold after. cbn. by rewrite app_assoc. Qed.

Lemma wp_negotiate_loop {A} phy n count (kont : Z -> prog hw A) Q s : (busy s <= k)%nat ->
  0 <= count < ETH_PHY_RETRY_MAX -> ETH_PHY_RETRY_MAX - count <= Z.of_nat n ->
  (forall b l st, (b <= k)%nat -> polls phy l st -> wp port_env (kont EMAC_OK) Q (after s b l)) ->
  (forall b l, (b <= k)%nat -> wp port_env (kont EMAC_TIMEOUT) Q (after s b l)) ->
  wp port_env (bind (iter n (negotiate_round fuel EMAC phy ETH_PHY_RETRY_MAX) count) kont) Q s.
Proof.
  unfold ETH_PHY_RETRY_MAX. revert count s.
  induction n as [|n IH]; intros count s Hb Hc Hn Hok Hto; [lia|]. cbn [iter].
  unfold negotiate_round at 1. do 2 step_in. apply wp_phy_read; [done|intros b v Hb2..|intros b Hb2].
  - change (EMAC_OK =? EMAC_OK) with true. cbn [negb].
    destruct (has_bits (u16 v) MII_AUTONEG_COMP) eqn:Hcomp; cbn [bind].
    + apply (Hok b _ v); [done|by constructor].
    + change (1000000 =? 0) with false. cbn [negb bind]. rewrite u32_id by (unfold is_u32; lia).
      destruct (Z.leb_spec 1000000 (count + 1)); cbn [bind]; [by apply Hto|].
      apply IH; [done|lia|lia|..].
      * intros b' l st Hb' Hp. rewrite after_after. apply (Hok _ _ st); [done|by constructor].
      * intros b' l Hb'. rewrite after_after. by apply Hto.
  - change (EMAC_TIMEOUT =? EMAC_OK) with false. cbn [negb bind]. by apply Hto.
Qed.

(** ** Negotiation *)

Definition bmcr_isolated (v : Z) : Z :=
  Z.lor (Z.land (Z.land v (not32 MII_AUTONEG)) (not32 (Z.lor MII_LOOPBACK MII_POWER_DOWN))) MII_ISOLATE.
Definition bmcr_enabled (v : Z) : Z := Z.lor v (Z.lor (Z.lor MII_SPEED_SELECT MII_AUTONEG) MII_DUPLEX_MODE).
Definition bmcr_restart (v : Z) : Z :=
  Z.land (Z.lor (bmcr_enabled v) MII_RESTART_AUTONEG) (not32 MII_ISOLATE).

(** The transfers of a negotiation that succeeds: [v1] and [v2] are what the
    control register held, [pl] the polls, [partner] the partner's abilities. *)
Definition negotiation (phy v1 v2 : Z) (pl : list (Z + Z)) (partner : Z) : list (Z + Z) :=
  [inl (man_word phy MII_BMCR 1 0); inr v1;
   inl (man_word phy MII_BMCR 0 (u16 (bmcr_isolated (u16 v1))));
   inl (man_word phy MII_ANAR 0 (u16 anar));
   inl (man_word phy MII_BMCR 1 0); inr v2;
   inl (man_word phy MII_BMCR 0 (u16 (bmcr_enabled (u16 v2))));
   inl (man_word phy MII_BMCR 0 (u16 (bmcr_restart (u16 v2))))] ++ pl ++
  [inl (man_word phy MII_ANLPAR 1 0); inr partner].

(** The controller is set to the mode [m]. *)
Definition set_to (m : Z * Z) (s s' : port) : Prop :=
  ncfgr s' = switched (switched (ncfgr s) EMAC_NCFGR_SPD m.1) EMAC_NCFGR_FD m.2 /\
  usrio s' = switched (switched (usrio s) EMAC_USRIO_RMII ETH_PHY_MODE) EMAC_USRIO_CLKEN 1.

Definition negotiated (phy : Z) (s : port) (o : outcome Z) (s' : port) : Prop :=
  has_bits (ncr s') EMAC_NCR_MPE = false /\
  ((o = Done EMAC_TIMEOUT /\ ncfgr s' = ncfgr s /\ usrio s' = usrio s) \/
   (o = Done EMAC_OK /\ exists v1 v2 pl st partner, polls phy pl st /\
      log s' = log s ++ negotiation phy v1 v2 pl partner /\
      set_to (link_mode (Z.land anar (u16 partner))) s s')).

Lemma management_off v : has_bits (switched v EMAC_NCR_MPE 0) EMAC_NCR_MPE = false.
Proof.
  apply has_bits_false. change (switched v EMAC_NCR_MPE 0) with (Z.land v (not32 EMAC_NCR_MPE)).
  rewrite <- Z.land_assoc. change (Z.land (not32 EMAC_NCR_MPE) EMAC_NCR_MPE) with 0. apply Z.land_0_r.
Qed.

Lemma wp_leave {A} (a : A) next phy s s' :
  ncfgr s' = ncfgr s -> usrio s' = usrio s ->
  wp port_env (or_leave EMAC (EMAC_TIMEOUT, a) next) (negotiated phy s) s'.
Proof.
  intros Hc Hu. cbn [or_leave]. change (negb (EMAC_TIMEOUT =? EMAC_OK)) with true. cbn iota.
  unfold emac_enable_management. apply wp_switch_ncr. split; [apply management_off|]. by left.
Qed.

Lemma wp_or_leave_read phy reg old (next : Z -> prog hw Z) phy0 s0 s : (busy s <= k)%nat ->
  ncfgr s = ncfgr s0 -> usrio s = usrio s0 ->
  (forall b v, (b <= k)%nat ->
     wp port_env (next (u16 v)) (negotiated phy0 s0) (after s b [inl (man_word phy reg 1 0); inr v])) ->
  wp port_env (bind (phy_read_into fuel EMAC phy reg old) (fun r => or_leave EMAC r next)) (negotiated phy0 s0) s.
Proof.
  intros Hb Hc Hu Hk. apply wp_phy_read; [done|intros b v Hb'|intros b Hb'].
  - cbn [or_leave]. change (negb (EMAC_OK =? EMAC_OK)) with false. by apply Hk.
  - by apply wp_leave.
Qed.

Lemma wp_or_leave_write phy reg v (next : unit -> prog hw Z) phy0 s0 s : (busy s <= k)%nat ->
  ncfgr s = ncfgr s0 -> usrio s = usrio s0 ->
  (forall b, (b <= k)%nat ->
     wp port_env (next tt) (negotiated phy0 s0) (after s b [inl (man_word phy reg 0 (u16 v))])) ->
  wp port_env (bind (phy_write fuel EMAC phy reg v) (fun r => or_leave EMAC r next)) (negotiated phy0 s0) s.
Proof.
  intros Hb Hc Hu Hk. apply wp_phy_write; [done|]. intros b rc Hb' [-> | ->].
  - cbn [or_leave]. change (negb (EMAC_OK =? EMAC_OK)) with false. by apply Hk.
  - by apply wp_leave.
Qed.

(** Negotiating the link, with any PHY that completes its transfers: the
    function returns, with the management port off on every path; on success
    it has restarted the negotiation with exactly the transfers of
    [negotiation], waited for its end, and set the controller's speed and
    duplex to the best mode that both sides offer; after a timeout the
    controller's configuration is untouched. *)
Theorem link_is_negotiated phy s : (busy s <= k)%nat -> ETH_PHY_RETRY_MAX <= Z.of_nat fuel ->
  wp port_env (ethernet_phy_auto_negotiate fuel EMAC phy) (negotiated phy s) s.
Proof.
  intros Hb Hf. unfold ethernet_phy_auto_negotiate, emac_enable_management at 1.
  apply wp_switch_ncr. apply wp_or_leave_read; [done..|]. intros b1 v1 Hb1.
  apply wp_or_leave_write; [done..|]. intros b2 Hb2.
  apply wp_or_leave_write; [done..|]. intros b3 Hb3.
  apply wp_or_leave_read; [done..|]. intros b4 v2 Hb4.
  apply wp_or_leave_write; [done..|]. intros b5 Hb5.
  apply wp_or_leave_write; [done..|]. intros b6 Hb6.
  apply wp_negotiate_loop; [done|unfold ETH_PHY_RETRY_MAX; lia|lia| |intros b7 l Hb7; by apply wp_leave].
  intros b7 pl st Hb7 Hp. cbn [or_leave]. change (negb (EMAC_OK =? EMAC_OK)) with false. cbn iota.
  apply wp_or_leave_read; [done..|]. intros b8 partner Hb8.
  destruct (link_mode _) as [speed fd] eqn:Hm. unfold emac_set_speed, emac_enable_full_duplex, emac_enable_rmii,
    emac_enable_transceiver_clock, emac_enable_management.
  apply wp_switch_ncfgr, wp_switch_ncfgr, wp_switch_usrio, wp_switch_usrio, wp_switch_ncr.
  split; [apply management_off|]. right. split; [done|]. exists v1, v2, pl, st, partner. split; [done|].
  rewrite !after_after. cbn [after log ncfgr usrio]. rewrite Hm. split; [|done].
  reflexivity.
Qed.
End port.

(** ** Resetting the PHY *)

(** A poll of the control register, answered or timed out. *)
Definition bmcr_poll (phy : Z) (l : list (Z + Z)) : Prop := head l = Some (inl (man_word phy MII_BMCR 1 0)).

(** The time that is left after the polls, and why they ended. *)
Definition reset_polled (phy : Z) (t : nat) (left : Z) (pl : list (list (Z + Z))) : Prop :=
  Forall (bmcr_poll phy) pl /\
  (left = 0 /\ length pl = t \/
   0 < left /\ (length pl < t)%nat /\ exists front v,
     pl = front ++ [[inl (man_word phy MII_BMCR 1 0); inr v]] /\ has_bits (u16 v) MII_RESET = false).

Lemma reset_polled_more phy t left l pl : bmcr_poll phy l -> reset_polled phy t left pl ->
  reset_polled phy (S t) left (l :: pl).
Proof.
  intros Hl [Hp H]. split; [by constructor|]. destruct H as [[-> <-]|(Hle & Hlt & front & v & -> & Hv)].
  - by left.
  - right. split; [done|]. split; [simpl; lia|]. by exists (l :: front), v.
Qed.

Lemma wp_reset_loop {A} k fuel phy n t bmcr (kont : Z -> prog hw A) Q s : (k < fuel)%nat ->
  (busy s <= k)%nat -> (0 < t <= n)%nat -> Z.of_nat t < 2 ^ 32 -> has_bits bmcr MII_RESET = true ->
  (forall b pl left, (b <= k)%nat -> reset_polled phy t left pl ->
     wp (port_env k) (kont left) Q (after s b (concat pl))) ->
  wp (port_env k) (bind (iter n (reset_round fuel EMAC phy) (bmcr, Z.of_nat t)) kont) Q s.
Proof.
  intros Hf. revert t bmcr s. induction n as [|n IH]; intros t bmcr s Hb Ht H32 Hbm Hk; [lia|].
  cbn [iter]. unfold reset_round at 1. do 2 step_in.
  assert (forall b w l, (b <= k)%nat -> (exists v, l = [inl (man_word phy MII_BMCR 1 0); inr v] /\ w = u16 v) \/
      l = [inl (man_word phy MII_BMCR 1 0)] /\ has_bits w MII_RESET = true ->
    wp (port_env k) (let! r := Ret (if has_bits w MII_RESET && negb (u32 (Z.of_nat t - 1) =? 0)
        then inl (w, u32 (Z.of_nat t - 1)) else inr (u32 (Z.of_nat t - 1))) in
      let! x := match r with inl s' => iter n (reset_round fuel EMAC phy) s' | inr r0 => Ret r0 end in kont x)
      Q (after s b l)) as Hnext.
  { intros b w l Hb' Hl. rewrite u32_id by (unfold is_u32; lia). cbn [bind].
    assert (bmcr_poll phy l) as Hp by (destruct Hl as [(v & -> & _)|[-> _]]; done).
    destruct (has_bits w MII_RESET) eqn:Hw; cbn [andb].
    - destruct (Z.eqb_spec (Z.of_nat t - 1) 0) as [H0|H0]; cbn [negb bind].
      + specialize (Hk b [l] 0 Hb'). cbn [concat] in Hk. rewrite app_nil_r in Hk. rewrite H0. apply Hk.
        split; [by constructor|]. left. split; [done|]. simpl. lia.
      + replace (Z.of_nat t - 1) with (Z.of_nat (t - 1)) by lia. apply IH; [done|lia|lia|done|].
        intros b2 pl left Hb2 Hpl. rewrite after_after. apply (Hk b2 (l :: pl) left Hb2).
        replace t with (S (t - 1)) by lia. by apply reset_polled_more.
    - cbn [bind]. specialize (Hk b [l] (Z.of_nat t - 1) Hb'). cbn [concat] in Hk. rewrite app_nil_r in Hk.
      apply Hk. split; [by constructor|]. destruct (decide (t = 1)%nat) as [-> |Ht1]; [by left|]. right.
      split; [lia|]. split; [simpl; lia|]. destruct Hl as [(v & -> & ->)|[_ Hv]]; [by exists [], v|congruence]. }
  eapply (wp_phy_read k fuel Hf); [done|intros b v Hb'|intros b Hb'].
  - apply (Hnext b (u16 v) [inl (man_word phy MII_BMCR 1 0); inr v] Hb'). left. by exists v.
  - apply (Hnext b bmcr [inl (man_word phy MII_BMCR 1 0)] Hb'). by right.
Qed.

(** The report of a reset of the PHY is the wrong way round: success
    exactly when the reset bit has been polled ten times, that is on a timeout
    (or at the last poll), and a timeout when the PHY has come out of the reset
    before. *)
Theorem phy_reset_inverted k fuel phy s : (k < fuel)%nat -> (10 <= fuel)%nat -> (busy s <= k)%nat ->
  wp (port_env k) (ethernet_phy_reset fuel EMAC phy) (fun o s' => exists pl left,
    log s' = log s ++ inl (man_word phy MII_BMCR 0 (u16 MII_RESET)) :: concat pl /\
    reset_polled phy 10 left pl /\ o = Done (if left =? 0 then EMAC_OK else EMAC_TIMEOUT)) s.
Proof.
  intros Hf H10 Hb. unfold ethernet_phy_reset, emac_enable_management at 1. apply wp_switch_ncr.
  apply (wp_emac_phy_write k fuel Hf); [done|]. intros b rc Hb' _.
  apply (wp_reset_loop k fuel phy fuel 10 MII_RESET); [done|done|lia|done|done|].
  intros b2 pl left Hb2 Hpl. unfold emac_enable_management. apply wp_switch_ncr. exists pl, left.
  split; [|done]. cbn. by rewrite <- app_assoc.
Qed.

(** ** A PHY that answers at once *)

Definition sample_port : port := Port 0 EMAC_NCFGR_FD 0 0 [].

Lemma link_is_negotiated_witness :
  wp (port_env 3) (ethernet_phy_auto_negotiate (Z.to_nat 1000000) EMAC 0) (negotiated 0 sample_port) sample_port.
Proof. apply (link_is_negotiated 3 (Z.to_nat 1000000)); unfold ETH_PHY_RETRY_MAX; simpl; lia. Defined.

Lemma phy_reset_inverted_witness :
  wp (port_env 3) (ethernet_phy_reset 10 EMAC 0) (fun o s' => exists pl left,
    log s' = [] ++ inl (man_word 0 MII_BMCR 0 (u16 MII_RESET)) :: concat pl /\
    reset_polled 0 10 left pl /\ o = Done (if left =? 0 then EMAC_OK else EMAC_TIMEOUT)) sample_port.
Proof. apply (phy_reset_inverted 3 10 0 sample_port); simpl; lia. Defined.
