(* ===== verification/Ethernetif.v ===== *)
(** * The lwIP port of the Ethernet controller (ethernetif.c)

    src/src/ASF/thirdparty/lwip/lwip-port-1.4.0/sam/netif/ethernetif.c: the
    network stack's packet buffers on one side, the driver of Emac.v and the
    PHY on the other, and the tasks and callbacks between them.

    The interrupt handler changes the driver's record while a task is between
    two driver calls: [Interrupts d] is that record when a task next calls the
    driver, [d] the record it left.  The waiting tasks are notified by the
    callbacks the handler calls. *)

From S2P Require Import Prelude Prog Pio Pmc Pbuf Rstc Emac EthPhy.

Definition NET_MTU : Z := 1500.
Definition NET_RW_BUFF_SIZE : Z := 1536.
Definition ERR_BUF : Z := -2.

(** ** The calls *)

Inductive eth_op :=
| Mac (e : emac_op)
| Interrupts (d : emac_device)
| TaskGetCurrent
| TaskNotifyStateClear (task : Z)
| TaskNotifyWait (ticks : Z)
| TaskNotifyFromISR (task : Z)
| YieldFromISR (woken : bool)
| Delay (ticks : Z)
| PriorityGet
| PrioritySet (priority : Z)
| PbufAlloc (size : Z)
| NetifInput (p : list pbuf)
| ThreadNew (stack priority : Z).

Definition eth_ans (e : eth_op) : Type :=
  match e with
  | Mac e => emac_ans e
  | Interrupts _ => emac_device
  | TaskGetCurrent | PriorityGet | NetifInput _ => Z
  | TaskNotifyStateClear _ | TaskNotifyFromISR _ => bool
  | PbufAlloc _ => option (list pbuf)
  | _ => unit
  end.

Definition eth : Sig := {| op := eth_op; ans := eth_ans |}.

Definition mac {A} (p : prog emac A) : prog eth A := @embed emac eth Mac (fun _ x => x) A p.
Definition on_reg {A} (p : prog hw A) : prog eth A := mac (reg p).
Definition call (e : eth_op) : prog eth (eth_ans e) := @trigger eth e.

(** The file's static variables. *)
Record globals := Globals {
  gs_emac_dev : emac_device;
  ethernetif_rx_task : Z;
  ethernetif_tx_task : Z
}.

Definition with_dev (g : globals) (d : emac_device) : globals :=
  Globals d (ethernetif_rx_task g) (ethernetif_tx_task g).

(** ** Callbacks and the interrupt handler

    The function pointers stored in the driver. *)
Definition RX_CB : Z := 1.
Definition TX_CB : Z := 2.

Definition ethernetif_rx_cb (g : globals) : prog eth unit :=
  let! woken := call (TaskNotifyFromISR (ethernetif_rx_task g)) in
  call (YieldFromISR woken).

Definition ethernetif_tx_cb (g : globals) : prog eth unit :=
  let! woken := call (TaskNotifyFromISR (ethernetif_tx_task g)) in
  call (YieldFromISR woken).

(** The driver's calls of its callbacks run the functions. *)
Definition link_callback (g : globals) (e : emac_op) : prog eth (emac_ans e) :=
  match e with
  | Callback cb _ => if cb =? RX_CB then ethernetif_rx_cb g else Ret tt
  | Wakeup cb => if cb =? TX_CB then ethernetif_tx_cb g else Ret tt
  | e => @trigger eth (Mac e)
  end.

Definition EMAC_Handler (fuel : nat) (g : globals) : prog eth globals :=
  let! d := @interp emac eth (link_callback g) _ (emac_handler fuel (gs_emac_dev g)) in
  Ret (with_dev g d).

(** ** Sending *)

(** The payloads of the chain, one behind the other. *)
Fixpoint gather (pc_buf : list Z) (bufptr : nat) (q : list pbuf) : option (list Z) :=
  match q with
  | [] => Some pc_buf
  | p :: q =>
    pc_buf ← store pc_buf bufptr (payload p);
    gather pc_buf (bufptr + length (payload p)) q
  end.

(** A call of the driver by a task. *)
Definition write_frame (g : globals) (pc_buf : list Z) (size : Z) : prog eth (Z * globals) :=
  let! d := call (Interrupts (gs_emac_dev g)) in
  let! (rc, d) := mac (emac_dev_write d (Some pc_buf) size None) in
  Ret (u8 rc, with_dev g d).

Definition write_round (pc_buf : list Z) (size : Z) (s : Z * globals)
    : prog eth ((Z * globals) + (Z * globals)) :=
  let '(uc_rc, g) := s in
  if uc_rc =? EMAC_TX_BUSY then
    call (TaskNotifyWait 100);;
    let! s := write_frame g pc_buf size in
    Ret (inl s)
  else Ret (inr (uc_rc, g)).

Definition low_level_output (fuel : nat) (g : globals) (p : list pbuf) : prog eth (Z * globals) :=
  match p with
  | [] => Halt Undefined
  | h :: _ =>
    if NET_RW_BUFF_SIZE <? tot_len h then Ret (ERR_BUF, g)
    else
      let! pc_buf := defined (gather (replicate (Z.to_nat NET_RW_BUFF_SIZE) 0) 0 p) in
      let! (uc_rc, g) := write_frame g pc_buf (tot_len h) in
      let! r :=
        (if uc_rc =? EMAC_TX_BUSY then
           let! task := call TaskGetCurrent in
           let g := Globals (gs_emac_dev g) (ethernetif_rx_task g) task in
           let! d := call (Interrupts (gs_emac_dev g)) in
           let '(uc_rc, d) := emac_dev_set_tx_wakeup_callback d (Some TX_CB) 1 in
           let g := with_dev g d in
           if negb (uc_rc =? EMAC_OK) then Ret (inl g)
           else
             let! pending := call (TaskNotifyStateClear (ethernetif_tx_task g)) in
             let! s :=
               (if pending : bool then write_frame g pc_buf (tot_len h)
                else Ret (uc_rc, g)) in
             let! (uc_rc, g) := iter fuel (write_round pc_buf (tot_len h)) s in
             let! d := call (Interrupts (gs_emac_dev g)) in
             let '(_, d) := emac_dev_set_tx_wakeup_callback d None 0 in
             Ret (inr (uc_rc, with_dev g d))
         else Ret (inr (uc_rc, g))) in
      Ret (match r with
        | inl g => (ERR_BUF, g)
        | inr (uc_rc, g) => (if negb (uc_rc =? EMAC_OK) then ERR_BUF else ERR_OK, g)
        end)
  end.

(** ** Receiving *)

Definition read_frame (fuel : nat) (g : globals) (pc_buf : list Z)
    : prog eth (Z * option Z * list Z * globals) :=
  let! d := call (Interrupts (gs_emac_dev g)) in
  let! (rc, size, buf, d) := mac (emac_dev_read fuel NET_RW_BUFF_SIZE (Some pc_buf) d) in
  Ret (u8 rc, size, default pc_buf buf, with_dev g d).

Definition input_state : Type := (Z * option Z * list Z * globals).

Definition input_wait_round (fuel : nat) (s : input_state) : prog eth (input_state + input_state) :=
  let '(uc_rc, _, pc_buf, g) := s in
  if uc_rc =? EMAC_RX_NULL then
    call (TaskNotifyWait 100);;
    let! s := read_frame fuel g pc_buf in
    Ret (inl s)
  else Ret (inr s).

(** Fills the pbufs of the chain from the buffer. *)
Fixpoint scatter (pc_buf : list Z) (bufptr : nat) (q : list pbuf) : option (list pbuf) :=
  match q with
  | [] => Some []
  | p :: q =>
    let n := length (payload p) in
    if decide (bufptr + n <= length pc_buf)%nat then
      q ← scatter pc_buf (bufptr + n) q;
      Some (set_payload p (hidden p) (take n (drop bufptr pc_buf)) (tot_len p) :: q)
    else None
  end.

(** [pc_buf] is the uninitialised local buffer.  The chain is [None] for NULL. *)
Definition low_level_input (fuel : nat) (g : globals) (pc_buf : list Z)
    : prog eth (option (list pbuf) * globals) :=
  let! s := read_frame fuel g pc_buf in
  let '(uc_rc, _, _, _) := s in
  let! s :=
    (if uc_rc =? EMAC_RX_NULL then
       let '(uc_rc, size, pc_buf, g) := s in
       let! d := call (Interrupts (gs_emac_dev g)) in
       let! d := mac (emac_dev_set_rx_callback d (Some RX_CB)) in
       let g := with_dev g d in
       let! pending := call (TaskNotifyStateClear (ethernetif_rx_task g)) in
       let! s :=
         (if pending : bool then read_frame fuel g pc_buf else Ret (uc_rc, size, pc_buf, g)) in
       let! (uc_rc, size, pc_buf, g) := iter fuel (input_wait_round fuel) s in
       let! d := call (Interrupts (gs_emac_dev g)) in
       let! d := mac (emac_dev_set_rx_callback d None) in
       Ret (uc_rc, size, pc_buf, with_dev g d)
     else Ret s) in
  let '(uc_rc, size, pc_buf, g) := s in
  if negb (uc_rc =? EMAC_OK) then Ret (None, g)
  else
    let! ul_frmlen := defined size in
    let! p := call (PbufAlloc (u16 ul_frmlen)) in
    match p with
    | Some q => let! q := defined (scatter pc_buf 0 q) in Ret (Some q, g)
    | None => Ret (None, g)
    end.

(** One round of the [do ... while] of the task. *)
Definition input_round (fuel : nat) (pc_buf : list Z) (g : globals)
    : prog eth (globals + (list pbuf * globals)) :=
  let! (p, g) := low_level_input fuel g pc_buf in
  match p with
  | Some q => Ret (inr (q, g))
  | None => call (Delay 100);; Ret (inl g)
  end.

(** The task: the endless loop, [n] packets of it.  What is left of the pbufs
    that the stack has not taken is the second component. *)
Fixpoint input_loop (n fuel : nat) (pc_buf : list Z) (g : globals) : prog eth globals :=
  match n with
  | O => Ret g
  | S n =>
    let! (p, g) := iter fuel (input_round fuel pc_buf) g in
    let! e := call (NetifInput p) in
    let p := if negb (e =? ERR_OK) then (pbuf_free p).2 else p in
    input_loop n fuel pc_buf g
  end.

Definition ethernetif_input (n fuel : nat) (pc_buf : list Z) (g : globals) : prog eth globals :=
  let! task := call TaskGetCurrent in
  input_loop n fuel pc_buf (Globals (gs_emac_dev g) task (ethernetif_tx_task g)).

(** ** Start-up *)

(** The fields of [struct netif] that this file sets. *)
Record netif := Netif {
  hwaddr_len : Z;
  hwaddr : list Z;
  mtu : Z;
  flags : Z;
  name : list Z
}.

Definition NETIF_FLAG_BROADCAST : Z := 0x02.
Definition NETIF_FLAG_DHCP : Z := 0x08.
Definition NETIF_FLAG_ETHARP : Z := 0x20.
Definition IFNAME0 : Z := 101.
Definition IFNAME1 : Z := 110.

Definition PIN_EEMAC_EREFCK : Z := 32.
Definition PIN_EMAC_ETXEN : Z := 33.
Definition PIN_EMAC_ETX0 : Z := 34.
Definition PIN_EMAC_ETX1 : Z := 35.
Definition PIN_EMAC_ETX2 : Z := 79.
Definition PIN_EMAC_ETX3 : Z := 80.
Definition PIN_EMAC_ECRSDV : Z := 36.
Definition PIN_EMAC_ERX0 : Z := 37.
Definition PIN_EMAC_ERX1 : Z := 38.
Definition PIN_EMAC_ERXER : Z := 39.
Definition PIN_EMAC_EMDC : Z := 40.
Definition PIN_EMAC_EMDIO : Z := 41.
Definition PIO_DEFAULT : Z := Z.shiftl 0x0 0.
Definition PIN_EMAC_FLAGS : Z := Z.lor PIO_PERIPH_A PIO_DEFAULT.
Definition PIN_EMAC_FLAGS_PC : Z := Z.lor PIO_PERIPH_B PIO_DEFAULT.

Definition ID_EMAC : Z := 42.
Definition EMAC_IRQn : Z := 42.
Definition BOARD_EMAC_PHY_ADDR : Z := 0.
Definition tskIDLE_PRIORITY : Z := 0.
Definition netifINTERFACE_TASK_STACK_SIZE : Z := 2048.
Definition netifINTERFACE_TASK_PRIORITY : Z := 8 - 1.

(** The pins in the order in which they are configured. *)
Definition emac_pins : list (Z * Z) :=
  [(PIN_EEMAC_EREFCK, PIN_EMAC_FLAGS); (PIN_EMAC_ETX0, PIN_EMAC_FLAGS);
   (PIN_EMAC_ETX1, PIN_EMAC_FLAGS); (PIN_EMAC_ETX2, PIN_EMAC_FLAGS_PC);
   (PIN_EMAC_ETX3, PIN_EMAC_FLAGS_PC); (PIN_EMAC_ETXEN, PIN_EMAC_FLAGS);
   (PIN_EMAC_ECRSDV, PIN_EMAC_FLAGS); (PIN_EMAC_ERX0, PIN_EMAC_FLAGS);
   (PIN_EMAC_ERX1, PIN_EMAC_FLAGS); (PIN_EMAC_ERXER, PIN_EMAC_FLAGS);
   (PIN_EMAC_EMDC, PIN_EMAC_FLAGS); (PIN_EMAC_EMDIO, PIN_EMAC_FLAGS)].

Fixpoint configure_pins (pins : list (Z * Z)) : prog hw unit :=
  match pins with
  | [] => Ret tt
  | (pin, flags) :: pins => let! _ := pio_configure_pin pin flags in configure_pins pins
  end.

Definition reset_wait_round (_ : unit) : prog hw (unit + unit) :=
  let! sr := rstc_get_status RSTC in
  Ret (if has_bits sr RSTC_SR_NRSTL then inl tt else inr tt).

Definition set_link_round (uc_speed uc_fd : Z) (fuel : nat) (_ : unit) : prog hw (unit + unit) :=
  let! rc := ethernet_phy_set_link fuel EMAC uc_speed uc_fd BOARD_EMAC_PHY_ADDR 1 in
  Ret (if negb (rc =? EMAC_OK) then inl tt else inr tt).

Section init.
Context (fuel : nat) (gs_uc_mac_address : list Z) (gs_tx_callback : list (option Z)).
(** The addresses of the driver's static arrays, and the locals of
    [ethernet_phy_set_link] that it may leave uninitialised. *)
Context (gs_rx_buffer gs_rx_desc gs_tx_buffer gs_tx_desc uc_speed uc_fd : Z).

(** The delay loop after the reset has no effect but the time it takes. *)
Definition low_level_init (n : netif) (g : globals) : prog eth (netif * globals) :=
  let n := Netif 6 (take 6 gs_uc_mac_address) NET_MTU (flags n) (name n) in
  on_reg (configure_pins emac_pins);;
  let n := Netif (hwaddr_len n) (hwaddr n) (mtu n)
    (Z.lor (flags n) (Z.lor (Z.lor NETIF_FLAG_BROADCAST NETIF_FLAG_ETHARP) NETIF_FLAG_DHCP)) (name n) in
  let! uxPriority := call PriorityGet in
  call (PrioritySet tskIDLE_PRIORITY);;
  on_reg (rstc_set_external_reset RSTC 13);;
  on_reg (rstc_reset_extern RSTC);;
  on_reg (iter fuel reset_wait_round tt);;
  let! _ := on_reg (pmc_enable_periph_clk ID_EMAC) in
  let d0 := gs_emac_dev g in
  let d := EmacDevice EMAC (p_tx_buffer d0) (p_rx_buffer d0) (p_rx_dscr d0) (p_tx_dscr d0)
    (func_rx_cb d0) (func_wakeup_cb d0) (func_tx_cb_list d0) (us_rx_list_size d0) (us_rx_idx d0)
    (us_tx_list_size d0) (us_tx_head d0) (us_tx_tail d0) (uc_wakeup_threshold d0) in
  let! d := mac (emac_dev_init gs_rx_buffer gs_rx_desc gs_tx_buffer gs_tx_desc gs_tx_callback d
    (EmacOptions 0 0 (take 6 gs_uc_mac_address))) in
  let g := with_dev g d in
  on_reg (NVIC_SetPriority EMAC_IRQn (Z.shiftr configMAX_SYSCALL_INTERRUPT_PRIORITY 4));;
  on_reg (NVIC_EnableIRQ EMAC_IRQn);;
  let! rc := on_reg (ethernet_phy_init fuel EMAC BOARD_EMAC_PHY_ADDR sysclk_get_cpu_hz) in
  if negb (rc =? EMAC_OK) then Ret (n, g)
  else
    let! rc := on_reg (ethernet_phy_auto_negotiate fuel EMAC BOARD_EMAC_PHY_ADDR) in
    if negb (rc =? EMAC_OK) then Ret (n, g)
    else
      on_reg (iter fuel (set_link_round uc_speed uc_fd fuel) tt);;
      call (PrioritySet uxPriority);;
      call (ThreadNew netifINTERFACE_TASK_STACK_SIZE netifINTERFACE_TASK_PRIORITY);;
      Ret (n, g).

Definition ethernetif_init (n : netif) (g : globals) : prog eth (Z * netif * globals) :=
  let n := Netif (hwaddr_len n) (hwaddr n) (mtu n) (flags n) [IFNAME0; IFNAME1] in
  let! (n, g) := low_level_init n g in
  Ret (ERR_OK, n, g).
End init.
