(* ===== verification/EthernetifSpec.v ===== *)
(** * Packets through the Ethernet port

    The network stack's view: what is handed to [low_level_output] goes out on
    the wire, what has come in on the wire is handed up, with the driver and
    the interrupt handler of Emac.v between the two and the controller of
    EmacTx.v and EmacRx.v below. *)

From stdpp Require Import relations.
From S2P Require Import Prelude Prog Pbuf Emac EmacTx EmacRx Ethernetif.
#[local] Open Scope Z_scope.

(** ** Sending: the environment

    While a task is between two calls of the driver the handler may run, any
    number of times, each time from the record the last one left. *)

Section output.
Context (fuel n : nat).

Definition irq (x y : emac_device * txs) : Prop :=
  may tx_env (emac_handler fuel x.1) x.2 (Done y.1) y.2.

Definition out_step (e : eth_op) (s : txs) : eth_ans e -> txs -> Prop :=
  match e with
  | Mac e => fun x s' => tx_step e s x s'
  | Interrupts d => fun d' s' => rtc irq (d, s) (d', s')
  | _ => fun _ s' => rtc tick s s'
  end.

Definition out_req (e : eth_op) (s : txs) : Prop := match e with Mac e => tx_req e s | _ => True end.

Definition out_env : env eth txs :=
  {| req := out_req : op eth -> _; step := out_step : forall e : op eth, txs -> ans eth e -> txs -> Prop |}.

Lemma wp_mac {A} (p : prog emac A) Q s : wp tx_env p Q s -> wp out_env (mac p) Q s.
Proof.
  revert s. induction p as [a|h|e k IH]; intros s Hp; [done..|].
  destruct Hp as [Hr Hk]. split; [done|]. intros x s' Hs. apply IH. by apply Hk.
Qed.

(** The handler leaves the frames that are not yet sent. *)
Lemma irqs_ring d t q acc s d' s' : (n <= fuel)%nat -> view d n t q -> ring n t q acc 0 s ->
  rtc irq (d, s) (d', s') ->
  exists r, (r <= length q)%nat /\ view d' n (slot n t r) (drop r q) /\
    ring n (slot n t r) (drop r q) acc 0 s'.
Proof.
  intros Hf Hv Hr Hi.
  enough (forall x y, rtc irq x y -> forall t q, view x.1 n t q -> ring n t q acc 0 x.2 ->
    exists r, (r <= length q)%nat /\ view y.1 n (slot n t r) (drop r q) /\
      ring n (slot n t r) (drop r q) acc 0 y.2) as H by by apply (H _ _ Hi t q).
  clear d t q s d' s' Hv Hr Hi. intros x y Hi. induction Hi as [x|x y z Hxy _ IH]; intros t q Hv Hr.
  - exists 0%nat. pose proof Hr as (j & _ & [Htn _ _ _ _ _ _] & _).
    rewrite slot_0, drop_0 by done. split; [lia|done].
  - pose proof Hr as (j & _ & [Htn Hrn _ _ _ _ _] & _).
    destruct (wp_may _ _ _ _ _ _ (wp_handler fuel x.1 n t q acc 0 _ x.2 Hv Hr eq_refl ltac:(lia)) Hxy)
      as (d2 & Hd & (r & Hmr & Hv1 & Hr1 & _) & _).
    injection Hd as <-. destruct (IH _ _ Hv1 Hr1) as (r' & Hr' & Hv2 & Hr2).
    rewrite length_drop in Hr'. exists (r + r')%nat. rewrite <- slot_slot, <- drop_drop. split; [lia|done].
Qed.

Lemma gather_eq q buf off : (off + length (flat q) <= length buf)%nat ->
  gather buf off q = Some (take off buf ++ flat q ++ drop (off + length (flat q)) buf).
Proof.
  revert buf off. induction q as [|p q IH]; intros buf off Hl.
  - change (flat []) with (@nil Z). cbn [gather length app]. by rewrite Nat.add_0_r, take_drop.
  - rewrite flat_cons in *. rewrite length_app in *. cbn [gather].
    rewrite store_in_bounds by lia. cbn [mbind option_bind].
    set (buf' := take off buf ++ payload p ++ drop (off + length (payload p)) buf).
    assert (length (take off buf ++ payload p) = off + length (payload p))%nat as Hp
      by (rewrite length_app, length_take; lia).
    assert (length buf' = length buf) as Hl'
      by (unfold buf'; rewrite app_assoc, length_app, Hp, length_drop; lia).
    assert (take (off + length (payload p)) buf' = take off buf ++ payload p) as Ht
      by (unfold buf'; rewrite app_assoc; apply take_app_length'; lia).
    assert (drop (off + length (payload p) + length (flat q)) buf' =
      drop (off + (length (payload p) + length (flat q))) buf) as Hd
      by (unfold buf'; rewrite app_assoc, drop_app_ge, drop_drop by lia; f_equal; lia).
    rewrite IH by lia. rewrite Ht, Hd. by rewrite <- !app_assoc.
Qed.

Lemma wp_interrupts {A} d t q acc s (k : emac_device -> prog eth A) Q : (n <= fuel)%nat ->
  view d n t q -> ring n t q acc 0 s ->
  (forall r d' s', (r <= length q)%nat -> view d' n (slot n t r) (drop r q) ->
     ring n (slot n t r) (drop r q) acc 0 s' -> wp out_env (k d') Q s') ->
  wp out_env (bind (call (Interrupts d)) k) Q s.
Proof.
  intros Hf Hv Hr Hk. split; [done|]. intros d' s' Hi.
  destruct (irqs_ring _ _ _ _ _ _ _ Hf Hv Hr Hi) as (r & Hrq & Hv' & Hr'). by apply (Hk r).
Qed.

(** A frame of [size] bytes is refused if it is too long, queued if there is
    room. *)
Lemma wp_write_frame {A} g t q acc s buf size (k : Z * globals -> prog eth A) Q : (n <= fuel)%nat ->
  view (gs_emac_dev g) n t q -> ring n t q acc 0 s -> (S (length q) < n)%nat ->
  0 <= size <= Z.of_nat (length buf) ->
  (forall r g' s', (r <= length q)%nat ->
     let sent := if decide (size <= EMAC_TX_UNITSIZE) then [take (Z.to_nat size) buf] else [] in
     view (gs_emac_dev g') n (slot n t r) (drop r q ++ sent) ->
     ring n (slot n t r) (drop r q ++ sent) (acc ++ sent) 0 s' ->
     wp out_env (k (if decide (size <= EMAC_TX_UNITSIZE) then EMAC_OK else EMAC_PARAM, g')) Q s') ->
  wp out_env (bind (write_frame g buf size) k) Q s.
Proof.
  intros Hf Hv Hr Hq Hs Hk. unfold write_frame. step_in. eapply wp_interrupts; [done..|].
  intros r d1 s1 Hrq Hv1 Hr1. step_in. specialize (Hk r). case_decide as Hd.
  - eapply wp_seq; [apply wp_mac, (wp_write d1 n (slot n t r) (drop r q) acc 0 buf size None);
      [done|done|lia|lia]|].
    intros o s2. cbv beta. rewrite length_drop. case_decide; [lia|]. intros (d2 & -> & Hv2 & Hr2 & _).
    cbn [andthen bind]. by apply Hk.
  - unfold emac_dev_write. rewrite (proj2 (Z.ltb_lt _ _)) by lia. cbn [mac embed bind].
    apply Hk; [done|..]; by rewrite !app_nil_r.
Qed.
End output.

(** The packet leaves as it is, or not at all. *)
Definition sent (p : list pbuf) : list (list Z) :=
  if decide (Z.of_nat (length (flat p)) <= EMAC_TX_UNITSIZE) then [flat p] else [].

(** C20: Sending a packet of the network stack when the ring has room: however
    many of the frames before it the controller sends and the interrupt handler
    retires meanwhile, the bytes of the pbuf chain are queued as one frame behind
    the frames accepted before, and success is reported; a packet longer than a
    frame is refused and leaves nothing.  The controller completes each frame it
    sends: none exceeds its retry limit, after which the handler would empty the
    ring.  When the ring has no room the packet may be lost and success reported
    all the same ([output_drops_packet]). *)
Theorem output_sends_packet fuel fuel' n g t q acc h p s :
  (n <= fuel)%nat -> view (gs_emac_dev g) n t q -> ring n t q acc 0 s -> (S (length q) < n)%nat ->
  wf_chain (h :: p) ->
  wp (out_env fuel) (low_level_output fuel' g (h :: p)) (fun o s' => exists r g',
    o = Done (if decide (Z.of_nat (length (flat (h :: p))) <= EMAC_TX_UNITSIZE) then ERR_OK else ERR_BUF, g') /\
    (r <= length q)%nat /\ view (gs_emac_dev g') n (slot n t r) (drop r q ++ sent (h :: p)) /\
    ring n (slot n t r) (drop r q ++ sent (h :: p)) (acc ++ sent (h :: p)) 0 s') s.
Proof.
  intros Hf Hv Hr Hq Hwf. pose proof Hwf as [[Htot Hsm] _]. unfold low_level_output, sent.
  rewrite Htot. set (L := length (flat (h :: p))) in *.
  destruct (Z.ltb_spec NET_RW_BUFF_SIZE (Z.of_nat L)) as [Hbig|Hbig]; unfold NET_RW_BUFF_SIZE in Hbig.
  - unfold EMAC_TX_UNITSIZE. rewrite !decide_False by lia. exists 0%nat, g.
    pose proof Hr as (j & _ & [Htn _ _ _ _ _ _] & _). rewrite slot_0, drop_0, !app_nil_r by done.
    split; [done|]. split; [lia|done].
  - rewrite gather_eq by (rewrite length_replicate; unfold NET_RW_BUFF_SIZE; lia). cbn [defined bind].
    set (buf := take 0 _ ++ _).
    assert (take (Z.to_nat (Z.of_nat L)) buf = flat (h :: p)) as Htk.
    { rewrite Nat2Z.id. unfold buf. rewrite take_0, app_nil_l. apply take_app_length. }
    eapply (wp_write_frame fuel n); [done..| |].
    { unfold buf. rewrite !length_app, length_drop, length_replicate. unfold NET_RW_BUFF_SIZE. lia. }
    intros r g' s' Hrq. rewrite Htk. intros sent Hv' Hr'. unfold sent in *. clear sent.
    case_decide; cbn [bind wp]; exists r, g'; (split; [done|]; split; [done|]; by split).
Qed.

(** ** A full ring

    The environment when the controller sends nothing and no notification is
    pending while the task is in [low_level_output]. *)

Definition stalled_step (e : eth_op) (s : txs) : eth_ans e -> txs -> Prop :=
  match e with
  | Mac e => fun x s' => tx_apply e s x s'
  | Interrupts d => fun d' s' => d' = d /\ s' = s
  | TaskNotifyStateClear _ => fun pending s' => pending = false /\ s' = s
  | _ => fun _ s' => s' = s
  end.

Definition stalled_env : env eth txs :=
  {| req := out_req : op eth -> _;
     step := stalled_step : forall e : op eth, txs -> ans eth e -> txs -> Prop |}.

Lemma wp_stalled {A} (e : eth_op) (k : eth_ans e -> prog eth A) Q s :
  out_req e s -> (forall x s', stalled_step e s x s' -> wp stalled_env (k x) Q s') ->
  wp stalled_env (bind (call e) k) Q s.
Proof. intros Hr Hk. by split. Qed.

(** A full ring refuses the frame without any access. *)
Lemma write_full d n t q bs size cb : view d n t q -> (t < n)%nat -> S (length q) = n ->
  size <= EMAC_TX_UNITSIZE -> emac_dev_write d (Some bs) size cb = Ret (EMAC_TX_BUSY, d).
Proof.
  intros Hv Ht Hq Hs. unfold emac_dev_write. rewrite (proj2 (Z.ltb_ge _ _)) by done.
  rewrite (view_head _ _ _ _ Hv), (view_tail _ _ _ _ Hv), (view_size _ _ _ _ Hv), circ_space_slot by lia.
  by rewrite bool_decide_true.
Qed.

(** A packet is lost and reported as sent: when the ring is full and no
    notification is pending, the variable that holds the status of the write
    has been overwritten by the status of setting the wakeup callback, so that
    the task neither waits nor tries again, and returns [ERR_OK] with nothing
    queued. *)
Theorem output_drops_packet fuel n g t q h p s :
  view (gs_emac_dev g) n t q -> (t < n)%nat -> S (length q) = n -> wf_chain (h :: p) ->
  Z.of_nat (length (flat (h :: p))) <= EMAC_TX_UNITSIZE ->
  wp stalled_env (low_level_output (S fuel) g (h :: p)) (fun o s' => exists g',
    o = Done (ERR_OK, g') /\ s' = s /\ view (gs_emac_dev g') n t q) s.
Proof.
  intros Hv Ht Hq Hwf Hs. pose proof Hwf as [[Htot _] _]. unfold low_level_output. rewrite Htot.
  unfold EMAC_TX_UNITSIZE in Hs. unfold NET_RW_BUFF_SIZE at 1. rewrite (proj2 (Z.ltb_ge _ _)) by lia.
  rewrite gather_eq by (rewrite length_replicate; unfold NET_RW_BUFF_SIZE; lia). cbn [defined bind].
  unfold write_frame at 1. step_in. apply wp_stalled; [done|]. intros d ? [-> ->].
  step_in. rewrite (write_full _ _ _ _ _ _ _ Hv) by done. cbn [mac embed bind].
  change (u8 EMAC_TX_BUSY =? EMAC_TX_BUSY) with true. cbn iota.
  step_in. apply wp_stalled; [done|]. intros task ? ->. step_in. apply wp_stalled; [done|]. intros d ? [-> ->].
  unfold emac_dev_set_tx_wakeup_callback at 1. cbn [gs_emac_dev with_dev].
  rewrite (view_size _ _ _ _ Hv), (proj2 (Z.leb_le _ _)) by lia.
  change (negb (EMAC_OK =? EMAC_OK)) with false. cbn iota.
  step_in. apply wp_stalled; [done|]. intros pending ? [-> ->]. cbn [bind iter write_round].
  change (EMAC_OK =? EMAC_TX_BUSY) with false. cbn [bind].
  step_in. apply wp_stalled; [done|]. intros d ? [-> ->]. cbn [bind wp].
  change (negb (EMAC_OK =? EMAC_OK)) with false. eexists. split; [done|]. split; [done|].
  destruct Hv. by split.
Qed.

(** ** Receiving

    The handler leaves the receive part of the record alone; the stack's
    allocation fails without memory, and gives a well-formed chain of the size
    asked for with it ([mem]). *)

Section input.
Context (mem : bool).

Definition in_step (e : eth_op) (s : rxs) : eth_ans e -> rxs -> Prop :=
  match e with
  | Mac e => fun x s' => rx_step e s x s'
  | Interrupts d => fun d' s' => us_rx_list_size d' = us_rx_list_size d /\
      us_rx_idx d' = us_rx_idx d /\ rtc receive s s'
  | PbufAlloc size => fun r s' => rtc receive s s' /\
      if mem then exists q, r = Some q /\ wf_chain q /\ Z.of_nat (length (flat q)) = size else r = None
  | _ => fun _ s' => rtc receive s s'
  end.

Definition in_req (e : eth_op) (s : rxs) : Prop := match e with Mac e => rx_req e s | _ => True end.

Definition in_env : env eth rxs :=
  {| req := in_req : op eth -> _; step := in_step : forall e : op eth, rxs -> ans eth e -> rxs -> Prop |}.

Lemma wp_mac_in {A} (p : prog emac A) Q s : wp rx_env p Q s -> wp in_env (mac p) Q s.
Proof.
  revert s. induction p as [a|h|e k IH]; intros s Hp; [done..|].
  destruct Hp as [Hr Hk]. split; [done|]. intros x s' Hs. apply IH. by apply Hk.
Qed.

(** The chain keeps its shape, and takes the bytes of the buffer. *)
Lemma scatter_eq q buf off : (off + length (flat q) <= length buf)%nat -> exists q',
  scatter buf off q = Some q' /\ flat q' = take (length (flat q)) (drop off buf) /\
  (wf_chain q -> wf_chain q').
Proof.
  revert off. induction q as [|p q IH]; intros off Hl; [by exists []|].
  rewrite flat_cons, length_app in Hl. cbn [scatter]. rewrite decide_True by lia.
  destruct (IH (off + length (payload p))%nat) as (q' & -> & Hf & Hwf); [lia|]. cbn [mbind option_bind].
  eexists. split; [done|]. rewrite !flat_cons, length_app. cbn [set_payload payload].
  assert (length (flat q') = length (flat q)) as Hlq by (rewrite Hf, length_take, length_drop; lia).
  split.
  - rewrite Hf, <- drop_drop. by rewrite take_take_drop.
  - cbn [wf_chain]. rewrite !flat_cons, !length_app, Hlq. cbn [set_payload payload tot_len].
    rewrite length_take, length_drop. intros [[Ht Hs] Hq]. split; [|by apply Hwf]. split; [|done].
    rewrite Ht. lia.
Qed.

(** C21: A frame that is complete in the ring, the first but for fragments that
    carry no start of frame (the end of a frame whose beginning is gone), is
    handed up: the task returns a well-formed chain with exactly the bytes of the
    frame, as many as the controller says; without memory, or when the frame is longer than what
    could be copied, it returns NULL; in all cases the descriptors of the frame
    are given back and the frames behind it stay.  Behind a frame that has begun
    and was not finished the chain would start with a fragment of that one
    ([rx_stale_fragment]). *)
Theorem input_delivers_frame fuel bases g r gar front last rest pc_buf s :
  let n := length bases in
  rview (gs_emac_dev g) n r -> rring bases r (gar ++ (front ++ [last]) ++ rest) s ->
  Forall (fun f => sof f = false) gar -> is_frame front last ->
  (length front + 1 < n)%nat -> (length gar + length front + 1 < fuel)%nat ->
  length pc_buf = Z.to_nat NET_RW_BUFF_SIZE ->
  wp in_env (low_level_input fuel g pc_buf) (fun o s' =>
    let got := take (Z.to_nat NET_RW_BUFF_SIZE) (frame_bytes (front ++ [last])) in
    let size := Z.land last.1 EMAC_RXD_LEN_MASK in
    let stop := slot n r (length gar + length front + 1) in
    exists res g', o = Done (res, g') /\ rview (gs_emac_dev g') n stop /\ rring bases stop rest s' /\
      if mem && (size <=? Z.of_nat (length got))
      then exists q, res = Some q /\ wf_chain q /\ flat q = take (Z.to_nat size) got
      else res = None) s.
Proof.
  intros n Hv Hr Hg Hfr Hn Hf Hbuf. unfold low_level_input, read_frame at 1. step_in.
  split; [done|]. intros d s1 (Hsz & Hidx & Hrc).
  assert (rview d n r) as Hv1 by (destruct Hv; split; congruence).
  pose proof (receives_rring _ _ _ _ _ Hr Hrc) as Hr1. clear Hr Hrc s.
  step_in. eapply wp_seq.
  { apply wp_mac_in, (wp_read fuel (Z.to_nat NET_RW_BUFF_SIZE) bases pc_buf d r gar front last rest);
      try done; unfold NET_RW_BUFF_SIZE in *; lia. }
  cbv zeta. set (got := take _ _). set (size := Z.land _ _). set (stop := slot _ _ _).
  intros o s2 [-> Hr2]. cbn [andthen bind]. cbn [from_option id].
  assert (rview (set_rx_idx d (Z.of_nat stop)) n stop) as Hv2 by by apply rview_set with r.
  assert (0 <= size < 2 ^ 12) as Hsize.
  { unfold size. change EMAC_RXD_LEN_MASK with (Z.ones 12). rewrite Z.land_ones by lia. apply Z.mod_pos_bound. lia. }
  rewrite (Z.leb_antisym (Z.of_nat (length got))). destruct (Z.ltb_spec (Z.of_nat (length got)) size) as [Hlt|Hle];
    [change (u8 EMAC_SIZE_TOO_SMALL) with EMAC_SIZE_TOO_SMALL|change (u8 EMAC_OK) with EMAC_OK].
  - change (EMAC_SIZE_TOO_SMALL =? EMAC_RX_NULL) with false. cbn [bind].
    change (negb (EMAC_SIZE_TOO_SMALL =? EMAC_OK)) with true. exists None. eexists. split; [done|].
    split; [exact Hv2|]. split; [done|]. by rewrite andb_false_r.
  - change (EMAC_OK =? EMAC_RX_NULL) with false. cbn [bind].
    change (negb (EMAC_OK =? EMAC_OK)) with false. cbn [defined bind].
    rewrite u16_id by (unfold is_u16; lia). split; [done|]. intros p s3 [Hrc3 Hp].
    pose proof (receives_rring _ _ _ _ _ Hr2 Hrc3) as Hr3. destruct mem; cbn [andb negb].
    + destruct Hp as (q & -> & Hwf & Hlen).
      destruct (scatter_eq q (got ++ drop (length got) pc_buf) 0) as (q' & Hq' & Hflat & Hwf').
      { rewrite length_app. lia. }
      cbn [bind]. rewrite Hq'. cbn [defined bind wp]. exists (Some q'). eexists. split; [done|].
      split; [exact Hv2|]. split; [done|]. exists q'. split; [done|]. split; [by apply Hwf'|].
      rewrite Hflat, drop_0, take_app_le by lia. f_equal. lia.
    + subst p. exists None. eexists. split; [done|]. split; [exact Hv2|]. by split.
Qed.
End input.

(** ** Samples *)

Definition sample_packet : list pbuf :=
  [Pbuf PBUF_RAM [] [4; 5] 3 1; Pbuf PBUF_RAM [] [6] 1 1].

Lemma sample_packet_wf : wf_chain sample_packet.
Proof. done. Qed.

Lemma output_sends_packet_witness :
  wp (out_env 8) (low_level_output 1 (Globals (sample_device 1) 0 0) sample_packet) (fun o s' => exists r g',
    o = Done (ERR_OK, g') /\ (r <= 1)%nat /\
    view (gs_emac_dev g') 8 (slot 8 0 r) (drop r [[1; 2; 3]] ++ [[4; 5; 6]]) /\
    ring 8 (slot 8 0 r) (drop r [[1; 2; 3]] ++ [[4; 5; 6]]) ([[1; 2; 3]] ++ [[4; 5; 6]]) 0 s')
    (sample_state (Z.lor 3 EMAC_TXD_LAST)).
Proof.
  apply (output_sends_packet 8 1 8 (Globals (sample_device 1) 0 0) 0 [[1; 2; 3]] [[1; 2; 3]]
    (Pbuf PBUF_RAM [] [4; 5] 3 1) [Pbuf PBUF_RAM [] [6] 1 1]);
    [lia|apply sample_view|apply sample_ring|simpl; lia|apply sample_packet_wf].
Defined.

(** A ring of two descriptors, one of them taken. *)
Definition full_device : emac_device :=
  EmacDevice EMAC 0x20070000 0 0 0 None None [None; None] 16 0 2 1 0 1.

Lemma full_view : view full_device 2 0 [[1; 2; 3]].
Proof. by split. Qed.

Lemma output_drops_packet_witness :
  wp stalled_env (low_level_output 1 (Globals full_device 0 0) sample_packet) (fun o s' => exists g',
    o = Done (ERR_OK, g') /\ s' = sample_state 3 /\ view (gs_emac_dev g') 2 0 [[1; 2; 3]]) (sample_state 3).
Proof.
  apply (output_drops_packet 0 2 (Globals full_device 0 0) 0 [[1; 2; 3]] (Pbuf PBUF_RAM [] [4; 5] 3 1)
    [Pbuf PBUF_RAM [] [6] 1 1]); [apply full_view|lia|done|apply sample_packet_wf|vm_compute; discriminate].
Defined.

Lemma input_delivers_frame_witness :
  let bases := [0x20070000; 0x20070080; 0x20070100; 0x20070180] in
  let front := [(EMAC_RXD_SOF, replicate 128 1)] in
  let last := (Z.lor EMAC_RXD_EOF 200, replicate 128 2) in
  wp (in_env true) (low_level_input 5 (Globals sample_rx_device 0 0) (replicate 1536 0)) (fun o s' =>
    let got := take (Z.to_nat NET_RW_BUFF_SIZE) (frame_bytes (front ++ [last])) in
    let size := Z.land last.1 EMAC_RXD_LEN_MASK in
    let stop := slot 4 0 (1 + 1 + 1) in
    exists res g', o = Done (res, g') /\ rview (gs_emac_dev g') 4 stop /\ rring bases stop [] s' /\
      if true && (size <=? Z.of_nat (length got))
      then exists q, res = Some q /\ wf_chain q /\ flat q = take (Z.to_nat size) got
      else res = None) (sample_rx sample_fragments).
Proof.
  intros bases front last.
  apply (input_delivers_frame true 5 bases (Globals sample_rx_device 0 0) 0 [(0, replicate 128 7)] front last []
    (replicate 1536 0) (sample_rx sample_fragments)); try (simpl; lia); try done.
  - exact sample_rx_ring.
  - by repeat constructor.
  - split; [eexists _, _; split; [reflexivity|]; split; [done|by repeat constructor]|].
    split; [by repeat constructor|done].
Defined.
