(* ===== verification/Board.v ===== *)
(** * The start of the firmware

    src/src/ASF/thirdparty/freertos/demo/lwip_sam_example/main.c: the
    initialisation of the board, who the board is (serial number, MAC
    address), the tasks that are created and the LED tasks; led.c of the board.
    [printf] and the kernel are calls of the signature [boot]; the drivers are
    those of the other files. *)

From S2P Require Import Prelude Prog Pio Pmc Clock Ioport Usart Uart Twi TwiBus FpgaTwi Spi Flash.
From S2P Require Import Text Xvc Serial Emac Ethernetif.

(** ** The board *)

Definition WDT : Z := 0x400E1A50.
Definition WDT_MR : Z := WDT + 0x04.
Definition WDT_MR_WDDIS : Z := Z.shiftl 0x1 15.

Definition ID_PIOB : Z := 12.
Definition ID_PIOC : Z := 13.
Definition ID_PIOD : Z := 14.
Definition VMERESETOUT : Z := 10.
Definition NVMERESETIN : Z := 11.
Definition PWRDWN : Z := 14.
Definition MAC_PWR_DOWN : Z := 42.
Definition NPROG : Z := 0.
Definition NINIT : Z := 1.
Definition HSOPEN : Z := 29.
Definition PINS_UART_PIO : Z := PIOA.
Definition PINS_UART : Z := Z.lor (Z.shiftl 1 8) (Z.shiftl 1 9).
Definition PINS_UART_FLAGS : Z := Z.lor PIO_PERIPH_A PIO_DEFAULT.
Definition CONSOLE_UART_ID : Z := ID_UART.
Definition CONF_UART : Z := UART.
Definition CONF_UART_BAUDRATE : Z := 115200.
Definition CONF_UART_PARITY : Z := UART_MR_PAR_NO.

Definition LED0_GPIO : Z := 93.
Definition LED1_GPIO : Z := 83.
Definition LED2_GPIO : Z := 82.
Definition LED3_GPIO : Z := 94.
Definition LED0_ACTIVE_LEVEL : Z := 0.
Definition LED1_ACTIVE_LEVEL : Z := 0.
Definition LED2_ACTIVE_LEVEL : Z := 0.
Definition LED3_ACTIVE_LEVEL : Z := 1.
Definition LED2_INACTIVE_LEVEL : bool := false.

(** ** led.c *)

(** Port and active level. *)
Definition LED_DESCRIPTOR : list (Z * Z) :=
  [(LED0_GPIO, LED0_ACTIVE_LEVEL); (LED1_GPIO, LED1_ACTIVE_LEVEL);
   (LED2_GPIO, LED2_ACTIVE_LEVEL); (LED3_GPIO, LED3_ACTIVE_LEVEL)].

Fixpoint each_led (f : Z -> prog hw unit) (led_gpio : Z) (leds : list (Z * Z)) : prog hw unit :=
  match leds with
  | [] => Ret tt
  | (port, active) :: leds =>
    (if led_gpio =? port then f active else Ret tt);;
    each_led f led_gpio leds
  end.

Definition LED_Off (led_gpio : Z) : prog hw unit :=
  each_led (fun active => if active =? 1 then pio_set_pin_low led_gpio else pio_set_pin_high led_gpio)
    led_gpio LED_DESCRIPTOR.

Definition LED_On (led_gpio : Z) : prog hw unit :=
  each_led (fun active => if active =? 1 then pio_set_pin_high led_gpio else pio_set_pin_low led_gpio)
    led_gpio LED_DESCRIPTOR.

Definition LED_Toggle (led_gpio : Z) : prog hw unit := pio_toggle_pin led_gpio.

(** ** The calls of main.c *)

Inductive task := TaskLed | TaskLed2 | TaskSerial | StartEthernetTask.

Inductive bootop :=
| BHw (e : hwop)
| BXvc (e : xop)
| Print (s : list Z)
| XTaskCreate (t : task) (stack priority : Z)
| StartScheduler.

Definition boot_ans (e : bootop) : Type :=
  match e with
  | BHw e => hw_ans e
  | BXvc e => xop_ans e
  | XTaskCreate _ _ _ => Z
  | _ => unit
  end.

Definition boot : Sig := {| op := bootop; ans := boot_ans |}.

Definition drv {A} (p : prog hw A) : prog boot A := @embed hw boot BHw (fun e x => x) A p.

(** The calls of the XVC server: its driver calls are those of the board. *)
Definition xvc_call (e : xop) : bootop := match e with XHw e => BHw e | e => BXvc e end.
Definition xvc_answer (e : xop) : boot_ans (xvc_call e) -> xop_ans e :=
  match e with XHw e => fun x => x | _ => fun x => x end.
Definition of_xvc {A} (p : prog xvc A) : prog boot A := @embed xvc boot xvc_call xvc_answer A p.

Definition print (s : list Z) : prog boot unit := @trigger boot (Print s).
Definition pdPASS : Z := 1.

(** [if (xTaskCreate(...) != pdPASS) printf(message);] *)
Definition create_task (t : task) (stack priority : Z) (message : list Z) : prog boot unit :=
  let! rc := @trigger boot (XTaskCreate t stack priority) in
  if negb (rc =? pdPASS) then print message else Ret tt.

(** ** main.c: the LED tasks *)

Definition follow_handle : prog hw unit :=
  let! open := pio_get_pin_value HSOPEN in
  if negb (open =? 0) then
    Ioport.ioport_set_pin_level PWRDWN true;;
    Ioport.ioport_set_pin_level LED_GREEN2_OFF true
  else
    Ioport.ioport_set_pin_level PWRDWN false;;
    Ioport.ioport_set_pin_level LED_GREEN2_OFF false.

Definition task_led_round (_ : unit) : prog boot (unit + Empty_set) :=
  drv (LED_Toggle LED0_GPIO);;
  of_xvc xvc_server_update_jtagsel;;
  drv follow_handle;;
  drv (@trigger hw (TaskDelay 1000));;
  Ret (inl tt).

Definition task_led (fuel : nat) : prog boot Empty_set := iter fuel task_led_round tt.

Definition task_led2_round (_ : unit) : prog boot (unit + Empty_set) :=
  drv (LED_Toggle LED2_GPIO);;
  drv (@trigger hw (TaskDelay 500));;
  Ret (inl tt).

Definition task_led2 (fuel : nat) : prog boot Empty_set := iter fuel task_led2_round tt.

(** ** main.c: initialisation *)

Definition configure_console (fuel : nat) : prog hw stdio :=
  sysclk_enable_peripheral_clock CONSOLE_UART_ID;;
  stdio_serial_init fuel CONF_UART (SerialOptions CONF_UART_BAUDRATE 0 CONF_UART_PARITY 0).

Definition output_pin (pin : Z) (level : bool) : prog hw unit :=
  ioport_set_pin_dir pin IOPORT_DIR_OUTPUT;;
  Ioport.ioport_set_pin_level pin level.

Fixpoint output_pins (pins : list (Z * bool)) : prog hw unit :=
  match pins with
  | [] => Ret tt
  | (pin, level) :: pins => output_pin pin level;; output_pins pins
  end.

Definition first_pins : list (Z * bool) :=
  [(LED0_GPIO, negb (LED0_ACTIVE_LEVEL =? 0)); (LED1_GPIO, negb (LED1_ACTIVE_LEVEL =? 0))].

Definition board_pins : list (Z * bool) :=
  [(LED2_GPIO, LED2_INACTIVE_LEVEL); (LED_RED1_ON, true); (LED_RED2_ON, false);
   (LED_GREEN1_OFF, true); (LED_GREEN2_OFF, true); (LED_BLUE1_OFF, true); (LED_BLUE2_OFF, true);
   (MAC_PWR_DOWN, true); (VMERESETOUT, false); (PWRDWN, false)].

(** The first part of [main], before anything is printed. *)
Definition init_board (fuel : nat) : prog boot unit :=
  drv (wr WDT_MR WDT_MR_WDDIS);;
  let! _ := drv (sysclk_init fuel) in
  let! _ := drv (pmc_enable_periph_clk ID_PIOA) in
  let! _ := drv (pmc_enable_periph_clk ID_PIOB) in
  let! _ := drv (pmc_enable_periph_clk ID_PIOC) in
  let! _ := drv (pmc_enable_periph_clk ID_PIOD) in
  drv (output_pins first_pins);;
  let! _ := drv (pio_configure_pin_group PINS_UART_PIO PINS_UART PINS_UART_FLAGS) in
  of_xvc xvc_server_init;;
  let! _ := drv (configure_console fuel) in
  drv (output_pins board_pins);;
  drv (ioport_set_pin_dir NVMERESETIN IOPORT_DIR_INPUT);;
  drv (ioport_set_pin_dir NPROG IOPORT_DIR_INPUT);;
  drv (ioport_set_pin_dir NINIT IOPORT_DIR_INPUT);;
  drv (ioport_set_pin_dir HSOPEN IOPORT_DIR_INPUT);;
  drv fpga_twi_init;;
  drv m25p_spi_init.

(** ** main.c: the identity of the board *)

(** [isalnum] in the C locale. *)
Definition isalnum (c : Z) : bool :=
  ((48 <=? c) && (c <=? 57)) || ((65 <=? c) && (c <=? 90)) || ((97 <=? c) && (c <=? 122)).

(** Lines 395-398, the array as the reading left it. *)
Definition clean_serial_number (sn : list Z) : option (list Z) :=
  c ← head sn;
  let sn := if isalnum c then sn else <[0%nat := 0]> sn in
  Some (<[(length sn - 1)%nat := 0]> sn).

Definition ETHERNET_CONF_ETHADDR : list Z := [0x00; 0x0E; 0xB2; 0x00; 0x00; 0x00].

(** Lines 410-421: whether the address is kept, and the address. *)
Definition choose_mac (mac : list Z) : bool * list Z :=
  if bool_decide (take 3 mac = take 3 ETHERNET_CONF_ETHADDR) then (true, mac)
  else (false, ETHERNET_CONF_ETHADDR).

Definition print_id (id : list Z) : list Z :=
  text "Flash device ID " ++ hex true 6 (le_val id) ++ crlf.

Definition mac_text (mac : list Z) : list Z :=
  concat (map (fun '(i, b) => (if (i =? 0)%nat then [] else text ":") ++ hex true 2 b)
    (combine (seq 0 6) mac)).

Section main.
Context (fuel : nat).
(** The date and time of the build, and what the local variable
    [flash_dev_id] holds. *)
Context (build_date build_time flash_dev_id : list Z).

(** From the arrays [serial_number] and [gs_uc_mac_address] to what they hold
    when the tasks are created. *)
Definition identify (serial_number gs_uc_mac_address : list Z) : prog boot (list Z * list Z) :=
  let! (_, sn) := drv (ext_flash_read_sn fuel (Z.of_nat (length serial_number))) in
  let! serial_number := defined (store serial_number 0 sn) in
  let! serial_number := defined (clean_serial_number serial_number) in
  print (text "-- FreeRTOS with lwIP Example --" ++ [10; 13]);;
  let! shown := defined (c_string serial_number) in
  print (text "-- SAM3X-EVM300, S/N: " ++ shown ++ [10; 13]);;
  print (text "-- Compiled: " ++ build_date ++ text " " ++ build_time ++ text " --" ++ [10; 13]);;
  let! (stat, id) := drv (m25p_read_dev_id fuel flash_dev_id) in
  (if bool_decide (stat = M25P_SUCCESS) then Ret tt
   else print (text "Could not read Flash device ID" ++ crlf));;
  print (print_id id);;
  let! (_, mac) := drv (ext_flash_read_mac_address fuel) in
  let! mac := defined (store gs_uc_mac_address 0 mac) in
  let (kept, mac) := choose_mac mac in
  (if kept then Ret tt else print (text "Invalid MAC address in flash!" ++ crlf));;
  print (text "Ethernet MAC " ++ mac_text mac ++ crlf);;
  Ret (serial_number, mac).

Definition TASK_LED_STACK_SIZE : Z := 128 / 4.
Definition TASK_SERIAL_STACK_SIZE : Z := 1024 / 4.
Definition configMINIMAL_STACK_SIZE : Z := 256.
Definition configMAX_PRIORITIES : Z := 8.

(** Of ethernet.c. *)
Definition vStartEthernetTaskLauncher (uxPriority : Z) : prog boot unit :=
  let! _ := @trigger boot (XTaskCreate StartEthernetTask configMINIMAL_STACK_SIZE uxPriority) in
  Ret tt.

Definition create_tasks : prog boot unit :=
  create_task TaskLed TASK_LED_STACK_SIZE tskIDLE_PRIORITY
    (text "Failed to create test led task" ++ crlf);;
  create_task TaskLed2 TASK_LED_STACK_SIZE tskIDLE_PRIORITY
    (text "Failed to create test led task" ++ crlf);;
  create_task TaskSerial TASK_SERIAL_STACK_SIZE tskIDLE_PRIORITY
    (text "Failed to create serial console task" ++ crlf);;
  vStartEthernetTaskLauncher (configMAX_PRIORITIES - 1).

(** The globals are zero at the start; [vTaskStartScheduler] returns only for
    want of memory. *)
Definition main : prog boot Z :=
  init_board fuel;;
  let! _ := identify (replicate (Z.to_nat SN_ASCII_MAXLEN) 0) (replicate 6 0) in
  create_tasks;;
  print (text "Start Scheduler." ++ [10]);;
  @trigger boot StartScheduler;;
  print (text "Insufficient memory." ++ [10]);;
  Ret 0.
End main.
