(* ===== verification/BoardSpec.v ===== *)
(** * The start of the firmware: what it drives, and who it is

    The start-up of Board.v over the port of the board's control outputs
    (PIO A), and the identity it reads from the flash memory on the SPI bus. *)

From S2P Require Import Prelude Prog Pio Pmc Clock Ioport Usart Uart Twi TwiBus FpgaTwi.
From S2P Require Import Spi Flash FlashBus Text Xvc Serial Emac Ethernetif Board PioPins.

(** ** The board over an environment of the hardware *)

(** [start] is what must hold when the scheduler is started. *)
Definition boot_env {S} (start : S -> Prop) (N : env hw S) : env boot S := {|
  req (e : op boot) s := match e with BHw e => req N e s | StartScheduler => start s | _ => True end;
  step (e : op boot) s := match e return boot_ans e -> S -> Prop with
    | BHw e => fun x s' => step N e s x s'
    | _ => fun _ s' => s' = s
    end
|}.

Lemma wp_drv {S A} start (N : env hw S) (p : prog hw A) Q s : wp N p Q s -> wp (boot_env start N) (drv p) Q s.
Proof.
  revert s. induction p as [a|h|e k IH]; intros s Hp; [done..|].
  destruct Hp as [Hr Hk]. split; [done|]. intros x s' Hs. apply IH. by apply Hk.
Qed.

Lemma wp_print {S A} start (N : env hw S) t (next : prog boot A) Q s :
  wp (boot_env start N) next Q s -> wp (boot_env start N) (print t;; next) Q s.
Proof. intros HQ. split; [done|]. by intros [] s' ->. Qed.

Lemma wp_unless {S A} start (N : env hw S) (b : bool) t (next : prog boot A) Q s :
  wp (boot_env start N) next Q s -> wp (boot_env start N) ((if b then Ret tt else print t);; next) Q s.
Proof. intros HQ. destruct b; [done|]. by apply wp_print. Qed.

(** ** The identity *)

Lemma read_loop_bound n stored :
  returns (fun r : Z * list Z => (length r.2 <= length stored + n)%nat) (spi_read_loop SPI0 stored n).
Proof.
  revert stored. induction n as [|n IH]; intros stored; cbn [spi_read_loop]; [simpl; lia|].
  eapply returns_bind; [apply returns_any|]. intros ready _. destruct (negb ready); [simpl; lia|].
  eapply returns_bind; [apply returns_any|]. intros _ _.
  eapply returns_bind; [apply returns_any|]. intros ok _. destruct (negb ok); [simpl; lia|].
  eapply returns_bind; [apply returns_any|]. intros v _.
  eapply returns_mono; [apply IH|]. intros r. rewrite length_app. simpl. lia.
Qed.

(** The bytes of the identification in the order in which they are shown. *)
Definition swizzled (id stored : list Z) : list Z :=
  let id := stored ++ drop (length stored) id in
  [id !!! 2%nat; id !!! 1%nat; id !!! 0%nat; 0].

Lemma read_id_command fuel id : length id = 4%nat ->
  m25p_read_dev_id fuel id ≈
  (let! (stat, stored) := transact fuel [M25P_RDID] 3 in
   Ret (m25p_of_spi stat, swizzled id stored)).
Proof.
  intros Hid. destruct id as [|a [|b [|c [|d [|]]]]]; try done.
  unfold m25p_read_dev_id, transact. rewrite bind_bind.
  apply bind_proper; [reflexivity|intros _]. rewrite bind_bind.
  apply bind_proper; [reflexivity|intros stat]. rewrite bind_bind.
  apply (prog_rel_bind_returns _ (fun r : Z * list Z => (length r.2 <= 3)%nat)).
  { destruct (stat =? STATUS_OK); [|simpl; lia]. apply (read_loop_bound 3 []). }
  intros [stat' stored] Hl. simpl in Hl.
  destruct stored as [|x [|y [|z [|]]]]; simpl in Hl; try lia; rewrite bind_bind; reflexivity.
Qed.

Section identity.
Context {SL : Type} (exchange : SL -> Z -> Z * SL) (deselect : SL -> SL) (fuel : nat).
#[local] Notation "'flash_env'" := (spi_env exchange deselect).

(** A flash memory that holds [sn] and [mac] in its two fields: in a state in
    which it takes commands ([ready]) it answers READ with the bytes at the
    address, and reading, complete or not, changes neither. *)
Definition reading_commands : list (list Z) :=
  [instruction 0x03 SN_ASCII_OFFSET ++ dummies 26; [M25P_RDID] ++ dummies 3;
   instruction 0x03 MAC_ADDRESS_OFFSET ++ dummies 6].

Record flash_holds (ready : SL -> Prop) (sn mac : list Z) : Prop := {
  holds_sn q : ready q -> answers exchange q (instruction 0x03 SN_ASCII_OFFSET) 26 = sn;
  holds_mac q : ready q -> answers exchange q (instruction 0x03 MAC_ADDRESS_OFFSET) 6 = mac;
  reading_keeps q bs k : ready q -> bs ∈ reading_commands ->
    ready (delivered exchange deselect q (take k bs))
}.

Context (ready : SL -> Prop) (sn mac : list Z) (Hflash : flash_holds ready sn mac).

Definition bus_ready (s : spi_state) : Prop := exists q, ready q /\ bus_idle q s.

(** What an array [old] holds after a reading of [new] that may have been cut
    short by a timeout of the controller. *)
Definition overlaid (old new read : list Z) : Prop :=
  exists j, read = take j new ++ drop (length (take j new)) old.

Lemma overlaid_store old new j : length new = length old ->
  exists read, store old 0 (take j new) = Some read /\ overlaid old new read /\
    length read = length old.
Proof.
  intros Hl. assert (0 + length (take j new) <= length old)%nat by (rewrite length_take; lia).
  rewrite store_in_bounds by done. eexists. split; [done|]. split; [by exists j|].
  simpl. rewrite length_app, length_drop. lia.
Qed.

Lemma wp_read_field address len field s : (0 <= len)%Z ->
  (forall q, ready q -> answers exchange q (instruction 0x03 address) (Z.to_nat len) = field) ->
  (instruction 0x03 address ++ dummies (Z.to_nat len)) ∈ reading_commands ->
  bus_ready s ->
  wp flash_env (m25p_read_data fuel address len) (fun o s' => o = Stop OutOfFuel \/
    exists stat j, o = Done (stat, take j field) /\ bus_ready s') s.
Proof.
  intros Hlen Hf Hin (q & Hq & Hs). eapply peq_wp; [apply read_data_command|].
  change M25P_READ with 0x03. rewrite address_command_instruction.
  eapply wp_seq.
  { apply wp_transact; [|exact Hs]. rewrite <- address_command_instruction.
    apply address_command_bytes. by unfold is_u8. }
  intros o s1 [-> |(stat & k & j & -> & Hs1 & _)]; [by left|]. right.
  eexists _, j. rewrite (Hf q Hq). split; [reflexivity|]. eexists. split; [|exact Hs1].
  by eapply reading_keeps.
Qed.

Lemma wp_read_id id s : length id = 4%nat -> bus_ready s ->
  wp flash_env (m25p_read_dev_id fuel id) (fun o s' => o = Stop OutOfFuel \/
    exists stat id', o = Done (stat, id') /\ bus_ready s') s.
Proof.
  intros Hid (q & Hq & Hs). eapply peq_wp; [by apply read_id_command|].
  eapply wp_seq; [apply wp_transact; [by repeat constructor|exact Hs]|].
  intros o s1 [-> |(stat & k & j & -> & Hs1 & _)]; [by left|]. right.
  eexists _, _. split; [reflexivity|]. eexists. split; [|exact Hs1].
  eapply reading_keeps; [done..|]. by apply list_elem_of_further, list_elem_of_here.
Qed.

(** The serial number: the field, cut to a string, or the empty string when it
    does not start with a letter or a digit. *)
Definition named (field sn : list Z) : Prop :=
  length sn = 26%nat /\ List.last sn 1 = 0 /\
  if isalnum (hd 0 field) then take 25 sn = take 25 field
  else hd 1 sn = 0 /\ take 24 (tail sn) = take 24 (tail field).

Lemma clean_named field : length field = 26%nat ->
  exists sn, clean_serial_number field = Some sn /\ named field sn.
Proof.
  intros Hl. do 26 (destruct field as [|? field]; [done|]).
  destruct field; [|done]. unfold clean_serial_number, named. simpl.
  destruct (isalnum _); eexists; by repeat split.
Qed.

Lemma c_string_terminated t : List.last t 1 = 0 -> exists shown, c_string t = Some shown.
Proof.
  induction t as [|c t IH]; intros Hl; [done|]. cbn [c_string].
  destruct (Z.eqb_spec c 0) as [|Hc]; [by eexists|].
  destruct t as [|c' t]; [by simpl in Hl; subst|]. destruct (IH Hl) as [shown ->]. by eexists.
Qed.

(** The address: the one in the field if it is of the manufacturer, the
    built-in one otherwise. *)
Definition addressed (field mac : list Z) : Prop :=
  length mac = 6%nat /\ take 3 mac = [MRF_OUI_0; MRF_OUI_1; MRF_OUI_2] /\
  (mac = field \/ mac = ETHERNET_CONF_ETHADDR /\ take 3 field <> [MRF_OUI_0; MRF_OUI_1; MRF_OUI_2]).

Lemma choose_addressed field : length field = 6%nat -> addressed field (choose_mac field).2.
Proof.
  intros Hl. unfold choose_mac, addressed.
  change (take 3 ETHERNET_CONF_ETHADDR) with [MRF_OUI_0; MRF_OUI_1; MRF_OUI_2].
  case_bool_decide as H; cbn [snd]; [by auto|]. split; [done|]. split; [done|]. by right.
Qed.

(** ** A prompt controller

    One that finishes each transfer before it is asked again. *)
Definition eager_env : env hw (spi_state (SL := SL)) := {|
  req (_ : op hw) _ := True;
  step (e : op hw) s (x : ans hw e) s' := (x, s') = eager exchange deselect e s
|}.

Lemma wp_eager {A} (p : prog hw A) Q s :
  Q (erun exchange deselect p s).1 (erun exchange deselect p s).2 -> wp eager_env p Q s.
Proof.
  revert s. unfold erun. induction p as [a|h|e k IH]; intros s HQ; [done..|]. split; [done|].
  intros x s' Hx. cbn [run] in HQ. cbn in Hx. rewrite <- Hx in HQ. by apply IH.
Qed.

Lemma wp_eager_then {A B} (p : prog hw A) (f : A -> prog boot B) a s1 Q s :
  erun exchange deselect p s = (Done a, s1) -> wp (boot_env (fun _ => True) eager_env) (f a) Q s1 ->
  wp (boot_env (fun _ => True) eager_env) (bind (drv p) f) Q s.
Proof.
  intros Hp Hf. apply (wp_seq _ _ _ (fun o s' => o = Done a /\ s' = s1)).
  - apply wp_drv, wp_eager. by rewrite Hp.
  - by intros o s' [-> ->].
Qed.

Lemma eager_read_field n address len field s : (0 <= len)%Z ->
  (forall q, ready q -> answers exchange q (instruction 0x03 address) (Z.to_nat len) = field) ->
  (instruction 0x03 address ++ dummies (Z.to_nat len)) ∈ reading_commands ->
  bus_ready s ->
  exists s', erun exchange deselect (m25p_read_data (S n) address len) s = (Done (M25P_SUCCESS, field), s') /\ bus_ready s'.
Proof.
  intros Hlen Hf Hin (q & Hq & Hs). rewrite (erun_peq _ _ _ _ s (read_data_command (S n) address len)), erun_bind.
  destruct (erun_transacted exchange deselect n q (address_command M25P_READ address) (Z.to_nat len) s)
    as (s' & -> & Hs'); [apply address_command_bytes; unfold is_u8, M25P_READ; lia|done|].
  change M25P_READ with 0x03 in *. rewrite address_command_instruction in *. rewrite (Hf q Hq). exists s'. split; [done|].
  eexists. split; [|exact Hs']. rewrite <- (firstn_all (_ ++ _)). by apply (reading_keeps _ _ _ Hflash).
Qed.

Lemma eager_read_id n id s : length id = 4%nat -> bus_ready s ->
  exists id' s', erun exchange deselect (m25p_read_dev_id (S n) id) s = (Done (M25P_SUCCESS, id'), s') /\ bus_ready s'.
Proof.
  intros Hid (q & Hq & Hs). rewrite (erun_peq _ _ _ _ s (read_id_command (S n) id Hid)), erun_bind.
  destruct (erun_transacted exchange deselect n q [M25P_RDID] 3 s) as (s' & -> & Hs'); [by repeat constructor|done|].
  eexists _, s'. split; [reflexivity|]. eexists. split; [|exact Hs'].
  rewrite <- (firstn_all (_ ++ _)). apply (reading_keeps _ _ _ Hflash); [done|]. by apply list_elem_of_further, list_elem_of_here.
Qed.

Lemma store_all old new : length new = length old -> store old 0 new = Some new.
Proof. intros Hl. rewrite store_in_bounds by lia. simpl. by rewrite drop_ge, app_nil_r by lia. Qed.

Lemma identified_promptly n date time id s : length id = 4%nat -> length sn = 26%nat ->
  length mac = 6%nat -> bus_ready s ->
  wp (boot_env (fun _ => True) eager_env) (identify (S n) date time id (replicate 26 0) (replicate 6 0)) (fun o _ =>
    exists sn' mac', o = Done (sn', mac') /\ named sn sn' /\ addressed mac mac') s.
Proof.
  intros Hid Hsn Hmac Hs. unfold identify. rewrite length_replicate.
  destruct (eager_read_field n SN_ASCII_OFFSET 26 sn s) as (s1 & Hr1 & Hs1); [done|apply Hflash|by left|done|].
  eapply wp_eager_then; [exact Hr1|]. cbv beta iota. rewrite store_all by by rewrite length_replicate.
  cbn [defined bind]. destruct (clean_named sn) as (sn' & -> & Hsn'); [done|]. cbn [defined bind].
  apply wp_print. destruct (c_string_terminated sn') as [shown ->]; [apply Hsn'|].
  cbn [defined bind]. do 2 apply wp_print.
  destruct (eager_read_id n id s1) as (id' & s2 & Hr2 & Hs2); [done..|].
  eapply wp_eager_then; [exact Hr2|]. cbv beta iota. apply wp_unless, wp_print.
  destruct (eager_read_field n MAC_ADDRESS_OFFSET 6 mac s2) as (s3 & Hr3 & _); [done|apply Hflash|by do 2 right; left|done|].
  eapply wp_eager_then; [exact Hr3|]. cbv beta iota. rewrite store_all by by rewrite length_replicate.
  cbn [defined bind]. pose proof (choose_addressed mac Hmac) as Ha. destruct (choose_mac mac) as [kept mac'].
  apply wp_unless, wp_print. by exists sn', mac'.
Qed.

(** C33: Who the board is.  Against a flash memory with the fields [sn] and
    [mac], and a controller that finishes each transfer before it is asked
    again, the start-up ends with a serial number that is a string within its
    array, the one of the flash memory if that starts with a letter or a digit,
    and with a MAC address of the manufacturer, the one of the flash memory if
    that is one.  Whatever the timing of the transfers, unless the wait for the
    end of the last one goes on for ever, it ends so with what was read in the
    place of the fields: a reading that times out has a part of the field and
    behind it the zeroes of the array, and counts the same, so that the address
    may be one cut short. *)
Theorem identity_from_flash date time id s : length id = 4%nat -> length sn = 26%nat ->
  length mac = 6%nat -> bus_ready s ->
  ((0 < fuel)%nat ->
   wp (boot_env (fun _ => True) eager_env) (identify fuel date time id (replicate 26 0) (replicate 6 0)) (fun o _ =>
     exists sn' mac', o = Done (sn', mac') /\ named sn sn' /\ addressed mac mac') s) /\
  wp (boot_env (fun _ => True) flash_env) (identify fuel date time id (replicate 26 0) (replicate 6 0)) (fun o _ =>
    o = Stop OutOfFuel \/
    exists sn' mac' sn_read mac_read, o = Done (sn', mac') /\
      overlaid (replicate 26 0) sn sn_read /\ named sn_read sn' /\
      overlaid (replicate 6 0) mac mac_read /\ addressed mac_read mac') s.
Proof.
  intros Hid Hsn Hmac Hs. split.
  { intros Hf. destruct fuel as [|n]; [lia|]. by apply identified_promptly. }
  unfold identify. rewrite length_replicate.
  eapply wp_seq; [apply wp_drv, (wp_read_field _ _ sn); [done|apply Hflash|by left|done]|].
  intros o s1 [-> |(stat & j & -> & Hs1)]; [by left|]. cbn [andthen].
  destruct (overlaid_store (replicate 26 0) sn j) as (sn_read & -> & Hsn_read & Hl); [done|].
  cbn [defined bind]. destruct (clean_named sn_read) as (sn' & -> & Hsn'); [done|]. cbn [defined bind].
  apply wp_print. destruct (c_string_terminated sn') as [shown ->]; [apply Hsn'|].
  cbn [defined bind]. do 2 apply wp_print.
  eapply wp_seq; [by apply wp_drv, wp_read_id|].
  intros o s2 [-> |(stat2 & id2 & -> & Hs2)]; [by left|]. cbn [andthen].
  apply wp_unless, wp_print.
  eapply wp_seq; [apply wp_drv, (wp_read_field _ _ mac); [done|apply Hflash|by do 2 right; left|done]|].
  intros o s3 [-> |(stat3 & j3 & -> & Hs3)]; [by left|]. cbn [andthen].
  destruct (overlaid_store (replicate 6 0) mac j3) as (mac_read & -> & Hmac_read & Hl3); [done|].
  cbn [defined bind]. pose proof (choose_addressed mac_read Hl3) as Ha.
  destruct (choose_mac mac_read) as [kept mac']. apply wp_unless, wp_print. right.
  by exists sn', mac', sn_read, mac_read.
Qed.
End identity.

(** A flash memory that answers what [content] has at the address it has been
    sent; its state is the bytes since its chip select fell. *)
Definition flash_device (content : Z -> Z) (sent : list Z) (b : Z) : Z * list Z :=
  (match sent with
   | 0x03 :: a2 :: a1 :: a0 :: rest => content (65536 * a2 + 256 * a1 + a0 + Z.of_nat (length rest))
   | _ => 0xFF
   end, sent ++ [b]).

Definition sample_sn : list Z := text "EVM1234" ++ replicate 19 0xFF.
Definition sample_mac : list Z := [0x00; 0x0E; 0xB2; 0x12; 0x34; 0x56].
Definition sample_content (a : Z) : Z :=
  if (SN_ASCII_OFFSET <=? a) && (a <? SN_ASCII_OFFSET + 26) then
    sample_sn !!! Z.to_nat (a - SN_ASCII_OFFSET)
  else if (MAC_ADDRESS_OFFSET <=? a) && (a <? MAC_ADDRESS_OFFSET + 6) then
    sample_mac !!! Z.to_nat (a - MAC_ADDRESS_OFFSET)
  else 0xFF.

Lemma sample_flash_holds :
  flash_holds (flash_device sample_content) (fun _ => []) (fun q => q = []) sample_sn sample_mac.
Proof. constructor; [by intros q ->..|done]. Qed.

Lemma identity_from_flash_witness :
  let exchange := flash_device sample_content in
  ((0 < 5)%nat -> wp (boot_env (fun _ => True) (eager_env exchange (fun _ => [])))
    (identify 5 (text "Jan  1 2020") (text "12:00:00") [1; 2; 3; 4] (replicate 26 0) (replicate 6 0))
    (fun o _ => exists sn' mac', o = Done (sn', mac') /\ named sample_sn sn' /\ addressed sample_mac mac')
    (SpiState 0 None None 0 false [])) /\
  wp (boot_env (fun _ => True) (spi_env exchange (fun _ => [])))
    (identify 5 (text "Jan  1 2020") (text "12:00:00") [1; 2; 3; 4] (replicate 26 0) (replicate 6 0))
    (fun o _ => o = Stop OutOfFuel \/
      exists sn' mac' sn_read mac_read, o = Done (sn', mac') /\
        overlaid (replicate 26 0) sample_sn sn_read /\ named sn_read sn' /\
        overlaid (replicate 6 0) sample_mac mac_read /\ addressed mac_read mac')
    (SpiState 0 None None 0 false []).
Proof.
  apply (identity_from_flash _ _ 5 _ _ _ sample_flash_holds); [done..|].
  exists []. split; [done|]. by repeat split.
Defined.

(** ** The control outputs

    The reset of the VME crate and the power-down of the board hang on PIO A. *)

Definition in_port (a : Z) : bool := (PIOA <=? a) && (a <? PIOA + 0x100).

(** Neither output is driven high. *)
Definition outputs_low (p : port) : Prop :=
  drives_only VMERESETOUT false p /\ drives_only PWRDWN false p.

(** Both outputs are driven low. *)
Definition driven_low (p : port) : Prop :=
  forall i, i = VMERESETOUT \/ i = PWRDWN -> driven i p = true /\ Z.testbit (odsr p) i = false.

(** The port in the hardware, everything else answering anything; the
    synchronous data register, which the port of PioPins.v does not have, is
    not to be written. *)
Definition outputs_env : env hw port := {|
  req (e : op hw) p := match e with
    | Wr a v => in_port a = true -> a <> PIO_ODSR PIOA /\ outputs_low (port_set (a - PIOA) v p)
    | _ => True
    end;
  step (e : op hw) p := match e return hw_ans e -> port -> Prop with
    | Wr a v => fun _ p' => p' = if in_port a then port_set (a - PIOA) v p else p
    | _ => fun _ p' => p' = p
    end
|}.

Definition control_mask : Z := Z.lor (Z.shiftl 1 VMERESETOUT) (Z.shiftl 1 PWRDWN).

(** The writes that could raise, release or hand over an output. *)
Definition sensitive (a : Z) : bool :=
  (a =? PIO_PDR PIOA) || (a =? PIO_ODR PIOA) || (a =? PIO_SODR PIOA) || (a =? PIO_ODSR PIOA).

Definition quiet (e : op hw) : Prop :=
  match e with
  | Wr a v => negb (sensitive a) || (negb (a =? PIO_ODSR PIOA) && (Z.land v control_mask =? 0)) = true
  | _ => True
  end.

(** Under the control of the PIO with the data bit clear, and enabled if
    among [on]. *)
Definition controlled (on : Z -> Prop) (p : port) : Prop :=
  forall i, i = VMERESETOUT \/ i = PWRDWN ->
    Z.testbit (psr p) i = true /\ Z.testbit (odsr p) i = false /\
    (on i -> Z.testbit (osr p) i = true).

Lemma controlled_low on p : controlled on p -> outputs_low p.
Proof. intros H. split; intros _; apply H; auto. Qed.

Lemma mask_bit v i : i = VMERESETOUT \/ i = PWRDWN -> Z.land v control_mask = 0 -> Z.testbit v i = false.
Proof.
  intros Hi Hv. apply (f_equal (fun z => Z.testbit z i)) in Hv.
  rewrite Z.land_spec, Z.bits_0 in Hv.
  assert (Z.testbit control_mask i = true) as Hm by (by destruct Hi as [-> | ->]).
  by rewrite Hm, andb_true_r in Hv.
Qed.

Lemma set_keeps r v i : Z.testbit r i = true -> Z.testbit (PioPins.set_bits r v) i = true.
Proof. intros H. unfold PioPins.set_bits. by rewrite Z.lor_spec, H. Qed.
Lemma clear_keeps r v i : Z.testbit r i = false -> Z.testbit (PioPins.clear_bits r v) i = false.
Proof. intros H. unfold PioPins.clear_bits. by rewrite Z.ldiff_spec, H. Qed.

Lemma controlled_set on k v p : controlled on p ->
  (k = 0x4 \/ k = 0x14 \/ k = 0x30 -> Z.land v control_mask = 0) ->
  controlled on (port_set k v p).
Proof.
  intros Hc Hk i Hi. destruct (Hc i Hi) as (He & Hd & Ho).
  pose proof (fun H => mask_bit v i Hi (Hk H)) as Hv.
  destruct p as [e0 o0 d0 i0 m0 u0 b0 f0]. cbn [psr odsr osr] in *.
  unfold port_set.
  repeat match goal with |- context [if ?b then _ else _] => destruct b eqn:? end;
    to_prop; subst; cbn [psr odsr osr];
    (split; [|split]); try done; try intros Hon; try specialize (Ho Hon);
    rewrite ?set_bits_off, ?clear_bits_off by auto; auto using set_keeps, clear_keeps.
Qed.

Lemma quiet_keeps on e p : quiet e -> controlled on p ->
  req outputs_env e p /\ forall x p', step outputs_env e p x p' -> controlled on p'.
Proof.
  intros He Hp. destruct e as [a|a v|a d|n| |t|t|c|]; try (split; [done|]; by intros x p' ->).
  cbn [quiet] in He. unfold sensitive, PIO_PDR, PIO_ODR, PIO_SODR, PIO_ODSR in He.
  assert (controlled on (port_set (a - PIOA) v p) /\ a <> PIO_ODSR PIOA) as [Hset Hne].
  { unfold PIO_ODSR. apply orb_true_iff in He as [He|He].
    - rewrite !negb_orb, !andb_true_iff in He. destruct He as [[[? ?] ?] ?]. to_prop.
      split; [|done]. apply controlled_set; [done|]. lia.
    - apply andb_true_iff in He as [? ?]. to_prop. split; [|done]. by apply controlled_set. }
  split; [intros _; split; [done|]; by eapply controlled_low|].
  intros x p' ->. by destruct (in_port a).
Qed.

(** ** The drivers of the start-up leave the outputs alone *)

Create HintDb quiet.

Lemma quiet_modify a f : sensitive a = false -> only quiet (modify a f).
Proof. intros Ha. apply only_bind; [done|]. intros v. split; [|done]. simpl. by rewrite Ha. Qed.

Lemma quiet_poll n cond : only quiet cond -> only quiet (poll n cond).
Proof.
  intros Hc. induction n as [|n IH]; cbn [poll]; (apply only_bind; [done|]); intros c;
    by destruct (negb (c =? 0)).
Qed.

Ltac head_of p := match p with ?f _ => head_of f | _ => p end.

(** Programs made of calls, sequencing, loops and functions, which are opened
    unless their quietness is in the database; writes are checked by
    computation. *)
Ltac quiet_tac :=
  repeat first
    [ solve [auto 1 with quiet nocore]
    | match goal with
      | |- only _ (Ret _) => exact I
      | |- only _ (Halt _) => exact I
      | |- only _ (bind _ _) => apply only_bind; [|intros ?]
      | |- only _ (iter _ _ _) => apply only_iter; intros ?
      | |- only _ (modify _ _) => apply quiet_modify; reflexivity
      | |- only _ (poll _ _) => apply quiet_poll
      | |- only _ (wr _ _) => split; [reflexivity|intros ?; exact I]
      | |- only _ (rd _) => split; [exact I|intros ?; exact I]
      | |- only _ (trigger _) => split; [exact I|intros ?; exact I]
      | |- only _ (if ?b then _ else _) =>
        first [progress closed_tests; cbv iota|destruct b]
      | |- only _ (match ?x with _ => _ end) =>
        first [progress closed_tests; cbv iota|destruct x]
      | |- only _ (let _ := _ in _) => cbv zeta
      | |- only _ ?p => let f := head_of p in unfold f
      end ].

Lemma quiet_defined {A} (o : option A) : only quiet (E := hw) (defined o).
Proof. by destruct o. Qed.

Lemma quiet_ready_within t m : only quiet (ready_within t m).
Proof. induction t as [|t IH]; cbn [ready_within]; quiet_tac. Qed.

#[export] Hint Resolve quiet_defined quiet_ready_within : quiet.

Lemma quiet_write_loop data n : only quiet (spi_write_loop SPI0 data n).
Proof. revert data. induction n as [|n IH]; intros data; cbn [spi_write_loop]; quiet_tac. Qed.

Lemma quiet_read_loop stored n : only quiet (spi_read_loop SPI0 stored n).
Proof. revert stored. induction n as [|n IH]; intros stored; cbn [spi_read_loop]; quiet_tac. Qed.

#[export] Hint Resolve quiet_write_loop quiet_read_loop : quiet.

Lemma quiet_enable_clock id : only quiet (pmc_enable_periph_clk id).
Proof. quiet_tac. Qed.
#[export] Hint Resolve quiet_enable_clock : quiet.

Lemma quiet_sysclk fuel : only quiet (sysclk_init fuel).
Proof. quiet_tac. Qed.
Lemma quiet_console fuel : only quiet (configure_console fuel).
Proof. quiet_tac. Qed.
Lemma quiet_twi : only quiet fpga_twi_init.
Proof. quiet_tac. Qed.
Lemma quiet_flash : only quiet m25p_spi_init.
Proof. quiet_tac. Qed.

Lemma quiet_uart_pins : only quiet (pio_configure_pin_group PINS_UART_PIO PINS_UART PINS_UART_FLAGS).
Proof. quiet_tac. Qed.
Lemma quiet_read_data fuel address len : only quiet (m25p_read_data fuel address len).
Proof. quiet_tac. Qed.
Lemma quiet_read_id fuel id : only quiet (m25p_read_dev_id fuel id).
Proof. quiet_tac. Qed.

(** ** The start-up *)

#[local] Notation "'the_board'" := (boot_env driven_low outputs_env).

Definition calm (e : op boot) : Prop :=
  match e with BHw e => quiet e | Print _ | XTaskCreate _ _ _ => True | _ => False end.

Lemma wp_calm {A B} on (p : prog boot A) (f : A -> prog boot B) s :
  only calm p -> controlled on s ->
  (forall a s', controlled on s' -> wp the_board (f a) (fun _ _ => True) s') ->
  wp the_board (bind p f) (fun _ _ => True) s.
Proof.
  intros Hp Hs Hf. eapply wp_seq; [apply (wp_only _ calm (controlled on)); [|done..]|].
  - intros [e|e|t|t st pr|] s1 He Hs1; try done; [by apply quiet_keeps|..];
      (split; [done|]); by intros x s2 ->.
  - intros [a|h] s' Hs'; [by apply Hf|done].
Qed.

Lemma calm_drv {A} (p : prog hw A) : only quiet p -> only calm (drv p).
Proof. by apply only_embed. Qed.

(** The calls of the XVC server that are register accesses. *)
Definition quiet_xvc (e : op xvc) : Prop := match e with XHw e => quiet e | _ => False end.

Lemma calm_xvc {A} (p : prog xvc A) : only quiet_xvc p -> only calm (of_xvc p).
Proof. apply only_embed. by intros []. Qed.

Lemma quiet_configure_pin pin flags : only quiet (pio_configure_pin pin flags) ->
  only quiet_xvc (configure_pin pin flags).
Proof. intros Hp. apply only_bind; [|done]. by apply (only_embed quiet). Qed.

Lemma quiet_xvc_init : only quiet_xvc Xvc.xvc_server_init.
Proof.
  unfold Xvc.xvc_server_init.
  repeat (apply only_bind; [apply quiet_configure_pin; quiet_tac|intros _]).
  apply quiet_configure_pin. quiet_tac.
Qed.

(** One of the two outputs is enabled. *)
Lemma controlled_enable on pin v p : controlled on p -> Z.testbit v pin = true ->
  controlled (fun i => on i \/ i = pin) (port_set 0x10 v p).
Proof.
  intros Hc Hv i Hi. destruct (Hc i Hi) as (He & Hd & Ho).
  destruct p as [e0 o0 d0 i0 m0 u0 b0 f0]. cbn in *.
  split; [done|]. split; [done|]. intros [Hon| ->]; [by apply set_keeps, Ho|by apply set_bits_on].
Qed.

Lemma wp_output_low {B} on pin (f : unit -> prog boot B) s :
  pin = VMERESETOUT \/ pin = PWRDWN -> controlled on s ->
  (forall s', controlled (fun i => on i \/ i = pin) s' -> wp the_board (f tt) (fun _ _ => True) s') ->
  wp the_board (bind (drv (output_pin pin false)) f) (fun _ _ => True) s.
Proof.
  intros Hpin Hs Hf.
  set (mask := Z.shiftl 1 pin). set (next := wr (PIO_OWER PIOA) mask;; wr (PIO_CODR PIOA) mask).
  assert (output_pin pin false = (wr (PIO_OER PIOA) mask;; next)) as -> by (by destruct Hpin as [-> | ->]).
  assert (only quiet next) as Hn by (subst next mask; destruct Hpin as [-> | ->]; quiet_tac).
  apply wp_bind. split; [by eapply quiet_keeps; [|exact Hs]|]. intros [] s1 ->. apply wp_bind.
  apply (wp_calm (fun i => on i \/ i = pin) (drv next)); [by apply calm_drv| |by intros []].
  apply controlled_enable; [done|]. subst mask. by destruct Hpin as [-> | ->].
Qed.

Ltac calm_tac :=
  repeat first
    [ apply calm_drv; quiet_tac
    | match goal with
      | |- only _ (bind _ _) => apply only_bind; [|intros ?]
      | |- only _ (Ret _) => exact I
      | |- only _ (Halt _) => exact I
      | |- only _ (print _) => split; [exact I|intros ?; exact I]
      | |- only _ (trigger _) => split; [exact I|intros ?; exact I]
      | |- only _ (if ?b then _ else _) => destruct b
      | |- only _ (match ?x with _ => _ end) => destruct x
      | |- only _ (let _ := _ in _) => cbv zeta
      end ].

Lemma calm_pins pins : Forall (fun p : Z * bool => only quiet (output_pin p.1 p.2)) pins ->
  only calm (drv (output_pins pins)).
Proof.
  intros Hp. apply calm_drv. induction Hp as [|[pin level] pins Hp _ IH]; [done|]. by apply only_bind.
Qed.

Lemma calm_identify fuel date time id sn mac : only calm (identify fuel date time id sn mac).
Proof. unfold identify, defined. calm_tac. Qed.

Lemma calm_create_tasks : only calm create_tasks.
Proof. unfold create_tasks, create_task, vStartEthernetTaskLauncher. calm_tac. Qed.

(** The next call that keeps the outputs as they are. *)
Ltac calm_step := eapply wp_calm;
  [first [apply calm_xvc, quiet_xvc_init|apply calm_pins; repeat constructor; quiet_tac|calm_tac]
  |eassumption|intros ? ? ?].

Lemma board_pins_split : drv (output_pins board_pins) =
  (drv (output_pins (take 8 board_pins));;
   drv (output_pin VMERESETOUT false);; drv (output_pin PWRDWN false);; Ret tt).
Proof. reflexivity. Qed.

Lemma wp_init_board {B} fuel (f : unit -> prog boot B) s : controlled (fun _ => False) s ->
  (forall s', controlled (fun i => (False \/ i = VMERESETOUT) \/ i = PWRDWN) s' ->
     wp the_board (f tt) (fun _ _ => True) s') ->
  wp the_board (bind (init_board fuel) f) (fun _ _ => True) s.
Proof.
  intros Hs Hf. unfold init_board. do 10 (step_in; calm_step). rewrite board_pins_split.
  do 2 step_in. calm_step.
  step_in. eapply wp_output_low; [by left|eassumption|intros ? ?].
  step_in. eapply wp_output_low; [by right|eassumption|intros ? ?]. cbn [bind].
  do 5 (step_in; calm_step). calm_step. match goal with x : unit |- _ => destruct x end. by apply Hf.
Qed.

(** C16: The outputs of the board at the start.  From the state after a reset
    (the PIO in control of the pins, their data bits clear), whatever the
    hardware answers: no register write of the start-up, from the first line of
    [main] through the clocks, the console, the drivers and the reading of the
    flash memory, ever drives the reset of the VME crate or the power-down of
    the board high, and when the scheduler is started both are driven low. *)
Theorem outputs_held_low fuel date time id s : controlled (fun _ => False) s ->
  wp (boot_env driven_low outputs_env) (main fuel date time id) (fun _ _ => True) s.
Proof.
  intros Hs. unfold main. apply wp_init_board; [done|]. intros s1 Hs1.
  eapply wp_calm; [apply calm_identify|exact Hs1|intros _ s2 Hs2].
  eapply wp_calm; [apply calm_create_tasks|exact Hs2|intros _ s3 Hs3]. calm_step.
  split; [|by intros [] s4 ->]. intros i Hi. destruct (H i Hi) as (He & Hd & Ho).
  split; [|done]. unfold driven. rewrite He, Ho; [done|]. destruct Hi; auto.
Qed.

(** The registers of PIO A after a reset. *)
Definition reset_port : port := Port 0xFFFFFFFF 0 0 0 0 0 0 0.

Lemma outputs_held_low_witness :
  wp (boot_env driven_low outputs_env)
    (main 5 (text "Jan  1 2020") (text "12:00:00") [1; 2; 3; 4]) (fun _ _ => True) reset_port.
Proof. apply outputs_held_low. intros i [-> | ->]; by repeat split. Defined.
