(* ===== verification/Identity.v ===== *)
(** * The identity of the board, entered and read back

    The monitor of Serial.v linked to the driver of Flash.v and the memory of
    FlashStore.v, and the start-up of Board.v on the same memory: what is
    entered with the commands E and S is who the board is after a restart. *)

From S2P Require Import Prelude Prog Pio Text Twi TwiBus FpgaTwi Spi Flash FlashBus FlashStore Serial SerialSpec Board BoardSpec.

(** ** The monitor on the driver *)

Inductive monop := MSer (e : serop) | MHw (e : hwop).
Definition mon_ans (e : monop) : Type := match e with MSer e => serop_ans e | MHw e => hw_ans e end.
Definition mon : Sig := {| op := monop; ans := mon_ans |}.

Section linked.
Context (lasts : list Z -> nat) (fuel : nat).

#[local] Notation "'after'" := (delivered m25p_exchange (m25p_deselect lasts)).
#[local] Notation "'prompt'" := (erun m25p_exchange (m25p_deselect lasts)).

Definition flash_driver (c : flash_call) : prog hw m25p_status_t :=
  match c with
  | FWriteEnable => m25p_write_enable (S fuel)
  | FSectorErase a => m25p_sector_erase (S fuel) a
  | FWriteDisable => m25p_write_disable (S fuel)
  | FWaitReady => ext_flash_wait_for_ready (S fuel)
  | FWriteMac m => ext_flash_write_mac_address (S fuel) m
  | FWriteSn sn n => ext_flash_write_sn (S fuel) sn n
  end.

(** The flash functions are the driver's; the other calls stay. *)
Definition linked_call (e : serop) : prog mon (serop_ans e) :=
  match e as e return prog mon (serop_ans e) with
  | SFlash c => @embed hw mon MHw (fun e x => x) _ (flash_driver c)
  | e => @trigger mon (MSer e)
  end.

Definition linked {A} (p : prog ser A) : prog mon A := @interp ser mon linked_call A p.

Definition mon_handler (e : monop) (st : desk * spi_state) : mon_ans e * (desk * spi_state) :=
  match e as e return mon_ans e * (desk * spi_state) with
  | MSer e => let '(x, d) := desk_handler e st.1 in (x, (d, st.2))
  | MHw e => let '(x, s) := eager m25p_exchange (m25p_deselect lasts) e st.2 in (x, (st.1, s))
  end.

Definition lrun {A} (p : prog mon A) (st : desk * spi_state) : outcome A * (desk * spi_state) :=
  @run mon (desk * spi_state) A mon_handler p st.

Lemma lrun_driver {A} (p : prog hw A) d s :
  lrun (@embed hw mon MHw (fun e x => x) _ p) (d, s) = ((prompt p s).1, (d, (prompt p s).2)).
Proof.
  unfold lrun, erun. revert s. induction p as [a|h|e k IH]; intros s; [done..|]. simpl.
  destruct (eager m25p_exchange (m25p_deselect lasts) e s) as [x s']. apply IH.
Qed.

Lemma lrun_bind_driver {A B} (p : prog hw A) (f : A -> prog mon B) d s :
  lrun (bind (@embed hw mon MHw (fun e x => x) _ p) f) (d, s) =
  match prompt p s with
  | (Done a, s') => lrun (f a) (d, s')
  | (Stop x, s') => (Stop x, (d, s'))
  end.
Proof.
  pose proof (lrun_driver p d s) as Hl. unfold lrun in *. rewrite run_bind, Hl.
  by destruct (prompt p s) as [[a|x] s'].
Qed.

(** *** What the calls do to the memory *)

Definition flash_effect (q : m25p) (c : flash_call) : m25p :=
  match c with
  | FWriteEnable => after q [M25P_WREN]
  | FSectorErase a => after q (instruction M25P_SE a)
  | FWriteDisable => after q [M25P_WRDI]
  | FWaitReady => M25P (cells q) (wel q) 0 []
  | FWriteMac m => enabled lasts q (instruction M25P_PP MAC_ADDRESS_OFFSET ++ m)
  | FWriteSn sn n => enabled lasts q (instruction M25P_PP SN_ASCII_OFFSET ++ take (Z.to_nat n) sn)
  end.

(** The arguments that the functions may be called with. *)
Definition proper_call (c : flash_call) : Prop :=
  match c with
  | FWriteMac m => length m = 6%nat /\ Forall is_u8 m
  | FWriteSn sn n => 0 <= n <= 26 /\ (Z.to_nat n <= length sn)%nat /\ Forall is_u8 (take (Z.to_nat n) sn)
  | _ => True
  end.

Context (Hlasts : forall tx, Z.of_nat (lasts tx) < 100000).

(** Between calls: no cycle takes longer than the driver waits. *)
Definition steady (q : m25p) : Prop := at_ease q /\ Z.of_nat (busy q) < 100000.

Lemma after_steady q bs : steady q -> steady (after q bs).
Proof.
  intros [Hq Hb]. rewrite after_eq by done. unfold m25p_deselect. cbn [busy frame cells wel].
  destruct (busy q) as [|n]; [|split; [done|simpl in *; lia]].
  repeat case_match; split; simpl; try done; apply Hlasts.
Qed.

Lemma effect_steady q c : steady q -> steady (flash_effect q c).
Proof. intros Hq. destruct c; simpl; try (by split); unfold enabled; auto using after_steady. Qed.

Lemma driver_effect c q s : proper_call c -> bus_idle q s -> steady q ->
  exists s', prompt (flash_driver c) s = (Done M25P_SUCCESS, s') /\ bus_idle (flash_effect q c) s'.
Proof.
  intros Hc Hs [Hq Hb]. destruct c as [|a| | |m|sn n]; simpl in *.
  - by apply prompt_enable.
  - eapply prompt_command; [rewrite <- address_command_instruction; apply sector_erase_command| |done].
    rewrite <- address_command_instruction. by apply address_command_bytes.
  - by apply prompt_disable.
  - by apply prompt_wait.
  - destruct Hc as [Hl H8]. by apply prompt_write_mac.
  - destruct Hc as (Hn & Hl & H8). pose proof (prompt_write_sn lasts fuel sn (Z.to_nat n) q s ltac:(lia) Hl H8 Hs) as Hw.
    by rewrite Z2Nat.id in Hw by lia.
Qed.

(** *** The linked monitor does what the monitor does *)

Lemma flashed_grows {A} (p : prog ser A) d : exists calls, flashed (drun p d).2 = flashed d ++ calls.
Proof.
  unfold drun. revert d. induction p as [a|h|e k IH]; intros d; [by exists []; rewrite app_nil_r..|]. simpl.
  destruct (desk_handler e d) as [x d'] eqn:He. destruct (IH x d') as [calls ->].
  destruct e as [| | | | | |c| |]; simpl in He; injection He as <- <-; cbn [flashed]; try (by exists calls).
  exists (c :: calls). by rewrite <- app_assoc.
Qed.

Definition screen (d : desk) : desk := Desk (input d) (output d) [] true.

Lemma linked_run {A} (p : prog ser A) d q s calls :
  ready d = true -> bus_idle q s -> steady q ->
  flashed (drun p d).2 = flashed d ++ calls -> Forall proper_call calls ->
  exists s', lrun (linked p) (screen d, s) = ((drun p d).1, (screen (drun p d).2, s')) /\
    bus_idle (fold_left flash_effect calls q) s' /\ steady (fold_left flash_effect calls q).
Proof.
  revert d q s calls. induction p as [a|h|e k IH]; intros d q s calls Hd Hs Hq Hc Hp.
  1,2: assert (calls = []) as -> by (apply (f_equal length) in Hc; cbn in Hc; rewrite length_app in Hc;
    destruct calls; [done|simpl in Hc; lia]); by exists s.
  destruct (desk_handler e d) as [x d'] eqn:He.
  assert (drun (Vis e k) d = drun (k x) d') as Hrun by (unfold drun; simpl; by rewrite He).
  rewrite Hrun in *. destruct e as [cs| | | |call| |c|a|a v]; cbn in He; injection He as <- <-;
    try (match goal with |- context [drun (k ?x) ?d'] =>
      destruct (IH x d' q s calls Hd Hs Hq Hc Hp) as (s' & Hr & Hs'); exists s'; split; [exact Hr|exact Hs'] end).
  match goal with |- context [drun (k ?x) ?d'] => set (x0 := x) in *; set (d0 := d') in * end.
  destruct (flashed_grows (k x0) d0) as [calls' Hc']. rewrite Hc' in Hc.
  cbn [d0 flashed] in Hc. rewrite <- app_assoc in Hc. apply app_inv_head in Hc. subst calls.
  apply list.Forall_cons in Hp as [Hpc Hp].
  destruct (driver_effect c q s Hpc Hs Hq) as (s1 & Hr1 & Hs1).
  destruct (IH x0 d0 _ s1 calls' Hd Hs1 (effect_steady q c Hq) Hc' Hp) as (s' & Hr & Hs').
  exists s'. split; [|exact Hs']. rewrite <- Hr.
  pose proof (lrun_bind_driver (flash_driver c) (fun x => linked (k x)) (screen d) s) as Hl.
  rewrite Hr1 in Hl. etransitivity; [exact Hl|]. unfold x0. rewrite Hd. by destruct c.
Qed.

(** *** The two fields after an erase and a set-up *)

Definition stored_cells (m name : list Z) (old : Z -> Z) : Z -> Z :=
  program_page SN_ASCII_OFFSET name (program_page MAC_ADDRESS_OFFSET m (erase_sector MAC_ADDRESS_OFFSET old)).

Lemma waited m q' : cycle_done lasts m q' -> flash_effect q' FWaitReady = M25P m (wel q') 0 [].
Proof. by intros [<- _]. Qed.

Lemma erase_effect q a :
  flash_effect (flash_effect (flash_effect q FWriteEnable) (FSectorErase a)) FWriteDisable =
  enabled lasts q (instruction M25P_SE a).
Proof. cbn [flash_effect]. unfold enabled. reflexivity. Qed.

(** A cycle and the wait for its end. *)
Lemma programmed m w c a data : 0 <= a < 2 ^ 24 -> data <> [] ->
  flash_effect (M25P m w 0 []) c = enabled lasts (M25P m w 0 []) (instruction M25P_PP a ++ data) ->
  exists w', flash_effect (flash_effect (M25P m w 0 []) c) FWaitReady = M25P (program_page a data m) w' 0 [].
Proof.
  intros Ha Hd ->. eexists. apply waited. by apply (enabled_program lasts (M25P m w 0 [])).
Qed.

Lemma setup_stored q m sn n : steady q -> busy q = 0%nat -> length m = 6%nat -> take (Z.to_nat n) sn <> [] ->
  exists w, fold_left flash_effect
    [FWriteEnable; FSectorErase MAC_ADDRESS_OFFSET; FWriteDisable; FWaitReady;
     FWriteMac m; FWaitReady; FWriteSn sn n; FWaitReady] q =
    M25P (stored_cells m (take (Z.to_nat n) sn) (cells q)) w 0 [].
Proof.
  intros [Hq _] Hb Hm Hsn. cbn [fold_left]. rewrite erase_effect.
  assert (0 <= MAC_ADDRESS_OFFSET < 2 ^ 24 /\ 0 <= SN_ASCII_OFFSET < 2 ^ 24) as [Ham Has]
    by (unfold MAC_ADDRESS_OFFSET, SN_ASCII_OFFSET; lia).
  rewrite (waited _ _ (enabled_erase lasts q MAC_ADDRESS_OFFSET Hq Hb Ham)).
  destruct (programmed (erase_sector MAC_ADDRESS_OFFSET (cells q))
    (wel (enabled lasts q (instruction M25P_SE MAC_ADDRESS_OFFSET))) (FWriteMac m) MAC_ADDRESS_OFFSET m)
    as (w1 & ->); [done|by destruct m|by cbn [flash_effect]|].
  match goal with |- context [M25P ?c w1 0 []] =>
    destruct (programmed c w1 (FWriteSn sn n) SN_ASCII_OFFSET (take (Z.to_nat n) sn)) as (w2 & ->) end;
    [done|done|by cbn [flash_effect]|by exists w2].
Qed.
End linked.

Lemma map_seq_list (f : nat -> Z) l : (forall i x, l !! i = Some x -> f i = x) -> map f (seq 0 (length l)) = l.
Proof.
  intros Hf. apply list_eq. intros i. rewrite list_lookup_fmap.
  destruct (decide (i < length l)%nat) as [Hi|Hi].
  - rewrite lookup_seq_lt by done. destruct (lookup_lt_is_Some_2 l i Hi) as [x Hx]. rewrite Hx. simpl. f_equal.
    by apply Hf.
  - rewrite lookup_seq_ge, lookup_ge_None_2 by lia. done.
Qed.

(** A byte programmed into an erased cell. *)
Lemma u8_programmed x : is_u8 x -> u8 (Z.land 255 x) = x.
Proof.
  intros Hx. change 255 with (Z.ones 8). rewrite Z.land_comm, Z.land_ones by lia.
  unfold u8. rewrite Zmod_mod. by apply Z.mod_small.
Qed.

Lemma stored_mac m name old : length m = 6%nat -> (length name <= 26)%nat -> Forall is_u8 m ->
  map (fun i => u8 (stored_cells m name old (MAC_ADDRESS_OFFSET + Z.of_nat i))) (seq 0 6) = m.
Proof.
  intros Hm Hn H8. rewrite <- Hm. apply map_seq_list. intros i x Hx.
  pose proof (lookup_lt_Some _ _ _ Hx) as Hi. unfold stored_cells, MAC_ADDRESS_OFFSET, SN_ASCII_OFFSET.
  assert ((0xFC0000 + Z.of_nat i) / 256 = 0xFC00) as Hpage by (Z.to_euclidean_division_equations; lia).
  assert ((0xFC0000 + Z.of_nat i - 0xFC0006) mod 256 = 250 + Z.of_nat i) as Hoff
    by (Z.to_euclidean_division_equations; lia).
  assert ((0xFC0000 + Z.of_nat i - 0xFC0000) mod 256 = Z.of_nat i) as Hoff'
    by (Z.to_euclidean_division_equations; lia).
  assert ((0xFC0000 + Z.of_nat i) / 2 ^ 18 = 63) as Hsec by (Z.to_euclidean_division_equations; lia).
  unfold program_page, erase_sector. rewrite Hpage, Hoff, Hoff', Hsec, Nat2Z.id, Hx.
  change (0xFC00 =? 0xFC0006 / 256) with true. change (0xFC00 =? 0xFC0000 / 256) with true.
  change (63 =? 0xFC0000 / 2 ^ 18) with true. rewrite lookup_ge_None_2 by lia.
  apply list.Forall_forall with (x := x) in H8; [|by eapply list_elem_of_lookup_2].
  by apply u8_programmed.
Qed.

Lemma stored_sn m name old : length m = 6%nat -> (length name <= 26)%nat -> Forall is_u8 name ->
  map (fun i => u8 (stored_cells m name old (SN_ASCII_OFFSET + Z.of_nat i))) (seq 0 26) =
  name ++ replicate (26 - length name) 0xFF.
Proof.
  intros Hm Hn H8. assert (length (name ++ replicate (26 - length name) 0xFF) = 26%nat) as Hl
    by (rewrite length_app, length_replicate; lia).
  rewrite <- Hl at 1. apply map_seq_list. intros i x Hx.
  pose proof (lookup_lt_Some _ _ _ Hx) as Hi. rewrite Hl in Hi.
  unfold stored_cells, MAC_ADDRESS_OFFSET, SN_ASCII_OFFSET.
  assert ((0xFC0006 + Z.of_nat i) / 256 = 0xFC00) as Hpage by (Z.to_euclidean_division_equations; lia).
  assert ((0xFC0006 + Z.of_nat i - 0xFC0006) mod 256 = Z.of_nat i) as Hoff
    by (Z.to_euclidean_division_equations; lia).
  assert ((0xFC0006 + Z.of_nat i - 0xFC0000) mod 256 = 6 + Z.of_nat i) as Hoff'
    by (Z.to_euclidean_division_equations; lia).
  assert ((0xFC0006 + Z.of_nat i) / 2 ^ 18 = 63) as Hsec by (Z.to_euclidean_division_equations; lia).
  unfold program_page, erase_sector. rewrite Hpage, Hoff, Hoff', Hsec, Nat2Z.id.
  change (0xFC00 =? 0xFC0006 / 256) with true. change (0xFC00 =? 0xFC0000 / 256) with true.
  change (63 =? 0xFC0000 / 2 ^ 18) with true. rewrite (lookup_ge_None_2 m) by lia.
  destruct (name !! i) as [b|] eqn:Hb.
  - rewrite lookup_app_l in Hx by (by eapply lookup_lt_Some). rewrite Hb in Hx. injection Hx as ->.
    apply list.Forall_forall with (x := x) in H8; [|by eapply list_elem_of_lookup_2].
    by apply u8_programmed.
  - apply lookup_ge_None_1 in Hb. rewrite lookup_app_r in Hx by done.
    apply lookup_replicate in Hx as [-> _]. done.
Qed.

(** ** The start-up *)

Section restart.
Context (lasts : list Z -> nat) (fuel : nat).
#[local] Notation "'prompt'" := (erun m25p_exchange (m25p_deselect lasts)).

(** The prompt controller and the memory as an environment. *)
Definition prompt_env : env hw (spi_state (SL := m25p)) := eager_env m25p_exchange (m25p_deselect lasts).

Lemma prompt_read_id id q s : length id = 4%nat -> bus_idle q s -> at_ease q -> busy q = 0%nat ->
  exists id' s', prompt (m25p_read_dev_id (S fuel) id) s = (Done (M25P_SUCCESS, id'), s') /\ bus_idle q s'.
Proof.
  intros Hid Hs Hq Hb. rewrite (erun_peq _ _ _ _ s (read_id_command (S fuel) id Hid)), erun_bind.
  destruct (erun_transacted m25p_exchange (m25p_deselect lasts) fuel q [M25P_RDID] 3 s) as (s' & -> & Hs');
    [by repeat constructor|done|].
  eexists _, s'. split; [reflexivity|]. rewrite after_eq in Hs' by done. rewrite Hb in Hs'.
  destruct q as [m w b f]. cbn in *. by rewrite Hq, Hb.
Qed.

Lemma identify_reads date time id sn mac sn' shown q s : length id = 4%nat ->
  bus_idle q s -> at_ease q -> busy q = 0%nat ->
  map (fun i => u8 (cells q (SN_ASCII_OFFSET + Z.of_nat i))) (seq 0 26) = sn ->
  map (fun i => u8 (cells q (MAC_ADDRESS_OFFSET + Z.of_nat i))) (seq 0 6) = mac ->
  clean_serial_number sn = Some sn' -> c_string sn' = Some shown ->
  wp (boot_env (fun _ => True) prompt_env)
    (identify (S fuel) date time id (replicate 26 0) (replicate 6 0))
    (fun o _ => o = Done (sn', (choose_mac mac).2)) s.
Proof.
  intros Hid Hs Hq Hb Hsn Hmac Hclean Hshown.
  assert (length sn = 26%nat /\ length mac = 6%nat) as [Hlsn Hlmac]
    by (subst; by rewrite !length_map, !length_seq).
  unfold identify. rewrite length_replicate.
  destruct (prompt_read lasts fuel SN_ASCII_OFFSET 26 q s) as (s1 & Hr1 & Hs1); [done..|].
  eapply wp_eager_then; [exact Hr1|]. rewrite Hsn. cbv beta iota. rewrite store_all by by rewrite length_replicate.
  cbn [defined bind]. rewrite Hclean. cbn [defined bind]. apply wp_print. rewrite Hshown.
  cbn [defined bind]. do 2 apply wp_print.
  destruct (prompt_read_id id q s1) as (id' & s2 & Hr2 & Hs2); [done..|].
  eapply wp_eager_then; [exact Hr2|]. cbv beta iota. apply wp_unless, wp_print.
  destruct (prompt_read lasts fuel MAC_ADDRESS_OFFSET 6 q s2) as (s3 & Hr3 & Hs3); [done..|].
  eapply wp_eager_then; [exact Hr3|]. rewrite Hmac. cbv beta iota. rewrite store_all by by rewrite length_replicate.
  cbn [defined bind]. destruct (choose_mac mac) as [kept mac']. by apply wp_unless, wp_print.
Qed.
End restart.

(** ** From the keys to the next start *)

Lemma edit_keys_u8 len ks st : Forall is_u8 st.1 -> Forall is_u8 (fold_left (edit_key len) ks st).1.
Proof.
  revert st. induction ks as [|k ks IH]; intros [t out] Ht; [done|]. apply IH. cbn [fst] in Ht.
  unfold edit_key. destruct (isprint k) eqn:Hk.
  - case_match; [|done]. apply Forall_app. split; [done|]. constructor; [|done].
    unfold isprint in Hk. rewrite andb_true_iff, !Z.leb_le in Hk. unfold is_u8. lia.
  - case_match; [|done]. cbn [fst]. destruct t as [|x t _] using rev_ind; [done|].
    rewrite removelast_last. by apply Forall_app in Ht as [Ht _].
Qed.

(** What the start makes of a stored name. *)
Lemma clean_entered new pad : Forall (fun c => c <> 0) new -> (length new + length pad = 25)%nat ->
  new = [] \/ isalnum (hd 0 new) = true ->
  exists sn, clean_serial_number (new ++ 0 :: pad) = Some sn /\ c_string sn = Some new.
Proof.
  intros Hz Hl Hn. exists (<[25%nat := 0]> (new ++ 0 :: pad)). split.
  - assert (length (new ++ 0 :: pad) = 26%nat) as Hl' by (rewrite length_app; simpl; lia).
    destruct Hn as [-> | Hn]; [unfold clean_serial_number; simpl in *; by rewrite Hl|].
    destruct new as [|c new]; [done|]. unfold clean_serial_number. simpl in *. rewrite Hn. simpl.
    injection Hl' as ->. done.
  - rewrite insert_app_r_alt by lia. destruct (25 - length new)%nat; by apply c_string_app.
Qed.

Lemma drun_erase inp out : drun command_erase (Desk (text "yes" ++ inp) out [] true) =
  (Done tt, Desk inp (drun command_erase (Desk (text "yes" ++ inp) out [] true)).2.(output)
     [FWriteEnable; FSectorErase MAC_ADDRESS_OFFSET; FWriteDisable; FWaitReady] true).
Proof.
  destruct (erase_report_inverted (text "yes" ++ inp) out [] true) as (inp' & out' & Hin & ->).
  by rewrite (Hin eq_refl).
Qed.

(** The commands E and S. *)
Definition enter_identity (fuel : nat) (mac serial_number garbage_mac garbage_sn : list Z) : prog ser unit :=
  command_erase;; command_setup fuel mac serial_number garbage_mac garbage_sn.

(** The calls of the flash functions. *)
Definition identity_calls (m sn : list Z) (n : Z) : list flash_call :=
  [FWriteEnable; FSectorErase MAC_ADDRESS_OFFSET; FWriteDisable; FWaitReady;
   FWriteMac m; FWaitReady; FWriteSn sn n; FWaitReady].

Definition entered_mac (d : Z) : list Z :=
  [0x00; 0x0E; 0xB2; u8 (Z.shiftr d 16); u8 (Z.shiftr d 8); u8 d].

Lemma entered_mac_u8 d : Forall is_u8 (entered_mac d).
Proof. repeat (constructor; [first [apply u8_range|unfold is_u8; lia]|]); constructor. Qed.

(** The monitor over its desk: the fields it writes. *)
Lemma drun_enter fuel mac serial_number old garbage_mac garbage_sn ds t ks c rest out :
  c_string serial_number = Some old -> (length old < 26)%nat -> Forall is_u8 old -> length garbage_sn = 26%nat ->
  Forall (fun c => is_xdigit c = true) ds -> ds <> [] -> (length ds < 8)%nat -> t = 13 \/ t = 10 ->
  Forall (fun k => stop_key k = false) ks -> c = 13 \/ c = 10 -> (length ks < fuel)%nat ->
  let new := (fold_left (edit_key 26) ks (old, [])).1 in
  Forall is_u8 (new ++ [0]) /\ Forall (fun c => c <> 0) new /\ (length new < 26)%nat /\
  exists sn d1, take (length new + 1) sn = new ++ [0] /\
    drun (enter_identity fuel mac serial_number garbage_mac garbage_sn)
      (Desk (text "yes" ++ ds ++ t :: ks ++ c :: text "yes" ++ rest) out [] true) = (Done tt, d1) /\
    flashed d1 = identity_calls (entered_mac (hex_value ds)) sn (Z.of_nat (length new) + 1).
Proof.
  intros Hold Hlo H8 Hlg Hds Hne Hl Ht Hks Hc Hf new. unfold enter_identity. rewrite drun_bind, drun_erase.
  match goal with |- context [drun (command_setup _ _ _ _ _) (Desk _ ?o ?w true)] =>
    destruct (drun_setup fuel mac serial_number old garbage_mac garbage_sn ds t ks c (text "yes" ++ rest) o w true)
      as (inp' & out' & sn & Hk & Hsn & Hlsn & Hr) end;
    try done; try (by unfold SN_ASCII_MAXLEN; lia); [by destruct Ht as [-> | ->]|by destruct Hc as [-> | ->]|].
  assert ((c =? 3) = false) as Hc3 by by destruct Hc as [-> | ->]. rewrite Hc3 in *.
  destruct (c_string_spec sn new Hsn) as (Hln & _ & Hz). rewrite Hlsn, Hlg in Hln.
  split; [|split; [exact Hz|split; [exact Hln|]]].
  { apply Forall_app. split; [by apply edit_keys_u8|]. constructor; [unfold is_u8; lia|constructor]. }
  eexists sn, _. split; [exact Hk|]. split; [exact Hr|]. cbn [flashed].
  change (confirms (text "yes" ++ rest)) with true. cbn match.
  rewrite bool_decide_false by done. by destruct Ht as [-> | ->].
Qed.

(** The linked monitor leaves the fields in the memory. *)
Lemma identity_calls_proper m name sn : length m = 6%nat -> Forall is_u8 m -> take (length name) sn = name ->
  (length name <= 26)%nat -> Forall is_u8 name ->
  Forall proper_call (identity_calls m sn (Z.of_nat (length name))).
Proof.
  intros Hm Hm8 Hk Hl H8. assert (length name <= length sn)%nat as Hls by (rewrite <- Hk, length_take; lia).
  unfold identity_calls. do 4 (constructor; [exact I|]). constructor; [by split|].
  constructor; [exact I|]. constructor; [|by constructor]. unfold proper_call. rewrite Nat2Z.id, Hk.
  split; [lia|by split].
Qed.

(** The memory at rest holds [m] and the string [name] where the start looks
    for them. *)
Definition holds_identity (m name : list Z) (q : m25p) : Prop :=
  at_ease q /\ busy q = 0%nat /\ exists old, cells q = stored_cells m (name ++ [0]) old.

Lemma identity_stored lasts fuel {A} (p : prog ser A) d d1 q s m name sn a :
  drun p d = (Done a, d1) -> ready d = true -> flashed d = [] ->
  flashed d1 = identity_calls m sn (Z.of_nat (length name) + 1) ->
  (forall tx, Z.of_nat (lasts tx) < 100000) -> bus_idle q s -> at_ease q -> busy q = 0%nat ->
  length m = 6%nat -> Forall is_u8 m -> (length name < 26)%nat -> Forall is_u8 (name ++ [0]) ->
  take (length name + 1) sn = name ++ [0] ->
  exists s' q', lrun lasts (linked fuel p) (screen d, s) = (Done a, (screen d1, s')) /\
    bus_idle q' s' /\ holds_identity m name q'.
Proof.
  intros Hr Hrd Hfd Hfl Hlasts Hs Hq Hb Hm Hm8 Hln Hn8 Hk.
  assert (Z.of_nat (length name) + 1 = Z.of_nat (length (name ++ [0]))) as Hlen by (rewrite length_app; simpl; lia).
  assert (take (length (name ++ [0])) sn = name ++ [0]) as Hk' by (by rewrite length_app).
  rewrite Hlen in Hfl.
  destruct (linked_run lasts fuel Hlasts p d q s (flashed d1)) as (s' & Hrun & Hs' & _); [done|done| | | |].
  - split; [done|rewrite Hb; lia].
  - by rewrite Hr, Hfd.
  - rewrite Hfl. apply identity_calls_proper; [done..|rewrite length_app; simpl; lia|done].
  - destruct (setup_stored lasts q m sn (Z.of_nat (length (name ++ [0])))) as (w & Hw); [|done|done| |].
    + split; [done|rewrite Hb; lia].
    + rewrite Nat2Z.id, Hk'. by destruct name.
    + rewrite Hfl in Hs'. unfold identity_calls in Hs'. rewrite Hw, Nat2Z.id, Hk' in Hs'.
      exists s'. eexists. split; [by rewrite Hrun, Hr|]. split; [exact Hs'|]. repeat split. by eexists.
Qed.

(** The start finds them. *)
Lemma identity_found lasts fuel date time id m name q s :
  bus_idle q s -> holds_identity m name q -> length m = 6%nat -> Forall is_u8 m ->
  (length name < 26)%nat -> Forall is_u8 (name ++ [0]) -> Forall (fun c => c <> 0) name ->
  name = [] \/ isalnum (hd 0 name) = true -> length id = 4%nat ->
  wp (boot_env (fun _ => True) (prompt_env lasts))
    (identify (S fuel) date time id (replicate 26 0) (replicate 6 0))
    (fun o _ => exists sn, c_string sn = Some name /\ o = Done (sn, (choose_mac m).2)) s.
Proof.
  intros Hs (Hq & Hb & old & Hcells) Hm Hm8 Hln Hn8 Hz Hn Hid.
  assert (length (name ++ [0%Z]) <= 26)%nat as Hl26 by (rewrite length_app; simpl; lia).
  destruct (clean_entered name (replicate (25 - length name) 0xFF)) as (sn & Hclean & Hshown);
    [done|rewrite length_replicate; lia|done|].
  eapply wp_mono; [apply (identify_reads lasts fuel date time id
    (name ++ 0 :: replicate (25 - length name) 0xFF) m sn name q s); try done|].
  - rewrite Hcells, stored_sn by done. rewrite <- app_assoc, length_app. cbn [length app].
    by replace (26 - (length name + 1))%nat with (25 - length name)%nat by lia.
  - rewrite Hcells. by apply stored_mac.
  - intros o _ ->. by exists sn.
Qed.

(** C9: From the keys to the next start.  On a memory at rest, whatever it
    holds and however long its cycles take (as long as the driver waits),
    command E confirmed and command S with up to seven digits, an edited line
    and a confirmation run to their end over the linked driver; and whenever
    the firmware starts on a memory that has these contents, the address it
    gives to the Ethernet interface is the vendor's prefix with the low bytes
    of the number entered, and its serial number is the text of the edited
    line, for every text that is empty or starts with a letter or digit. *)
Theorem identity_survives_restart lasts fuel fuel' mac serial_number old garbage_mac garbage_sn ds t ks c rest out q s :
  (forall tx, Z.of_nat (lasts tx) < 100000) ->
  bus_idle q s -> at_ease q -> busy q = 0%nat ->
  c_string serial_number = Some old -> (length old < 26)%nat -> Forall is_u8 old -> length garbage_sn = 26%nat ->
  Forall (fun c => is_xdigit c = true) ds -> ds <> [] -> (length ds < 8)%nat -> t = 13 \/ t = 10 ->
  Forall (fun k => stop_key k = false) ks -> c = 13 \/ c = 10 -> (length ks < fuel')%nat ->
  let d := hex_value ds in
  let new := (fold_left (edit_key 26) ks (old, [])).1 in
  new = [] \/ isalnum (hd 0 new) = true ->
  exists d' s' q',
    lrun lasts (linked fuel (enter_identity fuel' mac serial_number garbage_mac garbage_sn))
      (Desk (text "yes" ++ ds ++ t :: ks ++ c :: text "yes" ++ rest) out [] true, s) = (Done tt, (d', s')) /\
    bus_idle q' s' /\
    forall q2 s2 date time id, cells q2 = cells q' -> at_ease q2 -> busy q2 = 0%nat -> bus_idle q2 s2 ->
      length id = 4%nat ->
      wp (boot_env (fun _ => True) (prompt_env lasts))
        (identify (S fuel) date time id (replicate 26 0) (replicate 6 0))
        (fun o _ => exists sn, c_string sn = Some new /\
           o = Done (sn, [0x00; 0x0E; 0xB2; u8 (Z.shiftr d 16); u8 (Z.shiftr d 8); u8 d])) s2.
Proof.
  intros Hlasts Hs Hq Hb Hold Hlo H8 Hlg Hds Hne Hl Ht Hks Hc Hf d new Hn.
  destruct (drun_enter fuel' mac serial_number old garbage_mac garbage_sn ds t ks c rest out)
    as (Hn8 & Hz & Hln & sn & d1 & Hk & Hr & Hfl); [done..|].
  destruct (identity_stored lasts fuel _ _ d1 q s (entered_mac d) new sn tt Hr eq_refl eq_refl Hfl
    Hlasts Hs Hq Hb eq_refl (entered_mac_u8 d) Hln Hn8 Hk) as (s' & q' & Hrun & Hs' & _ & _ & cells0 & Hcells).
  exists (screen d1), s', q'. split; [exact Hrun|]. split; [exact Hs'|].
  intros q2 s2 date time id Hc2 Hq2 Hb2 Hs2 Hid.
  assert (holds_identity (entered_mac d) new q2) as Hh by (split; [done|]; split; [done|]; exists cells0; by rewrite Hc2).
  exact (identity_found lasts fuel date time id (entered_mac d) new q2 s2 Hs2 Hh eq_refl (entered_mac_u8 d)
    Hln Hn8 Hz Hn Hid).
Qed.

(** An old memory full of zeros, the number 12AB, and the name R1 changed to R2
    by a backspace. *)
Lemma identity_survives_restart_witness :
  let q := M25P (fun _ => 0) false 0 [] in
  let typed := text "yes" ++ text "12AB" ++ 13 :: [8; 50] ++ 10 :: text "yes" ++ [] in
  let new := (fold_left (edit_key 26) [8; 50] (text "R1", [])).1 in
  exists d' s' q',
    lrun (fun _ => 7%nat)
      (linked 0 (enter_identity 5 [0;0;0;0;0;0] (text "R1" ++ [0]) [9;9;9;9;9;9] (replicate 26 7)))
      (Desk typed [] [] true, SpiState 0 None None 0 false q) = (Done tt, (d', s')) /\
    bus_idle q' s' /\
    forall q2 s2 date time id, cells q2 = cells q' -> at_ease q2 -> busy q2 = 0%nat -> bus_idle q2 s2 ->
      length id = 4%nat ->
      wp (boot_env (fun _ => True) (prompt_env (fun _ => 7%nat)))
        (identify 1 date time id (replicate 26 0) (replicate 6 0))
        (fun o _ => exists sn, c_string sn = Some new /\
           o = Done (sn, [0x00; 0x0E; 0xB2; u8 (Z.shiftr (hex_value (text "12AB")) 16);
                          u8 (Z.shiftr (hex_value (text "12AB")) 8); u8 (hex_value (text "12AB"))])) s2.
Proof.
  apply (identity_survives_restart (fun _ => 7%nat) 0 5 [0;0;0;0;0;0] (text "R1" ++ [0]) (text "R1")
    [9;9;9;9;9;9] (replicate 26 7) (text "12AB") 13 [8; 50] 10 [] [] (M25P (fun _ => 0) false 0 [])
    (SpiState 0 None None 0 false (M25P (fun _ => 0) false 0 [])));
    first [reflexivity | by intros | by left | by right | simpl; lia | idtac].
  - repeat constructor; unfold is_u8; simpl; lia.
  - repeat constructor.
  - repeat constructor.
Defined.
