(* ===== verification/SysArch.v ===== *)
(** * The operating system layer of lwIP (sys_arch.c)

    src/src/ASF/thirdparty/lwip/lwip-port-1.4.0/sam/sys_arch.c: semaphores,
    mailboxes and threads of the network stack over the queues and tasks of
    FreeRTOS, which are a parameter.  The functions for mutexes are not
    compiled ([LWIP_COMPAT_MUTEX] in cc.h: a mutex is a semaphore).

    A pointer to a handle is the handle it points to, or [None] for NULL; a
    function that changes the handle returns it. *)

From S2P Require Import Prelude Prog.

(** ** The kernel *)

(** [struct stats_syselem], without the counter of errors, for semaphores and
    mailboxes. *)
Record stats_syselem := StatsSyselem { used : Z; max : Z }.
Record stats_sys := StatsSys { sem : stats_syselem; mbox : stats_syselem }.

(** The static variables of sys_arch.c. *)
Record threads := Threads { Threads_TimeoutsList : list Z; NbActiveThreads : Z }.

Class Kernel (E : Sig) := {
  xQueueCreate : Z -> prog E Z;
  vQueueDelete : Z -> prog E unit;
  xQueueSend : Z -> Z -> Z -> prog E Z;
  (** The message, or [None] for [pdFALSE]. *)
  xQueueReceive : Z -> Z -> prog E (option Z);
  vSemaphoreCreateBinary : prog E Z;
  xSemaphoreTake : Z -> Z -> prog E bool;
  xSemaphoreGive : Z -> prog E unit;
  xTaskGetTickCount : prog E Z;
  (** The handle, unless the task could not be created. *)
  xTaskCreate : list Z -> Z -> Z -> Z -> prog E (option Z);
  vPortEnterCritical : prog E unit;
  vPortExitCritical : prog E unit;
  (** [lwip_stats.sys] and the variables of sys_arch.c. *)
  load_stats : prog E stats_sys;
  store_stats : stats_sys -> prog E unit;
  load_threads : prog E threads;
  store_threads : threads -> prog E unit
}.

Definition ERR_OK : Z := 0.
Definition ERR_MEM : Z := -1.
Definition ERR_VAL : Z := -6.
Definition pdTRUE : Z := 1.
Definition errQUEUE_FULL : Z := 0.
Definition SYS_ARCH_TIMEOUT : Z := 0xffffffff.
Definition SYS_MBOX_EMPTY : Z := SYS_ARCH_TIMEOUT.
Definition SYS_MBOX_NULL : Z := 0.
Definition SYS_SEM_NULL : Z := 0.
Definition SYS_ARCH_BLOCKING_TICKTIMEOUT : Z := 10000.
Definition SYS_THREAD_MAX : Z := 8.
Definition configTICK_RATE_HZ : Z := 1000.
Definition portTICK_RATE_MS : Z := 1000 / configTICK_RATE_HZ.
Definition portMAX_DELAY : Z := 0xffffffff.

(** [used++], and [max] if it is now less. *)
Definition one_more (e : stats_syselem) : stats_syselem :=
  let used' := u16 (used e + 1) in StatsSyselem used' (if max e <? used' then used' else max e).
Definition one_less (e : stats_syselem) : stats_syselem := StatsSyselem (u16 (used e - 1)) (max e).

Section sys_arch.
Context {E : Sig} `{Kernel E} (fuel : nat).

Definition sys_init : prog E unit :=
  store_threads (Threads (replicate (Z.to_nat SYS_THREAD_MAX) 0) 0).

(** ** Semaphores *)

(** The error and the handle. *)
Definition sys_sem_new (sem_ : option Z) (count : Z) : prog E (Z * option Z) :=
  match sem_ with
  | None => Ret (ERR_MEM, None)
  | Some _ =>
    vPortEnterCritical;;
    let! s := vSemaphoreCreateBinary in
    let! err_sem :=
      (if negb (s =? SYS_SEM_NULL) then
         let! st := load_stats in
         store_stats (StatsSys (one_more (sem st)) (mbox st));;
         (if count =? 0 then let! _ := xSemaphoreTake s 1 in Ret tt else Ret tt);;
         Ret ERR_OK
       else Ret ERR_MEM) in
    vPortExitCritical;;
    Ret (err_sem, Some s)
  end.

Definition sys_sem_free (sem_ : option Z) : prog E unit :=
  match sem_ with
  | None => Ret tt
  | Some s =>
    if negb (SYS_SEM_NULL =? s) then
      let! st := load_stats in
      store_stats (StatsSys (one_less (sem st)) (mbox st));;
      vQueueDelete s
    else Ret tt
  end.

Definition sys_sem_signal (sem_ : option Z) : prog E unit :=
  match sem_ with None => Ret tt | Some s => xSemaphoreGive s end.

(** The timeout in ticks, at least one if it is not 0. *)
Definition ticks_of (timeout : Z) : Z :=
  let TickElapsed := timeout / portTICK_RATE_MS in
  if negb (timeout =? 0) && (TickElapsed =? 0) then 1 else TickElapsed.

(** The milliseconds between two readings of the tick counter. *)
Definition elapsed_ms (TickStart TickStop : Z) : Z :=
  let TickElapsed :=
    if TickStart <=? TickStop then u32 (TickStop - TickStart)
    else u32 (portMAX_DELAY - TickStart + TickStop) in
  u32 (TickElapsed * portTICK_RATE_MS).

Definition sys_arch_sem_wait (sem_ : option Z) (timeout : Z) : prog E Z :=
  match sem_ with
  | None => Ret (u32 ERR_MEM)
  | Some s =>
    let TickElapsed := ticks_of timeout in
    let! TickStart := xTaskGetTickCount in
    let! taken :=
      (if 0 =? TickElapsed then
         iter fuel (fun _ => let! ok := xSemaphoreTake s SYS_ARCH_BLOCKING_TICKTIMEOUT in
                             Ret (if ok : bool then inr true else inl tt)) tt
       else xSemaphoreTake s TickElapsed) in
    if taken : bool then
      let! TickStop := xTaskGetTickCount in Ret (elapsed_ms TickStart TickStop)
    else Ret SYS_ARCH_TIMEOUT
  end.

Definition sys_sem_valid (s : Z) : Z := s.
Definition sys_sem_set_invalid : Z := SYS_SEM_NULL.

(** ** Mailboxes *)

Definition sys_mbox_new (mBoxNew : option Z) (size : Z) : prog E (Z * option Z) :=
  match mBoxNew with
  | None => Ret (ERR_MEM, None)
  | Some _ =>
    let! q := xQueueCreate size in
    (if negb (SYS_MBOX_NULL =? q) then
       let! st := load_stats in store_stats (StatsSys (sem st) (one_more (mbox st)))
     else Ret tt);;
    Ret (ERR_OK, Some q)
  end.

Definition sys_mbox_free (mbox_ : option Z) : prog E unit :=
  match mbox_ with
  | None => Ret tt
  | Some q =>
    if negb (SYS_MBOX_NULL =? q) then
      let! st := load_stats in
      store_stats (StatsSys (sem st) (one_less (mbox st)));;
      vQueueDelete q
    else Ret tt
  end.

Definition sys_mbox_post (mbox_ : option Z) (msg : Z) : prog E unit :=
  match mbox_ with
  | None => Ret tt
  | Some q =>
    iter fuel (fun _ => let! r := xQueueSend q msg SYS_ARCH_BLOCKING_TICKTIMEOUT in
                        Ret (if r =? pdTRUE then inr tt else inl tt)) tt
  end.

Definition sys_mbox_trypost (mbox_ : option Z) (msg : Z) : prog E Z :=
  match mbox_ with
  | None => Ret ERR_MEM
  | Some q =>
    let! r := xQueueSend q msg 0 in Ret (if negb (r =? errQUEUE_FULL) then ERR_OK else ERR_MEM)
  end.

(** The result and what is stored through [msg], or in its place if it is NULL. *)
Definition sys_arch_mbox_fetch (mbox_ : option Z) (timeout : Z) : prog E (Z * option Z) :=
  match mbox_ with
  | None => Ret (u32 ERR_MEM, None)
  | Some q =>
    let TickElapsed := ticks_of timeout in
    let! TickStart := xTaskGetTickCount in
    let! got :=
      (if 0 =? TickElapsed then
         iter fuel (fun _ => let! r := xQueueReceive q SYS_ARCH_BLOCKING_TICKTIMEOUT in
                             Ret (match r with Some m => inr (Some m) | None => inl tt end)) tt
       else xQueueReceive q TickElapsed) in
    match got with
    | Some m =>
      let! TickStop := xTaskGetTickCount in Ret (elapsed_ms TickStart TickStop, Some m)
    | None => Ret (SYS_ARCH_TIMEOUT, Some 0)
    end
  end.

Definition sys_arch_mbox_tryfetch (mbox_ : option Z) : prog E (Z * option Z) :=
  match mbox_ with
  | None => Ret (SYS_MBOX_EMPTY, None)
  | Some q =>
    let! r := xQueueReceive q 0 in
    Ret (match r with Some m => (0, Some m) | None => (SYS_MBOX_EMPTY, None) end)
  end.

Definition sys_mbox_valid (q : Z) : Z := q.
Definition sys_mbox_set_invalid : Z := SYS_MBOX_NULL.

(** ** Threads and critical regions *)

Definition sys_arch_protect : prog E Z := vPortEnterCritical;; Ret 1.
Definition sys_arch_unprotect (pval : Z) : prog E unit := vPortExitCritical.

(** The handle of the thread, 0 for NULL. *)
Definition sys_thread_new (name : list Z) (thread stacksize prio : Z) : prog E Z :=
  let! result := xTaskCreate name thread stacksize prio in
  let! protectionLevel := sys_arch_protect in
  let! newthread :=
    (match result with
     | Some pid =>
       let! t := load_threads in
       let n := NbActiveThreads t in
       if n <? SYS_THREAD_MAX then
         store_threads (Threads (<[Z.to_nat n := pid]> (Threads_TimeoutsList t)) (u16 (n + 1)));;
         Ret pid
       else Halt Undefined
     | None => Ret 0
     end) in
  sys_arch_unprotect protectionLevel;;
  Ret newthread.
End sys_arch.
