(* ===== verification/SysArchSpec.v ===== *)
(** * How long a mailbox is waited for

    What the network stack may rely on when it waits for messages: an
    interface to the kernel's clock and queues, and what [sys_arch_mbox_fetch]
    and [sys_arch_sem_wait] of SysArch.v return over any kernel that has it. *)

From S2P Require Import Prelude Prog SysArch.

(** ** The clock and one mailbox

    [now] is the number of ticks since the start, of which the tick counter
    shows 32 bits; [posted] is all that has been posted to the mailbox, and the
    first [taken] of it have been fetched. *)
Record kview := KView { now : Z; posted : list Z; taken : nat }.

(** [d] ticks pass, and other tasks post what they like.  A prompt kernel does
    not keep the thread from running; any kernel lets it run within 2^30 ticks
    (twelve days). *)
Definition passes (prompt : bool) (d : Z) (k k' : kview) : Prop :=
  (if prompt then now k' = now k + d else now k + d <= now k' < now k + d + 2 ^ 30) /\
  taken k' = taken k /\ exists more, posted k' = posted k ++ more.

(** The kernel as the thread that waits sees it; [R] is the rest of the
    environment's state, and [may_wait] what must hold before a wait. *)
Class KernelLaws (E : Sig) `{Kernel E} (R : Type) (prompt : bool) (N : env E (kview * R))
    (may_wait : kview -> R -> Z -> Prop) : Prop := {
  law_tick k r Q :
    (forall k', passes prompt 0 k k' -> Q (Done (u32 (now k'))) (k', r)) -> wp N xTaskGetTickCount Q (k, r);
  (** A message is the oldest that has not been fetched; there is none if the
      wait ends without one. *)
  law_receive q ticks k r Q : may_wait k r ticks ->
    (forall k', passes prompt ticks k k' -> taken k = length (posted k') -> Q (Done None) (k', r)) ->
    (forall d m k', 0 <= d <= ticks -> passes prompt d k k' -> posted k' !! taken k = Some m ->
       Q (Done (Some m)) (KView (now k') (posted k') (S (taken k)), r)) ->
    wp N (xQueueReceive q ticks) Q (k, r)
}.

(** ** The time between two readings *)

Lemma elapsed_exact t0 t1 : t0 <= t1 ->
  elapsed_ms (u32 t0) (u32 t1) = u32 (t1 - t0 - (if u32 t0 <=? u32 t1 then 0 else 1)).
Proof.
  intros Ht. unfold elapsed_ms. change portTICK_RATE_MS with 1. rewrite Z.mul_1_r.
  unfold portMAX_DELAY, u32. change (2 ^ 32) with 4294967296.
  destruct (Z.leb_spec (t0 mod 4294967296) (t1 mod 4294967296)); rewrite Zmod_mod;
    Z.to_euclidean_division_equations; lia.
Qed.

(** What was waited is never overstated, and exact until the counter wraps. *)
Lemma elapsed_bounds t0 t1 : 0 <= t0 <= t1 -> t1 - t0 < 2 ^ 32 ->
  let ms := elapsed_ms (u32 t0) (u32 t1) in
  0 <= ms <= t1 - t0 /\ (t1 < 2 ^ 32 -> ms = t1 - t0).
Proof.
  intros Ht Hd. cbv zeta. rewrite elapsed_exact by lia. unfold u32.
  change (2 ^ 32) with 4294967296 in *.
  destruct (Z.leb_spec (t0 mod 4294967296) (t1 mod 4294967296)); Z.to_euclidean_division_equations; lia.
Qed.

Lemma ticks_of_ms timeout : 0 <= timeout -> ticks_of timeout = timeout.
Proof.
  intros Ht. unfold ticks_of. change portTICK_RATE_MS with 1. rewrite Z.div_1_r.
  destruct (Z.eqb_spec timeout 0); [|done]. by subst.
Qed.

Lemma passes_trans prompt d d' k k1 k2 : passes prompt d k k1 -> passes prompt d' k1 k2 ->
  (if prompt then now k2 = now k + d + d' else now k + d + d' <= now k2 < now k + d + d' + 2 ^ 31) /\
  taken k2 = taken k /\ exists more, posted k2 = posted k ++ more.
Proof.
  intros (Ht & Hk & m1 & Hm1) (Ht' & Hk' & m2 & Hm2). split; [destruct prompt; lia|]. split; [congruence|].
  exists (m1 ++ m2). by rewrite app_assoc, <- Hm1.
Qed.

(** ** Waiting for a message *)

Section fetch.
Context {E : Sig} `{Kernel E} {R : Type} {prompt : bool} {N : env E (kview * R)} {may_wait : kview -> R -> Z -> Prop}.
Context `{!KernelLaws E R prompt N may_wait} (fuel : nat).

(** With a timeout: all messages are gone and the time is over, or the oldest
    message is fetched and the time is the one between two moments of the
    call. *)
Lemma wp_fetch q timeout k r Q : 0 < timeout ->
  (forall k', passes prompt 0 k k' -> may_wait k' r timeout) ->
  (forall k1 k2, passes prompt 0 k k1 -> passes prompt timeout k1 k2 -> taken k = length (posted k2) ->
     Q (Done (SYS_ARCH_TIMEOUT, Some 0)) (k2, r)) ->
  (forall d m k1 k2 k3, 0 <= d <= timeout -> passes prompt 0 k k1 -> passes prompt d k1 k2 ->
     posted k2 !! taken k = Some m -> passes prompt 0 (KView (now k2) (posted k2) (S (taken k))) k3 ->
     Q (Done (elapsed_ms (u32 (now k1)) (u32 (now k3)), Some m)) (k3, r)) ->
  wp N (sys_arch_mbox_fetch fuel (Some q) timeout) Q (k, r).
Proof.
  intros Ht Hw Hnone Hsome. unfold sys_arch_mbox_fetch. rewrite ticks_of_ms by lia.
  apply wp_bind, (law_tick (KernelLaws := _)). intros k1 H1. cbn [andthen].
  rewrite (proj2 (Z.eqb_neq 0 timeout)) by lia.
  assert (taken k1 = taken k) as Htk by apply H1.
  apply wp_bind, (law_receive (KernelLaws := _)); [by apply Hw| |]; cbn [andthen].
  - intros k2 H2 Hl. rewrite Htk in Hl. by apply (Hnone k1 k2).
  - intros d m k2 Hd H2 Hm. rewrite Htk in *. apply wp_bind, (law_tick (KernelLaws := _)). intros k3 H3.
    by apply (Hsome d m k1 k2 k3).
Qed.
End fetch.

(** ** A kernel *)

Inductive kernop :=
| KCreate (size : Z)
| KDelete (q : Z)
| KSend (q msg ticks : Z)
| KReceive (q ticks : Z)
| KSemCreate
| KTake (s ticks : Z)
| KGive (s : Z)
| KTicks
| KTask (stack priority : Z)
| KCritical (enter : bool)
| KLoadStats
| KStoreStats (s : stats_sys)
| KLoadThreads
| KStoreThreads (t : threads).

Definition kern_ans (e : kernop) : Type :=
  match e with
  | KCreate _ | KSend _ _ _ | KSemCreate | KTicks => Z
  | KReceive _ _ | KTask _ _ => option Z
  | KTake _ _ => bool
  | KLoadStats => stats_sys
  | KLoadThreads => threads
  | _ => unit
  end.

Definition kern : Sig := {| op := kernop; ans := kern_ans |}.

#[export] Instance kern_kernel : Kernel kern := {|
  xQueueCreate n := @trigger kern (KCreate n);
  vQueueDelete q := @trigger kern (KDelete q);
  xQueueSend q m t := @trigger kern (KSend q m t);
  xQueueReceive q t := @trigger kern (KReceive q t);
  vSemaphoreCreateBinary := @trigger kern KSemCreate;
  xSemaphoreTake s t := @trigger kern (KTake s t);
  xSemaphoreGive s := @trigger kern (KGive s);
  xTaskGetTickCount := @trigger kern KTicks;
  xTaskCreate _ _ st p := @trigger kern (KTask st p);
  vPortEnterCritical := @trigger kern (KCritical true);
  vPortExitCritical := @trigger kern (KCritical false);
  load_stats := @trigger kern KLoadStats;
  store_stats s := @trigger kern (KStoreStats s);
  load_threads := @trigger kern KLoadThreads;
  store_threads t := @trigger kern (KStoreThreads t)
|}.

(** What a reading of the mailbox answers. *)
Definition received (prompt : bool) (ticks : Z) (k : kview) (x : option Z) (k' : kview) : Prop :=
  match x with
  | None => passes prompt ticks k k' /\ taken k = length (posted k')
  | Some m => exists d k1, 0 <= d <= ticks /\ passes prompt d k k1 /\ posted k1 !! taken k = Some m /\
      k' = KView (now k1) (posted k1) (S (taken k))
  end.

Definition kern_env (prompt : bool) : env kern (kview * unit) := {|
  req (_ : op kern) _ := True;
  step (e : op kern) s := match e return kern_ans e -> kview * unit -> Prop with
    | KTicks => fun x s' => passes prompt 0 s.1 s'.1 /\ x = u32 (now s'.1)
    | KReceive _ ticks => fun x s' => received prompt ticks s.1 x s'.1
    | _ => fun _ s' => passes prompt 0 s.1 s'.1
    end
|}.

#[export] Instance kern_laws prompt : KernelLaws kern unit prompt (kern_env prompt) (fun _ _ _ => True).
Proof.
  split.
  - intros k [] Q HQ. split; [done|]. intros x [k' []] [Hk ->]. by apply HQ.
  - intros q ticks k [] Q _ Hn Hs. split; [done|]. intros [m|] [k' []]; simpl.
    + intros (d & k1 & Hd & Hk & Hm & ->). by apply (Hs d m k1).
    + intros [Hk Hl]. by apply Hn.
Qed.

(** C29: Waiting for a message with a time limit, over any kernel: either the
    limit has passed and every message has been fetched, and the result says
    so; or the oldest message is fetched, exactly once, and the result is the
    time between a moment after the call and a moment before its end, to the
    millisecond unless the tick counter has wrapped in between, when it is one
    less. *)
Theorem mbox_fetch_waited fuel q timeout prompt k : 0 < timeout < 2 ^ 31 -> 0 <= now k ->
  wp (kern_env prompt) (sys_arch_mbox_fetch fuel (Some q) timeout) (fun o '(k', _) =>
    (o = Done (SYS_ARCH_TIMEOUT, Some 0) /\ now k + timeout <= now k' /\
     taken k' = taken k /\ taken k' = length (posted k')) \/
    exists m t0 t1 ms, o = Done (ms, Some m) /\ posted k' !! taken k = Some m /\ taken k' = S (taken k) /\
      now k <= t0 <= t1 /\ t1 <= now k' /\ (prompt = true -> t0 = now k /\ t1 = now k') /\
      ms = t1 - t0 - (if u32 t0 <=? u32 t1 then 0 else 1) /\ ms <> SYS_ARCH_TIMEOUT) (k, tt).
Proof.
  intros Ht Hk. apply wp_fetch; [lia|done| |].
  - intros k1 k2 H1 H2 Hl. left. destruct (passes_trans _ _ _ _ _ _ H1 H2) as (Hn & Htk & _).
    split; [done|]. split; [destruct prompt; lia|]. split; [done|congruence].
  - intros d m k1 k2 k3 Hd H1 H2 Hm H3. right.
    destruct (passes_trans _ _ _ _ _ _ H1 H2) as (Hn & Htk & _).
    destruct H3 as (H3 & Htk3 & more & Hmore). cbn [now posted taken] in *.
    destruct H1 as (H1 & _). destruct H2 as (H2 & _).
    assert (now k <= now k1 <= now k3 /\ now k3 - now k1 < 2 ^ 32 - 1) as [Ho Hlt].
    { change (2 ^ 30) with 1073741824 in *. change (2 ^ 31) with 2147483648 in *.
      change (2 ^ 32) with 4294967296. destruct prompt; lia. }
    exists m, (now k1), (now k3), (elapsed_ms (u32 (now k1)) (u32 (now k3))).
    split; [done|]. split; [rewrite Hmore; by apply lookup_app_l_Some|]. split; [done|]. split; [lia|].
    split; [lia|]. split; [intros ->; lia|].
    pose proof (elapsed_bounds (now k1) (now k3) ltac:(lia) ltac:(lia)) as [Hb _].
    split; [|unfold SYS_ARCH_TIMEOUT; lia].
    rewrite elapsed_exact in * by lia. unfold u32 in *. rewrite Z.mod_small; [done|].
    change (2 ^ 32) with 4294967296 in *.
    destruct (Z.leb_spec (now k1 mod 4294967296) (now k3 mod 4294967296)); [lia|].
    split; [|lia]. Z.to_euclidean_division_equations; lia.
Qed.

Example mbox_fetch_waited_witness :
  let k := KView (2 ^ 32 - 3) [7; 8] 1 in
  wp (kern_env true) (sys_arch_mbox_fetch 5 (Some 1) 250) (fun o '(k', _) =>
    (o = Done (SYS_ARCH_TIMEOUT, Some 0) /\ now k + 250 <= now k' /\
     taken k' = taken k /\ taken k' = length (posted k')) \/
    exists m t0 t1 ms, o = Done (ms, Some m) /\ posted k' !! taken k = Some m /\ taken k' = S (taken k) /\
      now k <= t0 <= t1 /\ t1 <= now k' /\ (true = true -> t0 = now k /\ t1 = now k') /\
      ms = t1 - t0 - (if u32 t0 <=? u32 t1 then 0 else 1) /\ ms <> SYS_ARCH_TIMEOUT) (k, tt).
Proof. apply (mbox_fetch_waited 5 1 250 true (KView (2 ^ 32 - 3) [7; 8] 1)); simpl; lia. Defined.

(** A mailbox is reported as created whatever the kernel answers; a semaphore
    only if it was. *)
Lemma mbox_new_reports_ok h size : returns (fun r => r.1 = ERR_OK) (@sys_mbox_new kern _ (Some h) size).
Proof. cbn. intros q. by destruct (negb _). Qed.

Lemma sem_new_reports h count :
  returns (fun r => exists s, r = (if s =? SYS_SEM_NULL then ERR_MEM else ERR_OK, Some s))
    (@sys_sem_new kern _ (Some h) count).
Proof.
  cbn. intros _ s. destruct (Z.eqb_spec s SYS_SEM_NULL) as [->|Hs]; cbn; [by intros _; exists 0|].
  intros st _. destruct (count =? 0); cbn; intros _; try intros _; exists s;
    by rewrite (proj2 (Z.eqb_neq _ _) Hs).
Qed.

(** The ninth thread is recorded after the end of the list. *)
Definition threads_env : env kern threads := {|
  req (_ : op kern) _ := True;
  step (e : op kern) t := match e return kern_ans e -> threads -> Prop with
    | KTask _ _ => fun x t' => is_Some x /\ t' = t
    | KLoadThreads => fun x t' => x = t /\ t' = t
    | KStoreThreads t1 => fun _ t' => t' = t1
    | _ => fun _ t' => t' = t
    end
|}.

Lemma ninth_thread name f st prio pids :
  wp threads_env (sys_thread_new name f st prio) (fun o _ => o = Stop Undefined) (Threads pids SYS_THREAD_MAX).
Proof.
  split; [done|]. intros x t [[pid ->] ->]. split; [done|]. intros [] t ->. split; [done|]. by intros x t [-> ->].
Qed.
