(* ===== verification/Timers.v ===== *)
(** * The timers of the network stack (lwip_timers_140.c)

    src/src/ASF/thirdparty/lwip/lwip-1.4.0/src/core/lwip_timers_140.c as this
    build configures it: a list of timeouts, each with the time after the one
    before it, that is worked off while the stack waits for messages.

    The functions of the stack that the timers call are a parameter.  Those
    functions may call this file again; a call answers with the calls it made,
    in their order. *)

From S2P Require Import Prelude Prog SysArch.

(** ** Timeouts *)

(** The handlers of this file, and those of other files by their address. *)
Inductive sys_timeout_handler :=
| tcpip_tcp_timer
| ip_reass_timer
| arp_timer
| dhcp_timer_coarse
| dhcp_timer_fine
| handler_at (f : Z).

#[export] Instance handler_eq_dec : EqDecision sys_timeout_handler.
Proof. solve_decision. Defined.

(** [block] is the address of the structure; a handler may be NULL. *)
Record sys_timeo := SysTimeo { block : Z; time : Z; h : option sys_timeout_handler; arg : Z }.

Definition with_time (t : sys_timeo) (time' : Z) : sys_timeo := SysTimeo (block t) time' (h t) (arg t).

Record timers := Timers { next_timeout : list sys_timeo; tcpip_tcp_timer_active : bool }.

(** What a function of the stack may ask of this file. *)
Inductive request :=
| Timeout (msecs : Z) (h : option sys_timeout_handler) (arg : Z)
| Untimeout (h : option sys_timeout_handler) (arg : Z)
| TimerNeeded.

Class Stack (E : Sig) := {
  (** [MEMP_SYS_TIMEOUT]; [None] is NULL. *)
  memp_malloc_timeout : prog E (option Z);
  memp_free_timeout : Z -> prog E unit;
  tcp_tmr : prog E (list request);
  ip_reass_tmr : prog E (list request);
  etharp_tmr : prog E (list request);
  dhcp_coarse_tmr : prog E (list request);
  dhcp_fine_tmr : prog E (list request);
  call_handler : Z -> Z -> prog E (list request);
  (** [tcp_active_pcbs || tcp_tw_pcbs] *)
  tcp_pcbs : prog E bool
}.

Definition TCP_TMR_INTERVAL : Z := 250.
Definition IP_TMR_INTERVAL : Z := 1000.
Definition ARP_TMR_INTERVAL : Z := 5000.
Definition DHCP_COARSE_TIMER_SECS : Z := 60.
Definition DHCP_COARSE_TIMER_MSECS : Z := DHCP_COARSE_TIMER_SECS * 1000.
Definition DHCP_FINE_TIMER_MSECS : Z := 500.

(** The [for] loop of [sys_timeout] at [t], the head of the list. *)
Fixpoint insert_after (timeout : sys_timeo) (l : list sys_timeo) : list sys_timeo :=
  match l with
  | [] => []
  | t :: next =>
    let timeout := with_time timeout (u32 (time timeout - time t)) in
    match next with
    | [] => [t; timeout]
    | n :: rest =>
      if time timeout <? time n
      then t :: timeout :: with_time n (u32 (time n - time timeout)) :: rest
      else t :: insert_after timeout next
    end
  end.

Definition insert_timeout (timeout : sys_timeo) (l : list sys_timeo) : list sys_timeo :=
  match l with
  | [] => [timeout]
  | first :: rest =>
    if time timeout <? time first
    then timeout :: with_time first (u32 (time first - time timeout)) :: rest
    else insert_after timeout l
  end.

(** The loop of [sys_untimeout]: the structure that is unlinked. *)
Fixpoint unlink (handler : option sys_timeout_handler) (a : Z) (l : list sys_timeo)
    : option Z * list sys_timeo :=
  match l with
  | [] => (None, [])
  | t :: next =>
    if bool_decide (h t = handler) && (arg t =? a) then
      (Some (block t),
       match next with [] => [] | n :: rest => with_time n (u32 (time n + time t)) :: rest end)
    else let (b, next) := unlink handler a next in (b, t :: next)
  end.

Section timers.
Context {E : Sig} `{Kernel E} `{Stack E} (fuel : nat).

Definition sys_timeout (msecs : Z) (handler : option sys_timeout_handler) (a : Z) (t : timers) : prog E timers :=
  let! b := memp_malloc_timeout in
  Ret (match b with
       | None => t
       | Some b => Timers (insert_timeout (SysTimeo b msecs handler a) (next_timeout t)) (tcpip_tcp_timer_active t)
       end).

Definition sys_untimeout (handler : option sys_timeout_handler) (a : Z) (t : timers) : prog E timers :=
  let (b, l) := unlink handler a (next_timeout t) in
  (match b with Some b => memp_free_timeout b | None => Ret tt end);;
  Ret (Timers l (tcpip_tcp_timer_active t)).

Definition tcp_timer_needed (t : timers) : prog E timers :=
  if negb (tcpip_tcp_timer_active t) then
    let! pcbs := tcp_pcbs in
    if pcbs : bool then
      sys_timeout TCP_TMR_INTERVAL (Some tcpip_tcp_timer) 0 (Timers (next_timeout t) true)
    else Ret t
  else Ret t.

(** The calls of this file that a function of the stack made. *)
Fixpoint serve (rs : list request) (t : timers) : prog E timers :=
  match rs with
  | [] => Ret t
  | r :: rs =>
    let! t :=
      match r with
      | Timeout msecs handler a => sys_timeout msecs handler a t
      | Untimeout handler a => sys_untimeout handler a t
      | TimerNeeded => tcp_timer_needed t
      end in
    serve rs t
  end.

Definition handle (handler : sys_timeout_handler) (a : Z) (t : timers) : prog E timers :=
  match handler with
  | tcpip_tcp_timer =>
    let! rs := tcp_tmr in
    let! t := serve rs t in
    let! pcbs := tcp_pcbs in
    if pcbs : bool then sys_timeout TCP_TMR_INTERVAL (Some tcpip_tcp_timer) 0 t
    else Ret (Timers (next_timeout t) false)
  | ip_reass_timer =>
    let! rs := ip_reass_tmr in
    let! t := serve rs t in sys_timeout IP_TMR_INTERVAL (Some ip_reass_timer) 0 t
  | arp_timer =>
    let! rs := etharp_tmr in
    let! t := serve rs t in sys_timeout ARP_TMR_INTERVAL (Some arp_timer) 0 t
  | dhcp_timer_coarse =>
    let! rs := dhcp_coarse_tmr in
    let! t := serve rs t in sys_timeout DHCP_COARSE_TIMER_MSECS (Some dhcp_timer_coarse) 0 t
  | dhcp_timer_fine =>
    let! rs := dhcp_fine_tmr in
    let! t := serve rs t in sys_timeout DHCP_FINE_TIMER_MSECS (Some dhcp_timer_fine) 0 t
  | handler_at f => let! rs := call_handler f a in serve rs t
  end.

Definition sys_timeouts_init (t : timers) : prog E timers :=
  let! t := sys_timeout IP_TMR_INTERVAL (Some ip_reass_timer) 0 t in
  let! t := sys_timeout ARP_TMR_INTERVAL (Some arp_timer) 0 t in
  let! t := sys_timeout DHCP_COARSE_TIMER_MSECS (Some dhcp_timer_coarse) 0 t in
  sys_timeout DHCP_FINE_TIMER_MSECS (Some dhcp_timer_fine) 0 t.

(** From one [again] to the next. *)
Definition fetch_round (mbox : option Z) (t : timers) : prog E (timers + timers * option Z) :=
  match next_timeout t with
  | [] =>
    let! (_, msg) := sys_arch_mbox_fetch fuel mbox 0 in Ret (inr (t, msg))
  | tmptimeout :: next =>
    let! (time_needed, msg) :=
      (if 0 <? time tmptimeout then sys_arch_mbox_fetch fuel mbox (time tmptimeout)
       else Ret (SYS_ARCH_TIMEOUT, None)) in
    if time_needed =? SYS_ARCH_TIMEOUT then
      memp_free_timeout (block tmptimeout);;
      let t := Timers next (tcpip_tcp_timer_active t) in
      let! t := (match h tmptimeout with Some handler => handle handler (arg tmptimeout) t | None => Ret t end) in
      Ret (inl t)
    else
      let time' := if time_needed <? time tmptimeout then u32 (time tmptimeout - time_needed) else 0 in
      Ret (inr (Timers (with_time tmptimeout time' :: next) (tcpip_tcp_timer_active t), msg))
  end.

(** The timers and the message. *)
Definition sys_timeouts_mbox_fetch (mbox : option Z) (t : timers) : prog E (timers * option Z) :=
  iter fuel (fetch_round mbox) t.
End timers.
