(* ===== verification/Tcpip.v ===== *)
(** * The thread of the network stack (tcpip.c)

    src/src/ASF/thirdparty/lwip/lwip-1.4.0/src/api/tcpip.c: one thread runs the
    stack; other tasks and the drivers send it messages through a mailbox.
    The stack itself is a parameter, as in Timers.v. *)

From S2P Require Import Prelude Prog SysArch Timers.

(** The [type] and the [msg] of a [struct tcpip_msg]; any other type is
    [InvalidMessage]. *)
Inductive tcpip_msg :=
| TCPIP_MSG_API (apimsg : Z)
| TCPIP_MSG_INPKT (p netif : Z)
| TCPIP_MSG_CALLBACK (function ctx : Z)
| TCPIP_MSG_TIMEOUT (msecs : Z) (h : option sys_timeout_handler) (arg : Z)
| TCPIP_MSG_UNTIMEOUT (h : option sys_timeout_handler) (arg : Z)
| InvalidMessage.

(** The two pools of messages. *)
Inductive msg_pool := MEMP_TCPIP_MSG_API | MEMP_TCPIP_MSG_INPKT.

(** The modules that [lwip_init] (init.c) initialises before the timers. *)
Inductive lwip_module :=
| stats_init | mem_init | memp_init | netif_init | lwip_socket_init.

Class StackApi (E : Sig) := {
  memp_malloc_msg : msg_pool -> prog E (option Z);
  memp_free_msg : msg_pool -> Z -> prog E unit;
  (** The structure at an address. *)
  load_msg : Z -> prog E tcpip_msg;
  store_msg : Z -> tcpip_msg -> prog E unit;
  (** [apimsg->function(&apimsg->msg)], its semaphore and its [err]. *)
  call_api : Z -> prog E (list request);
  op_completed : Z -> prog E Z;
  api_err : Z -> prog E Z;
  netif_flags : Z -> prog E Z;
  ethernet_input : Z -> Z -> prog E (list request);
  ip_input : Z -> Z -> prog E (list request);
  call_back : Z -> Z -> prog E (list request);
  init_module : lwip_module -> prog E unit;
  (** The callback that [tcpip_init] is given. *)
  tcpip_init_done : Z -> Z -> prog E (list request)
}.

Definition NETIF_FLAG_ETHARP : Z := 0x20.
Definition NETIF_FLAG_ETHERNET : Z := 0x40.
Definition TCPIP_MBOX_SIZE : Z := 6.

Section tcpip.
Context {E : Sig} `{Kernel E} `{Stack E} `{StackApi E} (fuel : nat).

(** The [switch] of [tcpip_thread]. *)
Definition dispatch (msg : Z) (t : timers) : prog E timers :=
  let! m := load_msg msg in
  match m with
  | TCPIP_MSG_API apimsg => let! rs := call_api apimsg in serve rs t
  | TCPIP_MSG_INPKT p netif =>
    let! flags := netif_flags netif in
    let! rs :=
      (if negb (Z.land flags (Z.lor NETIF_FLAG_ETHARP NETIF_FLAG_ETHERNET) =? 0)
       then ethernet_input p netif else ip_input p netif) in
    let! t := serve rs t in
    memp_free_msg MEMP_TCPIP_MSG_INPKT msg;; Ret t
  | TCPIP_MSG_CALLBACK function ctx =>
    let! rs := call_back function ctx in
    let! t := serve rs t in
    memp_free_msg MEMP_TCPIP_MSG_API msg;; Ret t
  | TCPIP_MSG_TIMEOUT msecs handler a =>
    let! t := sys_timeout msecs handler a t in
    memp_free_msg MEMP_TCPIP_MSG_API msg;; Ret t
  | TCPIP_MSG_UNTIMEOUT handler a =>
    let! t := sys_untimeout handler a t in
    memp_free_msg MEMP_TCPIP_MSG_API msg;; Ret t
  | InvalidMessage => Ret t
  end.

Definition tcpip_round (mbox : option Z) (t : timers) : prog E timers :=
  let! (t, msg) := sys_timeouts_mbox_fetch fuel mbox t in
  let! msg := defined msg in
  dispatch msg t.

(** [done] is the callback of [tcpip_init] and its argument. *)
Definition tcpip_thread (done : option (Z * Z)) (mbox : option Z) (t : timers) : prog E unit :=
  let! t := (match done with
             | Some (f, a) => let! rs := tcpip_init_done f a in serve rs t
             | None => Ret t
             end) in
  iter fuel (fun t => let! t := tcpip_round mbox t in Ret (inl t)) t.

(** ** Messages from other tasks

    [mbox] is the static variable; the result is an [err_t]. *)
Context (mbox : Z).

Definition tcpip_input (p inp : Z) : prog E Z :=
  if negb (sys_mbox_valid mbox =? 0) then
    let! msg := memp_malloc_msg MEMP_TCPIP_MSG_INPKT in
    match msg with
    | None => Ret ERR_MEM
    | Some msg =>
      store_msg msg (TCPIP_MSG_INPKT p inp);;
      let! err := sys_mbox_trypost (Some mbox) msg in
      if negb (err =? ERR_OK) then memp_free_msg MEMP_TCPIP_MSG_INPKT msg;; Ret ERR_MEM
      else Ret ERR_OK
    end
  else Ret ERR_VAL.

Definition tcpip_callback_with_block (function ctx : Z) (block : bool) : prog E Z :=
  if negb (sys_mbox_valid mbox =? 0) then
    let! msg := memp_malloc_msg MEMP_TCPIP_MSG_API in
    match msg with
    | None => Ret ERR_MEM
    | Some msg =>
      store_msg msg (TCPIP_MSG_CALLBACK function ctx);;
      if block then sys_mbox_post fuel (Some mbox) msg;; Ret ERR_OK
      else
        let! err := sys_mbox_trypost (Some mbox) msg in
        if negb (err =? ERR_OK) then memp_free_msg MEMP_TCPIP_MSG_API msg;; Ret ERR_MEM
        else Ret ERR_OK
    end
  else Ret ERR_VAL.

(** [tcpip_timeout] and [tcpip_untimeout], which differ in the message. *)
Definition post_api_msg (m : tcpip_msg) : prog E Z :=
  if negb (sys_mbox_valid mbox =? 0) then
    let! msg := memp_malloc_msg MEMP_TCPIP_MSG_API in
    match msg with
    | None => Ret ERR_MEM
    | Some msg => store_msg msg m;; sys_mbox_post fuel (Some mbox) msg;; Ret ERR_OK
    end
  else Ret ERR_VAL.

Definition tcpip_timeout (msecs : Z) (handler : option sys_timeout_handler) (a : Z) : prog E Z :=
  post_api_msg (TCPIP_MSG_TIMEOUT msecs handler a).

Definition tcpip_untimeout (handler : option sys_timeout_handler) (a : Z) : prog E Z :=
  post_api_msg (TCPIP_MSG_UNTIMEOUT handler a).

(** [msg] is the address of the local variable. *)
Definition tcpip_apimsg (apimsg msg : Z) : prog E Z :=
  if negb (sys_mbox_valid mbox =? 0) then
    store_msg msg (TCPIP_MSG_API apimsg);;
    sys_mbox_post fuel (Some mbox) msg;;
    let! s := op_completed apimsg in
    let! _ := sys_arch_sem_wait fuel (Some s) 0 in
    api_err apimsg
  else Ret ERR_VAL.

(** [pbuf_free_int] and [mem_free] are addresses of functions. *)
Definition pbuf_free_callback (pbuf_free_int p : Z) : prog E Z :=
  tcpip_callback_with_block pbuf_free_int p false.
Definition mem_free_callback (mem_free m : Z) : prog E Z := tcpip_callback_with_block mem_free m false.
End tcpip.

(** [lwip_init] of init.c; the initialisations that this build defines as
    nothing are left out. *)
Definition lwip_init {E : Sig} `{Kernel E} `{Stack E} `{StackApi E} (t : timers) : prog E timers :=
  init_module stats_init;;
  sys_init;;
  init_module mem_init;;
  init_module memp_init;;
  init_module netif_init;;
  init_module lwip_socket_init;;
  sys_timeouts_init t.

(** The timers and the mailbox; the callback is for [tcpip_thread]. *)
Definition tcpip_init {E : Sig} `{Kernel E} `{Stack E} `{StackApi E} (name : list Z) (thread stacksize prio : Z)
    (t : timers) : prog E (timers * Z) :=
  let! t := lwip_init t in
  let! (_, mbox) := sys_mbox_new (Some 0) TCPIP_MBOX_SIZE in
  let! mbox := defined mbox in
  let! _ := sys_thread_new name thread stacksize prio in
  Ret (t, mbox).
