(* ===== verification/TcpipSpec.v ===== *)
(** * The timers of the network stack are kept

    The list of Timers.v as a schedule of absolute times, and the thread of
    Tcpip.v over the kernel of SysArchSpec.v: the pool of timeouts never runs
    dry, no timer is ever lost, and none runs early. *)

From stdpp Require Import gmap functions.
From S2P Require Import Prelude Prog SysArch SysArchSpec Timers Tcpip.

(** ** The list as a schedule *)

Definition entry : Type := Z * (option sys_timeout_handler * Z).

(** When each timeout is due, [off] being the time at the head of the list. *)
Fixpoint due (off : Z) (l : list sys_timeo) : list entry :=
  match l with
  | [] => []
  | t :: l => (off + time t, (h t, arg t)) :: due (off + time t) l
  end.

(** A timeout comes after those that are due at the same time. *)
Fixpoint scheduled (x : entry) (s : list entry) : list entry :=
  match s with
  | [] => [x]
  | y :: s => if x.1 <? y.1 then x :: y :: s else y :: scheduled x s
  end.

Definition ascending (l : list sys_timeo) : Prop := Forall (fun t => 0 <= time t < 2 ^ 32) l.

Lemma u32_sub a b : 0 <= b <= a -> a < 2 ^ 32 -> u32 (a - b) = a - b.
Proof. intros Hb Ha. apply Z.mod_small. lia. Qed.

Lemma insert_after_due n l off : 0 <= time n < 2 ^ 32 -> ascending l ->
  match l with [] => False | t :: _ => time t <= time n end ->
  due off (insert_after n l) = scheduled (off + time n, (h n, arg n)) (due off l) /\
  ascending (insert_after n l).
Proof.
  revert n off. induction l as [|t l IH]; intros n off Hn Ha Ht; [done|].
  apply list.Forall_cons in Ha as [Ht0 Ha]. cbn [insert_after due scheduled fst].
  rewrite (proj2 (Z.ltb_ge _ _)) by lia. rewrite u32_sub by lia. cbn [with_time time].
  destruct l as [|t' l]; cbn [due scheduled h arg block fst with_time time].
  - replace (off + time t + (time n - time t)) with (off + time n) by lia. split; [done|].
    repeat constructor; simpl; lia.
  - pose proof Ha as Ha'. apply list.Forall_cons in Ha' as [Ht0' Ha'].
    destruct (Z.ltb_spec (time n - time t) (time t')) as [Hlt|Hge].
    + rewrite (proj2 (Z.ltb_lt _ _)) by lia. rewrite u32_sub by lia. cbn [due with_time time h arg].
      replace (off + time t + (time n - time t) + (time t' - (time n - time t))) with (off + time t + time t') by lia.
      replace (off + time t + (time n - time t)) with (off + time n) by lia.
      split; [done|]. constructor; [done|]. constructor; [simpl; lia|]. constructor; [simpl; lia|done].
    + destruct (IH (with_time n (time n - time t)) (off + time t)) as [Hd Hi]; [simpl; lia|done|done|].
      cbn [due with_time time h arg] in *. rewrite Hd. split; [|by constructor].
      f_equal. by replace (off + time t + (time n - time t)) with (off + time n) by lia.
Qed.

(** [sys_timeout] puts a timeout at its place in the schedule. *)
Lemma insert_timeout_due n l off : 0 <= time n < 2 ^ 32 -> ascending l ->
  due off (insert_timeout n l) = scheduled (off + time n, (h n, arg n)) (due off l) /\
  ascending (insert_timeout n l).
Proof.
  intros Hn Ha. destruct l as [|t l]; [split; [done|by constructor]|]. cbn [insert_timeout].
  destruct (Z.ltb_spec (time n) (time t)) as [Hlt|Hge]; [|by apply insert_after_due].
  apply list.Forall_cons in Ha as [Ht0 Ha]. rewrite u32_sub by lia. cbn [due with_time time h arg scheduled fst].
  rewrite (proj2 (Z.ltb_lt _ _)) by lia. replace (off + time n + (time t - time n)) with (off + time t) by lia.
  split; [done|]. constructor; [done|]. constructor; [simpl; lia|done].
Qed.

Lemma insert_timeout_blocks n l : map block (insert_timeout n l) ≡ₚ block n :: map block l.
Proof.
  destruct l as [|t l]; [done|]. cbn [insert_timeout]. destruct (time n <? time t); [done|].
  revert n t. induction l as [|t' l IH]; intros n t; [apply Permutation_swap|]. cbn [insert_after].
  case_match; [apply Permutation_swap|]. cbn [map]. rewrite (Permutation_swap (block t)). apply perm_skip.
  apply (IH (with_time n _)).
Qed.

(** [sys_untimeout] takes the first match out of the schedule and leaves the
    times of the others. *)
Fixpoint unscheduled (x : option sys_timeout_handler * Z) (s : list entry) : list entry :=
  match s with
  | [] => []
  | y :: s => if bool_decide (y.2 = x) then s else y :: unscheduled x s
  end.

Lemma unlink_due f a l off : ascending l -> Forall (fun e : entry => e.1 < 2 ^ 32) (due 0 l) ->
  due off (unlink f a l).2 = unscheduled (f, a) (due off l) /\ ascending (unlink f a l).2.
Proof.
  intros Ha Hb. assert (exists o, 0 <= o /\ Forall (fun e : entry => e.1 < 2 ^ 32) (due o l)) as (o & Ho & Hb')
    by (exists 0; split; [lia|done]). clear Hb.
  revert off o Ho Hb'. induction l as [|t l IH]; intros off o Ho Hb; [by split|].
  apply list.Forall_cons in Ha as [Ht0 Ha]. cbn [due] in Hb. apply list.Forall_cons in Hb as [Hb1 Hb].
  cbn [unlink due unscheduled snd].
  assert (bool_decide (h t = f) && (arg t =? a) = bool_decide ((h t, arg t) = (f, a))) as ->.
  { apply eq_true_iff_eq. rewrite andb_true_iff, !bool_decide_eq_true, Z.eqb_eq. split; [by intros [-> ->]|by intros [= -> ->]]. }
  case_bool_decide as Hm; cbn [snd].
  - destruct l as [|t' l]; [by split|]. cbn [due] in *. apply list.Forall_cons in Ha as [Ht0' Ha].
    apply list.Forall_cons in Hb as [Hb2 Hb]. cbn [fst] in *. unfold u32. rewrite Z.mod_small by lia.
    cbn [with_time time h arg]. replace (off + (time t' + time t)) with (off + time t + time t') by lia.
    split; [done|]. constructor; [simpl; lia|done].
  - destruct (unlink f a l) as [b l'] eqn:Hu. cbn [snd due] in *.
    destruct (IH Ha (off + time t) (o + time t)) as [Hd Hi]; [lia|done|]. rewrite Hd. split; [done|by constructor].
Qed.

(** ** The stack and its clock

    The calls of the thread: the kernel's, and those of the stack. *)
Inductive stkop :=
| SKern (e : kernop)
| SMalloc
| SFree (b : Z)
| STimer (h : sys_timeout_handler)
| SPcbs
| SMsgMalloc
| SMsgFree (msg : Z)
| SLoad (msg : Z)
| SStore (msg : Z) (m : tcpip_msg)
| SWord (a : Z)
| SCall (f a : Z)
| SModule (m : lwip_module).

Definition stk_ans (e : stkop) : Type :=
  match e with
  | SKern e => kern_ans e
  | SMalloc | SMsgMalloc => option Z
  | STimer _ | SCall _ _ => list request
  | SPcbs => bool
  | SLoad _ => tcpip_msg
  | SWord _ => Z
  | _ => unit
  end.

Definition stk : Sig := {| op := stkop; ans := stk_ans |}.

#[export] Instance stk_kernel : Kernel stk := {|
  xQueueCreate n := @trigger stk (SKern (KCreate n));
  vQueueDelete q := @trigger stk (SKern (KDelete q));
  xQueueSend q m t := @trigger stk (SKern (KSend q m t));
  xQueueReceive q t := @trigger stk (SKern (KReceive q t));
  vSemaphoreCreateBinary := @trigger stk (SKern KSemCreate);
  xSemaphoreTake s t := @trigger stk (SKern (KTake s t));
  xSemaphoreGive s := @trigger stk (SKern (KGive s));
  xTaskGetTickCount := @trigger stk (SKern KTicks);
  xTaskCreate _ _ st p := @trigger stk (SKern (KTask st p));
  vPortEnterCritical := @trigger stk (SKern (KCritical true));
  vPortExitCritical := @trigger stk (SKern (KCritical false));
  load_stats := @trigger stk (SKern KLoadStats);
  store_stats s := @trigger stk (SKern (KStoreStats s));
  load_threads := @trigger stk (SKern KLoadThreads);
  store_threads t := @trigger stk (SKern (KStoreThreads t))
|}.

#[export] Instance stk_stack : Stack stk := {|
  memp_malloc_timeout := @trigger stk SMalloc;
  memp_free_timeout b := @trigger stk (SFree b);
  tcp_tmr := @trigger stk (STimer tcpip_tcp_timer);
  ip_reass_tmr := @trigger stk (STimer ip_reass_timer);
  etharp_tmr := @trigger stk (STimer arp_timer);
  dhcp_coarse_tmr := @trigger stk (STimer dhcp_timer_coarse);
  dhcp_fine_tmr := @trigger stk (STimer dhcp_timer_fine);
  call_handler f a := @trigger stk (STimer (handler_at f));
  tcp_pcbs := @trigger stk SPcbs
|}.

#[export] Instance stk_api : StackApi stk := {|
  memp_malloc_msg _ := @trigger stk SMsgMalloc;
  memp_free_msg _ m := @trigger stk (SMsgFree m);
  load_msg m := @trigger stk (SLoad m);
  store_msg m c := @trigger stk (SStore m c);
  call_api a := @trigger stk (SCall a 0);
  op_completed a := @trigger stk (SWord a);
  api_err a := @trigger stk (SWord a);
  netif_flags n := @trigger stk (SWord n);
  ethernet_input p n := @trigger stk (SCall p n);
  ip_input p n := @trigger stk (SCall p n);
  call_back f c := @trigger stk (SCall f c);
  init_module m := @trigger stk (SModule m);
  tcpip_init_done f a := @trigger stk (SCall f a)
|}.

(** The pool of this build. *)
Definition MEMP_NUM_SYS_TIMEOUT : nat := 6.

(** How often each timer of the stack is to run, in milliseconds. *)
Definition interval (h : sys_timeout_handler) : Z :=
  match h with
  | tcpip_tcp_timer => TCP_TMR_INTERVAL
  | ip_reass_timer => IP_TMR_INTERVAL
  | arp_timer => ARP_TMR_INTERVAL
  | dhcp_timer_coarse => DHCP_COARSE_TIMER_MSECS
  | dhcp_timer_fine => DHCP_FINE_TIMER_MSECS
  | handler_at _ => 0
  end.

Definition periodic : list sys_timeout_handler := [ip_reass_timer; arp_timer; dhcp_timer_coarse; dhcp_timer_fine].

(** When each timer last ran, or was started; whether there are connections
    for which the TCP timer has to run; the structures taken from the pool. *)
Record ghost := Ghost { last : sys_timeout_handler -> Z; tcp_on : bool; pool : gset Z }.

(** The timers that have to run. *)
Definition running (r : ghost) (h : sys_timeout_handler) : Prop :=
  h ∈ periodic \/ h = tcpip_tcp_timer /\ tcp_on r = true.

(** The thread may wait over no time at which a timer has to run, over a
    prompt kernel and until the tick counter wraps. *)
Definition may_wait (prompt : bool) (k : kview) (r : ghost) (ticks : Z) : Prop :=
  prompt = true -> now k < 2 ^ 32 -> forall h, running r h -> now k + ticks <= last r h + interval h.

(** Functions of the stack ask for the TCP timer only: nothing in this firmware
    calls [tcpip_timeout]. *)
Definition stack_env (prompt : bool) : env stk (kview * ghost) := {|
  req (e : op stk) (s : kview * ghost) := let (k, r) := s in match e with
    | SKern (KReceive _ ticks) => may_wait prompt k r ticks
    | STimer h => last r h + interval h <= now k /\
        (prompt = true -> now k < 2 ^ 32 -> now k = last r h + interval h)
    | SFree b => b ∈ pool r
    | _ => True
    end;
  step (e : op stk) (s : kview * ghost) :=
    let (k, r) := s in
    match e return stk_ans e -> kview * ghost -> Prop with
    | SKern (KReceive _ ticks) => fun x s' => received prompt ticks k x s'.1 /\ s'.2 = r
    | SKern KTicks => fun x s' => passes prompt 0 k s'.1 /\ s'.2 = r /\ x = u32 (now s'.1)
    | SMalloc => fun x s' => passes prompt 0 k s'.1 /\
        match x with
        | Some b => (b ∉ pool r) /\ s'.2 = Ghost (last r) (tcp_on r) ({[b]} ∪ pool r)
        | None => (MEMP_NUM_SYS_TIMEOUT <= size (pool r))%nat /\ s'.2 = r
        end
    | SFree b => fun _ s' => passes prompt 0 k s'.1 /\ s'.2 = Ghost (last r) (tcp_on r) (pool r ∖ {[b]})
    | STimer h => fun x s' => passes prompt 0 k s'.1 /\ Forall (fun q => q = TimerNeeded) x /\
        s'.2 = Ghost (<[h := now k]> (last r)) (tcp_on r) (pool r)
    | SPcbs => fun x s' => passes prompt 0 k s'.1 /\
        s'.2 = Ghost (if x then <[tcpip_tcp_timer := now k]> (last r) else last r) x (pool r)
    | SCall _ _ => fun x s' => passes prompt 0 k s'.1 /\ s'.2 = r /\ Forall (fun q => q = TimerNeeded) x
    | SLoad _ => fun x s' => passes prompt 0 k s'.1 /\ s'.2 = r /\
        match x with TCPIP_MSG_TIMEOUT _ _ _ | TCPIP_MSG_UNTIMEOUT _ _ => False | _ => True end
    | _ => fun _ s' => passes prompt 0 k s'.1 /\ s'.2 = r
    end
|}.

#[export] Instance stack_laws prompt : KernelLaws stk ghost prompt (stack_env prompt) (may_wait prompt).
Proof.
  split.
  - intros k r Q HQ. split; [done|]. intros x [k' r'] (Hk & Hr & ->). cbn in *. subst. by apply HQ.
  - intros q ticks k r Q Hw Hn Hs. split; [done|]. intros x [k' r'] [Hx Hr]. cbn [fst snd] in *. subst r'.
    destruct x as [m|]; [|by destruct Hx; apply Hn].
    destruct Hx as (d & k1 & Hd & Hk & Hm & ->). by apply (Hs d m k1).
Qed.

(** ** What is kept *)

Section kept.
Context (prompt : bool).
#[local] Notation "'stack'" := (stack_env prompt).

(** A timer that is due in [d] milliseconds is not early, nor late if the
    kernel is prompt. *)
Definition on_time (k : kview) (r : ghost) (e : entry) : Prop :=
  match e.2 with
  | (Some h, 0) =>
    e.1 <= interval h /\ last r h + interval h <= now k + e.1 /\
    (prompt = true -> now k < 2 ^ 32 -> last r h + interval h = now k + e.1)
  | _ => False
  end.

(** The timers [hs] are in the list, each once, on time, and hold the pool. *)
Record schedules (hs : list sys_timeout_handler) (l : list sys_timeo) (k : kview) (r : ghost) : Prop := {
  sched_handlers : map snd (due 0 l) ≡ₚ map (fun h => (Some h, 0)) hs;
  sched_times : ascending l;
  sched_on_time : Forall (on_time k r) (due 0 l);
  sched_blocks : NoDup (map block l);
  sched_pool : pool r = list_to_set (map block l);
  sched_clock : 0 <= now k
}.

Lemma due_length off l : length (due off l) = length l.
Proof. revert off. induction l; intros; simpl; auto. Qed.

Lemma sched_length hs l k r : schedules hs l k r -> length l = length hs.
Proof.
  intros [Hh _ _ _ _ _]. apply Permutation_length in Hh. by rewrite !length_map, due_length in Hh.
Qed.

Lemma sched_perm hs hs' l k r : schedules hs l k r -> hs ≡ₚ hs' -> schedules hs' l k r.
Proof. intros [Hh Ht Ho Hb Hp Hk] Hp'. split; try done. by rewrite <- Hp'. Qed.

Lemma scheduled_perm x s : scheduled x s ≡ₚ x :: s.
Proof.
  induction s as [|y s IH]; [done|]. simpl. destruct (x.1 <? y.1); [done|]. rewrite IH. apply Permutation_swap.
Qed.

(** Time passes. *)
Lemma on_time_passes k k' r e : passes prompt 0 k k' -> on_time k r e -> on_time k' r e.
Proof.
  intros [Hk _]. unfold on_time. destruct e as [d [[h|] [| |]]]; try done. cbn.
  intros (Hd & Hn & Hp). split; [done|]. destruct prompt.
  - rewrite Hk, Z.add_0_r. by split.
  - split; [lia|done].
Qed.

Lemma sched_passes hs l k k' r : passes prompt 0 k k' -> schedules hs l k r -> schedules hs l k' r.
Proof.
  intros Hk [Hh Ht Ho Hb Hp H0]. split; try done.
  - eapply list.Forall_impl; [exact Ho|]. intros e. by apply on_time_passes.
  - destruct Hk as [Hk _]. destruct prompt; lia.
Qed.

(** Another timer runs or is started. *)
Lemma sched_other hs l k r r' : schedules hs l k r -> pool r' = pool r ->
  (forall h, h ∈ hs -> last r' h = last r h) -> schedules hs l k r'.
Proof.
  intros [Hh Ht Ho Hb Hp Hk] Hpool Hlast. split; try done; [|by rewrite Hpool].
  apply list.Forall_forall. intros e He. pose proof (proj1 (list.Forall_forall _ _) Ho e He) as Hoe.
  assert (e.2 ∈ map (fun h => (Some h, 0)) hs) as Hin by (rewrite <- Hh; by apply list_elem_of_fmap_2).
  apply list_elem_of_fmap in Hin as (h' & Heq & Hin). unfold on_time in *. rewrite Heq in *. by rewrite (Hlast h').
Qed.

(** What does not change in calls of the stack. *)
Definition calm (k : kview) (r : ghost) (k' : kview) (r' : ghost) : Prop :=
  now k <= now k' /\ (prompt = true -> now k' = now k) /\
  forall h, h <> tcpip_tcp_timer -> last r' h = last r h.

Lemma calm_refl k r : calm k r k r.
Proof. split; [lia|]. split; [done|]. by intros. Qed.

Lemma calm_trans k r k1 r1 k2 r2 : calm k r k1 r1 -> calm k1 r1 k2 r2 -> calm k r k2 r2.
Proof.
  intros (Hn & Hp & Hl) (Hn' & Hp' & Hl'). split; [lia|]. split; [|by intros h Hh; rewrite Hl', Hl].
  intros Hpr. by rewrite Hp', Hp.
Qed.

Lemma passes_calm k k' r : passes prompt 0 k k' -> calm k r k' r.
Proof. intros [Hk _]. unfold calm. destruct prompt; (split; [lia|]); (split; [intros; try done; lia|done]). Qed.

(** [sys_timeout] for a timer that has just run or been started. *)
Lemma wp_sys_timeout hs l active f k r Q : schedules hs l k r -> (length hs < MEMP_NUM_SYS_TIMEOUT)%nat ->
  0 <= interval f < 2 ^ 32 -> last r f <= now k -> (prompt = true -> last r f = now k) ->
  (forall l' k' r', schedules (f :: hs) l' k' r' -> calm k r k' r' -> tcp_on r' = tcp_on r ->
     Q (Done (Timers l' active)) (k', r')) ->
  wp stack (sys_timeout (interval f) (Some f) 0 (Timers l active)) Q (k, r).
Proof.
  intros Hs Hl Hi Hlast Hprompt HQ. split; [done|]. intros x [k' r'] [Hk Hx]. cbn [fst snd] in *.
  pose proof (sched_length _ _ _ _ Hs) as Hlen.
  destruct Hs as [Hh Ht Ho Hb Hp H0].
  destruct x as [b|]; destruct Hx as [Hfree ->].
  2: { exfalso. rewrite Hp, size_list_to_set, length_map in Hfree by done. lia. }
  cbn [next_timeout tcpip_tcp_timer_active]. apply HQ; [|by apply (passes_calm k k' r)|done].
  destruct (insert_timeout_due (SysTimeo b (interval f) (Some f) 0) l 0 Hi Ht) as [Hd Ha].
  cbn [time h arg] in Hd. rewrite Z.add_0_l in Hd.
  assert (Forall (on_time k' r) ((interval f, (Some f, 0)) :: due 0 l)) as Hon.
  { constructor.
    - cbn. split; [lia|]. destruct Hk as [Hk _]. destruct prompt; (split; [lia|]); [|done].
      intros _ _. rewrite Hprompt by done. lia.
    - eapply list.Forall_impl; [exact Ho|]. intros e. by apply on_time_passes. }
  split; cbn [pool]; rewrite ?Hd.
  - rewrite scheduled_perm. cbn. by rewrite Hh.
  - done.
  - rewrite scheduled_perm. unfold on_time in *. exact Hon.
  - rewrite insert_timeout_blocks. cbn. constructor; [|done]. by rewrite Hp, elem_of_list_to_set in Hfree.
  - rewrite insert_timeout_blocks. cbn. by rewrite Hp.
  - destruct Hk as [Hk _]. destruct prompt; lia.
Qed.

(** The timers [base] are in the list, and the TCP timer if it is active and
    not the one that runs. *)
Definition listed (in_tcp : bool) (base : list sys_timeout_handler) (active : bool) : list sys_timeout_handler :=
  if active && negb in_tcp then tcpip_tcp_timer :: base else base.

Record kept (in_tcp : bool) (base : list sys_timeout_handler) (t : timers) (k : kview) (r : ghost) : Prop := {
  kept_sched : schedules (listed in_tcp base (tcpip_tcp_timer_active t)) (next_timeout t) k r;
  kept_active : tcpip_tcp_timer_active t = tcp_on r;
  kept_running : in_tcp = true -> tcpip_tcp_timer_active t = true
}.

Lemma kept_passes in_tcp base t k k' r : passes prompt 0 k k' -> kept in_tcp base t k r -> kept in_tcp base t k' r.
Proof. intros Hk [Hs Ha Hr]. split; try done. by eapply sched_passes. Qed.

Lemma wp_tcp_timer_needed in_tcp base t k r Q : kept in_tcp base t k r ->
  tcpip_tcp_timer ∉ base -> (length base < MEMP_NUM_SYS_TIMEOUT)%nat ->
  (forall t' k' r', kept in_tcp base t' k' r' -> calm k r k' r' -> Q (Done t') (k', r')) ->
  wp stack (tcp_timer_needed t) Q (k, r).
Proof.
  intros Hk Hb Hl HQ. unfold tcp_timer_needed. destruct t as [l active]. cbn [tcpip_tcp_timer_active next_timeout].
  destruct active; cbn [negb]; [apply HQ; [done|apply calm_refl]|].
  destruct Hk as [Hs Ha Hr]. cbn [tcpip_tcp_timer_active next_timeout listed andb] in *.
  destruct in_tcp; [by specialize (Hr eq_refl)|].
  split; [done|]. intros x [k1 r1] [Hk1 Hr1]. cbn [fst snd] in *. subst r1.
  destruct x; cbn [bind].
  - assert (calm k r k1 (Ghost (<[tcpip_tcp_timer := now k]> (last r)) true (pool r))) as Hc.
    { destruct (passes_calm k k1 r Hk1) as (Hn & Hp & _). split; [done|]. split; [done|].
      intros f Hf. cbn. by rewrite fn_lookup_insert_ne. }
    apply (wp_sys_timeout base l true tcpip_tcp_timer); cbn [last].
    + eapply sched_passes; [exact Hk1|]. eapply sched_other; [exact Hs|done|]. intros f Hf.
      cbn. rewrite fn_lookup_insert_ne; [done|by intros <-].
    + done.
    + done.
    + rewrite fn_lookup_insert. apply Hc.
    + intros Hp. rewrite fn_lookup_insert. symmetry. by apply Hc.
    + intros l' k' r' Hs' Hc' Ht'. apply HQ; [|by eapply calm_trans]. by split.
  - assert (Ghost (last r) false (pool r) = r) as -> by (destruct r; cbn in *; by rewrite Ha).
    apply HQ; [|by apply passes_calm]. by apply (kept_passes false base _ k); [|split].
Qed.

Lemma wp_serve in_tcp base rs t k r Q : kept in_tcp base t k r ->
  tcpip_tcp_timer ∉ base -> (length base < MEMP_NUM_SYS_TIMEOUT)%nat -> Forall (fun q => q = TimerNeeded) rs ->
  (forall t' k' r', kept in_tcp base t' k' r' -> calm k r k' r' -> Q (Done t') (k', r')) ->
  wp stack (serve rs t) Q (k, r).
Proof.
  intros Hk Hb Hl Hrs. revert t k r Q Hk. induction Hrs as [|q rs -> _ IH]; intros t k r Q Hk HQ.
  - apply HQ; [done|apply calm_refl].
  - cbn [serve]. apply wp_bind. eapply wp_tcp_timer_needed; [done..|]. intros t1 k1 r1 Hk1 Hc1.
    apply IH; [done|]. intros t2 k2 r2 Hk2 Hc2. apply HQ; [done|by eapply calm_trans].
Qed.

(** The thread is between two handlers. *)
Definition all_kept : timers -> kview -> ghost -> Prop := kept false periodic.

(** A handler is due. *)
Definition is_due (f : sys_timeout_handler) (k : kview) (r : ghost) : Prop :=
  last r f + interval f <= now k /\ (prompt = true -> now k < 2 ^ 32 -> now k = last r f + interval f).

Definition others (f : sys_timeout_handler) : list sys_timeout_handler :=
  List.filter (fun g => negb (bool_decide (g = f))) periodic.

(** The function of the stack, and the calls it makes. *)
Lemma wp_timer in_tcp base f (K : list request -> prog stk timers) t k r Q : kept in_tcp base t k r ->
  f ∉ base -> (f = tcpip_tcp_timer -> in_tcp = true) ->
  is_due f k r ->
  (forall rs k' r', kept in_tcp base t k' r' -> now k <= now k' -> (prompt = true -> now k' = now k) ->
     last r' f = now k -> Forall (fun q => q = TimerNeeded) rs -> wp stack (K rs) Q (k', r')) ->
  wp stack (bind (@trigger stk (STimer f)) K) Q (k, r).
Proof.
  intros [Hs Ha Hr] Hb Htcp Hdue HQ. split; [done|]. intros rs [k1 r1] (Hk1 & Hrs & Hr1). cbn [fst snd] in *. subst r1.
  destruct (passes_calm k k1 r Hk1) as (Hn & Hp & _).
  apply HQ; cbn [last]; [|done|done|by rewrite fn_lookup_insert|done].
  apply (kept_passes in_tcp base t k); [done|]. split; [|done|done].
  eapply sched_other; [exact Hs|done|]. intros g Hg. cbn. apply fn_lookup_insert_ne. intros <-.
  unfold listed in Hg. destruct (tcpip_tcp_timer_active t); cbn [andb] in Hg; [|done].
  destruct in_tcp; cbn [negb] in Hg; [done|]. apply elem_of_cons in Hg as [->|Hg]; [|done].
  by specialize (Htcp eq_refl).
Qed.

Lemma periodic_others f : f ∈ periodic ->
  (f ∉ others f) /\ (tcpip_tcp_timer ∉ others f) /\ (length (others f) < 4)%nat /\ f :: others f ≡ₚ periodic /\
  f <> tcpip_tcp_timer /\ 0 <= interval f < 2 ^ 32.
Proof.
  intros Hf. unfold periodic in Hf. repeat (apply elem_of_cons in Hf as [->|Hf]); [..|by apply elem_of_nil in Hf];
    repeat split; try done; try (apply (bool_decide_unpack _); by vm_compute); unfold others; simpl; lia.
Qed.

Lemma wp_periodic f t k r Q : f ∈ periodic -> kept false (others f) t k r -> is_due f k r ->
  (forall t' k' r', all_kept t' k' r' -> Q (Done t') (k', r')) ->
  wp stack (let! rs := @trigger stk (STimer f) in
            let! t := serve rs t in sys_timeout (interval f) (Some f) 0 t) Q (k, r).
Proof.
  intros Hf Hk Hdue HQ.
  destruct (periodic_others f Hf) as (Hb & Hb' & Hl & Hperm & Hne & Hi).
  eapply (wp_timer false (others f) f); [done..|]. intros rs k1 r1 Hk1 Hn1 Hp1 Hlast Hrs.
  apply wp_bind. eapply wp_serve; [exact Hk1|done|unfold MEMP_NUM_SYS_TIMEOUT; lia|done|].
  intros t2 k2 r2 [Hs2 Ha2 Hr2] (Hn2 & Hp2 & Hl2). cbn [andthen]. destruct t2 as [l2 active].
  eapply wp_sys_timeout; [exact Hs2|unfold listed, MEMP_NUM_SYS_TIMEOUT; case_match; simpl; lia|done| | |].
  - rewrite Hl2 by done. lia.
  - intros Hpr. rewrite Hl2, Hp2, Hp1 by done. done.
  - intros l' k' r' Hs' Hc' Ht'. apply HQ. split; cbn in *; [|congruence|done].
    eapply sched_perm; [exact Hs'|]. unfold listed. destruct active; cbn; [|done].
    rewrite Permutation_swap. by constructor.
Qed.

Lemma wp_tcp_handler t k r Q : kept true periodic t k r -> is_due tcpip_tcp_timer k r ->
  (forall t' k' r', all_kept t' k' r' -> Q (Done t') (k', r')) ->
  wp stack (handle tcpip_tcp_timer 0 t) Q (k, r).
Proof.
  intros Hk Hdue HQ. cbn [handle].
  assert (tcpip_tcp_timer ∉ periodic) as Hb by (apply (bool_decide_unpack _); by vm_compute).
  eapply (wp_timer true periodic tcpip_tcp_timer); [done..|]. intros rs k1 r1 Hk1 Hn1 Hp1 Hlast Hrs.
  apply wp_bind. eapply wp_serve; [exact Hk1|done|unfold MEMP_NUM_SYS_TIMEOUT; simpl; lia|done|].
  intros t2 k2 r2 [Hs2 Ha2 Hr2] _. cbn [andthen]. destruct t2 as [l2 active]. cbn in Hs2, Ha2, Hr2.
  specialize (Hr2 eq_refl) as ->. cbn in Hs2.
  split; [done|]. intros x [k3 r3] [Hk3 Hr3]. cbn [fst snd] in *. subst r3.
  destruct (passes_calm k2 k3 r2 Hk3) as (Hn3 & Hp3 & _).
  assert (schedules periodic l2 k3 (Ghost (if x then <[tcpip_tcp_timer := now k2]> (last r2) else last r2) x (pool r2)))
    as Hs3.
  { eapply sched_passes; [exact Hk3|]. eapply sched_other; [exact Hs2|done|]. intros f Hf. cbn.
    destruct x; [|done]. apply fn_lookup_insert_ne. by intros <-. }
  destruct x; [|by apply HQ; split].
  apply (wp_sys_timeout periodic l2 true tcpip_tcp_timer); cbn [last]; rewrite ?fn_lookup_insert; try done.
  - unfold MEMP_NUM_SYS_TIMEOUT. simpl. lia.
  - intros Hp. by rewrite Hp3.
  - intros l' k' r' Hs' Hc' Ht'. apply HQ. by split.
Qed.

(** A handler of the list runs, when it is due. *)
Lemma wp_handle f t k r Q : f ∈ tcpip_tcp_timer :: periodic ->
  kept (bool_decide (f = tcpip_tcp_timer)) (others f) t k r -> is_due f k r ->
  (forall t' k' r', all_kept t' k' r' -> Q (Done t') (k', r')) ->
  wp stack (handle f 0 t) Q (k, r).
Proof.
  intros Hf Hk Hdue HQ. apply elem_of_cons in Hf as [->|Hf]; [by apply wp_tcp_handler|].
  assert (f <> tcpip_tcp_timer) as Hne by by apply periodic_others.
  rewrite bool_decide_false in Hk by done. pose proof (wp_periodic f t k r Q Hf Hk Hdue HQ) as Hw.
  unfold periodic in Hf. repeat (apply elem_of_cons in Hf as [->|Hf]; [exact Hw|]). by apply elem_of_nil in Hf.
Qed.

(** *** Waiting *)

(** The list when the time at its head has passed, or a part of it. *)
Lemma due_shift off d l : due (off - d) l = map (fun e : entry => (e.1 - d, e.2)) (due off l).
Proof.
  revert off. induction l as [|t l IH]; intros off; [done|]. cbn [due map]. cbn [fst snd].
  replace (off - d + time t) with (off + time t - d) by lia. by rewrite IH.
Qed.

(** [ms] of the [w] milliseconds that passed are taken off, all over a prompt kernel. *)
Lemma on_time_wait k k' r e w ms : on_time k r e -> now k' = now k + w -> 0 <= ms <= w ->
  (prompt = true -> now k' < 2 ^ 32 -> ms = w) -> on_time k' r (e.1 - ms, e.2).
Proof.
  unfold on_time. destruct e as [d [[f|] [| |]]]; try done. cbn. intros (Hd & Hn & Hp) Hk Hms Hpr.
  split; [lia|]. split; [lia|]. intros Hprompt Hw. rewrite (Hpr Hprompt Hw). rewrite Hp; [lia|done|lia].
Qed.

Lemma sched_wait hs x l k k' r w ms : schedules hs (x :: l) k r -> now k' = now k + w ->
  0 <= ms <= w -> ms <= time x -> (prompt = true -> now k' < 2 ^ 32 -> ms = w) ->
  schedules hs (with_time x (time x - ms) :: l) k' r.
Proof.
  intros [Hh Ht Ho Hb Hp H0] Hk Hms Hx Hpr.
  assert (due 0 (with_time x (time x - ms) :: l) = map (fun e : entry => (e.1 - ms, e.2)) (due 0 (x :: l))) as Hd.
  { cbn [due with_time time h arg map fst snd]. rewrite !Z.add_0_l. by rewrite due_shift. }
  split; [| | |done|done|lia].
  - rewrite Hd, map_map. exact Hh.
  - apply list.Forall_cons in Ht as [Ht0 Ht]. constructor; [simpl; lia|done].
  - rewrite Hd. apply list.Forall_forall. intros e He. apply list_elem_of_fmap in He as (e0 & -> & He).
    apply (on_time_wait k k' r e0 w); try done. by apply (proj1 (list.Forall_forall _ _) Ho).
Qed.

Lemma due_min x l off : ascending (x :: l) -> Forall (fun e : entry => off + time x <= e.1) (due off (x :: l)).
Proof.
  revert x off. induction l as [|y l IH]; intros x off Ha; apply list.Forall_cons in Ha as [Hx Ha].
  - repeat constructor. simpl. lia.
  - constructor; [simpl; lia|]. apply list.Forall_cons in Ha as Ha'. destruct Ha' as [Hy _].
    eapply list.Forall_impl; [by apply (IH y (off + time x))|]. simpl. lia.
Qed.

(** The thread waits no longer than until the next timer has to run. *)
Lemma all_kept_may_wait x l active k r : all_kept (Timers (x :: l) active) k r -> may_wait prompt k r (time x).
Proof.
  intros [[Hh Ht Ho Hb Hp H0] Ha _] Hprompt Hw f Hf. cbn in *.
  assert (f ∈ listed false periodic active) as Hin.
  { unfold listed. destruct Hf as [Hf|[-> Htcp]].
    - destruct active; cbn; [by apply elem_of_cons; right|done].
    - rewrite Ha, Htcp. apply elem_of_cons. by left. }
  assert ((Some f, 0) ∈ map snd (due 0 (x :: l))) as Hs
    by (setoid_rewrite Hh; by apply (list_elem_of_fmap_2 (fun h => (Some h, 0)))).
  apply list_elem_of_fmap in Hs as ([d e] & He & Hin'). cbn in He. subst e.
  pose proof (proj1 (list.Forall_forall _ _) Ho _ Hin') as (_ & _ & Heq). cbn in Heq.
  pose proof (proj1 (list.Forall_forall _ _) (due_min x l 0 Ht) _ Hin') as Hmin. cbn in Hmin.
  rewrite Heq by done. lia.
Qed.

(** The first timeout of the list leaves it when it is due. *)
Lemma sched_pop hs x l k r : schedules hs (x :: l) k r -> time x = 0 ->
  exists f hs', h x = Some f /\ arg x = 0 /\ hs ≡ₚ f :: hs' /\ is_due f k r /\ block x ∈ pool r /\
    schedules hs' l k (Ghost (last r) (tcp_on r) (pool r ∖ {[block x]})).
Proof.
  intros [Hh Ht Ho Hb Hp H0] Hx. cbn [due map snd fst] in *. rewrite Hx in *.
  apply list.Forall_cons in Ho as [Hox Ho]. apply list.Forall_cons in Ht as [_ Ht].
  apply list.NoDup_cons in Hb as [Hb Hnd].
  unfold on_time in Hox. cbn in Hox. destruct (h x) as [f|]; [|done]. destruct (arg x); try done.
  destruct Hox as (_ & Hd & Hdp). rewrite Z.add_0_r in *.
  assert ((Some f, 0) ∈ map (fun h => (Some h, 0)) hs) as Hin by (rewrite <- Hh; by left).
  apply list_elem_of_fmap in Hin as (f' & [= <-] & Hin).
  apply elem_of_Permutation in Hin as (hs' & Hperm). exists f, hs'.
  do 3 (split; [done|]). split; [split; [lia|intros; symmetry; by apply Hdp]|]. split; [rewrite Hp; cbn; apply elem_of_union_l, elem_of_singleton; done|].
  split; [| |done|done| |done].
  - rewrite Hperm in Hh. cbn in Hh. by apply Permutation_cons_inv in Hh.
  - done.
  - cbn [pool]. rewrite Hp. cbn. apply set_eq. intros b. rewrite elem_of_difference, elem_of_union, elem_of_singleton.
    rewrite elem_of_list_to_set. split; [by intros [[-> | Hin'] Hn]|]. intros Hin'. split; [by right|]. by intros ->.
Qed.

Lemma listed_pop f hs active : listed false periodic active ≡ₚ f :: hs ->
  f ∈ tcpip_tcp_timer :: periodic /\ (f = tcpip_tcp_timer -> active = true) /\
  hs ≡ₚ listed (bool_decide (f = tcpip_tcp_timer)) (others f) active.
Proof.
  intros Hp. assert (f ∈ tcpip_tcp_timer :: periodic) as Hf.
  { assert (f ∈ listed false periodic active) as Hin by (rewrite Hp; by left).
    unfold listed in Hin. destruct active; [done|by right]. }
  split; [done|]. case_bool_decide as Hfe.
  - subst f. assert (active = true) as ->.
    { destruct active; [done|]. exfalso. assert (tcpip_tcp_timer ∈ periodic) as Hin by (unfold listed in Hp; cbn in Hp; rewrite Hp; by left).
      revert Hin. apply (bool_decide_unpack _). by vm_compute. }
    split; [done|]. symmetry. by apply Permutation_cons_inv in Hp.
  - split; [done|]. apply elem_of_cons in Hf as [|Hf]; [done|].
    destruct (periodic_others f Hf) as (_ & _ & _ & Hperm & _).
    apply (Permutation_cons_inv (a := f)). rewrite <- Hp. unfold listed. destruct active; cbn [andb negb].
    + rewrite <- Hperm. apply Permutation_swap.
    + by symmetry.
Qed.

(** A timeout whose time has come: it is freed and its handler called. *)
Lemma wp_expire x l active k r Q : all_kept (Timers (x :: l) active) k r -> time x = 0 ->
  (forall t' k' r', all_kept t' k' r' -> Q (Done (inl t')) (k', r')) ->
  wp stack (memp_free_timeout (block x);;
    let! t := (match h x with Some f => handle f (arg x) (Timers l active) | None => Ret (Timers l active) end) in
    @Ret stk (timers + timers * option Z) (inl t)) Q (k, r).
Proof.
  intros [Hs Ha Hr] Hx HQ. cbn [tcpip_tcp_timer_active next_timeout] in *.
  destruct (sched_pop _ _ _ _ _ Hs Hx) as (f & hs & Hf & Harg & Hp & Hdue & Hpool & Hs').
  destruct (listed_pop f hs active Hp) as (Hin & Hact & Hp').
  split; [exact Hpool|]. intros [] [k1 r1] [Hk1 Hr1]. cbn [fst snd] in *. subst r1. cbn [bind].
  rewrite Hf, Harg. apply wp_bind. apply wp_handle; [done| | |done].
  - apply (kept_passes _ _ _ k); [done|]. split; [by eapply sched_perm|done|]. cbn. intros Hb.
    apply Hact. by apply bool_decide_eq_true in Hb.
  - destruct Hdue as [Hd Hdp]. destruct (passes_calm k k1 r Hk1) as (Hn & Hpr & _). split; cbn [last]; [lia|].
    intros Hprompt Hw. rewrite Hpr in * by done. by apply Hdp.
Qed.

Lemma sched_head hs x l k r : schedules hs (x :: l) k r -> 0 <= time x <= 60000.
Proof.
  intros [_ Ht Ho _ _ _]. apply list.Forall_cons in Ht as [Ht _]. apply list.Forall_cons in Ho as [Ho _].
  split; [lia|]. unfold on_time in Ho. cbn in Ho. destruct (h x) as [f|]; [|done]. destruct (arg x); try done.
  destruct Ho as [Hd _]. assert (interval f <= 60000) by (by destruct f). lia.
Qed.

(** Part of the time of the first timeout has passed, or all of it. *)
Lemma all_kept_wait x l active k k' r w ms : all_kept (Timers (x :: l) active) k r -> now k' = now k + w ->
  0 <= ms <= w -> ms <= time x -> (prompt = true -> now k' < 2 ^ 32 -> ms = w) ->
  all_kept (Timers (with_time x (time x - ms) :: l) active) k' r.
Proof. intros [Hs Ha Hr] Hk Hms Hx Hpr. split; [|done|done]. by apply (sched_wait _ x l k k' r w ms). Qed.

Context (fuel : nat).

(** One round of the wait. *)
Lemma wp_fetch_round q t k r Q : all_kept t k r ->
  (forall t' k' r', all_kept t' k' r' -> Q (Done (inl t')) (k', r')) ->
  (forall t' m k' r', all_kept t' k' r' -> Q (Done (inr (t', Some m))) (k', r')) ->
  wp stack (fetch_round fuel (Some q) t) Q (k, r).
Proof.
  intros Hk Hl Hm. destruct t as [[|x l] active].
  { exfalso. destruct Hk as [Hs _ _]. apply sched_length in Hs. unfold listed in Hs. cbn in Hs. by destruct active. }
  unfold fetch_round. cbn [next_timeout tcpip_tcp_timer_active].
  pose proof Hk as [Hs Ha Hr]. cbn [next_timeout tcpip_tcp_timer_active] in *.
  pose proof (sched_head _ _ _ _ _ Hs) as Hx. pose proof (sched_clock _ _ _ _ Hs) as H0.
  change (2 ^ 30) with 1073741824. 
  destruct (Z.ltb_spec 0 (time x)) as [Hpos|Hzero].
  - apply wp_bind, wp_fetch; [done| | |].
    + intros k1 Hk1. apply (all_kept_may_wait x l active). by eapply kept_passes.
    + intros k1 k2 Hk1 Hk2 _. cbn [andthen]. change (SYS_ARCH_TIMEOUT =? SYS_ARCH_TIMEOUT) with true. cbn match.
      destruct (passes_trans _ _ _ _ _ _ Hk1 Hk2) as (Hn & _).
      apply (wp_expire (with_time x 0) l active); [|done|done].
      replace 0 with (time x - time x) by lia.
      apply (all_kept_wait x l active k k2 r (now k2 - now k)); [done|lia|destruct prompt; lia|lia|].
      intros -> _. lia.
    + intros d m k1 k2 k3 Hd Hk1 Hk2 _ Hk3. cbn [andthen]. destruct Hk1 as [Hk1 _], Hk2 as [Hk2 _], Hk3 as [Hk3 _].
      cbn [now] in Hk3.
      assert (now k <= now k1 /\ now k1 <= now k3 < now k1 + 2 ^ 32 - 1 /\
        (prompt = true -> now k1 = now k /\ now k3 = now k1 + d)) as (Hn1 & Hn3 & Hpr).
      { change (2 ^ 30) with 1073741824 in *. change (2 ^ 32) with 4294967296. destruct prompt; lia. }
      destruct (elapsed_bounds (now k1) (now k3)) as [Hms Hexact]; [lia|lia|].
      set (ms := elapsed_ms (u32 (now k1)) (u32 (now k3))) in *.
      rewrite (proj2 (Z.eqb_neq ms SYS_ARCH_TIMEOUT)) by (unfold SYS_ARCH_TIMEOUT; lia). cbn match.
      assert ((if ms <? time x then u32 (time x - ms) else 0) = time x - Z.min ms (time x)) as ->.
      { destruct (Z.ltb_spec ms (time x)); [rewrite u32_sub by lia|]; lia. }
      apply Hm. apply (all_kept_wait x l active k k3 r (now k3 - now k)); [done|lia|lia|lia|].
      intros Hprompt Hw. destruct (Hpr Hprompt) as [He1 He3]. rewrite Hexact by lia. lia.
  - cbn [bind]. change (SYS_ARCH_TIMEOUT =? SYS_ARCH_TIMEOUT) with true. cbn match.
    apply (wp_expire x l active); [done|lia|done].
Qed.

Lemma wp_mbox_fetch n q t k r Q : all_kept t k r ->
  (forall k' r', Q (Stop OutOfFuel) (k', r')) ->
  (forall t' m k' r', all_kept t' k' r' -> Q (Done (t', Some m)) (k', r')) ->
  wp stack (iter n (fetch_round fuel (Some q)) t) Q (k, r).
Proof.
  intros Hk Hfuel HQ. revert t k r Hk. induction n as [|n IH]; intros t k r Hk; [apply Hfuel|]. cbn [iter].
  apply wp_bind, wp_fetch_round; [done| |].
  - intros t' k' r' Hk'. by apply IH.
  - intros t' m k' r' Hk'. by apply HQ.
Qed.

(** A call of the stack and the calls that it makes. *)
Lemma wp_stack_call {A} f a t (K : list request -> prog stk A) k r Q : all_kept t k r ->
  (forall rs k' r', all_kept t k' r' -> Forall (fun q => q = TimerNeeded) rs -> wp stack (K rs) Q (k', r')) ->
  wp stack (bind (@trigger stk (SCall f a)) K) Q (k, r).
Proof.
  intros Hk HK. split; [done|]. intros rs [k1 r1] (Hk1 & Hr1 & Hrs). cbn [fst snd] in *. subst r1.
  apply HK; [by eapply kept_passes|done].
Qed.

Lemma wp_serve_all rs t k r Q : all_kept t k r -> Forall (fun q => q = TimerNeeded) rs ->
  (forall t' k' r', all_kept t' k' r' -> Q (Done t') (k', r')) -> wp stack (serve rs t) Q (k, r).
Proof.
  intros Hk Hrs HQ. apply (wp_serve false periodic); [done| | |done|].
  - apply (bool_decide_unpack _). by vm_compute.
  - unfold MEMP_NUM_SYS_TIMEOUT. simpl. lia.
  - intros t2 k2 r2 Hk2 _. by apply HQ.
Qed.

Lemma wp_freed m t k r (Q : outcome timers -> kview * ghost -> Prop) : all_kept t k r ->
  (forall k' r', all_kept t k' r' -> Q (Done t) (k', r')) ->
  wp stack (@trigger stk (SMsgFree m);; Ret t) Q (k, r).
Proof.
  intros Hk HQ. split; [done|]. intros [] [k1 r1] [Hk1 Hr1]. cbn [fst snd] in *. subst r1.
  apply HQ. by eapply kept_passes.
Qed.

(** What the thread does with a message. *)
Lemma wp_dispatch m t k r Q : all_kept t k r -> (forall t' k' r', all_kept t' k' r' -> Q (Done t') (k', r')) ->
  wp stack (dispatch m t) Q (k, r).
Proof.
  intros Hk HQ. split; [done|]. intros c [k1 r1] (Hk1 & Hr1 & Hc). cbn [fst snd] in *. subst r1.
  apply (kept_passes _ _ _ _ _ _ Hk1) in Hk. cbn [bind].
  assert (forall rs m k r, all_kept t k r -> Forall (fun q => q = TimerNeeded) rs ->
    wp stack (let! t := serve rs t in @trigger stk (SMsgFree m);; Ret t) Q (k, r)) as Hrest.
  { intros rs m' k0 r0 Hk0 Hrs. apply wp_bind, wp_serve_all; [done..|]. intros t' k' r' Hk'.
    apply wp_freed; [done|]. intros. by apply HQ. }
  destruct c as [a|p n|f c|ms f a|f a|]; try done; cbn beta iota.
  - apply (wp_stack_call a 0 t); [done|]. intros rs k' r' Hk' Hrs. by apply wp_serve_all.
  - split; [done|]. intros flags [k2 r2] [Hk2 Hr2]. cbn [fst snd] in *. subst r2.
    apply (kept_passes _ _ _ _ _ _ Hk2) in Hk. cbn [bind].
    destruct (negb _); (apply (wp_stack_call p n t); [done|]; intros rs k' r' Hk' Hrs; by apply Hrest).
  - apply (wp_stack_call f c t); [done|]. intros rs k' r' Hk' Hrs. by apply Hrest.
  - by apply HQ.
Qed.

Lemma wp_round q t k r Q : all_kept t k r -> (forall k' r', Q (Stop OutOfFuel) (k', r')) ->
  (forall t' k' r', all_kept t' k' r' -> Q (Done t') (k', r')) ->
  wp stack (tcpip_round fuel (Some q) t) Q (k, r).
Proof.
  intros Hk Hf HQ. apply wp_bind, wp_mbox_fetch; [done|intros; apply Hf|]. intros t1 m k1 r1 Hk1. by apply wp_dispatch.
Qed.

(** The timers are started. *)
Definition starting (k : kview) (r : ghost) : Prop :=
  0 <= now k /\ pool r = ∅ /\ tcp_on r = false /\ forall f, f ∈ periodic -> last r f = now k.

(** Some timers have been started, the others are about to be. *)
Record started (hs : list sys_timeout_handler) (t : timers) (k : kview) (r : ghost) : Prop := {
  started_sched : schedules hs (next_timeout t) k r;
  started_off : tcpip_tcp_timer_active t = false /\ tcp_on r = false;
  started_last : forall f, f ∈ periodic -> last r f <= now k /\ (prompt = true -> last r f = now k)
}.

Lemma wp_start hs t f k r Q : started hs t k r -> (length hs < 4)%nat -> f ∈ periodic ->
  (forall t' k' r', started (f :: hs) t' k' r' -> Q (Done t') (k', r')) ->
  wp stack (sys_timeout (interval f) (Some f) 0 t) Q (k, r).
Proof.
  intros [Hs [Ha Ht] Hl] Hhs Hf HQ. destruct t as [l active]. cbn in Hs, Ha. subst active.
  destruct (periodic_others f Hf) as (_ & _ & _ & _ & Hne & Hi). destruct (Hl f Hf) as [Hlf Hpf].
  eapply wp_sys_timeout; [exact Hs|unfold MEMP_NUM_SYS_TIMEOUT; lia|exact Hi|exact Hlf|exact Hpf|].
  intros l' k' r' Hs' (Hn & Hp & Hlast) Ht'. apply HQ. split; [done|by rewrite Ht'|].
  intros g Hg. destruct (Hl g Hg) as [Hlg Hpg]. rewrite Hlast by by apply periodic_others.
  split; [lia|]. intros Hpr. by rewrite Hp, Hpg.
Qed.

Lemma wp_init k r Q : starting k r -> (forall t' k' r', all_kept t' k' r' -> Q (Done t') (k', r')) ->
  wp stack (sys_timeouts_init (Timers [] false)) Q (k, r).
Proof.
  intros (Hk & Hp & Ht & Hl) HQ.
  assert (started [] (Timers [] false) k r) as H0.
  { split; [|done|intros f Hf; rewrite Hl by done; split; [lia|done]].
    split; [done|constructor|constructor|constructor|done|done]. }
  unfold sys_timeouts_init.
  assert (Forall (fun f => f ∈ periodic) periodic) as Hall by (apply (bool_decide_unpack _); by vm_compute).
  repeat (apply list.Forall_cons in Hall as [?Hf Hall]).
  apply wp_bind, (wp_start [] _ ip_reass_timer); [done|simpl; lia|done|]. intros t1 k1 r1 H1.
  apply wp_bind, (wp_start _ _ arp_timer _ _ _ H1); [simpl; lia|done|]. intros t2 k2 r2 H2.
  apply wp_bind, (wp_start _ _ dhcp_timer_coarse _ _ _ H2); [simpl; lia|done|]. intros t3 k3 r3 H3.
  apply (wp_start _ _ dhcp_timer_fine _ _ _ H3); [simpl; lia|done|]. intros t4 k4 r4 [Hs [Ha Htcp] _].
  apply HQ. split; [|congruence|done]. rewrite Ha. eapply sched_perm; [exact Hs|].
  apply (bool_decide_unpack _). by vm_compute.
Qed.
End kept.

(** The timers are started by [lwip_init]; the thread begins after that. *)
Definition stack_main (fuel : nat) (done : option (Z * Z)) (q : Z) : prog stk unit :=
  let! t := sys_timeouts_init (Timers [] false) in
  tcpip_thread fuel done (Some q) t.

(** C22: The timers of the network stack, from their start, over any kernel and
    any traffic: the thread never ends; no function of ARP, IP, DHCP or TCP that
    is to run every so often runs earlier than that after its last run; every
    structure given back was taken, and the pool of six never runs dry, so
    that none of the timers is ever lost; and over a prompt kernel, until the
    tick counter wraps after 49 days, each runs exactly when it has to, and
    the thread never waits past such a moment. *)
Theorem timers_kept prompt fuel done q k r : starting k r ->
  wp (stack_env prompt) (stack_main fuel done q) (fun o _ => o = Stop OutOfFuel) (k, r).
Proof.
  intros Hs. unfold stack_main. apply wp_bind, wp_init; [exact Hs|]. intros t1 k1 r1 Hk1. cbn [andthen].
  unfold tcpip_thread.
  assert (forall n t k r, all_kept prompt t k r -> wp (stack_env prompt)
    (iter n (fun t => let! t := tcpip_round fuel (Some q) t in @Ret stk (timers + unit) (inl t)) t)
    (fun o _ => o = Stop OutOfFuel) (k, r)) as Hloop.
  { induction n as [|n IH]; intros t k0 r0 Hk; [done|]. cbn [iter].
    do 2 apply (proj1 (wp_bind _ _ _ _ _)). apply wp_round; [done|by intros|]. intros t' k' r' Hk'. by apply IH. }
  apply wp_bind. destruct done as [[f a]|]; [|by apply Hloop].
  apply (wp_stack_call prompt f a t1); [done|]. intros rs k2 r2 Hk2 Hrs. apply wp_serve_all; [done..|].
  intros t3 k3 r3 Hk3. by apply Hloop.
Qed.

Example timers_kept_witness :
  let k := KView 100 [] 0 in let r := Ghost (fun _ => 100) false ∅ in
  starting k r /\
  wp (stack_env true) (stack_main 20 (Some (1, 2)) 3) (fun o _ => o = Stop OutOfFuel) (k, r).
Proof.
  assert (starting (KView 100 [] 0) (Ghost (fun _ => 100) false ∅)) as Hs by done.
  split; [exact Hs|]. by apply (timers_kept true 20 (Some (1, 2)) 3).
Defined.
