(* ===== verification/Mem.v ===== *)
(** * The heap of the network stack (mem.c)

    src/src/ASF/thirdparty/lwip/lwip-1.4.0/src/core/mem.c as this build
    configures it: a first-fit allocator whose list of blocks is kept in the
    memory that it hands out.

    A pointer into the heap is its offset from [ram] ([None] is NULL); the
    environment has the bytes of the array, the variable [lfree], the mutex and
    the statistics.  [LWIP_ASSERT] is compiled out. *)

From S2P Require Import Prelude Prog.

(** ** The environment *)

(** The macros of stats.h for [lwip_stats.mem]. *)
Inductive mem_stat := StatAvail (n : Z) | StatUsed (n : Z) | StatFreed (n : Z) | StatErr | StatIllegal.

Inductive ramop :=
| Load8 (o : Z)
| Load16 (o : Z)
| Store8 (o v : Z)
| Store16 (o v : Z)
| Memset (o v n : Z)
| GetLfree
| SetLfree (o : Z)
| MutexNew
| MutexLock
| MutexUnlock
(** [SYS_ARCH_PROTECT] and [SYS_ARCH_UNPROTECT]. *)
| Protect
| Unprotect
| Stat (s : mem_stat).

Definition ram_ans (e : ramop) : Type :=
  match e with Load8 _ | Load16 _ | GetLfree => Z | _ => unit end.

Definition ram : Sig := {| op := ramop; ans := ram_ans |}.
Definition hcall (e : ramop) : prog ram (ram_ans e) := @trigger ram e.

Definition MEM_ALIGNMENT : Z := 4.
Definition LWIP_MEM_ALIGN_SIZE (size : Z) : Z :=
  Z.land (size + MEM_ALIGNMENT - 1) (Z.lnot (MEM_ALIGNMENT - 1)).
Definition MEM_SIZE : Z := 3 * 1024.
Definition MIN_SIZE : Z := 12.
Definition MIN_SIZE_ALIGNED : Z := LWIP_MEM_ALIGN_SIZE MIN_SIZE.
(** [struct mem]: two half-words and a byte. *)
Definition SIZEOF_STRUCT_MEM : Z := LWIP_MEM_ALIGN_SIZE 6.
Definition MEM_SIZE_ALIGNED : Z := LWIP_MEM_ALIGN_SIZE MEM_SIZE.
(** The offset of the last entry. *)
Definition ram_end : Z := MEM_SIZE_ALIGNED.

(** The members of the structure at [m]. *)
Definition get_next (m : Z) : prog ram Z := hcall (Load16 m).
Definition get_prev (m : Z) : prog ram Z := hcall (Load16 (m + 2)).
Definition get_used (m : Z) : prog ram Z := hcall (Load8 (m + 4)).
Definition set_next (m v : Z) : prog ram unit := hcall (Store16 m (u16 v)).
Definition set_prev (m v : Z) : prog ram unit := hcall (Store16 (m + 2) (u16 v)).
Definition set_used (m v : Z) : prog ram unit := hcall (Store8 (m + 4) v).

(** ** The functions *)

(** [mem] and the block after it. *)
Definition plug_forward (mem : Z) : prog ram unit :=
  let! nmem := get_next mem in
  if negb (mem =? nmem) then
    let! u := get_used nmem in
    if (u =? 0) && negb (nmem =? ram_end) then
      let! lfree := hcall GetLfree in
      (if lfree =? nmem then hcall (SetLfree mem) else Ret tt);;
      let! n := get_next nmem in
      set_next mem n;;
      let! n := get_next nmem in
      set_prev n mem
    else Ret tt
  else Ret tt.

(** [mem] and the block before it. *)
Definition plug_backward (mem : Z) : prog ram unit :=
  let! pmem := get_prev mem in
  if negb (pmem =? mem) then
    let! u := get_used pmem in
    if u =? 0 then
      let! lfree := hcall GetLfree in
      (if lfree =? mem then hcall (SetLfree pmem) else Ret tt);;
      let! n := get_next mem in
      set_next pmem n;;
      let! n := get_next mem in
      set_prev n pmem
    else Ret tt
  else Ret tt.

Definition plug_holes (mem : Z) : prog ram unit := plug_forward mem;; plug_backward mem.

Definition mem_init : prog ram unit :=
  set_next 0 MEM_SIZE_ALIGNED;;
  set_prev 0 0;;
  set_used 0 0;;
  set_used ram_end 1;;
  set_next ram_end MEM_SIZE_ALIGNED;;
  set_prev ram_end MEM_SIZE_ALIGNED;;
  hcall (SetLfree 0);;
  hcall (Stat (StatAvail MEM_SIZE_ALIGNED));;
  hcall MutexNew.

(** Memory that is not of the heap. *)
Definition illegal : prog ram unit := hcall Protect;; hcall (Stat StatIllegal);; hcall Unprotect.

Definition mem_free (rmem : option Z) : prog ram unit :=
  match rmem with
  | None => Ret tt
  | Some rmem =>
    if (rmem <? 0) || (ram_end <=? rmem) then illegal
    else
      hcall MutexLock;;
      let mem := rmem - SIZEOF_STRUCT_MEM in
      set_used mem 0;;
      let! lfree := hcall GetLfree in
      (if mem <? lfree then hcall (SetLfree mem) else Ret tt);;
      let! n := get_next mem in
      hcall (Stat (StatFreed (u16 (n - mem))));;
      plug_holes mem;;
      hcall MutexUnlock
  end.

(** The size of the user data for a request. *)
Definition data_size (size : Z) : Z :=
  let size := u16 (LWIP_MEM_ALIGN_SIZE size) in
  if size <? MIN_SIZE_ALIGNED then MIN_SIZE_ALIGNED else size.

(** The structure after [ptr2], unless it is the last one. *)
Definition link_after (ptr2 next : Z) : prog ram unit :=
  if negb (next =? MEM_SIZE_ALIGNED) then set_prev next ptr2 else Ret tt.

(** The structure at [ptr2] goes between [ptr] and [next]. *)
Definition insert_after (ptr ptr2 next : Z) : prog ram unit :=
  set_next ptr2 next;;
  set_prev ptr2 ptr;;
  set_next ptr ptr2;;
  let! next := get_next ptr2 in
  link_after ptr2 next.

(** The block after [ptr] is free and starts earlier now. *)
Definition trim_before_free (ptr mem2 ptr2 saved : Z) : prog ram unit :=
  let! next := get_next mem2 in
  let! lfree := hcall GetLfree in
  (if lfree =? mem2 then hcall (SetLfree ptr2) else Ret tt);;
  set_used ptr2 0;;
  insert_after ptr ptr2 next;;
  hcall (Stat (StatFreed saved)).

(** The block after [ptr] is in use: there is a new one between them. *)
Definition trim_before_used (ptr ptr2 saved : Z) : prog ram unit :=
  let! lfree := hcall GetLfree in
  (if ptr2 <? lfree then hcall (SetLfree ptr2) else Ret tt);;
  set_used ptr2 0;;
  let! next := get_next ptr in
  insert_after ptr ptr2 next;;
  hcall (Stat (StatFreed saved)).

Definition mem_trim (rmem newsize : Z) : prog ram (option Z) :=
  let newsize := data_size newsize in
  if MEM_SIZE_ALIGNED <? newsize then Ret None
  else if (rmem <? 0) || (ram_end <=? rmem) then illegal;; Ret (Some rmem)
  else
    let ptr := rmem - SIZEOF_STRUCT_MEM in
    let! n := get_next ptr in
    let size := u16 (n - ptr - SIZEOF_STRUCT_MEM) in
    if size <? newsize then Ret None
    else if newsize =? size then Ret (Some rmem)
    else
      hcall MutexLock;;
      let! mem2 := get_next ptr in
      let! u := get_used mem2 in
      let ptr2 := u16 (ptr + SIZEOF_STRUCT_MEM + newsize) in
      (if u =? 0 then trim_before_free ptr mem2 ptr2 (u16 (size - newsize))
       else if newsize + SIZEOF_STRUCT_MEM + MIN_SIZE_ALIGNED <=? size then
         trim_before_used ptr ptr2 (u16 (size - newsize))
       else Ret tt);;
      hcall MutexUnlock;;
      Ret (Some rmem).

(** More rounds than there can be blocks. *)
Definition rounds : nat := Z.to_nat MEM_SIZE_ALIGNED.

(** [while (lfree->used && lfree != ram_end)] *)
Definition next_free_round (_ : unit) : prog ram (unit + unit) :=
  let! lfree := hcall GetLfree in
  let! u := get_used lfree in
  if negb (u =? 0) && negb (lfree =? ram_end) then
    let! n := get_next lfree in
    hcall (SetLfree n);; Ret (inl tt)
  else Ret (inr tt).

(** The block at [ptr] is used: in two when what is left can be a block. *)
Definition carve (ptr size : Z) : prog ram unit :=
  let! n := get_next ptr in
  if size + SIZEOF_STRUCT_MEM + MIN_SIZE_ALIGNED <=? u32 (n - (ptr + SIZEOF_STRUCT_MEM)) then
    let ptr2 := u16 (ptr + SIZEOF_STRUCT_MEM + size) in
    set_used ptr2 0;;
    let! n := get_next ptr in
    set_next ptr2 n;;
    set_prev ptr2 ptr;;
    set_next ptr ptr2;;
    set_used ptr 1;;
    let! n := get_next ptr2 in
    link_after ptr2 n;;
    hcall (Stat (StatUsed (u16 (size + SIZEOF_STRUCT_MEM))))
  else
    set_used ptr 1;;
    let! n := get_next ptr in
    hcall (Stat (StatUsed (u16 (n - ptr)))).

Definition take_here (ptr size : Z) : prog ram unit :=
  carve ptr size;;
  let! lfree := hcall GetLfree in
  if ptr =? lfree then iter rounds next_free_round tt else Ret tt.

(** One round of the search. *)
Definition search_round (size ptr : Z) : prog ram (Z + option Z) :=
  if ptr <? MEM_SIZE_ALIGNED - size then
    let! u := get_used ptr in
    let! fits :=
      (if u =? 0 then
         let! n := get_next ptr in Ret (size <=? u32 (n - (ptr + SIZEOF_STRUCT_MEM)))
       else Ret false) in
    if fits : bool then take_here ptr size;; Ret (inr (Some (ptr + SIZEOF_STRUCT_MEM)))
    else let! n := get_next ptr in Ret (inl n)
  else Ret (inr None).

Definition mem_malloc (size : Z) : prog ram (option Z) :=
  if size =? 0 then Ret None
  else
    let size := data_size size in
    if MEM_SIZE_ALIGNED <? size then Ret None
    else
      hcall MutexLock;;
      let! lfree := hcall GetLfree in
      let! r := iter rounds (search_round size) (u16 lfree) in
      (match r with Some _ => Ret tt | None => hcall (Stat StatErr) end);;
      hcall MutexUnlock;;
      Ret r.

Definition mem_calloc (count size : Z) : prog ram (option Z) :=
  let! p := mem_malloc (u16 (count * size)) in
  match p with
  | Some p => hcall (Memset p 0 (count * size));; Ret (Some p)
  | None => Ret None
  end.
