(* ===== verification/MemSpec.v ===== *)
(** * The heap as an allocator

    The blocks of Mem.v in the bytes of the array, what the functions do to
    them, and the allocator they make: memory handed out is nobody else's, keeps
    what its owner writes to it until it is given back, and is found whenever
    a free block is large enough. *)

From stdpp Require Import functions.
From S2P Require Import Prelude Prog Mem.

(** ** The array *)

Definition get16 (b : Z -> Z) (o : Z) : Z := b o + 256 * b (o + 1).
Definition put16 (b : Z -> Z) (o v : Z) : Z -> Z := <[o + 1 := v / 256]> (<[o := v mod 256]> b).

Lemma get16_put16 b o v : get16 (put16 b o v) o = v.
Proof.
  unfold get16, put16. rewrite fn_lookup_insert_ne, !fn_lookup_insert by lia.
  rewrite (Z.div_mod v 256) at 3 by lia. lia.
Qed.

Lemma put16_other b o v a : a <> o -> a <> o + 1 -> put16 b o v a = b a.
Proof. intros H0 H1. unfold put16. by rewrite !fn_lookup_insert_ne. Qed.

Lemma get16_other b o v a : a + 1 < o \/ o + 1 < a -> get16 (put16 b o v) a = get16 b a.
Proof. intros H. unfold get16. by rewrite !put16_other by lia. Qed.

Lemma get16_agree b b' o : b' o = b o -> b' (o + 1) = b (o + 1) -> get16 b' o = get16 b o.
Proof. unfold get16. by intros -> ->. Qed.

(** [mutex] is whether the mutex is held; before [sys_mutex_new] nobody else
    uses the heap. *)
Record ram_state := RamState { mem : Z -> Z; lfree : Z; mutex : bool }.

(** Where the array ends, the last structure included. *)
Definition in_array (o n : Z) : Prop := 0 <= o /\ o + n <= MEM_SIZE_ALIGNED + SIZEOF_STRUCT_MEM.

(** Accesses are within the array, and what the tasks share is written with the
    mutex held, which no task takes twice. *)
Definition ram_env : env ram ram_state := {|
  req (e : op ram) s := match e with
    | Load8 o => in_array o 1
    | Load16 o => in_array o 2
    | Store8 o v => in_array o 1 /\ mutex s = true /\ is_u8 v
    | Store16 o v => in_array o 2 /\ mutex s = true /\ is_u16 v
    | Memset o v n => in_array o n /\ is_u8 v
    | SetLfree _ | MutexNew | MutexUnlock => mutex s = true
    | MutexLock => mutex s = false
    | _ => True
    end;
  step (e : op ram) s := match e return ram_ans e -> ram_state -> Prop with
    | Load8 o => fun x s' => x = mem s o /\ s' = s
    | Load16 o => fun x s' => x = get16 (mem s) o /\ s' = s
    | Store8 o v => fun _ s' => s' = RamState (<[o := v]> (mem s)) (lfree s) (mutex s)
    | Store16 o v => fun _ s' => s' = RamState (put16 (mem s) o v) (lfree s) (mutex s)
    | Memset o v n => fun _ s' =>
        s' = RamState (fun a => if decide (o <= a < o + n) then v else mem s a) (lfree s) (mutex s)
    | GetLfree => fun x s' => x = lfree s /\ s' = s
    | SetLfree o => fun _ s' => s' = RamState (mem s) o (mutex s)
    | MutexNew | MutexUnlock => fun _ s' => s' = RamState (mem s) (lfree s) false
    | MutexLock => fun _ s' => s' = RamState (mem s) (lfree s) true
    | Stat _ | Protect | Unprotect => fun _ s' => s' = s
    end
|}.

(** ** The blocks *)

(** A block that is taken, with its contents, and one that is not, with its size. *)
Inductive block := Used (d : list Z) | Free (n : Z).

Definition data_length (x : block) : Z := match x with Used d => Z.of_nat (length d) | Free n => n end.
Definition is_used (x : block) : bool := match x with Used _ => true | Free _ => false end.
Definition bsize (x : block) : Z := SIZEOF_STRUCT_MEM + data_length x.

Fixpoint total (l : list block) : Z :=
  match l with [] => 0 | x :: l => bsize x + total l end.

Lemma total_app l1 l2 : total (l1 ++ l2) = total l1 + total l2.
Proof. induction l1 as [|x l1 IH]; simpl; lia. Qed.

(** The structure at [o]. *)
Definition header (b : Z -> Z) (o next prev : Z) (u : bool) : Prop :=
  get16 b o = next /\ get16 b (o + 2) = prev /\ b (o + 4) = (if u then 1 else 0).

Definition contents (b : Z -> Z) (o : Z) (x : block) : Prop :=
  match x with
  | Used d => forall i v, d !! i = Some v -> b (o + SIZEOF_STRUCT_MEM + Z.of_nat i) = v
  | Free _ => True
  end.

(** The blocks [l] lie one after the other from [o]; [prev] is the block before
    the first, [last] the last of them. *)
Fixpoint seg (b : Z -> Z) (o prev : Z) (l : list block) (o' last : Z) : Prop :=
  match l with
  | [] => o' = o /\ last = prev
  | x :: l =>
    header b o (o + bsize x) prev (is_used x) /\ contents b o x /\ seg b (o + bsize x) o l o' last
  end.

Lemma seg_app b o prev l1 l2 o' last :
  seg b o prev (l1 ++ l2) o' last <-> exists m p, seg b o prev l1 m p /\ seg b m p l2 o' last.
Proof.
  revert o prev. induction l1 as [|x l1 IH]; intros o prev; simpl.
  - split; [intros H; by exists o, prev|by intros (m & p & [-> ->] & H)].
  - setoid_rewrite IH. split; [intros (H1 & H2 & m & p & H3 & H4)|intros (m & p & (H1 & H2 & H3) & H4)]; eauto 7.
Qed.

Lemma seg_end b o prev l o' last : seg b o prev l o' last -> o' = o + total l.
Proof.
  revert o prev. induction l as [|x l IH]; intros o prev; simpl; [intros [-> _]; lia|].
  intros (_ & _ & H). rewrite (IH _ _ H). lia.
Qed.

(** A block holds at least twelve bytes and is aligned. *)
Definition proper (x : block) : Prop := MIN_SIZE_ALIGNED <= data_length x /\ data_length x mod 4 = 0.

Lemma proper_size x : proper x -> 20 <= bsize x /\ bsize x mod 4 = 0.
Proof. unfold proper, bsize. change MIN_SIZE_ALIGNED with 12. change SIZEOF_STRUCT_MEM with 8.
  intros [H1 H2]. split; [lia|]. by rewrite Zplus_mod, H2. Qed.

Lemma bsize_eq x : bsize x = 8 + data_length x.
Proof. done. Qed.

Lemma proper_eq x : proper x <-> 12 <= data_length x /\ data_length x mod 4 = 0.
Proof. done. Qed.

Lemma total_nonneg l : Forall proper l -> 0 <= total l.
Proof. induction 1 as [|x l Hx _ IH]; simpl; [lia|]. apply proper_size in Hx. lia. Qed.

Lemma total_mod l : Forall proper l -> total l mod 4 = 0.
Proof.
  induction 1 as [|x l Hx _ IH]; [done|]. apply proper_size in Hx as [_ Hx]. cbn [total]. by rewrite Zplus_mod, Hx, IH.
Qed.

Lemma total_gap l : Forall proper l -> total l = 0 \/ 20 <= total l.
Proof.
  intros [|x l' Hx Hl]; [by left|right]. apply proper_size in Hx. apply total_nonneg in Hl. simpl. lia.
Qed.

Lemma total_pos l : Forall proper l -> l <> [] -> 20 <= total l.
Proof. intros [|x l' Hx Hl] H; [done|]. apply proper_size in Hx. apply total_nonneg in Hl. simpl. lia. Qed.

(** What is written outside of the blocks does not change them. *)
Lemma header_agree b b' o next prev u : (forall a, o <= a < o + 5 -> b' a = b a) ->
  header b o next prev u -> header b' o next prev u.
Proof.
  intros Ha (H1 & H2 & H3). split; [|split].
  - rewrite <- H1. apply get16_agree; apply Ha; lia.
  - rewrite <- H2. apply get16_agree; apply Ha; lia.
  - rewrite <- H3. apply Ha. lia.
Qed.

Lemma contents_agree b b' o x : (forall a, o + 8 <= a < o + bsize x -> b' a = b a) ->
  contents b o x -> contents b' o x.
Proof.
  intros Ha. destruct x as [d|n]; [|done]. intros H i v Hi. rewrite <- (H i v Hi). apply Ha.
  pose proof (lookup_lt_Some _ _ _ Hi). unfold bsize. change SIZEOF_STRUCT_MEM with 8. simpl. lia.
Qed.

Lemma seg_agree b b' o prev l o' last : Forall proper l -> (forall a, o <= a < o' -> b' a = b a) ->
  seg b o prev l o' last -> seg b' o prev l o' last.
Proof.
  intros Hp Ha Hs. assert (o' = o + total l) as Ho by by eapply seg_end.
  revert o prev Ha Hs Ho. induction Hp as [|x l Hx Hp IH]; intros o prev Ha Hs Ho; [done|].
  apply proper_size in Hx. apply total_nonneg in Hp as Ht. simpl in *. destruct Hs as (Hh & Hc & Hs).
  split; [|split].
  - eapply header_agree; [|exact Hh]. intros a H. apply Ha. lia.
  - eapply contents_agree; [|exact Hc]. intros a H. apply Ha. lia.
  - apply IH; [|done|lia]. intros a H. apply Ha. lia.
Qed.

(** The block after has moved, or is another one: the first of [l] gets a new
    [prev]. *)
Lemma seg_relink b b' o p p' l o' last : Forall proper l -> 
  (forall a, o <= a < o' -> a <> o + 2 -> a <> o + 3 -> b' a = b a) ->
  (l <> [] -> get16 b' (o + 2) = p') ->
  seg b o p l o' last -> exists last', seg b' o p' l o' last'.
Proof.
  intros Hp Ha Hprev Hs. destruct l as [|x l]; [simpl in *; destruct Hs as [-> _]; by exists p'|].
  exists last. pose proof (seg_end _ _ _ _ _ _ Hs) as He. apply list.Forall_cons in Hp as [Hx Hp].
  apply proper_size in Hx. apply total_nonneg in Hp as Ht. simpl in *. destruct Hs as ((H1 & _ & H3) & Hc & Hs).
  split; [split; [|split]|split].
  - rewrite <- H1. apply get16_agree; apply Ha; lia.
  - by apply Hprev.
  - rewrite <- H3. apply Ha; lia.
  - eapply contents_agree; [|exact Hc]. intros a H. apply Ha; lia.
  - eapply seg_agree; [done| |exact Hs]. intros a H. apply Ha; lia.
Qed.

(** ** The heap *)

(** No two free blocks are neighbours. *)
Definition head_used (l : list block) : Prop := match l with Free _ :: _ => False | _ => True end.
Fixpoint apart (l : list block) : Prop :=
  match l with
  | x :: l => (if is_used x then True else head_used l) /\ apart l
  | [] => True
  end.

Lemma apart_used l1 d l2 : apart (l1 ++ Used d :: l2) <-> apart l1 /\ apart l2.
Proof.
  induction l1 as [|x l1 IH]; cbn [app apart is_used]; [tauto|].
  rewrite IH. destruct l1 as [|[?|?] l1]; cbn [head_used app]; destruct (is_used x); tauto.
Qed.

Lemma apart_r l1 l2 : apart (l1 ++ l2) -> apart l2.
Proof. induction l1 as [|x l1 IH]; [done|]. intros [_ H]. by apply IH. Qed.

(** A free block gives way to another one. *)
Lemma apart_free l1 n l2 m l2' : apart (l1 ++ Free n :: l2) -> head_used l2' -> apart l2' ->
  apart (l1 ++ Free m :: l2').
Proof.
  intros H Hh Ha. induction l1 as [|x l1 IH]; cbn [app apart is_used]; [done|].
  destruct H as [Hx H]. split; [|by apply IH]. destruct (is_used x); [done|]. by destruct l1.
Qed.

Fixpoint first_free (o : Z) (l : list block) : Z :=
  match l with
  | Used d :: l => first_free (o + bsize (Used d)) l
  | _ => o
  end.

Lemma first_free_used o l1 l2 : forallb is_used l1 = true -> first_free o (l1 ++ l2) = first_free (o + total l1) l2.
Proof.
  revert o. induction l1 as [|[d|n] l1 IH]; intros o; cbn [forallb is_used app first_free total andb]; [| |done].
  - intros _. by rewrite Z.add_0_r.
  - intros H. rewrite IH by done. by rewrite Z.add_assoc.
Qed.

(** A free block before the end of [l1]: what follows does not matter. *)
Lemma first_free_free o l1 l2 l2' : forallb is_used l1 = false -> first_free o (l1 ++ l2) = first_free o (l1 ++ l2').
Proof. revert o. induction l1 as [|[d|n] l1 IH]; intros o; [done| |done]. apply IH. Qed.

Lemma first_free_before o l1 l2 : Forall proper l1 -> forallb is_used l1 = false ->
  o <= first_free o (l1 ++ l2) < o + total l1.
Proof.
  intros Hp. revert o. induction Hp as [|x l1 Hx Hp IH]; intros o; [done|].
  apply proper_size in Hx. apply total_nonneg in Hp. destruct x as [d|n]; cbn; intros H.
  - specialize (IH (o + bsize (Used d)) H). lia.
  - lia.
Qed.

Lemma first_free_le l1 n l2 : Forall proper l1 -> first_free 0 (l1 ++ Free n :: l2) <= total l1.
Proof.
  intros Hp. destruct (forallb is_used l1) eqn:Hu.
  - rewrite first_free_used by done. cbn [first_free]. lia.
  - pose proof (first_free_before 0 l1 (Free n :: l2) Hp Hu). lia.
Qed.

Lemma first_free_range o l : Forall proper l -> o <= first_free o l <= o + total l.
Proof.
  intros Hp. revert o. induction Hp as [|x l Hx Hp IH]; intros o; cbn; [lia|].
  apply proper_size in Hx. apply total_nonneg in Hp. destruct x as [d|n]; [|lia].
  specialize (IH (o + bsize (Used d))). lia.
Qed.

(** The array holds the blocks [l]. *)
Record laid (b : Z -> Z) (l : list block) : Prop := {
  laid_seg : exists last, seg b 0 0 l MEM_SIZE_ALIGNED last;
  laid_end : get16 b MEM_SIZE_ALIGNED = MEM_SIZE_ALIGNED /\ b (MEM_SIZE_ALIGNED + 4) = 1;
  laid_proper : Forall proper l
}.

(** Between calls: [lf] is the first free block. *)
Record heap (b : Z -> Z) (lf : Z) (l : list block) : Prop := {
  heap_laid : laid b l;
  heap_apart : apart l;
  heap_lfree : lf = first_free 0 l
}.

Lemma laid_total b l : laid b l -> total l = MEM_SIZE_ALIGNED.
Proof. intros [[last Hs] _ _]. apply seg_end in Hs. lia. Qed.

Lemma length_total l : Forall proper l -> 20 * Z.of_nat (length l) <= total l.
Proof. induction 1 as [|x l Hx _ IH]; simpl; [lia|]. apply proper_size in Hx. lia. Qed.

(** Fewer blocks than rounds. *)
Lemma laid_rounds b l : laid b l -> (length l < rounds)%nat.
Proof.
  intros Hl. pose proof (length_total l (laid_proper _ _ Hl)) as H. rewrite (laid_total _ _ Hl) in H.
  unfold rounds. change MEM_SIZE_ALIGNED with 3072 in *. lia.
Qed.

(** One of the blocks. *)
Lemma laid_at b l1 x l2 : laid b (l1 ++ x :: l2) ->
  exists p last, seg b 0 0 l1 (total l1) p /\ header b (total l1) (total l1 + bsize x) p (is_used x) /\
    contents b (total l1) x /\ seg b (total l1 + bsize x) (total l1) l2 MEM_SIZE_ALIGNED last /\
    total l1 + bsize x + total l2 = 3072 /\ 0 <= total l1 /\ 0 <= total l2 /\
    20 <= bsize x /\ Forall proper l1 /\ proper x /\ Forall proper l2.
Proof.
  intros [[last Hs] _ Hp]. apply Forall_app in Hp as [Hp1 Hp2]. apply list.Forall_cons in Hp2 as [Hx Hp2].
  pose proof (seg_end _ _ _ _ _ _ Hs) as He. rewrite total_app in He. cbn [total] in He.
  change MEM_SIZE_ALIGNED with 3072 in *.
  apply seg_app in Hs as (m & p & Hs1 & Hs2). pose proof (seg_end _ _ _ _ _ _ Hs1) as Hm.
  rewrite Z.add_0_l in Hm. subst m. cbn [seg] in Hs2. destruct Hs2 as (Hh & Hc & Hs2).
  pose proof (total_nonneg _ Hp1). pose proof (total_nonneg _ Hp2). pose proof (proper_size _ Hx).
  exists p, last. do 4 (split; [done|]). do 4 (split; [lia|]). by split.
Qed.

(** ** Steps *)

Ltac offsets :=
  unfold in_array, ram_end in *; change SIZEOF_STRUCT_MEM with 8 in *; change MEM_SIZE_ALIGNED with 3072 in *;
  change MIN_SIZE_ALIGNED with 12 in *; lia.

(** One call of the environment. *)
Ltac call :=
  split; [cbn [mutex]; repeat split; first [offsets|apply u16_range|by unfold is_u8]|];
  let x := fresh "x" in let s := fresh "s" in let H := fresh "H" in
  intros x s H; cbn in H; first [subst s; destruct x | destruct H as [-> ->]]; cbn [bind mem lfree mutex].

Lemma wp_next_free n la lb b Q : laid b (la ++ lb) -> (length lb < n)%nat ->
  Q (Done tt) (RamState b (first_free (total la) lb) true) ->
  wp ram_env (iter n next_free_round tt) Q (RamState b (total la) true).
Proof.
  revert la lb. induction n as [|n IH]; intros la lb Hl Hn HQ; [lia|]. cbn [iter]. apply wp_bind.
  unfold next_free_round. call.
  destruct lb as [|x lb].
  - rewrite app_nil_r in Hl. cbn [first_free] in HQ. rewrite (laid_total _ _ Hl) in *. call.
    destruct (laid_end _ _ Hl) as [_ ->].
    change (negb (1 =? 0) && negb (MEM_SIZE_ALIGNED =? ram_end)) with false. exact HQ.
  - destruct (laid_at _ _ _ _ Hl) as (p & last & _ & (Hnext & _ & Hu) & _ & _ & Ht & H1 & H2 & Hx & _).
    call. rewrite Hu. destruct x as [d|m]; cbn [is_used]; [|exact HQ].
    unfold ram_end. change MEM_SIZE_ALIGNED with 3072. rewrite (proj2 (Z.eqb_neq _ 3072)) by lia. cbn [Z.eqb negb andb].
    call. rewrite Hnext. call. cbn [andthen wp].
    replace (total la + bsize (Used d)) with (total (la ++ [Used d])) by (rewrite total_app; simpl; lia).
    apply (IH _ lb); [by rewrite <- app_assoc|simpl in Hn; lia|].
    rewrite total_app. cbn [total]. rewrite Z.add_0_r. exact HQ.
Qed.

(** Some blocks in the middle are replaced by others of the same extent; the
    block after them gets a new [prev]. *)
Lemma laid_replace b b' l1 xs ms l2 q : laid b (l1 ++ xs ++ l2) -> xs <> [] ->
  total ms = total xs -> Forall proper ms ->
  (forall a, a < total l1 -> b' a = b a) ->
  (forall a, total l1 + total xs <= a -> a <> total l1 + total xs + 2 -> a <> total l1 + total xs + 3 -> b' a = b a) ->
  seg b' (total l1) (get16 b (total l1 + 2)) ms (total l1 + total xs) q ->
  (l2 <> [] -> get16 b' (total l1 + total xs + 2) = q) ->
  laid b' (l1 ++ ms ++ l2).
Proof.
  intros Hl Hxs Htot Hms Hlow Hhigh Hseg Hprev.
  pose proof (laid_total _ _ Hl) as Ht. rewrite !total_app in Ht.
  destruct Hl as [[last Hs] [He He'] Hp]. rewrite !Forall_app in Hp. destruct Hp as (Hp1 & Hpx & Hp2).
  pose proof (total_gap _ Hp2) as Hn2.
  apply seg_app in Hs as (m & p & Hs1 & Hs2). pose proof (seg_end _ _ _ _ _ _ Hs1) as Hm.
  rewrite Z.add_0_l in Hm. subst m. apply seg_app in Hs2 as (m & p2 & Hsx & Hs2).
  pose proof (seg_end _ _ _ _ _ _ Hsx) as Hm. subst m.
  assert (get16 b (total l1 + 2) = p) as Hgp by (destruct xs; [done|]; apply Hsx). rewrite Hgp in Hseg.
  destruct (seg_relink b b' (total l1 + total xs) p2 q l2 MEM_SIZE_ALIGNED last) as [last' Hs2']; [done| |done|done|].
  { intros a [Ha _]. by apply Hhigh. }
  split.
  - exists last'. apply seg_app. exists (total l1), p. split.
    + eapply seg_agree; [done| |exact Hs1]. intros a Ha. apply Hlow. lia.
    + apply seg_app. by exists (total l1 + total xs), q.
  - split; [rewrite <- He at 2; apply get16_agree|rewrite <- He']; apply Hhigh; lia.
  - by rewrite !Forall_app.
Qed.

(** The bytes at [o]. *)
Definition read (b : Z -> Z) (o n : Z) : list Z := map (fun i => b (o + Z.of_nat i)) (seq 0 (Z.to_nat n)).

Lemma read_length b o n : 0 <= n -> Z.of_nat (length (read b o n)) = n.
Proof. intros Hn. unfold read. rewrite length_map, length_seq. lia. Qed.

Lemma contents_read b o n : contents b o (Used (read b (o + SIZEOF_STRUCT_MEM) n)).
Proof.
  intros i v Hi. unfold read in Hi. rewrite list_lookup_fmap in Hi. apply fmap_Some in Hi as (j & Hj & ->).
  by apply lookup_seq in Hj as [-> _].
Qed.

Lemma bsize_used b o n : 0 <= n -> bsize (Used (read b o n)) = 8 + n.
Proof. intros Hn. unfold bsize. cbn [data_length]. by rewrite read_length. Qed.

Lemma get16_except b b' c d o : (forall a, a <> c -> a <> d -> b' a = b a) ->
  o <> c -> o <> d -> o + 1 <> c -> o + 1 <> d -> get16 b' o = get16 b o.
Proof. intros Hb H1 H2 H3 H4. apply get16_agree; by apply Hb. Qed.

Lemma proper_read b o n : 12 <= n -> n mod 4 = 0 -> proper (Used (read b o n)).
Proof. intros H1 H2. apply proper_eq. cbn [data_length]. by rewrite read_length by lia. Qed.

Lemma get16_insert b o v a : o <> a -> o <> a + 1 -> get16 (<[o := v]> b) a = get16 b a.
Proof. intros H0 H1. unfold get16. by rewrite !fn_lookup_insert_ne. Qed.

Lemma u16_small v : 0 <= v < 65536 -> u16 v = v.
Proof. intros Hv. by apply Z.mod_small. Qed.

(** Reading in an array that has been written to. *)
Ltac reads := repeat first
  [ rewrite get16_put16
  | rewrite get16_other by lia
  | rewrite get16_insert by lia
  | rewrite put16_other by lia
  | rewrite fn_lookup_insert
  | rewrite fn_lookup_insert_ne by lia ].

Lemma wp_link_after p nx b lf Q : 0 <= nx <= 3072 ->
  (forall b', (forall a, a <> nx + 2 -> a <> nx + 3 -> b' a = b a) ->
     (nx <> 3072 -> get16 b' (nx + 2) = u16 p) -> Q (Done tt) (RamState b' lf true)) ->
  wp ram_env (link_after p nx) Q (RamState b lf true).
Proof.
  intros Hn HQ. unfold link_after. change MEM_SIZE_ALIGNED with 3072. destruct (Z.eqb_spec nx 3072) as [->|Hne].
  - apply HQ; [done|lia].
  - unfold set_prev. call. apply HQ; intros; [apply put16_other; lia|apply get16_put16].
Qed.

(** What becomes of a free block of [n] bytes of which [size] are wanted. *)
Definition fits_split (size n : Z) : bool := size + SIZEOF_STRUCT_MEM + MIN_SIZE_ALIGNED <=? n.
Lemma fits_split_eq size n : fits_split size n = (size + 20 <=? n).
Proof. unfold fits_split. change SIZEOF_STRUCT_MEM with 8. change MIN_SIZE_ALIGNED with 12. f_equal. lia. Qed.

Definition given (size n : Z) : Z := if fits_split size n then size else n.
Definition carved (size n : Z) (d : list Z) : list block :=
  Used d :: if fits_split size n then [Free (n - size - SIZEOF_STRUCT_MEM)] else [].

Lemma seg_prev b o p l o' last : seg b o p l o' last -> l <> [] -> get16 b (o + 2) = p.
Proof. destruct l as [|x l]; [done|]. intros [(_ & H & _) _] _. exact H. Qed.

Lemma wp_carve l1 n l2 b lf size : laid b (l1 ++ Free n :: l2) -> 12 <= size <= n -> size mod 4 = 0 ->
  wp ram_env (carve (total l1) size) (fun o s => exists b' d,
    o = Done tt /\ Z.of_nat (length d) = given size n /\ laid b' (l1 ++ carved size n d ++ l2) /\
    s = RamState b' lf true) (RamState b lf true).
Proof.
  intros Hl Hsz Hmod.
  destruct (laid_at _ _ _ _ Hl) as (p & last & _ & (Hnext & Hprev & Hu) & _ & Hs2 & Ht & H1 & H2 & Hx & _ & Hpr & Hp2).
  rewrite bsize_eq in Hnext, Ht, Hx, Hs2. cbn [data_length] in *.
  unfold carve. call. rewrite Hnext.
  assert (u32 (total l1 + (8 + n) - (total l1 + SIZEOF_STRUCT_MEM)) = n) as ->.
  { unfold u32. change SIZEOF_STRUCT_MEM with 8. rewrite Z.mod_small; lia. }
  fold (fits_split size n). unfold given, carved. rewrite !fits_split_eq.
  assert (total [Free n] = 8 + n) as Hfree by (cbn [total]; rewrite bsize_eq; cbn [data_length]; lia).
  destruct (Z.leb_spec (size + 20) n) as [Hsplit|Hfit].
  - change SIZEOF_STRUCT_MEM with 8. rewrite (u16_small (total l1 + 8 + size)) by lia.
    do 7 call. reads. rewrite Hnext, !u16_small by lia. apply wp_bind, wp_link_after; [lia|].
    intros b' Hb' Hp'. cbn [andthen]. call. exists b', (read b' (total l1 + 8) size).
    split; [done|]. split; [apply read_length; lia|]. split; [|done].
    assert (bsize (Used (read b' (total l1 + 8) size)) = 8 + size) as Hsize by (apply bsize_used; lia).
    apply (laid_replace b b' l1 [Free n] _ l2 (total l1 + 8 + size)); rewrite ?Hfree; try done.
    + cbn [total]. rewrite Hsize, bsize_eq. cbn [data_length]. lia.
    + apply list.Forall_cons. split; [by apply proper_read; lia|]. apply list.Forall_singleton, proper_eq.
      apply (proj1 (proper_eq _)) in Hpr as [_ Hpr]. cbn [data_length] in *. split; [lia|]. Z.to_euclidean_division_equations. lia.
    + intros a Ha. rewrite Hb' by lia. by reads.
    + intros a Ha H3 H4. rewrite Hb' by lia. by reads.
    + cbn [seg]. rewrite Hsize, bsize_eq. cbn [data_length is_used]. unfold header.
      rewrite Hprev, !(get16_except _ _ _ _ _ Hb'), !Hb' by lia.
      replace (total l1 + (8 + size)) with (total l1 + 8 + size) by lia. reads.
      repeat split; try lia. apply contents_read.
    + intros Hne. pose proof (total_pos _ Hp2 Hne). rewrite Hp' by lia. by apply u16_small; lia.
  - do 3 call. set (b' := <[total l1 + 4 := 1]> b). exists b', (read b' (total l1 + 8) n).
    split; [done|]. split; [apply read_length; lia|]. split; [|done].
    assert (bsize (Used (read b' (total l1 + 8) n)) = 8 + n) as Hsize by (apply bsize_used; lia).
    apply (laid_replace b _ l1 [Free n] _ l2 (total l1)); rewrite ?Hfree; try done.
    + cbn [total]. rewrite Hsize. lia.
    + apply list.Forall_singleton, proper_read; [lia|]. by apply (proj1 (proper_eq _)) in Hpr as [_ Hpr].
    + intros a Ha. unfold b'. by reads.
    + intros a Ha _ _. unfold b'. by reads.
    + cbn [seg]. rewrite Hsize. unfold header, b'. reads. cbn [is_used].
      repeat split; try lia. apply contents_read.
    + intros Hne. unfold b'. reads. by apply (seg_prev _ _ _ _ _ _ Hs2).
Qed.

Lemma wp_take_here l1 n l2 b size : laid b (l1 ++ Free n :: l2) -> 12 <= size <= n -> size mod 4 = 0 ->
  wp ram_env (take_here (total l1) size) (fun o s => exists b' d, let l' := l1 ++ carved size n d ++ l2 in
    o = Done tt /\ Z.of_nat (length d) = given size n /\ laid b' l' /\
    s = RamState b' (first_free 0 l') true) (RamState b (first_free 0 (l1 ++ Free n :: l2)) true).
Proof.
  intros Hl Hsz Hmod. unfold take_here. eapply wp_seq; [by apply wp_carve|].
  intros o s (b' & d & -> & Hd & Hl' & ->). cbn [andthen]. call.
  pose proof (laid_proper _ _ Hl) as Hp. apply Forall_app in Hp as [Hp _].
  destruct (forallb is_used l1) eqn:Hu.
  - rewrite (first_free_used 0 l1 (Free n :: l2)), Z.eqb_refl by done. cbn [first_free]. rewrite Z.add_0_l.
    apply (wp_next_free _ l1 (carved size n d ++ l2)); [done| |].
    + pose proof (laid_rounds _ _ Hl') as Hr. rewrite length_app in Hr. lia.
    + exists b', d. do 3 (split; [done|]). by rewrite (first_free_used 0 l1), Z.add_0_l.
  - pose proof (first_free_before 0 l1 (Free n :: l2) Hp Hu).
    rewrite (proj2 (Z.eqb_neq _ _)) by lia. exists b', d. do 3 (split; [done|]).
    by rewrite (first_free_free 0 l1 _ (carved size n d ++ l2)).
Qed.

(** ** Allocating *)

(** The lowest free block of at least [size] bytes, with the blocks on either side. *)
Fixpoint first_fit (size : Z) (l : list block) : option (list block * Z * list block) :=
  match l with
  | [] => None
  | x :: l =>
    match x with
    | Free n => if size <=? n then Some ([], n, l) else
        match first_fit size l with Some (l1, k, l2) => Some (x :: l1, k, l2) | None => None end
    | Used _ => match first_fit size l with Some (l1, k, l2) => Some (x :: l1, k, l2) | None => None end
    end
  end.

Lemma first_fit_skip size x l : is_used x = true \/ data_length x < size ->
  first_fit size (x :: l) = match first_fit size l with Some (l1, k, l2) => Some (x :: l1, k, l2) | None => None end.
Proof.
  destruct x as [d|n]; cbn [first_fit is_used data_length]; [done|]. intros [?|H]; [done|].
  by rewrite (proj2 (Z.leb_gt _ _)) by lia.
Qed.

Lemma first_fit_used size la lb : forallb is_used la = true ->
  first_fit size (la ++ lb) = match first_fit size lb with Some (l1, k, l2) => Some (la ++ l1, k, l2) | None => None end.
Proof.
  induction la as [|x la IH]; cbn [forallb app]; [by destruct (first_fit size lb) as [[[]]|]|].
  intros [Hx Hla]%andb_prop. rewrite first_fit_skip, IH by auto. by destruct (first_fit size lb) as [[[? ?] ?]|].
Qed.

Lemma first_fit_some size l l1 k l2 : first_fit size l = Some (l1, k, l2) -> l = l1 ++ Free k :: l2 /\ size <= k.
Proof.
  revert l1. induction l as [|x l IH]; intros l1; [done|].
  assert (first_fit size l = Some (tail l1, k, l2) -> x :: l = (x :: tail l1) ++ Free k :: l2 /\ size <= k) as Hr.
  { intros [H1 H2]%IH. split; [cbn [app]; by rewrite <- H1|done]. }
  destruct (decide (is_used x = true \/ data_length x < size)) as [Hx|Hx].
  - rewrite first_fit_skip by done. destruct (first_fit size l) as [[[l1' k'] l2']|]; [|done].
    intros [= <- <- <-]. by apply Hr.
  - destruct x as [d|n]; cbn in *; [tauto|]. rewrite (proj2 (Z.leb_le size n)) by lia.
    intros [= <- <- <-]. split; [done|lia].
Qed.

Lemma first_fit_none size l : first_fit size l = None <-> Forall (fun x => is_used x = true \/ data_length x < size) l.
Proof.
  induction l as [|x l IH]; [done|]. rewrite list.Forall_cons, <- IH.
  destruct (decide (is_used x = true \/ data_length x < size)) as [Hx|Hx].
  - rewrite first_fit_skip by done. destruct (first_fit size l) as [[[? ?] ?]|]; [by split; [|intros [_ ?]]|by split].
  - destruct x as [d|n]; cbn in *; [tauto|]. rewrite (proj2 (Z.leb_le size n)) by lia. by split; [|intros [? _]].
Qed.

(** Nothing that large is in so few bytes. *)
Lemma first_fit_total size l : Forall proper l -> total l <= size -> 0 < size -> first_fit size l = None.
Proof.
  intros Hp Ht Hs. apply first_fit_none. revert Ht. induction Hp as [|x l Hx Hp IH]; [done|].
  cbn [total]. intros Ht. apply total_nonneg in Hp. rewrite bsize_eq in Ht.
  destruct (proj1 (proper_eq x) Hx) as [Hx12 _].
  apply list.Forall_cons. split; [right; lia|apply IH; lia].
Qed.

Lemma wp_search size la lb b n : laid b (la ++ lb) -> 12 <= size < 65536 -> size mod 4 = 0 -> (length lb < n)%nat ->
  wp ram_env (iter n (search_round size) (total la))
    (fun o s => match first_fit size lb with
     | None => o = Done None /\ s = RamState b (first_free 0 (la ++ lb)) true
     | Some (l1, k, l2) => exists b' d, let l' := (la ++ l1) ++ carved size k d ++ l2 in
         o = Done (Some (total (la ++ l1) + SIZEOF_STRUCT_MEM)) /\ Z.of_nat (length d) = given size k /\
         laid b' l' /\ s = RamState b' (first_free 0 l') true
     end) (RamState b (first_free 0 (la ++ lb)) true).
Proof.
  intros Hl Hsz Hmod. revert la lb Hl. induction n as [|n IH]; intros la lb Hl Hn; [lia|]. cbn [iter]. apply wp_bind.
  unfold search_round. change MEM_SIZE_ALIGNED with 3072. destruct (Z.ltb_spec (total la) (3072 - size)) as [Hlt|Hge].
  2: { cbn [wp andthen]. pose proof (laid_total _ _ Hl) as Ht. rewrite total_app in Ht.
       change MEM_SIZE_ALIGNED with 3072 in Ht.
       pose proof (laid_proper _ _ Hl) as Hp. apply Forall_app in Hp as [_ Hp].
       rewrite first_fit_total by (done || lia). done. }
  destruct lb as [|x lb]; [pose proof (laid_total _ _ Hl) as Ht; rewrite app_nil_r in Ht; offsets|].
  destruct (laid_at _ _ _ _ Hl) as (p & last & _ & (Hnext & _ & Hu) & _ & _ & Ht & H1 & H2 & Hx & _).
  match goal with |- wp _ _ (andthen _ _ ?Q) ?s =>
    assert (is_used x = true \/ data_length x < size -> wp ram_env (iter n (search_round size) (total la + bsize x)) Q s) as Hgo end.
  { intros Hskip. rewrite first_fit_skip by done.
    specialize (IH (la ++ [x]) lb). rewrite total_app, <- !app_assoc in IH. cbn [total app] in IH.
    rewrite Z.add_0_r in IH. eapply wp_mono; [apply IH; [done|simpl in Hn; lia]|].
    intros o s. destruct (first_fit size lb) as [[[l1 k] l2]|]; [|done].
    replace ((la ++ [x]) ++ l1) with (la ++ x :: l1) by (by rewrite <- app_assoc). done. }
  call. rewrite Hu. destruct x as [d|m]; cbn [is_used].
  - cbn [Z.eqb bind]. call. rewrite Hnext. cbn [andthen wp]. apply Hgo. by left.
  - rewrite bsize_eq in Hnext, Hgo, Ht, Hx. cbn [data_length] in *. cbn [Z.eqb bind]. call. rewrite Hnext.
    assert (u32 (total la + (8 + m) - (total la + SIZEOF_STRUCT_MEM)) = m) as ->.
    { unfold u32. change SIZEOF_STRUCT_MEM with 8. rewrite Z.mod_small; lia. }
    cbn [first_fit]. cbn [first_fit] in Hgo. destruct (Z.leb_spec size m) as [Hfit|Hno].
    + clear Hgo. eapply wp_seq; [apply wp_take_here; [done|lia|done]|].
      intros o s (b' & d & -> & Hd & Hl' & ->). cbn [andthen wp]. exists b', d. by rewrite app_nil_r.
    + call. rewrite Hnext. cbn [andthen wp]. apply Hgo. by right.
Qed.

Lemma align_eq n : 0 <= n -> LWIP_MEM_ALIGN_SIZE n = (n + 3) / 4 * 4.
Proof.
  intros Hn. unfold LWIP_MEM_ALIGN_SIZE. change MEM_ALIGNMENT with 4.
  replace (n + 4 - 1) with (n + 3) by lia. change (4 - 1) with (Z.ones 2).
  rewrite <- Z.ldiff_land, Z.ldiff_ones_r, Z.shiftr_div_pow2, Z.shiftl_mul_pow2 by lia. done.
Qed.

Lemma data_size_ok n : 0 <= n < 65536 ->
  12 <= data_size n < 65536 /\ data_size n mod 4 = 0 /\ (n <= 65532 -> n <= data_size n < n + 15).
Proof.
  intros Hn. unfold data_size. rewrite align_eq by lia. change MIN_SIZE_ALIGNED with 12.
  pose proof (u16_range ((n + 3) / 4 * 4)) as Hu. unfold is_u16 in Hu. change (2 ^ 16) with 65536 in Hu.
  assert (u16 ((n + 3) / 4 * 4) mod 4 = 0) as Hm.
  { unfold u16. Z.to_euclidean_division_equations. lia. }
  assert (n <= 65532 -> u16 ((n + 3) / 4 * 4) = (n + 3) / 4 * 4) as Hs.
  { intros H. apply Z.mod_small. Z.to_euclidean_division_equations. lia. }
  destruct (Z.ltb_spec (u16 ((n + 3) / 4 * 4)) 12) as [Hlt|Hge].
  - split; [lia|]. split; [done|]. intros H. rewrite Hs in Hlt by done. Z.to_euclidean_division_equations. lia.
  - split; [lia|]. split; [done|]. intros H. rewrite Hs in * by done. Z.to_euclidean_division_equations. lia.
Qed.

(** Where a request for [size] bytes goes. *)
Definition place (size : Z) (l : list block) : option (list block * Z * list block) :=
  if size =? 0 then None else first_fit (data_size size) l.

(** All of the blocks before the first free one are taken. *)
Lemma first_free_split o l : exists la lb, l = la ++ lb /\ forallb is_used la = true /\ first_free o l = o + total la.
Proof.
  revert o. induction l as [|[d|n] l IH]; intros o.
  - exists [], []. simpl. split; [done|]. split; [done|lia].
  - destruct (IH (o + bsize (Used d))) as (la & lb & -> & Hu & Hf). exists (Used d :: la), lb.
    split; [done|]. split; [done|]. cbn [first_free total]. rewrite Hf. lia.
  - exists [], (Free n :: l). simpl. split; [done|]. split; [done|lia].
Qed.

Lemma heap_carved b b' lf l1 k l2 size d : heap b lf (l1 ++ Free k :: l2) -> laid b' (l1 ++ carved size k d ++ l2) ->
  heap b' (first_free 0 (l1 ++ carved size k d ++ l2)) (l1 ++ carved size k d ++ l2).
Proof.
  intros [_ Ha _] Hl. split; [done| |done]. unfold carved. cbn [app]. 
  pose proof (apart_r _ _ Ha) as [Hk Hr]. cbn [is_used] in Hk.
  apply apart_used. split; [|by destruct (fits_split size k)].
  clear Hl Hk Hr. induction l1 as [|x l1 IH]; [done|]. destruct Ha as [Hx Ha]. split; [|by apply IH].
  destruct (is_used x); [done|]. by destruct l1.
Qed.

Definition allocated (size : Z) (b : Z -> Z) (lf : Z) (l : list block) (o : outcome (option Z)) (s : ram_state) : Prop :=
  match place size l with
  | None => o = Done None /\ s = RamState b lf false
  | Some (l1, k, l2) => exists b' lf' d,
      o = Done (Some (total l1 + SIZEOF_STRUCT_MEM)) /\ Z.of_nat (length d) = given (data_size size) k /\
      heap b' lf' (l1 ++ carved (data_size size) k d ++ l2) /\ s = RamState b' lf' false
  end.

Lemma wp_malloc b lf l size : heap b lf l -> 0 <= size < 65536 ->
  wp ram_env (mem_malloc size) (allocated size b lf l) (RamState b lf false).
Proof.
  intros Hh Hsz. pose proof Hh as [Hl Ha Hlf]. destruct (data_size_ok size Hsz) as (H12 & Hmod & _).
  pose proof (laid_total _ _ Hl) as Ht. pose proof (laid_proper _ _ Hl) as Hp.
  unfold mem_malloc, allocated, place. destruct (size =? 0); [done|].
  destruct (Z.ltb_spec MEM_SIZE_ALIGNED (data_size size)) as [Hbig|Hok].
  { rewrite first_fit_total by (done || lia). done. }
  call. call. destruct (first_free_split 0 l) as (la & lb & -> & Hu & Hf). rewrite Hf in Hlf. rewrite Z.add_0_l in Hlf.
  rewrite u16_small. 2: { pose proof (first_free_range 0 (la ++ lb) Hp). change MEM_SIZE_ALIGNED with 3072 in *. lia. }
  rewrite Hlf. eapply wp_seq.
  { pose proof (wp_search (data_size size) la lb b rounds Hl H12 Hmod) as Hs. rewrite Hf, Z.add_0_l in Hs. apply Hs.
    pose proof (laid_rounds _ _ Hl) as Hr. rewrite length_app in Hr. lia. }
  intros o s. rewrite first_fit_used by done.
  destruct (first_fit (data_size size) lb) as [[[l1 k] l2]|] eqn:Hfit.
  - intros (b' & d & -> & Hd & Hl' & ->). cbn [andthen]. call. exists b', (first_free 0 ((la ++ l1) ++ carved (data_size size) k d ++ l2)), d.
    split; [done|]. split; [done|]. split; [|done]. apply first_fit_some in Hfit as [-> _].
    eapply heap_carved; [rewrite <- app_assoc; exact Hh|done].
  - intros [-> ->]. cbn [andthen]. call. call. done.
Qed.

(** ** Giving back *)

(** Free blocks that are neighbours become one. *)
Fixpoint coalesce (l : list block) : list block :=
  match l with
  | [] => []
  | Used d :: l => Used d :: coalesce l
  | Free n :: l =>
    match coalesce l with
    | Free k :: l' => Free (n + SIZEOF_STRUCT_MEM + k) :: l'
    | l' => Free n :: l'
    end
  end.

Lemma coalesce_apart l : apart l -> coalesce l = l.
Proof.
  induction l as [|[d|n] l IH]; [done|..]; intros [Hh Ha]; cbn [coalesce]; rewrite IH by done; [done|].
  by destruct l as [|[?|?] ?].
Qed.

Lemma coalesce_merge l1 a c l2 :
  coalesce (l1 ++ Free a :: Free c :: l2) = coalesce (l1 ++ Free (a + SIZEOF_STRUCT_MEM + c) :: l2).
Proof.
  induction l1 as [|x l1 IH]; [|cbn [app coalesce]; by rewrite IH].
  cbn [app coalesce]. destruct (coalesce l2) as [|[d|k] l']; [done..|]. do 2 f_equal. lia.
Qed.

Lemma first_free_coalesce o l : first_free o (coalesce l) = first_free o l.
Proof.
  revert o. induction l as [|[d|n] l IH]; intros o; [done|apply IH|].
  cbn [coalesce first_free]. by destruct (coalesce l) as [|[?|?] ?].
Qed.

Lemma wp_merge l1 a c l2 b lf Q : laid b (l1 ++ Free a :: Free c :: l2) ->
  (forall b', laid b' (l1 ++ Free (a + SIZEOF_STRUCT_MEM + c) :: l2) -> Q (Done tt) (RamState b' lf true)) ->
  wp ram_env
    (let! n := get_next (total l1 + (8 + a)) in
     set_next (total l1) n;;
     let! n := get_next (total l1 + (8 + a)) in
     set_prev n (total l1)) Q (RamState b lf true).
Proof.
  intros Hl HQ. change SIZEOF_STRUCT_MEM with 8 in *.
  destruct (laid_at _ l1 _ _ Hl) as (p & last & _ & (_ & Hprev & Hu) & _ & Hs2 & Ht & H1 & H2 & Hx & _ & Hpa & Hp2).
  apply list.Forall_cons in Hp2 as [Hpc Hp2]. cbn [seg total] in Hs2, Ht. destruct Hs2 as ((Hnext & _ & _) & _ & Hs2).
  pose proof (proper_size _ Hpc) as [Hc _]. pose proof (total_nonneg _ Hp2).
  rewrite !bsize_eq in *. cbn [data_length] in *.
  do 3 call. reads. rewrite !Hnext, !u16_small by lia. call. reads. rewrite ?Hnext, ?u16_small by lia. 
  apply HQ. assert (total [Free a; Free c] = 8 + a + (8 + c)) as Hfree by (cbn [total]; rewrite !bsize_eq; cbn [data_length]; lia).
  apply (laid_replace b _ l1 [Free a; Free c] [Free (a + 8 + c)] l2 (total l1)); rewrite ?Hfree; try done.
  - cbn [total]. rewrite bsize_eq. cbn [data_length]. lia.
  - apply list.Forall_singleton, proper_eq. apply (proj1 (proper_eq _)) in Hpa as [_ Hpa], Hpc as [_ Hpc].
    cbn [data_length] in *. split; [lia|]. Z.to_euclidean_division_equations. lia.
  - intros x Hlt. by reads.
  - intros x Hge H3 H4. by reads.
  - cbn [seg]. rewrite bsize_eq. unfold header. cbn [data_length is_used]. reads. rewrite Hu. repeat split; lia.
  - intros _. replace (total l1 + (8 + a + (8 + c)) + 2) with (total l1 + (8 + a) + (8 + c) + 2) by lia. by reads.
Qed.

Lemma wp_plug_forward l1 n l2 b lf : laid b (l1 ++ Free n :: l2) -> lf <= total l1 -> apart l2 ->
  wp ram_env (plug_forward (total l1)) (fun o s => exists b' n' l2', o = Done tt /\ s = RamState b' lf true /\
    laid b' (l1 ++ Free n' :: l2') /\ head_used l2' /\ apart l2' /\
    coalesce (l1 ++ Free n' :: l2') = coalesce (l1 ++ Free n :: l2)) (RamState b lf true).
Proof.
  intros Hl Hlf Ha. assert (head_used l2 -> exists b' n' l2', Done tt = Done tt /\ RamState b lf true = RamState b' lf true /\
    laid b' (l1 ++ Free n' :: l2') /\ head_used l2' /\ apart l2' /\
    coalesce (l1 ++ Free n' :: l2') = coalesce (l1 ++ Free n :: l2)) as Hsame by (exists b, n, l2; done).
  destruct (laid_at _ _ _ _ Hl) as (p & last & _ & (Hnext & _ & _) & _ & Hs2 & Ht & H1 & H2 & Hx & _ & _ & Hp2).
  rewrite bsize_eq in *. cbn [data_length] in *.
  unfold plug_forward. call. rewrite Hnext. rewrite (proj2 (Z.eqb_neq (total l1) _)) by lia. cbn [negb]. 
  destruct l2 as [|x l2].
  - cbn [total] in Ht. replace (total l1 + (8 + n)) with MEM_SIZE_ALIGNED by offsets. call.
    destruct (laid_end _ _ Hl) as [_ ->]. by apply Hsame.
  - cbn [seg total] in Hs2, Ht. destruct Hs2 as ((_ & _ & Hu) & _).
    apply list.Forall_cons in Hp2 as [Hpx Hp2]. pose proof (proper_size _ Hpx). pose proof (total_nonneg _ Hp2).
    call. rewrite Hu. destruct x as [d|c]; cbn [is_used]; [by apply Hsame|]. cbn [Z.eqb andb].
    rewrite (proj2 (Z.eqb_neq _ ram_end)) by offsets. cbn [negb]. call.
    rewrite (proj2 (Z.eqb_neq lf _)) by lia. cbn [bind].
    apply wp_merge with (l2 := l2) (c := c); [done|]. intros b' Hb'. exists b', (n + SIZEOF_STRUCT_MEM + c), l2.
    destruct Ha as [Hh Ha]. do 3 (split; [done|]). do 2 (split; [done|]). by rewrite coalesce_merge.
Qed.

Lemma seg_last b o prev l y o' last : seg b o prev (l ++ [y]) o' last -> last = o + total l.
Proof.
  intros (m & p & Hl & _ & _ & _ & ->)%seg_app. by apply seg_end in Hl.
Qed.

Lemma wp_plug_backward l1 n l2 b lf : laid b (l1 ++ Free n :: l2) -> lf = first_free 0 (l1 ++ Free n :: l2) ->
  apart l1 -> head_used l2 -> apart l2 ->
  wp ram_env (plug_backward (total l1)) (fun o s => exists b' l', o = Done tt /\ s = RamState b' lf true /\
    laid b' l' /\ apart l' /\ coalesce l' = coalesce (l1 ++ Free n :: l2)) (RamState b lf true).
Proof.
  intros Hl Hlf Ha1 Hh Ha2.
  destruct (laid_at _ _ _ _ Hl) as (p & last & Hs1 & (_ & Hprev & _) & _ & _ & Ht & H1 & H2 & Hx & Hp1 & _ & _).
  unfold plug_backward. call. rewrite Hprev.
  destruct l1 as [|y l1 _] using rev_ind.
  - destruct Hs1 as [_ ->]. cbn [total Z.eqb negb]. exists b, (Free n :: l2). by split.
  - pose proof (seg_last _ _ _ _ _ _ _ Hs1) as ->. rewrite Z.add_0_l.
    rewrite total_app in *. cbn [total] in *. rewrite Z.add_0_r in *.
    apply Forall_app in Hp1 as [Hp1 Hpy].
    apply list.Forall_cons in Hpy as [Hpy _]. pose proof (proper_size _ Hpy).
    rewrite (proj2 (Z.eqb_neq (total l1) _)) by lia. cbn [negb].
    rewrite <- app_assoc in *. cbn [app] in *.
    destruct (laid_at _ l1 _ _ Hl) as (p' & last' & _ & (_ & _ & Hu) & _).
    pose proof (total_nonneg _ Hp1). call. rewrite Hu. destruct y as [d|a]; cbn [is_used Z.eqb].
    + exists b, (l1 ++ Used d :: Free n :: l2). do 3 (split; [done|]). split; [|done].
      apply apart_used in Ha1 as [Ha1 _]. apply apart_used. by split.
    + call. pose proof (first_free_le l1 a (Free n :: l2) Hp1). rewrite bsize_eq in *. cbn [data_length] in *.
      rewrite (proj2 (Z.eqb_neq lf _)) by lia. cbn [bind].
      apply wp_merge with (l2 := l2) (c := n); [done|]. intros b' Hb'. exists b', (l1 ++ Free (a + SIZEOF_STRUCT_MEM + n) :: l2).
      do 3 (split; [done|]). split; [by eapply apart_free|]. by rewrite coalesce_merge.
Qed.

Lemma wp_plug_holes l1 n l2 b lf : laid b (l1 ++ Free n :: l2) -> lf = first_free 0 (l1 ++ Free n :: l2) ->
  apart l1 -> apart l2 ->
  wp ram_env (plug_holes (total l1)) (fun o s => exists b', let l' := coalesce (l1 ++ Free n :: l2) in
    o = Done tt /\ heap b' (first_free 0 l') l' /\ s = RamState b' (first_free 0 l') true) (RamState b lf true).
Proof.
  intros Hl Hlf Ha1 Ha2. pose proof (laid_proper _ _ Hl) as Hp. apply Forall_app in Hp as [Hp1 _].
  pose proof (first_free_le l1 n l2 Hp1).
  unfold plug_holes. eapply wp_seq; [apply wp_plug_forward; [done|lia|done]|].
  intros o s (b1 & n1 & l2' & -> & -> & Hl1 & Hh & Ha & Hc). cbn [andthen].
  eapply wp_mono; [apply wp_plug_backward; [done| |done..]|].
  { by rewrite Hlf, <- (first_free_coalesce 0 (l1 ++ Free n :: l2)), <- Hc, first_free_coalesce. }
  intros o s (b' & l' & -> & -> & Hl' & Ha' & Hc'). exists b'. cbv zeta.
  rewrite <- Hc, <- Hc', coalesce_apart by done. split; [done|]. split; [by split|].
  by rewrite Hlf, <- (coalesce_apart l'), Hc', Hc, first_free_coalesce by done.
Qed.

(** The first free block, when one more is free. *)
Lemma first_free_freed l1 d n l2 : Forall proper l1 -> proper (Used d) -> Forall proper l2 ->
  let lf := first_free 0 (l1 ++ Used d :: l2) in
  total l1 < lf /\ total l1 = first_free 0 (l1 ++ Free n :: l2) \/
  lf <= total l1 /\ lf = first_free 0 (l1 ++ Free n :: l2).
Proof.
  intros Hp1 Hd Hp2. cbv zeta. pose proof (proper_size _ Hd). destruct (forallb is_used l1) eqn:Hu.
  - left. rewrite !first_free_used by done. cbn [first_free].
    pose proof (first_free_range (0 + total l1 + bsize (Used d)) l2 Hp2). lia.
  - right. pose proof (first_free_before 0 l1 (Used d :: l2) Hp1 Hu). split; [lia|]. by apply first_free_free.
Qed.

Lemma wp_free b lf l1 d l2 : heap b lf (l1 ++ Used d :: l2) ->
  wp ram_env (mem_free (Some (total l1 + SIZEOF_STRUCT_MEM))) (fun o s => exists b',
    let l' := coalesce (l1 ++ Free (Z.of_nat (length d)) :: l2) in
    o = Done tt /\ heap b' (first_free 0 l') l' /\ s = RamState b' (first_free 0 l') false) (RamState b lf false).
Proof.
  intros [Hl Ha Hlf]. apply apart_used in Ha as [Ha1 Ha2].
  destruct (laid_at _ _ _ _ Hl) as (p & last & _ & (Hnext & Hprev & Hu) & _ & Hs2 & Ht & H1 & H2 & Hx & Hp1 & Hpx & Hp2).
  unfold mem_free. rewrite bsize_eq in *. cbn [data_length] in *.
  rewrite (proj2 (Z.ltb_ge _ 0)), (proj2 (Z.leb_gt ram_end _)) by offsets. cbn [orb].
  call. replace (total l1 + SIZEOF_STRUCT_MEM - SIZEOF_STRUCT_MEM) with (total l1) by lia. call. call.
  set (b' := <[total l1 + 4 := 0]> b).
  assert (laid b' (l1 ++ Free (Z.of_nat (length d)) :: l2)) as Hl'.
  { assert (total [Used d] = 8 + Z.of_nat (length d)) as Hsz by (cbn [total]; rewrite bsize_eq; cbn [data_length]; lia).
    apply (laid_replace b b' l1 [Used d] [Free (Z.of_nat (length d))] l2 (total l1)); rewrite ?Hsz; try done.
    - by apply list.Forall_singleton.
    - intros a Hlt. unfold b'. by reads.
    - intros a Hge _ _. unfold b'. by reads.
    - cbn [seg]. rewrite bsize_eq. unfold header, b'. cbn [data_length is_used]. reads. repeat split; lia.
    - intros Hne. unfold b'. reads. by apply (seg_prev _ _ _ _ _ _ Hs2). }
  assert (forall lf', lf' = first_free 0 (l1 ++ Free (Z.of_nat (length d)) :: l2) ->
    wp ram_env (let! n := get_next (total l1) in hcall (Stat (StatFreed (u16 (n - total l1))));; plug_holes (total l1);; hcall MutexUnlock)
     (fun o s => exists b', let l' := coalesce (l1 ++ Free (Z.of_nat (length d)) :: l2) in
    o = Done tt /\ heap b' (first_free 0 l') l' /\ s = RamState b' (first_free 0 l') false) (RamState b' lf' true)) as Hrest.
  { intros lf' Hlf'. call. call. eapply wp_seq; [by apply wp_plug_holes|].
    intros o s (b2 & -> & Hh & ->). cbn [andthen]. call. by exists b2. }
  destruct (first_free_freed l1 d (Z.of_nat (length d)) l2 Hp1 Hpx Hp2) as [[H3 H4]|[H3 H4]]; rewrite <- Hlf in *.
  - rewrite (proj2 (Z.ltb_lt _ _)) by done. call. by apply Hrest.
  - rewrite (proj2 (Z.ltb_ge _ _)) by lia. cbn [bind]. by apply Hrest.
Qed.

(** ** Shrinking *)

Lemma wp_insert_after l1 d xs l2 b lf n Q : laid b (l1 ++ (Used d :: xs) ++ l2) ->
  12 <= n <= Z.of_nat (length d) -> n mod 4 = 0 -> n + 20 <= Z.of_nat (length d) + total xs ->
  let e := total l1 + total (Used d :: xs) in
  (forall b', laid b' (l1 ++ [Used (take (Z.to_nat n) d); Free (total xs + Z.of_nat (length d) - n - 8)] ++ l2) ->
     Q (Done tt) (RamState b' lf true)) ->
  wp ram_env (insert_after (total l1) (total l1 + 8 + n) e) Q (RamState (<[total l1 + 8 + n + 4 := 0]> b) lf true).
Proof.
  intros Hl Hn Hmod Hroom e HQ. 
  destruct (laid_at b l1 (Used d) (xs ++ l2) Hl) as (p & last & _ & (_ & Hprev & Hu) & Hc & _ & Ht & H1 & H2 & Hx & _ & Hpd & Hp2).
  apply Forall_app in Hp2 as [Hpx Hp2]. pose proof (total_nonneg _ Hpx). pose proof (total_nonneg _ Hp2).
  pose proof (total_mod _ Hpx) as Hxmod. destruct (proj1 (proper_eq _) Hpd) as [_ Hdmod].
  rewrite total_app, bsize_eq in *. cbn [data_length] in *.
  assert (total (Used d :: xs) = 8 + Z.of_nat (length d) + total xs) as Hsz by (cbn [total]; by rewrite bsize_eq).
  unfold insert_after. subst e. rewrite Hsz. set (e := total l1 + (8 + Z.of_nat (length d) + total xs)).
  do 4 call. reads. rewrite !u16_small by lia. apply wp_link_after; [lia|]. intros b' Hb' Hp'. apply HQ.
  assert (Z.of_nat (length (take (Z.to_nat n) d)) = n) as Hlen by (rewrite length_take; lia).
  apply (laid_replace b b' l1 (Used d :: xs) _ l2 (total l1 + 8 + n)); rewrite ?Hsz; fold e; try done.
  - cbn [total]. rewrite !bsize_eq. cbn [data_length]. rewrite Hlen. lia.
  - apply list.Forall_cons. split; [apply proper_eq; cbn [data_length]; rewrite Hlen; by split; [lia|]|].
    apply list.Forall_singleton, proper_eq. cbn [data_length]. split; [lia|]. Z.to_euclidean_division_equations. lia.
  - intros a Ha. rewrite Hb' by lia. by reads.
  - intros a Ha H3 H4. rewrite Hb' by lia. by reads.
  - cbn [seg]. rewrite !bsize_eq. cbn [data_length is_used]. rewrite Hlen. unfold header.
    replace (total l1 + (8 + n)) with (total l1 + 8 + n) by lia.
    rewrite Hprev, !(get16_except _ _ _ _ _ Hb'), !Hb' by lia. reads. rewrite Hu. cbn [is_used].
    repeat split; try lia. intros i v Hi.
    pose proof (lookup_lt_Some _ _ _ Hi). apply lookup_take_Some in Hi as [Hi _]. change SIZEOF_STRUCT_MEM with 8.
    rewrite Hb' by lia. reads. by apply Hc.
  - intros Hne. pose proof (total_pos _ Hp2 Hne). rewrite Hp' by lia. apply u16_small; lia.
Qed.

(** A block cut down to [n] bytes. *)
Definition trimmed (n : Z) (d : list Z) (l2 : list block) : list block :=
  let len := Z.of_nat (length d) in
  match l2 with
  | Free c :: l2' =>
    if n =? len then Used d :: l2 else Used (take (Z.to_nat n) d) :: Free (SIZEOF_STRUCT_MEM + c + len - n - SIZEOF_STRUCT_MEM) :: l2'
  | _ =>
    if n + SIZEOF_STRUCT_MEM + MIN_SIZE_ALIGNED <=? len
    then Used (take (Z.to_nat n) d) :: Free (len - n - SIZEOF_STRUCT_MEM) :: l2 else Used d :: l2
  end.

(** One more block, of what was of a block in use. *)
Lemma heap_cut b lf l1 d xs l2 b' n m : heap b lf (l1 ++ Used d :: xs ++ l2) -> (xs = [] \/ exists c, xs = [Free c]) ->
  head_used l2 -> let l' := l1 ++ Used (take n d) :: Free m :: l2 in
  laid b' l' -> heap b' (first_free 0 l') l'.
Proof.
  intros [_ Ha _] Hxs Hh l' Hl'. split; [done| |done]. apply apart_used in Ha as [Ha1 Ha2]. apply apart_used.
  split; [done|]. split; [done|]. destruct Hxs as [->|[c ->]]; [done|]. by destruct Ha2.
Qed.

(** The first free block, when the end of one in use becomes free. *)
Lemma first_free_cut l1 d d' m l2 l3 : Forall proper l1 ->
  let l := l1 ++ Used d :: l2 in let l' := l1 ++ Used d' :: Free m :: l3 in
  forallb is_used l1 = true /\ first_free 0 l = first_free (total l1 + bsize (Used d)) l2 /\
    first_free 0 l' = total l1 + bsize (Used d') \/
  first_free 0 l < total l1 /\ first_free 0 l' = first_free 0 l.
Proof.
  intros Hp1. cbv zeta. destruct (forallb is_used l1) eqn:Hu.
  - left. split; [done|]. by rewrite !first_free_used by done.
  - right. pose proof (first_free_before 0 l1 (Used d :: l2) Hp1 Hu). split; [lia|]. by apply first_free_free.
Qed.

Section trim.
Context (b : Z -> Z) (lf : Z) (l1 : list block) (d : list Z) (l2 : list block) (n : Z).
Context (Hh : heap b lf (l1 ++ Used d :: l2)) (Hn : 12 <= n < Z.of_nat (length d)) (Hmod : n mod 4 = 0).

Let cut_to (o : outcome unit) (s : ram_state) : Prop :=
  exists b' lf', o = Done tt /\ heap b' lf' (l1 ++ trimmed n d l2) /\ s = RamState b' lf' true.

Lemma wp_cut_off xs l3 saved e : l2 = xs ++ l3 -> head_used l3 -> (xs = [] \/ exists c, xs = [Free c]) ->
  n + 20 <= Z.of_nat (length d) + total xs -> e = total l1 + total (Used d :: xs) ->
  let l' := l1 ++ Used (take (Z.to_nat n) d) :: Free (total xs + Z.of_nat (length d) - n - 8) :: l3 in
  wp ram_env (insert_after (total l1) (total l1 + 8 + n) e;; hcall (Stat (StatFreed saved)))
    (fun o s => exists b', o = Done tt /\ heap b' (first_free 0 l') l' /\ s = RamState b' (first_free 0 l') true)
    (RamState (<[total l1 + 8 + n + 4 := 0]> b) (first_free 0 l') true).
Proof.
  intros -> Hh3 Hxs Hroom -> l'. apply wp_bind. apply (wp_insert_after l1 d xs l3); [apply Hh|lia|done|done|].
  intros b' Hl'. cbn [andthen]. call. exists b'. split; [done|]. split; [|done]. by eapply heap_cut.
Qed.

Lemma wp_trim_before_free c l2' saved : l2 = Free c :: l2' ->
  wp ram_env (trim_before_free (total l1) (total l1 + bsize (Used d)) (total l1 + 8 + n) saved) cut_to (RamState b lf true).
Proof.
  intros El2. pose proof Hh as [Hl Ha Hlf]. rewrite El2 in Hl, Ha, Hlf.
  destruct (laid_at b l1 _ _ Hl) as (p & last & _ & _ & _ & Hs2 & Ht & H1 & H2 & Hx & Hp1 & Hpd & Hp2).
  apply list.Forall_cons in Hp2 as [Hpc Hp2]. pose proof (proper_size _ Hpc). pose proof (total_nonneg _ Hp2).
  cbn [seg total] in Hs2, Ht. destruct Hs2 as ((Hnext & _) & _ & _).
  assert (Z.of_nat (length (take (Z.to_nat n) d)) = n) as Hlen by (rewrite length_take; lia).
  assert (head_used l2') as Hh2 by (by apply apart_used in Ha as [_ [Hh2 _]]).
  rewrite !bsize_eq in *. cbn [data_length] in *. unfold trim_before_free. call. call. rewrite Hnext.
  set (m := 8 + c + Z.of_nat (length d) - n - 8). set (l' := l1 ++ Used (take (Z.to_nat n) d) :: Free m :: l2').
  assert (wp ram_env (set_used (total l1 + 8 + n) 0;;
     insert_after (total l1) (total l1 + 8 + n) (total l1 + (8 + Z.of_nat (length d)) + (8 + c));;
     hcall (Stat (StatFreed saved))) cut_to (RamState b (first_free 0 l') true)) as Hrest.
  { assert (total [Free c] = 8 + c) as Hc by (cbn [total]; rewrite bsize_eq; cbn [data_length]; lia).
    pose proof (wp_cut_off [Free c] l2' saved (total l1 + (8 + Z.of_nat (length d)) + (8 + c)) El2 Hh2) as Hcut.
    rewrite Hc in Hcut. fold m l' in Hcut.
    call. eapply wp_mono; [apply Hcut; [eauto|lia|]|].
    - change (total [Used d; Free c]) with (bsize (Used d) + total [Free c]). rewrite Hc, bsize_eq. cbn [data_length]. lia.
    - intros o s (b' & -> & Hb' & ->). exists b', (first_free 0 l'). split; [done|]. split; [|done].
      rewrite El2. unfold trimmed. by rewrite (proj2 (Z.eqb_neq _ _)) by lia. }
  destruct (first_free_cut l1 d (take (Z.to_nat n) d) m (Free c :: l2') l2' Hp1)
    as [(_ & H3 & H4)|[H3 H4]]; fold l' in H4; rewrite <- Hlf in *; rewrite ?bsize_eq in *; cbn [first_free data_length] in *.
  - rewrite H3, Z.eqb_refl. call. assert (first_free 0 l' = total l1 + 8 + n) as E by lia. rewrite E in Hrest. exact Hrest.
  - rewrite (proj2 (Z.eqb_neq lf _)) by lia. cbn [bind]. rewrite <- H4. exact Hrest.
Qed.

Lemma wp_trim_before_used saved : head_used l2 -> n + 20 <= Z.of_nat (length d) ->
  wp ram_env (trim_before_used (total l1) (total l1 + 8 + n) saved) cut_to (RamState b lf true).
Proof.
  intros Hh2 Hroom. pose proof Hh as [Hl Ha Hlf].
  destruct (laid_at b l1 _ _ Hl) as (p & last & _ & (Hnext & _ & _) & _ & _ & Ht & H1 & H2 & Hx & Hp1 & Hpd & Hp2).
  assert (Z.of_nat (length (take (Z.to_nat n) d)) = n) as Hlen by (rewrite length_take; lia).
  rewrite !bsize_eq in *. cbn [data_length] in *. unfold trim_before_used.
  set (m := Z.of_nat (length d) - n - 8). set (l' := l1 ++ Used (take (Z.to_nat n) d) :: Free m :: l2).
  assert (wp ram_env (set_used (total l1 + 8 + n) 0;; let! next := get_next (total l1) in
     insert_after (total l1) (total l1 + 8 + n) next;;
     hcall (Stat (StatFreed saved))) cut_to (RamState b (first_free 0 l') true)) as Hrest.
  { call. call. reads. rewrite Hnext.
    pose proof (wp_cut_off [] l2 saved (total l1 + (8 + Z.of_nat (length d))) eq_refl Hh2) as Hcut.
    cbn [total] in Hcut. rewrite Z.add_0_l in Hcut. fold m l' in Hcut.
    eapply wp_mono; [apply Hcut; [by left|lia|rewrite bsize_eq; cbn [data_length]; lia]|].
    intros o s (b' & -> & Hb' & ->). exists b', (first_free 0 l'). split; [done|]. split; [|done].
    assert ((n + SIZEOF_STRUCT_MEM + MIN_SIZE_ALIGNED <=? Z.of_nat (length d)) = true) as Hle by (apply Z.leb_le; offsets).
    unfold trimmed. rewrite Hle. by destruct l2 as [|[?|?] ?]. }
  call. destruct (first_free_cut l1 d (take (Z.to_nat n) d) m l2 l2 Hp1)
    as [(_ & H3 & H4)|[H3 H4]]; fold l' in H4; rewrite <- Hlf in *; rewrite ?bsize_eq in *; cbn [first_free data_length] in *.
  - pose proof (first_free_range (total l1 + (8 + Z.of_nat (length d))) l2 Hp2).
    rewrite (proj2 (Z.ltb_lt _ _)) by lia. call.
    assert (first_free 0 l' = total l1 + 8 + n) as E by lia. rewrite E in Hrest. exact Hrest.
  - rewrite (proj2 (Z.ltb_ge _ lf)) by lia. cbn [bind]. rewrite <- H4. exact Hrest.
Qed.
End trim.

Definition shrunk (b : Z -> Z) (lf : Z) (l1 : list block) (d : list Z) (l2 : list block) (n : Z)
    (o : outcome (option Z)) (s : ram_state) : Prop :=
  if Z.of_nat (length d) <? n then o = Done None /\ s = RamState b lf false
  else exists b' lf', o = Done (Some (total l1 + SIZEOF_STRUCT_MEM)) /\ heap b' lf' (l1 ++ trimmed n d l2) /\
    s = RamState b' lf' false.

(** Whether the structure after a block is of a block in use; the last one is. *)
Lemma next_used b l1 x l2 : laid b (l1 ++ x :: l2) ->
  b (total l1 + bsize x + 4) = match l2 with Free _ :: _ => 0 | _ => 1 end.
Proof.
  intros Hl. destruct (laid_at b l1 x l2 Hl) as (p & last & _ & _ & _ & Hs2 & Ht & _).
  destruct l2 as [|[?|?] l2].
  - cbn [total] in Ht. destruct (laid_end _ _ Hl) as [_ <-]. f_equal. offsets.
  - destruct Hs2 as ((_ & _ & H) & _). exact H.
  - destruct Hs2 as ((_ & _ & H) & _). exact H.
Qed.

Lemma wp_trim b lf l1 d l2 newsize : heap b lf (l1 ++ Used d :: l2) -> 0 <= newsize < 65536 ->
  wp ram_env (mem_trim (total l1 + SIZEOF_STRUCT_MEM) newsize) (shrunk b lf l1 d l2 (data_size newsize)) (RamState b lf false).
Proof.
  intros Hh Hsz. pose proof Hh as [Hl Ha Hlf].
  destruct (data_size_ok newsize Hsz) as (H12 & Hmod & _). set (n := data_size newsize) in *.
  destruct (laid_at b l1 (Used d) l2 Hl) as (p & last & _ & (Hnext & _ & _) & _ & Hs2 & Ht & H1 & H2 & Hx & Hp1 & Hpd & Hp2).
  rewrite bsize_eq in *. cbn [data_length] in *.
  unfold mem_trim, shrunk. fold n. 
  destruct (Z.ltb_spec MEM_SIZE_ALIGNED n) as [Hbig|Hok].
  { rewrite (proj2 (Z.ltb_lt _ _)) by offsets. done. }
  rewrite (proj2 (Z.ltb_ge _ 0)), (proj2 (Z.leb_gt ram_end _)) by offsets. cbn [orb].
  replace (total l1 + SIZEOF_STRUCT_MEM - SIZEOF_STRUCT_MEM) with (total l1) by lia.
  call. rewrite Hnext. rewrite (u16_small (_ - _ - _)) by offsets.
  replace (total l1 + (8 + Z.of_nat (length d)) - total l1 - SIZEOF_STRUCT_MEM) with (Z.of_nat (length d)) by offsets.
  destruct (Z.ltb_spec (Z.of_nat (length d)) n) as [Hlarge|Hfit]; [done|].
  destruct (Z.eqb_spec n (Z.of_nat (length d))) as [Heq|Hne].
  { exists b, lf. split; [done|]. split; [|done]. unfold trimmed. rewrite <- Heq, Z.eqb_refl.
    rewrite (proj2 (Z.leb_gt _ _)) by offsets. by destruct l2 as [|[?|?] ?]. }
  call. call. rewrite Hnext. change SIZEOF_STRUCT_MEM with 8. rewrite (u16_small (_ + _ + n)) by lia.
  pose proof (next_used _ _ _ _ Hl) as Hnu. rewrite bsize_eq in Hnu. cbn [data_length] in Hnu. call. rewrite Hnu.
  eapply wp_seq with (M := fun o s => exists b' lf', o = Done tt /\ heap b' lf' (l1 ++ trimmed n d l2) /\ s = RamState b' lf' true).
  2: { intros o s (b' & lf' & -> & Hh' & ->). cbn [andthen]. call. by exists b', lf'. }
  assert (head_used l2 -> wp ram_env (if n + 8 + MIN_SIZE_ALIGNED <=? Z.of_nat (length d)
      then trim_before_used (total l1) (total l1 + 8 + n) (u16 (Z.of_nat (length d) - n)) else Ret tt)
    (fun o s => exists b' lf', o = Done tt /\ heap b' lf' (l1 ++ trimmed n d l2) /\ s = RamState b' lf' true)
    (RamState b lf true)) as Hused.
  { intros Hu. destruct (Z.leb_spec (n + 8 + MIN_SIZE_ALIGNED) (Z.of_nat (length d))) as [Hle|Hgt].
    - apply wp_trim_before_used; [done|lia|done..|offsets].
    - exists b, lf. split; [done|]. split; [|done]. unfold trimmed. change SIZEOF_STRUCT_MEM with 8.
      rewrite (proj2 (Z.leb_gt _ _)) by lia. by destruct l2 as [|[?|?] ?]. }
  destruct l2 as [|[d2|c] l2]; [by apply Hused..|].
  pose proof (wp_trim_before_free b lf l1 d (Free c :: l2) n Hh ltac:(lia) Hmod c l2 (u16 (Z.of_nat (length d) - n)) eq_refl) as Hfree.
  rewrite bsize_eq in Hfree. exact Hfree.
Qed.

(** ** The other functions *)

(** The whole array as one block. *)
Definition one_block : list block := [Free (MEM_SIZE_ALIGNED - SIZEOF_STRUCT_MEM)].

Lemma wp_mem_init b lf : wp ram_env mem_init (fun o s => exists b', o = Done tt /\ heap b' 0 one_block /\
  s = RamState b' 0 false) (RamState b lf true).
Proof.
  unfold mem_init. do 9 call. eexists. split; [done|]. split; [|done]. split; [|done..].
  change (u16 MEM_SIZE_ALIGNED) with 3072. change ram_end with 3072. change (u16 0) with 0. 
  split; change MEM_SIZE_ALIGNED with 3072.
  - exists 0. cbn [seg one_block]. rewrite bsize_eq. change (data_length _) with 3064. unfold header. cbn [is_used].
    reads. done.
  - reads. done.
  - by apply list.Forall_singleton.
Qed.

Lemma wp_free_null c : wp ram_env (mem_free None) (fun o s => o = Done tt /\ s = c) c.
Proof. done. Qed.

(** Bytes of a block in use are written. *)
Definition overwrite (b : Z -> Z) (o n v : Z) : Z -> Z := fun a => if decide (o <= a < o + n) then v else b a.

Lemma overwrite_other b o n v a : a < o \/ o + n <= a -> overwrite b o n v a = b a.
Proof. intros H. unfold overwrite. by rewrite decide_False by lia. Qed.

Lemma heap_write b b' lf l1 d d' l2 : heap b lf (l1 ++ Used d :: l2) -> length d' = length d ->
  (forall a, a < total l1 + SIZEOF_STRUCT_MEM \/ total l1 + SIZEOF_STRUCT_MEM + Z.of_nat (length d) <= a -> b' a = b a) ->
  contents b' (total l1) (Used d') -> heap b' lf (l1 ++ Used d' :: l2).
Proof.
  intros [Hl Ha Hlf] Hlen Hb Hc. change SIZEOF_STRUCT_MEM with 8 in *.
  destruct (laid_at _ _ _ _ Hl) as (p & last & _ & (Hnext & Hprev & Hu) & _ & Hs2 & Ht & H1 & H2 & Hx & Hp1 & Hpx & Hp2).
  assert (bsize (Used d') = bsize (Used d)) as Hsz by (unfold bsize; cbn [data_length]; by rewrite Hlen).
  assert (total [Used d] = bsize (Used d)) as Htot by (cbn [total]; lia). rewrite bsize_eq in *. cbn [data_length] in *.
  split.
  - apply (laid_replace b b' l1 [Used d] [Used d'] l2 (total l1)); rewrite ?Htot; try done.
    + cbn [total]. rewrite bsize_eq. cbn [data_length]. lia.
    + apply list.Forall_singleton. apply proper_eq. cbn [data_length]. rewrite Hlen. by apply (proj1 (proper_eq _)) in Hpx.
    + intros a Hlt. apply Hb. lia.
    + intros a Hge _ _. apply Hb. lia.
    + cbn [seg]. rewrite bsize_eq. cbn [data_length is_used]. unfold header. rewrite Hlen.
      rewrite !(get16_agree b b'), !Hb by (try apply Hb; lia). repeat split; try done; lia.
    + intros Hne. rewrite (get16_agree b b') by (apply Hb; lia). by apply (seg_prev _ _ _ _ _ _ Hs2).
  - apply apart_used. by apply apart_used in Ha.
  - rewrite Hlf. clear -Hlen. generalize 0. induction l1 as [|x l1 IH]; intros o; [cbn [app first_free]; rewrite !bsize_eq; cbn [data_length]; by rewrite Hlen|].
    destruct x; cbn [app first_free]; [apply IH|done].
Qed.
