(* ===== verification/MemHeap.v ===== *)
(** * The allocator that the heap makes

    What a user of Mem.v may rely on, as an environment of its own: memory that
    is handed out is nobody else's, keeps what its owner writes to it until it
    is given back, and all of it can be had again. *)

From stdpp Require Import fin_maps gmap functions.
From S2P Require Import Prelude Prog Mem MemSpec.

(** ** The interface *)

(** The functions, and the accesses to the memory they hand out: byte [i] of
    the memory at [p]. *)
Inductive allocop :=
| Malloc (size : Z)
| Calloc (count size : Z)
| Trim (p size : Z)
| Release (p : option Z)
| Peek (p : Z) (i : nat)
| Poke (p : Z) (i : nat) (v : Z).

Definition alloc_ans (e : allocop) : Type :=
  match e with
  | Malloc _ | Calloc _ _ | Trim _ _ => option Z
  | Release _ | Poke _ _ _ => unit
  | Peek _ _ => Z
  end.

Definition alloc : Sig := {| op := allocop; ans := alloc_ans |}.

(** The state is the memory that is in use, addresses and contents.  Memory for a
    request of [n] bytes: *)
Definition fresh (s : gmap Z (list Z)) (p n : Z) (d : list Z) : Prop :=
  p mod 4 = 0 /\ 0 < p /\ p + Z.of_nat (length d) <= MEM_SIZE_ALIGNED /\ n <= Z.of_nat (length d) /\
  forall q e, s !! q = Some e -> p + Z.of_nat (length d) <= q \/ q + Z.of_nat (length e) <= p.

(** Sizes are half-words; the largest of them are not for requests, as the
    functions round up. *)
Definition size_ok (n : Z) : Prop := 0 <= n <= 65532.

Definition alloc_env : env alloc (gmap Z (list Z)) := {|
  req (e : op alloc) s := match e with
    | Malloc n => size_ok n
    | Calloc c n => 0 <= c /\ 0 <= n /\ size_ok (c * n)
    | Trim p n => size_ok n /\ is_Some (s !! p)
    | Release p => match p with Some p => is_Some (s !! p) | None => True end
    | Peek p i => exists d, s !! p = Some d /\ (i < length d)%nat
    | Poke p i v => (exists d, s !! p = Some d /\ (i < length d)%nat) /\ is_u8 v
    end;
  step (e : op alloc) s := match e return alloc_ans e -> gmap Z (list Z) -> Prop with
    | Malloc n => fun r s' =>
        r = None /\ s' = s \/
        exists p d, r = Some p /\ 0 < n /\ fresh s p n d /\ s' = <[p := d]> s
    | Calloc c n => fun r s' =>
        r = None /\ s' = s \/
        exists p d, r = Some p /\ 0 < c * n /\ fresh s p (c * n) d /\
          take (Z.to_nat (c * n)) d = replicate (Z.to_nat (c * n)) 0 /\ s' = <[p := d]> s
    | Trim p n => fun r s' => exists d, s !! p = Some d /\
        (r = None /\ Z.of_nat (length d) < data_size n /\ s' = s \/
         exists k, r = Some p /\ n <= Z.of_nat k /\ (k <= length d)%nat /\ s' = <[p := take k d]> s)
    | Release p => fun _ s' => match p with Some p => s' = delete p s | None => s' = s end
    | Peek p i => fun x s' => (exists d, s !! p = Some d /\ d !! i = Some x) /\ s' = s
    | Poke p i v => fun _ s' => exists d, s !! p = Some d /\ s' = <[p := <[i := v]> d]> s
    end
|}.

(** The code behind it. *)
Definition mem_code (e : op alloc) : prog ram (ans alloc e) :=
  match e return prog ram (alloc_ans e) with
  | Malloc n => mem_malloc n
  | Calloc c n => mem_calloc c n
  | Trim p n => mem_trim p n
  | Release p => mem_free p
  | Peek p i => hcall (Load8 (p + Z.of_nat i))
  | Poke p i v => hcall (Memset (p + Z.of_nat i) v 1)
  end.

(** ** The memory in use and the blocks *)

Fixpoint regions (o : Z) (l : list block) : gmap Z (list Z) :=
  match l with
  | [] => ∅
  | Used d :: l => <[o + SIZEOF_STRUCT_MEM := d]> (regions (o + bsize (Used d)) l)
  | Free n :: l => regions (o + bsize (Free n)) l
  end.

Lemma regions_range o l q e : Forall proper l -> regions o l !! q = Some e ->
  o + SIZEOF_STRUCT_MEM <= q /\ q + Z.of_nat (length e) <= o + total l.
Proof.
  intros Hp. revert o. change SIZEOF_STRUCT_MEM with 8.
  induction Hp as [|x l Hx Hp IH]; intros o; [done|]. apply proper_size in Hx. apply total_nonneg in Hp.
  destruct x as [d|n]; cbn [regions total].
  - rewrite lookup_insert_Some. intros [[<- <-]|[_ H]].
    + rewrite bsize_eq. cbn [data_length]. change SIZEOF_STRUCT_MEM with 8. lia.
    + apply IH in H. lia.
  - intros H. apply IH in H. lia.
Qed.

Lemma regions_used o l q e : regions o l !! q = Some e ->
  exists l1 l2, l = l1 ++ Used e :: l2 /\ q = o + total l1 + SIZEOF_STRUCT_MEM.
Proof.
  revert o. induction l as [|[d|n] l IH]; intros o; cbn [regions]; [done|..].
  - rewrite lookup_insert_Some. intros [[<- <-]|[_ H]].
    + exists [], l. split; [done|]. cbn [total]. lia.
    + apply IH in H as (l1 & l2 & -> & ->). exists (Used d :: l1), l2. split; [done|]. cbn [total]. lia.
  - intros H. apply IH in H as (l1 & l2 & -> & ->). exists (Free n :: l1), l2. split; [done|]. cbn [total]. lia.
Qed.

Lemma regions_app o l1 l2 : regions o (l1 ++ l2) = regions o l1 ∪ regions (o + total l1) l2.
Proof.
  revert o. induction l1 as [|[d|n] l1 IH]; intros o; cbn [app regions total].
  - by rewrite Z.add_0_r, (left_id_L ∅ (∪)).
  - by rewrite IH, insert_union_l, Z.add_assoc.
  - by rewrite IH, Z.add_assoc.
Qed.

(** A block in use, among the others. *)
Lemma regions_mid o l1 d l2 : Forall proper l1 ->
  regions o (l1 ++ Used d :: l2) =
    <[o + total l1 + SIZEOF_STRUCT_MEM := d]> (regions o l1 ∪ regions (o + total l1 + bsize (Used d)) l2).
Proof.
  intros Hp. rewrite regions_app. cbn [regions]. rewrite insert_union_r; [done|].
  destruct (regions o l1 !! _) as [e|] eqn:He; [|done]. apply regions_range in He; [|done].
  change SIZEOF_STRUCT_MEM with 8 in He. lia.
Qed.

Lemma regions_mid_none o l1 x l2 : Forall proper (l1 ++ x :: l2) ->
  (regions o l1 ∪ regions (o + total l1 + bsize x) l2) !! (o + total l1 + SIZEOF_STRUCT_MEM) = None.
Proof.
  intros [Hp1 [Hx Hp2]%list.Forall_cons]%Forall_app. apply proper_size in Hx.
  apply lookup_union_None. change SIZEOF_STRUCT_MEM with 8. split.
  - destruct (regions o l1 !! _) as [e|] eqn:He; [|done]. apply regions_range in He; [|done].
    change SIZEOF_STRUCT_MEM with 8 in He. lia.
  - destruct (regions _ l2 !! _) as [e|] eqn:He; [|done]. apply regions_range in He; [|done].
    change SIZEOF_STRUCT_MEM with 8 in He. lia.
Qed.

Lemma regions_coalesce o l : regions o (coalesce l) = regions o l.
Proof.
  revert o. induction l as [|[d|n] l IH]; intros o; [done|cbn [coalesce regions]; by rewrite IH|].
  cbn [coalesce regions]. rewrite <- IH. destruct (coalesce l) as [|[d|k] l']; [done..|].
  cbn [regions]. f_equal. rewrite !bsize_eq. cbn [data_length]. change SIZEOF_STRUCT_MEM with 8. lia.
Qed.

(** One more block in use, where there was a free one. *)
Lemma regions_carved l1 k l2 size d : Forall proper (l1 ++ Free k :: l2) -> Z.of_nat (length d) = given size k ->
  regions 0 (l1 ++ carved size k d ++ l2) = <[total l1 + SIZEOF_STRUCT_MEM := d]> (regions 0 (l1 ++ Free k :: l2)).
Proof.
  intros Hp Hd. apply Forall_app in Hp as [Hp1 _]. unfold carved. cbn [app].
  rewrite regions_mid, (regions_app 0 l1 (Free k :: l2)) by done. cbn [regions]. rewrite !Z.add_0_l. do 2 f_equal.
  unfold given in Hd. destruct (fits_split size k); cbn [app regions]; rewrite !bsize_eq; cbn [data_length]; rewrite Hd;
    f_equal; change SIZEOF_STRUCT_MEM with 8; lia.
Qed.

Lemma regions_freed l1 d l2 : Forall proper (l1 ++ Used d :: l2) ->
  regions 0 (coalesce (l1 ++ Free (Z.of_nat (length d)) :: l2)) =
    delete (total l1 + SIZEOF_STRUCT_MEM) (regions 0 (l1 ++ Used d :: l2)).
Proof.
  intros Hp. pose proof (regions_mid_none 0 _ _ _ Hp) as Hn. apply Forall_app in Hp as [Hp1 _].
  rewrite regions_coalesce, regions_mid, (regions_app 0 l1 (Free _ :: l2)) by done. cbn [regions]. rewrite !Z.add_0_l in *.
  by rewrite delete_insert_id.
Qed.

Lemma regions_cut l1 d d' m l2 l3 : Forall proper l1 ->
  total l1 + bsize (Used d') + bsize (Free m) = total l1 + bsize (Used d) + total l2 - total l3 ->
  regions (total l1 + bsize (Used d) + total l2 - total l3) l3 = regions (total l1 + bsize (Used d)) l2 ->
  regions 0 (l1 ++ Used d' :: Free m :: l3) = <[total l1 + SIZEOF_STRUCT_MEM := d']> (regions 0 (l1 ++ Used d :: l2)).
Proof.
  intros Hp Ho Hr. rewrite !regions_mid by done. rewrite !Z.add_0_l, insert_insert_eq. do 2 f_equal.
  cbn [regions]. by rewrite Ho.
Qed.

Lemma regions_trimmed l1 d l2 n : Forall proper (l1 ++ Used d :: l2) -> 0 <= n <= Z.of_nat (length d) ->
  exists k, n <= Z.of_nat k /\ (k <= length d)%nat /\
    regions 0 (l1 ++ trimmed n d l2) = <[total l1 + SIZEOF_STRUCT_MEM := take k d]> (regions 0 (l1 ++ Used d :: l2)).
Proof.
  intros Hp Hn. apply Forall_app in Hp as [Hp1 _].
  assert (Z.of_nat (length (take (Z.to_nat n) d)) = n) as Hlen by (rewrite length_take; lia).
  assert (exists k, n <= Z.of_nat k /\ (k <= length d)%nat /\
    regions 0 (l1 ++ Used d :: l2) = <[total l1 + SIZEOF_STRUCT_MEM := take k d]> (regions 0 (l1 ++ Used d :: l2))) as Hsame.
  { exists (length d). rewrite take_ge by done. split; [lia|]. split; [done|].
    by rewrite regions_mid, Z.add_0_l, insert_insert_eq by done. }
  assert (forall m l3, 8 + n + (8 + m) = 8 + Z.of_nat (length d) + total l2 - total l3 ->
    regions (total l1 + bsize (Used d) + total l2 - total l3) l3 = regions (total l1 + bsize (Used d)) l2 ->
    exists k, n <= Z.of_nat k /\ (k <= length d)%nat /\ regions 0 (l1 ++ Used (take (Z.to_nat n) d) :: Free m :: l3) =
      <[total l1 + SIZEOF_STRUCT_MEM := take k d]> (regions 0 (l1 ++ Used d :: l2))) as Hcut.
  { intros m l3 Hm Hr. exists (Z.to_nat n). split; [lia|]. split; [lia|]. apply regions_cut; [done| |done].
    rewrite !bsize_eq. cbn [data_length]. rewrite Hlen. lia. }
  assert (forall o m, o + m - m = o) as Hsub by lia.
  unfold trimmed. change SIZEOF_STRUCT_MEM with 8 in *. destruct l2 as [|[e|c] l2].
  - destruct (_ <=? _); [|done]. apply Hcut; [lia|]. by rewrite Hsub.
  - destruct (_ <=? _); [|done]. apply Hcut; [lia|]. by rewrite Hsub.
  - destruct (_ =? _); [done|]. apply Hcut; cbn [total regions]; [rewrite bsize_eq; cbn [data_length]; lia|].
    by rewrite Z.add_assoc, Hsub.
Qed.

(** ** The functions implement the interface *)

Definition sim (s : gmap Z (list Z)) (c : ram_state) : Prop :=
  exists l, heap (mem c) (lfree c) l /\ s = regions 0 l /\ mutex c = false.

Definition implemented (e : op alloc) (s : gmap Z (list Z)) (c : ram_state) : Prop :=
  wp ram_env (mem_code e) (fun o c' => exists x s', o = Done x /\ step alloc_env e s x s' /\ sim s' c') c.

Lemma given_range size k : 0 <= size <= k -> size <= given size k <= k.
Proof. unfold given. destruct (fits_split size k); lia. Qed.

Lemma fresh_carved b lf l1 k l2 n d : heap b lf (l1 ++ Free k :: l2) -> size_ok n -> data_size n <= k ->
  Z.of_nat (length d) = given (data_size n) k ->
  fresh (regions 0 (l1 ++ Free k :: l2)) (total l1 + SIZEOF_STRUCT_MEM) n d.
Proof.
  intros [Hl _ _] Hn Hk Hd. unfold size_ok in Hn. destruct (data_size_ok n) as (H12 & Hmod & Hge); [lia|].
  pose proof (given_range (data_size n) k). pose proof (laid_proper _ _ Hl) as Hp. apply Forall_app in Hp as [Hp1 _].
  pose proof (total_mod _ Hp1). destruct (laid_at _ _ _ _ Hl) as (p & last & _ & _ & _ & _ & Ht & H1 & H2 & _ & _ & _ & Hp2).
  rewrite bsize_eq in Ht. cbn [data_length] in Ht. change SIZEOF_STRUCT_MEM with 8.
  split; [|split; [|split; [|split]]]; [|lia|offsets|lia|].
  - Z.to_euclidean_division_equations. lia.
  - intros q e. rewrite regions_app, lookup_union_Some_raw. change SIZEOF_STRUCT_MEM with 8.
    intros [He|[_ He]]; [apply regions_range in He; [lia|done]|].
    cbn [regions] in He. apply regions_range in He; [|done]. rewrite bsize_eq in He. cbn [data_length] in He.
    change SIZEOF_STRUCT_MEM with 8 in He. lia.
Qed.

Lemma malloc_implemented n s c : size_ok n -> sim s c -> implemented (Malloc n) s c.
Proof.
  intros Hn (l & Hh & -> & Hm). destruct c as [b lf m]. cbn in Hh, Hm. subst m. unfold implemented. cbn [mem_code].
  eapply wp_mono; [apply wp_malloc; [exact Hh|unfold size_ok in Hn; lia]|].
  intros o c'. unfold allocated, place. destruct (Z.eqb_spec n 0) as [H0|H0].
  { intros [-> ->]. exists None, (regions 0 l). split; [done|]. split; [by left|]. by exists l. }
  destruct (first_fit (data_size n) l) as [[[l1 k] l2]|] eqn:Hfit.
  - intros (b' & lf' & d & -> & Hd & Hh' & ->). apply first_fit_some in Hfit as [-> Hk].
    exists (Some (total l1 + SIZEOF_STRUCT_MEM)), (<[total l1 + SIZEOF_STRUCT_MEM := d]> (regions 0 (l1 ++ Free k :: l2))).
    pose proof (laid_proper _ _ (heap_laid _ _ _ Hh)) as Hp.
    split; [done|]. split.
    + right. exists (total l1 + SIZEOF_STRUCT_MEM), d. unfold size_ok in Hn. split; [done|]. split; [lia|].
      split; [by eapply fresh_carved|done].
    + exists (l1 ++ carved (data_size n) k d ++ l2). split; [done|]. split; [|done]. by rewrite regions_carved.
  - intros [-> ->]. exists None, (regions 0 l). split; [done|]. split; [by left|]. by exists l.
Qed.

(** The state after some bytes of a block were written. *)
Lemma write_sim b b' lf l1 d d' l2 : heap b lf (l1 ++ Used d :: l2) -> length d' = length d ->
  (forall a, a < total l1 + SIZEOF_STRUCT_MEM \/ total l1 + SIZEOF_STRUCT_MEM + Z.of_nat (length d) <= a -> b' a = b a) ->
  contents b' (total l1) (Used d') ->
  sim (<[total l1 + SIZEOF_STRUCT_MEM := d']> (regions 0 (l1 ++ Used d :: l2))) (RamState b' lf false).
Proof.
  intros Hh Hlen Hb Hc. exists (l1 ++ Used d' :: l2). split; [by eapply heap_write|]. split; [|done].
  pose proof (laid_proper _ _ (heap_laid _ _ _ Hh)) as Hp. apply Forall_app in Hp as [Hp _].
  rewrite !regions_mid, !Z.add_0_l, insert_insert_eq by done. by rewrite !bsize_eq; cbn [data_length]; rewrite Hlen.
Qed.

Lemma contents_used b lf l1 d l2 : heap b lf (l1 ++ Used d :: l2) -> contents b (total l1) (Used d).
Proof. intros [Hl _ _]. by destruct (laid_at _ _ _ _ Hl) as (? & ? & _ & _ & Hc & _). Qed.

Lemma contents_zero b o d n : 0 <= n <= Z.of_nat (length d) -> contents b o (Used d) ->
  contents (overwrite b (o + SIZEOF_STRUCT_MEM) n 0) o (Used (replicate (Z.to_nat n) 0 ++ drop (Z.to_nat n) d)).
Proof.
  intros Hn Hc i v Hi. unfold overwrite. apply lookup_app_Some in Hi as [Hi|[Hlen Hi]].
  - apply lookup_replicate in Hi as [-> Hi]. by rewrite decide_True by lia.
  - rewrite length_replicate in *. rewrite decide_False by lia. apply Hc.
    rewrite lookup_drop in Hi. rewrite <- Hi. f_equal. lia.
Qed.

Lemma calloc_implemented k n s c : size_ok (k * n) -> sim s c -> implemented (Calloc k n) s c.
Proof.
  intros Hn Hs. pose proof Hs as (l & Hh & -> & Hm). destruct c as [b lf m]. cbn in Hh, Hm. subst m.
  unfold implemented. cbn [mem_code]. unfold size_ok in Hn. unfold mem_calloc. rewrite u16_small by lia.
  eapply wp_seq; [apply wp_malloc; [exact Hh|lia]|].
  intros o c'. unfold allocated, place. destruct (Z.eqb_spec (k * n) 0) as [H0|H0].
  { intros [-> ->]. exists None, (regions 0 l). split; [done|]. split; [by left|]. by exists l. }
  destruct (first_fit (data_size (k * n)) l) as [[[l1 f] l2]|] eqn:Hfit.
  2: { intros [-> ->]. exists None, (regions 0 l). split; [done|]. split; [by left|]. by exists l. }
  intros (b' & lf' & d & -> & Hd & Hh' & ->). apply first_fit_some in Hfit as [-> Hk]. cbn [andthen].
  pose proof (fresh_carved _ _ _ _ _ (k * n) d Hh Hn Hk Hd) as (Hp4 & Hp0 & Hpe & Hlen & Hdis).
  pose proof (laid_proper _ _ (heap_laid _ _ _ Hh)) as Hp. call. fold (overwrite b' (total l1 + SIZEOF_STRUCT_MEM) (k * n) 0).
  set (d' := replicate (Z.to_nat (k * n)) 0 ++ drop (Z.to_nat (k * n)) d).
  assert (length d' = length d) as Hlen' by (unfold d'; rewrite length_app, length_replicate, length_drop; lia).
  exists (Some (total l1 + SIZEOF_STRUCT_MEM)), (<[total l1 + SIZEOF_STRUCT_MEM := d']> (regions 0 (l1 ++ Free f :: l2))).
  split; [done|]. split.
  - right. exists (total l1 + SIZEOF_STRUCT_MEM), d'. split; [done|]. split; [lia|].
    split; [unfold fresh; by rewrite Hlen'|]. split; [|done].
    unfold d'. by rewrite take_app_length' by (by rewrite length_replicate).
  - unfold carved in Hh'. cbn [app] in Hh'. pose proof (write_sim _ (overwrite b' (total l1 + SIZEOF_STRUCT_MEM) (k * n) 0) _ _ _ d' _ Hh' Hlen') as Hw.
    pose proof (regions_carved l1 f l2 (data_size (k * n)) d Hp Hd) as Hr. unfold carved in Hr. cbn [app] in Hr.
    rewrite Hr, insert_insert_eq in Hw. apply Hw.
    + intros a Ha. apply overwrite_other. lia.
    + apply contents_zero; [lia|]. by eapply contents_used.
Qed.

Lemma trim_implemented p n s c : size_ok n -> is_Some (s !! p) -> sim s c -> implemented (Trim p n) s c.
Proof.
  intros Hn [d Hd] (l & Hh & -> & Hm). destruct c as [b lf m]. cbn in Hh, Hm. subst m. unfold size_ok in Hn.
  destruct (data_size_ok n) as (H12 & Hmod & Hge); [lia|].
  pose proof Hd as (l1 & l2 & -> & ->)%regions_used. rewrite Z.add_0_l in *. unfold implemented. cbn [mem_code].
  pose proof (laid_proper _ _ (heap_laid _ _ _ Hh)) as Hp.
  eapply wp_mono; [apply wp_trim; [exact Hh|lia]|]. intros o c'. unfold shrunk.
  destruct (Z.ltb_spec (Z.of_nat (length d)) (data_size n)) as [Hlt|Hle].
  - intros [-> ->]. exists None, (regions 0 (l1 ++ Used d :: l2)). split; [done|].
    split; [exists d; split; [done|by left]|by exists (l1 ++ Used d :: l2)].
  - intros (b' & lf' & -> & Hh' & ->). destruct (regions_trimmed l1 d l2 (data_size n) Hp) as (k & Hk & Hkd & Hr); [lia|].
    exists (Some (total l1 + SIZEOF_STRUCT_MEM)), (<[total l1 + SIZEOF_STRUCT_MEM := take k d]> (regions 0 (l1 ++ Used d :: l2))).
    split; [done|]. split; [|by exists (l1 ++ trimmed (data_size n) d l2)].
    exists d. split; [done|]. right. exists k. split; [done|]. split; [lia|]. by split.
Qed.

Lemma free_implemented p s c : match p with Some p => is_Some (s !! p) | None => True end -> sim s c ->
  implemented (Release p) s c.
Proof.
  intros Hd (l & Hh & -> & Hm). destruct c as [b lf m]. cbn in Hh, Hm. subst m. unfold implemented. cbn [mem_code].
  destruct p as [p|]; [|exists tt, (regions 0 l); split; [done|]; split; [done|]; by exists l].
  destruct Hd as [d Hd]. apply regions_used in Hd as (l1 & l2 & -> & ->). rewrite Z.add_0_l.
  pose proof (laid_proper _ _ (heap_laid _ _ _ Hh)) as Hp.
  eapply wp_mono; [by apply wp_free|]. intros o c' (b' & -> & Hh' & ->).
  exists tt. eexists. split; [done|]. split; [done|].
  exists (coalesce (l1 ++ Free (Z.of_nat (length d)) :: l2)). split; [done|]. split; [|done]. by rewrite regions_freed.
Qed.

Lemma at_block b lf l1 d l2 i : heap b lf (l1 ++ Used d :: l2) -> (i < length d)%nat ->
  0 <= total l1 + SIZEOF_STRUCT_MEM + Z.of_nat i < MEM_SIZE_ALIGNED.
Proof.
  intros [Hl _ _] Hi. destruct (laid_at _ _ _ _ Hl) as (? & ? & _ & _ & _ & _ & Ht & H1 & H2 & _).
  rewrite bsize_eq in Ht. cbn [data_length] in Ht. offsets.
Qed.

Lemma peek_implemented p i s c : (exists d, s !! p = Some d /\ (i < length d)%nat) -> sim s c -> implemented (Peek p i) s c.
Proof.
  intros (d & Hd & Hi) Hs. pose proof Hs as (l & Hh & -> & Hm). destruct c as [b lf m]. cbn in Hh, Hm. subst m.
  pose proof Hd as (l1 & l2 & -> & ->)%regions_used. rewrite Z.add_0_l in *.
  pose proof (at_block _ _ _ _ _ _ Hh Hi). unfold implemented. cbn [mem_code]. call.
  exists (b (total l1 + SIZEOF_STRUCT_MEM + Z.of_nat i)), (regions 0 (l1 ++ Used d :: l2)). split; [done|]. split; [|done].
  split; [|done]. exists d. split; [done|]. destruct (lookup_lt_is_Some_2 _ _ Hi) as [v Hv].
  etransitivity; [exact Hv|]. f_equal. symmetry. by apply (contents_used _ _ _ _ _ Hh).
Qed.

Lemma poke_implemented p i v s c : (exists d, s !! p = Some d /\ (i < length d)%nat) -> is_u8 v -> sim s c ->
  implemented (Poke p i v) s c.
Proof.
  intros (d & Hd & Hi) Hv (l & Hh & -> & Hm). destruct c as [b lf m]. cbn in Hh, Hm. subst m.
  pose proof Hd as (l1 & l2 & -> & ->)%regions_used. rewrite Z.add_0_l in *.
  pose proof (at_block _ _ _ _ _ _ Hh Hi). unfold implemented. cbn [mem_code]. unfold is_u8 in Hv. call.
  fold (overwrite b (total l1 + SIZEOF_STRUCT_MEM + Z.of_nat i) 1 v).
  exists tt, (<[total l1 + SIZEOF_STRUCT_MEM := <[i := v]> d]> (regions 0 (l1 ++ Used d :: l2))). split; [done|].
  split; [exists d; by split|]. apply (write_sim b); [done|by rewrite length_insert| |].
  - intros a Ha. apply overwrite_other. lia.
  - intros j w Hj. unfold overwrite. destruct (decide (j = i)) as [->|Hne].
    + rewrite list_lookup_insert_eq in Hj by done. injection Hj as <-. by rewrite decide_True by lia.
    + rewrite list_lookup_insert_ne in Hj by done. rewrite decide_False by lia. by apply (contents_used _ _ _ _ _ Hh).
Qed.

(** A program over calls that are implemented. *)
Lemma wp_interp {E F : Sig} {S T} (N : env E S) (M : env F T) (h : forall e, prog F (ans E e)) (R : S -> T -> Prop) :
  (forall e s t, req N e s -> R s t ->
     wp M (h e) (fun o t' => exists x s', o = Done x /\ step N e s x s' /\ R s' t') t) ->
  forall A (p : prog E A) Q s t, wp N p Q s -> R s t ->
  wp M (interp h p) (fun o t' => exists s', Q o s' /\ R s' t') t.
Proof.
  intros Hh A p Q. induction p as [a|x|e k IH]; intros s t Hp Ht; cbn [interp]; [by exists s..|].
  destruct Hp as [Hr Hk]. eapply wp_seq; [by apply Hh|]. intros o t' (x & s' & -> & Hs & Ht').
  apply (IH x s'); [by apply Hk|done].
Qed.

Lemma mem_code_implements e s c : req alloc_env e s -> sim s c -> implemented e s c.
Proof.
  destruct e; intros Hr Hs.
  - by apply malloc_implemented.
  - destruct Hr as (_ & _ & Hr). by apply calloc_implemented.
  - destruct Hr as [H1 H2]. by apply trim_implemented.
  - by apply free_implemented.
  - by apply peek_implemented.
  - destruct Hr as [H1 H2]. by apply poke_implemented.
Qed.

(** After [mem_init] nothing is in use. *)
Lemma init_sim b lf A (p : prog ram A) Q : (forall c, sim ∅ c -> wp ram_env p Q c) ->
  wp ram_env (mem_init;; p) Q (RamState b lf true).
Proof.
  intros Hp. eapply wp_seq; [apply wp_mem_init|]. intros o c (b' & -> & Hh & ->). apply Hp. by exists one_block.
Qed.

(** C23: the allocator of the network stack (mem.c) keeps what it promises to every
    program that uses it: whatever sequence of allocations, cleared allocations,
    shrinkings, releases, reads and writes a program makes after [mem_init], as
    long as it reads, writes and gives back only memory that it was handed out,
    it meets the answers of the interface [alloc_env] (memory handed out is
    aligned, as large as asked for, inside the heap and apart from all other
    memory in use; it keeps its contents until it is written by its owner,
    shrinking included; failed requests change nothing), the code accesses
    nothing outside of the heap, writes with the mutex held, and always returns. *)
Theorem heap_refines_allocator {A} (p : prog alloc A) (Q : outcome A -> gmap Z (list Z) -> Prop) b lf :
  wp alloc_env p Q ∅ ->
  wp ram_env (mem_init;; interp mem_code p) (fun o c => exists s, Q o s /\ sim s c) (RamState b lf true).
Proof.
  intros Hp. apply init_sim. intros c Hc. eapply wp_interp; [by apply mem_code_implements|exact Hp|exact Hc].
Qed.

(** A program that keeps a byte in memory that it asks for. *)
Definition keeper : prog alloc (option Z) :=
  let! p := (@trigger alloc (Malloc 10) : prog alloc (option Z)) in
  match p with
  | Some p =>
    @trigger alloc (Poke p 3 7);;
    let! v := (@trigger alloc (Peek p 3) : prog alloc Z) in
    @trigger alloc (Release (Some p));; Ret (Some v)
  | None => Ret None
  end.

Lemma keeper_keeps : wp alloc_env keeper (fun o s => (o = Done None \/ o = Done (Some 7)) /\ s = ∅) ∅.
Proof.
  split; [cbn; unfold size_ok; lia|]. intros r s [[-> ->]|(p & d & -> & _ & (_ & _ & _ & Hlen & _) & ->)].
  { cbn. split; [by left|done]. }
  cbn [bind]. split.
  { split; [|by unfold is_u8]. exists d. split; [apply lookup_insert_eq|lia]. }
  intros [] s (d' & Hd & ->). rewrite lookup_insert_eq in Hd. injection Hd as <-. rewrite insert_insert_eq.
  cbn [bind]. split; [exists (<[3%nat := 7]> d); split; [apply lookup_insert_eq|rewrite length_insert; lia]|].
  intros v. change (ans alloc (Peek p 3)) with Z in v. intros s' [(d' & Hd & Hv) ->]. rewrite lookup_insert_eq in Hd. injection Hd as <-.
  assert (<[3%nat := 7]> d !! 3%nat = Some 7) as H7 by (apply list_lookup_insert_eq; lia).
  assert (v = 7) as -> by (injection (eq_trans (eq_sym Hv : Some v = _) H7); done).
  cbn [bind]. split; [eexists; apply lookup_insert_eq|]. intros [] s' ->. cbn. split; [by right|].
  by rewrite insert_empty, delete_singleton_eq.
Qed.

Lemma heap_refines_allocator_witness :
  wp ram_env (mem_init;; interp mem_code keeper)
    (fun o c => exists s, ((o = Done None \/ o = Done (Some 7)) /\ s = ∅) /\ sim s c) (RamState (fun _ => 0) 0 true).
Proof. apply heap_refines_allocator, keeper_keeps. Defined.

(** ** Nothing is lost *)

(** Blocks that are all free and not neighbours: one block. *)
Lemma none_used b lf l : heap b lf l -> regions 0 l = ∅ -> l = one_block.
Proof.
  intros [Hl Ha _] Hr. pose proof (laid_total _ _ Hl) as Ht. unfold one_block.
  destruct l as [|[d|n] l]; [done| |].
  - cbn [regions] in Hr. by apply insert_non_empty in Hr.
  - destruct Ha as [Hh Ha]. destruct l as [|[d|k] l]; [| |done].
    + cbn [total] in Ht. rewrite bsize_eq in Ht. cbn [data_length] in Ht. repeat f_equal. offsets.
    + cbn [regions] in Hr. by apply insert_non_empty in Hr.
Qed.

(** C24: no memory of the heap is lost or stays cut into pieces: after any program
    that has given back all that it was handed out, however it allocated,
    shrank and released, a request for any number of bytes up to the whole heap
    (3064) is met, at the start of the heap. *)
Theorem heap_recovers {A} (p : prog alloc A) n b lf :
  wp alloc_env p (fun o s => (exists a, o = Done a) /\ s = ∅) ∅ -> 0 < n <= 3064 ->
  wp ram_env (mem_init;; interp mem_code p;; mem_malloc n)
    (fun o c => o = Done (Some SIZEOF_STRUCT_MEM) /\ mutex c = false) (RamState b lf true).
Proof.
  intros Hp Hn. apply init_sim. intros c Hc.
  eapply wp_seq; [eapply wp_interp; [by apply mem_code_implements|exact Hp|exact Hc]|].
  intros o c' (s & [[a ->] ->] & l & Hh & Hr & Hm). cbn [andthen]. symmetry in Hr.
  pose proof (none_used _ _ _ Hh Hr) as ->. destruct c' as [b' lf' m]. cbn in Hh, Hm. subst m.
  eapply wp_mono; [apply wp_malloc; [exact Hh|lia]|]. intros o c'. unfold allocated, place.
  rewrite (proj2 (Z.eqb_neq n 0)) by lia.
  assert (data_size n <= 3064) as Hle.
  { unfold data_size. rewrite align_eq by lia. rewrite u16_small by (Z.to_euclidean_division_equations; lia).
    change MIN_SIZE_ALIGNED with 12. destruct (_ <? 12); [lia|]. Z.to_euclidean_division_equations. lia. }
  unfold one_block. cbn [first_fit]. change (MEM_SIZE_ALIGNED - SIZEOF_STRUCT_MEM) with 3064.
  rewrite (proj2 (Z.leb_le _ _)) by done. by intros (? & ? & ? & -> & _ & _ & ->).
Qed.

Lemma heap_recovers_witness :
  wp ram_env (mem_init;; interp mem_code keeper;; mem_malloc 3064)
    (fun o c => o = Done (Some SIZEOF_STRUCT_MEM) /\ mutex c = false) (RamState (fun _ => 0) 0 true).
Proof.
  apply heap_recovers; [|lia]. eapply wp_mono; [apply keeper_keeps|].
  intros o s [[-> | ->] ->]; split; try done; by eexists.
Defined.

(** ** Where a request goes *)

Lemma first_fit_lower size l l1 k l2 : first_fit size l = Some (l1, k, l2) ->
  Forall (fun x => is_used x = true \/ data_length x < size) l1.
Proof.
  revert l1. induction l as [|x l IH]; intros l1; [done|].
  destruct (decide (is_used x = true \/ data_length x < size)) as [Hx|Hx].
  - rewrite first_fit_skip by done. destruct (first_fit size l) as [[[l1' k'] l2']|]; [|done].
    intros [= <- <- <-]. apply list.Forall_cons. split; [done|by apply IH].
  - destruct x as [d|n]; cbn in *; [tauto|]. rewrite (proj2 (Z.leb_le size n)) by lia. by intros [= <- <- <-].
Qed.

Definition too_small (size : Z) (x : block) : Prop := is_used x = true \/ data_length x < data_size size.

(** [mem_malloc] takes the lowest free block that is large enough, splits it
    when what is left can hold a block, leaves every other block and its contents
    as they are, and fails, changing nothing, only for no bytes at all or when no
    free block is large enough. *)
Theorem malloc_takes_first_fit b lf l size : heap b lf l -> 0 <= size < 65536 ->
  wp ram_env (mem_malloc size) (fun o c =>
    (o = Done None /\ c = RamState b lf false /\ (size = 0 \/ Forall (too_small size) l)) \/
    (exists l1 k l2 d b' lf', l = l1 ++ Free k :: l2 /\ Forall (too_small size) l1 /\ 0 < size /\
       data_size size <= Z.of_nat (length d) < data_size size + 20 /\
       o = Done (Some (total l1 + SIZEOF_STRUCT_MEM)) /\ c = RamState b' lf' false /\
       heap b' lf' (l1 ++ carved (data_size size) k d ++ l2))) (RamState b lf false).
Proof.
  intros Hh Hs. eapply wp_mono; [by apply wp_malloc|]. intros o c. unfold allocated, place.
  destruct (Z.eqb_spec size 0) as [H0|H0]; [by intros [-> ->]; left; eauto|].
  destruct (first_fit (data_size size) l) as [[[l1 k] l2]|] eqn:Hfit.
  - intros (b' & lf' & d & -> & Hd & Hh' & ->). right.
    pose proof (first_fit_some _ _ _ _ _ Hfit) as [-> Hk]. pose proof (first_fit_lower _ _ _ _ _ Hfit).
    exists l1, k, l2, d, b', lf'. unfold given in Hd. rewrite fits_split_eq in Hd.
    do 2 (split; [done|]). split; [lia|]. split; [|done].
    destruct (Z.leb_spec (data_size size + 20) k); lia.
  - intros [-> ->]. left. split; [done|]. split; [done|]. right. by apply first_fit_none.
Qed.

(** A heap to try: after [mem_init]. *)
Definition fresh_ram : Z -> Z :=
  put16 (put16 (<[3072 + 4 := 1]> (<[4 := 0]> (put16 (put16 (fun _ => 0) 0 3072) 2 0))) 3072 3072) (3072 + 2) 3072.

Lemma fresh_heap : heap fresh_ram 0 one_block.
Proof.
  split; [|done..]. split; change MEM_SIZE_ALIGNED with 3072; unfold fresh_ram.
  - exists 0. cbn [seg one_block]. rewrite bsize_eq. change (data_length _) with 3064. unfold header. cbn [is_used].
    reads. done.
  - reads. done.
  - by apply list.Forall_singleton.
Qed.

Lemma malloc_takes_first_fit_witness :
  wp ram_env (mem_malloc 100) (fun o c =>
    (o = Done None /\ c = RamState fresh_ram 0 false /\ (100 = 0 \/ Forall (too_small 100) one_block)) \/
    (exists l1 k l2 d b' lf', one_block = l1 ++ Free k :: l2 /\ Forall (too_small 100) l1 /\ 0 < 100 /\
       data_size 100 <= Z.of_nat (length d) < data_size 100 + 20 /\
       o = Done (Some (total l1 + SIZEOF_STRUCT_MEM)) /\ c = RamState b' lf' false /\
       heap b' lf' (l1 ++ carved (data_size 100) k d ++ l2))) (RamState fresh_ram 0 false).
Proof. apply malloc_takes_first_fit; [apply fresh_heap|lia]. Defined.

(** ** Requests that are too large for the arithmetic *)

(** Sizes that are rounded up past the half-word get the smallest block. *)
Lemma data_size_wraps n : 65533 <= n < 65536 -> data_size n = 12.
Proof.
  intros Hn. unfold data_size. rewrite align_eq by lia.
  replace ((n + 3) / 4 * 4) with 65536 by (Z.to_euclidean_division_equations; lia). done.
Qed.

Lemma malloc_wraps n : 65533 <= n < 65536 ->
  wp ram_env (mem_malloc n) (fun o c => o = Done (Some SIZEOF_STRUCT_MEM) /\
    exists b' lf' d, length d = 12%nat /\ c = RamState b' lf' false /\ heap b' lf' [Used d; Free 3044])
    (RamState fresh_ram 0 false).
Proof.
  intros Hn. eapply wp_mono; [apply wp_malloc; [apply fresh_heap|lia]|].
  intros o c. unfold allocated, place. rewrite (proj2 (Z.eqb_neq n 0)), data_size_wraps by lia.
  change (first_fit 12 one_block) with (Some ([] : list block, 3064, [] : list block)).
  intros (b' & lf' & d & -> & Hd & Hh' & ->). split; [done|].
  change (given 12 3064) with 12 in Hd. exists b', lf', d. split; [lia|]. split; [done|]. exact Hh'.
Qed.

Lemma wp_and {E S A} (N : env E S) (p : prog E A) Q Q' s :
  wp N p Q s -> wp N p Q' s -> wp N p (fun o s => Q o s /\ Q' o s) s.
Proof.
  revert s. induction p as [a|h|e k IH]; intros s; cbn [wp]; [by split..|].
  intros [Hr H1] [_ H2]. split; [done|]. intros x s' Hs. apply IH; [by apply H1|by apply H2].
Qed.

Lemma wp_ends {E S A} (N : env E S) (p : prog E A) Q s :
  (forall e s, exists x s', step N e s x s') -> wp N p Q s -> exists o s', Q o s'.
Proof.
  intros HN. revert s. induction p as [a|h|e k IH]; intros s; cbn [wp]; [by eauto..|].
  intros [_ Hk]. destruct (HN e s) as (x & s' & Hs). eapply IH. by apply Hk.
Qed.

Lemma ram_env_answers (e : op ram) s : exists x s', step ram_env e s x s'.
Proof. destruct e; cbn; first [exists tt; eexists; reflexivity | eexists _, _; by split]. Qed.

(** [mem_calloc] allocates the product of its arguments modulo 65536 and clears
    the product itself: 65792 bytes of a heap of 3072. *)
Lemma calloc_overruns Q : ~ wp ram_env (mem_calloc 256 257) Q (RamState fresh_ram 0 false).
Proof.
  intros H. unfold mem_calloc in H. change (u16 (256 * 257)) with 256 in H. apply wp_bind in H.
  pose proof (wp_malloc _ _ _ 256 fresh_heap ltac:(lia)) as Hm.
  pose proof (wp_and _ _ _ _ _ H Hm) as (o & c & Hf & Ha)%wp_ends; [|apply ram_env_answers].
  unfold allocated in Ha. change (place 256 one_block) with (Some ([] : list block, 3064, [] : list block)) in Ha.
  destruct Ha as (b' & lf' & d & -> & _ & _ & ->). destruct Hf as [[[_ Hle] _] _]. by vm_compute in Hle.
Qed.
