(* ===== verification/Network.v ===== *)
(** * The start of the network

    src/src/ASF/thirdparty/freertos/demo/lwip_sam_example/network/ethernet.c as
    it is built (DHCP, no HTTP or SMTP server): the task that starts the stack
    and the servers, the interface, the report of its address; and lwIP's
    conversion of an address to text (core/ipv4/ip_addr.c).  The functions of
    the stack and of its RTOS layer are calls of the signature [lwip]. *)

From S2P Require Import Prelude Prog Text Serial Ethernetif.

(** ** The calls *)

Inductive server := BasicTelnetServer | XvcServer | BasicUDPServer.

Inductive netop :=
| NPrint (s : list Z)
| NetifAdd (ipaddr netmask gw : Z)
| NetifSetDefault
| NetifSetStatusCallback
| DhcpStart
| SysSemNew
| SysSemSignal
| SysSemWait
| SysSemFree
| TcpipInit
| SysThreadNew (s : server) (stack prio : Z)
| TaskDeleteSelf.

Definition lwip : Sig := {| op := netop; ans := fun _ => unit |}.
Definition net (e : netop) : prog lwip unit := @trigger lwip e.

(** ** Addresses as text: ip_addr.c *)

(** [do { rem = *ap % 10; *ap /= 10; inv[i++] = '0' + rem; } while ( *ap );],
    [inv] being the part of the array of three that has been filled. *)
Fixpoint ntoa_digits (fuel : nat) (ap : Z) (inv : list Z) : option (list Z) :=
  match fuel with
  | O => None
  | S fuel =>
    if (3 <=? length inv)%nat then None
    else
      let inv := inv ++ [48 + ap mod 10] in
      let ap := ap / 10 in
      if ap =? 0 then Some inv else ntoa_digits fuel ap inv
  end.

(** [if (len++ >= buflen) return NULL; *rp++ = c;]: [out] is what precedes [rp]. *)
Definition ntoa_put (buflen : nat) (out : list Z) (c : Z) : option (list Z) :=
  if (buflen <=? length out)%nat then None else Some (out ++ [c]).

Fixpoint ntoa_puts (buflen : nat) (out : list Z) (cs : list Z) : option (list Z) :=
  match cs with
  | [] => Some out
  | c :: cs => out ← ntoa_put buflen out c; ntoa_puts buflen out cs
  end.

(** The bytes of the address, in memory order, from [ap] on; [Halt] is a store
    outside [inv], [None] the null pointer. *)
Fixpoint ntoa_bytes (buflen : nat) (bytes out : list Z) : prog lwip (option (list Z)) :=
  match bytes with
  | [] => Ret (Some out)
  | ap :: bytes =>
    let! inv := defined (ntoa_digits 4 ap []) in
    match ntoa_puts buflen out (rev inv) with
    | None => Ret None
    | Some out =>
      match ntoa_put buflen out 46 with
      | None => Ret None
      | Some out => ntoa_bytes buflen bytes out
      end
    end
  end.

(** [*--rp = 0;] overwrites the last dot. *)
Definition ipaddr_ntoa_r (addr : Z) (buflen : nat) : prog lwip (option (list Z)) :=
  let! r := ntoa_bytes buflen (le_bytes4 addr) [] in
  Ret (option_map (fun out => removelast out ++ [0]) r).

Definition ipaddr_ntoa (addr : Z) : prog lwip (option (list Z)) := ipaddr_ntoa_r addr 16.

(** ** ethernet.c *)

(** The C library's [strcat] onto the array [dst]. *)
Definition strcat (dst src : list Z) : option (list Z) :=
  d ← c_string dst; s ← c_string src; store dst (length d) (s ++ [0]).

(** [c_mess] is what the local array holds at first; the last message is the
    format of the [printf]. *)
Definition status_callback (c_mess : list Z) (up : bool) (ip_addr : Z) : prog lwip unit :=
  if up then
    net (NPrint (text "Network up"));;
    let! c_mess := strcpy c_mess (text "IP=" ++ [0]) in
    let! s := ipaddr_ntoa ip_addr in
    let! s := defined s in
    let! c_mess := defined (strcat c_mess s) in
    let! format := defined (c_string c_mess) in
    net (NPrint format)
  else net (NPrint (text "Network down")).

(** [x_gateway] is what the local variable holds: with DHCP it is not set. *)
Definition ethernet_configure_interface (x_gateway : Z) : prog lwip unit :=
  net (NetifAdd 0 0 x_gateway);;
  net NetifSetDefault;;
  net NetifSetStatusCallback;;
  net (NPrint (text "LwIP: DHCP Started"));;
  net DhcpStart.

(** Called by the stack's thread when it has started. *)
Definition tcpip_init_done (x_gateway : Z) : prog lwip unit :=
  ethernet_configure_interface x_gateway;;
  net SysSemSignal.

Definition prvlwIPInit : prog lwip unit :=
  net (NPrint (text "prvlwIPInit()" ++ crlf));;
  net SysSemNew;;
  net TcpipInit;;
  net SysSemWait;;
  net SysSemFree.

Definition lwipBASIC_TELNET_SERVER_STACK_SIZE : Z := 256.
Definition lwipBASIC_TELNET_SERVER_PRIORITY : Z := tskIDLE_PRIORITY + 3.
Definition lwipXVC_SERVER_STACK_SIZE : Z := 256.
Definition lwipXVC_SERVER_PRIORITY : Z := tskIDLE_PRIORITY + 5.
Definition lwipBASIC_UDP_SERVER_STACK_SIZE : Z := 1024.
Definition lwipBASIC_UDP_SERVER_PRIORITY : Z := tskIDLE_PRIORITY + 4.

Definition vStartEthernetTask : prog lwip unit :=
  prvlwIPInit;;
  net (SysThreadNew BasicTelnetServer lwipBASIC_TELNET_SERVER_STACK_SIZE lwipBASIC_TELNET_SERVER_PRIORITY);;
  net (SysThreadNew XvcServer lwipXVC_SERVER_STACK_SIZE lwipXVC_SERVER_PRIORITY);;
  net (NPrint (text "Create UDP Server task" ++ crlf));;
  net (SysThreadNew BasicUDPServer lwipBASIC_UDP_SERVER_STACK_SIZE lwipBASIC_UDP_SERVER_PRIORITY);;
  net TaskDeleteSelf.

(** ** The report of the address *)

(** The dotted decimal notation. *)
Definition dotted (bytes : list Z) : list Z :=
  removelast (concat (map (fun b => dec b ++ [46]) bytes)).

Definition byte_texts : bool :=
  forallb (fun b => match ntoa_digits 4 b [] with
    | Some inv => bool_decide (rev inv = dec b) && (length inv <=? 3)%nat &&
        forallb (fun c => (48 <=? c) && (c <=? 57)) (dec b)
    | None => false end) (map Z.of_nat (seq 0 256)).

Lemma ntoa_digits_dec b : is_u8 b -> exists inv, ntoa_digits 4 b [] = Some inv /\
  rev inv = dec b /\ (length (dec b) <= 3)%nat /\ Forall (fun c => 48 <= c <= 57) (dec b).
Proof.
  intros Hb. assert (byte_texts = true) as H by by vm_compute.
  unfold byte_texts in H. rewrite forallb_forall in H. specialize (H b).
  assert (In b (map Z.of_nat (seq 0 256))) as Hin.
  { apply in_map_iff. exists (Z.to_nat b). rewrite in_seq. unfold is_u8 in *. lia. }
  specialize (H Hin). destruct (ntoa_digits 4 b []) as [inv|]; [|done].
  rewrite !andb_true_iff, bool_decide_eq_true, Nat.leb_le in H. destruct H as [[Hr Hl] Hd].
  exists inv. split; [done|]. split; [done|]. split; [by rewrite <- Hr, length_rev|].
  apply list.Forall_forall. intros c Hc. rewrite forallb_forall in Hd.
  apply list_elem_of_In, Hd, andb_true_iff in Hc. lia.
Qed.

Lemma ntoa_puts_eq n out cs : (length out + length cs <= n)%nat -> ntoa_puts n out cs = Some (out ++ cs).
Proof.
  revert out. induction cs as [|c cs IH]; intros out H; cbn [ntoa_puts]; [by rewrite app_nil_r|].
  simpl in H. unfold ntoa_put. rewrite (proj2 (Nat.leb_gt _ _)) by lia. cbn.
  rewrite IH by (rewrite length_app; simpl; lia). by rewrite <- app_assoc.
Qed.

Lemma ntoa_bytes_eq n bytes out : Forall is_u8 bytes -> (length out + 4 * length bytes <= n)%nat ->
  ntoa_bytes n bytes out = Ret (Some (out ++ concat (map (fun b => dec b ++ [46]) bytes))).
Proof.
  intros Hb. revert out. induction Hb as [|b bytes Hb _ IH]; intros out H; cbn [ntoa_bytes map concat];
    [by rewrite app_nil_r|].
  destruct (ntoa_digits_dec b Hb) as (inv & -> & Hinv & Hl & _). cbn [defined bind]. simpl in H.
  rewrite Hinv, ntoa_puts_eq by lia. unfold ntoa_put.
  rewrite (proj2 (Nat.leb_gt _ _)) by (rewrite length_app; lia).
  rewrite IH by (rewrite !length_app; simpl; lia). by rewrite <- !app_assoc.
Qed.

Definition text_char (c : Z) : Prop := 46 <= c <= 57.

Lemma dotted_text bytes : Forall is_u8 bytes ->
  Forall text_char (dotted bytes) /\ (length (dotted bytes) <= 4 * length bytes - 1)%nat.
Proof.
  intros Hb. assert (Forall text_char (concat (map (fun b => dec b ++ [46]) bytes)) /\
    (length (concat (map (fun b => dec b ++ [46%Z]) bytes)) <= 4 * length bytes)%nat) as [Hc Hl].
  { induction Hb as [|b bytes Hb _ [IH1 IH2]]; [by split; [constructor|simpl; lia]|]. cbn [map concat].
    destruct (ntoa_digits_dec b Hb) as (_ & _ & _ & Hl & Hd). split.
    - rewrite !Forall_app. split; [split|done]; [|by repeat constructor].
      eapply list.Forall_impl; [exact Hd|]. unfold text_char. lia.
    - rewrite !length_app. simpl. lia. }
  unfold dotted. destruct (concat _) as [|c cs] eqn:E; [by split; [constructor|simpl; lia]|].
  rewrite removelast_firstn_len. split; [by apply Forall_take|]. rewrite length_take. simpl in *. lia.
Qed.

Lemma c_string_text t s : Forall (fun c => c <> 0) t -> c_string (t ++ 0 :: s) = Some t.
Proof.
  induction 1 as [|c t Hc Ht IH]; [done|]. simpl. rewrite IH. by destruct (Z.eqb_spec c 0).
Qed.

(** The report of the address, when the interface comes up with any
    address: the conversion stays within its buffers of 3 and 16 bytes and
    never returns a null pointer, the message fits the array of 25 bytes, it is
    the address in dotted decimal, and the [printf] it is the format of finds
    no conversion in it. *)
Theorem address_reported c_mess addr : length c_mess = 25%nat ->
  status_callback c_mess true addr =
    (net (NPrint (text "Network up"));;
     net (NPrint (text "IP=" ++ dotted (le_bytes4 addr)))) /\
  Forall (fun c => c <> 37) (text "IP=" ++ dotted (le_bytes4 addr)).
Proof.
  intros Hl. set (bytes := le_bytes4 addr).
  assert (Forall is_u8 bytes) as Hb by (repeat constructor; apply u8_range).
  destruct (dotted_text bytes Hb) as [Ht Hlen]. change (length bytes) with 4%nat in Hlen.
  assert (forall d, Forall (fun c => c <> d) (text "IP=") -> d < 46 ->
    Forall (fun c => c <> d) (text "IP=" ++ dotted bytes)) as Hno.
  { intros d Hd Hlt. apply Forall_app. split; [done|]. eapply list.Forall_impl; [exact Ht|].
    unfold text_char. lia. }
  split; [|by apply Hno; [repeat constructor|]].
  unfold status_callback.
  enough ((let! c_mess := strcpy c_mess (text "IP=" ++ [0]) in
           let! s := ipaddr_ntoa addr in
           let! s := defined s in
           let! c_mess := defined (strcat c_mess s) in
           let! format := defined (c_string c_mess) in
           net (NPrint format)) = net (NPrint (text "IP=" ++ dotted bytes))) as -> by done.
  unfold strcpy. rewrite c_string_text by (by repeat constructor). cbn [defined bind].
  rewrite store_in_bounds by (simpl; lia). cbn [defined bind]. unfold ipaddr_ntoa, ipaddr_ntoa_r.
  fold bytes. rewrite ntoa_bytes_eq by (done || (simpl; lia)). cbn [bind option_map defined app].
  fold (dotted bytes).
  assert (exists rest, strcat (take 0 c_mess ++ (text "IP=" ++ [0]) ++ drop (0 + length (text "IP=" ++ [0])) c_mess)
    (dotted bytes ++ [0]) = Some (text "IP=" ++ dotted bytes ++ 0 :: rest)) as [rest ->].
  { unfold strcat. rewrite take_0, app_nil_l, <- app_assoc.
    repeat match goal with |- context [[0] ++ ?x] => change ([0] ++ x) with (0 :: x) end.
    rewrite (c_string_text (text "IP=")) by (by repeat constructor).
    rewrite (c_string_text (dotted bytes)) by (eapply list.Forall_impl; [exact Ht|unfold text_char; lia]).
    cbn [mbind option_bind].
    rewrite store_in_bounds by (rewrite !length_app; simpl; rewrite ?length_app, ?length_drop; simpl; lia).
    eexists. rewrite <- app_assoc. simpl. reflexivity. }
  cbn [defined bind]. rewrite app_assoc, c_string_text by (by apply Hno; [repeat constructor|]). done.
Qed.

Lemma address_reported_witness :
  length (replicate 25 0xFF) = 25%nat /\
  (status_callback (replicate 25 0xFF) true 0x9102D90A =
    (net (NPrint (text "Network up"));; net (NPrint (text "IP=" ++ dotted (le_bytes4 0x9102D90A)))) /\
  Forall (fun c => c <> 37) (text "IP=" ++ dotted (le_bytes4 0x9102D90A))).
Proof. split; [done|]. by apply (address_reported (replicate 25 0xFF) 0x9102D90A). Defined.
