(* ===== verification/LwipUdp.v ===== *)
(** * UDP of the network stack (udp.c)

    src/src/ASF/thirdparty/lwip/lwip-1.4.0/src/core/udp.c as configured:
    checksums generated and checked, DHCP, no UDP-Lite, IGMP, SO_REUSE or
    broadcast filter; the traces are left out.  The control blocks are in
    memory at the addresses that memp.c gives; [udp_pcbs] is the list of active
    ones, linked through [next].  IP, ICMP and the memory managers are calls of
    the signature [unet], next to those [Lower] of what applications do. *)

From stdpp Require Import fin_maps gmap.
From S2P Require Import Prelude Prog Pbuf PbufAlloc Chksum Text Serial.

(** ** Addresses and interfaces: ip_addr.h, ip_addr.c, netif.h *)

Definition IPADDR_ANY : Z := 0.
Definition IPADDR_BROADCAST : Z := 0xffffffff.
Definition NETIF_FLAG_BROADCAST : Z := 0x02.

(** The fields of [struct netif] that matter here, and its address [self];
    [hwaddr] is the six bytes in use; [dhcp] is [None] without a DHCP client. *)
Record dhcp_client := DhcpClient { dhcp_pcb : option Z; dhcp_state : Z; offered_ip_addr : Z }.

Record netif := Netif {
  self : Z; ip_addr : Z; netmask : Z; netif_flags : Z; dhcp : option dhcp_client; mtu : Z;
  gw : Z; hwaddr : list Z
}.

Definition ip_addr_isany (addr : Z) : bool := addr =? IPADDR_ANY.
Definition ip_addr_cmp (addr1 addr2 : Z) : bool := addr1 =? addr2.
Definition ip_addr_netcmp (addr1 addr2 mask : Z) : bool := Z.land addr1 mask =? Z.land addr2 mask.

(** In network order: [PP_HTONL(0xf0000000UL)], [PP_HTONL(0xe0000000UL)]. *)
Definition ip_addr_ismulticast (addr1 : Z) : bool := Z.land addr1 0x000000f0 =? 0x000000e0.

Definition ip4_addr_isbroadcast (addr : Z) (n : netif) : bool :=
  if (not32 addr =? IPADDR_ANY) || (addr =? IPADDR_ANY) then true
  else if Z.land (netif_flags n) NETIF_FLAG_BROADCAST =? 0 then false
  else if addr =? ip_addr n then false
  else if ip_addr_netcmp addr (ip_addr n) (netmask n)
          && (Z.land addr (not32 (netmask n)) =? Z.land IPADDR_BROADCAST (not32 (netmask n)))
  then true
  else false.

(** ** The control blocks: udp.h *)

Definition UDP_HLEN : Z := 8.
Definition UDP_FLAGS_NOCHKSUM : Z := 0x01.
Definition UDP_FLAGS_CONNECTED : Z := 0x04.
Definition UDP_TTL : Z := 255.
Definition IP_PROTO_UDP : Z := 17.
Definition DHCP_CLIENT_PORT : Z := 68.
Definition DHCP_SERVER_PORT : Z := 67.
Definition ICMP_DUR_PORT : Z := 3.
Definition UDP_LOCAL_PORT_RANGE_START : Z := 0xc000.
Definition UDP_LOCAL_PORT_RANGE_END : Z := 0xffff.

Definition ERR_MEM : Z := -1.
Definition ERR_RTE : Z := -4.
Definition ERR_VAL : Z := -6.
Definition ERR_USE : Z := -8.

(** [recv] is the callback, [None] for the null pointer. *)
Record udp_pcb := UdpPcb {
  local_ip : Z; remote_ip : Z; so_options : Z; tos : Z; ttl : Z;
  flags : Z; local_port : Z; remote_port : Z;
  recv : option Z; recv_arg : Z
}.

Definition with_local_ip (c : udp_pcb) (a : Z) : udp_pcb :=
  UdpPcb a (remote_ip c) (so_options c) (tos c) (ttl c) (flags c) (local_port c) (remote_port c) (recv c) (recv_arg c).
Definition with_local_port (c : udp_pcb) (port : Z) : udp_pcb :=
  UdpPcb (local_ip c) (remote_ip c) (so_options c) (tos c) (ttl c) (flags c) port (remote_port c) (recv c) (recv_arg c).
Definition with_remote (c : udp_pcb) (a port fl : Z) : udp_pcb :=
  UdpPcb (local_ip c) a (so_options c) (tos c) (ttl c) fl (local_port c) port (recv c) (recv_arg c).
Definition with_recv (c : udp_pcb) (f : option Z) (arg : Z) : udp_pcb :=
  UdpPcb (local_ip c) (remote_ip c) (so_options c) (tos c) (ttl c) (flags c) (local_port c) (remote_port c) f arg.

(** The control blocks in memory, and the list of the active ones. *)
Record udp_state := UdpState { blocks : gmap Z udp_pcb; udp_pcbs : list Z }.

Definition set_pcb (u : udp_state) (pcb : Z) (c : udp_pcb) : udp_state :=
  UdpState (<[pcb := c]> (blocks u)) (udp_pcbs u).
Definition set_list (u : udp_state) (l : list Z) : udp_state := UdpState (blocks u) l.

(** ** The calls *)

Inductive udp_stat :=
  StatRecv | StatLenerr | StatDrop | StatCachehit | StatChkerr | StatProterr | StatRterr | StatXmit.

Section udp.
Context {F : Sig}.

(** [IpOutputIf] answers the result and the packet as the layers below have
    left it. *)
Inductive unetop :=
| OnHeap (e : memop)
| PcbMalloc
| PcbFree (pcb : Z)
| IpRoute (dest : Z)
| IpOutputIf (q : list pbuf) (src dest ttl tos proto : Z) (n : netif)
| IcmpDestUnreach (p : list pbuf) (code : Z)
| UdpStat (s : udp_stat)
| UPrint (s : list Z)
| Lower (e : op F).

Definition unet_ans (e : unetop) : Type :=
  match e with
  | OnHeap e => mem_ans e
  | PcbMalloc => option Z
  | IpRoute _ => option netif
  | IpOutputIf _ _ _ _ _ _ _ => Z * list pbuf
  | Lower e => ans F e
  | _ => unit
  end.

Definition unet : Sig := {| op := unetop; ans := unet_ans |}.
Definition ucall (e : unetop) : prog unet (unet_ans e) := @trigger unet e.
Definition stat (s : udp_stat) : prog unet unit := ucall (UdpStat s).

Definition on_heap {A} (p : prog heap A) : prog unet A := @embed heap unet OnHeap (fun _ x => x) A p.

(** [pbuf_free]; who else has the packet goes on with what is left. *)
Definition udp_pbuf_free (p : list pbuf) : prog unet (list pbuf) :=
  let! (_, rest) := on_heap (release p) in Ret rest.

(** The control block at [pcb]. *)
Definition get_pcb (u : udp_state) (pcb : Z) : prog unet udp_pcb := defined (blocks u !! pcb).

(** ** Binding *)

(** The first loop of [udp_bind]: [None] is the return of [ERR_USE]. *)
Fixpoint bind_loop (u : udp_state) (pcb ipaddr port : Z) (l : list Z) (rebind : Z)
    : prog unet (option Z) :=
  match l with
  | [] => Ret (Some rebind)
  | ipcb :: l =>
    if pcb =? ipcb then bind_loop u pcb ipaddr port l 1
    else
      let! c := get_pcb u ipcb in
      if (local_port c =? port)
         && (ip_addr_isany (local_ip c) || ip_addr_isany ipaddr || ip_addr_cmp (local_ip c) ipaddr)
      then Ret None
      else bind_loop u pcb ipaddr port l rebind
  end.

(** One scan of the list: whether a control block has the port. *)
Fixpoint port_used (u : udp_state) (l : list Z) (port : Z) : prog unet bool :=
  match l with
  | [] => Ret false
  | ipcb :: l =>
    let! c := get_pcb u ipcb in
    if local_port c =? port then Ret true else port_used u l port
  end.

(** The [while] loop that looks for a free port; every restart is a port
    further.  [None]: the loop ended with [ipcb != NULL]. *)
Fixpoint find_port (n : nat) (u : udp_state) (port : Z) : prog unet (option Z) :=
  match udp_pcbs u with
  | [] => Ret (Some port)
  | _ =>
    if port =? UDP_LOCAL_PORT_RANGE_END then Ret None
    else
      let! used := port_used u (udp_pcbs u) port in
      if used then
        match n with
        | O => Halt OutOfFuel
        | S n => find_port n u (u16 (port + 1))
        end
      else Ret (Some port)
  end.

Definition port_range : nat := Z.to_nat (UDP_LOCAL_PORT_RANGE_END - UDP_LOCAL_PORT_RANGE_START).

Definition udp_bind (u : udp_state) (pcb ipaddr port : Z) : prog unet (Z * udp_state) :=
  let! r := bind_loop u pcb ipaddr port (udp_pcbs u) 0 in
  match r with
  | None => Ret (ERR_USE, u)
  | Some rebind =>
    let! c := get_pcb u pcb in
    let u := set_pcb u pcb (with_local_ip c ipaddr) in
    let! port := (if port =? 0 then find_port port_range u UDP_LOCAL_PORT_RANGE_START
                  else Ret (Some port)) in
    match port with
    | None => Ret (ERR_USE, u)
    | Some port =>
      let! c := get_pcb u pcb in
      let u := set_pcb u pcb (with_local_port c port) in
      let u := if rebind =? 0 then set_list u (pcb :: udp_pcbs u) else u in
      Ret (ERR_OK, u)
    end
  end.

Fixpoint on_list (pcb : Z) (l : list Z) : bool :=
  match l with [] => false | ipcb :: l => if pcb =? ipcb then true else on_list pcb l end.

Definition udp_connect (u : udp_state) (pcb ipaddr port : Z) : prog unet (Z * udp_state) :=
  let! c := get_pcb u pcb in
  let! (err, u) := (if local_port c =? 0 then udp_bind u pcb (local_ip c) (local_port c)
                    else Ret (ERR_OK, u)) in
  if negb (err =? ERR_OK) then Ret (err, u)
  else
    let! c := get_pcb u pcb in
    let u := set_pcb u pcb (with_remote c ipaddr port (Z.lor (flags c) UDP_FLAGS_CONNECTED)) in
    Ret (ERR_OK, if on_list pcb (udp_pcbs u) then u else set_list u (pcb :: udp_pcbs u)).

Definition udp_disconnect (u : udp_state) (pcb : Z) : prog unet udp_state :=
  let! c := get_pcb u pcb in
  Ret (set_pcb u pcb (with_remote c IPADDR_ANY 0 (Z.land (flags c) (u8 (Z.lnot UDP_FLAGS_CONNECTED))))).

Definition udp_recv (u : udp_state) (pcb : Z) (recv : option Z) (recv_arg : Z) : prog unet udp_state :=
  let! c := get_pcb u pcb in Ret (set_pcb u pcb (with_recv c recv recv_arg)).

(** The second loop of [udp_remove]: wherever [pcb] follows another. *)
Fixpoint unlink (pcb : Z) (l : list Z) : list Z :=
  match l with
  | [] => []
  | a :: l => if a =? pcb then unlink pcb l else a :: unlink pcb l
  end.

Definition udp_remove (u : udp_state) (pcb : Z) : prog unet udp_state :=
  let l :=
    match udp_pcbs u with
    | [] => []
    | a :: l => if a =? pcb then l else a :: unlink pcb l
    end in
  ucall (PcbFree pcb);;
  Ret (UdpState (delete pcb (blocks u)) l).

Definition udp_new (u : udp_state) : prog unet (option Z * udp_state) :=
  ucall (UPrint (text "udp_pcb trying to allocate 1 for PCB." ++ crlf));;
  let! pcb := ucall PcbMalloc in
  match pcb : option Z with
  | None => Ret (None, u)
  | Some a => Ret (Some a, set_pcb u a (UdpPcb 0 0 0 0 UDP_TTL 0 0 0 None 0))
  end.

(** ** Sending *)

(** A [u16_t] of a header, stored and loaded as the processor does. *)
Definition set_u16 (p : pbuf) (off : nat) (v : Z) : prog unet pbuf :=
  let! bs := defined (store (payload p) off [u8 v; u8 (Z.shiftr v 8)]) in
  Ret (set_payload p (hidden p) bs (tot_len p)).
Definition get_u16 (p : pbuf) (off : nat) : prog unet Z := defined (load off 2 (payload p)).

(** The parity of the payload addresses of a packet. *)
Context (odd : list pbuf -> nat -> bool).

(** The header in [p] or in a pbuf of its own: the packet to send, whether it
    is not [p] itself, and [p]; [None] when there is no memory. *)
Definition add_header (p : pbuf) (ps : list pbuf) : prog unet (option (list pbuf * bool) * list pbuf) :=
  let! (r, p') := of_outcome (pbuf_header p UDP_HLEN) in
  if negb (r =? 0) then
    let! q := on_heap (pbuf_alloc PBUF_IP UDP_HLEN PBUF_RAM) in
    match q with
    | None => Ret (None, p' :: ps)
    | Some (Chain q) =>
      if negb (tot_len p' =? 0)
      then let! q := of_outcome (pbuf_chain q (p' :: ps)) in Ret (Some (q, true), p' :: ps)
      else Ret (Some (q, true), p' :: ps)
    | Some (Referring _ _) => Halt Undefined
    end
  else Ret (Some (p' :: ps, false), p' :: ps).

(** [if (q != p) pbuf_free(q)]: [p] is at the end of what is left. *)
Definition drop_header (own : bool) (q p : list pbuf) : prog unet (list pbuf) :=
  if own then
    let! rest := udp_pbuf_free q in
    Ret (if (length q =? 1)%nat then p else drop (length rest - length p) rest)
  else Ret q.

(** From the check of the local address on; [src_ip] is [None] when it is not
    the interface's. *)
Definition source_ip (c : udp_pcb) (n : netif) : option Z :=
  if ip_addr_isany (local_ip c) then Some (ip_addr n)
  else if negb (ip_addr_cmp (local_ip c) (ip_addr n)) then None
  else Some (local_ip c).

Definition send_datagram (c : udp_pcb) (q : pbuf) (qs : list pbuf) (own : bool) (p : list pbuf)
    (src_ip dst_ip : Z) (n : netif) : prog unet (Z * list pbuf) :=
  let! q := set_u16 q 4 (lwip_htons (tot_len q)) in
  let! q :=
    (if Z.land (flags c) UDP_FLAGS_NOCHKSUM =? 0 then
       let udpchksum := inet_chksum_pseudo (odd (q :: qs)) (q :: qs) src_ip dst_ip IP_PROTO_UDP (tot_len q) in
       let udpchksum := if udpchksum =? 0x0000 then 0xffff else udpchksum in
       set_u16 q 6 udpchksum
     else Ret q) in
  let! (err, q) := ucall (IpOutputIf (q :: qs) src_ip dst_ip (ttl c) (tos c) IP_PROTO_UDP n) in
  let! p := drop_header own q p in
  stat StatXmit;;
  Ret (err, p).

(** The result, the caller's packet afterwards, and the control blocks. *)
Definition udp_sendto_if (u : udp_state) (pcb : Z) (p : list pbuf) (dst_ip dst_port : Z) (n : netif)
    : prog unet (Z * list pbuf * udp_state) :=
  let! c := get_pcb u pcb in
  let! (err, u) := (if local_port c =? 0 then udp_bind u pcb (local_ip c) (local_port c)
                    else Ret (ERR_OK, u)) in
  if negb (err =? ERR_OK) then Ret (err, p, u)
  else
    let! c := get_pcb u pcb in
    match p with
    | [] => Halt Undefined
    | p :: ps =>
      let! (r, p) := add_header p ps in
      match r with
      | None => Ret (ERR_MEM, p, u)
      | Some ([], _) => Halt Undefined
      | Some (q :: qs, own) =>
        let! q := set_u16 q 0 (lwip_htons (local_port c)) in
        let! q := set_u16 q 2 (lwip_htons dst_port) in
        let! q := set_u16 q 6 0x0000 in
        match source_ip c n with
        | None => let! p := drop_header own (q :: qs) p in Ret (ERR_VAL, p, u)
        | Some src_ip =>
          let! (err, p) := send_datagram c q qs own p src_ip dst_ip n in Ret (err, p, u)
        end
      end
    end.

Definition udp_sendto (u : udp_state) (pcb : Z) (p : list pbuf) (dst_ip dst_port : Z)
    : prog unet (Z * list pbuf * udp_state) :=
  let! n := ucall (IpRoute dst_ip) in
  match n : option netif with
  | None => stat StatRterr;; Ret (ERR_RTE, p, u)
  | Some n => udp_sendto_if u pcb p dst_ip dst_port n
  end.

Definition udp_send (u : udp_state) (pcb : Z) (p : list pbuf) : prog unet (Z * list pbuf * udp_state) :=
  let! c := get_pcb u pcb in udp_sendto u pcb p (remote_ip c) (remote_port c).

(** ** Receiving *)

(** What the callback registered at a pointer does with its arguments. *)
Context (callback : Z -> Z -> Z -> list pbuf -> Z -> Z -> udp_state -> prog unet udp_state).

Definition local_match (c : udp_pcb) (dest : Z) (broadcast : bool) (current_iphdr_dest : Z) : bool :=
  (local_port c =? dest)
  && ((negb broadcast && ip_addr_isany (local_ip c))
      || ip_addr_cmp (local_ip c) current_iphdr_dest || broadcast).

Definition remote_match (c : udp_pcb) (src current_iphdr_src : Z) : bool :=
  (remote_port c =? src)
  && (ip_addr_isany (remote_ip c) || ip_addr_cmp (remote_ip c) current_iphdr_src).

(** The loop of [udp_input] over the list: [before] are the control blocks that
    have been passed. *)
Fixpoint match_loop (u : udp_state) (src dest : Z) (broadcast : bool) (isrc idest : Z)
    (before l : list Z) (uncon_pcb : option Z) : prog unet (option Z * udp_state) :=
  match l with
  | [] => Ret (uncon_pcb, u)
  | pcb :: l =>
    let! c := get_pcb u pcb in
    let local := local_match c dest broadcast idest in
    let uncon_pcb :=
      if local && match uncon_pcb with None => true | _ => false end
         && (Z.land (flags c) UDP_FLAGS_CONNECTED =? 0)
      then Some pcb else uncon_pcb in
    if local && remote_match c src isrc then
      match before with
      | _ :: _ => Ret (Some pcb, set_list u (pcb :: before ++ l))
      | [] => stat StatCachehit;; Ret (Some pcb, u)
      end
    else match_loop u src dest broadcast isrc idest (before ++ [pcb]) l uncon_pcb
  end.

(** Packets to the DHCP client's port are for the client only. *)
Definition dhcp_match (u : udp_state) (inp : netif) (src isrc : Z) : prog unet (option Z) :=
  if src =? DHCP_SERVER_PORT then
    match option_map dhcp_pcb (dhcp inp) with
    | Some (Some pcb) =>
      let! c := get_pcb u pcb in
      Ret (if ip_addr_isany (remote_ip c) || ip_addr_cmp (remote_ip c) isrc then Some pcb else None)
    | _ => Ret None
    end
  else Ret None.

Definition find_pcb (u : udp_state) (inp : netif) (src dest : Z) (broadcast : bool) (isrc idest : Z)
    : prog unet (option Z * udp_state) :=
  if dest =? DHCP_CLIENT_PORT then let! r := dhcp_match u inp src isrc in Ret (r, u)
  else match_loop u src dest broadcast isrc idest [] (udp_pcbs u) None.

(** [UDP_STATS_INC(udp.drop); pbuf_free(p)] after the statistic of the reason. *)
Definition discard (reason : udp_stat) (p : list pbuf) (u : udp_state) : prog unet udp_state :=
  stat reason;; stat StatDrop;; let! _ := udp_pbuf_free p in Ret u.

Definition deliver (u : udp_state) (pcb : Z) (p : list pbuf) (isrc src : Z) : prog unet udp_state :=
  let! c := get_pcb u pcb in
  match recv c with
  | Some f => callback f (recv_arg c) pcb p isrc src u
  | None => let! _ := udp_pbuf_free p in Ret u
  end.

Definition no_port (u : udp_state) (p : pbuf) (ps : list pbuf) (hl : Z) (broadcast : bool) (idest : Z)
    : prog unet udp_state :=
  let! p :=
    (if negb broadcast && negb (ip_addr_ismulticast idest) then
       let! (_, p) := of_outcome (pbuf_header p (hl * 4 + UDP_HLEN)) in
       ucall (IcmpDestUnreach (p :: ps) ICMP_DUR_PORT);;
       Ret p
     else Ret p) in
  discard StatProterr (p :: ps) u.

(** [p] starts with the IP header; [isrc] and [idest] are [current_iphdr_src]
    and [current_iphdr_dest]. *)
Definition udp_input (u : udp_state) (p : list pbuf) (inp : netif) (isrc idest : Z)
    : prog unet udp_state :=
  stat StatRecv;;
  match p with
  | [] => Halt Undefined
  | p :: ps =>
    let! v_hl_tos := get_u16 p 0 in
    let hl := Z.land (Z.shiftr (lwip_ntohs v_hl_tos) 8) 0x0f in
    if tot_len p <? hl * 4 + UDP_HLEN then discard StatLenerr (p :: ps) u
    else
      let! (r, p) := of_outcome (pbuf_header p (- (hl * 4))) in
      if negb (r =? 0) then discard StatLenerr (p :: ps) u
      else
        let broadcast := ip4_addr_isbroadcast idest inp in
        let! src := get_u16 p 0 in
        let! dest := get_u16 p 2 in
        let src := lwip_ntohs src in
        let dest := lwip_ntohs dest in
        let! (pcb, u) := find_pcb u inp src dest broadcast isrc idest in
        if match pcb with Some _ => true | None => ip_addr_cmp (ip_addr inp) idest end then
          let! chksum := get_u16 p 6 in
          if negb (chksum =? 0)
             && negb (inet_chksum_pseudo (odd (p :: ps)) (p :: ps) isrc idest IP_PROTO_UDP (tot_len p) =? 0)
          then discard StatChkerr (p :: ps) u
          else
            let! (r, p) := of_outcome (pbuf_header p (- UDP_HLEN)) in
            if negb (r =? 0) then stat StatDrop;; let! _ := udp_pbuf_free (p :: ps) in Ret u
            else
              match pcb with
              | Some pcb => deliver u pcb (p :: ps) isrc src
              | None => no_port u p ps hl broadcast idest
              end
        else let! _ := udp_pbuf_free (p :: ps) in Ret u
  end.
End udp.
Arguments unetop : clear implicits.
Arguments unet : clear implicits.
