(* ===== verification/LwipUdpSpec.v ===== *)
(** * UDP between two hosts

    What LwipUdp.v sends and how it finds the receiver: the datagram of RFC 768
    with its checksum; that the ports of the active control blocks stay apart;
    and that what one host sends another delivers. *)

From stdpp Require Import fin_maps gmap.
From S2P Require Import Prelude Prog Pbuf PbufSpec PbufAlloc PbufAllocSpec Chksum ChksumSpec Twi TwiBus FpgaTwi UdpServer LwipUdp.

(** ** Datagrams *)

(** Network byte order. *)
Definition be16 (v : Z) : list Z := [u8 (Z.shiftr v 8); u8 v].

Definition udp_unsummed (sport dport : Z) (data : list Z) : list Z :=
  be16 sport ++ be16 dport ++ be16 (8 + Z.of_nat (length data)) ++ [0; 0] ++ data.

Definition udp_datagram (src dst sport dport : Z) (data : list Z) : list Z :=
  let d := udp_unsummed sport dport data in
  fill d 6 (ChksumSpec.sent (rfc1071 (pseudo_header src dst IP_PROTO_UDP (8 + Z.of_nat (length data)) ++ d))).

Lemma be16_u8 v : Forall is_u8 (be16 v).
Proof. repeat (apply list.Forall_cons; split; [apply u8_range|]). constructor. Qed.

Lemma unsummed_u8 sport dport data : Forall is_u8 data -> Forall is_u8 (udp_unsummed sport dport data).
Proof.
  intros H8. unfold udp_unsummed. repeat (apply Forall_app; split; [try apply be16_u8|]); [|done].
  repeat (apply list.Forall_cons; split; [unfold is_u8; lia|]). constructor.
Qed.

Lemma unsummed_length sport dport data : length (udp_unsummed sport dport data) = (8 + length data)%nat.
Proof. unfold udp_unsummed, be16. by rewrite !length_app. Qed.

Lemma datagram_length src dst sport dport data : length (udp_datagram src dst sport dport data) = (8 + length data)%nat.
Proof. unfold udp_datagram, fill. by rewrite !length_insert, unsummed_length. Qed.

(** The fields of a datagram. *)
Lemma datagram_fields src dst sport dport data : exists c, let d := udp_datagram src dst sport dport data in
  take 4 d = be16 sport ++ be16 dport /\ drop 8 d = data /\
  c = ChksumSpec.sent (rfc1071 (pseudo_header src dst IP_PROTO_UDP (8 + Z.of_nat (length data)) ++ udp_unsummed sport dport data)) /\
  take 2 (drop 6 d) = [c mod 256; c / 256].
Proof. eexists. cbv zeta. split; [done|]. split; [done|]. split; [reflexivity|done]. Qed.

Lemma sent_nonzero c : ChksumSpec.sent c <> 0.
Proof. unfold ChksumSpec.sent. destruct (Z.eqb_spec c 0); lia. Qed.

Lemma ntohs_be v : is_u16 v -> lwip_ntohs (le_val (be16 v)) = v.
Proof.
  intros Hv. unfold be16. rewrite ntohs_le by apply be16_u8. unfold be_value, u8. cbn [fold_left].
  unfold is_u16 in Hv. rewrite Z.shiftr_div_pow2 by lia. Z.to_euclidean_division_equations. lia.
Qed.

(** A stored and a loaded field. *)
Lemma set_u16_eq {F} (p : pbuf) off v : (off + 2 <= length (payload p))%nat ->
  @set_u16 F p off v = Ret (set_payload p (hidden p) (take off (payload p) ++ [u8 v; u8 (Z.shiftr v 8)] ++
    drop (off + 2) (payload p)) (tot_len p)).
Proof. intros H. unfold set_u16. rewrite store_in_bounds by (simpl; lia). done. Qed.

Lemma get_u16_eq {F} (p : pbuf) off : (off + 2 <= length (payload p))%nat ->
  @get_u16 F p off = Ret (le_val (take 2 (drop off (payload p)))).
Proof. intros H. unfold get_u16, load. by rewrite decide_True by lia. Qed.

Lemma fill_eq bs k c : (k + 2 <= length bs)%nat -> is_u16 c ->
  fill bs k c = take k bs ++ [u8 c; u8 (Z.shiftr c 8)] ++ drop (k + 2) bs.
Proof.
  intros Hk Hc. unfold fill. unfold u8. rewrite Z.shiftr_div_pow2 by lia. change (2 ^ 8) with 256.
  rewrite (Z.mod_small (c / 256)) by (unfold is_u16 in Hc; Z.to_euclidean_division_equations; lia).
  rewrite <- (take_drop k bs) at 1. rewrite insert_app_r_alt by (rewrite length_take; lia).
  rewrite insert_app_r_alt by (rewrite length_take; lia). f_equal. rewrite length_take, Nat.min_l by lia.
  rewrite Nat.sub_diag. replace (S k - k)%nat with 1%nat by lia.
  destruct (drop k bs) as [|a [|b r]] eqn:Hd.
  1,2: apply (f_equal length) in Hd; rewrite length_drop in Hd; simpl in Hd; lia.
  by rewrite <- drop_drop, Hd.
Qed.

(** ** Sending *)

(** The same pbuf with other bytes. *)
Definition repaid (p p' : pbuf) : Prop :=
  pb_type p' = pb_type p /\ hidden p' = hidden p /\ ref p' = ref p /\ tot_len p' = tot_len p /\
  length (payload p') = length (payload p).

Lemma repaid_packet p p' qs : repaid p p' -> packet (p :: qs) -> packet (p' :: qs).
Proof.
  intros (Ht & Hh & Hr & Hl & Hp) [[[Ht1 Ht2] Hw] Hlv]. apply list.Forall_cons in Hlv as [Hr' Hlv]. split.
  - cbn [wf_chain]. rewrite flat_cons, length_app in *. rewrite Hl, Hp. done.
  - apply list.Forall_cons. by rewrite Hr.
Qed.

Lemma le_bytes2_u16 c : is_u16 c -> [u8 c; u8 (Z.shiftr c 8)] = [c mod 256; c / 256].
Proof.
  intros Hc. unfold u8. rewrite Z.shiftr_div_pow2 by lia. change (2 ^ 8) with 256.
  rewrite (Z.mod_small (c / 256)); [done|]. unfold is_u16 in Hc. Z.to_euclidean_division_equations. lia.
Qed.

Section sending.
Context {F : Sig} (odd : list pbuf -> nat -> bool).

Definition emit (own : bool) (p q : list pbuf) (src dst : Z) (c : udp_pcb) (n : netif) : prog (unet F) (Z * list pbuf) :=
  let! (err, q) := ucall (IpOutputIf q src dst (ttl c) (tos c) IP_PROTO_UDP n) in
  let! p := drop_header own q p in
  stat StatXmit;;
  Ret (err, p).

Lemma send_datagram_eq c q qs own p src dst n sport dport e f d :
  payload q = be16 sport ++ be16 dport ++ [e; f] ++ [0; 0] ++ d ->
  packet (q :: qs) -> Forall is_u8 (d ++ flat qs) -> is_u32 src -> is_u32 dst ->
  Z.land (flags c) UDP_FLAGS_NOCHKSUM = 0 ->
  exists q', @send_datagram F odd c q qs own p src dst n = emit own p (q' :: qs) src dst c n /\
    flat (q' :: qs) = udp_datagram src dst sport dport (d ++ flat qs) /\ repaid q q'.
Proof.
  intros Hq Hpk H8 Hs Hd Hf. unfold send_datagram. rewrite Hf.
  assert (8 + 0 <= length (payload q))%nat as Hlen by (rewrite Hq; simpl; lia).
  rewrite set_u16_eq by lia. rewrite le_bytes2_htons. change (0 =? 0) with true. cbv iota. cbn [bind].
  rewrite Hq. cbn [be16 take drop app Nat.add].
  set (q1 := set_payload _ _ _ _). assert (repaid q q1) as H1.
  { unfold q1. repeat split. rewrite Hq. done. }
  assert (flat (q1 :: qs) = udp_unsummed sport dport (d ++ flat qs)) as Hflat.
  { rewrite flat_cons. unfold q1, udp_unsummed. cbn [payload set_payload].
    destruct Hpk as [[[Ht _] _] _]. rewrite flat_cons, Hq, length_app in Ht.
    assert (tot_len q = 8 + Z.of_nat (length (d ++ flat qs))) as -> by (rewrite Ht, (length_app d); unfold be16; cbn [length app]; lia).
    done. }
  assert (tot_len q1 = 8 + Z.of_nat (length (d ++ flat qs))) as Ht1.
  { pose proof (repaid_packet q q1 qs H1 Hpk) as [[[Ht _] _] _]. rewrite Ht, Hflat, unsummed_length. lia. }
  pose proof (repaid_packet q q1 qs H1 Hpk) as [Hw _].
  assert (is_u16 (tot_len q1)) as Hu.
  { destruct Hw as [[_ Hlt] _]. rewrite Ht1 in *. unfold is_u16. lia. }
  rewrite pseudo_chksum; [|by apply wf_chain_small|rewrite Hflat; by apply unsummed_u8|done|done|unfold is_u8, IP_PROTO_UDP; lia|done].
  rewrite Hflat, Ht1. fold (ChksumSpec.sent (rfc1071 (pseudo_header src dst IP_PROTO_UDP
    (8 + Z.of_nat (length (d ++ flat qs))) ++ udp_unsummed sport dport (d ++ flat qs)))).
  set (ck := ChksumSpec.sent _).
  assert (is_u16 ck) as Hck.
  { apply sent_u16, Forall_app. split; [|by apply unsummed_u8]. rewrite Ht1 in Hu. apply pseudo_header_u8; [unfold is_u8, IP_PROTO_UDP; lia|done]. }
  rewrite set_u16_eq by (unfold q1; simpl; lia). cbn [bind]. set (q2 := set_payload q1 _ _ _).
  exists q2. split; [done|]. split; [|by repeat split; try apply H1; rewrite Hq].
  unfold udp_datagram. fold ck. rewrite fill_eq by (rewrite ?unsummed_length; (lia || done)).
  rewrite flat_cons, <- Hflat, flat_cons. unfold q2, q1. cbn [payload set_payload]. done.
Qed.

(** ** A host: its memory, and the datagrams handed to IP

    The layers below keep the buffers of a packet and its reference counts;
    they prepend their headers. *)
Record host := Host { mem : pools; out : list (Z * Z * list Z) }.

Definition same_owner (p p' : pbuf) : Prop := pb_type p' = pb_type p /\ ref p' = ref p.

Definition host_req (e : op (unet F)) (s : host) : Prop :=
  match e : unetop F with
  | OnHeap e => mem_req e (mem s)
  | IpOutputIf q _ _ _ _ proto _ => packet q /\ proto = IP_PROTO_UDP
  | _ => True
  end.

Definition host_step (e : op (unet F)) (s : host) : ans (unet F) e -> host -> Prop :=
  match e as e return unet_ans e -> host -> Prop with
  | OnHeap e => fun x s' => mem_step e (mem s) x (mem s') /\ out s' = out s
  | IpOutputIf q src dst _ _ _ _ => fun x s' =>
    Forall2 same_owner q x.2 /\ mem s' = mem s /\ out s' = out s ++ [(src, dst, flat q)]
  | _ => fun _ s' => s' = s
  end.

Definition host_env : env (unet F) host := {| req := host_req; step := host_step |}.

Lemma wp_on_heap {A} (p : prog heap A) Q s :
  wp mem_env p (fun o m => Q o (Host m (out s))) (mem s) -> wp host_env (on_heap p) Q s.
Proof.
  intros Hp. unfold on_heap.
  apply (wp_embed mem_env host_env OnHeap (fun _ x => x) mem (fun m s => Host m (out s))).
  - by intros [].
  - done.
  - done.
  - done.
  - intros e [m o] x [m' o'] [Hs Ho]. cbn in *. by subst o'.
  - exact Hp.
Qed.

Lemma wp_stat {B} st (f : unit -> prog (unet F) B) Q s :
  wp host_env (f tt) Q s -> wp host_env (bind (stat st) f) Q s.
Proof. intros H. split; [done|]. intros [] s' ->. exact H. Qed.

(** The datagram is out, and the caller has its packet back. *)
Definition emitted (q : list pbuf) (src dst : Z) (d : list Z) (s : host) (o : outcome (Z * list pbuf)) (s' : host) : Prop :=
  exists err p', o = Done (err, p') /\ Forall2 same_owner q p' /\ mem s' = mem s /\ out s' = out s ++ [(src, dst, d)].

Lemma wp_emit_in_place p q src dst c n s : packet q ->
  wp host_env (emit false p q src dst c n) (emitted q src dst (flat q) s) s.
Proof.
  intros Hq. split; [done|]. intros [err q'] s' (Ho & Hm & Hout). cbn [bind snd] in *. cbn [drop_header bind].
  apply wp_stat. by exists err, q'.
Qed.

Lemma wp_emit_own hdr p src dst c n s m : packet (hdr :: pbuf_ref p) -> p <> [] -> ref hdr = 1 -> pb_type hdr = PBUF_RAM ->
  (forall p0, head p = Some p0 -> 0 < ref p0 < 2 ^ 16 - 1) -> mem s = take_block PBUF_RAM m ->
  wp host_env (emit true p (hdr :: pbuf_ref p) src dst c n)
    (emitted p src dst (flat (hdr :: pbuf_ref p)) (Host m (out s))) s.
Proof.
  intros Hq Hp Hr Ht Href Hm. destruct p as [|p0 ps]; [done|]. specialize (Href p0 eq_refl).
  split; [done|]. intros [err q'] s' (Ho & Hm' & Hout). cbn [snd] in Ho. cbn [bind].
  apply list.Forall2_cons_inv_l in Ho as (hdr' & q1 & [Ht' Hr'] & Ho & ->).
  apply list.Forall2_cons_inv_l in Ho as (p0' & ps' & [Ht0 Hr0] & Ho & ->). cbn [pb_type ref set_ref] in Ht0, Hr0.
  unfold drop_header, udp_pbuf_free. step_in. step_in. apply wp_bind.
  apply wp_on_heap. unfold release. cbn [release_loop]. rewrite Hr', Hr.
  change (u16 (1 - 1) =? 0) with true. cbv iota. rewrite Hm', Hm.
  replace PBUF_RAM with (pb_type hdr') by congruence. apply wp_deallocate. rewrite Hr0.
  rewrite (u16_id (ref p0 + 1)) by (unfold is_u16; lia). replace (ref p0 + 1 - 1) with (ref p0) by lia.
  rewrite u16_id by (unfold is_u16; lia). rewrite (proj2 (Z.eqb_neq (ref p0) 0)) by lia.
  cbn [wp andthen bind length Nat.eqb]. rewrite <- (Forall2_length Ho), Nat.sub_diag, drop_0. apply wp_stat.
  exists err, (set_ref p0' (ref p0) :: ps'). cbn [wp]. split; [done|]. split; [|done].
  constructor; [done|]. exact Ho.
Qed.

Lemma wp_emit_lone hdr p src dst c n s m : packet [hdr] -> ref hdr = 1 -> pb_type hdr = PBUF_RAM ->
  mem s = take_block PBUF_RAM m ->
  wp host_env (emit true p [hdr] src dst c n) (emitted p src dst (flat [hdr]) (Host m (out s))) s.
Proof.
  intros Hq Hr Ht Hm. split; [done|]. intros [err q'] s' (Ho & Hm' & Hout). cbn [snd] in Ho. cbn [bind].
  apply list.Forall2_cons_inv_l in Ho as (hdr' & q1 & [Ht' Hr'] & Ho & ->).
  apply list.Forall2_nil_inv_l in Ho as ->.
  unfold drop_header, udp_pbuf_free. step_in. step_in. apply wp_bind.
  apply wp_on_heap. unfold release. cbn [release_loop]. rewrite Hr', Hr.
  change (u16 (1 - 1) =? 0) with true. cbv iota. rewrite Hm', Hm.
  replace PBUF_RAM with (pb_type hdr') by congruence. apply wp_deallocate.
  cbn [wp andthen bind length Nat.eqb]. apply wp_stat.
  exists err, p. cbn [wp]. split; [done|]. split; [|done]. apply Forall_Forall2_diag, Forall_true. done.
Qed.

(** Room for the header in front of the payload. *)
Definition has_room (p : pbuf) : Prop :=
  (pb_type p = PBUF_RAM \/ pb_type p = PBUF_POOL) /\ (8 <= length (hidden p))%nat.

(** Moving the payload back over [n] hidden bytes. *)
Lemma header_front n p : pb_type p = PBUF_RAM \/ pb_type p = PBUF_POOL -> (n <= length (hidden p))%nat ->
  is_u16 (tot_len p + Z.of_nat n) -> exists p' h,
  pbuf_header p (Z.of_nat n) = Done (0, p') /\ payload p' = h ++ payload p /\ length h = n /\
    pb_type p' = pb_type p /\ ref p' = ref p /\ tot_len p' = tot_len p + Z.of_nat n /\ hidden p = hidden p' ++ h.
Proof.
  intros Ht Hh Hl. unfold pbuf_header. destruct (Z.eqb_spec (Z.of_nat n) 0) as [Hz|Hz].
  - exists p, []. assert (n = 0)%nat as -> by lia. rewrite app_nil_r. repeat split; lia.
  - rewrite (proj2 (Z.ltb_ge _ _)), Nat2Z.id by lia.
    exists (set_payload p (take (length (hidden p) - n) (hidden p))
      (drop (length (hidden p) - n) (hidden p) ++ payload p) (u16 (tot_len p + Z.of_nat n))),
      (drop (length (hidden p) - n) (hidden p)).
    split; [destruct Ht as [-> | ->]; by rewrite decide_False by lia|].
    split; [done|]. split; [rewrite length_drop; lia|]. split; [done|]. split; [done|].
    split; [by apply u16_id|]. cbn [hidden set_payload]. by rewrite take_drop.
Qed.

Lemma header_in_place p : has_room p -> is_u16 (tot_len p + 8) -> exists p' h,
  pbuf_header p UDP_HLEN = Done (0, p') /\ payload p' = h ++ payload p /\ length h = 8%nat /\
  pb_type p' = pb_type p /\ ref p' = ref p /\ tot_len p' = tot_len p + 8 /\ hidden p = hidden p' ++ h.
Proof. intros [Ht Hh] Hl. exact (header_front 8 p Ht Hh Hl). Qed.

Lemma header_elsewhere p : ~ has_room p -> pbuf_header p UDP_HLEN = Done (1, p).
Proof.
  intros Hn. unfold pbuf_header, UDP_HLEN. change (8 =? 0) with false. change (8 <? 0) with false. cbv iota zeta.
  change (Z.to_nat 8) with 8%nat. unfold has_room in Hn.
  destruct (pb_type p); try done; rewrite decide_True; (done || (destruct (decide (length (hidden p) < 8)%nat); [done|];
    exfalso; apply Hn; split; [auto|lia])).
Qed.

#[export] Instance has_room_dec p : Decision (has_room p).
Proof. unfold has_room. apply _. Defined.

Lemma packet_room p ps p' h : packet (p :: ps) -> payload p' = h ++ payload p ->
  ref p' = ref p -> tot_len p' = tot_len p + Z.of_nat (length h) -> tot_len p' < 2 ^ 16 -> packet (p' :: ps).
Proof.
  intros [[[Ht Hlt] Hw] Hl] Hp Hr Htl Hlt'. apply list.Forall_cons in Hl as [Hr' Hl]. split.
  - cbn [wf_chain]. rewrite flat_cons, length_app in *. rewrite Hp, length_app. split; [|done]. lia.
  - apply list.Forall_cons. by rewrite Hr.
Qed.

Lemma write_ports {B} q h d sport dport (k : pbuf -> prog (unet F) B) : payload q = h ++ d -> length h = 8%nat ->
  exists q' e f, (let! q := set_u16 q 0 (lwip_htons sport) in
    let! q := set_u16 q 2 (lwip_htons dport) in let! q := set_u16 q 6 0x0000 in k q) = k q' /\
  payload q' = be16 sport ++ be16 dport ++ [e; f] ++ [0; 0] ++ d /\ repaid q q'.
Proof.
  intros Hq Hh. do 8 (destruct h as [|? h]; [discriminate Hh|]). destruct h; [|discriminate Hh].
  rewrite set_u16_eq by (rewrite Hq; simpl; lia). rewrite le_bytes2_htons. cbn [bind]. rewrite Hq. cbn [take drop app Nat.add].
  rewrite set_u16_eq by (simpl; lia). rewrite le_bytes2_htons. cbn [bind payload set_payload take drop app Nat.add].
  rewrite set_u16_eq by (simpl; lia). cbn [bind payload set_payload take drop app Nat.add].
  eexists _, _, _. split; [reflexivity|]. split; [reflexivity|]. repeat split. rewrite Hq. done.
Qed.

Lemma chain_one hdr p ps : pbuf_chain [hdr] (p :: ps) =
  Done (set_tot_len hdr (u16 (tot_len hdr + tot_len p)) :: pbuf_ref (p :: ps)).
Proof. reflexivity. Qed.

(** What sending [data] has done when the caller's packet was [pp]: it is kept. *)
Definition sends (u : udp_state) (pp : list pbuf) (src dst sport dport : Z) (data : list Z) (s : host)
    (o : outcome (Z * list pbuf * udp_state)) (s' : host) : Prop :=
  exists err p', o = Done (err, p', u) /\ Forall2 same_owner pp p' /\ mem s' = mem s /\
    (err = ERR_MEM /\ out s' = out s \/ out s' = out s ++ [(src, dst, udp_datagram src dst sport dport data)]).

(** Once there is room [h] for the header. *)
Lemma wp_headed u c q qs h d own pp qp src dst dport n s st : payload q = h ++ d -> length h = 8%nat ->
  packet (q :: qs) -> Forall is_u8 (d ++ flat qs) -> is_u32 src -> is_u32 dst ->
  Z.land (flags c) UDP_FLAGS_NOCHKSUM = 0 ->
  (forall q', packet (q' :: qs) -> repaid q q' ->
     wp host_env (emit own pp (q' :: qs) src dst c n) (emitted qp src dst (flat (q' :: qs)) s) st) ->
  wp host_env (let! q := set_u16 q 0 (lwip_htons (local_port c)) in
      let! q := set_u16 q 2 (lwip_htons dport) in let! q := set_u16 q 6 0x0000 in
      let! (err, p) := send_datagram odd c q qs own pp src dst n in Ret (err, p, u))
    (sends u qp src dst (local_port c) dport (d ++ flat qs) s) st.
Proof.
  intros Hq Hh Hqpk H8 Hs32 Hd32 Hck Hemit.
  destruct (write_ports q h d (local_port c) dport
    (fun q => let! (err, p) := send_datagram odd c q qs own pp src dst n in Ret (err, p, u)) Hq Hh)
    as (q1 & e & f & -> & Hq1 & Hrp1).
  destruct (send_datagram_eq c q1 qs own pp src dst n (local_port c) dport e f d Hq1) as (q2 & -> & Hflat & Hrp2);
    [by eapply repaid_packet|done..|].
  apply wp_bind. eapply wp_mono; [apply Hemit|].
  - eapply repaid_packet; [exact Hrp2|]. by eapply repaid_packet.
  - destruct Hrp1 as (?&?&?&?&?), Hrp2 as (?&?&?&?&?). repeat split; congruence.
  - intros o s' (err & p' & -> & Ho & Hm & Hout). cbn [andthen wp].
    exists err, p'. rewrite Hflat in Hout. auto.
Qed.

(** With room for the header in front, the datagram is sent from the same pbufs. *)
Lemma sendto_if_in_place u pcb p ps dst dport n c src :
  blocks u !! pcb = Some c -> local_port c <> 0 -> Z.land (flags c) UDP_FLAGS_NOCHKSUM = 0 ->
  source_ip c n = Some src -> is_u32 src -> is_u32 dst -> has_room p ->
  packet (p :: ps) -> Forall is_u8 (flat (p :: ps)) -> tot_len p + 8 < 2 ^ 16 ->
  exists p' q, udp_sendto_if odd u pcb (p :: ps) dst dport n =
      (let! (err, p) := emit false (p' :: ps) (q :: ps) src dst c n in Ret (err, p, u)) /\
    flat (q :: ps) = udp_datagram src dst (local_port c) dport (flat (p :: ps)) /\ packet (q :: ps) /\
    pb_type q = pb_type p /\ hidden q = take (length (hidden p) - 8) (hidden p) /\ ref q = ref p /\ tot_len q = tot_len p + 8.
Proof.
  intros Hc Hport Hck Hsrc Hs32 Hd32 Hroom Hpk H8 Hlen.
  assert (0 <= tot_len p) as Ht0 by (destruct Hpk as [[[-> _] _] _]; lia).
  destruct (header_in_place p Hroom) as (p' & h & Hh & Hp & Hhl & Ht & Hr & Htl & Hhid); [unfold is_u16; lia|].
  assert (packet (p' :: ps)) as Hpk' by (eapply packet_room; try done; lia).
  destruct (write_ports p' h (payload p) (local_port c) dport
    (fun q => let! (err, p) := send_datagram odd c q ps false (p' :: ps) src dst n in Ret (err, p, u)) Hp Hhl)
    as (q1 & e & f & Heq & Hq1 & Hrp1).
  destruct (send_datagram_eq c q1 ps false (p' :: ps) src dst n (local_port c) dport e f (payload p) Hq1) as (q2 & Heq2 & Hflat & Hrp2);
    [by eapply repaid_packet|done..|].
  exists p', q2. split; [|split; [exact Hflat|split; [eapply repaid_packet; [exact Hrp2|]; by eapply repaid_packet|]]].
  2: { destruct Hrp1 as (A1 & A2 & A3 & A4 & _), Hrp2 as (B1 & B2 & B3 & B4 & _). rewrite B1, B2, B3, B4, A1, A2, A3, A4.
    split; [done|]. split; [|done]. rewrite Hhid, length_app, Hhl, Nat.add_sub. by rewrite take_app_length. }
  unfold udp_sendto_if, get_pcb. rewrite Hc. cbn [defined bind]. rewrite (proj2 (Z.eqb_neq _ _)) by done.
  cbn [bind]. change (negb (ERR_OK =? ERR_OK)) with false. cbv iota. rewrite Hc. cbn [defined bind].
  unfold add_header. rewrite Hh. cbn [of_outcome bind]. change (negb (0 =? 0)) with false. cbn [bind].
  rewrite Hsrc, Heq, Heq2. reflexivity.
Qed.

(** A pbuf of its own for the header. *)
Lemma header_alloc s (kont : option allocated -> prog (unet F) (Z * list pbuf * udp_state)) Q :
  wp host_env (kont None) Q s ->
  (forall hdr m, packet [hdr] -> length (payload hdr) = 8%nat -> ref hdr = 1 -> pb_type hdr = PBUF_RAM ->
     m = take_block PBUF_RAM (mem s) -> wp host_env (kont (Some (Chain [hdr]))) Q (Host m (out s))) ->
  wp host_env (let! q := on_heap (pbuf_alloc PBUF_IP UDP_HLEN PBUF_RAM) in kont q) Q s.
Proof.
  intros Hn Hs. apply wp_bind. apply wp_on_heap.
  eapply wp_mono; [apply (pbuf_alloc_allocates PBUF_IP UDP_HLEN PBUF_RAM); [unfold is_u16, UDP_HLEN; lia|unfold UDP_HLEN; lia]|].
  intros [[[[|hdr [|]]|]|]|] m; cbn [allocated_as andthen]; try (intros Ha; exfalso; tauto).
  - intros (Hhpk & Hun & Hty & _ & _ & Hfl & Hm). apply list.Forall_cons in Hun as [Hun _]. apply list.Forall_cons in Hty as [Hty _].
    apply Hs; try done; [rewrite flat_cons, app_nil_r in Hfl; unfold UDP_HLEN in Hfl; lia|].
    unfold holding in Hm. cbn [foldr] in Hm. by rewrite Hty in Hm.
  - intros (_ & _ & _ & _ & H1 & _). discriminate (H1 eq_refl).
  - intros ([[=]|[=]] & _).
  - intros ->. by destruct s.
Qed.

(** What a bound control block sends; the caller's packet is kept. *)
Lemma wp_sendto_if u pcb p ps dst dport n c src s :
  blocks u !! pcb = Some c -> local_port c <> 0 -> Z.land (flags c) UDP_FLAGS_NOCHKSUM = 0 ->
  source_ip c n = Some src -> is_u32 src -> is_u32 dst ->
  packet (p :: ps) -> Forall is_u8 (flat (p :: ps)) -> tot_len p + 8 < 2 ^ 16 -> ref p < 2 ^ 16 - 1 ->
  wp host_env (udp_sendto_if odd u pcb (p :: ps) dst dport n)
    (sends u (p :: ps) src dst (local_port c) dport (flat (p :: ps)) s) s.
Proof.
  intros Hc Hport Hck Hsrc Hs32 Hd32 Hpk H8 Hlen Href.
  assert (0 < ref p) as Hlive by (destruct Hpk as [_ Hl]; apply list.Forall_cons in Hl as [Hl _]; lia).
  assert (0 <= tot_len p) as Ht0 by (destruct Hpk as [[[-> _] _] _]; lia).
  unfold udp_sendto_if, get_pcb. rewrite Hc. cbn [defined bind]. rewrite (proj2 (Z.eqb_neq _ _)) by done.
  cbn [bind]. change (negb (ERR_OK =? ERR_OK)) with false. cbv iota. rewrite Hc. cbn [defined bind].
  unfold add_header. destruct (decide (has_room p)) as [Hroom|Hroom].
  - destruct (header_in_place p Hroom) as (p' & h & -> & Hp & Hh & Ht & Hr & Htl & _); [unfold is_u16; lia|].
    cbn [of_outcome bind]. change (negb (0 =? 0)) with false. cbn [bind]. rewrite Hsrc.
    apply (wp_headed u c p' ps h (payload p)); [done|done|eapply packet_room; try done; lia|done..|].
    intros q' Hq' (Ht' & _ & Hr' & _). eapply wp_mono; [by apply wp_emit_in_place|].
    intros o s' (err & p2 & -> & Ho & Hm & Hout). exists err, p2. split; [done|]. split; [|done].
    apply list.Forall2_cons_inv_l in Ho as (p3 & ps' & [Ht3 Hr3] & Ho & ->). constructor; [|done]. split; congruence.
  - rewrite header_elsewhere by done. cbn [of_outcome bind]. change (negb (1 =? 0)) with true. cbv iota.
    step_in. apply header_alloc.
    { cbn [bind wp]. exists ERR_MEM, (p :: ps). split; [done|]. split; [by apply Forall_Forall2_diag, Forall_true|]. auto. }
    intros hdr m Hhpk Hl8 Hun Hty Hm. assert (payload hdr = payload hdr ++ []) as Hpay by (by rewrite app_nil_r).
    destruct (Z.eqb_spec (tot_len p) 0) as [Hz|Hz]; cbn [negb].
    + assert (flat (p :: ps) = []) as Hnil by (apply length_zero_iff_nil; destruct Hpk as [[[Ht _] _] _]; lia).
      cbn [bind]. rewrite Hsrc, Hnil. apply (wp_headed u c hdr [] (payload hdr) []); [done..|].
      intros q' Hq' (Ht' & _ & Hr' & _). 
      eapply wp_mono; [apply wp_emit_lone with (m := mem s); [done|congruence|congruence|done]|]. intros o s' H. exact H.
    + rewrite chain_one. cbn [of_outcome bind pbuf_ref]. rewrite Hsrc. set (hdr1 := set_tot_len hdr _).
      assert (packet (hdr1 :: pbuf_ref (p :: ps))) as Hcpk.
      { destruct (pbuf_chain_eq [hdr] (p :: ps) Hhpk Hpk ltac:(done) ltac:(done)) as (r & Hr & Hrpk & _).
        - rewrite flat_cons, app_nil_r. destruct Hpk as [[[Ht _] _] _]. lia.
        - by intros p0 [= <-].
        - rewrite chain_one in Hr. injection Hr as <-. exact Hrpk. }
      rewrite <- (flat_ref (p :: ps)), <- (app_nil_l (flat (pbuf_ref (p :: ps)))).
      apply (wp_headed u c hdr1 (pbuf_ref (p :: ps)) (payload hdr) []); [done..|by rewrite flat_ref|done|done|done|].
      intros q' Hq' (Ht' & _ & Hr' & _). 
      eapply wp_mono; [apply wp_emit_own with (m := mem s);
        [done|done|rewrite Hr'; exact Hun|rewrite Ht'; exact Hty|intros p0 [= <-]; lia|exact Hm]|]. intros o s' H. exact H.
Qed.
End sending.

(** ** The ports of the active control blocks

    Every active control block is in memory, on the list once, and has a port;
    two with the same port have different addresses, neither of them any. *)
Definition apart (ca cb : udp_pcb) : Prop :=
  local_port ca = local_port cb ->
  local_ip ca <> IPADDR_ANY /\ local_ip cb <> IPADDR_ANY /\ local_ip ca <> local_ip cb.

Record ports_ok (u : udp_state) : Prop := {
  ports_nodup : NoDup (udp_pcbs u);
  ports_bound : forall a, a ∈ udp_pcbs u -> exists c, blocks u !! a = Some c /\ 0 < local_port c < 2 ^ 16;
  ports_apart : forall a b ca cb, a ∈ udp_pcbs u -> b ∈ udp_pcbs u -> a <> b ->
    blocks u !! a = Some ca -> blocks u !! b = Some cb -> apart ca cb
}.

Lemma apart_sym ca cb : apart ca cb -> apart cb ca.
Proof. unfold apart. intros H Hp. destruct (H (eq_sym Hp)) as (H1 & H2 & H3). auto. Qed.

(** ** Receiving *)

(** A control block that listens for [dport] at [dst] for any sender but one at
    its own remote port. *)
Record listens (u : udp_state) (pcb : Z) (c : udp_pcb) (dst sport dport : Z) : Prop := {
  on_active : pcb ∈ udp_pcbs u;
  in_memory : blocks u !! pcb = Some c;
  at_port : local_port c = dport;
  at_address : local_ip c = IPADDR_ANY \/ local_ip c = dst;
  unconnected : Z.land (flags c) UDP_FLAGS_CONNECTED = 0;
  other_remote : remote_port c <> sport
}.

Section receiving.
Context {F : Sig} (odd : list pbuf -> nat -> bool).
Context (callback : Z -> Z -> Z -> list pbuf -> Z -> Z -> udp_state -> prog (unet F) udp_state).

Lemma match_loop_none u src dest isrc idest before l uncon :
  (forall a, a ∈ l -> exists c, blocks u !! a = Some c /\ local_match c dest false idest = false) ->
  @match_loop F u src dest false isrc idest before l uncon = Ret (uncon, u).
Proof.
  revert before. induction l as [|a l IH]; intros before Hl; [done|]. cbn [match_loop].
  destruct (Hl a ltac:(left)) as (c & Hc & Hm). unfold get_pcb. rewrite Hc. cbn [defined bind]. rewrite Hm. cbn [andb].
  apply IH. intros b Hb. apply Hl. by right.
Qed.

Lemma match_loop_listener u pcb c src dest isrc idest before l : pcb ∈ l -> NoDup l ->
  blocks u !! pcb = Some c -> local_match c dest false idest = true -> remote_match c src isrc = false ->
  Z.land (flags c) UDP_FLAGS_CONNECTED = 0 ->
  (forall a, a ∈ l -> a <> pcb -> exists ca, blocks u !! a = Some ca /\ local_match ca dest false idest = false) ->
  @match_loop F u src dest false isrc idest before l None = Ret (Some pcb, u).
Proof.
  intros Hin Hnd Hc Hl Hr Hf. revert before Hin Hnd. induction l as [|a l IH]; intros before Hin Hnd Ho; [by apply not_elem_of_nil in Hin|].
  apply list.NoDup_cons in Hnd as [Ha Hnd]. cbn [match_loop]. destruct (decide (a = pcb)) as [->|Hne].
  - unfold get_pcb. rewrite Hc. cbn [defined bind]. rewrite Hl, Hr, Hf. cbn [andb]. change (0 =? 0) with true. cbv iota.
    apply match_loop_none. intros b Hb. apply Ho; [by right|]. by intros ->.
  - destruct (Ho a ltac:(left) Hne) as (ca & Hca & Hm). unfold get_pcb. rewrite Hca. cbn [defined bind]. rewrite Hm. cbn [andb].
    apply IH; [|done|]. { apply elem_of_cons in Hin as [->|Hin]; [done|exact Hin]. }
    intros b Hb. apply Ho. by right.
Qed.

Lemma listener_found u inp pcb c dst sport dport isrc : ports_ok u -> listens u pcb c dst sport dport ->
  dport <> DHCP_CLIENT_PORT ->
  @find_pcb F u inp sport dport false isrc dst = Ret (Some pcb, u).
Proof.
  intros Hok [Hin Hc Hp Ha Hf Hr] Hd. unfold find_pcb. rewrite (proj2 (Z.eqb_neq _ _)) by done.
  apply (match_loop_listener u pcb c); [done|apply Hok|done| | |done|].
  - unfold local_match, ip_addr_isany, ip_addr_cmp. rewrite Hp, Z.eqb_refl. cbn [negb andb].
    destruct Ha as [-> | ->]; [done|]. rewrite Z.eqb_refl. by rewrite orb_true_r.
  - unfold remote_match. by rewrite (proj2 (Z.eqb_neq _ _)).
  - intros a Hal Hne. destruct (ports_bound u Hok a Hal) as (ca & Hca & _). exists ca. split; [done|].
    unfold local_match, ip_addr_isany, ip_addr_cmp. destruct (Z.eqb_spec (local_port ca) dport) as [He|]; [|done].
    destruct (ports_apart u Hok a pcb ca c Hal Hin Hne Hca Hc ltac:(congruence)) as (H1 & H2 & H3).
    destruct Ha as [Ha|Ha]; [done|]. rewrite (proj2 (Z.eqb_neq _ _)) by done.
    by rewrite (proj2 (Z.eqb_neq (local_ip ca) dst)) by congruence.
Qed.

(** An IP header, of which UDP reads the length. *)
Definition ip_header (ip : list Z) : Prop :=
  Forall is_u8 ip /\ exists b0 b1 r, ip = b0 :: b1 :: r /\ b0 mod 16 * 4 = Z.of_nat (length ip).

Lemma header_length ip p r : ip_header ip -> payload p = ip ++ r -> exists v, @get_u16 F p 0 = Ret v /\
  Z.land (Z.shiftr (lwip_ntohs v) 8) 0x0f * 4 = Z.of_nat (length ip).
Proof.
  intros [H8 (b0 & b1 & r' & -> & Hl)] Hp. rewrite get_u16_eq by (rewrite Hp; simpl; lia). eexists. split; [reflexivity|].
  rewrite Hp. cbn [drop take app]. rewrite ntohs_le.
  2: { apply (Forall_take _ 2) in H8. exact H8. }
  apply list.Forall_cons in H8 as [Hb0 H8]. apply list.Forall_cons in H8 as [Hb1 _]. unfold is_u8 in Hb0, Hb1.
  unfold be_value. cbn [fold_left]. change 0x0f with (Z.ones 4). rewrite Z.land_ones, Z.shiftr_div_pow2 by lia.
  change (2 ^ 8) with 256. change (2 ^ 4) with 16. rewrite <- Hl. f_equal. f_equal. Z.to_euclidean_division_equations. lia.
Qed.

(** The head of a packet without its first [n] bytes. *)
Definition behind (n : nat) (p p' : pbuf) : Prop :=
  payload p' = drop n (payload p) /\ hidden p' = hidden p ++ take n (payload p) /\
  pb_type p' = pb_type p /\ ref p' = ref p /\ tot_len p' = tot_len p - Z.of_nat n.

Lemma header_strip p ps n : packet (p :: ps) -> (n <= length (payload p))%nat -> exists p',
  pbuf_header p (- Z.of_nat n) = Done (0, p') /\ behind n p p' /\ packet (p' :: ps).
Proof.
  intros Hpk Hn. pose proof Hpk as [[[Ht Hlt] _] _]. rewrite flat_cons, length_app in Ht.
  destruct (pbuf_header_hide p n) as (p' & Hh & Hp & Hhd & Hty & Hr & Htl); [unfold is_u16; lia|done|].
  specialize (Htl ltac:(unfold is_u16; lia)). exists p'. split; [done|]. split; [done|].
  destruct (packet_header p ps (- Z.of_nat n) p' 0 Hpk) as [H _]; [unfold is_u16; lia|lia|done|exact H].
Qed.

Lemma take_flat {n p ps} : (n <= length (payload p))%nat -> take n (payload p) = take n (flat (p :: ps)).
Proof. intros Hn. by rewrite flat_cons, take_app_le. Qed.

Lemma drop_flat {n p ps} : (n <= length (payload p))%nat -> drop n (payload p) ++ flat ps = drop n (flat (p :: ps)).
Proof. intros Hn. by rewrite flat_cons, drop_app_le. Qed.

(** The fields of the datagram that a packet holds. *)
Lemma port_fields p ps sport dport d : is_u16 sport -> is_u16 dport ->
  flat (p :: ps) = d -> take 4 d = be16 sport ++ be16 dport -> (8 <= length (payload p))%nat ->
  exists v w, @get_u16 F p 0 = Ret v /\ @get_u16 F p 2 = Ret w /\ @get_u16 F p 6 = Ret (le_val (take 2 (drop 6 d))) /\
    lwip_ntohs v = sport /\ lwip_ntohs w = dport.
Proof.
  intros Hs Hd Hf H4 Hl. exists (le_val (be16 sport)), (le_val (be16 dport)).
  rewrite <- Hf, <- take_flat in H4 by lia.
  assert (take 2 (payload p) = be16 sport) as H0.
  { transitivity (take 2 (take 4 (payload p))); [by rewrite take_take|]. by rewrite H4. }
  assert (take 2 (drop 2 (payload p)) = be16 dport) as H2.
  { rewrite take_drop_commute. change (2 + 2)%nat with 4%nat. by rewrite H4. }
  assert (take 2 (drop 6 (payload p)) = take 2 (drop 6 d)) as H6.
  { rewrite <- Hf, !take_drop_commute. by rewrite <- take_flat. }
  rewrite !get_u16_eq by lia. rewrite drop_0, H0, H2, H6. split; [done|]. split; [done|]. split; [done|].
  split; by apply ntohs_be.
Qed.

Lemma datagram_verifies q src dst sport dport data : packet q -> Forall is_u8 data -> is_u32 src -> is_u32 dst ->
  flat q = udp_datagram src dst sport dport data ->
  inet_chksum_pseudo (odd q) q src dst IP_PROTO_UDP (Z.of_nat (length (flat q))) = 0.
Proof.
  intros Hq H8 Hs Hd Hf. assert (is_u16 (Z.of_nat (length (flat q)))) as Hu.
  { destruct q as [|p q]; [unfold is_u16; simpl; lia|]. destruct Hq as [[[Ht Hlt] _] _]. unfold is_u16. lia. }
  assert (is_u8 IP_PROTO_UDP) as Hp by (unfold is_u8, IP_PROTO_UDP; lia).
  assert (Z.of_nat (length (flat q)) = 8 + Z.of_nat (length data)) as Hl by (rewrite Hf, datagram_length; lia).
  rewrite Hl in *. pose proof (pseudo_header_u8 src dst IP_PROTO_UDP (8 + Z.of_nat (length data)) Hp Hu) as Hh.
  pose proof (unsummed_u8 sport dport data H8) as Hun.
  rewrite pseudo_chksum; [|by apply wf_chain_small, Hq| |done..].
  - rewrite Hf. by apply filled_verifies.
  - rewrite Hf. apply fill_u8; [done|]. by apply sent_u16, Forall_app.
Qed.

(** From a packet for a listener to the check of its checksum. *)
Lemma udp_input_checks u p ps inp ip src dst sport dport d pcb c f :
  packet (p :: ps) -> flat (p :: ps) = ip ++ d -> take 4 d = be16 sport ++ be16 dport ->
  ip_header ip -> (length ip + 8 <= length (payload p))%nat -> is_u16 sport -> is_u16 dport ->
  ip4_addr_isbroadcast dst inp = false -> dport <> DHCP_CLIENT_PORT ->
  ports_ok u -> listens u pcb c dst sport dport -> recv c = Some f ->
  exists p1 p2, behind (length ip) p p1 /\ packet (p1 :: ps) /\ flat (p1 :: ps) = d /\
    behind 8 p1 p2 /\ packet (p2 :: ps) /\ flat (p2 :: ps) = drop 8 d /\
    udp_input odd callback u (p :: ps) inp src dst =
      (stat StatRecv;;
       if negb (le_val (take 2 (drop 6 d)) =? 0)
          && negb (inet_chksum_pseudo (odd (p1 :: ps)) (p1 :: ps) src dst IP_PROTO_UDP (Z.of_nat (length d)) =? 0)
       then discard StatChkerr (p1 :: ps) u
       else callback f (recv_arg c) pcb (p2 :: ps) src sport u).
Proof.
  intros Hpk Hf H4 Hip Hl Hsp Hdp Hb H68 Hok Hlis Hrecv.
  assert (payload p = ip ++ drop (length ip) (payload p)) as Hpay.
  { rewrite <- (take_drop (length ip) (payload p)) at 1. f_equal.
    rewrite (take_flat (ps := ps)), Hf, take_app_length by lia. done. }
  destruct (header_length ip p _ Hip Hpay) as (v & Hv & Hhl).
  destruct (header_strip p ps (length ip) Hpk ltac:(lia)) as (p1 & Hh1 & Hp1 & Hpk1).
  assert (flat (p1 :: ps) = d) as Hf1.
  { rewrite flat_cons, (proj1 Hp1), drop_flat, Hf, drop_app_length by lia. done. }
  assert (8 <= length (payload p1))%nat as Hl1 by (rewrite (proj1 Hp1), length_drop; lia).
  destruct (header_strip p1 ps 8 Hpk1 Hl1) as (p2 & Hh2 & Hp2 & Hpk2).
  destruct (port_fields p1 ps sport dport d Hsp Hdp Hf1 H4 Hl1) as (w & x & Hw & Hx & Hck & Hws & Hxd).
  assert (Z.of_nat (length ip) + 8 <= tot_len p) as Htot.
  { destruct Hpk as [[[-> _] _] _]. rewrite flat_cons, length_app. lia. }
  exists p1, p2. split; [done|]. split; [done|]. split; [done|]. split; [done|]. split; [done|]. split.
  { rewrite flat_cons, (proj1 Hp2), drop_flat by done. by rewrite Hf1. }
  unfold udp_input. rewrite Hv. cbn [bind]. rewrite Hhl. rewrite (proj2 (Z.ltb_ge _ _)) by (unfold UDP_HLEN; lia).
  rewrite Hh1. cbn [of_outcome bind]. change (negb (0 =? 0)) with false. cbv iota. rewrite Hb, Hw. cbn [bind].
  rewrite Hx. cbn [bind]. rewrite Hws, Hxd, (listener_found u inp pcb c) by done. cbn [bind].
  rewrite Hck. cbn [bind]. replace (tot_len p1) with (Z.of_nat (length d)) by (destruct Hpk1 as [[[-> _] _] _]; by rewrite Hf1).
  change (- UDP_HLEN) with (- Z.of_nat 8). rewrite Hh2. cbn [of_outcome bind]. change (negb (0 =? 0)) with false. cbv iota.
  unfold deliver, get_pcb. rewrite (in_memory _ _ _ _ _ _ Hlis). cbn [defined bind]. by rewrite Hrecv.
Qed.

(** A datagram for a listener is its, without its headers. *)
Lemma udp_input_delivers u p ps inp ip src dst sport dport data pcb c f :
  packet (p :: ps) -> flat (p :: ps) = ip ++ udp_datagram src dst sport dport data ->
  ip_header ip -> (length ip + 8 <= length (payload p))%nat ->
  Forall is_u8 data -> is_u32 src -> is_u32 dst -> is_u16 sport -> is_u16 dport ->
  ip4_addr_isbroadcast dst inp = false -> dport <> DHCP_CLIENT_PORT ->
  ports_ok u -> listens u pcb c dst sport dport -> recv c = Some f ->
  exists p', udp_input odd callback u (p :: ps) inp src dst =
      (stat StatRecv;; callback f (recv_arg c) pcb (p' :: ps) src sport u) /\
    behind (length ip + 8) p p' /\ packet (p' :: ps) /\ flat (p' :: ps) = data.
Proof.
  intros Hpk Hf Hip Hl H8 Hs Hd Hsp Hdp Hb H68 Hok Hlis Hrecv.
  destruct (datagram_fields src dst sport dport data) as (ck & H4 & Hdata & _).
  destruct (udp_input_checks u p ps inp ip src dst sport dport _ pcb c f Hpk Hf H4 Hip Hl Hsp Hdp Hb H68 Hok Hlis Hrecv)
    as (p1 & p2 & Hp1 & Hpk1 & Hf1 & Hp2 & Hpk2 & Hf2 & ->).
  exists p2. split; [|split; [|split; [done|by rewrite Hf2]]].
  - pose proof (datagram_verifies (p1 :: ps) src dst sport dport data Hpk1 H8 Hs Hd Hf1) as Hz. rewrite Hf1 in Hz.
    rewrite Hz. by rewrite andb_false_r.
  - destruct Hp1 as (A1 & A2 & A3 & A4 & A5), Hp2 as (B1 & B2 & B3 & B4 & B5).
    split; [by rewrite B1, A1, drop_drop|]. split; [rewrite B2, A2, A1, <- app_assoc; f_equal; by rewrite take_take_drop|].
    split; [congruence|]. split; [congruence|]. lia.
Qed.
End receiving.

(** ** From one host to another *)

(** Whoever listens at [dst] and [dport] gets the datagram [d] as [data] from
    [src] and [sport], in whatever pbufs it comes if its headers are in the
    first one. *)
Definition delivered_as {F} (odd : list pbuf -> nat -> bool) callback (d : list Z) (src sport dst dport : Z)
    (data : list Z) : Prop :=
  forall u p ps inp ip pcb c f, packet (p :: ps) -> flat (p :: ps) = ip ++ d ->
    ip_header ip -> (length ip + 8 <= length (payload p))%nat -> ip4_addr_isbroadcast dst inp = false ->
    ports_ok u -> listens u pcb c dst sport dport -> recv c = Some f ->
    exists p', @udp_input F odd callback u (p :: ps) inp src dst =
        (stat StatRecv;; callback f (recv_arg c) pcb (p' :: ps) src sport u) /\
      packet (p' :: ps) /\ flat (p' :: ps) = data.

(** What a bound control block sends to a port other than the DHCP client's
    another host delivers: [udp_sendto_if] hands IP one datagram and keeps the
    caller's packet with its reference counts, or reports that there was no
    memory for the header and has sent nothing; in both cases it has given all
    memory back.  [udp_input] passes that datagram, whatever pbufs it came in,
    to the callback of the control block that listens there, with exactly the
    bytes sent and the sender's address and port. *)
Theorem udp_round_trip {F G} odd odd' callback u pcb p ps dst dport n c src s :
  blocks u !! pcb = Some c -> 0 < local_port c < 2 ^ 16 -> Z.land (flags c) UDP_FLAGS_NOCHKSUM = 0 ->
  source_ip c n = Some src -> is_u32 src -> is_u32 dst -> is_u16 dport -> dport <> DHCP_CLIENT_PORT ->
  packet (p :: ps) -> Forall is_u8 (flat (p :: ps)) -> tot_len p + 8 < 2 ^ 16 -> ref p < 2 ^ 16 - 1 ->
  wp host_env (@udp_sendto_if F odd u pcb (p :: ps) dst dport n)
    (fun o s' => exists err p', o = Done (err, p', u) /\ Forall2 same_owner (p :: ps) p' /\ mem s' = mem s /\
       (err = ERR_MEM /\ out s' = out s \/
        exists d, out s' = out s ++ [(src, dst, d)] /\
          @delivered_as G odd' callback d src (local_port c) dst dport (flat (p :: ps)))) s.
Proof.
  intros Hc Hport Hck Hsrc Hs Hd Hdp H68 Hpk H8 Hlen Href.
  eapply wp_mono; [apply (wp_sendto_if odd u pcb p ps dst dport n c src s); (done || lia)|].
  intros o s' (err & p' & -> & Ho & Hm & Hout). exists err, p'. split; [done|]. split; [done|]. split; [done|].
  destruct Hout as [?|Hout]; [by left|]. right. eexists. split; [exact Hout|].
  intros u2 r rs inp ip pcb2 c2 f Hr Hf Hip Hl Hb Hok Hlis Hrecv.
  destruct (udp_input_delivers odd' callback u2 r rs inp ip src dst (local_port c) dport (flat (p :: ps)) pcb2 c2 f)
    as (r' & Heq & _ & Hpk' & Hf'); try done; [unfold is_u16; lia|]. by exists r'.
Qed.

Lemma lookup_take_drop {A} (l l' : list A) k n j v : (j < k \/ k + n <= j)%nat -> l' = <[j := v]> l ->
  take n (drop k l') = take n (drop k l).
Proof.
  intros Hj ->. destruct Hj as [Hj|Hj].
  - by rewrite drop_insert_lt by done.
  - rewrite drop_insert_ge by lia. apply take_insert_ge. lia.
Qed.

(** A datagram whose length field or data was changed in one byte on the
    way is not delivered: [udp_input] counts a checksum error, drops the packet
    and gives its memory back. *)
Theorem udp_corrupted_discarded {F} odd callback u p ps inp ip src dst sport dport data pcb c f j old v :
  packet (p :: ps) -> flat (p :: ps) = ip ++ <[j := v]> (udp_datagram src dst sport dport data) ->
  udp_datagram src dst sport dport data !! j = Some old -> is_u8 v -> v <> old -> (4 <= j)%nat -> j <> 6%nat -> j <> 7%nat ->
  ip_header ip -> (length ip + 8 <= length (payload p))%nat ->
  Forall is_u8 data -> is_u32 src -> is_u32 dst -> is_u16 sport -> is_u16 dport ->
  ip4_addr_isbroadcast dst inp = false -> dport <> DHCP_CLIENT_PORT ->
  ports_ok u -> listens u pcb c dst sport dport -> recv c = Some f ->
  exists p1, behind (length ip) p p1 /\ packet (p1 :: ps) /\
    @udp_input F odd callback u (p :: ps) inp src dst =
      (stat StatRecv;; stat StatChkerr;; stat StatDrop;; let! _ := udp_pbuf_free (p1 :: ps) in Ret u).
Proof.
  intros Hpk Hf Hold Hv Hne H4j H6j H7j Hip Hl H8 Hs Hd Hsp Hdp Hb H68 Hok Hlis Hrecv.
  set (d := udp_datagram src dst sport dport data) in *.
  destruct (datagram_fields src dst sport dport data) as (ck & H4 & _ & Hckdef & Hck). fold d in H4, Hck.
  assert (take 4 (<[j := v]> d) = be16 sport ++ be16 dport) as H4'.
  { rewrite <- H4. exact (lookup_take_drop d _ 0 4 j v ltac:(lia) eq_refl). }
  destruct (udp_input_checks odd callback u p ps inp ip src dst sport dport _ pcb c f Hpk Hf H4' Hip Hl Hsp Hdp Hb H68 Hok Hlis Hrecv)
    as (p1 & p2 & Hp1 & Hpk1 & Hf1 & _ & _ & _ & ->).
  exists p1. split; [done|]. split; [done|].
  assert (is_u16 (8 + Z.of_nat (length data))) as Hu.
  { destruct Hpk1 as [[[Ht Hlt] _] _]. rewrite Hf1, length_insert in Ht. unfold d in Ht. rewrite datagram_length in Ht. unfold is_u16. lia. }
  pose proof (pseudo_header_u8 src dst IP_PROTO_UDP (8 + Z.of_nat (length data)) ltac:(unfold is_u8, IP_PROTO_UDP; lia) Hu) as Hh8.
  pose proof (unsummed_u8 sport dport data H8) as Hun.
  assert (is_u16 ck) as Hcku by (rewrite Hckdef; by apply sent_u16, Forall_app).
  assert (Forall is_u8 d) as Hd8 by (apply fill_u8; [done|by rewrite <- Hckdef]).
  rewrite (lookup_take_drop d _ 6 2 j v ltac:(lia) eq_refl), Hck.
  assert (le_val [ck mod 256; ck / 256] <> 0) as Hnz.
  { pose proof (sent_nonzero (rfc1071 (pseudo_header src dst IP_PROTO_UDP (8 + Z.of_nat (length data)) ++ udp_unsummed sport dport data))) as Hz.
    rewrite <- Hckdef in Hz. cbn [le_val]. unfold is_u16 in Hcku. Z.to_euclidean_division_equations. lia. }
  rewrite (proj2 (Z.eqb_neq _ _) Hnz). rewrite length_insert. unfold d at 1. rewrite datagram_length.
  replace (Z.of_nat (8 + length data)) with (8 + Z.of_nat (length data)) by lia.
  rewrite pseudo_chksum; [|by apply wf_chain_small, Hpk1|rewrite Hf1; by apply insert_u8|done|done|unfold is_u8, IP_PROTO_UDP; lia|done].
  rewrite Hf1, (proj2 (Z.eqb_neq _ _)); [done|].
  apply (changed_byte_detected _ _ _ old); try done. by apply filled_verifies.
Qed.

(** ** Witnesses *)

Definition sample_pcb (port : Z) : udp_pcb := UdpPcb 0 0 0 0 UDP_TTL 0 port 0 (Some 7) 0.
Definition sample_state (port : Z) : udp_state := UdpState {[ 1 := sample_pcb port ]} [1].
Definition sample_netif : netif := Netif 1 0x0100a8c0 0x00ffffff NETIF_FLAG_BROADCAST None 1500 0 [2; 0; 0; 0; 0; 1].
Definition sample_callback (f arg pcb : Z) (p : list pbuf) (addr port : Z) (u : udp_state) : prog (unet hw) udp_state := Ret u.
Definition sample_ip : list Z := [0x45; 0; 0; 33; 0; 0; 0; 0; 255; 17; 0; 0; 192; 168; 0; 1; 192; 168; 0; 2].

Lemma sample_ports port : 0 < port < 2 ^ 16 -> ports_ok (sample_state port).
Proof.
  intros Hp. split; cbn [sample_state udp_pcbs blocks].
  - apply NoDup_singleton.
  - intros a ->%list_elem_of_singleton. exists (sample_pcb port). by rewrite lookup_singleton_eq.
  - by intros a b ca cb ->%list_elem_of_singleton ->%list_elem_of_singleton.
Qed.

Lemma sample_listens port sport : sport <> 0 -> listens (sample_state port) 1 (sample_pcb port) 0x0200a8c0 sport port.
Proof. intros Hs. split; cbn; [left|by rewrite lookup_singleton_eq|done|by left|done|done]. Qed.

Lemma udp_round_trip_witness :
  let p := Pbuf PBUF_RAM (replicate 40 0) [1; 2; 3] 5 1 in
  let ps := [Pbuf PBUF_POOL [] [4; 5] 2 1] in
  let s := Host (Pools 0 0 0) [] in
  wp host_env (@udp_sendto_if hw (fun _ _ => false) (sample_state 2000) 1 (p :: ps) 0x0200a8c0 2001 sample_netif)
    (fun o s' => exists err p', o = Done (err, p', sample_state 2000) /\ Forall2 same_owner (p :: ps) p' /\ mem s' = mem s /\
       (err = ERR_MEM /\ out s' = out s \/
        exists d, out s' = out s ++ [(0x0100a8c0, 0x0200a8c0, d)] /\
          delivered_as (fun _ _ => true) sample_callback d 0x0100a8c0 2000 0x0200a8c0 2001 [1; 2; 3; 4; 5])) s.
Proof.
  intros p ps s.
  apply (udp_round_trip (fun _ _ => false) (fun _ _ => true) sample_callback (sample_state 2000) 1 p ps
    0x0200a8c0 2001 sample_netif (sample_pcb 2000) 0x0100a8c0 s); try done;
    try (unfold is_u32, is_u16, DHCP_CLIENT_PORT; cbn; lia).
  - split; [repeat split|repeat (apply list.Forall_cons; split; [cbn; lia|]); constructor].
  - unfold is_u8, flat. cbn. repeat (apply list.Forall_cons; split; [lia|]). constructor.
Defined.

Lemma udp_corrupted_discarded_witness :
  let d := udp_datagram 0x0100a8c0 0x0200a8c0 2000 2001 [1; 2; 3; 4; 5] in
  let p := Pbuf PBUF_POOL [] (sample_ip ++ <[10%nat := 77]> d) 33 1 in
  exists p1, behind 20 p p1 /\ packet [p1] /\
    udp_input (fun _ _ => true) sample_callback (sample_state 2001) [p] (Netif 1 0x0200a8c0 0x00ffffff 2 None 1500 0 [2; 0; 0; 0; 0; 2]) 0x0100a8c0 0x0200a8c0 =
      (stat StatRecv;; stat StatChkerr;; stat StatDrop;; let! _ := udp_pbuf_free [p1] in Ret (sample_state 2001)).
Proof.
  intros d p.
  apply (udp_corrupted_discarded (fun _ _ => true) sample_callback (sample_state 2001) p [] (Netif 1 0x0200a8c0 0x00ffffff 2 None 1500 0 [2; 0; 0; 0; 0; 2])
    sample_ip 0x0100a8c0 0x0200a8c0 2000 2001 [1; 2; 3; 4; 5] 1 (sample_pcb 2001) 7 10%nat 3 77); try done;
    try (unfold is_u32, is_u16, is_u8, DHCP_CLIENT_PORT; lia).
  - split; [split; [split; [vm_compute; reflexivity|vm_compute; reflexivity]|done]|].
    apply list.Forall_cons. split; [cbn; lia|constructor].
  - split; [unfold is_u8, sample_ip; repeat (apply list.Forall_cons; split; [lia|]); constructor|].
    exists 0x45, 0. eexists. split; [reflexivity|]. vm_compute. reflexivity.
  - cbn. lia.
  - unfold is_u8. repeat (apply list.Forall_cons; split; [lia|]). constructor.
  - apply sample_ports. lia.
  - by apply sample_listens.
Defined.
