(* ===== verification/LwipUdpPorts.v ===== *)
(** * The ports of UDP stay apart

    Programs over the interface of UDP, linked to LwipUdp.v: a program that keeps
    to the rules of the interface, with callbacks that do when packets arrive,
    never makes the stack fail, and no two active control blocks take each
    other's datagrams. *)

From stdpp Require Import fin_maps gmap fin_map_dom.
From S2P Require Import Prelude Prog Pbuf PbufAlloc Chksum LwipUdp LwipUdpSpec.

(** ** The interface *)

Section interface.
Context {F : Sig}.

Inductive udp_api :=
| ApiNew
| ApiBind (pcb ipaddr port : Z)
| ApiConnect (pcb ipaddr port : Z)
| ApiDisconnect (pcb : Z)
| ApiRecv (pcb : Z) (recv : option Z) (recv_arg : Z)
| ApiRemove (pcb : Z)
| ApiSend (pcb : Z) (p : list pbuf)
| ApiSendto (pcb : Z) (p : list pbuf) (dst_ip dst_port : Z)
| ApiHeap (e : memop)
| ApiLower (e : op F).

Definition udp_api_ans (e : udp_api) : Type :=
  match e with
  | ApiNew => option Z
  | ApiBind _ _ _ | ApiConnect _ _ _ => Z
  | ApiSend _ _ | ApiSendto _ _ _ _ => Z * list pbuf
  | ApiHeap e => mem_ans e
  | ApiLower e => ans F e
  | _ => unit
  end.

Definition uapi : Sig := {| op := udp_api; ans := udp_api_ans |}.

Context (odd : list pbuf -> nat -> bool).

Definition keeping {A} (u : udp_state) (p : prog (unet F) A) : prog (unet F) (A * udp_state) :=
  let! x := p in Ret (x, u).
Definition updating (p : prog (unet F) udp_state) : prog (unet F) (unit * udp_state) :=
  let! u := p in Ret (tt, u).

Definition api_code (e : op uapi) : udp_state -> prog (unet F) (ans uapi e * udp_state) :=
  match e as e return udp_state -> prog (unet F) (udp_api_ans e * udp_state) with
  | ApiNew => udp_new
  | ApiBind pcb a port => fun u => udp_bind u pcb a port
  | ApiConnect pcb a port => fun u => udp_connect u pcb a port
  | ApiDisconnect pcb => fun u => updating (udp_disconnect u pcb)
  | ApiRecv pcb f arg => fun u => updating (udp_recv u pcb f arg)
  | ApiRemove pcb => fun u => updating (udp_remove u pcb)
  | ApiSend pcb p => fun u => udp_send odd u pcb p
  | ApiSendto pcb p dst port => fun u => udp_sendto odd u pcb p dst port
  | ApiHeap e => fun u => keeping u (ucall (OnHeap e))
  | ApiLower e => fun u => keeping u (ucall (Lower e))
  end.

(** The callbacks of the applications, and a packet for UDP. *)
Context (apps : Z -> Z -> Z -> list pbuf -> Z -> Z -> prog uapi unit).

Definition app_callback (f arg pcb : Z) (p : list pbuf) (addr port : Z) (u : udp_state) : prog (unet F) udp_state :=
  let! (_, u) := interp_st api_code (apps f arg pcb p addr port) u in Ret u.

Inductive host_op :=
| Client (e : udp_api)
| Arrives (p : list pbuf) (inp : netif) (isrc idest : Z).

Definition host_ans (e : host_op) : Type :=
  match e with Client e => udp_api_ans e | Arrives _ _ _ _ => unit end.

Definition uhost : Sig := {| op := host_op; ans := host_ans |}.

Definition host_code (e : op uhost) : udp_state -> prog (unet F) (ans uhost e * udp_state) :=
  match e as e return udp_state -> prog (unet F) (host_ans e * udp_state) with
  | Client e => api_code e
  | Arrives p inp isrc idest => fun u => updating (udp_input odd app_callback u p inp isrc idest)
  end.
End interface.

(** ** The pool of control blocks *)

Definition MEMP_NUM_UDP_PCB : nat := 2.

(** A block of the heap is as long as was asked for. *)
Definition heap_answers (e : memop) : mem_ans e -> Prop :=
  match e as e return mem_ans e -> Prop with
  | MemMalloc n => fun r => forall b : list Z, r = Some b -> Z.of_nat (length b) = n - SIZEOF_STRUCT_PBUF
  | _ => fun _ => True
  end.

(** A block that was not handed out, or none. *)
Definition obtained (r : option Z) (s s' : gset Z) : Prop :=
  (r = None /\ s' = s) \/
  (exists a, r = Some a /\ (a ∉ s) /\ (size s < MEMP_NUM_UDP_PCB)%nat /\ s' = ({[ a ]} ∪ s)).

(** The blocks that have been handed out. *)
Definition pool_step {F} (e : op (unet F)) (s : gset Z) : ans (unet F) e -> gset Z -> Prop :=
  match e as e return unet_ans e -> gset Z -> Prop with
  | PcbMalloc => fun r s' => obtained r s s'
  | PcbFree a => fun _ s' => s' = (s ∖ {[ a ]})
  | OnHeap e => fun x s' => heap_answers e x /\ s' = s
  | _ => fun _ s' => s' = s
  end.

Definition pool_env {F} : env (unet F) (gset Z) := {| req := fun _ _ => True; step := pool_step |}.

(** ** The invariant *)

Record udp_inv (u : udp_state) (s : gset Z) : Prop := {
  inv_dom : dom (blocks u) = s;
  inv_size : (size s <= MEMP_NUM_UDP_PCB)%nat;
  inv_ports : ports_ok u;
  inv_u16 : forall a c, blocks u !! a = Some c -> 0 <= local_port c < 2 ^ 16;
  inv_listed : forall a c, blocks u !! a = Some c -> local_port c <> 0 -> a ∈ udp_pcbs u
}.

Lemma inv_empty : udp_inv (UdpState ∅ []) ∅.
Proof.
  split; [apply dom_empty_L|by rewrite size_empty; unfold MEMP_NUM_UDP_PCB; lia| |done|done].
  split; [constructor|by intros a Ha%elem_of_nil|by intros a b ca cb Ha%elem_of_nil].
Qed.

Lemma inv_few u s : udp_inv u s -> (length (udp_pcbs u) <= MEMP_NUM_UDP_PCB)%nat.
Proof.
  intros Hi. transitivity (size s); [|apply Hi]. rewrite <- (inv_dom u s Hi), <- (size_list_to_set (C := gset Z)) by apply Hi.
  apply subseteq_size. intros a Ha. apply elem_of_list_to_set in Ha.
  destruct (ports_bound u (inv_ports u s Hi) a Ha) as (c & Hc & _). by apply elem_of_dom.
Qed.

Lemma inv_has u s pcb : udp_inv u s -> pcb ∈ s -> is_Some (blocks u !! pcb).
Proof. intros Hi. rewrite <- (inv_dom u s Hi). by intros ?%elem_of_dom. Qed.

Lemma inv_in u s pcb c : udp_inv u s -> blocks u !! pcb = Some c -> pcb ∈ s.
Proof. intros Hi Hc. rewrite <- (inv_dom u s Hi). by eapply elem_of_dom_2. Qed.

Lemma inv_active u s a : udp_inv u s -> a ∈ udp_pcbs u -> is_Some (blocks u !! a).
Proof. intros Hi Ha. destruct (ports_bound u (inv_ports u s Hi) a Ha) as (c & Hc & _). by exists c. Qed.

(** A control block changed elsewhere. *)
Lemma inv_update u s pcb c c' : udp_inv u s -> blocks u !! pcb = Some c ->
  local_ip c' = local_ip c -> local_port c' = local_port c -> udp_inv (set_pcb u pcb c') s.
Proof.
  intros Hi Hc Hip Hport.
  assert (forall a d, blocks (set_pcb u pcb c') !! a = Some d -> exists d0, blocks u !! a = Some d0 /\
    local_ip d = local_ip d0 /\ local_port d = local_port d0) as Hold.
  { intros a d. cbn [blocks set_pcb]. destruct (decide (a = pcb)) as [->|Hne].
    - rewrite lookup_insert_eq. intros [= <-]. eauto.
    - rewrite lookup_insert_ne by done. eauto. }
  split.
  - cbn [blocks set_pcb]. rewrite dom_insert_lookup_L by done. apply Hi.
  - apply Hi.
  - split; [apply Hi| |].
    + intros a Ha. destruct (ports_bound u (inv_ports u s Hi) a Ha) as (d & Hd & Hp). cbn [blocks set_pcb].
      destruct (decide (a = pcb)) as [->|Hne]; [|rewrite lookup_insert_ne by done; eauto].
      rewrite lookup_insert_eq. eexists. split; [done|]. assert (d = c) as -> by congruence. by rewrite Hport.
    + intros a b ca cb Ha Hb Hne Hca Hcb. destruct (Hold a ca Hca) as (da & Hda & Hia & Hpa).
      destruct (Hold b cb Hcb) as (db & Hdb & Hib & Hpb). unfold apart. rewrite Hia, Hib, Hpa, Hpb.
      exact (ports_apart u (inv_ports u s Hi) a b da db Ha Hb Hne Hda Hdb).
  - intros a d Hd. destruct (Hold a d Hd) as (d0 & Hd0 & _ & ->). by apply (inv_u16 u s Hi a).
  - intros a d Hd Hnz. destruct (Hold a d Hd) as (d0 & Hd0 & _ & Hp). rewrite Hp in Hnz. by apply (inv_listed u s Hi a d0).
Qed.

(** ** Programs that leave the pool alone *)

Definition quiet {F} (e : op (unet F)) : Prop :=
  match e : unetop F with PcbMalloc | PcbFree _ => False | _ => True end.

Definition answered {F} (e : op (unet F)) : ans (unet F) e -> Prop :=
  match e as e return unet_ans e -> Prop with OnHeap e => heap_answers e | _ => fun _ => True end.

(** They do not fail, and every result satisfies [P]. *)
Fixpoint tame {F A} (P : A -> Prop) (p : prog (unet F) A) : Prop :=
  match p with
  | Ret a => P a
  | Halt h => False
  | Vis e k => quiet e /\ forall x, answered e x -> tame P (k x)
  end.

Lemma tame_bind {F A B} (M : A -> Prop) (P : B -> Prop) (p : prog (unet F) A) (f : A -> prog (unet F) B) :
  tame M p -> (forall a, M a -> tame P (f a)) -> tame P (bind p f).
Proof.
  intros Hp Hf. induction p as [a|h|e k IH]; cbn [tame bind] in *; [auto|done|].
  destruct Hp as [He Hk]. split; [done|]. intros x Hx. by apply IH, Hk.
Qed.

Lemma tame_mono {F A} (M P : A -> Prop) (p : prog (unet F) A) : tame M p -> (forall a, M a -> P a) -> tame P p.
Proof.
  intros Hp Hf. induction p as [a|h|e k IH]; cbn [tame] in *; [auto|done|]. destruct Hp as [He Hk]. split; [done|]. auto.
Qed.

(** What a run ends with. *)
Definition ends {A} (P : A -> gset Z -> Prop) (o : outcome A) (s : gset Z) : Prop :=
  match o with Done a => P a s | Stop h => False end.

Lemma wp_tame {F A} (P : A -> Prop) (p : prog (unet F) A) (Q : A -> gset Z -> Prop) s :
  tame P p -> (forall a, P a -> Q a s) -> wp pool_env p (ends Q) s.
Proof.
  intros Hp HQ. induction p as [a|h|e k IH]; cbn [tame wp] in *; [by apply HQ|done|].
  destruct Hp as [He Hk]. split; [done|]. intros x s' Hs.
  assert (answered e x /\ s' = s) as [Hx ->] by (destruct e; first [exact Hs|by destruct He|split; [exact I|exact Hs]]).
  by apply IH, Hk.
Qed.

Lemma wp_ends_bind {F A B} (p : prog (unet F) A) (f : A -> prog (unet F) B) (M : A -> gset Z -> Prop) Q s :
  wp pool_env p (ends M) s -> (forall a s', M a s' -> wp pool_env (f a) (ends Q) s') ->
  wp pool_env (bind p f) (ends Q) s.
Proof. intros Hp Hf. apply (wp_seq _ _ _ _ _ _ Hp). intros [a|h] s' Ho; [by apply Hf|exact Ho]. Qed.

Lemma wp_tame_bind {F A B} (M : A -> Prop) (p : prog (unet F) A) (f : A -> prog (unet F) B) Q s :
  tame M p -> (forall a, M a -> wp pool_env (f a) (ends Q) s) -> wp pool_env (bind p f) (ends Q) s.
Proof.
  intros Hp Hf. eapply wp_ends_bind.
  - apply (wp_tame M p (fun a s' => M a /\ s' = s) s Hp). auto.
  - intros a s' [Ha ->]. by apply Hf.
Qed.

Definition anything {A} (a : A) : Prop := True.

Lemma tame_any {F A} (P : A -> Prop) (p : prog (unet F) A) : tame P p -> tame anything p.
Proof. intros Hp. by eapply tame_mono. Qed.

(** ** The functions of udp.c *)

Section functions.
Context {F : Sig}.

Lemma tame_get u pcb : is_Some (blocks u !! pcb) -> tame (fun c => blocks u !! pcb = Some c) (@get_pcb F u pcb).
Proof. unfold get_pcb. by intros [c ->]. Qed.

Lemma bind_loop_tame u pcb ip port l rebind : (forall a, a ∈ l -> is_Some (blocks u !! a)) ->
  tame (fun r => match r with
    | None => True
    | Some rb => (pcb ∈ l -> rb = 1) /\ (pcb ∉ l -> rb = rebind) /\
      forall a c, a ∈ l -> a <> pcb -> blocks u !! a = Some c -> local_port c = port ->
        local_ip c <> IPADDR_ANY /\ ip <> IPADDR_ANY /\ local_ip c <> ip
    end) (@bind_loop F u pcb ip port l rebind).
Proof.
  intros Hall. revert rebind. induction l as [|a l IH]; intros rebind.
  - split; [by intros ?%elem_of_nil|]. split; [done|]. by intros ? ? ?%elem_of_nil.
  - cbn [bind_loop]. destruct (Z.eqb_spec pcb a) as [<-|Hne].
    + eapply tame_mono; [apply IH; intros; apply Hall; by right|]. intros [rb|]; [|done]. intros (H1 & H2 & H3). split.
      { intros _. destruct (decide (pcb ∈ l)) as [Hin|Hin]; [by apply H1|by apply H2]. }
      split; [intros Hn; exfalso; apply Hn; left|].
      intros b c Hb Hnb. apply elem_of_cons in Hb as [->|Hb]; [done|]. by apply H3.
    + eapply tame_bind; [apply tame_get, Hall; left|]. intros c Hc. cbv beta in Hc.
      destruct ((local_port c =? port) && _) eqn:Hconf; [done|].
      eapply tame_mono; [apply IH; intros; apply Hall; by right|]. intros [rb|]; [|done]. intros (H1 & H2 & H3). split; [|split].
      * intros Hin. apply elem_of_cons in Hin as [->|Hin]; [done|by apply H1].
      * intros Hin. apply H2. intros H. apply Hin. by right.
      * intros b cb Hb Hnb Hcb Hpb. apply elem_of_cons in Hb as [->|Hb]; [|by apply (H3 b)].
        assert (cb = c) as -> by congruence. rewrite (proj2 (Z.eqb_eq _ _) Hpb) in Hconf. cbn [andb] in Hconf.
        unfold ip_addr_isany, ip_addr_cmp in Hconf. apply orb_false_iff in Hconf as [[H4 H5]%orb_false_iff H6].
        apply Z.eqb_neq in H4, H5, H6. done.
Qed.

Lemma port_used_tame u l port : (forall a, a ∈ l -> is_Some (blocks u !! a)) -> tame (fun r : bool =>
  if r then exists a c, a ∈ l /\ blocks u !! a = Some c /\ local_port c = port
  else forall a c, a ∈ l -> blocks u !! a = Some c -> local_port c <> port) (@port_used F u l port).
Proof.
  intros Hall. induction l as [|a l IH]; [by intros ? ? ?%elem_of_nil|]. cbn [port_used].
  eapply tame_bind; [apply tame_get, Hall; left|]. intros c Hc. cbv beta in Hc. destruct (Z.eqb_spec (local_port c) port) as [He|Hne].
  - exists a, c. split; [left|done].
  - eapply tame_mono; [apply IH; intros; apply Hall; by right|]. intros [|].
    + intros (b & cb & Hb & Hcb). exists b, cb. split; [by right|done].
    + intros H b cb Hb Hcb. apply elem_of_cons in Hb as [->|Hb]; [congruence|by apply (H b)].
Qed.

(** The ports below [port] of the dynamic range, each of them somebody's. *)
Definition taken (u : udp_state) (ports : list Z) : Prop :=
  NoDup ports /\ Forall (fun p => exists a c, a ∈ udp_pcbs u /\ blocks u !! a = Some c /\ local_port c = p) ports.

Lemma taken_few u ports : taken u ports -> (length ports <= length (udp_pcbs u))%nat.
Proof.
  intros [Hnd Ht]. rewrite <- (length_map (fun a => match blocks u !! a with Some c => local_port c | None => 0 end) (udp_pcbs u)).
  apply submseteq_length, NoDup_submseteq; [done|]. intros p Hp. rewrite list.Forall_forall in Ht.
  destruct (Ht p Hp) as (a & c & Ha & Hc & <-). apply list_elem_of_fmap. exists a. by rewrite Hc.
Qed.

(** With few control blocks a free port is found. *)
Lemma find_port_tame n u port ports : taken u ports -> Forall (fun p => p < port) ports ->
  port = UDP_LOCAL_PORT_RANGE_START + Z.of_nat (length ports) ->
  (length (udp_pcbs u) <= MEMP_NUM_UDP_PCB)%nat -> (3 <= n + length ports)%nat ->
  (forall a, a ∈ udp_pcbs u -> is_Some (blocks u !! a)) ->
  tame (fun r => exists p, r = Some p /\ 0 < p < 2 ^ 16 /\
    forall a c, a ∈ udp_pcbs u -> blocks u !! a = Some c -> local_port c <> p) (@find_port F n u port).
Proof.
  revert port ports. induction n as [|n IH]; intros port ports Ht Hlt Hp Hfew Hn Hall; pose proof (taken_few u ports Ht) as Hl;
    unfold MEMP_NUM_UDP_PCB in Hfew; [lia|]. cbn [find_port].
  assert (0 < port < 2 ^ 16) as Hpr by (unfold UDP_LOCAL_PORT_RANGE_START in Hp; lia).
  destruct (udp_pcbs u) as [|x l] eqn:Hul.
  { exists port. split; [done|]. split; [done|]. by intros ? ? ?%elem_of_nil. }
  rewrite <- Hul in *. rewrite (proj2 (Z.eqb_neq _ _)) by (unfold UDP_LOCAL_PORT_RANGE_START, UDP_LOCAL_PORT_RANGE_END in *; lia).
  eapply tame_bind; [by apply port_used_tame|]. intros [|].
  - intros (a & c & Ha & Hc & Hpc).
    assert (u16 (port + 1) = port + 1) as -> by (apply u16_id; unfold is_u16, UDP_LOCAL_PORT_RANGE_START in *; lia).
    apply (IH (port + 1) (port :: ports)).
    + destruct Ht as [Hnd Ht]. split.
      * apply list.NoDup_cons. split; [|done]. intros Hin. rewrite list.Forall_forall in Hlt. specialize (Hlt _ Hin). lia.
      * apply list.Forall_cons. split; [by exists a, c|done].
    + apply list.Forall_cons. split; [lia|]. eapply list.Forall_impl; [exact Hlt|]. simpl. lia.
    + cbn [length]. lia.
    + done.
    + cbn [length]. lia.
    + done.
  - intros H. exists port. done.
Qed.

(** A control block gets an address and a port that keep it apart. *)
Lemma inv_bound u s pcb c0 c l : udp_inv u s -> blocks u !! pcb = Some c0 -> 0 < local_port c < 2 ^ 16 ->
  (forall a ca, a ∈ udp_pcbs u -> a <> pcb -> blocks u !! a = Some ca -> apart c ca) ->
  (pcb ∈ udp_pcbs u -> l = udp_pcbs u) -> (pcb ∉ udp_pcbs u -> l = pcb :: udp_pcbs u) ->
  udp_inv (UdpState (<[pcb := c]> (blocks u)) l) s.
Proof.
  intros Hi Hc0 Hp Hap Hin Hout.
  assert (forall a, a ∈ l -> a <> pcb -> a ∈ udp_pcbs u) as Hold.
  { intros a Ha Hne. destruct (decide (pcb ∈ udp_pcbs u)) as [H|H]; [by rewrite <- Hin|].
    rewrite (Hout H) in Ha. by apply elem_of_cons in Ha as [->|Ha]. }
  assert (pcb ∈ l) as Hl.
  { destruct (decide (pcb ∈ udp_pcbs u)) as [H|H]; [by rewrite Hin|]. rewrite (Hout H). left. }
  assert (forall a, a ∈ udp_pcbs u -> a ∈ l) as Hmore.
  { intros a Ha. destruct (decide (pcb ∈ udp_pcbs u)) as [H|H]; [by rewrite Hin|]. rewrite (Hout H). by right. }
  split; cbn [blocks udp_pcbs].
  - rewrite dom_insert_lookup_L by done. apply Hi.
  - apply Hi.
  - split; cbn [blocks udp_pcbs].
    + destruct (decide (pcb ∈ udp_pcbs u)) as [H|H]; [rewrite (Hin H); apply Hi|].
      rewrite (Hout H). apply list.NoDup_cons. split; [done|apply Hi].
    + intros a Ha. destruct (decide (a = pcb)) as [->|Hne]; [rewrite lookup_insert_eq; eauto|].
      rewrite lookup_insert_ne by done. by apply (ports_bound u (inv_ports u s Hi)), Hold.
    + intros a b ca cb Ha Hb Hne. destruct (decide (a = pcb)) as [->|Hna], (decide (b = pcb)) as [->|Hnb]; [done|..].
      * rewrite lookup_insert_eq, lookup_insert_ne by done. intros [= <-] Hcb. by apply (Hap b cb); [apply Hold|..].
      * rewrite lookup_insert_eq, lookup_insert_ne by done. intros Hca [= <-]. apply apart_sym. by apply (Hap a ca); [apply Hold|..].
      * rewrite !lookup_insert_ne by done. by apply (ports_apart u (inv_ports u s Hi)); [apply Hold|apply Hold|..].
  - intros a d. destruct (decide (a = pcb)) as [->|Hne]; [rewrite lookup_insert_eq; intros [= <-]; lia|].
    rewrite lookup_insert_ne by done. apply (inv_u16 u s Hi).
  - intros a d. destruct (decide (a = pcb)) as [->|Hne]; [done|].
    rewrite lookup_insert_ne by done. intros Hd Hz. by apply Hmore, (inv_listed u s Hi a d).
Qed.

Definition bound (pcb : Z) (s : gset Z) (r : Z * udp_state) : Prop :=
  udp_inv r.2 s /\ (r.1 = ERR_OK -> exists c, blocks r.2 !! pcb = Some c /\ local_port c <> 0).

Lemma udp_bind_keeps u s pcb ip port : udp_inv u s -> pcb ∈ s -> 0 <= port < 2 ^ 16 -> tame (bound pcb s) (@udp_bind F u pcb ip port).
Proof.
  intros Hi Hpcb Hport. unfold udp_bind. eapply tame_bind; [apply bind_loop_tame; intros; by eapply inv_active|].
  intros [rb|]; [|by intros _]. intros (Hrb1 & Hrb0 & Hconf). eapply tame_bind; [by eapply tame_get, inv_has|]. intros c Hc. cbv beta in Hc.
  set (u1 := set_pcb u pcb (with_local_ip c ip)).
  assert (forall a ca, a <> pcb -> blocks u !! a = Some ca -> blocks u1 !! a = Some ca) as Hsame.
  { intros a ca Hne Ha. unfold u1. cbn [blocks set_pcb]. by rewrite lookup_insert_ne. }
  assert (blocks u1 !! pcb = Some (with_local_ip c ip)) as Hc1 by (unfold u1; cbn [blocks set_pcb]; by rewrite lookup_insert_eq).
  eapply (tame_bind (fun r => exists p, r = Some p /\ 0 < p < 2 ^ 16 /\
    forall a ca, a ∈ udp_pcbs u -> a <> pcb -> blocks u !! a = Some ca ->
      apart (with_local_port (with_local_ip c ip) p) ca)).
  - destruct (Z.eqb_spec port 0) as [->|Hnz].
    + eapply tame_mono.
      * apply (find_port_tame port_range u1 UDP_LOCAL_PORT_RANGE_START []);
          [split; constructor|constructor|done|by apply (inv_few u s)|
           unfold port_range, UDP_LOCAL_PORT_RANGE_START, UDP_LOCAL_PORT_RANGE_END; cbn [length]; lia|].
        intros a Ha. destruct (decide (a = pcb)) as [->|Hne]; [by rewrite Hc1|].
        unfold u1. cbn [blocks set_pcb]. rewrite lookup_insert_ne by done. by eapply inv_active.
      * intros r (p & -> & Hp & Hfree). exists p. split; [done|]. split; [done|]. intros a ca Ha Hne Hca He.
        exfalso. apply (Hfree a ca Ha); [by apply Hsame|done].
    + exists port. split; [done|]. split; [lia|]. intros a ca Ha Hne Hca He. cbn [local_port local_ip with_local_port with_local_ip] in *.
      destruct (Hconf a ca Ha Hne Hca) as (H1 & H2 & H3); [done|]. split; [done|]. split; [done|]. congruence.
  - intros r (p & -> & Hp & Hap). eapply tame_bind; [apply tame_get; by rewrite Hc1|]. intros c1 Hc1'. cbv beta in Hc1'.
    assert (c1 = with_local_ip c ip) as -> by congruence. split; cbn [fst snd].
    + assert (udp_inv (UdpState (<[pcb := with_local_port (with_local_ip c ip) p]> (blocks u))
        (if rb =? 0 then pcb :: udp_pcbs u else udp_pcbs u)) s) as H.
      { apply (inv_bound u s pcb c); [done|done|done|done| |].
        - intros Hin. by rewrite (Hrb1 Hin).
        - intros Hin. by rewrite (Hrb0 Hin). }
      revert H. unfold u1. cbn [blocks set_pcb udp_pcbs set_list]. destruct (rb =? 0);
        unfold set_pcb, set_list; cbn [blocks udp_pcbs]; by rewrite insert_insert_eq.
    + intros _. exists (with_local_port (with_local_ip c ip) p). split; [|cbn; lia].
      destruct (rb =? 0); cbn [blocks set_pcb set_list]; by rewrite lookup_insert_eq.
Qed.

Definition kept {A} (s : gset Z) (r : A * udp_state) : Prop := udp_inv r.2 s.

Lemma udp_connect_keeps u s pcb ip port : udp_inv u s -> pcb ∈ s -> tame (kept s) (@udp_connect F u pcb ip port).
Proof.
  intros Hi Hpcb. unfold udp_connect. eapply tame_bind; [by eapply tame_get, inv_has|]. intros c Hc. cbv beta in Hc.
  eapply (tame_bind (bound pcb s)).
  - destruct (Z.eqb_spec (local_port c) 0) as [->|Hnz]; [by apply udp_bind_keeps|]. split; [done|]. by exists c.
  - intros [err u1] [Hi1 Hok]. cbn [fst snd] in *. destruct (Z.eqb_spec err ERR_OK) as [->|]; cbn [negb]; [|done].
    eapply tame_bind; [by eapply tame_get, inv_has|]. intros c1 Hc1. cbv beta in Hc1. destruct (Hok eq_refl) as (c2 & Hc2 & Hnz).
    assert (c2 = c1) as -> by congruence. cbn [tame].
    assert (pcb ∈ udp_pcbs u1) as Hin by (by apply (inv_listed u1 s Hi1 pcb c1)).
    assert (forall l, pcb ∈ l -> on_list pcb l = true) as Hon.
    { intros l. induction l as [|a l IH]; [by intros ?%elem_of_nil|]. cbn [on_list].
      intros [->|Hl]%elem_of_cons; [by rewrite Z.eqb_refl|]. destruct (pcb =? a); [done|by apply IH]. }
    cbn [udp_pcbs set_pcb]. rewrite Hon by done. by apply (inv_update u1 s pcb c1).
Qed.

Lemma tame_updating (P : udp_state -> Prop) p : tame P p -> tame (fun r => P r.2) (@updating F p).
Proof. intros Hp. unfold updating. by eapply tame_bind. Qed.

Lemma udp_disconnect_keeps u s pcb : udp_inv u s -> pcb ∈ s -> tame (fun u => udp_inv u s) (@udp_disconnect F u pcb).
Proof.
  intros Hi Hpcb. unfold udp_disconnect. eapply tame_bind; [by eapply tame_get, inv_has|]. intros c Hc. by apply (inv_update u s pcb c).
Qed.

Lemma udp_recv_keeps u s pcb f arg : udp_inv u s -> pcb ∈ s -> tame (fun u => udp_inv u s) (@udp_recv F u pcb f arg).
Proof.
  intros Hi Hpcb. unfold udp_recv. eapply tame_bind; [by eapply tame_get, inv_has|]. intros c Hc. by apply (inv_update u s pcb c).
Qed.

Definition fresh_pcb : udp_pcb := UdpPcb 0 0 0 0 UDP_TTL 0 0 0 None 0.

Lemma udp_new_keeps u s : udp_inv u s -> wp pool_env (@udp_new F u)
  (fun o s' => match o with
    | Done r => udp_inv r.2 s' /\ obtained r.1 s s' /\
        forall a, r.1 = Some a -> blocks u !! a = None /\ r.2 = set_pcb u a fresh_pcb
    | Stop _ => False
    end) s.
Proof.
  intros Hi. split; [done|]. intros [] s1 ->. cbn [bind]. split; [done|].
  intros r s' Hr. pose proof Hr as [[-> ->]|(a & -> & Ha & Hs & ->)]; cbn [bind wp]; [done|]. cbn [fst snd].
  change (UdpPcb _ _ _ _ _ _ _ _ _ _) with fresh_pcb. set (c := fresh_pcb).
  assert (blocks u !! a = None) as Hnone by (apply not_elem_of_dom; by rewrite (inv_dom u s Hi)).
  assert (forall b, b ∈ udp_pcbs u -> b <> a) as Hne.
  { intros b Hb ->. destruct (ports_bound u (inv_ports u s Hi) a Hb) as (d & Hd & _). congruence. }
  assert (forall b, b ∈ udp_pcbs u -> blocks (set_pcb u a c) !! b = blocks u !! b) as Hsame.
  { intros b Hb. cbn [blocks set_pcb]. rewrite lookup_insert_ne; [done|]. intros <-. by apply (Hne a). }
  split; [|split; [exact Hr|by intros ? [= <-]]]. split.
  - cbn [blocks set_pcb]. by rewrite dom_insert_L, (inv_dom u s Hi).
  - rewrite size_union_alt. rewrite size_singleton. 
    assert (size (s ∖ {[ a ]}) <= size s)%nat by (apply subseteq_size, subseteq_difference_l; done). lia.
  - split; [apply Hi| |].
    + intros b Hb. rewrite Hsame by done. by apply (ports_bound u (inv_ports u s Hi)).
    + intros b d cb cd Hb Hd Hbd. rewrite !Hsame by done. by apply (ports_apart u (inv_ports u s Hi)).
  - intros b d. cbn [blocks set_pcb]. destruct (decide (b = a)) as [->|Hb].
    + rewrite lookup_insert_eq. intros [= <-]. cbn. lia.
    + rewrite lookup_insert_ne by done. apply (inv_u16 u s Hi).
  - intros b d. cbn [blocks set_pcb]. destruct (decide (b = a)) as [->|Hb].
    + rewrite lookup_insert_eq. by intros [= <-] ?.
    + rewrite lookup_insert_ne by done. apply (inv_listed u s Hi).
Qed.

Lemma unlink_elem pcb l a : a ∈ unlink pcb l <-> a ∈ l /\ a <> pcb.
Proof.
  induction l as [|b l IH]; [split; [by intros ?%elem_of_nil|by intros [?%elem_of_nil _]]|]. cbn [unlink].
  destruct (Z.eqb_spec b pcb) as [->|Hne]; rewrite ?elem_of_cons, IH; split; [tauto|intros [[->|?] ?]; tauto| |tauto].
  intros [->|[? ?]]; tauto.
Qed.

Lemma unlink_nodup pcb l : NoDup l -> NoDup (unlink pcb l).
Proof.
  induction l as [|b l IH]; [done|]. intros [Hb Hl]%list.NoDup_cons. cbn [unlink]. destruct (b =? pcb); [by apply IH|].
  apply list.NoDup_cons. split; [by intros [? _]%unlink_elem|by apply IH].
Qed.

Lemma udp_remove_keeps u s pcb : udp_inv u s -> wp pool_env (@udp_remove F u pcb) (ends (fun u s' => udp_inv u s' /\ s' = (s ∖ {[ pcb ]}))) s.
Proof.
  intros Hi. split; [done|]. intros [] s' ->. cbn [bind wp ends]. split; [|done].
  set (l := match udp_pcbs u with [] => _ | _ => _ end).
  pose proof (ports_nodup u (inv_ports u s Hi)) as Hnd.
  assert (NoDup l /\ forall a, a ∈ l <-> a ∈ udp_pcbs u /\ a <> pcb) as [Hl Hel].
  { unfold l. destruct (udp_pcbs u) as [|b r]; [split; [constructor|]; split; [by intros ?%elem_of_nil|by intros [?%elem_of_nil _]]|].
    apply list.NoDup_cons in Hnd as [Hb Hr]. destruct (Z.eqb_spec b pcb) as [->|Hne].
    - split; [done|]. intros a. rewrite elem_of_cons. split; [|intros [[->|?] ?]; tauto].
      intros Ha. split; [tauto|]. by intros ->.
    - split; [apply list.NoDup_cons; split; [by intros [? _]%unlink_elem|by apply unlink_nodup]|].
      intros a. rewrite !elem_of_cons, unlink_elem. split; [|tauto]. intros [->|?]; tauto. }
  assert (forall a, a <> pcb -> delete pcb (blocks u) !! a = blocks u !! a) as Hsame
    by (intros a Ha; by rewrite lookup_delete_ne).
  split; cbn [blocks udp_pcbs].
  - by rewrite dom_delete_L, (inv_dom u s Hi).
  - transitivity (size s); [|apply Hi]. by apply subseteq_size, subseteq_difference_l.
  - split; cbn [blocks udp_pcbs]; [done| |].
    + intros a Ha. apply Hel in Ha as [Ha Hne]. rewrite Hsame by done. by apply (ports_bound u (inv_ports u s Hi)).
    + intros a b ca cb Ha Hb Hab. apply Hel in Ha as [Ha Hna]. apply Hel in Hb as [Hb Hnb]. rewrite !Hsame by done. by apply (ports_apart u (inv_ports u s Hi)).
  - intros a c. destruct (decide (a = pcb)) as [->|Hne]; [by rewrite lookup_delete_eq|]. rewrite Hsame by done. apply (inv_u16 u s Hi).
  - intros a c. destruct (decide (a = pcb)) as [->|Hne]; [by rewrite lookup_delete_eq|]. rewrite Hsame by done.
    intros Hc Hz. apply Hel. split; [by apply (inv_listed u s Hi a c)|done].
Qed.

(** Memory for pbufs. *)
Lemma tame_on_heap {A} (p : prog heap A) : total p -> tame anything (on_heap (F := F) p).
Proof. induction p as [a|h|e k IH]; intros Hp; cbn [on_heap embed tame] in *; [done|done|]. split; [done|]. intros x _. by apply IH. Qed.

Lemma total_release q : total (release q).
Proof.
  unfold release. generalize 0. induction q as [|p q IH]; intros c; [done|]. cbn [release_loop].
  destruct (_ =? 0); [|done]. apply total_seq; [|intros _; apply IH]. unfold deallocate. by destruct (pb_type p).
Qed.

Lemma tame_free p : tame anything (@udp_pbuf_free F p).
Proof. unfold udp_pbuf_free. eapply tame_bind; [apply tame_on_heap, total_release|]. by intros [_ rest] _. Qed.

Lemma tame_stat st : tame anything (@stat F st).
Proof. split; [done|]. by intros []. Qed.

(** A pbuf with a UDP header. *)
Definition headed (p : pbuf) : Prop := (Z.to_nat UDP_HLEN <= length (payload p))%nat.

Lemma tame_alloc : tame (fun r => match r with None => True | Some (Chain [q]) => headed q | _ => False end)
  (on_heap (F := F) (pbuf_alloc PBUF_IP UDP_HLEN PBUF_RAM)).
Proof.
  unfold pbuf_alloc. set (size := u16 _). cbn zeta. split; [done|]. intros [block|]; cbn [embed bind]; [|done].
  intros Hb. specialize (Hb block eq_refl). change size with 60 in Hb. change SIZEOF_STRUCT_PBUF with 16 in Hb.
  unfold pbuf_in. change (Z.to_nat (LWIP_MEM_ALIGN_SIZE (layer_offset PBUF_IP) + UDP_HLEN)) with 44%nat.
  rewrite decide_True by lia. cbn [bind embed tame]. unfold headed. cbn [payload].
  change (Z.to_nat (LWIP_MEM_ALIGN_SIZE (layer_offset PBUF_IP))) with 36%nat.
  rewrite length_take, length_drop. change (Z.to_nat UDP_HLEN) with 8%nat. lia.
Qed.

Lemma tame_set_u16 p off v : (off + 2 <= length (payload p))%nat ->
  tame (fun q => length (payload q) = length (payload p)) (@set_u16 F p off v).
Proof.
  intros H. unfold set_u16. rewrite store_in_bounds by done. cbn [defined bind tame set_payload payload].
  rewrite !length_app, length_take, length_drop. cbn [length]. lia.
Qed.

Lemma tame_get_u16 p off : (off + 2 <= length (payload p))%nat -> tame anything (@get_u16 F p off).
Proof. intros H. unfold get_u16, load. by rewrite decide_True. Qed.

Lemma tame_drop_header own q p : tame anything (@drop_header F own q p).
Proof. unfold drop_header. destruct own; [|done]. by eapply tame_bind; [apply tame_free|]. Qed.

(** Headers are added, or there is no room; they are removed where they are. *)
Lemma header_added p n : 0 <= n -> exists r p', pbuf_header p n = Done (r, p') /\
  (r = 0 -> (Z.to_nat n <= length (payload p'))%nat).
Proof.
  intros Hn. unfold pbuf_header. destruct (Z.eqb_spec n 0) as [->|]; [eexists _, _; split; [done|]; simpl; lia|].
  rewrite (proj2 (Z.ltb_ge _ _)) by lia.
  destruct (pb_type p); try (by eexists _, _); (case_decide; [by eexists _, _|]); eexists _, _; (split; [done|]); intros _;
    cbn [set_payload payload]; rewrite length_app, length_drop; lia.
Qed.

Lemma header_removed p n : 0 <= n < 2 ^ 16 -> n <= len p -> exists p', pbuf_header p (- n) = Done (0, p') /\
  length (payload p') = (length (payload p) - Z.to_nat n)%nat.
Proof.
  intros Hn Hl. unfold pbuf_header. destruct (Z.eqb_spec (- n) 0); [eexists; split; [done|]; lia|].
  rewrite (proj2 (Z.ltb_lt _ _)), Z.opp_involutive, u16_id by (unfold is_u16; lia).
  rewrite (proj2 (Z.leb_le _ _)) by done. cbn [LWIP_ERROR obind]. eexists. split; [done|].
  cbn [set_payload payload]. by rewrite length_drop.
Qed.

Lemma tame_add_header p ps : tame (fun r => match r.1 with
  | None => True | Some (q, _) => exists h t, q = h :: t /\ headed h end) (@add_header F p ps).
Proof.
  unfold add_header. destruct (header_added p UDP_HLEN) as (r & p' & -> & Hr); [done|]. cbn [of_outcome bind].
  destruct (Z.eqb_spec r 0) as [->|]; cbn [negb]; [exists p', ps; split; [done|by apply Hr]|].
  eapply tame_bind; [apply tame_alloc|]. intros [[[|q [|? ?]]|ty k]|]; [done| |done..]. intros Hq.
  destruct (negb (tot_len p' =? 0)); [|by exists q, []]. unfold pbuf_chain, pbuf_cat, LWIP_ERROR.
  cbn [obind of_outcome bind tame fst map take drop app length]. by eexists _, _.
Qed.
End functions.

Section traffic.
Context {F : Sig} (odd : list pbuf -> nat -> bool).

Lemma tame_send_datagram c q qs own p src dst n : headed q ->
  tame anything (@send_datagram F odd c q qs own p src dst n).
Proof.
  unfold headed. change (Z.to_nat UDP_HLEN) with 8%nat. intros Hq. unfold send_datagram.
  eapply tame_bind; [apply tame_set_u16; lia|]. intros q1 Hq1. cbv beta in Hq1.
  eapply (tame_bind anything); [destruct (_ =? 0); [eapply tame_any, tame_set_u16; lia|done]|]. intros q2 _.
  split; [done|]. intros [err q3] _. cbn [bind].
  eapply tame_bind; [apply tame_drop_header|]. intros p' _. eapply tame_bind; [apply tame_stat|done].
Qed.

Lemma udp_sendto_if_keeps u s pcb p dst port n : udp_inv u s -> pcb ∈ s -> p <> [] ->
  tame (kept s) (@udp_sendto_if F odd u pcb p dst port n).
Proof.
  intros Hi Hpcb Hp. unfold udp_sendto_if. eapply tame_bind; [by eapply tame_get, inv_has|]. intros c Hc. cbv beta in Hc.
  eapply (tame_bind (bound pcb s)).
  { destruct (Z.eqb_spec (local_port c) 0) as [->|Hnz]; [by apply udp_bind_keeps|]. split; [done|]. by exists c. }
  intros [err u1] [Hi1 _]. cbn [fst snd] in Hi1. destruct (negb (err =? ERR_OK)); [done|].
  eapply tame_bind; [by eapply tame_get, inv_has|]. intros c1 _. destruct p as [|p ps]; [done|].
  eapply tame_bind; [apply tame_add_header|]. intros [[[q own]|] p'] Hq; cbn [fst] in Hq; [|done].
  destruct Hq as (h & t & -> & Hh). pose proof Hh as Hh'. unfold headed in Hh. change (Z.to_nat UDP_HLEN) with 8%nat in Hh.
  eapply tame_bind; [apply tame_set_u16; lia|]. intros q1 Hq1. eapply tame_bind; [apply tame_set_u16; cbv beta in *; lia|].
  intros q2 Hq2. eapply tame_bind; [apply tame_set_u16; cbv beta in *; lia|]. intros q3 Hq3. destruct (source_ip c1 n).
  - eapply tame_bind; [apply tame_send_datagram; unfold headed in *; cbv beta in *; lia|]. by intros [err' p2] _.
  - eapply tame_bind; [apply tame_drop_header|done].
Qed.

Lemma udp_sendto_keeps u s pcb p dst port : udp_inv u s -> pcb ∈ s -> p <> [] ->
  tame (kept s) (@udp_sendto F odd u pcb p dst port).
Proof.
  intros Hi Hpcb Hp. split; [done|]. intros [n|] _; cbn [bind]; [by apply udp_sendto_if_keeps|].
  eapply tame_bind; [apply tame_stat|done].
Qed.

(** ** Receiving *)

(** The list in another order. *)
Lemma inv_reorder u s l : udp_inv u s -> Permutation (udp_pcbs u) l -> udp_inv (set_list u l) s.
Proof.
  intros Hi Hl. assert (forall a, a ∈ l <-> a ∈ udp_pcbs u) as He by (intros a; by rewrite Hl).
  split; cbn [set_list blocks udp_pcbs]; [apply Hi|apply Hi| |apply Hi|].
  - split; cbn [set_list blocks udp_pcbs].
    + rewrite <- Hl. apply Hi.
    + intros a Ha. apply He in Ha. by apply (ports_bound u (inv_ports u s Hi)).
    + intros a b ca cb Ha Hb. apply He in Ha. apply He in Hb. by apply (ports_apart u (inv_ports u s Hi)).
  - intros a c Hc Hz. apply He. by apply (inv_listed u s Hi a c).
Qed.

(** A control block that is found is in memory. *)
Definition found (s : gset Z) (r : option Z * udp_state) : Prop :=
  udp_inv r.2 s /\ forall pcb, r.1 = Some pcb -> pcb ∈ s.

Lemma match_loop_keeps u s src dest bc isrc idest before l uncon : udp_inv u s -> udp_pcbs u = before ++ l ->
  (forall pcb, uncon = Some pcb -> pcb ∈ s) ->
  tame (found s) (@match_loop F u src dest bc isrc idest before l uncon).
Proof.
  intros Hi. revert before uncon. induction l as [|a l IH]; intros before uncon Hl Hun; [done|]. cbn [match_loop].
  assert (a ∈ udp_pcbs u) as Ha by (rewrite Hl; apply elem_of_app; right; left).
  eapply tame_bind; [by eapply tame_get, inv_active|]. intros c Hc. cbv beta in Hc.
  assert (a ∈ s) as Has by by eapply inv_in. destruct (_ && remote_match _ _ _).
  - destruct before as [|b before].
    + eapply tame_bind; [apply tame_stat|]. intros _ _. split; [done|]. by intros ? [= <-].
    + split; [|by intros ? [= <-]]. apply inv_reorder; [done|]. rewrite Hl. by rewrite Permutation_middle.
  - apply IH; [by rewrite <- app_assoc|]. destruct (_ && _); [by intros ? [= <-]|done].
Qed.

(** The DHCP client's control block is in memory. *)
Definition dhcp_bound (inp : netif) (s : gset Z) : Prop :=
  forall d pcb, dhcp inp = Some d -> dhcp_pcb d = Some pcb -> pcb ∈ s.

Lemma find_pcb_keeps u s inp src dest bc isrc idest : udp_inv u s -> dhcp_bound inp s ->
  tame (found s) (@find_pcb F u inp src dest bc isrc idest).
Proof.
  intros Hi Hd. unfold find_pcb. destruct (_ =? _); [|by apply match_loop_keeps].
  eapply (tame_bind (fun r => forall pcb, r = Some pcb -> pcb ∈ s)); [|intros r Hr; by split].
  unfold dhcp_match. destruct (_ =? _); [|done]. destruct (dhcp inp) as [d|] eqn:Hdh; cbn [option_map]; [|done].
  destruct (dhcp_pcb d) as [pcb|] eqn:Hp; [|done]. pose proof (Hd d pcb Hdh Hp) as Hin.
  eapply tame_bind; [by eapply tame_get, inv_has|]. intros c _. destruct (_ || _); [by intros ? [= <-]|done].
Qed.

Lemma discard_keeps st p u s : udp_inv u s -> tame (fun u => udp_inv u s) (@discard F st p u).
Proof.
  intros Hi. unfold discard. eapply tame_bind; [apply tame_stat|]. intros _ _. eapply tame_bind; [apply tame_stat|]. intros _ _.
  eapply tame_bind; [apply tame_free|done].
Qed.

Lemma no_port_keeps u s p ps hl bc idest : udp_inv u s -> 0 <= hl ->
  tame (fun u => udp_inv u s) (@no_port F u p ps hl bc idest).
Proof.
  intros Hi Hhl. unfold no_port. eapply (tame_bind anything); [|intros p' _; by apply discard_keeps].
  destruct (_ && _); [|done].
  destruct (header_added p (hl * 4 + UDP_HLEN)) as (r & p' & -> & _); [unfold UDP_HLEN; lia|]. cbn [of_outcome bind].
  split; [done|]. by intros [].
Qed.

(** The length of the IP header of a packet, and a packet whose UDP header lies
    with it in the first pbuf, unless there is no room for one at all. *)
Definition ip_hlen (v_hl_tos : Z) : Z := Z.land (Z.shiftr (lwip_ntohs v_hl_tos) 8) 0x0f * 4.

Definition headers_first (p : list pbuf) : Prop :=
  exists h t v, p = h :: t /\ load 0 2 (payload h) = Some v /\
    (tot_len h < ip_hlen v + UDP_HLEN \/ ip_hlen v + UDP_HLEN <= len h).

(** [R] is what the callbacks may do to the blocks in memory. *)
Context (R : gset Z -> gset Z -> Prop).
Context (callback : Z -> Z -> Z -> list pbuf -> Z -> Z -> udp_state -> prog (unet F) udp_state).
Context (callback_keeps : forall f arg pcb p addr port u s, udp_inv u s -> pcb ∈ s -> p <> [] ->
  wp pool_env (callback f arg pcb p addr port u) (ends (fun u s' => udp_inv u s' /\ R s s')) s).

Definition after (s : gset Z) (u : udp_state) (s' : gset Z) : Prop := udp_inv u s' /\ (s' = s \/ R s s').

Lemma wp_keeps p s : tame (fun u => udp_inv u s) p -> wp (@pool_env F) p (ends (after s)) s.
Proof. intros Hp. eapply wp_tame; [exact Hp|]. intros u Hu. split; [done|by left]. Qed.

(** Freed, and the state as it was. *)
Lemma wp_dropped p u s : udp_inv u s ->
  wp (@pool_env F) (let! _ := udp_pbuf_free p in Ret u) (ends (after s)) s.
Proof. intros Hi. apply wp_keeps. by eapply tame_bind; [apply tame_free|]. Qed.

Lemma udp_input_keeps u s p inp isrc idest : udp_inv u s -> headers_first p -> dhcp_bound inp s ->
  wp pool_env (udp_input odd callback u p inp isrc idest) (ends (after s)) s.
Proof.
  intros Hi (h & ps & v & -> & Hv & Hlen) Hd. unfold udp_input. eapply wp_tame_bind; [apply tame_stat|]. intros _ _.
  unfold get_u16 at 1. rewrite Hv. cbn [defined bind]. unfold ip_hlen in Hlen. set (hl := Z.land _ _) in *.
  assert (0 <= hl < 16) as Hhl by (unfold hl; change 0x0f with (Z.ones 4); rewrite Z.land_ones by lia; apply Z.mod_pos_bound; lia).
  destruct (Z.ltb_spec (tot_len h) (hl * 4 + UDP_HLEN)) as [|Hge]; [by apply wp_keeps, discard_keeps|].
  destruct Hlen as [|Hlen]; [lia|]. unfold UDP_HLEN in *.
  destruct (header_removed h (hl * 4)) as (p1 & -> & Hl1); [lia..|]. cbn [of_outcome bind].
  change (negb (0 =? 0)) with false. cbv iota. unfold len in Hlen.
  do 2 (eapply wp_tame_bind; [apply tame_get_u16; lia|]; intros ? _).
  eapply wp_tame_bind; [by apply find_pcb_keeps|]. intros [pcb u1] [Hi1 Hpcb]. cbn [fst snd] in *.
  destruct (match pcb with Some _ => true | None => _ end); [|by apply wp_dropped].
  eapply wp_tame_bind; [apply tame_get_u16; lia|]. intros ck _. destruct (_ && _); [by apply wp_keeps, discard_keeps|].
  destruct (header_removed p1 8) as (p2 & -> & _); [lia|unfold len; lia|]. cbn [of_outcome bind].
  change (negb (0 =? 0)) with false. cbv iota. destruct pcb as [pcb|]; [|apply wp_keeps, no_port_keeps; [done|lia]].
  specialize (Hpcb pcb eq_refl). unfold deliver. eapply wp_tame_bind; [by eapply tame_get, inv_has|]. intros c _.
  destruct (recv c) as [f|]; [|by apply wp_dropped].
  eapply wp_mono; [by apply callback_keeps|]. intros [u2|h2] s2; [|done]. intros [Hi2 HR]. split; [done|by right].
Qed.
End traffic.

(** ** Programs over the interface

    The rules: a control block is used from its creation to its removal, ports
    are [u16_t]s, a packet is sent that there is, and one comes in with its
    headers in its first pbuf, while the DHCP client has its control block. *)

Section programs.
Context {F : Sig} (odd : list pbuf -> nat -> bool).

Definition app_req (e : op (@uapi F)) (s : gset Z) : Prop :=
  match e : udp_api with
  | ApiBind pcb _ port => pcb ∈ s /\ 0 <= port < 2 ^ 16
  | ApiConnect pcb _ _ | ApiDisconnect pcb | ApiRecv pcb _ _ | ApiRemove pcb => pcb ∈ s
  | ApiSend pcb p | ApiSendto pcb p _ _ => pcb ∈ s /\ p <> []
  | ApiNew | ApiHeap _ | ApiLower _ => True
  end.

Definition app_step (e : op (@uapi F)) (s : gset Z) : ans (@uapi F) e -> gset Z -> Prop :=
  match e as e return udp_api_ans e -> gset Z -> Prop with
  | ApiNew => fun r s' => obtained r s s'
  | ApiRemove pcb => fun _ s' => s' = (s ∖ {[ pcb ]})
  | ApiHeap e => fun x s' => heap_answers e x /\ s' = s
  | _ => fun _ s' => s' = s
  end.

Definition app_env : env (@uapi F) (gset Z) := {| req := app_req; step := app_step |}.

(** What the callbacks may do to the control blocks in memory. *)
Context (R : gset Z -> gset Z -> Prop).

Definition host_req (e : op (@uhost F)) (s : gset Z) : Prop :=
  match e : host_op with
  | Client e => app_req e s
  | Arrives p inp _ _ => headers_first p /\ dhcp_bound inp s
  end.

Definition host_step (e : op (@uhost F)) (s : gset Z) : ans (@uhost F) e -> gset Z -> Prop :=
  match e as e return host_ans e -> gset Z -> Prop with
  | Client e => app_step e s
  | Arrives _ _ _ _ => fun _ s' => s' = s \/ R s s'
  end.

Definition host_env : env (@uhost F) (gset Z) := {| req := host_req; step := host_step |}.

(** Each call succeeds, does to the control blocks in memory what the rules say
    and keeps them in order. *)
Lemma api_keeps (e : op (@uapi F)) u s : app_req e s -> udp_inv u s ->
  wp pool_env (api_code odd e u) (ends (fun r s' => udp_inv r.2 s' /\ app_step e s r.1 s')) s.
Proof.
  intros He Hi. destruct e; cbn [api_code app_req app_step] in *.
  - eapply wp_mono; [by apply udp_new_keeps|]. intros [r|h] s'; cbn [ends]; [by intros (Hr & Ho & _)|done].
  - destruct He as [Hs Hp]. eapply wp_tame; [by apply udp_bind_keeps|]. by intros r [Hr _].
  - eapply wp_tame; [by apply udp_connect_keeps|]. by intros r Hr.
  - eapply wp_tame; [by eapply (tame_updating (fun u => udp_inv u s)), udp_disconnect_keeps|]. by intros r Hr.
  - eapply wp_tame; [by eapply (tame_updating (fun u => udp_inv u s)), udp_recv_keeps|]. by intros r Hr.
  - unfold updating. eapply wp_ends_bind; [by apply udp_remove_keeps|]. by intros u' s' [Hi' ->].
  - unfold udp_send. destruct He as [Hs Hp]. eapply wp_tame_bind; [by eapply tame_get, inv_has|]. intros c _.
    eapply wp_tame; [by apply udp_sendto_keeps|]. by intros r Hr.
  - destruct He as [Hs Hp]. eapply wp_tame; [by apply udp_sendto_keeps|]. by intros r Hr.
  - split; [done|]. by intros x s' [Hx ->].
  - split; [done|]. by intros x s' ->.
Qed.

(** What a linked program ends with. *)
Definition linked_to {A} (Q : outcome A -> gset Z -> Prop) (o : outcome (A * udp_state)) (s : gset Z) : Prop :=
  match o with Done (a, u) => udp_inv u s /\ Q (Done a) s | Stop h => Q (Stop h) s end.

Lemma interp_keeps {E : Sig} (N : env E (gset Z)) (h : forall e : op E, udp_state -> prog (unet F) (ans E e * udp_state))
    {A} (p : prog E A) Q u s :
  (forall e u s, req N e s -> udp_inv u s ->
     wp pool_env (h e u) (ends (fun r s' => udp_inv r.2 s' /\ step N e s r.1 s')) s) ->
  wp N p Q s -> udp_inv u s -> wp pool_env (interp_st h p u) (linked_to Q) s.
Proof.
  intros Hh. revert u s. induction p as [a|x|e k IH]; intros u s Hp Hi; [done|exact Hp|].
  destruct Hp as [He Hk]. cbn [interp_st]. eapply wp_seq; [by apply Hh|].
  intros [[x u']|x] s' Hr; [|done]. destruct Hr as [Hi' Hs]. apply IH; [by apply Hk|done].
Qed.

Lemma app_callback_keeps apps f arg pcb p addr port u s :
  wp app_env (apps f arg pcb p addr port) (fun o s' => o = Done tt /\ R s s') s -> udp_inv u s ->
  wp pool_env (app_callback odd apps f arg pcb p addr port u) (ends (fun u s' => udp_inv u s' /\ R s s')) s.
Proof.
  intros Ha Hi. unfold app_callback. eapply wp_seq; [by apply (interp_keeps app_env); [intros; by apply api_keeps|..]|].
  intros [[x u']|h] s' Ho; cbn [linked_to] in Ho; [by destruct Ho as (Hi' & _ & HR)|by destruct Ho].
Qed.
End programs.

(** C27: The ports of UDP stay apart, and UDP does not fail: for applications that
    keep to the rules of the interface (a control block is used from its creation
    to its removal, what is sent is not empty, one operation goes on at a time) and
    packets whose first pbuf has the UDP header (or that are too short to have
    one), whatever they do in any order, also in callbacks, every operation ends,
    with no access out of bounds and no failed check, and afterwards every active
    control block is in memory, on the list once and has a port, two with the same
    port have different addresses, neither of them any, and a control block with a
    port is on the list.  So what holds of the applications over the rules alone
    holds of them over the code. *)
Theorem ports_stay_apart {F A} odd R (apps : Z -> Z -> Z -> list pbuf -> Z -> Z -> prog (@uapi F) unit) (p : prog (@uhost F) A) Q :
  (forall f arg pcb q addr port s, pcb ∈ s -> q <> [] ->
     wp app_env (apps f arg pcb q addr port) (fun o s' => o = Done tt /\ R s s') s) ->
  wp (host_env R) p Q ∅ ->
  wp pool_env (interp_st (host_code odd apps) p (UdpState ∅ []))
    (fun o s => match o with Done (a, u) => udp_inv u s /\ Q (Done a) s | Stop h => Q (Stop h) s end) ∅.
Proof.
  intros Happs Hp. apply (interp_keeps (host_env R)); [|exact Hp|apply inv_empty].
  intros [e|q inp isrc idest] u s He Hi; [by apply api_keeps|]. destruct He as [Hq Hd].
  cbn [host_code step host_env host_step]. unfold updating.
  eapply wp_ends_bind; [apply (udp_input_keeps odd R); [|done..]|by intros u' s' Hi'].
  intros. apply app_callback_keeps; [by apply Happs|done].
Qed.

(** An application that opens a port, with a callback that answers, and a
    second one that tries the same port, while a packet arrives; the first is
    closed again. *)
Definition sample_program {F} (p : list pbuf) : prog (@uhost F) unit :=
  let! a := @trigger (@uhost F) (Client ApiNew) in
  match a : option Z with
  | None => Ret tt
  | Some a =>
    let! _ := @trigger (@uhost F) (Client (ApiBind a 0 2000)) in
    let! _ := @trigger (@uhost F) (Client (ApiRecv a (Some 7) 0)) in
    let! b := @trigger (@uhost F) (Client ApiNew) in
    match b : option Z with
    | None => Ret tt
    | Some b =>
      let! _ := @trigger (@uhost F) (Client (ApiBind b 0 2000)) in
      let! _ := @trigger (@uhost F) (Client (ApiConnect b 0x0200a8c0 2001)) in
      let! _ := @trigger (@uhost F) (Arrives p sample_netif 0x0200a8c0 0x0100a8c0) in
      @trigger (@uhost F) (Client (ApiRemove a))
    end
  end.

Definition sample_app {F} (f arg pcb : Z) (p : list pbuf) (addr port : Z) : prog (@uapi F) unit :=
  let! _ := @trigger (@uapi F) (ApiSendto pcb p addr port) in Ret tt.

Lemma ports_stay_apart_witness :
  wp pool_env (interp_st (host_code (fun _ _ => false) sample_app)
      (@sample_program hw [Pbuf PBUF_POOL [] (sample_ip ++ [7; 209; 7; 208; 0; 10; 0; 0; 1; 2]) 30 1]) (UdpState ∅ []))
    (fun o s => match o with Done (a, u) => udp_inv u s /\ Done a = Done tt | Stop h => @Stop unit h = Done tt end) ∅.
Proof.
  apply (ports_stay_apart (fun _ _ => false) (fun s s' => s' = s) sample_app (sample_program _) (fun o _ => o = Done tt)).
  - intros f arg pcb q addr port s Hs Hq. split; [done|]. by intros x s' ->.
  - split; [done|]. intros a s1 [[-> ->]|(a' & -> & _ & _ & ->)]; [done|]. cbn [sample_program].
    do 2 (split; [set_solver by lia|]; intros ? ? ->). split; [done|].
    intros b s2 [[-> ->]|(b' & -> & _ & _ & ->)]; [done|].
    do 2 (split; [set_solver by lia|]; intros ? ? ->).
    split.
    { split; [|done]. eexists _, [], _. split; [reflexivity|]. split; [by vm_compute|]. right. by vm_compute. }
    intros ? ? [-> | ->]; (split; [set_solver|]; by intros [] ? ->).
Defined.
