(* ===== verification/LwipIp.v ===== *)
(** * IP of the network stack (ip.c)

    src/src/ASF/thirdparty/lwip/lwip-1.4.0/src/core/ipv4/ip.c as configured: no
    forwarding, options allowed, checksums generated inline and checked,
    fragments and raw sockets, packets for the DHCP client accepted at any
    address; traces and SNMP counters are left out, and failing assertions do
    nothing ([LWIP_NOASSERT]).  The interfaces' output, fragmentation and
    reassembly are calls of the signature [inet], next to those [Above] of the
    upper protocols, which are arguments of [ip_input]. *)

From S2P Require Import Prelude Prog Pbuf PbufAlloc Chksum LwipUdp.

(** ** Headers in memory *)

Section fields.
Context {S : Sig}.

(** A little-endian field at the payload of a pbuf; bytes behind its end are
    not the packet's, and there is no value for them. *)
Definition get (p : pbuf) (off n : nat) : prog S Z := defined (load off n (payload p)).
Definition put (p : pbuf) (off : nat) (bs : list Z) : prog S pbuf :=
  let! d := defined (store (payload p) off bs) in
  Ret (set_payload p (hidden p) d (tot_len p)).

Definition le2 (v : Z) : list Z := [u8 v; u8 (Z.shiftr v 8)].
End fields.

Definition IP_HLEN : Z := 20.
Definition IP_PROTO_ICMP : Z := 1.
Definition IP_PROTO_TCP : Z := 6.
Definition IP_MF : Z := 0x2000.
Definition IP_OFFMASK : Z := 0x1fff.
Definition ERR_BUF : Z := -2.
Definition ICMP_DUR_PROTO : Z := 2.
Definition NETIF_FLAG_UP : Z := 0x01.

Definition netif_is_up (n : netif) : bool := negb (Z.land (netif_flags n) NETIF_FLAG_UP =? 0).

(** [_v_hl_tos] as it is loaded. *)
Definition IPH_V (v : Z) : Z := Z.shiftr (lwip_ntohs v) 12.
Definition IPH_HL (v : Z) : Z := Z.land (Z.shiftr (lwip_ntohs v) 8) 0x0f.
Definition v_hl_tos (v hl tos : Z) : Z :=
  lwip_htons (Z.lor (Z.lor (Z.shiftl v 12) (Z.shiftl hl 8)) tos).

Definition LWIP_MAKE_U16 (a b : Z) : Z := Z.lor (Z.shiftl a 8) b.

(** ** State and calls *)

(** The variables of ip.c and the interfaces of netif.c; [current_header] is the
    packet that the pointer points into. *)
Record ip_state := IpState {
  netif_list : list netif; netif_default : option netif;
  ip_id : Z;
  current_netif : option netif; current_header : option (list pbuf);
  current_iphdr_src : Z; current_iphdr_dest : Z
}.

Definition with_id (s : ip_state) (id : Z) : ip_state :=
  IpState (netif_list s) (netif_default s) id (current_netif s) (current_header s)
    (current_iphdr_src s) (current_iphdr_dest s).
Definition with_addresses (s : ip_state) (src dest : Z) : ip_state :=
  IpState (netif_list s) (netif_default s) (ip_id s) (current_netif s) (current_header s) src dest.
Definition with_packet (s : ip_state) (n : option netif) (h : option (list pbuf)) : ip_state :=
  IpState (netif_list s) (netif_default s) (ip_id s) n h (current_iphdr_src s) (current_iphdr_dest s).

Inductive ip_stat := IpRecv | IpErr | IpDrop | IpLenerr | IpChkerr | IpProterr | IpRterr | IpXmit.
Inductive icmp_stat :=
  IcmpRecv | IcmpErr | IcmpDrop | IcmpLenerr | IcmpChkerr | IcmpProterr | IcmpXmit.

Section ip.
Context {F : Sig}.

(** The interface's [output] and [ip_frag] answer the result and the packet as
    they have left it; [ip_reass] the whole packet, when there is one. *)
Inductive inetop :=
| InHeap (e : memop)
| NetifOutput (n : netif) (p : list pbuf) (dest : Z)
| IpFrag (p : list pbuf) (n : netif) (dest : Z)
| IpReass (p : list pbuf)
| IpStat (s : ip_stat)
| IcmpStat (s : icmp_stat)
| Above (e : op F).

Definition inet_ans (e : inetop) : Type :=
  match e with
  | InHeap e => mem_ans e
  | NetifOutput _ _ _ | IpFrag _ _ _ => Z * list pbuf
  | IpReass _ => option (list pbuf)
  | Above e => ans F e
  | _ => unit
  end.

Definition inet : Sig := {| op := inetop; ans := inet_ans |}.
Definition icall (e : inetop) : prog inet (inet_ans e) := @trigger inet e.
Definition ip_count (s : ip_stat) : prog inet unit := icall (IpStat s).

Definition in_heap {A} (p : prog heap A) : prog inet A := @embed heap inet InHeap (fun _ x => x) A p.
Definition ip_pbuf_free (p : list pbuf) : prog inet unit := let! _ := in_heap (release p) in Ret tt.

(** The parity of the payload addresses of a packet. *)
Context (odd : list pbuf -> nat -> bool).

(** ** Sending *)

Fixpoint find_route (l : list netif) (dest : Z) : option netif :=
  match l with
  | [] => None
  | n :: l =>
    if netif_is_up n && ip_addr_netcmp dest (ip_addr n) (netmask n) then Some n else find_route l dest
  end.

Definition ip_route (s : ip_state) (dest : Z) : prog inet (option netif) :=
  match find_route (netif_list s) dest with
  | Some n => Ret (Some n)
  | None =>
    match netif_default s with
    | Some n => if netif_is_up n then Ret (Some n) else ip_count IpRterr;; Ret None
    | None => ip_count IpRterr;; Ret None
    end
  end.

(** The header, field by field, with its checksum summed on the way. *)
Definition write_header (s : ip_state) (p : pbuf) (src : option Z) (dest ttl tos proto : Z) (n : netif)
    : prog inet (pbuf * ip_state) :=
  let! p := put p 8 [u8 ttl] in
  let! p := put p 9 [u8 proto] in
  let chk_sum := u32 (LWIP_MAKE_U16 proto ttl) in
  let! p := put p 16 (le_bytes4 dest) in
  let chk_sum := u32 (chk_sum + Z.land dest 0xFFFF) in
  let chk_sum := u32 (chk_sum + Z.shiftr dest 16) in
  let! p := put p 0 (le2 (v_hl_tos 4 (IP_HLEN / 4) tos)) in
  let chk_sum := u32 (chk_sum + v_hl_tos 4 (IP_HLEN / 4) tos) in
  let! p := put p 2 (le2 (lwip_htons (tot_len p))) in
  let chk_sum := u32 (chk_sum + lwip_htons (tot_len p)) in
  let! p := put p 6 [0; 0] in
  let! p := put p 4 (le2 (lwip_htons (ip_id s))) in
  let chk_sum := u32 (chk_sum + lwip_htons (ip_id s)) in
  let s := with_id s (u16 (ip_id s + 1)) in
  let src := match src with Some a => if ip_addr_isany a then ip_addr n else a | None => ip_addr n end in
  let! p := put p 12 (le_bytes4 src) in
  let chk_sum := u32 (chk_sum + Z.land src 0xFFFF) in
  let chk_sum := u32 (chk_sum + Z.shiftr src 16) in
  let chk_sum := u32 (Z.shiftr chk_sum 16 + Z.land chk_sum 0xFFFF) in
  let chk_sum := u32 (Z.shiftr chk_sum 16 + chk_sum) in
  let chk_sum := u32 (Z.lnot chk_sum) in
  let! p := put p 10 (le2 (u16 chk_sum)) in
  Ret (p, s).

(** From [IP_STATS_INC(ip.xmit)] on. *)
Definition transmit (p : list pbuf) (n : netif) (dest : Z) : prog inet (Z * list pbuf) :=
  ip_count IpXmit;;
  if negb (mtu n =? 0) && (mtu n <? head_tot_len p) then icall (IpFrag p n dest)
  else icall (NetifOutput n p dest).

(** [src] is [None] for the null pointer, [dest] for [IP_HDRINCL].  The result
    and the packet as the layers below have left it. *)
Definition ip_output_if (s : ip_state) (p : list pbuf) (src dest : option Z) (ttl tos proto : Z) (n : netif)
    : prog inet (Z * list pbuf * ip_state) :=
  match p with
  | [] => Halt Undefined
  | p :: ps =>
    match dest with
    | Some dest =>
      let! (r, p) := of_outcome (pbuf_header p IP_HLEN) in
      if negb (r =? 0) then ip_count IpErr;; Ret (ERR_BUF, p :: ps, s)
      else
        let! (p, s) := write_header s p src dest ttl tos proto n in
        let! (err, q) := transmit (p :: ps) n dest in
        Ret (err, q, s)
    | None =>
      let! dest := get p 16 4 in
      let! (err, q) := transmit (p :: ps) n dest in
      Ret (err, q, s)
    end
  end.

Definition ip_output (s : ip_state) (p : list pbuf) (src : option Z) (dest ttl tos proto : Z)
    : prog inet (Z * list pbuf * ip_state) :=
  let! n := ip_route s dest in
  match n with
  | None => ip_count IpRterr;; Ret (ERR_RTE, p, s)
  | Some n => ip_output_if s p src (Some dest) ttl tos proto n
  end.

(** ** Receiving *)

(** Whether an interface takes a packet for [dest]. *)
Definition accepts (n : netif) (dest : Z) : bool :=
  netif_is_up n && negb (ip_addr_isany (ip_addr n))
  && (ip_addr_cmp dest (ip_addr n) || ip4_addr_isbroadcast dest n).

(** The loop from [netif_list] on; [inp] has been tried first. *)
Fixpoint walk_netifs (inp : netif) (dest : Z) (l : list netif) : option netif :=
  match l with
  | [] => None
  | n :: l =>
    if self n =? self inp then
      match l with
      | [] => None
      | n :: l => if accepts n dest then Some n else walk_netifs inp dest l
      end
    else if accepts n dest then Some n else walk_netifs inp dest l
  end.

Definition find_netif (s : ip_state) (inp : netif) (dest : Z) : option netif :=
  if accepts inp dest then Some inp else walk_netifs inp dest (netif_list s).

(** A packet for the DHCP client is [inp]'s whatever its address; then the
    source is not checked. *)
Definition link_layer_addressed (p : pbuf) (hlen : nat) (n : option netif) (inp : netif)
    : prog inet (option netif * bool) :=
  match n with
  | Some n => Ret (Some n, true)
  | None =>
    let! proto := get p 9 1 in
    if proto =? IP_PROTO_UDP then
      let! dest := get p (hlen + 2) 2 in
      if dest =? lwip_ntohs DHCP_CLIENT_PORT then Ret (Some inp, false) else Ret (None, true)
    else Ret (None, true)
  end.

(** The upper protocols, with a state of their own.  [raw_input] answers [None]
    when it has taken the packet; [icmp_dest_unreach] answers the IP state. *)
Context {U : Type}.
Context (raw_input : list pbuf -> netif -> ip_state * U -> prog inet (option (list pbuf) * (ip_state * U))).
Context (udp_input tcp_input icmp_input : list pbuf -> netif -> ip_state * U -> prog inet (ip_state * U)).
Context (icmp_dest_unreach : list pbuf -> Z -> ip_state -> prog inet ip_state).

Definition drop_packet (reason : ip_stat) (p : list pbuf) (s : ip_state * U) : prog inet (Z * (ip_state * U)) :=
  ip_pbuf_free p;; ip_count reason;; ip_count IpDrop;; Ret (ERR_OK, s).

Definition unknown_protocol (p : list pbuf) (inp : netif) (s : ip_state * U) : prog inet (ip_state * U) :=
  let dest := current_iphdr_dest s.1 in
  let! s :=
    (if negb (ip4_addr_isbroadcast dest inp) && negb (ip_addr_ismulticast dest) then
       let! i := icmp_dest_unreach p ICMP_DUR_PROTO s.1 in Ret (i, s.2)
     else Ret s) in
  ip_pbuf_free p;; ip_count IpProterr;; ip_count IpDrop;; Ret s.

(** From [current_netif = inp] to the end. *)
Definition to_upper_layers (p : pbuf) (ps : list pbuf) (inp : netif) (s : ip_state * U)
    : prog inet (Z * (ip_state * U)) :=
  let s := (with_packet s.1 (Some inp) (Some (p :: ps)), s.2) in
  let! (r, s) := raw_input (p :: ps) inp s in
  let! s :=
    match r with
    | None => Ret s
    | Some [] => Halt Undefined
    | Some (p :: ps) =>
      let! proto := get p 9 1 in
      if proto =? IP_PROTO_UDP then udp_input (p :: ps) inp s
      else if proto =? IP_PROTO_TCP then tcp_input (p :: ps) inp s
      else if proto =? IP_PROTO_ICMP then icmp_input (p :: ps) inp s
      else unknown_protocol (p :: ps) inp s
    end in
  Ret (ERR_OK, (with_addresses (with_packet s.1 None None) IPADDR_ANY IPADDR_ANY, s.2)).

(** From the question whether the packet consists of several fragments on. *)
Definition reassembled (p : pbuf) (ps : list pbuf) (inp : netif) (s : ip_state * U)
    : prog inet (Z * (ip_state * U)) :=
  let! offset := get p 6 2 in
  if negb (Z.land offset (lwip_htons (Z.lor IP_OFFMASK IP_MF)) =? 0) then
    let! q := icall (IpReass (p :: ps)) in
    match q : option (list pbuf) with
    | None => Ret (ERR_OK, s)
    | Some [] => Halt Undefined
    | Some (p :: ps) => to_upper_layers p ps inp s
    end
  else to_upper_layers p ps inp s.

(** From the match against the interfaces on. *)
Definition addressed (p : pbuf) (ps : list pbuf) (hlen : nat) (inp : netif) (s : ip_state * U)
    : prog inet (Z * (ip_state * U)) :=
  let src := current_iphdr_src s.1 in
  let! (n, check_ip_src) :=
    link_layer_addressed p hlen (find_netif s.1 inp (current_iphdr_dest s.1)) inp in
  if check_ip_src && negb (ip_addr_isany src)
     && (ip4_addr_isbroadcast src inp || ip_addr_ismulticast src)
  then ip_pbuf_free (p :: ps);; ip_count IpDrop;; Ret (ERR_OK, s)
  else
    match n with
    | None => ip_pbuf_free (p :: ps);; Ret (ERR_OK, s)
    | Some _ => reassembled p ps inp s
    end.

Definition ip_input (p : list pbuf) (inp : netif) (s : ip_state * U) : prog inet (Z * (ip_state * U)) :=
  ip_count IpRecv;;
  match p with
  | [] => Halt Undefined
  | p :: ps =>
    let! v := get p 0 2 in
    if negb (IPH_V v =? 4) then drop_packet IpErr (p :: ps) s
    else
      let iphdr_hlen := IPH_HL v * 4 in
      let! l := get p 2 2 in
      let iphdr_len := lwip_ntohs l in
      if (len p <? iphdr_hlen) || (tot_len p <? iphdr_len) then drop_packet IpLenerr (p :: ps) s
      else if negb (inet_chksum (odd (p :: ps) 0%nat) (take (Z.to_nat iphdr_hlen) (payload p)) =? 0)
      then drop_packet IpChkerr (p :: ps) s
      else
        let! q := in_heap (pbuf_realloc (p :: ps) iphdr_len) in
        match q with
        | [] => Halt Undefined
        | p :: ps =>
          let! dest := get p 16 4 in
          let! src := get p 12 4 in
          addressed p ps (Z.to_nat iphdr_hlen) inp (with_addresses s.1 src dest, s.2)
        end
  end.
End ip.
Arguments inetop : clear implicits.
Arguments inet : clear implicits.
