(* ===== verification/LwipIcmp.v ===== *)
(** * ICMP of the network stack (icmp.c)

    src/src/ASF/thirdparty/lwip/lwip-1.4.0/src/core/ipv4/icmp.c as configured:
    no answers to broadcast or multicast pings; the answer is made in the pbufs
    of the request when they have room for the link header, in a copy
    otherwise. *)

From S2P Require Import Prelude Prog Pbuf PbufAlloc Chksum LwipUdp LwipIp.

Definition ICMP_ER : Z := 0.
Definition ICMP_DUR : Z := 3.
Definition ICMP_ECHO : Z := 8.
Definition ICMP_TE : Z := 11.
Definition ICMP_TTL : Z := 255.
Definition ICMP_DEST_UNREACH_DATASIZE : Z := 8.
Definition SIZEOF_ICMP_ECHO_HDR : Z := 8.

Section icmp.
Context {F : Sig} (odd : list pbuf -> nat -> bool).

Definition icmp_count (s : icmp_stat) : prog (inet F) unit := icall (IcmpStat s).

(** ** Messages about a packet *)

(** [p] starts with its IP header. *)
Definition icmp_send_response (s : ip_state) (p : list pbuf) (type code : Z) : prog (inet F) ip_state :=
  let size := SIZEOF_ICMP_ECHO_HDR + IP_HLEN + ICMP_DEST_UNREACH_DATASIZE in
  let! q := in_heap (pbuf_alloc PBUF_IP size PBUF_RAM) in
  match q with
  | None => Ret s
  | Some (Chain [q]) =>
    match p with
    | [] => Halt Undefined
    | p :: _ =>
      let n := Z.to_nat (IP_HLEN + ICMP_DEST_UNREACH_DATASIZE) in
      let! q := put q 0 [u8 type] in
      let! q := put q 1 [u8 code] in
      let! q := put q 4 [0; 0] in
      let! q := put q 6 [0; 0] in
      let! original := defined (if decide (n <= length (payload p))%nat then Some (take n (payload p)) else None) in
      let! q := put q (Z.to_nat SIZEOF_ICMP_ECHO_HDR) original in
      let! q := put q 2 [0; 0] in
      let! q := put q 2 (le2 (inet_chksum (odd [q] 0%nat) (payload q))) in
      icmp_count IcmpXmit;;
      let! iphdr_src := get p 12 4 in
      let! (_, q, s) := ip_output s [q] None iphdr_src ICMP_TTL 0 IP_PROTO_ICMP in
      ip_pbuf_free q;;
      Ret s
    end
  | _ => Halt Undefined
  end.

Definition icmp_dest_unreach (p : list pbuf) (t : Z) (s : ip_state) : prog (inet F) ip_state :=
  icmp_send_response s p ICMP_DUR t.
Definition icmp_time_exceeded (p : list pbuf) (t : Z) (s : ip_state) : prog (inet F) ip_state :=
  icmp_send_response s p ICMP_TE t.

(** ** Echo *)

(** The IP header lies [hlen] bytes before the payload: a store through
    [iphdr], and the first [IP_HLEN] bytes there. *)
Definition put_iphdr (p : pbuf) (hlen off : nat) (bs : list Z) : prog (inet F) pbuf :=
  if decide (hlen <= length (hidden p))%nat then
    let! m := defined (store (hidden p ++ payload p) (length (hidden p) - hlen + off) bs) in
    Ret (set_payload p (take (length (hidden p)) m) (drop (length (hidden p)) m) (tot_len p))
  else Halt Undefined.

Definition get_iphdr (p : pbuf) (hlen : nat) : prog (inet F) (list Z) :=
  let m := drop (length (hidden p) - hlen) (hidden p ++ payload p) in
  defined (if decide (hlen <= length (hidden p) /\ Z.to_nat IP_HLEN <= length m)%nat
           then Some (take (Z.to_nat IP_HLEN) m) else None).

(** The packet, at the ICMP header, with room for the headers of the answer:
    the request itself or a copy.  [inr]: the goto [memerr], with the packet. *)
Definition with_room (p : pbuf) (ps : list pbuf) (hlen : Z) : prog (inet F) (list pbuf + list pbuf) :=
  let! (r, p) := of_outcome (pbuf_header p (PBUF_IP_HLEN + PBUF_LINK_HLEN)) in
  if negb (r =? 0) then
    let! (r, p) := of_outcome (pbuf_header p hlen) in
    if negb (r =? 0) then Ret (inr (p :: ps))
    else
      let! r := in_heap (pbuf_alloc PBUF_LINK (tot_len p) PBUF_RAM) in
      match r with
      | None => Ret (inr (p :: ps))
      | Some (Chain r) =>
        let! (err, r) := of_outcome (pbuf_copy r (p :: ps)) in
        if negb (err =? ERR_OK) then Ret (inr (p :: ps))
        else
          match r with
          | [] => Halt Undefined
          | r :: rs =>
            let! (e, r) := of_outcome (pbuf_header r (- hlen)) in
            if negb (e =? 0) then Ret (inr (p :: ps))
            else ip_pbuf_free (p :: ps);; Ret (inl (r :: rs))
          end
      | Some (Referring _ _) => Halt Undefined
      end
  else
    let! (r, p) := of_outcome (pbuf_header p (- (PBUF_IP_HLEN + PBUF_LINK_HLEN))) in
    if negb (r =? 0) then Ret (inr (p :: ps)) else Ret (inl (p :: ps)).

(** The checksum of the answer: the type has gone from [ICMP_ECHO] to 0. *)
Definition adjust_chksum (chksum : Z) : Z :=
  if lwip_htons (0xffff - Z.shiftl ICMP_ECHO 8) <=? chksum
  then u16 (chksum + (lwip_htons (Z.shiftl ICMP_ECHO 8) + 1))
  else u16 (chksum + lwip_htons (Z.shiftl ICMP_ECHO 8)).

(** From "At this point, all checks are OK" on. *)
Definition send_reply (s : ip_state) (p : pbuf) (ps : list pbuf) (hlen : Z) (inp : netif)
    : prog (inet F) ip_state :=
  let h := Z.to_nat hlen in
  let! p := put_iphdr p h 12 (le_bytes4 (current_iphdr_dest s)) in
  let! p := put_iphdr p h 16 (le_bytes4 (current_iphdr_src s)) in
  let! p := put p 0 [ICMP_ER] in
  let! chksum := get p 2 2 in
  let! p := put p 2 (le2 (adjust_chksum chksum)) in
  let! p := put_iphdr p h 8 [ICMP_TTL] in
  let! p := put_iphdr p h 10 [0; 0] in
  let! hdr := get_iphdr p h in
  let! p := put_iphdr p h 10 (le2 (inet_chksum (odd (p :: ps) 0%nat) hdr)) in
  icmp_count IcmpXmit;;
  let! (r, p) := of_outcome (pbuf_header p hlen) in
  if negb (r =? 0) then ip_pbuf_free (p :: ps);; Ret s
  else
    let! (_, p, s) := ip_output_if s (p :: ps) (Some (current_iphdr_dest s)) None ICMP_TTL 0 IP_PROTO_ICMP inp in
    ip_pbuf_free p;;
    Ret s.

Definition lenerr (s : ip_state) (p : list pbuf) : prog (inet F) ip_state :=
  ip_pbuf_free p;; icmp_count IcmpLenerr;; Ret s.

Definition echo (s : ip_state) (p : pbuf) (ps : list pbuf) (hlen : Z) (inp : netif) : prog (inet F) ip_state :=
  if ip_addr_ismulticast (current_iphdr_dest s) || ip4_addr_isbroadcast (current_iphdr_dest s) inp
  then icmp_count IcmpErr;; ip_pbuf_free (p :: ps);; Ret s
  else if tot_len p <? SIZEOF_ICMP_ECHO_HDR then lenerr s (p :: ps)
  else if negb (inet_chksum_pbuf (odd (p :: ps)) (p :: ps) =? 0)
  then ip_pbuf_free (p :: ps);; icmp_count IcmpChkerr;; Ret s
  else
    let! r := with_room p ps hlen in
    match r with
    | inr p => ip_pbuf_free p;; icmp_count IcmpErr;; Ret s
    | inl [] => Halt Undefined
    | inl (p :: ps) => send_reply s p ps hlen inp
    end.

(** [p] starts with the IP header. *)
Definition icmp_input (s : ip_state) (p : list pbuf) (inp : netif) : prog (inet F) ip_state :=
  icmp_count IcmpRecv;;
  match p with
  | [] => Halt Undefined
  | p :: ps =>
    let! v := get p 0 2 in
    let hlen := IPH_HL v * 4 in
    let! (r, p) := of_outcome (pbuf_header p (- hlen)) in
    if negb (r =? 0) || (tot_len p <? 4) then lenerr s (p :: ps)
    else
      let! type := get p 0 1 in
      if type =? ICMP_ER then ip_pbuf_free (p :: ps);; Ret s
      else if type =? ICMP_ECHO then echo s p ps hlen inp
      else
        icmp_count IcmpProterr;; icmp_count IcmpDrop;;
        ip_pbuf_free (p :: ps);; Ret s
  end.
End icmp.
