(* ===== verification/LwipStack.v ===== *)
(** * The network stack put together

    udp.c (LwipUdp.v) and icmp.c (LwipIcmp.v) linked to ip.c (LwipIp.v): a
    packet goes from the interface up to the callback of an application, and
    what an application sends down to the interface.  TCP and raw sockets, which
    are given the state and leave it, and the managers of control blocks stay
    calls, next to those [SApp] of the applications. *)

From S2P Require Import Prelude Prog Pbuf PbufAlloc LwipUdp LwipIp LwipIcmp.

Section stack.
Context {F : Sig}.

(** What IP, UDP and the protocols that are not modelled keep. *)
Definition stack : Type := ip_state * udp_state.

Inductive stackop :=
| SPcbMalloc
| SPcbFree (pcb : Z)
| SUdpStat (s : udp_stat)
| SPrint (s : list Z)
| SRawInput (p : list pbuf) (inp : netif) (s : stack)
| STcpInput (p : list pbuf) (inp : netif) (s : stack)
| SApp (e : op F).

Definition stack_ans (e : stackop) : Type :=
  match e with
  | SPcbMalloc => option Z
  | SRawInput _ _ _ => option (list pbuf) * stack
  | STcpInput _ _ _ => stack
  | SApp e => ans F e
  | _ => unit
  end.

Definition above : Sig := {| op := stackop; ans := stack_ans |}.
Definition scall (e : stackop) : prog (inet above) (stack_ans e) := @icall above (@Above above e).

Context (odd : list pbuf -> nat -> bool).

(** The calls of udp.c. *)
Definition udp_code (e : op (unet F)) (s : ip_state) : prog (inet above) (ans (unet F) e * ip_state) :=
  match e as e return prog (inet above) (unet_ans e * ip_state) with
  | OnHeap e => let! x := icall (InHeap e) in Ret (x, s)
  | PcbMalloc => let! x := scall SPcbMalloc in Ret (x, s)
  | PcbFree pcb => let! x := scall (SPcbFree pcb) in Ret (x, s)
  | IpRoute dest => let! n := ip_route s dest in Ret (n, s)
  | IpOutputIf q src dest ttl tos proto n => ip_output_if s q (Some src) (Some dest) ttl tos proto n
  | IcmpDestUnreach p code => let! s := icmp_dest_unreach odd p code s in Ret (tt, s)
  | UdpStat t => let! x := scall (SUdpStat t) in Ret (x, s)
  | UPrint t => let! x := scall (SPrint t) in Ret (x, s)
  | Lower e => let! x := scall (SApp e) in Ret (x, s)
  end.

Definition linked {A} (p : prog (unet F) A) (s : ip_state) : prog (inet above) (A * ip_state) :=
  @interp_st (unet F) (inet above) ip_state udp_code A p s.

(** What the application's callback registered at a pointer does. *)
Context (callback : Z -> Z -> Z -> list pbuf -> Z -> Z -> udp_state -> prog (unet F) udp_state).

Definition stack_udp_input (p : list pbuf) (inp : netif) (s : stack) : prog (inet above) stack :=
  let! (u, i) := linked (udp_input odd callback s.2 p inp (current_iphdr_src s.1) (current_iphdr_dest s.1)) s.1 in
  Ret (i, u).

Definition stack_icmp_input (p : list pbuf) (inp : netif) (s : stack) : prog (inet above) stack :=
  let! i := icmp_input odd s.1 p inp in Ret (i, s.2).

Definition stack_input (p : list pbuf) (inp : netif) (s : stack) : prog (inet above) (Z * stack) :=
  ip_input odd
    (fun p inp s => scall (SRawInput p inp s)) stack_udp_input
    (fun p inp s => scall (STcpInput p inp s)) stack_icmp_input
    (icmp_dest_unreach odd) p inp s.

(** An application's [udp_sendto_if] and [udp_sendto]. *)
Definition stack_sendto_if (s : stack) (pcb : Z) (p : list pbuf) (dst_ip dst_port : Z) (n : netif)
    : prog (inet above) (Z * list pbuf * stack) :=
  let! (r, i) := linked (udp_sendto_if odd s.2 pcb p dst_ip dst_port n) s.1 in
  let '(err, p, u) := r in Ret (err, p, (i, u)).
Definition stack_sendto (s : stack) (pcb : Z) (p : list pbuf) (dst_ip dst_port : Z)
    : prog (inet above) (Z * list pbuf * stack) :=
  let! (r, i) := linked (udp_sendto odd s.2 pcb p dst_ip dst_port) s.1 in
  let '(err, p, u) := r in Ret (err, p, (i, u)).
End stack.
Arguments stackop : clear implicits.
Arguments above : clear implicits.
