(* ===== verification/LwipIpSpec.v ===== *)
(** * IP headers and the way of a packet through ip.c

    The header of RFC 791 that [ip_output_if] writes, with its checksum; what
    [ip_input] checks and the packet that it hands to the upper protocols,
    without the padding of the link. *)

From stdpp Require Import fin_maps gmap.
From S2P Require Import Prelude Prog Pbuf PbufSpec PbufAlloc PbufAllocSpec Chksum ChksumSpec Twi TwiBus FpgaTwi UdpServer LwipUdp LwipUdpSpec LwipIp.

(** ** Headers *)

Record ip_fields := IpFields {
  f_tos : Z; f_len : Z; f_id : Z; f_off : Z; f_ttl : Z; f_proto : Z; f_chk : Z;
  f_src : Z; f_dst : Z; f_opts : list Z
}.

(** Addresses are kept in network order, the checksum is stored as it is summed. *)
Definition ip_bytes (f : ip_fields) : list Z :=
  [64 + (5 + Z.of_nat (length (f_opts f)) / 4); f_tos f] ++ be16 (f_len f) ++ be16 (f_id f) ++ be16 (f_off f) ++
  [f_ttl f; f_proto f] ++ le2 (f_chk f) ++ le_bytes4 (f_src f) ++ le_bytes4 (f_dst f) ++ f_opts f.

Record fields_ok (f : ip_fields) : Prop := {
  tos_u8 : is_u8 (f_tos f); ttl_u8 : is_u8 (f_ttl f); proto_u8 : is_u8 (f_proto f);
  len_u16 : is_u16 (f_len f); id_u16 : is_u16 (f_id f); off_u16 : is_u16 (f_off f); chk_u16 : is_u16 (f_chk f);
  src_u32 : is_u32 (f_src f); dst_u32 : is_u32 (f_dst f);
  opts_u8 : Forall is_u8 (f_opts f); opts_len : (length (f_opts f) <= 40)%nat;
  opts_words : Z.of_nat (length (f_opts f)) mod 4 = 0
}.

Definition with_chk (f : ip_fields) (c : Z) : ip_fields :=
  IpFields (f_tos f) (f_len f) (f_id f) (f_off f) (f_ttl f) (f_proto f) c (f_src f) (f_dst f) (f_opts f).

(** The header with the checksum of RFC 1071. *)
Definition summed (f : ip_fields) : ip_fields := with_chk f (rfc1071 (ip_bytes (with_chk f 0))).

Lemma le2_u8 v : Forall is_u8 (le2 v).
Proof. repeat (apply list.Forall_cons; split; [apply u8_range|]). constructor. Qed.

Lemma ip_bytes_u8 f : fields_ok f -> Forall is_u8 (ip_bytes f).
Proof.
  intros []. unfold ip_bytes. rewrite !Forall_app. split_and!; try apply be16_u8; try apply le2_u8; try apply le_bytes4_u8; [| |done].
  2: { by repeat (apply list.Forall_cons; split; [assumption|]). }
  apply list.Forall_cons. split; [|by apply list.Forall_cons].
  unfold is_u8. Z.to_euclidean_division_equations. lia.
Qed.

Lemma ip_bytes_length f : length (ip_bytes f) = (20 + length (f_opts f))%nat.
Proof. unfold ip_bytes, be16, le2, le_bytes4. by rewrite !length_app. Qed.

Lemma msum_le2 v bs : is_u16 v -> msum (le2 v ++ bs) = v + msum bs.
Proof.
  intros Hv. unfold le2. cbn [app]. rewrite msum_two. unfold u8. rewrite Z.shiftr_div_pow2 by lia.
  change (2 ^ 8) with 256. unfold is_u16 in Hv. Z.to_euclidean_division_equations. lia.
Qed.

(** A checksum is summed up with the rest: zero and [0xffff] are the same. *)
Lemma bytes_chk f c : fields_ok f -> is_u16 c ->
  msum (ip_bytes (with_chk f c)) = msum (ip_bytes (with_chk f 0)) + c.
Proof.
  intros Hf Hc. unfold ip_bytes. cbn [f_tos f_len f_id f_off f_ttl f_proto f_chk f_src f_dst f_opts with_chk].
  unfold be16. cbn [app]. rewrite !msum_two. rewrite !msum_le2 by (done || unfold is_u16; lia). lia.
Qed.

Lemma with_chk_ok f c : fields_ok f -> is_u16 c -> fields_ok (with_chk f c).
Proof. intros [] ?. by split. Qed.

Lemma rfc1071_u16 bs : Forall is_u8 bs -> is_u16 (rfc1071 bs).
Proof.
  intros H8. unfold rfc1071, is_u16. destruct (ones_sum_sums (words bs) (words_u16 _ H8)) as [Ho _]. lia.
Qed.

Lemma summed_ok f : fields_ok f -> fields_ok (summed f).
Proof. intros Hf. apply with_chk_ok; [done|]. apply rfc1071_u16, ip_bytes_u8, with_chk_ok; [done|unfold is_u16; lia]. Qed.

Lemma first_word_pos f : fields_ok f -> 0 < msum (ip_bytes f).
Proof.
  intros Hf. pose proof (ip_bytes_u8 f Hf) as H8. unfold ip_bytes in *. cbn [app] in *. rewrite msum_two.
  apply list.Forall_cons in H8 as [H0 H8]. apply list.Forall_cons in H8 as [H1 H8]. apply msum_nonneg in H8.
  destruct Hf. unfold is_u8 in *. Z.to_euclidean_division_equations. lia.
Qed.

(** A checksum that makes the sum right: the receiver's is 0. *)
Lemma chk_verifies f c : fields_ok f -> is_u16 c -> c mod 0xffff = rfc1071 (ip_bytes (with_chk f 0)) mod 0xffff ->
  rfc1071 (ip_bytes (with_chk f c)) = 0.
Proof.
  intros Hf Hc Hm. assert (fields_ok (with_chk f 0)) as Hf0 by (apply with_chk_ok; [done|unfold is_u16; lia]).
  apply rfc1071_zero; [by apply ip_bytes_u8, with_chk_ok|]. split; [by apply first_word_pos, with_chk_ok|].
  rewrite bytes_chk by done. pose proof (ip_bytes_u8 _ Hf0) as H8.
  destruct (ones_sum_sums _ (words_u16 _ H8)) as (Ho & _ & Hs & _).
  change (sum_words (words (ip_bytes (with_chk f 0)))) with (msum (ip_bytes (with_chk f 0))) in Hs.
  unfold rfc1071 in Hm. rewrite Zplus_mod, <- Hs, Hm, <- Zplus_mod.
  by replace (ones_sum _ + (0xffff - ones_sum _)) with 0xffff by lia.
Qed.

Lemma summed_verifies f : fields_ok f -> rfc1071 (ip_bytes (summed f)) = 0.
Proof.
  intros Hf. apply chk_verifies; [done| |done].
  apply rfc1071_u16, ip_bytes_u8, with_chk_ok; [done|unfold is_u16; lia].
Qed.

(** ** Sending *)

Lemma put_eq {S} (p : pbuf) off bs : (off + length bs <= length (payload p))%nat ->
  @put S p off bs = Ret (set_payload p (hidden p) (take off (payload p) ++ bs ++ drop (off + length bs) (payload p)) (tot_len p)).
Proof. intros H. unfold put. by rewrite store_in_bounds. Qed.

Lemma get_eq {S} (p : pbuf) off n : (off + n <= length (payload p))%nat ->
  @get S p off n = Ret (le_val (take n (drop off (payload p)))).
Proof. intros H. unfold get, load. by rewrite decide_True. Qed.

(** The fields of the header that [ip_output_if] writes, before the checksum. *)
Definition sent_fields (s : ip_state) (p : pbuf) (src dest ttl tos proto : Z) : ip_fields :=
  IpFields tos (tot_len p) (ip_id s) 0 ttl proto 0 src dest [].

Definition source (src : option Z) (n : netif) : Z :=
  match src with Some a => if ip_addr_isany a then ip_addr n else a | None => ip_addr n end.

Lemma vhl_bytes tos : is_u8 tos -> le2 (v_hl_tos 4 (IP_HLEN / 4) tos) = [0x45; tos] /\ v_hl_tos 4 (IP_HLEN / 4) tos = 0x45 + 256 * tos.
Proof.
  intros Ht. unfold v_hl_tos, IP_HLEN. change (Z.lor (Z.shiftl 4 12) (Z.shiftl (20 / 4) 8)) with (Z.shiftl 0x45 8).
  rewrite lor_byte by done. unfold le2. rewrite le_bytes2_htons, htons_be.
  rewrite Z.shiftr_div_pow2 by lia. change (2 ^ 8) with 256. unfold u8, be_value. cbn [fold_left].
  unfold is_u8 in Ht. split; [repeat f_equal|]; Z.to_euclidean_division_equations; lia.
Qed.

Lemma u16_u32 z : u16 (u32 z) = u16 z.
Proof. unfold u16, u32. apply Z.mod_mod_divide. by exists (2 ^ 16). Qed.

(** The last three steps of the inline checksum. *)
Lemma inline_fold c : 0 < c < 2 ^ 32 ->
  let f := u32 (Z.shiftr c 16 + Z.land c 0xFFFF) in
  let f := u32 (Z.shiftr f 16 + f) in
  exists x, u16 (u32 (Z.lnot f)) = 0xffff - x /\ sums x c.
Proof.
  intros Hc. cbv zeta.
  replace (Z.land c 0xFFFF) with (c mod 2 ^ 16) by (change 0xFFFF with (Z.ones 16); by rewrite Z.land_ones).
  rewrite !Z.shiftr_div_pow2 by lia. change (2 ^ 16) with 65536. change (2 ^ 32) with 4294967296 in Hc.
  rewrite (u32_id (c / 65536 + _)) by (unfold is_u32; Z.to_euclidean_division_equations; lia).
  set (f := c / 65536 + c mod 65536).
  assert (0 < f <= 0x1fffe) as Hf by (unfold f; Z.to_euclidean_division_equations; lia).
  rewrite (u32_id (f / 65536 + f)) by (unfold is_u32; Z.to_euclidean_division_equations; lia).
  assert (f mod 0xffff = c mod 0xffff) as Hm.
  { unfold f. rewrite (Z.div_mod c 65536) at 3 by lia. replace (65536 * (c / 65536) + c mod 65536) with
      (c / 65536 + c mod 65536 + (c / 65536) * 0xffff) by lia. by rewrite Z_mod_plus_full. }
  clearbody f. exists (if f <? 65536 then f else f - 0xffff). destruct (Z.ltb_spec f 65536) as [Hlt|Hge].
  - rewrite Z.div_small by lia. split; [|by unfold sums; lia].
    rewrite u16_u32. unfold Z.lnot, u16. change (2 ^ 16) with 65536. Z.to_euclidean_division_equations. lia.
  - assert (f / 65536 = 1) as -> by (Z.to_euclidean_division_equations; lia). split.
    + rewrite u16_u32. unfold Z.lnot, u16. symmetry. apply (Z.mod_unique_pos _ _ (-2)); lia.
    + unfold sums. split; [lia|]. split; [lia|]. split; [|lia]. rewrite <- Hm.
      replace f with (f - 0xffff + 1 * 0xffff) at 2 by lia. by rewrite Z_mod_plus_full.
Qed.

(** What is summed inline is the sum of the header. *)
Lemma fields_sum tos l id ttl proto src dest : is_u32 src -> is_u32 dest -> is_u8 tos -> is_u16 l -> is_u16 id ->
  msum (ip_bytes (IpFields tos l id 0 ttl proto 0 src dest [])) =
    (ttl + 256 * proto) + (dest mod 65536 + dest / 65536) + (0x45 + 256 * tos) + lwip_htons l + lwip_htons id +
    (src mod 65536 + src / 65536).
Proof.
  intros Hs Hd Ht Hl Hi. unfold ip_bytes. cbn [f_tos f_len f_id f_off f_ttl f_proto f_chk f_src f_dst f_opts length].
  unfold be16, le2. cbn [app]. rewrite !msum_two, (address_words src), (address_words dest) by done.
  rewrite !htons_be. unfold be_value. cbn [fold_left]. change (u8 0) with 0. change (u8 (Z.shiftr 0 8)) with 0.
  change (msum []) with 0. change (Z.of_nat 0 / 4) with 0. lia.
Qed.

Ltac put_step := rewrite put_eq by (cbn; lia); cbn [bind payload set_payload hidden tot_len take drop app Nat.add length].

Lemma write_header_eq {F} s p src dest ttl tos proto n h d :
  payload p = h ++ d -> length h = 20%nat -> is_u16 (tot_len p) -> is_u16 (ip_id s) ->
  is_u8 ttl -> is_u8 tos -> is_u8 proto -> is_u32 (source src n) -> is_u32 dest ->
  @write_header F s p src dest ttl tos proto n =
    Ret (set_payload p (hidden p) (ip_bytes (summed (sent_fields s p (source src n) dest ttl tos proto)) ++ d) (tot_len p),
         with_id s (u16 (ip_id s + 1))).
Proof.
  intros Hp Hh Hl Hi Ht Hs Hpr Hsrc Hd. set (fs := sent_fields s p (source src n) dest ttl tos proto).
  assert (fields_ok (with_chk fs 0)) as Hok.
  { split; try done; unfold is_u16; cbn; lia. }
  destruct (vhl_bytes tos Hs) as [Hv1 Hv2].
  destruct p as [pt ph pp ptl pr]. cbn [payload] in Hp. subst pp.
  do 20 (destruct h as [|? h]; [discriminate Hh|]). destruct h; [|discriminate Hh]. clear Hh.
  unfold write_header. fold (source src n). rewrite Hv1, Hv2. cbn [app].
  unfold le2, le_bytes4. do 9 put_step.
  match goal with |- context [u16 (u32 (Z.lnot ?c))] => set (ck := u16 (u32 (Z.lnot c))) end.
  assert (ck = rfc1071 (ip_bytes (with_chk fs 0))) as Hck.
  { pose proof (ip_bytes_u8 _ Hok) as H8. pose proof (first_word_pos _ Hok) as Hpos.
    unfold ck. clear ck. unfold fs, sent_fields, with_chk in Hpos, H8 |- *. cbn [tot_len f_tos f_len f_id f_off f_ttl f_proto f_src f_dst f_opts] in *.
    rewrite (fields_sum tos ptl (ip_id s)) in Hpos by done.
    assert (forall v, is_u16 v -> is_u16 (lwip_htons v)) as Hht.
    { intros v Hv. rewrite htons_eq by done. unfold is_u16 in *. Z.to_euclidean_division_equations. lia. }
    assert (forall v, is_u32 v -> 0 <= v mod 65536 < 65536 /\ 0 <= v / 65536 < 65536) as Hhalves.
    { intros v Hv. unfold is_u32 in Hv. Z.to_euclidean_division_equations. lia. }
    pose proof (Hht ptl Hl) as Hh1. pose proof (Hht (ip_id s) Hi) as Hh2.
    destruct (Hhalves dest Hd) as [Hd1 Hd2], (Hhalves _ Hsrc) as [Hs1 Hs2]. unfold is_u16, is_u8 in Hh1, Hh2, Ht, Hs, Hpr.
    destruct (inline_fold (ttl + 256 * proto + (dest mod 65536 + dest / 65536) + (69 + 256 * tos) + lwip_htons ptl +
      lwip_htons (ip_id s) + (source src n mod 65536 + source src n / 65536))) as (x & Hx & Hsum); [lia|].
    rewrite <- (rfc1071_sums _ x), <- Hx; [|done|by rewrite fields_sum]. do 2 f_equal. f_equal.
    match goal with |- u32 (Z.shiftr (u32 (Z.shiftr ?c 16 + _)) 16 + _) = u32 (Z.shiftr (u32 (Z.shiftr ?c' 16 + _)) 16 + _) =>
      assert (c = c') as ->; [|reflexivity] end.
    unfold LWIP_MAKE_U16. rewrite lor_byte, !Z.shiftr_div_pow2 by (done || lia). change (2 ^ 16) with 65536.
    rewrite (proj1 (lshr16 dest Hd)), (proj1 (lshr16 _ Hsrc)).
    repeat match goal with |- context [u32 ?x] =>
      lazymatch x with context [u32 _] => fail | _ => rewrite (u32_id x) by (unfold is_u32; lia) end end. lia. }
  clearbody ck. subst ck.
  pose proof (le_bytes2_htons ptl) as Hb1. injection Hb1 as -> ->.
  pose proof (le_bytes2_htons (ip_id s)) as Hb2. injection Hb2 as -> ->.
  rewrite (u8_id ttl), (u8_id proto), drop_0 by done. reflexivity.
Qed.

(** ** What IP needs of an environment

    The memory of the host is a part of its state that the calls of the memory
    manager change as they do (PbufAllocSpec.v), and statistics change nothing. *)
Class Site_env {F : Sig} {S : Type} (N : env (inet F) S) := {
  mget : S -> pools;
  mset : pools -> S -> S;
  mset_get s : mset (mget s) s = s;
  mget_set m s : mget (mset m s) = m;
  mset_set m m' s : mset m (mset m' s) = mset m s;
  heap_req (e : memop) s : mem_req e (mget s) -> req N (InHeap e) s;
  heap_step (e : memop) s (x : mem_ans e) s' : step N (InHeap e) s x s' ->
    mem_step e (mget s) x (mget s') /\ s' = mset (mget s') s;
  count_req (e : inetop F) s : match e with IpStat _ | IcmpStat _ => True | _ => False end -> req N e s;
  count_step (e : inetop F) s x s' : match e with IpStat _ | IcmpStat _ => True | _ => False end -> step N e s x s' -> s' = s
}.

Section any_site.
Context {F : Sig} {S : Type} (N : env (inet F) S) `{!Site_env N}.

Lemma wp_in_heap {A} (p : prog heap A) Q s :
  wp mem_env p (fun o m => Q o (mset m s)) (mget s) -> wp N (in_heap p) Q s.
Proof.
  intros Hp. unfold in_heap.
  apply (wp_embed mem_env N InHeap (fun _ x => x) mget mset); [apply mset_get|apply mget_set|apply mset_set| | |exact Hp].
  - apply heap_req.
  - intros e t x t' Ht. by apply heap_step.
Qed.

Lemma wp_count {B} (e : inetop F) (f : inet_ans e -> prog (inet F) B) Q s :
  match e with IpStat _ | IcmpStat _ => True | _ => False end ->
  (forall x, wp N (f x) Q s) -> wp N (bind (icall e) f) Q s.
Proof. intros He H. split; [by apply count_req|]. intros x s' Hs. rewrite (count_step e s x s' He Hs). exact (H x). Qed.

(** Giving a packet back. *)
Lemma wp_ip_free {B} q m (f : unit -> prog (inet F) B) Q s : unshared q -> mget s = holding q m ->
  wp N (f tt) Q (mset m s) -> wp N (bind (ip_pbuf_free q) f) Q s.
Proof.
  intros Hq Hm H. unfold ip_pbuf_free. step_in. apply wp_bind, (wp_in_heap). rewrite Hm.
  eapply wp_mono; [by apply release_gives_back|]. intros o s' [[c ->] ->]. exact H.
Qed.
End any_site.

(** ** A site: the memory of a stack, and the packets on its interfaces

    The layers below keep the buffers of a packet and its reference counts; they
    prepend their headers.  Reassembly may do anything. *)
Record site (X : Type) := Site { smem : pools; wire : list (netif * Z * list Z); apps : X }.
Arguments Site {X}.
Arguments smem {X}.
Arguments wire {X}.
Arguments apps {X}.

Section sites.
Context {F : Sig} {X : Type} (N : env F X).

Definition inet_req (e : op (inet F)) (s : site X) : Prop :=
  match e : inetop F with
  | InHeap e => mem_req e (smem s)
  | NetifOutput _ q _ | IpFrag q _ _ => packet q
  | Above e => req N e (apps s)
  | _ => True
  end.

Definition inet_step (e : op (inet F)) (s : site X) : ans (inet F) e -> site X -> Prop :=
  match e as e return inet_ans e -> site X -> Prop with
  | InHeap e => fun x s' => mem_step e (smem s) x (smem s') /\ wire s' = wire s /\ apps s' = apps s
  | NetifOutput n q dest => fun x s' =>
    Forall2 same_owner q x.2 /\ s' = Site (smem s) (wire s ++ [(n, dest, flat q)]) (apps s)
  | IpFrag q n dest => fun x s' =>
    Forall2 same_owner q x.2 /\ exists w, s' = Site (smem s) (wire s ++ w) (apps s)
  | IpReass _ => fun _ _ => True
  | Above e => fun x s' => step N e (apps s) x (apps s') /\ smem s' = smem s /\ wire s' = wire s
  | _ => fun _ s' => s' = s
  end.

Definition inet_env : env (inet F) (site X) := {| req := inet_req; step := inet_step |}.

#[export] Instance inet_site : Site_env inet_env.
Proof.
  refine (Build_Site_env _ _ _ smem (fun m s => Site m (wire s) (apps s)) _ _ _ _ _ _ _).
  - by intros [].
  - done.
  - done.
  - done.
  - intros e [m w a] x [m' w' a'] (Hs & Hw & Ha). cbn in *. by subst.
  - intros e s He. by destruct e.
  - intros e s x s' He Hs. by destruct e.
Defined.

Lemma holding_owner q q' m : Forall2 same_owner q q' -> holding q' m = holding q m.
Proof.
  induction 1 as [|p p' q q' [Ht _] _ IH]; [done|]. by rewrite !holding_cons, IH, Ht.
Qed.

Lemma unshared_owner q q' : Forall2 same_owner q q' -> unshared q -> unshared q'.
Proof.
  induction 1 as [|p p' q q' [_ Hr] _ IH]; [done|]. intros [Hp Hq]%list.Forall_cons.
  apply list.Forall_cons. split; [congruence|by apply IH].
Qed.

(** A packet that needs no fragments goes to the interface. *)
Lemma wp_transmit {B} q n dest (f : Z * list pbuf -> prog (inet F) B) Q s : packet q ->
  mtu n = 0 \/ head_tot_len q <= mtu n ->
  (forall err q', Forall2 same_owner q q' ->
     wp inet_env (f (err, q')) Q (Site (smem s) (wire s ++ [(n, dest, flat q)]) (apps s))) ->
  wp inet_env (bind (transmit q n dest) f) Q s.
Proof.
  intros Hq Hm H. unfold transmit, ip_count. step_in. apply (wp_count inet_env); [done|]. intros _.
  assert (negb (mtu n =? 0) && (mtu n <? head_tot_len q) = false) as ->.
  { destruct Hm as [-> | Hm]; [done|]. apply andb_false_intro2. apply Z.ltb_ge. lia. }
  split; [done|]. intros [err q'] s' [Ho ->]. by apply H.
Qed.
End sites.

(** ** [ip_output_if] *)

(** Room for [n] more bytes in front of the payload. *)
Definition room_for (n : nat) (p : pbuf) : Prop :=
  (pb_type p = PBUF_RAM \/ pb_type p = PBUF_POOL) /\ (n <= length (hidden p))%nat.

Lemma ip_output_if_eq {F} s p ps src dest ttl tos proto n :
  room_for 20 p -> packet (p :: ps) -> tot_len p + 20 < 2 ^ 16 -> is_u16 (ip_id s) ->
  is_u8 ttl -> is_u8 tos -> is_u8 proto -> is_u32 (source src n) -> is_u32 dest -> exists q h,
  let f := sent_fields s q (source src n) dest ttl tos proto in
  @ip_output_if F s (p :: ps) src (Some dest) ttl tos proto n =
    (let! (err, r) := transmit (q :: ps) n dest in Ret (err, r, with_id s (u16 (ip_id s + 1)))) /\
  packet (q :: ps) /\ flat (q :: ps) = ip_bytes (summed f) ++ flat (p :: ps) /\ fields_ok f /\
  same_owner p q /\ tot_len q = tot_len p + 20 /\ hidden p = hidden q ++ h /\ length h = 20%nat.
Proof.
  intros [Hty Hroom] Hpk Hlen Hi Ht Hs Hpr Hsrc Hd. pose proof Hpk as [[[Htot _] _] _].
  destruct (header_front 20 p Hty Hroom) as (q & h & Hh & Hp & Hhl & Hqt & Hqr & Hql & Hhid); [unfold is_u16; lia|].
  assert (packet (q :: ps)) as Hqpk by (eapply packet_room; try done; [by rewrite Hhl|lia]).
  exists (set_payload q (hidden q) (ip_bytes (summed (sent_fields s q (source src n) dest ttl tos proto)) ++ payload p) (tot_len q)), h.
  cbv zeta. change (sent_fields s (set_payload q _ _ (tot_len q))) with (sent_fields s q).
  set (f := sent_fields s q (source src n) dest ttl tos proto).
  assert (fields_ok f) as Hok.
  { split; try done; unfold is_u16; cbn; lia. }
  split; [|split; [|split; [by rewrite !flat_cons; cbn [payload set_payload]; rewrite <- app_assoc|split; [done|split; [done|split; [done|split; done]]]]]].
  - unfold ip_output_if. change IP_HLEN with (Z.of_nat 20). rewrite Hh. cbn [of_outcome bind].
    change (negb (0 =? 0)) with false. cbv iota.
    rewrite (write_header_eq s q src dest ttl tos proto n h (payload p)) by (done || unfold is_u16; lia). reflexivity.
  - eapply repaid_packet; [|exact Hqpk]. repeat split. cbn [payload set_payload].
    by rewrite Hp, !length_app, ip_bytes_length, Hhl.
Qed.

(** ** Reading a header *)

Lemma version_word f b : fields_ok f -> is_u8 b ->
  let v := le_val [64 + (5 + Z.of_nat (length (f_opts f)) / 4); b] in
  IPH_V v = 4 /\ IPH_HL v * 4 = Z.of_nat (length (ip_bytes f)).
Proof.
  intros [_ _ _ _ _ _ _ _ _ _ H2 H3] H1. cbv zeta. rewrite ip_bytes_length. unfold is_u8 in H1.
  unfold IPH_V, IPH_HL. rewrite ntohs_le.
  2: { repeat (apply list.Forall_cons; split; [unfold is_u8; Z.to_euclidean_division_equations; lia|]). constructor. }
  unfold be_value. cbn [fold_left]. rewrite !Z.shiftr_div_pow2 by lia.
  change 0x0f with (Z.ones 4). rewrite Z.land_ones by lia. change (2 ^ 12) with 4096. change (2 ^ 8) with 256. change (2 ^ 4) with 16.
  split; Z.to_euclidean_division_equations; lia.
Qed.

Section reading.
Context {S : Sig} (f : ip_fields) (p : pbuf) (r : list Z).
Context (Hf : fields_ok f) (Hp : payload p = ip_bytes f ++ r).

Lemma read_field off n bs : bs = take n (drop off (ip_bytes f)) -> (off + n <= 20)%nat ->
  @get S p off n = Ret (le_val bs).
Proof.
  intros -> Hl. rewrite get_eq by (rewrite Hp, length_app, ip_bytes_length; lia). rewrite Hp.
  rewrite drop_app_le by (rewrite ip_bytes_length; lia).
  by rewrite take_app_le by (rewrite length_drop, ip_bytes_length; lia).
Qed.

Lemma read_version : exists v, @get S p 0 2 = Ret v /\ IPH_V v = 4 /\ IPH_HL v * 4 = Z.of_nat (length (ip_bytes f)).
Proof.
  eexists. split; [by apply read_field; [reflexivity|lia]|]. apply version_word; apply Hf.
Qed.

Lemma read_len : exists v, @get S p 2 2 = Ret v /\ lwip_ntohs v = f_len f.
Proof. eexists. split; [by apply read_field; [reflexivity|lia]|]. apply ntohs_be, Hf. Qed.

Lemma read_off : @get S p 6 2 = Ret (le_val (be16 (f_off f))).
Proof. apply read_field; [reflexivity|lia]. Qed.

Lemma read_proto : @get S p 9 1 = Ret (f_proto f).
Proof. rewrite (read_field _ _ [f_proto f]) by (reflexivity || lia). cbn [le_val]. by rewrite Z.mul_0_r, Z.add_0_r. Qed.

Lemma read_src : @get S p 12 4 = Ret (f_src f).
Proof. rewrite (read_field _ _ (le_bytes4 (f_src f))) by (reflexivity || lia). by rewrite le_val_bytes4 by apply Hf. Qed.

Lemma read_dst : @get S p 16 4 = Ret (f_dst f).
Proof. rewrite (read_field _ _ (le_bytes4 (f_dst f))) by (reflexivity || lia). by rewrite le_val_bytes4 by apply Hf. Qed.
End reading.

(** A header that the first pbuf holds. *)
Lemma header_in_first f p ps d : flat (p :: ps) = ip_bytes f ++ d -> (length (ip_bytes f) <= length (payload p))%nat ->
  exists r, payload p = ip_bytes f ++ r.
Proof.
  intros Hc Hl. exists (drop (length (ip_bytes f)) (payload p)).
  rewrite <- (take_drop (length (ip_bytes f)) (payload p)) at 1. f_equal.
  rewrite (take_flat (ps := ps)) by done. by rewrite Hc, take_app_length.
Qed.

(** A packet that is not a fragment: offset zero and no more to come. *)
Definition whole (f : ip_fields) : Prop := f_off f mod 2 ^ 14 = 0.

Lemma whole_land f : fields_ok f -> whole f ->
  Z.land (le_val (be16 (f_off f))) (lwip_htons (Z.lor IP_OFFMASK IP_MF)) = 0.
Proof.
  unfold whole. intros Hf Hw. pose proof (off_u16 f Hf) as Ho. unfold is_u16 in Ho.
  change (lwip_htons (Z.lor IP_OFFMASK IP_MF)) with 0xff3f. unfold be16. cbn [le_val].
  assert (exists k, 0 <= k < 4 /\ f_off f = k * 2 ^ 14) as (k & Hk & ->).
  { exists (f_off f / 2 ^ 14). change (2 ^ 14) with 16384 in *. Z.to_euclidean_division_equations. lia. }
  assert (k = 0 \/ k = 1 \/ k = 2 \/ k = 3) as [-> | [-> | [-> | ->]]] by lia; reflexivity.
Qed.

(** ** Receiving *)

Definition valid_source (inp : netif) (src : Z) : Prop :=
  src = IPADDR_ANY \/ ip4_addr_isbroadcast src inp = false /\ ip_addr_ismulticast src = false.

(** A packet as it comes from the interface: its header, its data and the
    padding of the link, the header in the first pbuf. *)
Record arrives (f : ip_fields) (d pad : list Z) (p : pbuf) (ps : list pbuf) : Prop := {
  header_ok : fields_ok f;
  header_sum : rfc1071 (ip_bytes f) = 0;
  header_len : f_len f = Z.of_nat (length (ip_bytes f) + length d);
  header_whole : whole f;
  in_chain : packet (p :: ps);
  one_owner : unshared (p :: ps);
  contents : flat (p :: ps) = ip_bytes f ++ d ++ pad;
  header_first : (length (ip_bytes f) <= length (payload p))%nat
}.

Section receiving.
Context {F : Sig} {S : Type} (N : env (inet F) S) `{!Site_env N} (odd : list pbuf -> nat -> bool) {U : Type}.
Context (raw_input : list pbuf -> netif -> ip_state * U -> prog (inet F) (option (list pbuf) * (ip_state * U))).
Context (udp_input tcp_input icmp_input : list pbuf -> netif -> ip_state * U -> prog (inet F) (ip_state * U)).
Context (icmp_dest_unreach : list pbuf -> Z -> ip_state -> prog (inet F) ip_state).

(** What [ip_input] does with a packet that is for this host: it cuts the
    padding off and hands it up. *)
Lemma wp_ip_input f d pad p ps inp s m n Q st : arrives f d pad p ps ->
  find_netif s.1 inp (f_dst f) = Some n -> valid_source inp (f_src f) -> mget st = holding (p :: ps) m ->
  (forall q qs, packet (q :: qs) -> unshared (q :: qs) -> flat (q :: qs) = ip_bytes f ++ d ->
     payload q = take (Z.to_nat (f_len f)) (payload p) -> hidden q = hidden p -> pb_type q = pb_type p ->
     (full (p :: ps) -> full (q :: qs)) ->
     wp N (to_upper_layers raw_input udp_input tcp_input icmp_input icmp_dest_unreach q qs inp (with_addresses s.1 (f_src f) (f_dst f), s.2)) Q
       (mset (holding (q :: qs) m) st)) ->
  wp N (ip_input odd raw_input udp_input tcp_input icmp_input icmp_dest_unreach (p :: ps) inp s) Q st.
Proof.
  intros [Hf Hsum Hl Hw Hpk Hun Hc Hfirst] Hn Hsrc Hm Hup.
  destruct (header_in_first f p ps (d ++ pad) Hc Hfirst) as [r Hp].
  pose proof Hpk as [[[Ht Hlt] _] _]. rewrite Hc, !length_app in Ht.
  unfold ip_input, ip_count. apply (wp_count N); [done|]. intros _.
  destruct (read_version (S := inet F) f p r Hf Hp) as (v & -> & Hv & Hhl). cbn [bind]. rewrite Hv. change (negb (4 =? 4)) with false. cbv iota.
  destruct (read_len (S := inet F) f p r Hf Hp) as (w & -> & Hlen). cbn [bind]. rewrite Hlen, Hhl.
  rewrite (proj2 (Z.ltb_ge (len p) _)) by (unfold len; lia). rewrite (proj2 (Z.ltb_ge (tot_len p) _)) by lia. cbn [orb].
  rewrite Nat2Z.id. assert (take (length (ip_bytes f)) (payload p) = ip_bytes f) as -> by (by rewrite Hp, take_app_length).
  pose proof (ip_bytes_u8 f Hf) as H8. pose proof (ip_bytes_length f) as Hbl. pose proof (opts_len f Hf) as Hol.
  assert (inet_chksum (odd (p :: ps) 0%nat) (ip_bytes f) = 0) as ->.
  { by rewrite buffer_chksum by (done || lia). }
  change (negb (0 =? 0)) with false. cbv iota. apply wp_bind, (wp_in_heap N). rewrite Hm.
  eapply wp_mono; [apply wp_returns; [apply realloc_cuts; [done|apply Hf|done]|
    apply pbuf_realloc_eq; [done|by apply list.Forall_cons in Hun as [_ Hun]|done|apply Hf]]|].
  intros o s' [(q & -> & Hqpk & Hqf & ->) [(q0 & qs & -> & Hq0 & Hqh & Hqt & Hqr) [Hqu Hqfull]]]. cbn [andthen].
  assert (payload q0 = ip_bytes f ++ take (Z.to_nat (f_len f) - length (ip_bytes f)) r) as Hp0.
  { rewrite Hq0, Hp, take_app_ge by lia. done. }
  rewrite (read_dst (S := inet F) f q0 _ Hf Hp0). cbn [bind]. rewrite (read_src (S := inet F) f q0 _ Hf Hp0). cbn [bind].
  unfold addressed. cbn [fst with_addresses current_iphdr_dest current_iphdr_src].
  change (find_netif (with_addresses s.1 (f_src f) (f_dst f)) inp (f_dst f)) with (find_netif s.1 inp (f_dst f)).
  rewrite Hn. cbn [link_layer_addressed bind].
  assert (negb (ip_addr_isany (f_src f)) && (ip4_addr_isbroadcast (f_src f) inp || ip_addr_ismulticast (f_src f)) = false) as Hok.
  { destruct Hsrc as [-> | [-> ->]]; [done|]. apply andb_false_r. }
  cbn [andb]. rewrite Hok. unfold reassembled. rewrite (read_off (S := inet F) f q0 _ Hp0). cbn [bind].
  rewrite whole_land by done. change (negb (0 =? 0)) with false. cbv iota.
  apply Hup; try done; [|intros Hfull; apply Hqfull; [done|lia]].
  rewrite Hqf, Hc, Hl. rewrite app_assoc, take_app_length' by (rewrite length_app; lia). done.
Qed.

Lemma wp_drop reason q m (x : ip_state * U) Q st : unshared q -> mget st = holding q m ->
  Q (Done (ERR_OK, x)) (mset m st) ->
  wp N (drop_packet reason q x) Q st.
Proof.
  intros Hq Hm H. unfold drop_packet, ip_count. apply (wp_ip_free N q m); [done|done|].
  do 2 (apply (wp_count N); [done|]; intros _). exact H.
Qed.

(** A header that was changed in one byte, but for its own length, is not for
    anybody. *)
Lemma wp_ip_input_damaged f d pad p ps j v old inp s m Q st :
  fields_ok f -> rfc1071 (ip_bytes f) = 0 -> packet (p :: ps) -> unshared (p :: ps) ->
  flat (p :: ps) = <[j := v]> (ip_bytes f) ++ d ++ pad -> (length (ip_bytes f) <= length (payload p))%nat ->
  ip_bytes f !! j = Some old -> is_u8 v -> v <> old -> (0 < j)%nat -> mget st = holding (p :: ps) m ->
  Q (Done (ERR_OK, s)) (mset m st) ->
  wp N (ip_input odd raw_input udp_input tcp_input icmp_input icmp_dest_unreach (p :: ps) inp s) Q st.
Proof.
  intros Hf Hsum Hpk Hun Hc Hfirst Hold Hv Hne Hj Hm HQ. pose proof (ip_bytes_u8 f Hf) as H8.
  pose proof (ip_bytes_length f) as Hbl. pose proof (opts_len f Hf) as Hol.
  set (h := <[j := v]> (ip_bytes f)) in *. assert (length h = length (ip_bytes f)) as Hhl by apply length_insert.
  assert (take (length h) (payload p) = h) as Hp by (rewrite Hhl, (take_flat (ps := ps)), Hc, <- Hhl by done; apply take_app_length).
  assert (Forall is_u8 h) as Hh8 by (by apply insert_u8).
  assert (exists b l, h = 64 + (5 + Z.of_nat (length (f_opts f)) / 4) :: b :: l) as (b & l & Hh).
  { unfold h, ip_bytes. destruct j as [|[|j]]; [lia|..]; cbn; by eexists _, _. }
  assert (is_u8 b) as Hb by (rewrite Hh in Hh8; by apply list.Forall_cons in Hh8 as [_ [Hb _]%list.Forall_cons]).
  destruct (version_word f b Hf Hb) as [Hver Hhlen].
  unfold ip_input, ip_count. apply (wp_count N); [done|]. intros _.
  rewrite (get_eq p 0 2) by lia. cbn [bind].
  assert (take 2 (drop 0 (payload p)) = [64 + (5 + Z.of_nat (length (f_opts f)) / 4); b]) as ->.
  { rewrite drop_0. transitivity (take 2 (take (length h) (payload p))); [rewrite take_take; f_equal; lia|]. by rewrite Hp, Hh. }
  rewrite Hver, Hhlen. change (negb (4 =? 4)) with false. cbv iota. rewrite (get_eq p 2 2) by lia. cbn [bind].
  rewrite (proj2 (Z.ltb_ge (len p) _)) by (unfold len; lia). cbn [orb].
  destruct (tot_len p <? _); [by apply (wp_drop _ _ m)|].
  rewrite Nat2Z.id, <- Hhl, Hp, buffer_chksum by (done || lia).
  rewrite (proj2 (Z.eqb_neq _ _)); [by apply (wp_drop _ _ m)|].
  apply (changed_byte_detected [] (ip_bytes f) j old v); done.
Qed.
End receiving.
