(* ===== verification/LwipStackSpec.v ===== *)
(** * Datagrams and pings through the stack

    LwipStack.v between the interface and the applications: what one host sends
    by UDP arrives at the listener of another, headers, checksums and padding
    gone; and a ping is answered. *)

From stdpp Require Import fin_maps gmap.
From S2P Require Import Prelude Prog Pbuf PbufSpec PbufAlloc PbufAllocSpec Chksum ChksumSpec LwipUdp LwipUdpSpec LwipIp LwipIcmp LwipStack LwipIpSpec.

(** ** Environments of the stack *)

(** What the stack needs of an environment besides: raw sockets leave the
    packets, and the statistics of UDP change nothing. *)
Class Stack_env {F : Sig} {S : Type} (N : env (inet (above F)) S) := {
  upper_req (e : stackop F) s : match e with SUdpStat _ | SRawInput _ _ _ => True | _ => False end -> req N (Above (e : op (above F))) s;
  stat_step t s (x : unit) s' : step N (Above (SUdpStat t : op (above F))) s x s' -> s' = s;
  raw_step p inp a s (r : option (list pbuf) * stack) s' :
    step N (Above (SRawInput p inp a : op (above F))) s r s' -> r = (Some p, a) /\ s' = s
}.

Section any_site.
Context {F : Sig} {S : Type} (N : env (inet (above F)) S) `{!Site_env N} `{!Stack_env N}.

Lemma wp_udp_stat {B} t (f : unit -> prog (inet (above F)) B) Q s :
  wp N (f tt) Q s -> wp N (bind (scall (SUdpStat t)) f) Q s.
Proof. intros H. split; [by apply upper_req|]. intros [] s' Hs. by rewrite (stat_step t s tt s' Hs). Qed.

Lemma wp_raw {B} p inp a (f : option (list pbuf) * stack -> prog (inet (above F)) B) Q s :
  wp N (f (Some p, a)) Q s -> wp N (bind (scall (SRawInput p inp a)) f) Q s.
Proof. intros H. split; [by apply upper_req|]. intros r s' Hs. by destruct (raw_step p inp a s r s' Hs) as [-> ->]. Qed.

(** A statistic of UDP. *)
Lemma wp_linked_stat {A B} odd t (k : unit -> prog (unet F) A) i (f : A * ip_state -> prog (inet (above F)) B) Q st :
  wp N (bind (linked odd (k tt) i) f) Q st -> wp N (bind (linked odd (bind (stat t) k) i) f) Q st.
Proof.
  intros H. unfold linked in *. cbn [bind stat ucall trigger interp_st udp_code]. step_in. step_in.
  by apply wp_udp_stat.
Qed.

(** The memory calls of UDP are those of IP. *)
Lemma linked_heap {A B C} odd (p : prog heap A) (g : A -> prog (unet F) B) (k : B -> prog (unet F) C) i :
  linked odd (bind (bind (on_heap p) g) k) i ≈ (let! x := in_heap p in linked odd (bind (g x) k) i).
Proof.
  unfold linked, on_heap, in_heap. induction p as [a|h|e q IH]; [reflexivity|reflexivity|].
  cbn [embed bind interp_st udp_code icall trigger]. exists eq_refl. intros x. apply IH.
Qed.

Lemma wp_linked_free {A B} odd q m (k : list pbuf -> prog (unet F) A) i (f : A * ip_state -> prog (inet (above F)) B) Q st :
  unshared q -> mget st = holding q m ->
  wp N (bind (linked odd (k []) i) f) Q (mset m st) ->
  wp N (bind (linked odd (bind (udp_pbuf_free q) k) i) f) Q st.
Proof.
  intros Hq Hm H.
  eapply (peq_wp N _ (let! x := in_heap (release q) in bind (linked odd (k x.2) i) f)).
  { unfold udp_pbuf_free. rewrite linked_heap, bind_bind. apply bind_proper; [reflexivity|]. by intros [c r]. }
  apply wp_bind, (wp_in_heap N). rewrite Hm. eapply wp_mono; [by apply release_gives_back|].
  intros o m' [[c ->] ->]. exact H.
Qed.
End any_site.

(** ** The environment above IP *)

Section above_env.
Context {F : Sig} {X : Type} (N : env F X).

(** Raw sockets leave the packets; TCP has none on this site. *)
Definition above_req (e : op (above F)) (x : X) : Prop :=
  match e : stackop F with
  | SApp e => req N e x
  | STcpInput _ _ _ => False
  | _ => True
  end.

Definition above_step (e : op (above F)) (x : X) : ans (above F) e -> X -> Prop :=
  match e as e return stack_ans e -> X -> Prop with
  | SApp e => step N e x
  | SRawInput p _ s => fun r x' => r = (Some p, s) /\ x' = x
  | _ => fun _ x' => x' = x
  end.

Definition above_env : env (above F) X := {| req := above_req; step := above_step |}.
Definition site_env : env (inet (above F)) (site X) := inet_env above_env.

#[export] Instance above_site : Stack_env site_env.
Proof.
  split.
  - intros e s He. by destruct e.
  - intros t s x s' (Hx & Hm & Hw). destruct s, s'. cbn in *. by subst.
  - intros p inp a s r s' ([-> Hx] & Hm & Hw). split; [done|]. destruct s, s'. cbn in *. by subst.
Defined.
End above_env.

(** ** Receiving a datagram *)

(** The state of IP between two packets. *)
Definition idle (i : ip_state) : ip_state := with_addresses (with_packet i None None) IPADDR_ANY IPADDR_ANY.

(** The state of IP while a packet is with the upper protocols. *)
Record receiving_from (i0 i : ip_state) (inp : netif) (src dst : Z) : Prop := {
  same_list : netif_list i = netif_list i0; same_default : netif_default i = netif_default i0;
  same_id : ip_id i = ip_id i0; from_netif : current_netif i = Some inp;
  from_src : current_iphdr_src i = src; to_dst : current_iphdr_dest i = dst
}.

(** [ip_input] ends once the callback has ended. *)
Definition once_done {X} (Q : outcome (Z * stack) -> X -> Prop) (o : outcome (udp_state * ip_state)) (x : X) : Prop :=
  match o with
  | Done (u, i) => Q (Done (ERR_OK, (idle i, u))) x
  | Stop h => Q (Stop h) x
  end.

(** Whoever listens at [dst] and [dport] on a host with that address gets the
    packet [pkt] as [data] from [src] and [sport], in whatever pbufs it comes if
    its headers are in the first one, and whatever padding follows it:
    [ip_input] does what the callback does with the packet. *)
Definition received_as {F S} (N : env (inet (above F)) S) `{!Site_env N} (odd : list pbuf -> nat -> bool) callback (pkt : list Z)
    (src sport dst dport : Z) (data : list Z) : Prop :=
  forall (s : stack) p ps pad inp n pcb c g m Q st,
    packet (p :: ps) -> unshared (p :: ps) -> flat (p :: ps) = pkt ++ pad -> (28 <= length (payload p))%nat ->
    find_netif s.1 inp dst = Some n -> valid_source inp src -> ip4_addr_isbroadcast dst inp = false ->
    ports_ok s.2 -> listens s.2 pcb c dst sport dport -> recv c = Some g -> mget st = holding (p :: ps) m ->
    (forall q i, packet q -> unshared q -> flat q = data -> receiving_from s.1 i inp src dst ->
       wp N (linked odd (callback g (recv_arg c) pcb q src sport s.2) i) (once_done Q)
         (mset (holding q m) st)) ->
    wp N (stack_input odd callback (p :: ps) inp s) Q st.

Lemma ip_header_bytes f : fields_ok f -> ip_header (ip_bytes f).
Proof.
  intros Hf. split; [by apply ip_bytes_u8|]. eexists _, _, _. split; [reflexivity|].
  rewrite ip_bytes_length. pose proof (opts_len f Hf). pose proof (opts_words f Hf).
  Z.to_euclidean_division_equations. lia.
Qed.

Lemma datagram_received {F S} (N : env (inet (above F)) S) `{!Site_env N} `{!Stack_env N} odd callback f src sport dst dport data :
  fields_ok f -> rfc1071 (ip_bytes f) = 0 -> whole f -> f_proto f = IP_PROTO_UDP -> f_src f = src -> f_dst f = dst ->
  f_opts f = [] -> f_len f = 28 + Z.of_nat (length data) -> Forall is_u8 data -> is_u16 sport -> is_u16 dport ->
  dport <> DHCP_CLIENT_PORT ->
  received_as N odd callback (ip_bytes f ++ udp_datagram src dst sport dport data) src sport dst dport data.
Proof.
  intros Hf Hsum Hw Hpr Hs Hd Hop Hl H8 Hsp Hdp H68 s p ps pad inp n pcb c g m Q st
    Hpk Hun Hc H28 Hn Hsrc Hb Hok Hlis Hg Hm Hcb.
  assert (length (ip_bytes f) = 20%nat) as Hl20 by (by rewrite ip_bytes_length, Hop).
  set (d := udp_datagram src dst sport dport data) in *.
  assert (length d = 8 + length data)%nat as Hdl by apply datagram_length.
  eapply (wp_ip_input N odd _ _ _ _ _ f d pad p ps inp s m n); try (by rewrite ?Hs, ?Hd).
  - split; try done; [rewrite Hl20, Hdl, Hl; lia|by rewrite <- app_assoc in Hc|lia].
  - intros q qs Hqpk Hqu Hqf Hqp _ _ _. unfold to_upper_layers.
    assert (28 <= length (payload q))%nat as Hq28 by (rewrite Hqp, length_take, Hl; lia).
    apply (wp_raw N). cbn [fst snd].
    destruct (header_in_first f q qs d Hqf) as [r Hpq]; [lia|].
    rewrite (read_proto (S := inet (above F)) f q _ Hpq). cbn [bind]. rewrite Hpr. change (IP_PROTO_UDP =? IP_PROTO_UDP) with true. cbv iota.
    unfold stack_udp_input. step_in. cbn [fst snd].
    set (i := with_packet _ _ _).
    change (current_iphdr_src i) with (f_src f). change (current_iphdr_dest i) with (f_dst f). rewrite Hs, Hd.
    destruct (udp_input_delivers odd callback s.2 q qs inp (ip_bytes f) src dst sport dport data pcb c g)
      as (q' & -> & (_ & _ & Ht & Hr & _) & Hpk' & Hf'); try done.
    { by apply ip_header_bytes. } { lia. } { rewrite <- Hs. apply Hf. } { rewrite <- Hd. apply Hf. }
    apply (wp_linked_stat N). apply list.Forall_cons in Hqu as [Hq1 Hqu]. apply wp_bind.
    rewrite holding_cons, <- Ht, <- (holding_cons q').
    eapply wp_mono; [apply (Hcb (q' :: qs) i); try done; apply list.Forall_cons; split; [congruence|done]|].
    intros [[u i']|h] st'; cbn [once_done andthen bind wp fst snd]; done.
Qed.

(** ** From one host to another *)

Lemma source_own c n src : source_ip c n = Some src -> source (Some src) n = src.
Proof.
  intros Hs. assert (src = ip_addr n) as ->.
  { unfold source_ip, ip_addr_cmp in Hs. destruct (ip_addr_isany (local_ip c)); [by injection Hs|].
    destruct (Z.eqb_spec (local_ip c) (ip_addr n)) as [He|]; [|done]. injection Hs. by rewrite He. }
  cbn [source]. by destruct (ip_addr_isany (ip_addr n)).
Qed.

(** A header of a datagram of [n] bytes. *)
Record datagram_header (f : ip_fields) (src dst n : Z) : Prop := {
  dh_ok : fields_ok f; dh_sum : rfc1071 (ip_bytes f) = 0; dh_whole : whole f; dh_proto : f_proto f = IP_PROTO_UDP;
  dh_src : f_src f = src; dh_dst : f_dst f = dst; dh_opts : f_opts f = []; dh_len : f_len f = 28 + n
}.

(** What [stack_sendto_if] comes to: the packet [r] for the interface. *)
Lemma stack_sendto_if_eq {F} odd s pcb p ps dst dport n c src :
  blocks s.2 !! pcb = Some c -> 0 < local_port c < 2 ^ 16 -> Z.land (flags c) UDP_FLAGS_NOCHKSUM = 0 ->
  is_u8 (ttl c) -> is_u8 (tos c) -> is_u16 (ip_id s.1) ->
  source_ip c n = Some src -> is_u32 src -> is_u32 dst ->
  packet (p :: ps) -> Forall is_u8 (flat (p :: ps)) -> room_for 28 p -> tot_len p + 28 < 2 ^ 16 ->
  exists r f h, @stack_sendto_if F odd s pcb (p :: ps) dst dport n ≈
      (let! (err, q) := transmit (r :: ps) n dst in
       scall (SUdpStat StatXmit);; Ret (err, q, (with_id s.1 (u16 (ip_id s.1 + 1)), s.2))) /\
    packet (r :: ps) /\ same_owner p r /\ tot_len r = tot_len p + 28 /\ hidden p = hidden r ++ h /\ length h = 28%nat /\
    datagram_header f src dst (tot_len p) /\
    flat (r :: ps) = ip_bytes f ++ udp_datagram src dst (local_port c) dport (flat (p :: ps)).
Proof.
  intros Hc Hport Hck Httl Htos Hid Hsrc Hs Hd Hpk H8 [Hty Hroom] Hlen.
  pose proof Hpk as [[[Ht0 _] _] _].
  destruct (sendto_if_in_place (F := F) odd s.2 pcb p ps dst dport n c src) as (p' & q & Heq & Hflat & Hqpk & Hqt & Hqh & Hqr & Hql);
    try done; [lia|split; [done|lia]|lia|].
  destruct (ip_output_if_eq (F := above F) s.1 q ps (Some src) dst (ttl c) (tos c) IP_PROTO_UDP n)
    as (r & h & Hip & Hrpk & Hrf & Hok & [Hrt Hrr] & Hrl & Hrh & Hrhl); try done.
  { split; [by rewrite Hqt|]. rewrite Hqh, length_take. lia. } { lia. }
  { by rewrite (source_own c n src). }
  rewrite (source_own c n src Hsrc) in *. set (f := sent_fields _ _ _ _ _ _ _) in *.
  exists r, (summed f), (h ++ drop (length (hidden p) - 8) (hidden p)).
  split; [|split; [done|split; [split; congruence|split; [lia|split; [|split; [|split; [|]]]]]]].
  - unfold stack_sendto_if. rewrite Heq. unfold linked, emit. cbn [bind ucall trigger interp_st udp_code]. rewrite Hip, !bind_bind.
    apply bind_proper; [reflexivity|]. intros [err r']. reflexivity.
  - rewrite app_assoc, <- Hrh, Hqh. by rewrite take_drop.
  - rewrite length_app, length_drop, Hrhl. lia.
  - split; try done; [by apply summed_ok|by apply summed_verifies|cbn; lia].
  - by rewrite Hrf, Hflat.
Qed.

(** That packet is received as the datagram. *)
Lemma header_received {F S} (N : env (inet (above F)) S) `{!Site_env N} `{!Stack_env N} odd callback f src sport dst dport data :
  datagram_header f src dst (Z.of_nat (length data)) -> Forall is_u8 data -> is_u16 sport -> is_u16 dport -> dport <> DHCP_CLIENT_PORT ->
  received_as N odd callback (ip_bytes f ++ udp_datagram src dst sport dport data) src sport dst dport data.
Proof. intros [] ? ? ? ?. by apply (datagram_received N). Qed.

(** A datagram crosses from one host to another through UDP and IP: what a
    bound control block sends from a packet with room for the headers becomes one
    packet on the interface, the caller's packet is kept, and the identification
    of the next packet is one further.  On any host with that address, whatever
    its applications, that packet, cut into pbufs in any way that keeps the
    headers together and with any padding behind it, goes to the callback of the
    control block that listens at the port: it is called with exactly the bytes
    sent and with the sender's address and port, in a packet that is its own, and
    [ip_input] does nothing else. *)
Theorem datagram_crosses {F X G Y} (N : env F X) (M : env G Y) odd odd' callback s pcb p ps dst dport n c src st :
  blocks s.2 !! pcb = Some c -> 0 < local_port c < 2 ^ 16 -> Z.land (flags c) UDP_FLAGS_NOCHKSUM = 0 ->
  is_u8 (ttl c) -> is_u8 (tos c) -> is_u16 (ip_id s.1) ->
  source_ip c n = Some src -> is_u32 src -> is_u32 dst -> is_u16 dport -> dport <> DHCP_CLIENT_PORT ->
  packet (p :: ps) -> Forall is_u8 (flat (p :: ps)) -> room_for 28 p -> tot_len p + 28 < 2 ^ 16 ->
  mtu n = 0 \/ tot_len p + 28 <= mtu n ->
  wp (site_env N) (stack_sendto_if odd s pcb (p :: ps) dst dport n)
    (fun o st' => exists err p' pkt, o = Done (err, p', (with_id s.1 (u16 (ip_id s.1 + 1)), s.2)) /\
       Forall2 same_owner (p :: ps) p' /\ st' = Site (smem st) (wire st ++ [(n, dst, pkt)]) (apps st) /\
       received_as (site_env M) odd' callback pkt src (local_port c) dst dport (flat (p :: ps))) st.
Proof.
  intros Hc Hport Hck Httl Htos Hid Hsrc Hs Hd Hdp H68 Hpk H8 Hroom Hlen Hmtu. pose proof Hpk as [[[Ht _] _] _].
  destruct (stack_sendto_if_eq (F := F) odd s pcb p ps dst dport n c src) as (r & f & h & Heq & Hrpk & [Ho1 Ho2] & Hrl & _ & _ & Hf & Hrf); try done.
  eapply peq_wp; [exact Heq|]. apply wp_transmit; [done|cbn [head_tot_len]; lia|].
  intros err r' Hown. cbv beta iota. apply (wp_udp_stat (site_env N)). cbn [bind wp].
  exists err, r'. eexists. split; [done|]. split; [|split; [done|]].
  { inversion Hown as [|? r0 ? rs' [Ht' Hr'] Hrs]; subst. constructor; [|done]. split; congruence. }
  rewrite Hrf. apply (header_received (site_env M)); try done; [by rewrite <- Ht|unfold is_u16; lia].
Qed.

(** ** Damaged on the way *)

(** C26: A datagram that was changed in one byte on the way is not delivered: where
    the byte is in the IP header, but for the length of the header itself, or
    after the ports and not in the checksum of the UDP header, [ip_input] gives
    the memory of the packet back and does nothing else, whatever the callbacks
    would do: nothing is sent, no application is called, the control blocks and
    the identification stay. *)
Theorem damaged_datagram_dropped {F X} (N : env F X) odd callback s p ps inp n f src dst sport dport data pad pcb c g j old v m st :
  fields_ok f -> rfc1071 (ip_bytes f) = 0 -> whole f -> f_proto f = IP_PROTO_UDP -> f_src f = src -> f_dst f = dst ->
  f_opts f = [] -> f_len f = 28 + Z.of_nat (length data) -> Forall is_u8 data -> is_u16 sport -> is_u16 dport ->
  dport <> DHCP_CLIENT_PORT ->
  packet (p :: ps) -> unshared (p :: ps) -> (28 <= length (payload p))%nat ->
  flat (p :: ps) = <[j := v]> (ip_bytes f ++ udp_datagram src dst sport dport data) ++ pad ->
  (ip_bytes f ++ udp_datagram src dst sport dport data) !! j = Some old -> is_u8 v -> v <> old ->
  (0 < j < 20 \/ 24 <= j)%nat -> j <> 26%nat -> j <> 27%nat ->
  find_netif s.1 inp dst = Some n -> valid_source inp src -> ip4_addr_isbroadcast dst inp = false ->
  ports_ok s.2 -> listens s.2 pcb c dst sport dport -> recv c = Some g -> smem st = holding (p :: ps) m ->
  wp (site_env N) (stack_input odd callback (p :: ps) inp s)
    (fun o st' => (exists i, o = Done (ERR_OK, (i, s.2)) /\ ip_id i = ip_id s.1) /\ st' = Site m (wire st) (apps st)) st.
Proof.
  intros Hf Hsum Hw Hpr Hs Hd Hop Hl H8 Hsp Hdp H68 Hpk Hun H28 Hc Hold Hv Hne Hj H26 H27 Hn Hsrc Hb Hok Hlis Hg Hm.
  assert (length (ip_bytes f) = 20%nat) as Hl20 by (by rewrite ip_bytes_length, Hop).
  set (d := udp_datagram src dst sport dport data) in *. assert (length d = 8 + length data)%nat as Hdl by apply datagram_length.
  destruct (decide (j < 20)%nat) as [Hj20|Hj20].
  { rewrite insert_app_l in Hc by lia. rewrite <- app_assoc in Hc. rewrite lookup_app_l in Hold by lia.
    eapply (wp_ip_input_damaged (site_env N) odd _ _ _ _ _ f d pad p ps j v old inp s m); try done; [lia|lia|].
    split; [by exists s.1; destruct s|done]. }
  rewrite insert_app_r_alt, Hl20 in Hc by lia. rewrite lookup_app_r, Hl20 in Hold by lia. set (d' := <[(j - 20)%nat := v]> d) in *.
  assert (length d' = length d) as Hdl' by apply length_insert.
  eapply (wp_ip_input (site_env N) odd _ _ _ _ _ f d' pad p ps inp s m n); try (by rewrite ?Hs, ?Hd).
  - split; try done; [lia|by rewrite <- app_assoc in Hc|lia].
  - intros q qs Hqpk Hqu Hqf Hqp _ _ _. unfold to_upper_layers. apply (wp_raw (site_env N)). cbn [fst snd].
    assert (28 <= length (payload q))%nat as Hq28 by (rewrite Hqp, length_take, Hl; lia).
    destruct (header_in_first f q qs d' Hqf) as [r Hpq]; [lia|].
    rewrite (read_proto (S := inet (above F)) f q _ Hpq). cbn [bind]. rewrite Hpr. change (IP_PROTO_UDP =? IP_PROTO_UDP) with true. cbv iota.
    unfold stack_udp_input. step_in. cbn [fst snd]. set (i := with_packet _ _ _).
    change (current_iphdr_src i) with (f_src f). change (current_iphdr_dest i) with (f_dst f). rewrite Hs, Hd.
    destruct (udp_corrupted_discarded odd callback s.2 q qs inp (ip_bytes f) src dst sport dport data pcb c g (j - 20) old v)
      as (q' & (_ & _ & Ht & Hr & _) & _ & ->); try done; try lia.
    { by apply ip_header_bytes. } { rewrite <- Hs. apply Hf. } { rewrite <- Hd. apply Hf. }
    do 3 apply (wp_linked_stat (site_env N)). apply list.Forall_cons in Hqu as [Hq1 Hqu].
    apply (wp_linked_free (site_env N) odd (q' :: qs) m); [apply list.Forall_cons; split; [congruence|done]| |].
    { cbn [smem]. rewrite !holding_cons. by rewrite Ht. }
    cbn [linked interp_st bind wp fst snd]. split; [|done]. eexists. split; [done|]. by destruct s.
Qed.

(** ** Witnesses *)

Definition host_netif (addr : Z) : netif := Netif 1 addr 0x00ffffff (NETIF_FLAG_UP + NETIF_FLAG_BROADCAST) None 1500 0 [2; 0; 0; 0; 0; 1].
Definition sample_ips (addr : Z) : ip_state := IpState [host_netif addr] None 7 None None 0 0.
Definition sample_header (proto len src dst : Z) : ip_fields := summed (IpFields 0 len 7 0x4000 255 proto 0 src dst []).
Definition sample_host : site (list (event hw)) := Site (Pools 3 0 0) [] [].

Lemma sample_header_ok proto len src dst : is_u8 proto -> is_u16 len -> is_u32 src -> is_u32 dst ->
  fields_ok (sample_header proto len src dst) /\ rfc1071 (ip_bytes (sample_header proto len src dst)) = 0.
Proof.
  intros Hp Hl Hs Hd. assert (fields_ok (IpFields 0 len 7 0x4000 255 proto 0 src dst [])) as H.
  { split; try done; unfold is_u8, is_u16; cbn; lia. }
  split; [by apply summed_ok|by apply summed_verifies].
Qed.

Lemma datagram_crosses_witness :
  let p := Pbuf PBUF_RAM (replicate 40 0) [1; 2; 3] 5 1 in
  let ps := [Pbuf PBUF_POOL [] [4; 5] 2 1] in
  let n := host_netif 0x0100a8c0 in
  wp (site_env (recorder hw)) (stack_sendto_if (fun _ _ => false) (sample_ips 0x0100a8c0, sample_state 2000) 1 (p :: ps) 0x0200a8c0 2001 n)
    (fun o st' => exists err p' pkt, o = Done (err, p', (with_id (sample_ips 0x0100a8c0) 8, sample_state 2000)) /\
       Forall2 same_owner (p :: ps) p' /\ st' = Site (Pools 3 0 0) [(n, 0x0200a8c0, pkt)] [] /\
       received_as (site_env (recorder hw)) (fun _ _ => true) sample_callback pkt 0x0100a8c0 2000 0x0200a8c0 2001 [1; 2; 3; 4; 5]) sample_host.
Proof.
  intros p ps n.
  apply (datagram_crosses (recorder hw) (recorder hw) (fun _ _ => false) (fun _ _ => true) sample_callback
    (sample_ips 0x0100a8c0, sample_state 2000) 1 p ps 0x0200a8c0 2001 n (sample_pcb 2000) 0x0100a8c0 sample_host);
    try done; try (unfold is_u8, is_u16, is_u32, DHCP_CLIENT_PORT; cbn; lia).
  - split; [repeat split|repeat (apply list.Forall_cons; split; [cbn; lia|]); constructor].
  - unfold is_u8, flat. cbn. repeat (apply list.Forall_cons; split; [lia|]). constructor.
  - split; [by left|cbn; lia].
Defined.

Lemma damaged_datagram_dropped_witness :
  let f := sample_header IP_PROTO_UDP 33 0x0100a8c0 0x0200a8c0 in
  let pkt := ip_bytes f ++ udp_datagram 0x0100a8c0 0x0200a8c0 2000 2001 [1; 2; 3; 4; 5] in
  let p := Pbuf PBUF_POOL (replicate 14 0) (<[30%nat := 77]> pkt ++ [0; 0]) 35 1 in
  wp (site_env (recorder hw)) (stack_input (fun _ _ => true) sample_callback [p] (host_netif 0x0200a8c0) (sample_ips 0x0200a8c0, sample_state 2001))
    (fun o st' => (exists i, o = Done (ERR_OK, (i, sample_state 2001)) /\ ip_id i = 7) /\ st' = Site (Pools 2 0 0) [] []) sample_host.
Proof.
  intros f pkt p. destruct (sample_header_ok IP_PROTO_UDP 33 0x0100a8c0 0x0200a8c0) as [Hok Hsum];
    [unfold is_u8, IP_PROTO_UDP; lia|unfold is_u16; lia|unfold is_u32; lia..|].
  apply (damaged_datagram_dropped (recorder hw) (fun _ _ => true) sample_callback (sample_ips 0x0200a8c0, sample_state 2001)
    p [] (host_netif 0x0200a8c0) (host_netif 0x0200a8c0) f 0x0100a8c0 0x0200a8c0 2000 2001 [1; 2; 3; 4; 5] [0; 0] 1 (sample_pcb 2001) 7
    30 3 77 (Pools 2 0 0) sample_host).
  1-2: done.
  1-6: reflexivity.
  all: try (unfold is_u8, is_u16, DHCP_CLIENT_PORT; lia).
  - unfold is_u8. repeat (apply list.Forall_cons; split; [lia|]). constructor.
  - split; [repeat split; by vm_compute|]. apply list.Forall_cons. split; [cbn; lia|constructor].
  - apply list.Forall_cons. split; [done|constructor].
  - apply Nat.leb_le. by vm_compute.
  - unfold p. rewrite flat_cons. apply app_nil_r.
  - by vm_compute.
  - by vm_compute.
  - right. split; by vm_compute.
  - by vm_compute.
  - apply sample_ports. lia.
  - by apply sample_listens.
  - reflexivity.
  - reflexivity.
Defined.
