(* ===== verification/LwipIcmpSpec.v ===== *)
(** * Pings

    A ping that comes in is answered: icmp.c through ip.c.  The answer is the
    request with the addresses exchanged; its checksums are adjusted or summed
    again.  Two requests that are answered with a wrong checksum. *)

From stdpp Require Import fin_maps gmap.
From S2P Require Import Prelude Prog Pbuf PbufSpec PbufAlloc PbufAllocSpec Chksum ChksumSpec LwipUdp LwipUdpSpec LwipIp LwipIcmp LwipStack LwipIpSpec LwipStackSpec.

(** ** The checksum of the answer *)

(** A request or an answer, with the checksum as it is stored. *)
Definition echo_bytes (type code ck : Z) (rest : list Z) : list Z := [type; code] ++ le2 ck ++ rest.

Lemma echo_u8 type code ck rest : is_u8 type -> is_u8 code -> Forall is_u8 rest -> Forall is_u8 (echo_bytes type code ck rest).
Proof.
  intros Ht Hc Hr. unfold echo_bytes. rewrite !Forall_app. split_and!; [|apply le2_u8|done].
  by repeat (apply list.Forall_cons; split; [assumption|]).
Qed.

Lemma echo_sum type code ck rest : is_u16 ck -> msum (echo_bytes type code ck rest) = type + 256 * code + ck + msum rest.
Proof. intros Hc. unfold echo_bytes. cbn [app]. rewrite msum_two, msum_le2 by done. lia. Qed.

Lemma adjust_u16 ck : is_u16 ck -> is_u16 (adjust_chksum ck) /\
  (adjust_chksum ck = ck + 8 \/ adjust_chksum ck = ck + 8 - 0xffff).
Proof.
  unfold adjust_chksum. change (lwip_htons (0xffff - Z.shiftl ICMP_ECHO 8)) with 0xfff7.
  change (lwip_htons (Z.shiftl ICMP_ECHO 8)) with 8. unfold is_u16, u16. change (2 ^ 16) with 65536. intros Hc.
  destruct (Z.leb_spec 0xfff7 ck); Z.to_euclidean_division_equations; lia.
Qed.

(** It is right but for the answer that is all zeros. *)
Lemma adjusted_verifies code ck rest : is_u8 code -> is_u16 ck -> Forall is_u8 rest ->
  0 < code + msum rest -> rfc1071 (echo_bytes ICMP_ECHO code ck rest) = 0 ->
  rfc1071 (echo_bytes ICMP_ER code (adjust_chksum ck) rest) = 0.
Proof.
  intros Hc Hk Hr Hpos Hz. destruct (adjust_u16 ck Hk) as [Hu Ha].
  assert (is_u8 ICMP_ECHO /\ is_u8 ICMP_ER) as [He Hr0] by (unfold is_u8, ICMP_ECHO, ICMP_ER; lia).
  apply rfc1071_zero in Hz as [_ Hm]; [|by apply echo_u8]. apply rfc1071_zero; [by apply echo_u8|].
  pose proof (msum_nonneg rest Hr) as Hn. rewrite echo_sum in * by done. unfold ICMP_ECHO, ICMP_ER in *.
  unfold is_u8, is_u16 in *. split; [lia|]. refine (eq_trans _ Hm).
  destruct Ha as [-> | ->]; [f_equal; lia|].
  replace (8 + 256 * code + ck + msum rest) with (0 + 256 * code + (ck + 8 - 0xffff) + msum rest + 1 * 0xffff) by lia.
  by rewrite Z_mod_plus_full.
Qed.

(** ** Stores through [iphdr] *)

Lemma put_iphdr_eq {F} p h hd off bs : hidden p = h ++ hd -> (off + length bs <= length hd)%nat ->
  @put_iphdr F p (length hd) off bs =
    Ret (set_payload p (h ++ take off hd ++ bs ++ drop (off + length bs) hd) (payload p) (tot_len p)).
Proof.
  intros Hp Hl. unfold put_iphdr. rewrite Hp, length_app. rewrite decide_True by lia.
  replace (length h + length hd - length hd + off)%nat with (length h + off)%nat by lia.
  rewrite store_in_bounds by (rewrite !length_app; lia). cbn [defined bind].
  assert (forall r, take (length h + off) ((h ++ hd) ++ r) ++ bs ++ drop (length h + off + length bs) ((h ++ hd) ++ r) =
    (h ++ take off hd ++ bs ++ drop (off + length bs) hd) ++ r) as Heq.
  { intros r. rewrite <- !app_assoc, take_app_add, drop_app_ge by lia.
    replace (length h + off + length bs - length h)%nat with (off + length bs)%nat by lia.
    rewrite take_app_le, drop_app_le by lia. by rewrite <- !app_assoc. }
  rewrite Heq.
  assert (length h + length hd = length (h ++ take off hd ++ bs ++ drop (off + length bs) hd))%nat as ->
    by (rewrite !length_app, length_take, length_drop; lia).
  by rewrite take_app_length, drop_app_length.
Qed.

Lemma get_iphdr_eq {F} p h hd : hidden p = h ++ hd -> length hd = 20%nat -> @get_iphdr F p 20 = Ret hd.
Proof.
  intros Hp Hl. unfold get_iphdr. rewrite Hp, length_app, Hl. rewrite <- app_assoc, drop_app_ge by lia.
  replace (length h + 20 - 20 - length h)%nat with 0%nat by lia. rewrite drop_0, length_app.
  change (Z.to_nat IP_HLEN) with 20%nat. rewrite decide_True by lia. by rewrite <- Hl, take_app_length.
Qed.

(** ** Sending the answer *)

Definition reply_fields (f : ip_fields) (src dst : Z) : ip_fields :=
  summed (IpFields (f_tos f) (f_len f) (f_id f) (f_off f) ICMP_TTL (f_proto f) 0 src dst []).

Lemma reply_fields_ok f src dst : fields_ok f -> is_u32 src -> is_u32 dst ->
  fields_ok (IpFields (f_tos f) (f_len f) (f_id f) (f_off f) ICMP_TTL (f_proto f) 0 src dst []).
Proof. intros [] Hs Hd. split; try done; unfold is_u8, is_u16, ICMP_TTL; cbn; lia. Qed.

Lemma le_val_le2 v : is_u16 v -> le_val (le2 v) = v.
Proof.
  intros Hv. unfold le2, u8. cbn [le_val]. rewrite Z.shiftr_div_pow2 by lia. unfold is_u16 in Hv.
  change (2 ^ 8) with 256. Z.to_euclidean_division_equations. lia.
Qed.

Section replying.
Context {F : Sig} {X : Type} (N : env F X) (odd : list pbuf -> nat -> bool).

(** The part of [send_reply] that follows the changes. *)
Definition reply_out (s : ip_state) (p : pbuf) (ps : list pbuf) (hlen : Z) (inp : netif) : prog (inet F) ip_state :=
  icmp_count IcmpXmit;;
  let! (r, p) := of_outcome (pbuf_header p hlen) in
  if negb (r =? 0) then ip_pbuf_free (p :: ps);; Ret s
  else
    let! (_, p, s) := ip_output_if s (p :: ps) (Some (current_iphdr_dest s)) None ICMP_TTL 0 IP_PROTO_ICMP inp in
    ip_pbuf_free p;;
    Ret s.

Lemma send_reply_eq s r rs f h code ck e inp : fields_ok f -> f_opts f = [] ->
  is_u32 (current_iphdr_src s) -> is_u32 (current_iphdr_dest s) -> is_u16 ck ->
  hidden r = h ++ ip_bytes f -> payload r = echo_bytes ICMP_ECHO code ck e ->
  exists r', send_reply odd s r rs 20 inp = reply_out s r' rs 20 inp /\
    hidden r' = h ++ ip_bytes (reply_fields f (current_iphdr_dest s) (current_iphdr_src s)) /\
    payload r' = echo_bytes ICMP_ER code (adjust_chksum ck) e /\
    pb_type r' = pb_type r /\ ref r' = ref r /\ tot_len r' = tot_len r.
Proof.
  intros Hf Hop Hs Hd Hck Hh Hp. set (src := current_iphdr_src s) in *. set (dst := current_iphdr_dest s) in *.
  set (g := IpFields (f_tos f) (f_len f) (f_id f) (f_off f) ICMP_TTL (f_proto f) 0 dst src []).
  assert (fields_ok g) as Hg by (by apply reply_fields_ok).
  assert (forall f, f_opts f = [] -> length (ip_bytes f) = 20%nat) as Hl by (intros ? E; by rewrite ip_bytes_length, E).
  unfold send_reply. change (Z.to_nat 20) with 20%nat. fold src. fold dst.
  set (f1 := IpFields (f_tos f) (f_len f) (f_id f) (f_off f) (f_ttl f) (f_proto f) (f_chk f) dst (f_dst f) []).
  set (f2 := IpFields (f_tos f) (f_len f) (f_id f) (f_off f) (f_ttl f) (f_proto f) (f_chk f) dst src []).
  set (f3 := IpFields (f_tos f) (f_len f) (f_id f) (f_off f) ICMP_TTL (f_proto f) (f_chk f) dst src []).
  assert (forall (a b : ip_fields) (p : pbuf) off bs, hidden p = h ++ ip_bytes a -> f_opts a = [] ->
    (off + length bs <= 20)%nat -> take off (ip_bytes a) ++ bs ++ drop (off + length bs) (ip_bytes a) = ip_bytes b ->
    @put_iphdr F p 20 off bs = Ret (set_payload p (h ++ ip_bytes b) (payload p) (tot_len p))) as Hput.
  { intros a b p off bs Hpa Ha Hob Hb. rewrite <- (Hl a Ha). rewrite (put_iphdr_eq p h (ip_bytes a)); [by rewrite Hb|done|by rewrite Hl]. }
  assert (ip_bytes f = ip_bytes (IpFields (f_tos f) (f_len f) (f_id f) (f_off f) (f_ttl f) (f_proto f) (f_chk f) (f_src f) (f_dst f) [])) as Hf0.
  { destruct f. cbn in Hop. by subst. }
  rewrite Hf0 in Hh.
  rewrite (Hput _ f1 r _ _ Hh) by (done || (cbn; lia)). cbn [bind].
  rewrite (Hput f1 f2) by (done || (cbn; lia)). cbn [bind].
  rewrite put_eq by (cbn [payload set_payload]; rewrite Hp; cbn; lia). cbn [bind payload set_payload hidden tot_len]. rewrite Hp.
  cbn [echo_bytes app take drop Nat.add length].
  rewrite get_eq by (cbn; lia). cbn [bind payload set_payload drop take].
  rewrite put_eq by (cbn; lia). cbn [bind payload set_payload hidden tot_len take drop app Nat.add length].
  change (le_val (take 2 (drop 0 (le2 ck ++ e)))) with (le_val (le2 ck)). rewrite le_val_le2 by done.
  change (take 0 (le2 ck ++ e) ++ le2 (adjust_chksum ck) ++ drop (length (le2 (adjust_chksum ck))) (le2 ck ++ e))
    with (le2 (adjust_chksum ck) ++ e).
  rewrite (Hput f2 f3) by (done || (cbn; lia)). cbn [bind].
  rewrite (Hput f3 g) by (done || (cbn; lia)). cbn [bind].
  rewrite (get_iphdr_eq _ h (ip_bytes g)) by (done || by apply Hl). cbn [bind].
  rewrite buffer_chksum by (by apply ip_bytes_u8) || (rewrite Hl by done; lia).
  rewrite (Hput g (reply_fields f dst src)) by (done || (cbn; lia)). cbn [bind].
  eexists. split; [reflexivity|]. done.
Qed.

(** The answer goes out with its header in front, and its memory is given back. *)
Lemma wp_reply_out s r rs f h inp m Q st : fields_ok f -> f_opts f = [] -> hidden r = h ++ ip_bytes f ->
  packet (r :: rs) -> unshared (r :: rs) -> pb_type r = PBUF_RAM \/ pb_type r = PBUF_POOL -> tot_len r + 20 < 2 ^ 16 ->
  mtu inp = 0 \/ tot_len r + 20 <= mtu inp -> smem st = holding (r :: rs) m ->
  Q (Done s) (Site m (wire st ++ [(inp, f_dst f, ip_bytes f ++ flat (r :: rs))]) (apps st)) ->
  wp (inet_env N) (reply_out s r rs 20 inp) Q st.
Proof.
  intros Hf Hop Hh Hpk Hun Hty Hlen Hmtu Hm HQ. assert (length (ip_bytes f) = 20%nat) as Hl by (by rewrite ip_bytes_length, Hop).
  pose proof Hpk as [[[Ht _] _] _].
  destruct (header_front 20 r Hty) as (p & hd & Hph & Hpp & Hhl & Hpt & Hpr & Hpl & Hhid); [rewrite Hh, length_app; lia|unfold is_u16; lia|].
  assert (hd = ip_bytes f) as ->.
  { rewrite Hh in Hhid. apply app_inj_2 in Hhid; [by destruct Hhid|lia]. }
  unfold reply_out, icmp_count. apply (wp_count (inet_env N)); [done|]. intros _. change 20 with (Z.of_nat 20). rewrite Hph. cbn [of_outcome bind].
  change (negb (0 =? 0)) with false. cbv iota. unfold ip_output_if. rewrite (read_dst f p _ Hf Hpp). cbn [bind].
  assert (packet (p :: rs)) as Hppk by (eapply packet_room; [exact Hpk|exact Hpp|exact Hpr|lia|lia]).
  do 2 step_in. apply wp_transmit; [done|cbn [head_tot_len]; lia|]. intros err q' Hown. cbn [bind].
  assert (flat (p :: rs) = ip_bytes f ++ flat (r :: rs)) as -> by (by rewrite !flat_cons, Hpp, app_assoc).
  assert (unshared (p :: rs)) as Hpu.
  { apply list.Forall_cons in Hun as [Hr Hrs]. apply list.Forall_cons. split; [congruence|done]. }
  apply (wp_ip_free (inet_env N) q' m); [by eapply unshared_owner| |exact HQ].
  cbn [smem]. rewrite (holding_owner _ _ _ Hown), Hm, !holding_cons. by rewrite Hpt.
Qed.

(** ** Room for the answer *)

Lemma header_refused n p : 0 < n -> (length (hidden p) < Z.to_nat n)%nat -> pbuf_header p n = Done (1, p).
Proof.
  intros Hn Hl. unfold pbuf_header. rewrite (proj2 (Z.eqb_neq _ _)), (proj2 (Z.ltb_ge _ _)) by lia.
  destruct (pb_type p); rewrite ?decide_True by done; done.
Qed.

Lemma header_back n r rs : packet (r :: rs) -> pb_type r = PBUF_RAM \/ pb_type r = PBUF_POOL ->
  (n <= length (hidden r))%nat -> tot_len r + Z.of_nat n < 2 ^ 16 -> exists p p',
  pbuf_header r (Z.of_nat n) = Done (0, p) /\ pbuf_header p (- Z.of_nat n) = Done (0, p') /\
  hidden p' = hidden r /\ payload p' = payload r /\ pb_type p' = pb_type r /\ ref p' = ref r /\ packet (p' :: rs).
Proof.
  intros Hpk Hty Hn Hl. pose proof Hpk as [[[Ht _] _] _].
  destruct (header_front n r Hty Hn) as (p & hd & Hph & Hpp & Hhl & Hpt & Hpr & Hpl & Hhid); [unfold is_u16; lia|].
  assert (packet (p :: rs)) as Hppk by (eapply packet_room; [exact Hpk|exact Hpp|exact Hpr|lia|lia]).
  destruct (header_strip p rs n Hppk) as (p' & Hp' & (H1 & H2 & H3 & H4 & _) & Hpk'); [rewrite Hpp, length_app; lia|].
  exists p, p'. split; [done|]. split; [done|]. rewrite H1, H2, H3, H4, Hpp, <- Hhl, take_app_length, drop_app_length. by rewrite <- Hhid.
Qed.

(** The request as [send_reply] finds it: the header lies before the payload. *)
Record at_icmp (f : ip_fields) (d : list Z) (h : list Z) (r : pbuf) (rs : list pbuf) : Prop := {
  before_it : hidden r = h ++ ip_bytes f;
  the_message : flat (r :: rs) = d;
  its_chain : packet (r :: rs);
  its_owner : unshared (r :: rs);
  its_type : pb_type r = PBUF_RAM \/ pb_type r = PBUF_POOL;
  its_start : (4 <= length (payload r))%nat
}.

(** Without room, the packet is copied, if there is memory. *)
Lemma wp_copied {B} r rs f d h m (k : list pbuf + list pbuf -> prog (inet F) B) Q st :
  at_icmp f d h r rs -> f_opts f = [] -> full (r :: rs) -> tot_len r + 20 <= 65460 -> smem st = holding (r :: rs) m ->
  (length h < 16)%nat ->
  (forall h' r' rs', at_icmp f d h' r' rs' ->
     wp (inet_env N) (k (inl (r' :: rs'))) Q (Site (holding (r' :: rs') m) (wire st) (apps st))) ->
  (forall q, unshared q -> wp (inet_env N) (k (inr q)) Q (Site (holding q m) (wire st) (apps st))) ->
  wp (inet_env N) (bind (with_room r rs 20) k) Q st.
Proof.
  intros [Hh Hd Hpk Hun Hty Hst] Hop Hfull Hlen Hm H16 Hgot Hnone.
  assert (length (ip_bytes f) = 20%nat) as Hl by (by rewrite ip_bytes_length, Hop).
  pose proof Hpk as [[[Ht _] _] _]. apply list.Forall_cons in Hun as [Hr Hrs].
  assert (length (hidden r) = length h + 20)%nat as Hhl by (by rewrite Hh, length_app, Hl).
  unfold with_room. change (PBUF_IP_HLEN + PBUF_LINK_HLEN) with (Z.of_nat 36).
  rewrite header_refused by (rewrite ?Hhl; lia). cbn [of_outcome bind]. change (negb (1 =? 0)) with true. cbv iota.
  destruct (header_front 20 r Hty) as (p & hd & Hph & Hpp & Hhdl & Hpt & Hpr & Hpl & Hhid); [lia|unfold is_u16; lia|].
  assert (hd = ip_bytes f) as ->. { rewrite Hh in Hhid. apply app_inj_2 in Hhid; [by destruct Hhid|lia]. }
  assert (packet (p :: rs)) as Hppk by (eapply packet_room; [exact Hpk|exact Hpp|exact Hpr|lia|lia]).
  assert (flat (p :: rs) = ip_bytes f ++ d) as Hpf by (by rewrite <- Hd, !flat_cons, Hpp, app_assoc).
  assert (unshared (p :: rs)) as Hpu by (apply list.Forall_cons; split; [congruence|done]).
  assert (length d = length (flat (r :: rs))) as Hdl by (by rewrite Hd).
  assert (smem st = holding (p :: rs) m) as Hm' by (rewrite Hm, !holding_cons; by rewrite Hpt).
  change 20 with (Z.of_nat 20) at 1. rewrite Hph. cbn [of_outcome bind]. change (negb (0 =? 0)) with false. cbv iota.
  step_in. apply wp_bind, (wp_in_heap (inet_env N)). cbn [mget mset inet_site].
  eapply wp_mono; [apply (pbuf_alloc_allocates PBUF_LINK (tot_len p) PBUF_RAM); [unfold is_u16; lia|lia]|].
  intros [[[a|t n]|]|x] m1 Ha; cbn [allocated_as andthen] in *; [|by destruct Ha as ([|] & _)| |done].
  2: { subst m1. cbn [bind]. rewrite Hm'. by apply Hnone. }
  destruct Ha as (Hap & Hau & Hat & _ & H1 & Hal & ->). specialize (H1 eq_refl).
  destruct a as [|a [|]]; [done| |done].
  pose proof Hppk as [[[Hptot _] _] _].
  destruct (pbuf_copy_eq [a] (p :: rs)) as (q & -> & Hsh & Hqf); try done; [apply one_full; [done|lia]| |lia|].
  { apply list.Forall_cons in Hfull as [_ Hfull]. apply list.Forall_cons. split; [|done]. rewrite Hpp. destruct (ip_bytes f); done. }
  rewrite drop_ge, app_nil_r in Hqf by lia. cbn [of_outcome bind]. change (negb (ERR_OK =? ERR_OK)) with false. cbv iota.
  pose proof (shape_packet _ _ Hsh Hap) as Hqp.
  apply list.Forall2_cons_inv_l in Hsh as (b & q' & (S1 & S2 & S3 & S4 & S5) & Hq' & ->). apply list.Forall2_nil_inv_l in Hq' as ->.
  assert (payload b = ip_bytes f ++ d) as Hb by (rewrite <- Hpf, <- Hqf, flat_cons; by rewrite app_nil_r).
  destruct (header_strip b [] 20 Hqp) as (c & Hc & (C1 & C2 & C3 & C4 & C5) & Hcp); [rewrite Hb, length_app; lia|].
  change (Z.opp 20) with (- Z.of_nat 20). rewrite Hc. cbn [of_outcome bind]. change (negb (0 =? 0)) with false. cbv iota. step_in.
  apply list.Forall_cons in Hau as [Hau _]. apply list.Forall_cons in Hat as [Hat _].
  apply (wp_ip_free (inet_env N) (p :: rs) (holding [c] m)); [done| |].
  + cbn [smem]. rewrite Hm', holding_swap. apply (f_equal (holding (p :: rs))). by rewrite !holding_cons, C3, S1.
  + cbn [bind]. apply (Hgot (hidden b)). rewrite Hb, <- Hl, ?take_app_length, ?drop_app_length in *. split; try done.
    * rewrite flat_cons, C1. apply app_nil_r.
    * apply list.Forall_cons. split; [congruence|constructor].
    * left. congruence.
    * rewrite C1, Hdl, flat_cons, length_app. lia.
Qed.

Lemma wp_with_room {B} r rs f d h m (k : list pbuf + list pbuf -> prog (inet F) B) Q st :
  at_icmp f d h r rs -> f_opts f = [] -> full (r :: rs) -> tot_len r + 20 <= 65460 -> smem st = holding (r :: rs) m ->
  (forall h' r' rs', at_icmp f d h' r' rs' ->
     wp (inet_env N) (k (inl (r' :: rs'))) Q (Site (holding (r' :: rs') m) (wire st) (apps st))) ->
  ((length h < 16)%nat -> forall q, unshared q ->
     wp (inet_env N) (k (inr q)) Q (Site (holding q m) (wire st) (apps st))) ->
  wp (inet_env N) (bind (with_room r rs 20) k) Q st.
Proof.
  intros Hat Hop Hfull Hlen Hm Hgot Hnone. destruct (decide (length h < 16)%nat) as [H16|H16].
  { apply (wp_copied r rs f d h m); try done. intros q Hq. by apply Hnone. }
  destruct Hat as [Hh Hd Hpk Hun Hty Hst]. assert (length (ip_bytes f) = 20%nat) as Hl by (by rewrite ip_bytes_length, Hop).
  pose proof Hpk as [[[Ht _] _] _]. apply list.Forall_cons in Hun as [Hr Hrs].
  assert (length (hidden r) = length h + 20)%nat as Hhl by (by rewrite Hh, length_app, Hl).
  unfold with_room. change (PBUF_IP_HLEN + PBUF_LINK_HLEN) with (Z.of_nat 36).
  destruct (header_back 36 r rs Hpk Hty) as (p & p' & -> & Hp' & E1 & E2 & E3 & E4 & Hpk'); [lia|lia|]. cbn [of_outcome bind].
  change (negb (0 =? 0)) with false. cbv iota. rewrite Hp'. cbn [of_outcome bind]. change (negb (0 =? 0)) with false. cbv iota. cbn [bind].
  assert (st = Site (holding (p' :: rs) m) (wire st) (apps st)) as ->.
  { destruct st as [m0 w a]. cbn [smem wire apps] in *. subst m0. by rewrite !holding_cons, E3. }
  apply (Hgot h). split; [by rewrite E1|by rewrite flat_cons, E2|done| |by rewrite E3|by rewrite E2].
  apply list.Forall_cons. split; [congruence|done].
Qed.

(** ** A ping *)

(** A request with the right checksum, whose answer is not all zeros. *)
Record ping (code ck : Z) (rest : list Z) : Prop := {
  code_u8 : is_u8 code; ck_u16 : is_u16 ck; rest_u8 : Forall is_u8 rest; rest_len : (4 <= length rest)%nat;
  ping_sum : rfc1071 (echo_bytes ICMP_ECHO code ck rest) = 0; not_zeros : 0 < code + msum rest
}.

Definition reply (f : ip_fields) (code ck : Z) (rest : list Z) : list Z :=
  ip_bytes (reply_fields f (f_dst f) (f_src f)) ++ echo_bytes ICMP_ER code (adjust_chksum ck) rest.

Lemma wp_icmp_input q qs f code ck rest s inp m Q st :
  fields_ok f -> f_opts f = [] -> current_iphdr_src s = f_src f -> current_iphdr_dest s = f_dst f ->
  ping code ck rest -> flat (q :: qs) = ip_bytes f ++ echo_bytes ICMP_ECHO code ck rest ->
  packet (q :: qs) -> unshared (q :: qs) -> full (q :: qs) -> (24 <= length (payload q))%nat ->
  pb_type q = PBUF_RAM \/ pb_type q = PBUF_POOL -> tot_len q <= 65460 -> mtu inp = 0 \/ tot_len q <= mtu inp ->
  ip_addr_ismulticast (f_dst f) = false -> ip4_addr_isbroadcast (f_dst f) inp = false -> smem st = holding (q :: qs) m ->
  Q (Done s) (Site m (wire st ++ [(inp, f_src f, reply f code ck rest)]) (apps st)) ->
  ((length (hidden q) < 16)%nat -> Q (Done s) (Site m (wire st) (apps st))) ->
  wp (inet_env N) (icmp_input odd s (q :: qs) inp) Q st.
Proof.
  intros Hf Hop Hsrc Hdst [Hc8 Hck Hr8 Hrl Hsum Hpos] Hfl Hpk Hun Hfull Hlen Hty Htot Hmtu Hmc Hbc Hm HQ HQ0.
  assert (length (ip_bytes f) = 20%nat) as Hl by (by rewrite ip_bytes_length, Hop).
  set (d := echo_bytes ICMP_ECHO code ck rest) in *.
  assert (length d = 4 + length rest)%nat as Hdl by reflexivity. pose proof Hpk as [[[Ht _] _] _]. rewrite Hfl, length_app, Hl in Ht.
  destruct (header_in_first f q qs d Hfl) as [pr Hp]; [lia|].
  unfold icmp_input, icmp_count. apply (wp_count (inet_env N)); [done|]. intros _.
  destruct (read_version (S := inet F) f q _ Hf Hp) as (v & -> & _ & Hv). cbn [bind]. rewrite Hv, Hl.
  destruct (header_strip q qs 20 Hpk) as (r & Hr & (R1 & R2 & R3 & R4 & R5) & Hrpk); [lia|].
  rewrite Hr. cbn [of_outcome bind]. change (negb (0 =? 0)) with false. rewrite (proj2 (Z.ltb_ge _ _)) by lia. cbn [orb].
  assert (flat (r :: qs) = d) as Hrf by (by rewrite flat_cons, R1, drop_flat, Hfl, <- Hl, drop_app_length by lia).
  assert (4 <= length (payload r))%nat as Hr4 by (rewrite R1, length_drop; lia).
  assert (at_icmp f d (hidden q) r qs) as Hat.
  { split; [|done|done| |by rewrite R3|done].
    - rewrite R2. f_equal. by rewrite Hp, <- Hl, take_app_length.
    - apply list.Forall_cons in Hun as [Hq1 Hq2]. apply list.Forall_cons. split; [congruence|done]. }
  rewrite (get_eq r 0 1) by lia. cbn [bind]. rewrite drop_0, (take_flat (ps := qs)), Hrf by lia.
  change (le_val (take 1 d)) with 8. change (8 =? ICMP_ER) with false. change (8 =? ICMP_ECHO) with true. cbv iota.
  unfold echo. rewrite Hdst, Hmc, Hbc. cbn [orb]. rewrite (proj2 (Z.ltb_ge _ _)) by (unfold SIZEOF_ICMP_ECHO_HDR; lia).
  assert (Forall is_u8 d) as Hd8 by (apply echo_u8; [unfold is_u8, ICMP_ECHO; lia|done|done]).
  rewrite chain_chksum by (try rewrite Hrf; done || by apply wf_chain_small, Hrpk).
  rewrite Hrf, Hsum. change (negb (0 =? 0)) with false. cbv iota. change (Z.of_nat 20) with 20.
  apply (wp_with_room r qs f d (hidden q) m); [done|done| |lia| | |].
  - apply list.Forall_cons in Hfull as [_ Hfull]. apply list.Forall_cons. split; [by destruct (payload r); [simpl in Hr4; lia|]|done].
  - rewrite Hm, !holding_cons. by rewrite R3.
  - intros h r' rs' [E1 E2 E3 E4 E5 E6].
    assert (exists e, payload r' = echo_bytes ICMP_ECHO code ck e /\ rest = e ++ flat rs') as (e & Hpe & Hre).
    { rewrite flat_cons in E2. unfold d, echo_bytes, le2 in E2. destruct (payload r') as [|a0 [|a1 [|a2 [|a3 e]]]]; try (simpl in E6; lia).
      cbn [app] in E2. injection E2 as -> -> -> -> He. by exists e. }
    destruct (send_reply_eq s r' rs' f h code ck e inp Hf Hop) as (r2 & -> & S1 & S2 & S3 & S4 & S5); try done;
      [rewrite Hsrc; apply Hf|rewrite Hdst; apply Hf|].
    rewrite Hsrc, Hdst in S1. assert (length (echo_bytes ICMP_ER code (adjust_chksum ck) e) = length (payload r')) as Hel by (by rewrite Hpe).
    assert (packet (r2 :: rs')) as Hpk2.
    { destruct E3 as [[[A1 A2] A3] A4]. apply list.Forall_cons in A4 as [A4 A5]. split; [|by apply list.Forall_cons; rewrite S4].
      cbn [wf_chain]. rewrite flat_cons, length_app in *. rewrite S5, S2, Hel. done. }
    assert (tot_len r' = Z.of_nat (length d)) as Hrt by (destruct E3 as [[[A1 _] _] _]; by rewrite A1, E2).
    apply (wp_reply_out s r2 rs' (reply_fields f (f_dst f) (f_src f)) h inp m); [|done|done|done| |by rewrite S3|rewrite S5; lia|rewrite S5; lia| |].
    + apply summed_ok, reply_fields_ok; [done|apply Hf|apply Hf].
    + apply list.Forall_cons in E4 as [A4 A5]. apply list.Forall_cons. split; [congruence|done].
    + cbn [smem]. rewrite !holding_cons. by rewrite S3.
    + cbn [wire apps]. rewrite flat_cons, S2. unfold reply in HQ. rewrite Hre in HQ. exact HQ.
  - intros Hh x Hx. apply (wp_ip_free (inet_env N) x m); [done|done|]. unfold icmp_count. apply (wp_count (inet_env N)); [done|]. intros _. by apply HQ0.
Qed.
End replying.

(** C25: A ping is answered: an echo request for this host in a packet of at
    most 65460 bytes and no more than the interface sends, without IP options
    and not all zero behind its checksum, cut into pbufs in any way (unshared,
    none empty) that keeps its first 24 bytes together and with any padding
    behind it, goes through [ip_input] and [icmp_input] to one packet on the
    interface it came from, to its sender: the request's header with the
    addresses exchanged, a new time to live and the checksum of RFC 1071, and
    the request with type echo reply and a checksum that verifies, with its
    identifier, sequence number and data as they were.  Only where the first
    pbuf has no room for the link header and there is no memory for a copy is
    there no answer.  All memory is given back, nothing else happens, and the
    stack is as before.  The two conditions on the request are needed: with
    options, or all zero, it is answered with a checksum that does not verify
    ([ping_with_options_answered_wrong], [zero_ping_answered_wrong]). *)
Theorem ping_answered {F X} (N : env F X) odd callback s p ps inp n f code ck rest pad m st :
  arrives f (echo_bytes ICMP_ECHO code ck rest) pad p ps -> f_opts f = [] -> f_proto f = IP_PROTO_ICMP ->
  ping code ck rest -> full (p :: ps) -> (24 <= length (payload p))%nat ->
  pb_type p = PBUF_RAM \/ pb_type p = PBUF_POOL -> f_len f <= 65460 -> mtu inp = 0 \/ f_len f <= mtu inp ->
  find_netif s.1 inp (f_dst f) = Some n -> valid_source inp (f_src f) ->
  ip_addr_ismulticast (f_dst f) = false -> ip4_addr_isbroadcast (f_dst f) inp = false ->
  smem st = holding (p :: ps) m ->
  wp (site_env N) (stack_input odd callback (p :: ps) inp s)
    (fun o st' => o = Done (ERR_OK, (idle s.1, s.2)) /\ smem st' = m /\ apps st' = apps st /\
       ((length (hidden p) < 16)%nat /\ wire st' = wire st \/
        exists g ck', f_src g = f_dst f /\ f_dst g = f_src f /\ f_ttl g = ICMP_TTL /\ f_id g = f_id f /\
          rfc1071 (ip_bytes g) = 0 /\ rfc1071 (echo_bytes ICMP_ER code ck' rest) = 0 /\
          wire st' = wire st ++ [(inp, f_src f, ip_bytes g ++ echo_bytes ICMP_ER code ck' rest)])) st.
Proof.
  intros Ha Hop Hpr Hping Hfull H24 Hty Hlen Hmtu Hn Hsrc Hmc Hbc Hm.
  pose proof Ha as [Hf Hsum Hl Hw _ _ _ _]. assert (length (ip_bytes f) = 20%nat) as Hl20 by (by rewrite ip_bytes_length, Hop).
  pose proof Hping as [Hc8 Hck Hr8 Hrl Hps Hpos].
  eapply (wp_ip_input (site_env N) odd _ _ _ _ _ f _ pad p ps inp s m n); [done..|].
  intros q qs Hqpk Hqu Hqf Hqp Hqh Hqt Hqfull. unfold to_upper_layers. apply (wp_raw (site_env N)). cbn [fst snd].
  assert (length (echo_bytes ICMP_ECHO code ck rest) = 4 + length rest)%nat as Hdl by reflexivity.
  assert (24 <= length (payload q))%nat as Hq24 by (rewrite Hqp, length_take; lia).
  assert (tot_len q = f_len f) as Hqtot by (destruct Hqpk as [[[-> _] _] _]; rewrite Hqf, length_app, Hl; lia).
  destruct (header_in_first f q qs _ Hqf) as [r Hpq]; [lia|].
  rewrite (read_proto (S := inet (above F)) f q _ Hpq). cbn [bind]. rewrite Hpr.
  change (IP_PROTO_ICMP =? IP_PROTO_UDP) with false. change (IP_PROTO_ICMP =? IP_PROTO_TCP) with false.
  change (IP_PROTO_ICMP =? IP_PROTO_ICMP) with true. cbv iota. unfold stack_icmp_input. step_in. cbn [fst snd]. apply wp_bind.
  apply (wp_icmp_input (above_env N) odd q qs f code ck rest _ inp m); try done; [by apply Hqfull|by rewrite Hqt|lia|by rewrite Hqtot| |].
  - cbn [andthen bind wp fst snd]. split; [done|]. split; [done|]. split; [done|]. right.
    exists (reply_fields f (f_dst f) (f_src f)), (adjust_chksum ck). do 4 (split; [done|]).
    split; [apply summed_verifies, reply_fields_ok; [done|apply Hf|apply Hf]|]. split; [by apply adjusted_verifies|done].
  - rewrite Hqh. intros Hh. cbn [andthen bind wp fst snd]. split; [done|]. split; [done|]. split; [done|]. by left.
Qed.

(** ** Witness *)

Lemma ping_answered_witness :
  let rest := [0; 1; 0; 2; 97; 98; 99] in
  let ck := rfc1071 (echo_bytes ICMP_ECHO 0 0 rest) in
  let f := sample_header IP_PROTO_ICMP 31 0x0100a8c0 0x0200a8c0 in
  let p := Pbuf PBUF_POOL (replicate 14 0) (ip_bytes f ++ echo_bytes ICMP_ECHO 0 ck rest ++ [0; 0]) 33 1 in
  let inp := host_netif 0x0200a8c0 in
  wp (site_env (recorder hw)) (stack_input (fun _ _ => true) sample_callback [p] inp (sample_ips 0x0200a8c0, sample_state 2001))
    (fun o st' => o = Done (ERR_OK, (sample_ips 0x0200a8c0, sample_state 2001)) /\ smem st' = Pools 2 0 0 /\ apps st' = [] /\
       ((length (hidden p) < 16)%nat /\ wire st' = [] \/
        exists g ck', f_src g = f_dst f /\ f_dst g = f_src f /\ f_ttl g = ICMP_TTL /\ f_id g = f_id f /\
          rfc1071 (ip_bytes g) = 0 /\ rfc1071 (echo_bytes ICMP_ER 0 ck' rest) = 0 /\
          wire st' = [(inp, f_src f, ip_bytes g ++ echo_bytes ICMP_ER 0 ck' rest)])) sample_host.
Proof.
  intros rest ck f p inp. destruct (sample_header_ok IP_PROTO_ICMP 31 0x0100a8c0 0x0200a8c0) as [Hok Hsum];
    [unfold is_u8, IP_PROTO_ICMP; lia|unfold is_u16; lia|unfold is_u32; lia..|].
  assert (Forall is_u8 rest) as H8 by (unfold is_u8; repeat (apply list.Forall_cons; split; [lia|]); constructor).
  apply (ping_answered (recorder hw) (fun _ _ => true) sample_callback (sample_ips 0x0200a8c0, sample_state 2001) p [] inp inp f
    0 ck rest [0; 0] (Pools 2 0 0) sample_host).
  - split; [exact Hok|exact Hsum|reflexivity|reflexivity| | | |].
    + split; [repeat split; by vm_compute|]. apply list.Forall_cons. split; [cbn; lia|constructor].
    + apply list.Forall_cons. split; [reflexivity|constructor].
    + unfold p. rewrite flat_cons. apply app_nil_r.
    + apply Nat.leb_le. by vm_compute.
  - reflexivity.
  - reflexivity.
  - split; [unfold is_u8; lia|apply rfc1071_u16, echo_u8; [unfold is_u8, ICMP_ECHO; lia|unfold is_u8; lia|exact H8]|exact H8|cbn; lia|by vm_compute|by vm_compute].
  - apply list.Forall_cons. split; [by vm_compute|constructor].
  - apply Nat.leb_le. by vm_compute.
  - by right.
  - apply Z.leb_le. by vm_compute.
  - right. apply Z.leb_le. by vm_compute.
  - by vm_compute.
  - right. split; by vm_compute.
  - by vm_compute.
  - by vm_compute.
  - reflexivity.
Defined.

(** ** Two wrong answers and an access out of bounds *)

(** The answer to a ping that is all zeros but for its type and checksum has a
    checksum that does not verify. *)
Lemma zero_ping_answered_wrong : let rest := [0; 0; 0; 0] in
  rfc1071 (echo_bytes ICMP_ECHO 0 0xfff7 rest) = 0 /\
  rfc1071 (echo_bytes ICMP_ER 0 (adjust_chksum 0xfff7) rest) <> 0.
Proof. by vm_compute. Qed.

(** The packets that a program sends, in a deterministic environment. *)
Definition no_calls : Sig := {| op := Empty_set; ans := fun _ => unit |}.

Definition sample_net (e : op (inet no_calls)) (w : list (list Z)) : ans (inet no_calls) e * list (list Z) :=
  match e as e return inet_ans e * list (list Z) with
  | NetifOutput _ p _ => ((ERR_OK, p), w ++ [flat p])
  | IpFrag p _ _ => ((ERR_OK, p), w)
  | IpReass _ => (None, w)
  | InHeap e => (match e as e return mem_ans e with
                 | MemMalloc n => Some (replicate (Z.to_nat n) 0)
                 | MempMalloc _ => None | ExchangeQueued _ => false | TcpipCallback => 0 | _ => tt
                 end, w)
  | Above e => match e with end
  | _ => (tt, w)
  end.

(** The answer to a ping with options in its IP header has a header whose
    checksum does not verify: only the first twenty bytes were summed. *)
Lemma ping_with_options_answered_wrong :
  let f := summed (IpFields 0 32 7 0 255 IP_PROTO_ICMP 0 0x0100a8c0 0x0200a8c0 [1; 1; 1; 0]) in
  let p := Pbuf PBUF_RAM (replicate 40 0) (ip_bytes f ++ echo_bytes ICMP_ECHO 0 (rfc1071 [8; 0; 0; 0; 0; 1; 0; 1]) [0; 1; 0; 1]) 32 1 in
  let s := with_addresses (sample_ips 0x0200a8c0) 0x0100a8c0 0x0200a8c0 in
  exists pkt, run sample_net (icmp_input (fun _ _ => false) s [p] (host_netif 0x0200a8c0)) [] = (Done s, [pkt]) /\
    rfc1071 (ip_bytes f) = 0 /\ rfc1071 (take 24 pkt) <> 0 /\ rfc1071 (drop 24 pkt) = 0.
Proof. eexists. split; [by vm_compute|]. by vm_compute. Qed.

(** A packet of an unknown protocol that ends after its header: eight bytes from
    beyond it are wanted for the message about it. *)
Lemma unreachable_beyond_packet :
  let f := summed (IpFields 0 20 7 0 255 99 0 0x0100a8c0 0x0200a8c0 []) in
  (run sample_net (icmp_dest_unreach (fun _ _ => false) [Pbuf PBUF_POOL [] (ip_bytes f) 20 1] ICMP_DUR_PROTO
    (sample_ips 0x0200a8c0)) []).1 = Stop Undefined.
Proof. by vm_compute. Qed.

(** A total length that is shorter than the header is not noticed: the packet is
    cut to it and the addresses are read from beyond its end. *)
Lemma total_length_unchecked :
  let f := summed (IpFields 0 8 7 0 255 99 0 0x0100a8c0 0x0200a8c0 []) in
  (run sample_net (ip_input (fun _ _ => false) (fun p _ s => Ret (Some p, s)) (fun _ _ s => Ret s) (fun _ _ s => Ret s)
    (fun _ _ s => Ret s) (icmp_dest_unreach (fun _ _ => false)) [Pbuf PBUF_POOL [] (ip_bytes f) 20 1] (host_netif 0x0200a8c0)
    (sample_ips 0x0200a8c0, tt)) []).1 = Stop Undefined.
Proof. by vm_compute. Qed.
