(* ===== verification/LwipArp.v ===== *)
(** * ARP and Ethernet of the network stack (etharp.c)

    src/src/ASF/thirdparty/lwip/lwip-1.4.0/src/netif/etharp.c as configured: ten
    entries with one queued packet each, no static entries, VLANs, AUTOIP or
    learning from IP packets, one cached entry for all connections; the traces
    are left out and failing assertions do nothing ([LWIP_NOASSERT]).  The
    controller's output ([linkoutput]) is a call of the signature [arp], next to
    those [Over] of the layers above; [ip_input] is an argument.  The DHCP client
    is asked about replies by [dhcp_arp_reply] (dhcp.c); what it does to decline
    an address is a call. *)

From stdpp Require Import list.
From S2P Require Import Prelude Prog Pbuf PbufAlloc Chksum LwipUdp LwipIp.

(** ** Data: etharp.h and the head of etharp.c *)

Definition ARP_TABLE_SIZE : Z := 10.
Definition ARP_MAXAGE : Z := 240.
Definition ARP_MAXPENDING : Z := 2.
Definition HWTYPE_ETHERNET : Z := 1.
Definition ETHARP_HWADDR_LEN : Z := 6.
Definition SIZEOF_ETH_HDR : Z := 14.
Definition SIZEOF_ETHARP_HDR : Z := 28.
Definition SIZEOF_ETHARP_PACKET : Z := SIZEOF_ETH_HDR + SIZEOF_ETHARP_HDR.
Definition ETHTYPE_ARP : Z := 0x0806.
Definition ETHTYPE_IP : Z := 0x0800.
Definition ARP_REQUEST : Z := 1.
Definition ARP_REPLY : Z := 2.
Definition ETHARP_FLAG_TRY_HARD : Z := 1.
Definition ETHARP_FLAG_FIND_ONLY : Z := 2.
Definition NETIF_FLAG_ETHARP : Z := 0x20.
Definition DHCP_CHECKING : Z := 8.

(** An [eth_addr] is its six bytes. *)
Definition ethbroadcast : list Z := [0xff; 0xff; 0xff; 0xff; 0xff; 0xff].
Definition ethzero : list Z := [0; 0; 0; 0; 0; 0].

Definition PP_HTONS (x : Z) : Z := Z.lor (Z.shiftl (Z.land x 0xff) 8) (Z.shiftr (Z.land x 0xff00) 8).

(** In network order: [PP_HTONL(0xffff0000UL)] and [PP_HTONL(0xa9fe0000UL)]. *)
Definition ip_addr_islinklocal (addr1 : Z) : bool := Z.land addr1 0x0000ffff =? 0x0000fea9.

Inductive etharp_state := ETHARP_STATE_EMPTY | ETHARP_STATE_PENDING | ETHARP_STATE_STABLE.

#[global] Instance etharp_state_eq_dec : EqDecision etharp_state.
Proof. solve_decision. Defined.

(** [entry_q] is the queued packet, [None] for the null pointer. *)
Record etharp_entry := EtharpEntry {
  entry_q : option (list pbuf); entry_ipaddr : Z; entry_ethaddr : list Z;
  entry_state : etharp_state; entry_ctime : Z
}.

Definition with_q (e : etharp_entry) (q : option (list pbuf)) : etharp_entry :=
  EtharpEntry q (entry_ipaddr e) (entry_ethaddr e) (entry_state e) (entry_ctime e).
Definition with_ipaddr (e : etharp_entry) (a : Z) : etharp_entry :=
  EtharpEntry (entry_q e) a (entry_ethaddr e) (entry_state e) (entry_ctime e).
Definition with_ethaddr (e : etharp_entry) (a : list Z) : etharp_entry :=
  EtharpEntry (entry_q e) (entry_ipaddr e) a (entry_state e) (entry_ctime e).
Definition with_state (e : etharp_entry) (t : etharp_state) : etharp_entry :=
  EtharpEntry (entry_q e) (entry_ipaddr e) (entry_ethaddr e) t (entry_ctime e).
Definition with_ctime (e : etharp_entry) (t : Z) : etharp_entry :=
  EtharpEntry (entry_q e) (entry_ipaddr e) (entry_ethaddr e) (entry_state e) t.

(** The static variables of the file. *)
Record arp_state := ArpState { arp_table : list etharp_entry; etharp_cached_entry : Z }.

(** The table before any packet: zeros. *)
Definition arp_start : arp_state :=
  ArpState (replicate (Z.to_nat ARP_TABLE_SIZE) (EtharpEntry None 0 ethzero ETHARP_STATE_EMPTY 0)) 0.

Definition is_empty (e : etharp_entry) : bool := bool_decide (entry_state e = ETHARP_STATE_EMPTY).
Definition is_pending (e : etharp_entry) : bool := bool_decide (entry_state e = ETHARP_STATE_PENDING).
Definition is_stable (e : etharp_entry) : bool := bool_decide (entry_state e = ETHARP_STATE_STABLE).

Inductive etharp_stat :=
  ArpLenerr | ArpDrop | ArpProterr | ArpRecv | ArpErr | ArpCachehit | ArpMemerr | ArpXmit | LinkLenerr.

Section arp.
Context {F : Sig}.

(** [LinkOutput] answers the result and the packet as the driver has left it. *)
Inductive arpop :=
| ArpHeap (e : memop)
| LinkOutput (n : netif) (p : list pbuf)
| DhcpDecline (n : netif)
| ArpStat (s : etharp_stat)
| Over (e : op F).

Definition arp_ans (e : arpop) : Type :=
  match e with
  | ArpHeap e => mem_ans e
  | LinkOutput _ _ => Z * list pbuf
  | DhcpDecline _ => Z
  | ArpStat _ => unit
  | Over e => ans F e
  end.

Definition arp : Sig := {| op := arpop; ans := arp_ans |}.
Definition acall (e : arpop) : prog arp (arp_ans e) := @trigger arp e.
Definition arp_count (s : etharp_stat) : prog arp unit := acall (ArpStat s).

Definition arp_heap {A} (p : prog heap A) : prog arp A := @embed heap arp ArpHeap (fun _ x => x) A p.
Definition arp_pbuf_free (p : list pbuf) : prog arp unit := let! _ := arp_heap (release p) in Ret tt.

(** [arp_table[i]]. *)
Definition get_entry (s : arp_state) (i : Z) : prog arp etharp_entry :=
  defined (if i <? 0 then None else arp_table s !! Z.to_nat i).
Definition set_entry (s : arp_state) (i : Z) (e : etharp_entry) : arp_state :=
  ArpState (<[Z.to_nat i := e]> (arp_table s)) (etharp_cached_entry s).
Definition set_hint (s : arp_state) (i : Z) : arp_state := ArpState (arp_table s) (u8 i).

(** The six bytes of an address in a packet. *)
Definition get_hwaddr (p : pbuf) (off : nat) : prog arp (list Z) :=
  if decide (off + 6 <= length (payload p))%nat then Ret (take 6 (drop off (payload p))) else Halt Undefined.

(** ** The table *)

Definition free_entry (s : arp_state) (i : Z) : prog arp arp_state :=
  let! e := get_entry s i in
  let! e := (match entry_q e with Some p => arp_pbuf_free p;; Ret (with_q e None) | None => Ret e end) in
  Ret (set_entry s i (with_state e ETHARP_STATE_EMPTY)).

(** One entry of the timer's loop. *)
Definition tmr_entry (s : arp_state) (i : Z) : prog arp arp_state :=
  let! e := get_entry s i in
  if negb (is_empty e) then
    let e := with_ctime e (u8 (entry_ctime e + 1)) in
    let s := set_entry s i e in
    if (ARP_MAXAGE <=? entry_ctime e) || (is_pending e && (ARP_MAXPENDING <=? entry_ctime e))
    then free_entry s i
    else Ret s
  else Ret s.

Fixpoint tmr_loop (n : nat) (i : Z) (s : arp_state) : prog arp arp_state :=
  match n with
  | O => Ret s
  | S n => let! s := tmr_entry s i in tmr_loop n (i + 1) s
  end.

Definition etharp_tmr (s : arp_state) : prog arp arp_state := tmr_loop (Z.to_nat ARP_TABLE_SIZE) 0 s.

(** The candidates that the sweep of [find_entry] remembers. *)
Record candidates := Candidates {
  empty : Z; old_stable : Z; age_stable : Z; old_pending : Z; age_pending : Z; old_queue : Z; age_queue : Z
}.

Definition no_candidates : candidates :=
  Candidates ARP_TABLE_SIZE ARP_TABLE_SIZE 0 ARP_TABLE_SIZE 0 ARP_TABLE_SIZE 0.

(** An entry that is not empty and not the one looked for. *)
Definition remember (c : candidates) (i : Z) (e : etharp_entry) : candidates :=
  let '(Candidates empty old_stable age_stable old_pending age_pending old_queue age_queue) := c in
  if is_pending e then
    match entry_q e with
    | Some _ =>
      if age_queue <=? entry_ctime e
      then Candidates empty old_stable age_stable old_pending age_pending i (entry_ctime e) else c
    | None =>
      if age_pending <=? entry_ctime e
      then Candidates empty old_stable age_stable i (entry_ctime e) old_queue age_queue else c
    end
  else if is_stable e then
    if age_stable <=? entry_ctime e
    then Candidates empty i (entry_ctime e) old_pending age_pending old_queue age_queue else c
  else c.

Definition first_empty (c : candidates) (i : Z) : candidates :=
  Candidates i (old_stable c) (age_stable c) (old_pending c) (age_pending c) (old_queue c) (age_queue c).

(** The sweep from entry [i] on: the entry of the address, or the candidates. *)
Fixpoint sweep (ipaddr : option Z) (l : list etharp_entry) (i : Z) (c : candidates) : Z + candidates :=
  match l with
  | [] => inr c
  | e :: l =>
    if (empty c =? ARP_TABLE_SIZE) && is_empty e then sweep ipaddr l (i + 1) (first_empty c i)
    else if negb (is_empty e) then
      if match ipaddr with Some a => ip_addr_cmp a (entry_ipaddr e) | None => false end then inl i
      else sweep ipaddr l (i + 1) (remember c i e)
    else sweep ipaddr l (i + 1) c
  end.

(** The entry to recycle, [None] if there is none. *)
Definition recycled (c : candidates) : option Z :=
  if old_stable c <? ARP_TABLE_SIZE then Some (old_stable c)
  else if old_pending c <? ARP_TABLE_SIZE then Some (old_pending c)
  else if old_queue c <? ARP_TABLE_SIZE then Some (old_queue c)
  else None.

Definition create_entry (s : arp_state) (i : Z) (ipaddr : option Z) : prog arp (Z * arp_state) :=
  let! e := get_entry s i in
  let e := match ipaddr with Some a => with_ipaddr e a | None => e end in
  Ret (i, set_entry s i (with_ctime e 0)).

Definition find_entry (s : arp_state) (ipaddr : option Z) (flags : Z) : prog arp (Z * arp_state) :=
  match sweep ipaddr (arp_table s) 0 no_candidates with
  | inl i => Ret (i, s)
  | inr c =>
    if negb (Z.land flags ETHARP_FLAG_FIND_ONLY =? 0)
       || ((empty c =? ARP_TABLE_SIZE) && (Z.land flags ETHARP_FLAG_TRY_HARD =? 0))
    then Ret (ERR_MEM, s)
    else if empty c <? ARP_TABLE_SIZE then create_entry s (empty c) ipaddr
    else
      match recycled c with
      | Some i => let! s := free_entry s i in create_entry s i ipaddr
      | None => Ret (ERR_MEM, s)
      end
  end.

(** The index, and the addresses the pointers are set to. *)
Definition etharp_find_addr (s : arp_state) (ipaddr : Z)
    : prog arp (Z * option (list Z * Z) * arp_state) :=
  let! (i, s) := find_entry s (Some ipaddr) ETHARP_FLAG_FIND_ONLY in
  if 0 <=? i then
    let! e := get_entry s i in
    if is_stable e then Ret (i, Some (entry_ethaddr e, entry_ipaddr e), s) else Ret (-1, None, s)
  else Ret (-1, None, s).

(** ** Sending *)

Definition etharp_send_ip (n : netif) (p : list pbuf) (src dst : list Z) : prog arp (Z * list pbuf) :=
  match p with
  | [] => Halt Undefined
  | p :: ps =>
    let! p := put p 0 dst in
    let! p := put p 6 src in
    let! p := put p 12 (le2 (PP_HTONS ETHTYPE_IP)) in
    acall (LinkOutput n (p :: ps))
  end.

Definition etharp_raw (n : netif) (ethsrc_addr ethdst_addr hwsrc_addr : list Z) (ipsrc_addr : Z)
    (hwdst_addr : list Z) (ipdst_addr opcode : Z) : prog arp Z :=
  let! p := arp_heap (pbuf_alloc PBUF_RAW SIZEOF_ETHARP_PACKET PBUF_RAM) in
  match p with
  | None => arp_count ArpMemerr;; Ret ERR_MEM
  | Some (Chain (p :: ps)) =>
    let! p := put p 20 (le2 (lwip_htons opcode)) in
    let! p := put p 22 hwsrc_addr in
    let! p := put p 32 hwdst_addr in
    let! p := put p 0 ethdst_addr in
    let! p := put p 6 ethsrc_addr in
    let! p := put p 28 (le_bytes4 ipsrc_addr) in
    let! p := put p 38 (le_bytes4 ipdst_addr) in
    let! p := put p 14 (le2 (PP_HTONS HWTYPE_ETHERNET)) in
    let! p := put p 16 (le2 (PP_HTONS ETHTYPE_IP)) in
    let! p := put p 18 [ETHARP_HWADDR_LEN] in
    let! p := put p 19 [4] in
    let! p := put p 12 (le2 (PP_HTONS ETHTYPE_ARP)) in
    let! (result, q) := acall (LinkOutput n (p :: ps)) in
    arp_count ArpXmit;;
    arp_pbuf_free q;;
    Ret result
  | Some _ => Halt Undefined
  end.

Definition etharp_request (n : netif) (ipaddr : Z) : prog arp Z :=
  etharp_raw n (hwaddr n) ethbroadcast (hwaddr n) (ip_addr n) ethzero ipaddr ARP_REQUEST.

(** The rest of the packet from the first pbuf on that is not [PBUF_ROM]. *)
Fixpoint copy_needed (q : list pbuf) : list pbuf :=
  match q with
  | [] => []
  | p :: q' => if decide (pb_type p = PBUF_ROM) then copy_needed q' else p :: q'
  end.

(** What is to be queued for [q], and [q] as its owner has it then; a packet of
    [PBUF_ROM]s only is shared between the two. *)
Definition take_over (q : list pbuf) : prog arp (option (list pbuf) * list pbuf) :=
  match copy_needed q with
  | [] => Ret (Some (pbuf_ref q), pbuf_ref q)
  | p :: _ =>
    let! r := arp_heap (pbuf_alloc PBUF_RAW (tot_len p) PBUF_RAM) in
    match r with
    | None => Ret (None, q)
    | Some (Chain r) =>
      let! (err, r) := of_outcome (pbuf_copy r q) in
      if negb (err =? ERR_OK) then arp_pbuf_free r;; Ret (None, q) else Ret (Some r, q)
    | Some (Referring _ _) => Halt Undefined
    end
  end.

(** [etharp_query] for a packet whose entry is still pending. *)
Definition queue_packet (s : arp_state) (i : Z) (q : list pbuf) : prog arp (Z * list pbuf * arp_state) :=
  let! (p, q) := take_over q in
  match p with
  | Some p =>
    let! e := get_entry s i in
    (match entry_q e with Some old => arp_pbuf_free old | None => Ret tt end);;
    Ret (ERR_OK, q, set_entry s i (with_q e (Some p)))
  | None => arp_count ArpMemerr;; Ret (ERR_MEM, q, s)
  end.

(** From the test for a fresh entry on. *)
Definition query_entry (s : arp_state) (n : netif) (ipaddr i : Z) (q : option (list pbuf))
    : prog arp (Z * option (list pbuf) * arp_state) :=
  let! e := get_entry s i in
  let e := if is_empty e then with_state e ETHARP_STATE_PENDING else e in
  let s := set_entry s i e in
  let! result :=
    (if is_pending e || match q with None => true | Some _ => false end
     then etharp_request n ipaddr else Ret ERR_MEM) in
  match q with
  | None => Ret (result, None, s)
  | Some q =>
    if is_stable e then
      let! (result, q) := etharp_send_ip n q (hwaddr n) (entry_ethaddr e) in
      Ret (result, Some q, set_hint s i)
    else if is_pending e then
      let! (result, q, s) := queue_packet s i q in Ret (result, Some q, s)
    else Ret (result, Some q, s)
  end.

Definition etharp_query (s : arp_state) (n : netif) (ipaddr : Z) (q : option (list pbuf))
    : prog arp (Z * option (list pbuf) * arp_state) :=
  if ip4_addr_isbroadcast ipaddr n || ip_addr_ismulticast ipaddr || ip_addr_isany ipaddr
  then Ret (ERR_ARG, q, s)
  else
    let! (i, s) := find_entry s (Some ipaddr) ETHARP_FLAG_TRY_HARD in
    if i <? 0 then
      (match q with Some _ => arp_count ArpMemerr | None => Ret tt end);;
      Ret (i, q, s)
    else query_entry s n ipaddr i q.

Definition multicast_addr (ipaddr : Z) : list Z :=
  [0x01; 0x00; 0x5e; Z.land (u8 (Z.shiftr ipaddr 8)) 0x7f; u8 (Z.shiftr ipaddr 16); u8 (Z.shiftr ipaddr 24)].

(** A packet for the unicast address [ipaddr] of the local network. *)
Definition output_to (s : arp_state) (n : netif) (q : list pbuf) (ipaddr : Z)
    : prog arp (Z * list pbuf * arp_state) :=
  let! e := get_entry s (etharp_cached_entry s) in
  if is_stable e && ip_addr_cmp ipaddr (entry_ipaddr e) then
    arp_count ArpCachehit;;
    let! (err, q) := etharp_send_ip n q (hwaddr n) (entry_ethaddr e) in
    Ret (err, q, s)
  else
    let! (err, q, s) := etharp_query s n ipaddr (Some q) in
    Ret (err, default [] q, s).

(** The result, and the packet and its header as they have been left. *)
Definition etharp_output (s : arp_state) (n : netif) (q : list pbuf) (ipaddr : Z)
    : prog arp (Z * list pbuf * arp_state) :=
  match q with
  | [] => Halt Undefined
  | h :: ps =>
    let! (r, h) := of_outcome (pbuf_header h SIZEOF_ETH_HDR) in
    let q := h :: ps in
    if negb (r =? 0) then arp_count LinkLenerr;; Ret (ERR_BUF, q, s)
    else
      let! dest :=
        (if ip4_addr_isbroadcast ipaddr n then Ret (Some ethbroadcast)
         else if ip_addr_ismulticast ipaddr then Ret (Some (multicast_addr ipaddr))
         else Ret None) in
      match dest with
      | Some dest =>
        let! (err, q) := etharp_send_ip n q (hwaddr n) dest in Ret (err, q, s)
      | None =>
        if negb (ip_addr_netcmp ipaddr (ip_addr n) (netmask n)) && negb (ip_addr_islinklocal ipaddr) then
          if negb (ip_addr_isany (gw n)) then output_to s n q (gw n) else Ret (ERR_RTE, q, s)
        else output_to s n q ipaddr
      end
  end.

(** ** Receiving *)

(** From [arp_table[i].state = ETHARP_STATE_STABLE] on. *)
Definition refresh_entry (s : arp_state) (n : netif) (i : Z) (ethaddr : list Z) : prog arp (Z * arp_state) :=
  let! e := get_entry s i in
  let e := with_ctime (with_ethaddr (with_state e ETHARP_STATE_STABLE) ethaddr) 0 in
  match entry_q e with
  | Some p =>
    let s := set_entry s i (with_q e None) in
    let! (_, p) := etharp_send_ip n p (hwaddr n) ethaddr in
    arp_pbuf_free p;;
    Ret (ERR_OK, s)
  | None => Ret (ERR_OK, set_entry s i e)
  end.

Definition update_arp_entry (s : arp_state) (n : netif) (ipaddr : Z) (ethaddr : list Z) (flags : Z)
    : prog arp (Z * arp_state) :=
  if ip_addr_isany ipaddr || ip4_addr_isbroadcast ipaddr n || ip_addr_ismulticast ipaddr
  then Ret (ERR_ARG, s)
  else
    let! (i, s) := find_entry s (Some ipaddr) flags in
    if i <? 0 then Ret (i, s)
    else refresh_entry s n i ethaddr.

(** The packet of a request for our address, turned into the reply. *)
Definition make_reply (n : netif) (ethaddr : list Z) (p : pbuf) : prog arp pbuf :=
  let! p := put p 20 (le2 (lwip_htons ARP_REPLY)) in
  let! sip := get p 28 4 in
  let! p := put p 38 (le_bytes4 sip) in
  let! p := put p 28 (le_bytes4 (ip_addr n)) in
  let! shw := get_hwaddr p 22 in
  let! p := put p 32 shw in
  let! shw := get_hwaddr p 22 in
  let! p := put p 0 shw in
  let! p := put p 22 ethaddr in
  put p 6 ethaddr.

Definition arp_dropped (reason : etharp_stat) (p : list pbuf) (s : arp_state) : prog arp arp_state :=
  arp_count reason;; arp_count ArpDrop;; arp_pbuf_free p;; Ret s.

(** dhcp.c: a host has the address that the DHCP client has been offered. *)
Definition dhcp_arp_reply (n : netif) (addr : Z) : prog arp unit :=
  match dhcp n with
  | Some d =>
    if dhcp_state d =? DHCP_CHECKING then
      if ip_addr_cmp addr (offered_ip_addr d) then let! _ := acall (DhcpDecline n) in Ret tt else Ret tt
    else Ret tt
  | None => Ret tt
  end.

Definition etharp_arp_input (s : arp_state) (n : netif) (ethaddr : list Z) (p : list pbuf)
    : prog arp arp_state :=
  match p with
  | [] => Halt Undefined
  | p :: ps =>
    if len p <? SIZEOF_ETHARP_PACKET then arp_dropped ArpLenerr (p :: ps) s
    else
      let! hwtype := get p 14 2 in
      let! proto := get p 16 2 in
      let! hwlen := get p 18 1 in
      let! protolen := get p 19 1 in
      if negb (hwtype =? PP_HTONS HWTYPE_ETHERNET) || negb (hwlen =? ETHARP_HWADDR_LEN)
         || negb (protolen =? 4) || negb (proto =? PP_HTONS ETHTYPE_IP)
      then arp_dropped ArpProterr (p :: ps) s
      else
        arp_count ArpRecv;;
        let! sipaddr := get p 28 4 in
        let! dipaddr := get p 38 4 in
        let for_us := if ip_addr_isany (ip_addr n) then false else ip_addr_cmp dipaddr (ip_addr n) in
        let! shwaddr := get_hwaddr p 22 in
        let! (_, s) := update_arp_entry s n sipaddr shwaddr
          (if for_us : bool then ETHARP_FLAG_TRY_HARD else ETHARP_FLAG_FIND_ONLY) in
        let! opcode := get p 20 2 in
        let! p :=
          (if opcode =? PP_HTONS ARP_REQUEST then
             if for_us : bool then
               let! p := make_reply n ethaddr p in
               let! (_, p) := acall (LinkOutput n (p :: ps)) in
               Ret p
             else Ret (p :: ps)
           else if opcode =? PP_HTONS ARP_REPLY then dhcp_arp_reply n sipaddr;; Ret (p :: ps)
           else arp_count ArpErr;; Ret (p :: ps)) in
        arp_pbuf_free p;;
        Ret s
  end.

Section ethernet.
Context {U : Type}.
Context (ip_input : list pbuf -> netif -> arp_state * U -> prog arp (Z * (arp_state * U))).

Definition ethernet_input (p : list pbuf) (n : netif) (s : arp_state * U) : prog arp (Z * (arp_state * U)) :=
  match p with
  | [] => Halt Undefined
  | h :: ps =>
    if len h <=? SIZEOF_ETH_HDR then
      arp_count ArpProterr;; arp_count ArpDrop;; arp_pbuf_free p;; Ret (ERR_OK, s)
    else
      let! type := get h 12 2 in
      if type =? PP_HTONS ETHTYPE_IP then
        if Z.land (netif_flags n) NETIF_FLAG_ETHARP =? 0 then arp_pbuf_free p;; Ret (ERR_OK, s)
        else
          let! (r, h) := of_outcome (pbuf_header h (- SIZEOF_ETH_HDR)) in
          if negb (r =? 0) then arp_pbuf_free (h :: ps);; Ret (ERR_OK, s)
          else
            let! (_, s) := ip_input (h :: ps) n s in
            Ret (ERR_OK, s)
      else if type =? PP_HTONS ETHTYPE_ARP then
        if Z.land (netif_flags n) NETIF_FLAG_ETHARP =? 0 then arp_pbuf_free p;; Ret (ERR_OK, s)
        else
          let! a := etharp_arp_input s.1 n (hwaddr n) p in
          Ret (ERR_OK, (a, s.2))
      else arp_count ArpProterr;; arp_count ArpDrop;; arp_pbuf_free p;; Ret (ERR_OK, s)
  end.
End ethernet.
End arp.
Arguments arpop : clear implicits.
Arguments arp : clear implicits.
