(* ===== verification/LwipArpSpec.v ===== *)
(** * The ARP table and the packets that wait in it

    What etharp.c (LwipArp.v) keeps: at most one entry for an address, ages in
    bounds, packets only on entries that wait for a reply, and all memory
    accounted for; which entry is recycled; who asks gets the reply. *)

From stdpp Require Import list.
From S2P Require Import Prelude Prog Pbuf PbufSpec PbufAlloc PbufAllocSpec Chksum ChksumSpec FpgaTwi UdpServer LwipUdp LwipUdpSpec LwipIp LwipIpSpec LwipArp.

(** ** The sweep of [find_entry] *)

Definition active (e : etharp_entry) : bool := negb (is_empty e).

Definition waiting (e : etharp_entry) : bool :=
  is_pending e && match entry_q e with Some _ => true | None => false end.
Definition asking (e : etharp_entry) : bool :=
  is_pending e && match entry_q e with Some _ => false | None => true end.

(** The candidate [old] with the age [age] is the oldest entry of its kind. *)
Definition oldest (P : etharp_entry -> bool) (l : list etharp_entry) (old age : Z) : Prop :=
  (old = ARP_TABLE_SIZE /\ age = 0 /\ Forall (fun e => P e = false) l) \/
  (exists e, 0 <= old < Z.of_nat (length l) /\ l !! Z.to_nat old = Some e /\ P e = true /\ entry_ctime e = age /\
     Forall (fun e => P e = true -> entry_ctime e <= age) l).

Definition first_free (l : list etharp_entry) (i : Z) : Prop :=
  (i = ARP_TABLE_SIZE /\ Forall (fun e => active e = true) l) \/
  (exists e, 0 <= i < Z.of_nat (length l) /\ l !! Z.to_nat i = Some e /\ active e = false /\
     Forall (fun e => active e = true) (take (Z.to_nat i) l)).

Record seen (l : list etharp_entry) (c : candidates) : Prop := {
  seen_empty : first_free l (empty c);
  seen_stable : oldest is_stable l (old_stable c) (age_stable c);
  seen_pending : oldest asking l (old_pending c) (age_pending c);
  seen_queue : oldest waiting l (old_queue c) (age_queue c)
}.

Lemma oldest_skip P l old age e : P e = false -> oldest P l old age -> oldest P (l ++ [e]) old age.
Proof.
  intros He [(-> & -> & H)|(e0 & Ho & Hl & Hp & Ha & H)]; [left|right].
  - split; [done|]. split; [done|]. apply Forall_app. split; [done|by constructor].
  - exists e0. rewrite length_app. split; [cbn [length]; lia|]. split; [by apply lookup_app_l_Some|]. split; [done|]. split; [done|].
    apply Forall_app. split; [done|]. constructor; [congruence|constructor].
Qed.

Lemma oldest_step P l old age e : P e = true -> 0 <= entry_ctime e -> oldest P l old age ->
  oldest P (l ++ [e]) (if age <=? entry_ctime e then Z.of_nat (length l) else old)
    (if age <=? entry_ctime e then entry_ctime e else age).
Proof.
  intros He Hc H. right. destruct (Z.leb_spec age (entry_ctime e)) as [Hle|Hlt].
  - exists e. rewrite length_app, Nat2Z.id. split; [cbn [length]; lia|]. split; [by rewrite list_lookup_middle|].
    split; [done|]. split; [done|]. apply Forall_app. split; [|by repeat constructor].
    destruct H as [(_ & _ & H)|(_ & _ & _ & _ & _ & H)]; (eapply list.Forall_impl; [exact H|]); cbn beta; [congruence|].
    intros x Hx Hp. specialize (Hx Hp). lia.
  - destruct H as [(_ & -> & _)|(e0 & Ho & Hl & Hp & Ha & H)]; [lia|].
    exists e0. rewrite length_app. split; [cbn [length]; lia|]. split; [by apply lookup_app_l_Some|]. split; [done|]. split; [done|].
    apply Forall_app. split; [done|]. constructor; [lia|constructor].
Qed.

Lemma first_free_skip l i e : active e = true \/ i <> ARP_TABLE_SIZE -> first_free l i -> first_free (l ++ [e]) i.
Proof.
  intros He [[-> H]|(e0 & Ho & Hl & Hp & H)]; [left|right].
  - destruct He as [He|]; [|done]. split; [done|]. apply Forall_app. split; [done|by constructor].
  - exists e0. rewrite length_app. split; [cbn [length]; lia|]. split; [by apply lookup_app_l_Some|]. split; [done|].
    by rewrite take_app_le by lia.
Qed.

Lemma first_free_here l e : active e = false -> first_free l ARP_TABLE_SIZE -> Z.of_nat (length l) < ARP_TABLE_SIZE ->
  first_free (l ++ [e]) (Z.of_nat (length l)).
Proof.
  intros He [[_ H]|(e0 & Ho & _)] Hl; [|lia]. right. exists e. rewrite length_app, Nat2Z.id, take_app_length.
  split; [cbn [length]; lia|]. split; [by rewrite list_lookup_middle|]. done.
Qed.

Lemma seen_nothing : seen [] no_candidates.
Proof. split; left; repeat split; constructor. Qed.

(** The kinds of active entries. *)
Lemma kinds e : active e = true ->
  (is_stable e = true /\ is_pending e = false /\ asking e = false /\ waiting e = false) \/
  (is_stable e = false /\ is_pending e = true /\ ((entry_q e = None /\ asking e = true /\ waiting e = false) \/
     (exists q, entry_q e = Some q /\ asking e = false /\ waiting e = true))).
Proof.
  unfold active, asking, waiting, is_empty, is_pending, is_stable. destruct (entry_state e); cbn; [done| |by left].
  intros _. right. destruct (entry_q e) as [q|]; (split; [done|]; split; [done|]); [right; by exists q|by left].
Qed.

Lemma idle_kinds e : active e = false -> is_stable e = false /\ asking e = false /\ waiting e = false.
Proof. unfold active, asking, waiting, is_empty, is_pending, is_stable. by destruct (entry_state e). Qed.

Lemma seen_active l c e : active e = true -> 0 <= entry_ctime e -> seen l c ->
  seen (l ++ [e]) (remember c (Z.of_nat (length l)) e).
Proof.
  intros Ha Hc [H1 H2 H3 H4]. destruct c as [em os ags op agp oq agq]. cbn [empty old_stable age_stable old_pending age_pending old_queue age_queue] in *.
  pose proof (first_free_skip l em e (or_introl Ha) H1) as He. unfold remember.
  destruct (kinds e Ha) as [(Hs & Hp & Hk & Hw)|(Hs & Hp & [(Hq & Hk & Hw)|(q & Hq & Hk & Hw)])]; rewrite Hp, ?Hs, ?Hq.
  - pose proof (oldest_step _ l os ags e Hs Hc H2) as H. destruct (ags <=? _); split; try done; by apply oldest_skip.
  - pose proof (oldest_step _ l op agp e Hk Hc H3) as H. destruct (agp <=? _); split; try done; by apply oldest_skip.
  - pose proof (oldest_step _ l oq agq e Hw Hc H4) as H. destruct (agq <=? _); split; try done; by apply oldest_skip.
Qed.

Lemma seen_idle l c e : active e = false -> Z.of_nat (length l) < ARP_TABLE_SIZE -> seen l c ->
  seen (l ++ [e]) (if empty c =? ARP_TABLE_SIZE then first_empty c (Z.of_nat (length l)) else c).
Proof.
  intros Ha Hl [H1 H2 H3 H4]. destruct (idle_kinds e Ha) as (Hs & Hk & Hw).
  destruct (Z.eqb_spec (empty c) ARP_TABLE_SIZE) as [Hem|Hem]; split; cbn [first_empty empty old_stable age_stable old_pending age_pending old_queue age_queue];
    try by apply oldest_skip.
  - rewrite Hem in H1. by apply first_free_here.
  - apply first_free_skip; [by right|done].
Qed.

(** An entry for [a] that is pending or stable. *)
Definition for_addr (a : Z) (e : etharp_entry) : bool := active e && (entry_ipaddr e =? a).

Lemma sweep_from a pre l c : Forall (fun e => 0 <= entry_ctime e) l -> Z.of_nat (length (pre ++ l)) <= ARP_TABLE_SIZE ->
  seen pre c -> Forall (fun e => for_addr a e = false) pre ->
  match sweep (Some a) l (Z.of_nat (length pre)) c with
  | inl i => exists e, 0 <= i /\ (pre ++ l) !! Z.to_nat i = Some e /\ for_addr a e = true
  | inr c => seen (pre ++ l) c /\ Forall (fun e => for_addr a e = false) (pre ++ l)
  end.
Proof.
  revert pre c. induction l as [|e l IH]; intros pre c Hc Hlen Hs Hn; cbn [sweep]; [by rewrite app_nil_r|].
  apply list.Forall_cons in Hc as [Hce Hc]. rewrite length_app in Hlen. cbn [length] in Hlen.
  assert (forall c', seen (pre ++ [e]) c' -> for_addr a e = false ->
    match sweep (Some a) l (Z.of_nat (length pre) + 1) c' with
    | inl i => exists e', 0 <= i /\ (pre ++ e :: l) !! Z.to_nat i = Some e' /\ for_addr a e' = true
    | inr c => seen (pre ++ e :: l) c /\ Forall (fun e => for_addr a e = false) (pre ++ e :: l)
    end) as Hgo.
  { intros c' Hc' He. assert (Z.of_nat (length (pre ++ [e])) = Z.of_nat (length pre) + 1) as Hz by (rewrite length_app; cbn [length]; lia).
    specialize (IH (pre ++ [e]) c' Hc). rewrite Hz, <- app_assoc in IH. cbn [app] in IH.
    apply IH; [rewrite length_app; cbn [length]; lia|done|]. apply Forall_app. split; [done|by constructor]. }
  destruct (is_empty e) eqn:Hem.
  - assert (active e = false) as Ha by (unfold active; by rewrite Hem). pose proof (seen_idle pre c e Ha ltac:(lia) Hs) as Hs'.
    assert (for_addr a e = false) as Hf by (unfold for_addr; by rewrite Ha). cbn [negb andb]. rewrite andb_true_r.
    destruct (empty c =? ARP_TABLE_SIZE); by apply Hgo.
  - assert (active e = true) as Ha by (unfold active; by rewrite Hem). rewrite andb_false_r. cbn [negb].
    unfold ip_addr_cmp. destruct (Z.eqb_spec a (entry_ipaddr e)) as [-> |Hne].
    + exists e. split; [lia|]. rewrite Nat2Z.id, list_lookup_middle by done. split; [done|]. unfold for_addr. by rewrite Ha, Z.eqb_refl.
    + apply Hgo; [by apply seen_active|]. unfold for_addr. rewrite Ha. by apply Z.eqb_neq.
Qed.

(** Which entry becomes the new one: the first empty one, else the oldest stable
    one, else the oldest that waits for a reply without a packet, else the
    oldest with one. *)
Definition eldest (P : etharp_entry -> bool) (l : list etharp_entry) (e : etharp_entry) : Prop :=
  P e = true /\ Forall (fun e' => P e' = true -> entry_ctime e' <= entry_ctime e) l.
Definition none (P : etharp_entry -> bool) (l : list etharp_entry) : Prop := Forall (fun e => P e = false) l.

Definition least_important (l : list etharp_entry) (i : nat) (e : etharp_entry) : Prop :=
  l !! i = Some e /\
  (active e = false /\ Forall (fun e => active e = true) (take i l) \/
   Forall (fun e => active e = true) l /\
   (eldest is_stable l e \/ none is_stable l /\ eldest asking l e \/
    none is_stable l /\ none asking l /\ eldest waiting l e)).

Lemma seen_recycled l c : length l = Z.to_nat ARP_TABLE_SIZE -> seen l c -> empty c = ARP_TABLE_SIZE ->
  exists i e, recycled c = Some (Z.of_nat i) /\ least_important l i e.
Proof.
  intros Hl [H1 H2 H3 H4] Hem. destruct H1 as [[_ Hact]|(e & Hi & _)]; [|unfold ARP_TABLE_SIZE in *; lia].
  assert (forall P old age, oldest P l old age ->
    ((old <? ARP_TABLE_SIZE) = false /\ none P l) \/
    (exists i e, (old <? ARP_TABLE_SIZE) = true /\ old = Z.of_nat i /\ l !! i = Some e /\ eldest P l e)) as Hold.
  { intros P old age [(-> & -> & H)|(e & Ho & Hle & Hp & Ha & H)]; [by left|right]. exists (Z.to_nat old), e.
    rewrite Z2Nat.id by lia. split; [unfold ARP_TABLE_SIZE in *; lia|]. split; [done|]. split; [done|]. split; [done|]. by rewrite Ha. }
  unfold recycled. destruct (Hold _ _ _ H2) as [[-> Hs]|(i & e & -> & -> & He & Hel)].
  2: { exists i, e. split; [done|]. split; [done|]. right. split; [done|]. by left. }
  destruct (Hold _ _ _ H3) as [[-> Hk]|(i & e & -> & -> & He & Hel)].
  2: { exists i, e. split; [done|]. split; [done|]. right. split; [done|]. right. by left. }
  destruct (Hold _ _ _ H4) as [[-> Hw]|(i & e & -> & -> & He & Hel)].
  2: { exists i, e. split; [done|]. split; [done|]. right. split; [done|]. right. by right. }
  destruct l as [|e l]; [done|]. apply list.Forall_cons in Hact as [Ha _], Hs as [Hs _], Hk as [Hk _], Hw as [Hw _].
  destruct (kinds e Ha) as [(? & _)|(_ & _ & [(_ & ? & _)|(q & _ & _ & ?)])]; congruence.
Qed.

(** ** Consistent tables *)

(** A queued packet: it has room for the Ethernet header, and it is the table's. *)
Definition frame_ready (q : list pbuf) : Prop :=
  packet q /\ unshared q /\ exists p ps, q = p :: ps /\ (14 <= length (payload p))%nat.

Record entry_ok (e : etharp_entry) : Prop := {
  age_ok : 0 <= entry_ctime e;
  state_ok :
    match entry_state e with
    | ETHARP_STATE_EMPTY => entry_q e = None
    | ETHARP_STATE_PENDING =>
      entry_ctime e < ARP_MAXPENDING /\ (forall q, entry_q e = Some q -> frame_ready q)
    | ETHARP_STATE_STABLE =>
      entry_ctime e < ARP_MAXAGE /\ entry_q e = None /\ length (entry_ethaddr e) = 6%nat
    end
}.

(** An address has one entry at most. *)
Definition unique (l : list etharp_entry) : Prop :=
  forall i j e e', l !! i = Some e -> l !! j = Some e' -> active e = true -> active e' = true ->
    entry_ipaddr e = entry_ipaddr e' -> i = j.

Record table_ok (s : arp_state) : Prop := {
  table_size : length (arp_table s) = Z.to_nat ARP_TABLE_SIZE;
  entries_ok : Forall entry_ok (arp_table s);
  table_unique : unique (arp_table s);
  cached_ok : 0 <= etharp_cached_entry s < ARP_TABLE_SIZE
}.

Lemma start_ok : table_ok arp_start.
Proof.
  split; [done| | |done].
  - repeat (constructor; [by split|]). constructor.
  - intros i j e e' Hi Hj Ha. apply lookup_replicate in Hi as [-> _]. done.
Qed.

(** What the table has of the memory. *)
Definition queued (l : list etharp_entry) : list pbuf := concat (map (fun e => default [] (entry_q e)) l).

Lemma holding_app q r m : holding (q ++ r) m = holding q (holding r m).
Proof. apply foldr_app. Qed.

Lemma queued_insert l i e e' m : l !! i = Some e ->
  holding (default [] (entry_q e')) (holding (queued l) m) = holding (default [] (entry_q e)) (holding (queued (<[i := e']> l)) m).
Proof.
  intros Hi. rewrite insert_take_drop by (by apply lookup_lt_Some in Hi). unfold queued.
  rewrite <- (take_drop_middle l i e Hi) at 1. rewrite !map_app, !concat_app. cbn [map concat].
  rewrite !holding_app. set (a := concat (map _ (take i l))). set (b := holding (concat _) m).
  rewrite (holding_swap a), (holding_swap a). apply holding_swap.
Qed.

Lemma queued_same l i e e' : l !! i = Some e -> entry_q e' = entry_q e -> queued (<[i := e']> l) = queued l.
Proof.
  intros Hi Hq. rewrite insert_take_drop by (by apply lookup_lt_Some in Hi). unfold queued.
  rewrite <- (take_drop_middle l i e Hi) at 3. rewrite !map_app. cbn [map]. by rewrite Hq.
Qed.

Lemma insert_ok s i e : table_ok s -> (i < 10)%nat -> entry_ok e ->
  (active e = true -> forall j e', arp_table s !! j = Some e' -> active e' = true -> entry_ipaddr e' = entry_ipaddr e -> j = i) ->
  table_ok (set_entry s (Z.of_nat i) e).
Proof.
  intros [Hs He Hu Hc] Hi Hok Hone. unfold set_entry. rewrite Nat2Z.id. split; cbn [arp_table etharp_cached_entry].
  - by rewrite length_insert.
  - by apply Forall_insert.
  - assert (i < length (arp_table s))%nat as Hlt by (rewrite Hs; exact Hi).
    intros a b x y Ha Hb Hx Hy Hxy.
    destruct (decide (a = i)) as [-> |Hai], (decide (b = i)) as [-> |Hbi]; [done|..].
    + rewrite list_lookup_insert_eq in Ha by done. injection Ha as <-. rewrite list_lookup_insert_ne in Hb by done.
      symmetry. by eapply Hone.
    + rewrite list_lookup_insert_eq in Hb by done. injection Hb as <-. rewrite list_lookup_insert_ne in Ha by done.
      by eapply Hone.
    + rewrite list_lookup_insert_ne in Ha, Hb by done. by eapply Hu.
  - done.
Qed.

Lemma get_entry_eq {F} s i e : arp_table s !! i = Some e -> @get_entry F s (Z.of_nat i) = Ret e.
Proof. intros Hi. unfold get_entry. rewrite (proj2 (Z.ltb_ge _ _)), Nat2Z.id, Hi by lia. done. Qed.

Lemma has_entry s i : table_ok s -> (i < 10)%nat -> exists e, arp_table s !! i = Some e /\ entry_ok e.
Proof.
  intros Hok Hi. destruct (lookup_lt_is_Some_2 (arp_table s) i) as [e He]; [by rewrite (table_size s Hok)|].
  exists e. split; [done|]. by apply (list.Forall_lookup_1 _ _ _ _ (entries_ok s Hok) He).
Qed.

(** ** Frames on the wire *)

Definition eth_frame (dest src : list Z) (type : Z) (data : list Z) : list Z := dest ++ src ++ be16 type ++ data.

(** RFC 826 for Ethernet and IP; addresses are kept in network order. *)
Definition arp_packet (opcode : Z) (shwaddr : list Z) (sipaddr : Z) (dhwaddr : list Z) (dipaddr : Z) : list Z :=
  be16 HWTYPE_ETHERNET ++ be16 ETHTYPE_IP ++ [ETHARP_HWADDR_LEN; 4] ++ be16 opcode ++
  shwaddr ++ le_bytes4 sipaddr ++ dhwaddr ++ le_bytes4 dipaddr.

(** Who has [a]? *)
Definition request_frame (n : netif) (a : Z) : list Z :=
  eth_frame ethbroadcast (hwaddr n) ETHTYPE_ARP (arp_packet ARP_REQUEST (hwaddr n) (ip_addr n) ethzero a).

(** [a] is at [mac]: to the interface [n], that asked. *)
Definition reply_frame (mac : list Z) (a : Z) (hw : list Z) (ip : Z) : list Z :=
  eth_frame hw mac ETHTYPE_ARP (arp_packet ARP_REPLY mac a hw ip).

(** The first [n] elements of a list that has as many; all of its elements. *)
Tactic Notation "split_list" ident(l) integer(n) := do n (destruct l as [|? l]; [cbn in *; lia|]).
Tactic Notation "split_address" ident(l) := split_list l 6; destruct l; [|cbn in *; lia].

(** ** A host on the network: its memory, and the frames it has sent

    The driver keeps the buffers of a frame and its reference counts.  A DHCP
    client that declines an address broadcasts messages on the interface, if
    anything, and gives back the memory it takes for them. *)
Record lan (X : Type) := Lan { lmem : pools; frames : list (netif * list Z); upper : X }.
Arguments Lan {X}.
Arguments lmem {X}.
Arguments frames {X}.
Arguments upper {X}.

Section lan.
Context {F : Sig} {X : Type} (N : env F X).

Definition arp_req (e : op (arp F)) (s : lan X) : Prop :=
  match e : arpop F with
  | ArpHeap e => mem_req e (lmem s)
  | LinkOutput _ q => packet q
  | DhcpDecline _ | ArpStat _ => True
  | Over e => req N e (upper s)
  end.

Definition arp_step (e : op (arp F)) (s : lan X) : ans (arp F) e -> lan X -> Prop :=
  match e as e return arp_ans e -> lan X -> Prop with
  | ArpHeap e => fun x s' => mem_step e (lmem s) x (lmem s') /\ frames s' = frames s /\ upper s' = upper s
  | LinkOutput n q => fun x s' =>
    Forall2 same_owner q x.2 /\ s' = Lan (lmem s) (frames s ++ [(n, flat q)]) (upper s)
  | DhcpDecline n => fun _ s' => exists w, Forall (fun f => f.1 = n) w /\ s' = Lan (lmem s) (frames s ++ w) (upper s)
  | ArpStat _ => fun _ s' => s' = s
  | Over e => fun x s' => step N e (upper s) x (upper s') /\ lmem s' = lmem s /\ frames s' = frames s
  end.

Definition lan_env : env (arp F) (lan X) := {| req := arp_req; step := arp_step |}.

Lemma wp_arp_heap {A} (p : prog heap A) Q s :
  wp mem_env p (fun o m => Q o (Lan m (frames s) (upper s))) (lmem s) -> wp lan_env (arp_heap p) Q s.
Proof.
  intros Hp. unfold arp_heap.
  apply (wp_embed mem_env lan_env ArpHeap (fun _ x => x) lmem (fun m s => Lan m (frames s) (upper s))).
  - by intros [].
  - done.
  - done.
  - done.
  - intros e [m w a] x [m' w' a'] (Hs & Hw & Ha). cbn in *. by subst.
  - exact Hp.
Qed.

Lemma wp_arp_count {B} t (f : unit -> prog (arp F) B) Q s :
  wp lan_env (f tt) Q s -> wp lan_env (bind (arp_count t) f) Q s.
Proof. intros H. split; [done|]. by intros [] s' ->. Qed.

Lemma wp_arp_free {B} q m (f : unit -> prog (arp F) B) Q s : unshared q -> lmem s = holding q m ->
  wp lan_env (f tt) Q (Lan m (frames s) (upper s)) -> wp lan_env (bind (arp_pbuf_free q) f) Q s.
Proof.
  intros Hq Hm H. unfold arp_pbuf_free. step_in. apply wp_bind, wp_arp_heap. rewrite Hm.
  eapply wp_mono; [by apply release_gives_back|]. intros o s' [[c ->] ->]. exact H.
Qed.

Lemma wp_link {B} n q (f : Z * list pbuf -> prog (arp F) B) Q s : packet q ->
  (forall err q', Forall2 same_owner q q' ->
     wp lan_env (f (err, q')) Q (Lan (lmem s) (frames s ++ [(n, flat q)]) (upper s))) ->
  wp lan_env (bind (acall (LinkOutput n q)) f) Q s.
Proof. intros Hq H. split; [done|]. intros [err q'] s' [Ho ->]. by apply H. Qed.

(** The table is consistent, and its packets are all that is taken besides [m]. *)
Definition arp_inv (s : arp_state) (m : pools) (st : lan X) : Prop :=
  table_ok s /\ lmem st = holding (queued (arp_table s)) m.

(** ** Entries *)

Definition emptied (e : etharp_entry) : etharp_entry := with_state (with_q e None) ETHARP_STATE_EMPTY.

Lemma emptied_ok e : 0 <= entry_ctime e -> entry_ok (emptied e).
Proof. by split. Qed.

(** [free_entry] of an entry of which only the age may be out of bounds. *)
Lemma wp_free_entry {B} s i e m (f : arp_state -> prog (arp F) B) Q st :
  arp_table s !! i = Some e -> (forall q, entry_q e = Some q -> unshared q) -> lmem st = holding (queued (arp_table s)) m ->
  wp lan_env (f (set_entry s (Z.of_nat i) (emptied e))) Q
    (Lan (holding (queued (<[i := emptied e]> (arp_table s))) m) (frames st) (upper st)) ->
  wp lan_env (bind (free_entry s (Z.of_nat i)) f) Q st.
Proof.
  intros Hi Hq Hm H. unfold free_entry. rewrite (get_entry_eq s i e Hi). cbn [bind].
  pose proof (queued_insert (arp_table s) i e (emptied e) m Hi) as Hins. cbn [emptied entry_q with_q with_state default] in Hins.
  destruct (entry_q e) as [q|] eqn:He.
  - do 2 step_in. eapply wp_arp_free; [by apply Hq|by rewrite Hm; exact Hins|exact H].
  - cbn [bind]. assert (with_state e ETHARP_STATE_EMPTY = emptied e) as -> by (unfold emptied, with_q, with_state; cbn; by rewrite He).
    change (holding (default [] None) ?x) with x in Hins. rewrite <- Hins in H. unfold holding at 1 in Hins. cbn [default foldr] in Hins.
    destruct st as [lm fr up]. cbn in *. by subst lm.
Qed.

Lemma set_set s i e e' : set_entry (set_entry s i e) i e' = set_entry s i e'.
Proof. unfold set_entry. cbn [arp_table etharp_cached_entry]. by rewrite list_insert_insert_eq. Qed.

Lemma sweep_table s a : table_ok s ->
  match sweep (Some a) (arp_table s) 0 no_candidates with
  | inl z => exists i e, z = Z.of_nat i /\ arp_table s !! i = Some e /\ for_addr a e = true
  | inr c => seen (arp_table s) c /\ none (for_addr a) (arp_table s)
  end.
Proof.
  intros [Hs He _ _]. pose proof (sweep_from a [] (arp_table s) no_candidates) as H. cbn [length app] in H.
  change (Z.of_nat 0) with 0 in H.
  assert (Forall (fun e => 0 <= entry_ctime e) (arp_table s)) as Hc by (eapply list.Forall_impl; [exact He|]; by intros e []).
  specialize (H Hc ltac:(rewrite Hs; by vm_compute) seen_nothing ltac:(constructor)).
  destruct (sweep _ _ _ _) as [z|c]; [|done]. destruct H as (e & Hz & Hl & Hf). exists (Z.to_nat z), e.
  split; [lia|done].
Qed.

Definition fresh (a : Z) (e : etharp_entry) : etharp_entry :=
  EtharpEntry None a (entry_ethaddr e) ETHARP_STATE_EMPTY 0.

(** Looking for [a]: it has an entry, or one is made of the least important. *)
Lemma wp_find_hard {B} s a m (f : Z * arp_state -> prog (arp F) B) Q st : arp_inv s m st ->
  (forall i e, arp_table s !! i = Some e -> for_addr a e = true -> wp lan_env (f (Z.of_nat i, s)) Q st) ->
  (forall i e, least_important (arp_table s) i e -> none (for_addr a) (arp_table s) ->
     let s' := set_entry s (Z.of_nat i) (fresh a e) in
     wp lan_env (f (Z.of_nat i, s')) Q (Lan (holding (queued (arp_table s')) m) (frames st) (upper st))) ->
  wp lan_env (bind (find_entry s (Some a) ETHARP_FLAG_TRY_HARD) f) Q st.
Proof.
  intros [Hok Hm] Hfound Hmade. pose proof (sweep_table s a Hok) as Hsw. unfold find_entry.
  destruct (sweep _ _ _ _) as [z|c]; [destruct Hsw as (i & e & -> & Hi & Hf); by eapply Hfound|]. destruct Hsw as [Hseen Hnone].
  change (negb (Z.land ETHARP_FLAG_TRY_HARD ETHARP_FLAG_FIND_ONLY =? 0)) with false.
  change (Z.land ETHARP_FLAG_TRY_HARD ETHARP_FLAG_TRY_HARD =? 0) with false. rewrite andb_false_r. cbn [orb].
  pose proof (table_size s Hok) as Hlen. destruct (Z.ltb_spec (empty c) ARP_TABLE_SIZE) as [Hem|Hem].
  - destruct (seen_empty _ _ Hseen) as [[He _]|(e & Hr & Hl & Ha & Ht)]; [lia|].
    specialize (Hmade (Z.to_nat (empty c)) e (conj Hl (or_introl (conj Ha Ht))) Hnone). rewrite Z2Nat.id in Hmade by lia.
    unfold create_entry. rewrite <- (Z2Nat.id (empty c)) by lia. rewrite (get_entry_eq _ _ _ Hl). cbn [bind]. rewrite Z2Nat.id by lia.
    assert (entry_ok e) as [_ Hst] by exact (list.Forall_lookup_1 _ _ _ _ (entries_ok s Hok) Hl).
    unfold active, is_empty in Ha. destruct (entry_state e) eqn:Hse; try discriminate Ha.
    assert (with_ctime (with_ipaddr e a) 0 = fresh a e) as -> by (unfold with_ctime, with_ipaddr, fresh; cbn; by rewrite Hst, Hse).
    unfold set_entry in Hmade |- *. cbn [arp_table] in Hmade. rewrite (queued_same _ _ _ _ Hl), <- Hm in Hmade by done. by destruct st.
  - assert (empty c = ARP_TABLE_SIZE) as Hemp.
    { destruct (seen_empty _ _ Hseen) as [[He _]|(e & Hr & _)]; [done|]. unfold ARP_TABLE_SIZE in *. lia. }
    destruct (seen_recycled _ c Hlen Hseen Hemp) as (i & e & -> & Hli). pose proof (proj1 Hli) as Hl.
    assert (entry_ok e) as [Hc Hst] by exact (list.Forall_lookup_1 _ _ _ _ (entries_ok s Hok) Hl). step_in.
    apply (wp_free_entry s i e m); [done| |done|].
    { intros q Hq. rewrite Hq in Hst. destruct (entry_state e); [done|by apply Hst|by destruct Hst as (_ & ? & _)]. }
    unfold create_entry. assert (i < length (arp_table s))%nat as Hlt by (by apply lookup_lt_Some in Hl).
    rewrite (get_entry_eq _ i (emptied e)) by (unfold set_entry; rewrite Nat2Z.id; by apply list_lookup_insert_eq).
    cbn [bind]. rewrite set_set. change (with_ctime (with_ipaddr (emptied e) a) 0) with (fresh a e).
    specialize (Hmade i e Hli Hnone). cbv zeta in Hmade. unfold set_entry in Hmade |- *. cbn [arp_table] in Hmade. rewrite Nat2Z.id in *.
    rewrite <- (list_insert_insert_eq _ i _ (emptied e)), (queued_same _ i (emptied e)) in Hmade;
      [by rewrite list_insert_insert_eq in Hmade|by apply list_lookup_insert_eq|done].
Qed.

Lemma wp_find_only {B} s a (f : Z * arp_state -> prog (arp F) B) Q st : table_ok s ->
  (forall i e, arp_table s !! i = Some e -> for_addr a e = true -> wp lan_env (f (Z.of_nat i, s)) Q st) ->
  (none (for_addr a) (arp_table s) -> wp lan_env (f (ERR_MEM, s)) Q st) ->
  wp lan_env (bind (find_entry s (Some a) ETHARP_FLAG_FIND_ONLY) f) Q st.
Proof.
  intros Hok Hfound Hnone. pose proof (sweep_table s a Hok) as Hsw. unfold find_entry.
  destruct (sweep _ _ _ _) as [z|c]; [destruct Hsw as (i & e & -> & Hi & Hf); by eapply Hfound|]. exact (Hnone (proj2 Hsw)).
Qed.

(** ** Frames *)

Lemma wp_send_ip {B} n q src dst (f : Z * list pbuf -> prog (arp F) B) Q st :
  packet q -> (exists p ps, q = p :: ps /\ (14 <= length (payload p))%nat) -> length src = 6%nat -> length dst = 6%nat ->
  (forall err q', Forall2 same_owner q q' ->
     wp lan_env (f (err, q')) Q (Lan (lmem st) (frames st ++ [(n, eth_frame dst src ETHTYPE_IP (drop 14 (flat q)))]) (upper st))) ->
  wp lan_env (bind (etharp_send_ip n q src dst) f) Q st.
Proof.
  intros Hpk (p & ps & -> & Hl) Hs Hd H. destruct p as [pt ph pp ptl pr]. cbn [payload] in Hl.
  split_list pp 14. split_address src. split_address dst. clear Hl Hs Hd. unfold etharp_send_ip. do 3 put_step. apply wp_link.
  - eapply repaid_packet; [|exact Hpk]. by repeat split.
  - intros err q' Hq. apply (H err q'). inversion Hq as [|? ? ? ? [? ?] ?]; subst. by constructor.
Qed.

Lemma wp_raw_arp {B} n esrc edst hsrc isrc hdst idst opcode (f : Z -> prog (arp F) B) Q st :
  length esrc = 6%nat -> length edst = 6%nat -> length hsrc = 6%nat -> length hdst = 6%nat ->
  wp lan_env (f ERR_MEM) Q st ->
  (forall err, wp lan_env (f err) Q
     (Lan (lmem st) (frames st ++ [(n, eth_frame edst esrc ETHTYPE_ARP (arp_packet opcode hsrc isrc hdst idst))]) (upper st))) ->
  wp lan_env (bind (etharp_raw n esrc edst hsrc isrc hdst idst opcode) f) Q st.
Proof.
  intros H1 H2 H3 H4 Hnone Hsent. unfold etharp_raw. step_in. apply wp_bind, wp_arp_heap.
  eapply wp_mono; [apply pbuf_alloc_allocates; [by vm_compute|by vm_compute]|].
  intros [[[q|t k]|]|h] m' Ho; cbn [andthen allocated_as] in *; try done.
  - destruct Ho as (Hpk & Hun & _ & _ & Hone & Hl & ->). specialize (Hone eq_refl).
    destruct q as [|p [|? ?]]; [done| |done]. rewrite flat_cons, app_nil_r in Hl. change SIZEOF_ETHARP_PACKET with 42 in Hl.
    destruct p as [pt ph pp ptl pr]. cbn [payload] in Hl. split_list pp 42. destruct pp; [|cbn in Hl; lia].
    split_address esrc. split_address edst. split_address hsrc. split_address hdst. clear Hl H1 H2 H3 H4.
    pose proof (le_bytes2_htons opcode) as Hop. unfold le2, le_bytes4. do 12 put_step. injection Hop as -> ->. step_in. apply wp_link.
    + eapply repaid_packet; [|exact Hpk]. by repeat split.
    + intros err q' Hq. cbn [bind]. step_in. apply wp_arp_count. step_in.
      set (p0 := Pbuf pt ph _ ptl pr) in *.
      assert (Forall2 same_owner [p0] q') as Hq' by (inversion Hq as [|? ? ? ? [? ?] Hr]; subst; inversion Hr; subst; by repeat constructor).
      apply (wp_arp_free _ (lmem st)); [by eapply unshared_owner|cbn [lmem]; by rewrite (holding_owner _ _ _ Hq')|].
      cbn [bind lmem frames upper]. exact (Hsent err).
  - by destruct Ho as ([|] & _).
  - subst m'. step_in. apply wp_arp_count. cbn [bind]. by destruct st.
Qed.

Lemma wp_request {B} n a (f : Z -> prog (arp F) B) Q st : length (hwaddr n) = 6%nat ->
  wp lan_env (f ERR_MEM) Q st ->
  (forall err, wp lan_env (f err) Q (Lan (lmem st) (frames st ++ [(n, request_frame n a)]) (upper st))) ->
  wp lan_env (bind (etharp_request n a) f) Q st.
Proof. intros Hn H1 H2. by apply wp_raw_arp. Qed.

(** ** Learning an address *)

Definition stable_entry (a : Z) (mac : list Z) : etharp_entry := EtharpEntry None a mac ETHARP_STATE_STABLE 0.
Definition learn (s : arp_state) (i : nat) (a : Z) (mac : list Z) : arp_state :=
  set_entry s (Z.of_nat i) (stable_entry a mac).

(** The packet that has waited for the address. *)
Definition waited (n : netif) (mac : list Z) (e : etharp_entry) : list (netif * list Z) :=
  match entry_q e with
  | Some q => [(n, eth_frame mac (hwaddr n) ETHTYPE_IP (drop 14 (flat q)))]
  | None => []
  end.

Lemma wp_refresh {B} s n i e mac m (f : Z * arp_state -> prog (arp F) B) Q st :
  arp_table s !! i = Some e -> (forall q, entry_q e = Some q -> frame_ready q) ->
  lmem st = holding (queued (arp_table s)) m -> length mac = 6%nat -> length (hwaddr n) = 6%nat ->
  (let s' := learn s i (entry_ipaddr e) mac in
   wp lan_env (f (ERR_OK, s')) Q (Lan (holding (queued (arp_table s')) m) (frames st ++ waited n mac e) (upper st))) ->
  wp lan_env (bind (refresh_entry s n (Z.of_nat i) mac) f) Q st.
Proof.
  intros Hi Hq Hm Hmac Hn H. unfold refresh_entry, waited, learn, set_entry in *. cbn [arp_table] in H. rewrite Nat2Z.id in *.
  rewrite (get_entry_eq s i e Hi). cbn [bind with_ctime with_ethaddr with_state entry_q].
  pose proof (queued_insert (arp_table s) i e (stable_entry (entry_ipaddr e) mac) m Hi) as Hins. cbn [stable_entry entry_q default] in Hins.
  change (holding [] ?x) with x in Hins. destruct (entry_q e) as [q|] eqn:He.
  - destruct (Hq q eq_refl) as (Hpk & Hun & Hhead). step_in. apply wp_send_ip; try done. intros err q' Ho. cbv beta iota. step_in.
    eapply (wp_arp_free q'); [by eapply unshared_owner|cbn [lmem]; rewrite Hm, Hins; symmetry; by apply holding_owner|exact H].
  - change (holding (default [] None) ?x) with x in Hins. cbn [bind]. rewrite <- Hins, app_nil_r in H. unfold with_ctime, with_ethaddr, with_state. cbn. rewrite He, <- Hm in *. by destruct st.
Qed.

Lemma none_lookup P l i e : none P l -> l !! i = Some e -> P e = false.
Proof. intros H Hi. exact (list.Forall_lookup_1 _ _ _ _ H Hi). Qed.

(** The entry of [a], if it has one. *)
Definition only_entry (l : list etharp_entry) (i : nat) (a : Z) : Prop :=
  (i < length l)%nat /\ forall j e, l !! j = Some e -> for_addr a e = true -> j = i.

Lemma found_only s i e a : table_ok s -> arp_table s !! i = Some e -> for_addr a e = true -> only_entry (arp_table s) i a.
Proof.
  intros Hok Hi Hf. split; [by apply lookup_lt_Some in Hi|]. intros j e' Hj Hf'. unfold for_addr in *.
  apply andb_true_iff in Hf as [Ha Hea], Hf' as [Ha' Hea']. apply Z.eqb_eq in Hea, Hea'.
  eapply (table_unique s Hok); try done. congruence.
Qed.

Lemma none_only l i e a : none (for_addr a) l -> l !! i = Some e -> only_entry l i a.
Proof.
  intros Hn Hi. split; [by apply lookup_lt_Some in Hi|]. intros j e' Hj Hf.
  rewrite (none_lookup _ _ _ _ Hn Hj) in Hf. discriminate Hf.
Qed.

(** An entry for [a] may take the place. *)
Lemma place_ok s i e : table_ok s -> only_entry (arp_table s) i (entry_ipaddr e) -> entry_ok e ->
  table_ok (set_entry s (Z.of_nat i) e).
Proof.
  intros Hok [Hi Hone] He. rewrite (table_size s Hok) in Hi. apply insert_ok; [done|exact Hi|done|].
  intros _ j e' Hj Ha Hip. apply (Hone j e' Hj). unfold for_addr. by rewrite Ha, Hip, Z.eqb_refl.
Qed.

Lemma learn_ok s i a mac : table_ok s -> only_entry (arp_table s) i a -> length mac = 6%nat -> table_ok (learn s i a mac).
Proof. intros Hok Hone Hmac. by apply place_ok. Qed.

Definition unicast (a : Z) (n : netif) : Prop :=
  ip_addr_isany a = false /\ ip4_addr_isbroadcast a n = false /\ ip_addr_ismulticast a = false.

Lemma ready_queue s i e q : table_ok s -> arp_table s !! i = Some e -> entry_q e = Some q -> frame_ready q.
Proof.
  intros Hok Hi Hq. destruct (list.Forall_lookup_1 _ _ _ _ (entries_ok s Hok) Hi) as [_ H].
  destruct (entry_state e); [congruence|by apply H|by destruct H as (_ & ? & _); congruence].
Qed.

Lemma entry_addr a e : for_addr a e = true -> entry_ipaddr e = a.
Proof. intros [_ H]%andb_true_iff. by apply Z.eqb_eq. Qed.

(** What [update_arp_entry] has done: nothing, or learned where the address is,
    and sent the packet that waited. *)
Definition updated (hard : bool) (s : arp_state) (n : netif) (a : Z) (mac : list Z) (s' : arp_state) (w : list (netif * list Z)) : Prop :=
  (s' = s /\ w = [] /\ (unicast a n -> hard = false /\ none (for_addr a) (arp_table s))) \/
  (unicast a n /\ exists i e, s' = learn s i a mac /\ only_entry (arp_table s) i a /\
    (arp_table s !! i = Some e /\ for_addr a e = true /\ w = waited n mac e \/
     hard = true /\ none (for_addr a) (arp_table s) /\ least_important (arp_table s) i e /\ w = [])).

Lemma wp_update {B} hard s n a mac m (f : Z * arp_state -> prog (arp F) B) Q st :
  arp_inv s m st -> length mac = 6%nat -> length (hwaddr n) = 6%nat ->
  (forall err s' w, updated hard s n a mac s' w -> table_ok s' ->
     wp lan_env (f (err, s')) Q (Lan (holding (queued (arp_table s')) m) (frames st ++ w) (upper st))) ->
  wp lan_env (bind (update_arp_entry s n a mac (if hard then ETHARP_FLAG_TRY_HARD else ETHARP_FLAG_FIND_ONLY)) f) Q st.
Proof.
  intros [Hok Hm] Hmac Hn H. unfold update_arp_entry.
  assert (forall err (C : unicast a n -> hard = false /\ none (for_addr a) (arp_table s)), wp lan_env (f (err, s)) Q st) as Hnot.
  { intros err C. specialize (H err s [] ltac:(by left) Hok). rewrite app_nil_r, <- Hm in H. by destruct st. }
  destruct (ip_addr_isany a || ip4_addr_isbroadcast a n || ip_addr_ismulticast a) eqn:Hu.
  { apply Hnot. intros (H1 & H2 & H3). by rewrite H1, H2, H3 in Hu. }
  apply orb_false_iff in Hu as [[H1 H2]%orb_false_iff H3].
  assert (forall i e, arp_table s !! i = Some e -> for_addr a e = true ->
    wp lan_env (bind (if Z.of_nat i <? 0 then Ret (Z.of_nat i, s) else refresh_entry s n (Z.of_nat i) mac) f) Q st) as Hfound.
  { intros i e Hi Hf. rewrite (proj2 (Z.ltb_ge _ _)) by lia. pose proof (found_only s i e a Hok Hi Hf) as Hone.
    apply (wp_refresh s n i e mac m); try done; [intros q Hq; by eapply ready_queue|]. rewrite (entry_addr a e Hf). cbv zeta.
    apply H; [|by apply learn_ok]. right. split; [done|]. exists i, e. split; [done|]. split; [done|]. by left. }
  step_in. destruct hard.
  - apply (wp_find_hard s a m); [done|exact Hfound|]. intros i e Hli Hnone s'. cbv beta iota.
    pose proof (none_only _ _ _ _ Hnone (proj1 Hli)) as Hone. pose proof (table_size s Hok) as Hsz.
    rewrite (proj2 (Z.ltb_ge _ _)) by lia.
    apply (wp_refresh s' n i (fresh a e) mac m); try done.
    { unfold s', set_entry. cbn [arp_table]. rewrite Nat2Z.id. apply list_lookup_insert_eq, Hone. }
    cbv zeta. change (entry_ipaddr (fresh a e)) with a. change (waited n mac (fresh a e)) with (@nil (netif * list Z)). cbn [frames upper].
    assert (learn s' i a mac = learn s i a mac) as -> by apply set_set.
    apply H; [|by apply learn_ok]. right. split; [done|]. exists i, e. split; [done|]. split; [done|]. by right.
  - apply wp_find_only; [done|exact Hfound|]. intros Hnone. cbv beta iota. change (ERR_MEM <? 0) with true. cbn [bind].
    apply Hnot. done.
Qed.

(** ** Messages *)

Definition field (off n : nat) (d : list Z) : list Z := take n (drop off d).
Definition sender_ip (d : list Z) : Z := le_val (field 28 4 d).
Definition target_ip (d : list Z) : Z := le_val (field 38 4 d).
Definition sender_hw (d : list Z) : list Z := field 22 6 d.
Definition is_request (d : list Z) : bool := le_val (field 20 2 d) =? PP_HTONS ARP_REQUEST.
Definition is_reply (d : list Z) : bool := le_val (field 20 2 d) =? PP_HTONS ARP_REPLY.
Definition for_us (n : netif) (d : list Z) : bool :=
  if ip_addr_isany (ip_addr n) then false else ip_addr_cmp (target_ip d) (ip_addr n).

Definition malformed (d : list Z) : bool :=
  negb (le_val (field 14 2 d) =? PP_HTONS HWTYPE_ETHERNET) || negb (le_val (field 18 1 d) =? ETHARP_HWADDR_LEN)
  || negb (le_val (field 19 1 d) =? 4) || negb (le_val (field 16 2 d) =? PP_HTONS ETHTYPE_IP).

Definition reply_to (n : netif) (d : list Z) : list Z :=
  sender_hw d ++ hwaddr n ++ field 12 8 d ++ be16 ARP_REPLY ++ hwaddr n ++ le_bytes4 (ip_addr n) ++
  sender_hw d ++ le_bytes4 (sender_ip d) ++ drop 42 d.

Lemma make_reply_eq n p : (42 <= length (payload p))%nat -> length (hwaddr n) = 6%nat ->
  @make_reply F n (hwaddr n) p = Ret (set_payload p (hidden p) (reply_to n (payload p)) (tot_len p)).
Proof.
  intros Hl Hn. unfold reply_to, make_reply. set (hw := hwaddr n) in *. clearbody hw. split_address hw.
  destruct p as [pt ph pp ptl pr]. cbn [payload] in Hl. split_list pp 42. clear Hl Hn.
  unfold get_hwaddr. put_step. rewrite get_eq by (cbn; lia). cbn [bind]. cbn [payload set_payload take drop]. do 2 put_step.
  rewrite decide_True by (cbn; lia). cbn [bind]. put_step. rewrite decide_True by (cbn; lia). cbn [bind]. do 2 put_step.
  rewrite put_eq by (cbn; lia). reflexivity.
Qed.

Lemma read_at {G} p off n : (off + n <= length (payload p))%nat -> @get G p off n = Ret (le_val (field off n (payload p))).
Proof. apply get_eq. Qed.

Lemma wp_arp_drop {B} reason q m s (f : arp_state -> prog (arp F) B) Q st : unshared q -> lmem st = holding q m ->
  wp lan_env (f s) Q (Lan m (frames st) (upper st)) -> wp lan_env (bind (arp_dropped reason q s) f) Q st.
Proof.
  intros Hq Hm H. unfold arp_dropped. do 2 (step_in; apply wp_arp_count). step_in. by eapply wp_arp_free.
Qed.

(** The DHCP client of the interface has been offered [a] and is checking it. *)
Definition checking (n : netif) (a : Z) : bool :=
  match dhcp n with
  | Some c => (dhcp_state c =? DHCP_CHECKING) && ip_addr_cmp a (offered_ip_addr c)
  | None => false
  end.

Lemma wp_dhcp_arp_reply {B} n a (f : unit -> prog (arp F) B) Q st :
  (forall v, (checking n a = false -> v = []) -> wp lan_env (f tt) Q (Lan (lmem st) (frames st ++ v) (upper st))) ->
  wp lan_env (bind (dhcp_arp_reply n a) f) Q st.
Proof.
  intros H. assert (wp lan_env (f tt) Q st) as Hno.
  { specialize (H [] ltac:(done)). rewrite app_nil_r in H. by destruct st. }
  unfold dhcp_arp_reply, checking in *. destruct (dhcp n) as [c|]; [|exact Hno].
  destruct (_ =? DHCP_CHECKING); [|exact Hno]. destruct (ip_addr_cmp _ _); [|exact Hno].
  cbn [bind acall trigger]. split; [done|]. intros x s' (v & _ & ->). by apply H.
Qed.

(** A message is dropped, or its sender is learned and who asks for us is
    answered, and a reply is shown to the DHCP client; its memory is given back. *)
Lemma wp_arp_input {B} s n p ps m (f : arp_state -> prog (arp F) B) Q st :
  arp_inv s (holding (p :: ps) m) st -> packet (p :: ps) -> unshared (p :: ps) -> length (hwaddr n) = 6%nat ->
  let d := payload p in
  ((length d < 42)%nat \/ malformed d = true ->
   wp lan_env (f s) Q (Lan (holding (queued (arp_table s)) m) (frames st) (upper st))) ->
  ((42 <= length d)%nat -> malformed d = false ->
   forall s' w v, updated (for_us n d) s n (sender_ip d) (sender_hw d) s' w -> table_ok s' ->
     (is_reply d && checking n (sender_ip d) = false -> v = []) ->
     wp lan_env (f s') Q (Lan (holding (queued (arp_table s')) m)
       (frames st ++ w ++ (if is_request d && for_us n d then [(n, reply_to n d ++ flat ps)] else []) ++ v) (upper st))) ->
  wp lan_env (bind (etharp_arp_input s n (hwaddr n) (p :: ps)) f) Q st.
Proof.
  intros [Hok Hm] Hpk Hun Hn d Hdrop Hdone. rewrite (holding_swap (queued _)) in Hm. unfold etharp_arp_input, len. fold d.
  destruct (Z.ltb_spec (Z.of_nat (length d)) SIZEOF_ETHARP_PACKET) as [Hl|Hl]; change SIZEOF_ETHARP_PACKET with 42 in Hl.
  { eapply wp_arp_drop; [done|exact Hm|]. apply Hdrop. left. lia. }
  do 4 (rewrite read_at by (fold d; lia); cbn [bind]). fold d. fold (malformed d).
  destruct (malformed d) eqn:Hmal; [eapply wp_arp_drop; [done|exact Hm|]; apply Hdrop; by right|].
  step_in. apply wp_arp_count. do 2 (rewrite read_at by (fold d; lia); cbn [bind]).
  unfold get_hwaddr. rewrite decide_True by (fold d; lia). cbn [bind]. fold d.
  fold (sender_ip d) (target_ip d) (for_us n d). change (take 6 (drop 22 d)) with (sender_hw d). step_in.
  apply (wp_update _ s n _ _ (holding (p :: ps) m)); try done.
  { split; [done|]. by rewrite (holding_swap (queued _)). } { unfold sender_hw, field. rewrite length_take, length_drop. lia. }
  intros err s' w Hup Hok'. rewrite (holding_swap (queued _)). specialize (fun v => Hdone ltac:(lia) eq_refl s' w v Hup Hok').
  rewrite read_at by (fold d; lia). cbn [bind]. fold d (is_request d).
  assert (forall q fr, unshared q -> (forall m, holding q m = holding (p :: ps) m) ->
    wp lan_env (f s') Q (Lan (holding (queued (arp_table s')) m) fr (upper st)) ->
    wp lan_env (bind (let! _ := arp_pbuf_free q in Ret s') f) Q (Lan (holding (p :: ps) (holding (queued (arp_table s')) m)) fr (upper st))) as Hfree.
  { intros q fr Hq Hh HQ. step_in. eapply wp_arp_free; [done|by rewrite Hh|exact HQ]. }
  destruct (is_request d) eqn:Hreq; [destruct (for_us n d) eqn:Hus; cbn [andb] in Hdone|].
  - do 2 step_in. rewrite make_reply_eq by (done || (fold d; lia)). cbn [bind]. fold d. step_in. apply wp_link.
    { eapply repaid_packet; [|exact Hpk]. do 4 (split; [done|]).
      cbn [payload set_payload]. unfold reply_to, sender_hw, field, le_bytes4, be16. rewrite !length_app, !length_take, !length_drop, Hn. cbn [length]. fold d. lia. }
    intros err' q' Ho. cbn [bind lmem frames upper]. rewrite <- app_assoc.
    assert (Forall2 same_owner (p :: ps) q') as Ho' by (inversion Ho as [|? ? ? ? [? ?] ?]; subst; by constructor).
    apply Hfree; [by eapply unshared_owner| |by specialize (Hdone [] ltac:(done)); rewrite app_nil_r in Hdone].
    intros m0. by apply holding_owner.
  - cbn [bind]. apply Hfree; [done|done|]. specialize (Hdone [] ltac:(done)). by rewrite !app_nil_r in Hdone.
  - cbn [andb app] in Hdone. unfold is_reply in Hdone. destruct (_ =? PP_HTONS ARP_REPLY); cbn [andb] in Hdone.
    + do 2 step_in. apply wp_dhcp_arp_reply. intros v Hv. cbn [bind lmem frames upper]. rewrite <- app_assoc. apply Hfree; [done|done|by apply Hdone].
    + do 2 step_in. apply wp_arp_count. cbn [bind]. apply Hfree; [done|done|]. specialize (Hdone [] ltac:(done)). by rewrite app_nil_r in Hdone.
Qed.

(** ** The timer *)

Definition expired (e : etharp_entry) : bool :=
  (ARP_MAXAGE <=? entry_ctime e) || (is_pending e && (ARP_MAXPENDING <=? entry_ctime e)).

(** An entry a tick later. *)
Definition aged (e : etharp_entry) : etharp_entry :=
  if is_empty e then e
  else
    let e := with_ctime e (entry_ctime e + 1) in
    if expired e then emptied e else e.

Lemma entry_age e : entry_ok e -> is_empty e = false -> 0 <= entry_ctime e < 240.
Proof.
  intros [Hc Hs] He. unfold is_empty in He. change ARP_MAXPENDING with 2 in Hs. change ARP_MAXAGE with 240 in Hs.
  destruct (entry_state e); [discriminate He|lia|lia].
Qed.

Lemma aged_ok e : entry_ok e -> entry_ok (aged e).
Proof.
  intros Hok. unfold aged. destruct (is_empty e) eqn:He; [done|]. pose proof (entry_age e Hok He).
  destruct (expired _) eqn:Hx; [by split; cbn; lia || done|]. destruct Hok as [Hc Hs].
  unfold expired, is_pending in Hx. cbn [entry_ctime with_ctime entry_state] in Hx. apply orb_false_iff in Hx as [H1 H2].
  apply Z.leb_gt in H1. split; [cbn; lia|]. cbn [entry_state with_ctime entry_ctime entry_q entry_ethaddr].
  destruct (entry_state e); [done| |].
  - split; [|by apply Hs]. cbn [bool_decide andb] in H2. rewrite bool_decide_true in H2 by done. cbn [andb] in H2. by apply Z.leb_gt in H2.
  - split; [done|apply Hs].
Qed.

Lemma aged_active e : active (aged e) = true -> active e = true /\ entry_ipaddr (aged e) = entry_ipaddr e.
Proof.
  unfold aged, active. destruct (is_empty e) eqn:He; [by rewrite He|]. intros _. split; [done|]. by destruct (expired _).
Qed.

Definition ticked (s : arp_state) : arp_state := ArpState (map aged (arp_table s)) (etharp_cached_entry s).

Lemma ticked_ok s : table_ok s -> table_ok (ticked s).
Proof.
  intros [Hs He Hu Hc]. split; cbn [ticked arp_table etharp_cached_entry]; [by rewrite length_map| | |done].
  - apply List.Forall_map. eapply list.Forall_impl; [exact He|]. intros e. apply aged_ok.
  - intros i j e e' Hi Hj Ha Ha' Hip. apply (list_lookup_fmap_Some aged) in Hi as (x & -> & Hi). apply (list_lookup_fmap_Some aged) in Hj as (y & -> & Hj).
    apply aged_active in Ha as [Ha Hx], Ha' as [Ha' Hy]. rewrite Hx, Hy in Hip. by eapply Hu.
Qed.

Lemma wp_tmr_entry {B} s i e m (f : arp_state -> prog (arp F) B) Q st :
  arp_table s !! i = Some e -> entry_ok e -> lmem st = holding (queued (arp_table s)) m ->
  (let s' := set_entry s (Z.of_nat i) (aged e) in
   wp lan_env (f s') Q (Lan (holding (queued (arp_table s')) m) (frames st) (upper st))) ->
  wp lan_env (bind (tmr_entry s (Z.of_nat i)) f) Q st.
Proof.
  intros Hi Hok Hm H. unfold tmr_entry. rewrite (get_entry_eq s i e Hi). cbn [bind].
  pose proof (lookup_lt_Some _ _ _ Hi) as Hlt. cbv zeta in H. unfold set_entry in H. cbn [arp_table] in H. rewrite Nat2Z.id in H.
  assert (wp lan_env (f (set_entry s (Z.of_nat i) e)) Q st -> wp lan_env (f s) Q st) as Hsame.
  { unfold set_entry. rewrite Nat2Z.id, list_insert_id by done. by destruct s. }
  unfold aged in H. destruct (is_empty e) eqn:He; cbn [negb].
  { apply Hsame. rewrite (queued_same _ _ _ _ Hi), <- Hm in H by done. unfold set_entry. rewrite Nat2Z.id. by destruct st. }
  pose proof (entry_age e Hok He) as Hage. rewrite u8_id by (unfold is_u8; lia).
  set (e1 := with_ctime e (entry_ctime e + 1)) in *. fold (expired e1).
  destruct (expired e1).
  - apply (wp_free_entry _ i e1 m).
    + unfold set_entry. rewrite Nat2Z.id. by apply list_lookup_insert_eq.
    + intros q Hq. destruct Hok as [_ Hs]. cbn [e1 with_ctime entry_q] in Hq. rewrite Hq in Hs.
      destruct (entry_state e); [done|by apply Hs|by destruct Hs as (_ & ? & _)].
    + unfold set_entry. cbn [arp_table]. rewrite Nat2Z.id, (queued_same _ _ _ _ Hi) by done. exact Hm.
    + rewrite set_set. unfold set_entry. cbn [arp_table]. by rewrite Nat2Z.id, list_insert_insert_eq.
  - rewrite (queued_same _ _ _ _ Hi), <- Hm in H by done. unfold set_entry. rewrite Nat2Z.id. cbn [bind]. by destruct st.
Qed.

Lemma wp_tmr_loop {B} l pre c m (f : arp_state -> prog (arp F) B) Q st :
  Forall entry_ok l -> lmem st = holding (queued (pre ++ l)) m ->
  wp lan_env (f (ArpState (pre ++ map aged l) c)) Q (Lan (holding (queued (pre ++ map aged l)) m) (frames st) (upper st)) ->
  wp lan_env (bind (tmr_loop (length l) (Z.of_nat (length pre)) (ArpState (pre ++ l) c)) f) Q st.
Proof.
  revert pre st. induction l as [|e l IH]; intros pre st Hl Hm H; cbn [length tmr_loop map] in *.
  { rewrite app_nil_r in *. rewrite <- Hm in H. cbn [bind]. by destruct st. }
  apply list.Forall_cons in Hl as [He Hl]. step_in.
  apply (wp_tmr_entry _ _ e m); [cbn [arp_table]; by apply list_lookup_middle|done|done|].
  cbv zeta. unfold set_entry. cbn [arp_table etharp_cached_entry]. rewrite Nat2Z.id, insert_app_r_alt, Nat.sub_diag by done. cbn [insert list_insert].
  specialize (IH (pre ++ [aged e])). rewrite length_app, Nat2Z.inj_add, <- !app_assoc in IH. cbn [app length] in IH.
  apply IH; [done|done|exact H].
Qed.

Lemma wp_tmr {B} s m (f : arp_state -> prog (arp F) B) Q st : arp_inv s m st ->
  wp lan_env (f (ticked s)) Q (Lan (holding (queued (arp_table (ticked s))) m) (frames st) (upper st)) ->
  wp lan_env (bind (etharp_tmr s) f) Q st.
Proof.
  intros [[Hs He _ _] Hm] H. unfold etharp_tmr. rewrite <- Hs. destruct s as [l c].
  exact (wp_tmr_loop l [] c m f Q st He Hm H).
Qed.

(** ** Queueing *)

(** A packet with its Ethernet header to be: it can be copied. *)
Record outgoing (q : list pbuf) : Prop := {
  out_packet : packet q;
  out_full : full q;
  out_head : exists p ps, q = p :: ps /\ pb_type p <> PBUF_ROM /\ (14 <= length (payload p))%nat;
  out_size : Z.of_nat (length (flat q)) <= 65460
}.

Lemma wp_take_over {B} q (f : option (list pbuf) * list pbuf -> prog (arp F) B) Q st : outgoing q ->
  wp lan_env (f (None, q)) Q st ->
  (forall r, frame_ready r -> flat r = flat q ->
     wp lan_env (f (Some r, q)) Q (Lan (holding r (lmem st)) (frames st) (upper st))) ->
  wp lan_env (bind (take_over q) f) Q st.
Proof.
  intros [Hpk Hfull (p & ps & -> & Hty & Hl) Hsz] Hno Hyes. unfold take_over. cbn [copy_needed]. rewrite decide_False by done.
  pose proof Hpk as [[[Ht _] _] _]. step_in. apply wp_bind, wp_arp_heap. rewrite Ht.
  eapply wp_mono; [apply pbuf_alloc_allocates; [unfold is_u16; lia|done]|].
  assert (0 < length (flat (p :: ps)))%nat as Hpos by (rewrite flat_cons, length_app; lia).
  intros [[[r|t k]|]|h] m' Ho; cbn [andthen allocated_as] in *; try done.
  - destruct Ho as (Hpr & Hur & _ & _ & Hone & Hlr & ->). specialize (Hone eq_refl).
    destruct (pbuf_copy_eq r (p :: ps)) as (r' & -> & Hs & Hfr); try done; [apply one_full; [done|lia]|by destruct r|lia|].
    cbn [of_outcome bind]. change (negb (ERR_OK =? ERR_OK)) with false. cbn [bind]. rewrite drop_ge, app_nil_r in Hfr by lia.
    rewrite <- (shape_holding _ _ _ Hs). apply Hyes; [|done]. split; [by eapply shape_packet|]. split.
    + clear - Hs Hur. induction Hs as [|a b r r' (_ & _ & _ & _ & Hr) _ IH]; [done|]. apply list.Forall_cons in Hur as [Ha Hur].
      apply list.Forall_cons. split; [congruence|by apply IH].
    + assert (length r' = 1%nat) as H1 by (by rewrite <- (list.Forall2_length _ _ _ Hs)).
      destruct r' as [|b [|? ?]]; [done| |done]. exists b, []. split; [done|].
      rewrite flat_cons, app_nil_r in Hfr. rewrite Hfr, flat_cons, length_app. lia.
  - by destruct Ho as ([|] & _).
  - subst m'. cbn [bind]. by destruct st.
Qed.

Definition pending_entry (e : etharp_entry) (q : option (list pbuf)) : etharp_entry :=
  EtharpEntry q (entry_ipaddr e) (entry_ethaddr e) ETHARP_STATE_PENDING (entry_ctime e).

Lemma wp_queue_packet {B} s i e q m (f : Z * list pbuf * arp_state -> prog (arp F) B) Q st :
  arp_table s !! i = Some e -> entry_state e = ETHARP_STATE_PENDING -> (forall q, entry_q e = Some q -> frame_ready q) ->
  lmem st = holding (queued (arp_table s)) m -> outgoing q ->
  wp lan_env (f (ERR_MEM, q, s)) Q st ->
  (forall r, frame_ready r -> flat r = flat q ->
     let s' := set_entry s (Z.of_nat i) (pending_entry e (Some r)) in
     wp lan_env (f (ERR_OK, q, s')) Q (Lan (holding (queued (arp_table s')) m) (frames st) (upper st))) ->
  wp lan_env (bind (queue_packet s (Z.of_nat i) q) f) Q st.
Proof.
  intros Hi Hst Hq Hm Hout Hno Hyes. unfold queue_packet. step_in. apply wp_take_over; [done| |].
  { step_in. by apply wp_arp_count. }
  intros r Hr Hf. rewrite (get_entry_eq s i e Hi). cbn [bind]. specialize (Hyes r Hr Hf). cbv zeta in Hyes.
  assert (with_q e (Some r) = pending_entry e (Some r)) as -> by (unfold with_q, pending_entry; by rewrite Hst).
  unfold set_entry in *. cbn [arp_table] in Hyes. rewrite Nat2Z.id in *.
  pose proof (queued_insert (arp_table s) i e (pending_entry e (Some r)) m Hi) as Hins. cbn [pending_entry entry_q] in Hins.
  change (default [] (Some r)) with r in Hins. destruct (entry_q e) as [old|]; [|change (holding (default [] None) ?x) with x in Hins].
  - step_in. eapply wp_arp_free; [by apply (Hq old)|cbn [lmem]; rewrite Hm; exact Hins|exact Hyes].
  - cbn [bind]. by rewrite Hm, Hins.
Qed.

(** The packet is on its way: it has been sent to the address known, or waits
    behind a request; or there was no memory for it. *)
Definition requested (n : netif) (a : Z) (w : list (netif * list Z)) : Prop := w = [] \/ w = [(n, request_frame n a)].

Definition queues (s : arp_state) (n : netif) (a : Z) (d : list Z) (err : Z) (s' : arp_state) (w : list (netif * list Z)) : Prop :=
  exists i e q, only_entry (arp_table s) i a /\ entry_ipaddr e = a /\
    ((arp_table s !! i = Some e /\ for_addr a e = true /\ is_pending e = true) \/
     (none (for_addr a) (arp_table s) /\ exists e0, least_important (arp_table s) i e0 /\ e = fresh a e0)) /\
    s' = set_entry s (Z.of_nat i) (pending_entry e q) /\ requested n a w /\
    (err = ERR_MEM /\ q = entry_q e \/ err = ERR_OK /\ exists r, q = Some r /\ frame_ready r /\ drop 14 (flat r) = d).

Definition resolves (s : arp_state) (n : netif) (a : Z) (d : list Z) (s' : arp_state) (w : list (netif * list Z)) : Prop :=
  exists i e, arp_table s !! i = Some e /\ for_addr a e = true /\ is_stable e = true /\
    (s' = s \/ s' = set_hint s (Z.of_nat i)) /\ w = [(n, eth_frame (entry_ethaddr e) (hwaddr n) ETHTYPE_IP d)].

Lemma pending_ok s i e q a : table_ok s -> only_entry (arp_table s) i a -> entry_ipaddr e = a ->
  0 <= entry_ctime e < ARP_MAXPENDING -> (forall r, q = Some r -> frame_ready r) ->
  table_ok (set_entry s (Z.of_nat i) (pending_entry e q)).
Proof. intros Hok Hone <- Hc Hq. apply place_ok; [done|done|]. split; [apply Hc|]. split; [apply Hc|exact Hq]. Qed.

Lemma wp_query_pending {B} s i e q n a m (f : Z * option (list pbuf) * arp_state -> prog (arp F) B) Q st :
  arp_table s !! i = Some e -> is_stable e = false -> (forall q, entry_q e = Some q -> frame_ready q) ->
  lmem st = holding (queued (arp_table s)) m -> outgoing q -> length (hwaddr n) = 6%nat ->
  (forall err x w, requested n a w -> (err = ERR_MEM /\ x = entry_q e \/ err = ERR_OK /\ exists r, x = Some r /\ frame_ready r /\ flat r = flat q) ->
     let s' := set_entry s (Z.of_nat i) (pending_entry e x) in
     wp lan_env (f (err, Some q, s')) Q (Lan (holding (queued (arp_table s')) m) (frames st ++ w) (upper st))) ->
  wp lan_env (bind (query_entry s n a (Z.of_nat i) (Some q)) f) Q st.
Proof.
  intros Hi Hst Hq Hm Hout Hn H. unfold query_entry. rewrite (get_entry_eq s i e Hi). cbn [bind].
  assert ((if is_empty e then with_state e ETHARP_STATE_PENDING else e) = pending_entry e (entry_q e)) as ->.
  { unfold is_stable, is_empty, pending_entry, with_state in *. destruct e as [? ? ? []]; done. }
  set (e1 := pending_entry e (entry_q e)). set (s1 := set_entry s (Z.of_nat i) e1).
  pose proof (lookup_lt_Some _ _ _ Hi) as Hlt.
  assert (arp_table s1 = <[i := e1]> (arp_table s)) as Ht1 by (unfold s1, set_entry; cbn [arp_table]; by rewrite Nat2Z.id).
  assert (forall w, requested n a w -> lmem st = holding (queued (arp_table s1)) m ->
    wp lan_env (bind (let! (result, q0, s0) := queue_packet s1 (Z.of_nat i) q in Ret (result, Some q0, s0)) f) Q
      (Lan (lmem st) (frames st ++ w) (upper st))) as Hgo.
  { intros w Hw Hm1. step_in. apply (wp_queue_packet s1 i e1 q m); try done.
    - rewrite Ht1. by apply list_lookup_insert_eq.
    - cbn [bind]. rewrite Hm1. apply (H ERR_MEM (entry_q e) w); [done|by left].
    - intros r Hr Hf. cbv zeta. cbn [bind frames upper]. unfold s1. rewrite set_set.
      apply (H ERR_OK (Some r) w); [done|]. right. split; [done|]. by exists r. }
  assert (lmem st = holding (queued (arp_table s1)) m) as Hm1 by (rewrite Ht1, (queued_same _ _ e); done).
  change (is_pending e1) with true. change (is_stable e1) with false. cbn [orb]. step_in. apply wp_request; [done| |].
  - specialize (Hgo [] (or_introl eq_refl) Hm1). rewrite app_nil_r in Hgo. by destruct st.
  - intros err. apply (Hgo [(n, request_frame n a)]); [by right|done].
Qed.

Lemma wp_query_stable {B} s i e q n a (f : Z * option (list pbuf) * arp_state -> prog (arp F) B) Q st :
  arp_table s !! i = Some e -> is_stable e = true -> length (entry_ethaddr e) = 6%nat -> outgoing q -> length (hwaddr n) = 6%nat ->
  (forall err q', Forall2 same_owner q q' ->
     wp lan_env (f (err, Some q', set_hint s (Z.of_nat i))) Q
       (Lan (lmem st) (frames st ++ [(n, eth_frame (entry_ethaddr e) (hwaddr n) ETHTYPE_IP (drop 14 (flat q)))]) (upper st))) ->
  wp lan_env (bind (query_entry s n a (Z.of_nat i) (Some q)) f) Q st.
Proof.
  intros Hi Hst Hmac [Hpk _ (p & ps & Hp & _ & Hl) _] Hn H. unfold query_entry. rewrite (get_entry_eq s i e Hi). cbn [bind].
  assert (is_empty e = false /\ is_pending e = false) as [He Hpe].
  { unfold is_stable, is_empty, is_pending in *. by destruct (entry_state e). }
  rewrite He, Hpe, Hst. cbn [orb bind]. assert (set_entry s (Z.of_nat i) e = s) as ->.
  { unfold set_entry. rewrite Nat2Z.id, list_insert_id by done. by destruct s. }
  step_in. apply wp_send_ip; [done|by exists p, ps|done|done|exact H].
Qed.

(** ** Sending *)

(** What becomes of the packet [d] for the unicast address [a] of the network. *)
Definition handled (s : arp_state) (n : netif) (a : Z) (d : list Z) (err : Z) (s' : arp_state) (w : list (netif * list Z)) : Prop :=
  (err = ERR_ARG /\ s' = s /\ w = [] /\ ~ unicast a n) \/
  (resolves s n a d s' w \/ unicast a n /\ queues s n a d err s' w).

Lemma wp_query {B} s n q a m (f : Z * option (list pbuf) * arp_state -> prog (arp F) B) Q st :
  arp_inv s m st -> outgoing q -> length (hwaddr n) = 6%nat ->
  (forall err q' s' w, Forall2 same_owner q q' -> handled s n a (drop 14 (flat q)) err s' w -> table_ok s' ->
     wp lan_env (f (err, Some q', s')) Q (Lan (holding (queued (arp_table s')) m) (frames st ++ w) (upper st))) ->
  wp lan_env (bind (etharp_query s n a (Some q)) f) Q st.
Proof.
  intros [Hok Hm] Hout Hn H. assert (Forall2 same_owner q q) as Hqq by (clear; induction q; by constructor).
  unfold etharp_query. destruct (_ || ip_addr_isany a) eqn:Hu.
  { cbn [bind]. assert (~ unicast a n) as Hnu by (intros (H1 & H2 & H3); by rewrite H1, H2, H3 in Hu).
    specialize (H ERR_ARG q s [] Hqq ltac:(by left) Hok). rewrite app_nil_r, <- Hm in H. by destruct st. }
  apply orb_false_iff in Hu as [[H2 H3]%orb_false_iff H1]. assert (unicast a n) as Hun by done. step_in.
  assert (forall s1 i e, arp_table s1 !! i = Some e -> is_stable e = false -> (forall q, entry_q e = Some q -> frame_ready q) ->
    only_entry (arp_table s) i a -> entry_ipaddr e = a -> 0 <= entry_ctime e < ARP_MAXPENDING ->
    (forall x, set_entry s1 (Z.of_nat i) x = set_entry s (Z.of_nat i) x) ->
    ((arp_table s !! i = Some e /\ for_addr a e = true /\ is_pending e = true) \/
     (none (for_addr a) (arp_table s) /\ exists e0, least_important (arp_table s) i e0 /\ e = fresh a e0)) ->
    wp lan_env (bind (query_entry s1 n a (Z.of_nat i) (Some q)) f) Q
      (Lan (holding (queued (arp_table s1)) m) (frames st) (upper st))) as Hpend.
  { intros s1 i e Hi Hs Hq Hone Ha Hc Hset Hor. apply (wp_query_pending s1 i e q n a m); try done.
    intros err x w Hw Hx. cbv zeta. rewrite Hset. apply H; [done| |].
    - right. right. split; [done|]. exists i, e, x. split; [done|]. split; [done|]. split; [done|]. split; [done|]. split; [done|].
      destruct Hx as [Hx|(He & r & Hr & Hrr & Hf)]; [by left|right]. split; [done|]. exists r. by rewrite Hf.
    - apply (pending_ok s i e x a); try done. intros r ->. destruct Hx as [[_ Hx]|(_ & r' & [= ->] & Hr & _)]; [by apply Hq|done]. }
  apply (wp_find_hard s a m); [done| |].
  - intros i e Hi Hf. cbv beta iota. rewrite (proj2 (Z.ltb_ge _ _)) by lia. pose proof (found_only s i e a Hok Hi Hf) as Hone.
    pose proof (list.Forall_lookup_1 _ _ _ _ (entries_ok s Hok) Hi) as [Hc Hse].
    destruct (is_stable e) eqn:Hs.
    + assert (length (entry_ethaddr e) = 6%nat) as Hmac by (unfold is_stable in Hs; destruct (entry_state e); [done|done|by destruct Hse as (_ & _ & ?)]).
      apply (wp_query_stable s i e); try done. intros err q' Ho.
      specialize (H err q' (set_hint s (Z.of_nat i)) [(n, eth_frame (entry_ethaddr e) (hwaddr n) ETHTYPE_IP (drop 14 (flat q)))] Ho).
      cbn [set_hint arp_table] in H. rewrite <- Hm in H. apply H.
      * right. left. exists i, e. split; [done|]. split; [done|]. split; [done|]. split; [by right|done].
      * destruct Hok as [Hsz ? ? ?]. split; cbn [set_hint arp_table etharp_cached_entry]; try done.
        apply lookup_lt_Some in Hi. rewrite Hsz in Hi. change ARP_TABLE_SIZE with 10 in *. rewrite u8_id; unfold is_u8; lia.
    + assert (is_pending e = true) as Hp.
      { unfold for_addr, active, is_empty, is_stable, is_pending in *. by destruct (entry_state e). }
      specialize (Hpend s i e Hi Hs). rewrite <- Hm in Hpend. destruct st as [lm fr up]. apply Hpend; try done.
      * intros q0 Hq0. by eapply ready_queue. * by apply entry_addr.
      * unfold is_pending in Hp. destruct (entry_state e); [done| |done]. by split; [|apply Hse]. * by left.
  - intros i e Hli Hnone s'. cbv beta iota. rewrite (proj2 (Z.ltb_ge _ _)) by lia.
    pose proof (none_only _ _ _ _ Hnone (proj1 Hli)) as Hone.
    apply (Hpend s' i (fresh a e)); try done; [|intros x; apply set_set|right; split; [done|by exists e]].
    unfold s', set_entry. cbn [arp_table]. rewrite Nat2Z.id. apply list_lookup_insert_eq, Hone.
Qed.

Lemma wp_output_to {B} s n q a m (f : Z * list pbuf * arp_state -> prog (arp F) B) Q st :
  arp_inv s m st -> outgoing q -> length (hwaddr n) = 6%nat ->
  (forall err q' s' w, Forall2 same_owner q q' -> handled s n a (drop 14 (flat q)) err s' w -> table_ok s' ->
     wp lan_env (f (err, q', s')) Q (Lan (holding (queued (arp_table s')) m) (frames st ++ w) (upper st))) ->
  wp lan_env (bind (output_to s n q a) f) Q st.
Proof.
  intros [Hok Hm] Hout Hn H. unfold output_to. pose proof (cached_ok s Hok) as Hc. change ARP_TABLE_SIZE with 10 in Hc.
  destruct (has_entry s (Z.to_nat (etharp_cached_entry s)) Hok ltac:(lia)) as (e & He & Heok).
  rewrite <- (Z2Nat.id (etharp_cached_entry s)) by lia. rewrite (get_entry_eq _ _ _ He). cbn [bind].
  destruct (is_stable e && ip_addr_cmp a (entry_ipaddr e)) eqn:Hhit.
  - apply andb_true_iff in Hhit as [Hs Ha]. unfold ip_addr_cmp in Ha. apply Z.eqb_eq in Ha.
    assert (length (entry_ethaddr e) = 6%nat) as Hmac.
    { destruct Heok as [_ Hse]. unfold is_stable in Hs. destruct (entry_state e); [done|done|by destruct Hse as (_ & _ & ?)]. }
    pose proof Hout as [Hpk _ (p & ps & Hp & _ & Hl) _].
    step_in. apply wp_arp_count. step_in. apply wp_send_ip; [done|by exists p, ps|done|done|]. intros err q' Ho. cbn [bind].
    rewrite Hm. apply H; [done| |done]. right. left. exists (Z.to_nat (etharp_cached_entry s)), e. split; [done|]. split; [|by split; [|split; [left|]]].
    unfold for_addr, active, is_empty, is_stable in *. rewrite Ha, Z.eqb_refl. by destruct (entry_state e).
  - step_in. apply (wp_query s n q a m); [done|done|done|]. intros err q' s' w Ho Hh Hok'. cbn [bind default]. by apply H.
Qed.

(** The next hop: the address itself on the local network, else the gateway. *)
Definition next_hop (n : netif) (dst : Z) : option Z :=
  if negb (ip_addr_netcmp dst (ip_addr n) (netmask n)) && negb (ip_addr_islinklocal dst) then
    if negb (ip_addr_isany (gw n)) then Some (gw n) else None
  else Some dst.

(** The destination that needs no resolution. *)
Definition group_addr (n : netif) (dst : Z) : option (list Z) :=
  if ip4_addr_isbroadcast dst n then Some ethbroadcast
  else if ip_addr_ismulticast dst then Some (multicast_addr dst) else None.

Definition sends_packet (s : arp_state) (n : netif) (h : pbuf) (d : list Z) (dst : Z) (err : Z) (s' : arp_state) (w : list (netif * list Z)) : Prop :=
  (~ room_for 14 h /\ err = ERR_BUF /\ s' = s /\ w = []) \/
  (room_for 14 h /\
   match group_addr n dst with
   | Some mac => s' = s /\ w = [(n, eth_frame mac (hwaddr n) ETHTYPE_IP d)]
   | None =>
     match next_hop n dst with
     | Some a => handled s n a d err s' w
     | None => err = ERR_RTE /\ s' = s /\ w = []
     end
   end).

#[global] Instance room_for_dec k p : Decision (room_for k p).
Proof. unfold room_for. apply _. Defined.

Lemma no_room n p : (0 < n)%nat -> ~ room_for n p -> pbuf_header p (Z.of_nat n) = Done (1, p).
Proof.
  intros H0 Hn. unfold pbuf_header, room_for in *. rewrite (proj2 (Z.eqb_neq _ _)), (proj2 (Z.ltb_ge _ _)), Nat2Z.id by lia.
  destruct (pb_type p); try done; (rewrite decide_True; [done|]); (destruct (decide (length (hidden p) < n)%nat); [done|]);
    exfalso; apply Hn; (split; [tauto|lia]).
Qed.

Lemma wp_output {B} s n h ps dst m (f : Z * list pbuf * arp_state -> prog (arp F) B) Q st :
  arp_inv s m st -> packet (h :: ps) -> full (h :: ps) -> tot_len h + 14 <= 65460 -> length (hwaddr n) = 6%nat ->
  (forall err q' s' w, Forall2 same_owner (h :: ps) q' -> sends_packet s n h (flat (h :: ps)) dst err s' w -> table_ok s' ->
     wp lan_env (f (err, q', s')) Q (Lan (holding (queued (arp_table s')) m) (frames st ++ w) (upper st))) ->
  wp lan_env (bind (etharp_output s n (h :: ps) dst) f) Q st.
Proof.
  intros [Hok Hm] Hpk Hfull Hlen Hn H. pose proof Hpk as [[[Ht _] _] _]. unfold etharp_output. change SIZEOF_ETH_HDR with (Z.of_nat 14).
  assert (forall err h' w s', same_owner h h' -> s' = s -> sends_packet s n h (flat (h :: ps)) dst err s w ->
    wp lan_env (f (err, h' :: ps, s')) Q (Lan (lmem st) (frames st ++ w) (upper st))) as Hsame.
  { intros err h' w s' Hh -> Hs. rewrite Hm. apply H; [|done|done]. constructor; [done|]. clear. induction ps; by constructor. }
  destruct (decide (room_for 14 h)) as [Hr|Hr].
  2: { rewrite no_room by (done || lia). cbn [of_outcome bind]. change (negb (1 =? 0)) with true. cbv iota. step_in. apply wp_arp_count. cbn [bind].
       specialize (Hsame ERR_BUF h [] s ltac:(done) eq_refl ltac:(by left)). rewrite app_nil_r in Hsame. by destruct st. }
  pose proof Hr as [Hty Hroom].
  destruct (header_front 14 h Hty Hroom) as (h1 & hd & -> & Hp1 & Hhl & Ht1 & Hr1 & Htl1 & _); [unfold is_u16; lia|].
  cbn [of_outcome bind]. change (negb (0 =? 0)) with false. cbv iota.
  assert (packet (h1 :: ps)) as Hpk1 by (eapply packet_room; try done; [by rewrite Hhl|lia]).
  assert (flat (h1 :: ps) = hd ++ flat (h :: ps)) as Hf1 by (rewrite !flat_cons, Hp1; by rewrite app_assoc).
  assert (drop 14 (flat (h1 :: ps)) = flat (h :: ps)) as Hd1 by (by rewrite Hf1, drop_app_length').
  assert (same_owner h h1) as Hown by done.
  assert (outgoing (h1 :: ps)) as Hout.
  { split; [done| | |].
    - apply list.Forall_cons in Hfull as [_ Hfull]. apply list.Forall_cons. split; [|done]. rewrite Hp1. by destruct hd.
    - exists h1, ps. split; [done|]. split; [rewrite Ht1; destruct Hty as [-> | ->]; discriminate|]. rewrite Hp1, length_app. lia.
    - rewrite Hf1, length_app. lia. }
  assert (forall q', Forall2 same_owner (h1 :: ps) q' -> Forall2 same_owner (h :: ps) q') as Howns.
  { intros q' Hq'. inversion Hq' as [|? ? ? ? [H1 H2] ?]; subst. constructor; [split; congruence|done]. }
  assert (forall mac, length mac = 6%nat -> group_addr n dst = Some mac ->
    wp lan_env (bind (let! (err, q) := etharp_send_ip n (h1 :: ps) (hwaddr n) mac in Ret (err, q, s)) f) Q st) as Hgroup.
  { intros mac Hmac Hg. step_in. apply wp_send_ip; [done| |done|done|].
    - exists h1, ps. split; [done|]. rewrite Hp1, length_app. lia.
    - intros err q' Hq'. cbn [bind]. rewrite Hm, Hd1. apply H; [by apply Howns| |done]. right. split; [done|]. by rewrite Hg. }
  unfold group_addr in Hgroup. unfold sends_packet, group_addr in H, Hsame.
  destruct (ip4_addr_isbroadcast dst n); [cbn [bind]; by apply Hgroup|].
  destruct (ip_addr_ismulticast dst); [cbn [bind]; by apply Hgroup|]. cbn [bind].
  assert (forall a, next_hop n dst = Some a -> wp lan_env (bind (output_to s n (h1 :: ps) a) f) Q st) as Hto.
  { intros a Ha. apply (wp_output_to s n (h1 :: ps) a m); try done. intros err q' s' w Ho Hh Hok'. apply H; [by apply Howns| |done].
    right. split; [done|]. rewrite Ha. by rewrite Hd1 in Hh. }
  unfold next_hop in *. destruct (_ && negb (ip_addr_islinklocal dst)); [|by apply Hto].
  destruct (negb (ip_addr_isany (gw n))); [by apply Hto|]. cbn [bind].
  specialize (Hsame ERR_RTE h1 [] s Hown eq_refl). rewrite app_nil_r in Hsame. destruct st. apply Hsame. by right.
Qed.
End lan.
