(* ===== verification/LwipArpHistory.v ===== *)
(** * The ARP table over time

    Whatever is sent, received and asked, tick by tick: the table of etharp.c
    stays consistent, keeps every packet's memory accounted for, and knows only
    addresses that were announced to it. *)

From stdpp Require Import list.
From S2P Require Import Prelude Prog Pbuf PbufSpec PbufAlloc PbufAllocSpec LwipUdp LwipUdpSpec LwipIp LwipIpSpec LwipArp LwipArpSpec.

(** ** What happens to the table *)

(** [Probe] is a query without a packet; the sender of [Output] gives its packet
    back afterwards. *)
Inductive arp_event :=
| Tick
| Output (n : netif) (q : list pbuf) (dst : Z)
| Probe (n : netif) (a : Z)
| Message (n : netif) (p : list pbuf).

Definition event_packet (e : arp_event) : list pbuf :=
  match e with Output _ q _ => q | Message _ p => p | _ => [] end.

Definition event_ok (e : arp_event) : Prop :=
  match e with
  | Tick => True
  | Output n q _ => q <> [] /\ packet q /\ unshared q /\ full q /\ Z.of_nat (length (flat q)) + 14 <= 65460 /\ length (hwaddr n) = 6%nat
  | Probe n _ => length (hwaddr n) = 6%nat
  | Message n p => p <> [] /\ packet p /\ unshared p /\ length (hwaddr n) = 6%nat
  end.

Section history.
Context {F : Sig}.

Definition event_code (e : arp_event) (s : arp_state) : prog (arp F) arp_state :=
  match e with
  | Tick => etharp_tmr s
  | Output n q dst => let! (_, q, s) := etharp_output s n q dst in arp_pbuf_free q;; Ret s
  | Probe n a => let! (_, _, s) := etharp_query s n a None in Ret s
  | Message n p => etharp_arp_input s n (hwaddr n) p
  end.

Fixpoint arp_history (es : list arp_event) (s : arp_state) : prog (arp F) arp_state :=
  match es with
  | [] => Ret s
  | e :: es => let! s := event_code e s in arp_history es s
  end.
End history.

(** ** What the table knows *)

Definition knows (s : arp_state) (a : Z) (mac : list Z) : Prop :=
  exists i e, arp_table s !! i = Some e /\ is_stable e = true /\ entry_ipaddr e = a /\ entry_ethaddr e = mac.

(** The event is a message from [mac], which says that it has [a]. *)
Definition announces (e : arp_event) (a : Z) (mac : list Z) : Prop :=
  exists n p ps, e = Message n (p :: ps) /\ sender_ip (payload p) = a /\ sender_hw (payload p) = mac.

Lemma knows_set s i x a mac : knows (set_entry s (Z.of_nat i) x) a mac ->
  knows s a mac \/ is_stable x = true /\ entry_ipaddr x = a /\ entry_ethaddr x = mac.
Proof.
  intros (j & e & Hj & He). unfold set_entry in Hj. cbn [arp_table] in Hj. rewrite Nat2Z.id in Hj.
  apply list_lookup_insert_Some in Hj as [(-> & <- & _)|[_ Hj]]; [by right|left; by exists j, e].
Qed.

Lemma knows_ticked s a mac : knows (ticked s) a mac -> knows s a mac.
Proof.
  intros (i & e & Hi & Hs & Ha & Hm). cbn [ticked arp_table] in Hi. apply (list_lookup_fmap_Some aged) in Hi as (x & -> & Hi).
  exists i, x. split; [done|]. unfold aged in *. destruct (is_empty x) eqn:He; [done|]. by destruct (expired _).
Qed.

Lemma knows_updated hard s n a mac s' w a' mac' : updated hard s n a mac s' w -> knows s' a' mac' ->
  knows s a' mac' \/ a = a' /\ mac = mac'.
Proof.
  intros [(-> & _)|(_ & i & e & -> & _)] H; [by left|]. apply knows_set in H as [H|(_ & <- & <-)]; [by left|by right].
Qed.

Lemma knows_sent s n h d dst err s' w a mac : sends_packet s n h d dst err s' w -> knows s' a mac -> knows s a mac.
Proof.
  assert (forall b, handled s n b d err s' w -> knows s' a mac -> knows s a mac) as Hh.
  { intros b [(_ & -> & _)|[(i & e & _ & _ & _ & [-> | ->] & _)|(_ & i & e & q & _ & _ & _ & -> & _)]] H; try done.
    apply knows_set in H as [H|[H _]]; done. }
  intros [(_ & _ & -> & _)|[_ H]]; [done|]. destruct (group_addr n dst); [by destruct H as [-> _]|].
  destruct (next_hop n dst) as [b|]; [by apply (Hh b)|by destruct H as (_ & -> & _)].
Qed.

(** ** One event *)

Section events.
Context {F : Sig} {X : Type} (N : env F X).

Lemma wp_probe {B} s n a m (f : Z * option (list pbuf) * arp_state -> prog (arp F) B) Q st :
  arp_inv s m st -> length (hwaddr n) = 6%nat ->
  (forall err s' w, table_ok s' -> (forall a mac, knows s' a mac -> knows s a mac) ->
     wp (lan_env N) (f (err, None, s')) Q (Lan (holding (queued (arp_table s')) m) (frames st ++ w) (upper st))) ->
  wp (lan_env N) (bind (etharp_query s n a None) f) Q st.
Proof.
  intros [Hok Hm] Hn H. unfold etharp_query. destruct (_ || ip_addr_isany a).
  { specialize (H ERR_ARG s [] Hok ltac:(done)). rewrite app_nil_r, <- Hm in H. by destruct st. }
  assert (forall s1 s2 i e st1, arp_table s1 !! i = Some e ->
    s2 = set_entry s1 (Z.of_nat i) (if is_empty e then with_state e ETHARP_STATE_PENDING else e) ->
    table_ok s2 -> (forall a mac, knows s2 a mac -> knows s a mac) ->
    lmem st1 = holding (queued (arp_table s2)) m -> frames st1 = frames st -> upper st1 = upper st ->
    wp (lan_env N) (bind (query_entry s1 n a (Z.of_nat i) None) f) Q st1) as Hentry.
  { intros s1 s2 i e st1 Hi -> Hok2 Hk Hm2 Hfr Hup. unfold query_entry. rewrite (get_entry_eq s1 i e Hi). cbn [bind].
    rewrite orb_true_r. set (s2 := set_entry _ _ _) in *. step_in. apply wp_request; [done| |].
    - cbn [bind]. specialize (H ERR_MEM s2 [] Hok2 Hk). rewrite app_nil_r in H. destruct st1 as [lm fr up]. cbn in *. by subst.
    - intros err. cbn [bind]. rewrite Hm2, Hfr, Hup. by apply H. }
  step_in. apply (wp_find_hard N s a m); [done| |].
  - intros i e Hi Hf. cbv beta iota. rewrite (proj2 (Z.ltb_ge _ _)) by lia.
    assert (set_entry s (Z.of_nat i) (if is_empty e then with_state e ETHARP_STATE_PENDING else e) = s) as Hs.
    { unfold for_addr, active in Hf. destruct (is_empty e); [done|]. unfold set_entry. rewrite Nat2Z.id, list_insert_id by done. by destruct s. }
    apply (Hentry s s i e); try done.
  - intros i e Hli Hnone s'. cbv beta iota. rewrite (proj2 (Z.ltb_ge _ _)) by lia.
    pose proof (none_only _ _ _ _ Hnone (proj1 Hli)) as Hone. change (if is_empty (fresh a e) then _ else _) with (pending_entry (fresh a e) None).
    eapply (Hentry s' (set_entry s (Z.of_nat i) (pending_entry (fresh a e) None)) i (fresh a e)).
    + unfold s', set_entry. cbn [arp_table]. rewrite Nat2Z.id. apply list_lookup_insert_eq, Hone.
    + unfold s'. by rewrite set_set.
    + by apply (pending_ok s i (fresh a e) None a).
    + intros b mac Hk. apply knows_set in Hk as [Hk|[Hk _]]; done.
    + cbn [lmem]. unfold s', set_entry. cbn [arp_table]. rewrite Nat2Z.id.
      rewrite <- (list_insert_insert_eq (arp_table s) i (pending_entry (fresh a e) None) (fresh a e)).
      rewrite (queued_same (<[i := fresh a e]> (arp_table s)) i (fresh a e) (pending_entry (fresh a e) None)); [done|apply list_lookup_insert_eq, Hone|done].
    + done.
    + done.
Qed.

Lemma wp_event {B} e s m (f : arp_state -> prog (arp F) B) Q st :
  event_ok e -> arp_inv s (holding (event_packet e) m) st ->
  (forall s' w, table_ok s' -> (forall a mac, knows s' a mac -> knows s a mac \/ announces e a mac) ->
     wp (lan_env N) (f s') Q (Lan (holding (queued (arp_table s')) m) (frames st ++ w) (upper st))) ->
  wp (lan_env N) (bind (event_code e s) f) Q st.
Proof.
  intros He Hinv H. destruct e as [|n q dst|n a|n p]; cbn [event_code event_packet event_ok] in *.
  - apply (wp_tmr N s m); [done|]. specialize (H (ticked s) [] (ticked_ok s (proj1 Hinv))). rewrite app_nil_r in H. apply H.
    intros a mac Hk. left. by apply knows_ticked.
  - destruct He as (Hne & Hpk & Hun & Hfull & Hlen & Hn). destruct q as [|h ps]; [done|]. pose proof Hpk as [[[Ht _] _] _].
    step_in. apply (wp_output N s n h ps dst (holding (h :: ps) m)); try done; [lia|]. intros err q' s' w Ho Hs Hok'. step_in.
    apply (wp_arp_free N q' (holding (queued (arp_table s')) m)); [by eapply unshared_owner| |].
    + cbn [lmem]. by rewrite (holding_swap (queued _)), (holding_owner _ _ _ Ho).
    + cbn [bind]. apply H; [done|]. intros a mac Hk. left. by eapply knows_sent.
  - step_in. apply (wp_probe s n a m); [done|done|]. intros err s' w Hok' Hk. cbn [bind]. apply H; [done|]. intros b mac Hb. left. by apply Hk.
  - destruct He as (Hne & Hpk & Hun & Hn). destruct p as [|p ps]; [done|]. apply (wp_arp_input N s n p ps m); try done.
    + intros _. specialize (H s [] (proj1 Hinv)). rewrite app_nil_r in H. apply H. by left.
    + intros _ _ s' w v Hup Hok' _. apply H; [done|]. intros a mac Hk. destruct (knows_updated _ _ _ _ _ _ _ _ _ Hup Hk) as [Hk'|[Ha Hmac]]; [by left|].
      right. by exists n, p, ps.
Qed.
End events.

(** ** Packets that cannot be queued

    A packet that ends in an empty pbuf: the copy is full while there is one more
    pbuf to copy, and [pbuf_copy] goes on with a null pointer. *)
Lemma empty_tail_not_copied {F X} (N : env F X) st :
  let q := [Pbuf PBUF_RAM [] (replicate 42 0) 42 1; Pbuf PBUF_POOL [] [] 0 1] in
  exists st', may (lan_env N) (take_over q) st (Stop Undefined) st'.
Proof.
  exists (Lan (take_block PBUF_RAM (lmem st)) (frames st) (upper st)), (Some (replicate 44 0)), (Lan (take_block PBUF_RAM (lmem st)) (frames st) (upper st)).
  split; [|by vm_compute]. split; [|done]. right. by exists (replicate 44 0).
Qed.

(** A packet that starts in read-only memory and goes on elsewhere: the copy is
    as long as the packet from there on only, and [pbuf_copy] never returns.
    ([etharp_output] takes no packet that starts in read-only memory.) *)
Lemma rom_head_not_copied {F X} (N : env F X) st :
  let q := [Pbuf PBUF_ROM [] (replicate 42 0) 44 1; Pbuf PBUF_RAM [] [1; 2] 2 1] in
  exists st', may (lan_env N) (take_over q) st (Stop Hang) st'.
Proof.
  exists (Lan (take_block PBUF_RAM (lmem st)) (frames st) (upper st)), (Some (replicate 4 0)), (Lan (take_block PBUF_RAM (lmem st)) (frames st) (upper st)).
  split; [|by vm_compute]. split; [|done]. right. by exists (replicate 4 0).
Qed.

(** ** The claim *)

(** C8: The ARP table stays consistent, whatever happens and in whatever order:
    packets sent, messages received with any content, queries and ticks, with
    memory granted or refused.  The packets are not shared, and what is sent has
    no empty pbuf and fits a block of the heap with its Ethernet header
    ([empty_tail_not_copied]: a packet with an empty last pbuf is not queued but
    makes [pbuf_copy] follow a null pointer).  Then no operation fails or stops;
    at any time an address has at most one entry, packets wait only on entries
    that wait for a reply, ages are within their bounds; all memory that is taken
    belongs to the waiting packets; and what the table holds for an address was
    there before or was announced by a message. *)
Theorem arp_table_kept {F X} (N : env F X) es s m st :
  Forall event_ok es -> table_ok s ->
  lmem st = holding (queued (arp_table s)) (holding (concat (map event_packet es)) m) ->
  wp (lan_env N) (arp_history es s) (fun o st' => exists s', o = Done s' /\ table_ok s' /\
    lmem st' = holding (queued (arp_table s')) m /\ upper st' = upper st /\
    forall a mac, knows s' a mac -> knows s a mac \/ exists e, In e es /\ announces e a mac) st.
Proof.
  revert s st. induction es as [|e es IH]; intros s st Hes Hok Hm; cbn [arp_history].
  { exists s. do 4 (split; [done|]). intros a mac Hk. by left. }
  apply list.Forall_cons in Hes as [He Hes]. cbn [map concat] in Hm. rewrite holding_app in Hm.
  apply (wp_event N e s (holding (concat (map event_packet es)) m)); [done|by split|].
  intros s' w Hok' Hk. eapply wp_mono; [by apply IH|]. intros o st' (s2 & -> & Hok2 & Hm2 & Hu & Hk2).
  exists s2. split; [done|]. split; [done|]. split; [done|]. split; [done|]. intros a mac Ha.
  destruct (Hk2 a mac Ha) as [Hs'|(x & Hx & Hann)]; [|right; exists x; split; [by right|done]].
  destruct (Hk a mac Hs') as [Hs|Hann]; [by left|right; exists e; split; [by left|done]].
Qed.

Definition sample_lan_netif : netif := Netif 1 0x0100a8c0 0x00ffffff (NETIF_FLAG_UP + NETIF_FLAG_BROADCAST + NETIF_FLAG_ETHARP) None 1500 0xfe00a8c0 [2; 0; 0; 0; 0; 1].
Definition sample_reply : list pbuf :=
  [Pbuf PBUF_POOL [] (reply_frame [2; 0; 0; 0; 0; 2] 0x0200a8c0 [2; 0; 0; 0; 0; 1] 0x0100a8c0) 42 1].

Lemma arp_table_kept_witness :
  let q := [Pbuf PBUF_RAM (replicate 16 0) [1; 2; 3] 3 1] in
  let es := [Output sample_lan_netif q 0x0200a8c0; Tick; Message sample_lan_netif sample_reply; Probe sample_lan_netif 0x0300a8c0] in
  wp (lan_env (recorder hw)) (arp_history es arp_start) (fun o st' => exists s', o = Done s' /\ table_ok s' /\
    lmem st' = holding (queued (arp_table s')) (Pools 3 0 0) /\ upper st' = [] /\
    forall a mac, knows s' a mac -> knows arp_start a mac \/ exists e, In e es /\ announces e a mac)
    (Lan (Pools 4 0 1) [] []).
Proof.
  intros q es. apply (arp_table_kept (recorder hw) es arp_start (Pools 3 0 0) (Lan (Pools 4 0 1) [] [])).
  - repeat (apply list.Forall_cons; split); [|done| |done|constructor].
    + split; [done|]. split; [by split; repeat constructor|]. split; [by repeat constructor|]. split; [by repeat constructor|]. by vm_compute.
    + split; [done|]. split; [by split; repeat constructor|]. split; [by repeat constructor|]. by vm_compute.
  - exact start_ok.
  - by vm_compute.
Defined.
