(* ===== verification/LwipLan.v ===== *)
(** * The network stack on Ethernet

    ip.c, icmp.c and udp.c (LwipStack.v) linked to etharp.c (LwipArp.v): frames
    of the controller go up to the applications' callbacks, and what the
    applications send goes out as frames.  The output function of the interface
    is [etharp_output], and its frames come in through [ethernet_input]
    (ethernetif.c, tcpip.c).  Fragments stay calls. *)

From S2P Require Import Prelude Prog Pbuf PbufAlloc LwipUdp LwipIp LwipIcmp LwipStack LwipArp.

Section lan.
Context {F : Sig}.

(** The calls of IP that are left. *)
Inductive lanop :=
| LIpFrag (p : list pbuf) (n : netif) (dest : Z)
| LIpReass (p : list pbuf)
| LIpStat (s : ip_stat)
| LIcmpStat (s : icmp_stat)
| LAbove (e : op (above F)).

Definition lanop_ans (e : lanop) : Type :=
  match e with
  | LIpFrag _ _ _ => Z * list pbuf
  | LIpReass _ => option (list pbuf)
  | LAbove e => ans (above F) e
  | _ => unit
  end.

Definition over : Sig := {| op := lanop; ans := lanop_ans |}.
Definition lcall (e : lanop) : prog (arp over) (lanop_ans e) := @acall over (@Over over e).

(** The calls of ip.c. *)
Definition arp_code (e : op (inet (above F))) (s : arp_state) : prog (arp over) (ans (inet (above F)) e * arp_state) :=
  match e as e return prog (arp over) (inet_ans e * arp_state) with
  | InHeap e => let! x := acall (ArpHeap e) in Ret (x, s)
  | NetifOutput n p dest => let! (err, q, s) := etharp_output s n p dest in Ret ((err, q), s)
  | IpFrag p n dest => let! x := lcall (LIpFrag p n dest) in Ret (x, s)
  | IpReass p => let! x := lcall (LIpReass p) in Ret (x, s)
  | IpStat t => let! x := lcall (LIpStat t) in Ret (x, s)
  | IcmpStat t => let! x := lcall (LIcmpStat t) in Ret (x, s)
  | Above e => let! x := lcall (LAbove e) in Ret (x, s)
  end.

Definition on_lan {A} (p : prog (inet (above F)) A) (s : arp_state) : prog (arp over) (A * arp_state) :=
  @interp_st (inet (above F)) (arp over) arp_state arp_code A p s.

Context (odd : list pbuf -> nat -> bool).
Context (callback : Z -> Z -> Z -> list pbuf -> Z -> Z -> udp_state -> prog (unet F) udp_state).

Definition lan_ip_input (p : list pbuf) (inp : netif) (s : arp_state * stack) : prog (arp over) (Z * (arp_state * stack)) :=
  let! (r, a) := on_lan (stack_input odd callback p inp s.2) s.1 in
  Ret (r.1, (a, r.2)).

(** A frame from the controller. *)
Definition lan_input (p : list pbuf) (inp : netif) (s : arp_state * stack) : prog (arp over) (Z * (arp_state * stack)) :=
  ethernet_input lan_ip_input p inp s.

(** An application's [udp_sendto_if]. *)
Definition lan_sendto_if (s : arp_state * stack) (pcb : Z) (p : list pbuf) (dst_ip dst_port : Z) (n : netif)
    : prog (arp over) (Z * list pbuf * (arp_state * stack)) :=
  let! (r, a) := on_lan (stack_sendto_if odd s.2 pcb p dst_ip dst_port n) s.1 in
  let '(err, p, k) := r in Ret (err, p, (a, k)).
End lan.
Arguments lanop : clear implicits.
Arguments over : clear implicits.
