(* ===== verification/LwipLanSpec.v ===== *)
(** * Hosts on an Ethernet

    LwipLan.v from the application to the frames on the wire and back: an
    address is asked for and answered, the datagram that has waited goes out,
    and the other host's application gets it. *)

From stdpp Require Import fin_maps gmap.
From S2P Require Import Prelude Prog Pbuf PbufSpec PbufAlloc PbufAllocSpec Chksum ChksumSpec FpgaTwi UdpServer LwipUdp LwipUdpSpec LwipIp LwipIcmp LwipStack LwipIpSpec LwipStackSpec LwipArp LwipArpSpec LwipArpHistory LwipLan.

(** ** Programs linked to the code of their calls

    What the code of the calls may do is what they may answer. *)
Section linking.
Context {E F : Sig} {S T : Type} (h : forall e : op E, S -> prog F (ans E e * S)) (N : env F T).

Definition linked_env : env E (S * T) := {|
  req e x := wp N (h e x.1) (fun o _ => exists a, o = Done a) x.2;
  step e x a x' := may N (h e x.1) x.2 (Done (a, x'.1)) x'.2
|}.

Lemma wp_of_may {A} (p : prog F A) Q t : wp N p (fun o _ => exists a, o = Done a) t ->
  (forall a t', may N p t (Done a) t' -> Q (Done a) t') -> wp N p Q t.
Proof.
  revert t. induction p as [a|x|e k IH]; intros t Hp HQ; simpl in *.
  - by apply HQ.
  - by destruct Hp.
  - destruct Hp as [Hr Hk]. split; [done|]. intros x t' Hs. apply IH; [by apply Hk|]. intros a t2 Hm. apply HQ. by exists x, t'.
Qed.

Lemma linked_down {A} (p : prog E A) Q s t : wp linked_env p Q (s, t) ->
  wp N (interp_st h p s) (fun o t' => match o with Done (a, s') => Q (Done a) (s', t') | Stop x => exists s', Q (Stop x) (s', t') end) t.
Proof.
  revert s t. induction p as [a|x|e k IH]; intros s t Hp; cbn [interp_st wp] in *; [done|by exists s|].
  destruct Hp as [Hr Hk]. apply wp_bind, wp_of_may; [exact Hr|]. intros [x s'] t' Hm. apply IH. apply (Hk x (s', t')). exact Hm.
Qed.

Lemma linked_up {A} (p : prog E A) Q s t :
  wp N (interp_st h p s) (fun o t' => match o with Done (a, s') => Q (Done a) (s', t') | Stop _ => False end) t ->
  wp linked_env p Q (s, t).
Proof.
  revert s t. induction p as [a|x|e k IH]; intros s t Hp; cbn [interp_st wp] in *; [done|done|].
  apply wp_bind in Hp. split.
  - eapply wp_mono; [exact Hp|]. intros [a|x] t'; [by exists a|done].
  - intros x [s' t'] Hm. apply IH. exact (wp_may _ _ _ _ _ _ Hp Hm).
Qed.
End linking.

(** ** The environment of a host *)

Section hosts.
Context {F : Sig} {X : Type} (N : env F X).

(** The packets of this host fit the frames, and nobody sends it fragments. *)
Definition over_req (e : op (@over F)) (x : X) : Prop :=
  match e : lanop F with
  | LAbove e => req (above_env N) e x
  | LIpFrag _ _ _ | LIpReass _ => False
  | _ => True
  end.

Definition over_step (e : op (@over F)) (x : X) : ans (@over F) e -> X -> Prop :=
  match e as e return lanop_ans e -> X -> Prop with
  | LAbove e => step (above_env N) e x
  | _ => fun _ x' => x' = x
  end.

Definition over_env : env (@over F) X := {| req := over_req; step := over_step |}.
Definition host_lan : env (arp (@over F)) (lan X) := lan_env over_env.

(** The host as IP has it: the table and what is below and above. *)
Definition ip_view : env (inet (above F)) (arp_state * lan X) := linked_env arp_code host_lan.

#[export] Instance lan_site : Site_env ip_view.
Proof.
  refine (Build_Site_env _ _ _ (fun x => lmem x.2) (fun m x => (x.1, Lan m (frames x.2) (upper x.2))) _ _ _ _ _ _ _).
  - by intros [? []].
  - done.
  - done.
  - intros e [a st] Hm. split; [exact Hm|]. intros x st' _. by eexists.
  - intros e [a [m w u]] x [a' [m' w' u']] (y & st & (Hs & Hw & Hu) & [= <- <-] & <-). cbn in *. by subst.
  - intros e [a st] He. destruct e; try done; (split; [done|]; intros x st' _; by eexists).
  - intros e [a [m w u]] x [a' [m' w' u']] He Hx. destruct e; try done;
      destruct Hx as (y & st & (Hs & Hm & Hw) & Hd & Ht); injection Hd as _ ->; cbn in *; by subst.
Defined.

#[export] Instance lan_stack : Stack_env ip_view.
Proof.
  split.
  - intros e [a st] He. destruct e; try done; (split; [done|]; intros x st' _; by eexists).
  - intros t [a [m w u]] x [a' [m' w' u']] (y & st & (Hs & Hm & Hw) & [= <- <-] & <-). cbn in *. by subst.
  - intros p inp b [a [m w u]] r [a' [m' w' u']] (y & st & (Hs & Hm & Hw) & [= <- <-] & <-).
    cbn in *. destruct Hs as [-> ->]. by subst.
Defined.
End hosts.

(** ** A frame with a datagram *)

Definition etharp_netif (n : netif) : Prop := Z.land (netif_flags n) NETIF_FLAG_ETHARP <> 0 /\ length (hwaddr n) = 6%nat.

(** Who listens at [dst] and [dport] on a host with that address gets the data
    of the [frame], from [src] and [sport], in whatever pbufs it comes if its
    headers are in the first one, and whatever padding follows it: [lan_input]
    does what the callback does with the packet. *)
Definition delivered_by {F X} (N : env F X) odd callback (frame : list Z) (src sport dst dport : Z) (data : list Z) : Prop :=
  forall (a : arp_state) (s : stack) p ps pad inp n pcb c g m Q st,
    packet (p :: ps) -> unshared (p :: ps) -> flat (p :: ps) = frame ++ pad -> (42 <= length (payload p))%nat ->
    etharp_netif inp -> find_netif s.1 inp dst = Some n -> valid_source inp src -> ip4_addr_isbroadcast dst inp = false ->
    ports_ok s.2 -> listens s.2 pcb c dst sport dport -> recv c = Some g -> lmem st = holding (p :: ps) m ->
    (forall q i, packet q -> unshared q -> flat q = data -> receiving_from s.1 i inp src dst ->
       wp (host_lan N) (on_lan (linked odd (callback g (recv_arg c) pcb q src sport s.2) i) a)
         (fun o st' => match o with Done ((u, i), a) => Q (a, (idle i, u)) st' | Stop _ => False end)
         (Lan (holding q m) (frames st) (upper st))) ->
    wp (host_lan N) (lan_input odd callback (p :: ps) inp (a, s))
      (fun o st' => exists s', o = Done (ERR_OK, s') /\ Q s' st') st.

(** The type of a frame, as it is read. *)
Lemma frame_type dmac smac type d pad (p : pbuf) ps : length dmac = 6%nat -> length smac = 6%nat ->
  flat (p :: ps) = eth_frame dmac smac type d ++ pad -> (14 <= length (payload p))%nat -> le_val (field 12 2 (payload p)) = le_val (be16 type).
Proof.
  intros Hd Hs Hf Hl. assert (take 14 (payload p) = take 14 (eth_frame dmac smac type d ++ pad)) as Ht by (rewrite <- Hf; by apply take_flat).
  unfold field. assert (take 2 (drop 12 (payload p)) = drop 12 (take 14 (payload p))) as -> by apply take_drop_commute. rewrite Ht.
  unfold eth_frame. split_address dmac. split_address smac. reflexivity.
Qed.

Lemma wp_ip_frame {F X U} (N : env F X) (ip_input : list pbuf -> netif -> arp_state * U -> prog (arp F) (Z * (arp_state * U)))
    dmac smac d pad p ps inp s m Q st :
  length dmac = 6%nat -> length smac = 6%nat -> etharp_netif inp ->
  packet (p :: ps) -> flat (p :: ps) = eth_frame dmac smac ETHTYPE_IP d ++ pad -> (15 <= length (payload p))%nat ->
  lmem st = holding (p :: ps) m ->
  (forall q, packet (q :: ps) -> same_owner p q -> flat (q :: ps) = d ++ pad -> payload q = drop 14 (payload p) ->
     wp (lan_env N) (let! (_, s) := ip_input (q :: ps) inp s in Ret (ERR_OK, s)) Q (Lan (holding (q :: ps) m) (frames st) (upper st))) ->
  wp (lan_env N) (ethernet_input ip_input (p :: ps) inp s) Q st.
Proof.
  intros Hd Hs [Hfl _] Hpk Hf Hl Hm H. unfold ethernet_input, len. change SIZEOF_ETH_HDR with 14.
  rewrite (proj2 (Z.leb_gt _ _)) by lia. rewrite (read_at p 12 2) by lia. cbn [bind].
  rewrite (frame_type dmac smac ETHTYPE_IP d pad p ps) by (done || lia).
  change (le_val (be16 ETHTYPE_IP) =? PP_HTONS ETHTYPE_IP) with true. cbv iota. rewrite (proj2 (Z.eqb_neq _ _)) by done.
  destruct (header_strip p ps 14 Hpk) as (q & Hq & (Hqp & Hqh & Hqt & Hqr & _) & Hqpk); [lia|].
  change (Z.opp 14) with (- Z.of_nat 14). rewrite Hq. cbn [of_outcome bind]. change (negb (0 =? 0)) with false. cbv iota.
  specialize (H q Hqpk (conj Hqt Hqr)). rewrite holding_cons, Hqt, <- holding_cons, <- Hm in H. destruct st as [lm fr up]. apply H; [|done].
  rewrite flat_cons, Hqp, drop_flat, Hf by lia. unfold eth_frame. split_address dmac. split_address smac. reflexivity.
Qed.

Lemma frame_delivered {F X} (N : env F X) odd callback dmac smac pkt src sport dst dport data :
  length dmac = 6%nat -> length smac = 6%nat ->
  received_as (ip_view N) odd callback pkt src sport dst dport data ->
  delivered_by N odd callback (eth_frame dmac smac ETHTYPE_IP pkt) src sport dst dport data.
Proof.
  intros Hdm Hsm Hrec a s p ps pad inp n pcb c g m Q st Hpk Hun Hf Hl Hinp Hn Hsrc Hb Hok Hlis Hg Hm Hcb.
  apply (wp_ip_frame (over_env N) _ dmac smac pkt pad p ps inp (a, s) m); try done; [lia|].
  intros q Hqpk [Hqt Hqr] Hqf Hqp. unfold lan_ip_input. cbn [fst snd]. step_in. apply wp_bind.
  assert (unshared (q :: ps)) as Hqu by (apply list.Forall_cons in Hun as [? ?]; apply list.Forall_cons; by rewrite Hqr).
  eapply wp_mono.
  - apply (linked_down arp_code (host_lan N) _
      (fun o x => match o with Done (err, k) => err = ERR_OK /\ Q (x.1, k) x.2 | Stop _ => False end) a).
    apply (Hrec s q ps pad inp n pcb c g m); try done; [rewrite Hqp, length_drop; lia|].
    intros r i Hrpk Hru Hrf Hri. apply linked_up. eapply wp_mono; [by apply (Hcb r i)|].
    intros [[[u i'] a']|h] st'; done.
  - intros [[[err k] a']|h] st'; cbn [andthen bind wp fst snd]; [|by intros [? []]]. intros [-> HQ]. by eexists.
Qed.

(** ** A frame with an ARP message *)

Definition arp_frame (dmac smac : list Z) (op : Z) (shw : list Z) (sip : Z) (dhw : list Z) (dip : Z) : list Z :=
  eth_frame dmac smac ETHTYPE_ARP (arp_packet op shw sip dhw dip).

Record addresses_ok (dmac smac shw : list Z) (sip : Z) (dhw : list Z) (dip : Z) : Prop := {
  dmac_ok : length dmac = 6%nat; smac_ok : length smac = 6%nat; shw_ok : length shw = 6%nat; dhw_ok : length dhw = 6%nat;
  sip_ok : is_u32 sip; dip_ok : is_u32 dip
}.

Lemma message_fields dmac smac op shw sip dhw dip r : addresses_ok dmac smac shw sip dhw dip ->
  let d := arp_frame dmac smac op shw sip dhw dip ++ r in
  malformed d = false /\ sender_ip d = sip /\ sender_hw d = shw /\ target_ip d = dip /\ field 20 2 d = be16 op.
Proof.
  intros [Hd Hs Hsh Hdh Hsip Hdip]. unfold arp_frame, eth_frame, arp_packet, sender_ip, target_ip.
  split_address dmac. split_address smac. split_address dhw. split_address shw.
  split; [reflexivity|]. split; [exact (le_val_bytes4 sip Hsip)|]. split; [reflexivity|].
  split; [exact (le_val_bytes4 dip Hdip)|reflexivity].
Qed.

Lemma message_reply n dmac smac op shw sip dhw dip r : addresses_ok dmac smac shw sip dhw dip -> length (hwaddr n) = 6%nat ->
  reply_to n (arp_frame dmac smac op shw sip dhw dip ++ r) = reply_frame (hwaddr n) (ip_addr n) shw sip ++ r.
Proof.
  intros Hok Hn. destruct (message_fields dmac smac op shw sip dhw dip r Hok) as (_ & Hsi & Hsw & _). destruct Hok as [Hd Hs Hsh Hdh _ _].
  unfold reply_to, reply_frame. rewrite Hsi, Hsw. set (hw := hwaddr n) in *. clearbody hw. clear Hsi Hsw.
  unfold arp_frame, eth_frame, arp_packet. split_address dmac. split_address smac. split_address dhw. split_address shw. split_address hw. reflexivity.
Qed.

Lemma arp_frame_length dmac smac op shw sip dhw dip : addresses_ok dmac smac shw sip dhw dip ->
  length (arp_frame dmac smac op shw sip dhw dip) = 42%nat.
Proof. intros []. unfold arp_frame, eth_frame, arp_packet. rewrite !length_app. cbn [length be16 le_bytes4]. lia. Qed.

Lemma message_first dmac smac op shw sip dhw dip p ps pad : addresses_ok dmac smac shw sip dhw dip ->
  flat (p :: ps) = arp_frame dmac smac op shw sip dhw dip ++ pad ->
  (42 <= length (payload p))%nat -> exists r, payload p = arp_frame dmac smac op shw sip dhw dip ++ r /\ pad = r ++ flat ps.
Proof.
  intros Hok Hf Hl. pose proof (arp_frame_length dmac smac op shw sip dhw dip Hok) as Hb. set (b := arp_frame _ _ _ _ _ _ _) in *. clearbody b.
  exists (drop 42 (payload p)). assert (take 42 (payload p) = b) as Ht.
  { transitivity (take 42 (b ++ pad)); [rewrite <- Hf; by apply take_flat|]. by rewrite <- Hb, take_app_length. }
  split; [by rewrite <- Ht, take_drop|]. rewrite drop_flat, Hf by done. by rewrite <- Hb, drop_app_length.
Qed.

(** A well-formed message that comes in as a frame: its sender is learned, who
    asks for us is answered, and a reply is shown to the DHCP client. *)
Lemma wp_arp_frame {F X U} (N : env F X) (ip_input : list pbuf -> netif -> arp_state * U -> prog (arp F) (Z * (arp_state * U)))
    dmac smac op shw sip dhw dip pad p ps n (s : arp_state * U) m Q st :
  addresses_ok dmac smac shw sip dhw dip -> etharp_netif n -> packet (p :: ps) -> unshared (p :: ps) ->
  flat (p :: ps) = arp_frame dmac smac op shw sip dhw dip ++ pad -> (42 <= length (payload p))%nat ->
  table_ok s.1 -> lmem st = holding (p :: ps) (holding (queued (arp_table s.1)) m) ->
  let us := if ip_addr_isany (ip_addr n) then false else ip_addr_cmp dip (ip_addr n) in
  (forall a w v, updated us s.1 n sip shw a w -> table_ok a ->
     ((le_val (be16 op) =? PP_HTONS ARP_REPLY) && checking n sip = false -> v = []) ->
     Q (Done (ERR_OK, (a, s.2)))
       (Lan (holding (queued (arp_table a)) m)
          (frames st ++ w ++ (if (le_val (be16 op) =? PP_HTONS ARP_REQUEST) && us then [(n, reply_frame (hwaddr n) (ip_addr n) shw sip ++ pad)] else []) ++ v)
          (upper st))) ->
  wp (lan_env N) (ethernet_input ip_input (p :: ps) n s) Q st.
Proof.
  intros Hok [Hfl Hhw] Hpk Hun Hf Hl Htab Hm us HQ. pose proof Hok as [Hd Hs _ _ _ _].
  unfold ethernet_input, len. change SIZEOF_ETH_HDR with 14. rewrite (proj2 (Z.leb_gt _ _)) by lia. rewrite (read_at p 12 2) by lia. cbn [bind].
  rewrite (frame_type dmac smac ETHTYPE_ARP (arp_packet op shw sip dhw dip) pad p ps) by (done || lia).
  change (le_val (be16 ETHTYPE_ARP) =? PP_HTONS ETHTYPE_IP) with false. change (le_val (be16 ETHTYPE_ARP) =? PP_HTONS ETHTYPE_ARP) with true.
  cbv iota. rewrite (proj2 (Z.eqb_neq _ _)) by done.
  destruct (message_first dmac smac op shw sip dhw dip p ps pad Hok Hf Hl) as (r & Hp & Hpad).
  destruct (message_fields dmac smac op shw sip dhw dip r Hok) as (Hmal & Hsi & Hsw & Hti & Hop). rewrite <- Hp in Hmal, Hsi, Hsw, Hti, Hop.
  apply (wp_arp_input N s.1 n p ps m); try done.
  - split; [done|]. by rewrite Hm, holding_swap.
  - intros [Hx|Hx]; [lia|congruence].
  - intros _ _ a w v Hup Hta Hv. cbn [bind wp]. unfold for_us, is_request, is_reply in *. rewrite Hti, Hsi, Hsw, Hop in *. fold us in Hup |- *.
    specialize (HQ a w v Hup Hta Hv). rewrite Hp, (message_reply n dmac smac op shw sip dhw dip r Hok Hhw), <- app_assoc, <- Hpad. exact HQ.
Qed.

(** ** Asking and answering *)

(** C7: Who has this address?  A request for the address of the interface, by a
    host on its network, in whatever pbufs it comes and with whatever padding, is
    answered with one frame: the reply of RFC 826, to the sender's address, from
    the address of the interface.  The sender is learned, packets that have waited
    for it go out before the reply, the memory of the request is given back, and
    IP is not called. *)
Theorem request_answered {F X U} (N : env F X) (ip_input : list pbuf -> netif -> arp_state * U -> prog (arp F) (Z * (arp_state * U)))
    asker n p ps pad s m st :
  etharp_netif n -> length (hwaddr asker) = 6%nat -> is_u32 (ip_addr asker) -> is_u32 (ip_addr n) -> ip_addr n <> IPADDR_ANY ->
  unicast (ip_addr asker) n -> packet (p :: ps) -> unshared (p :: ps) -> (42 <= length (payload p))%nat ->
  flat (p :: ps) = request_frame asker (ip_addr n) ++ pad ->
  table_ok s.1 -> lmem st = holding (p :: ps) (holding (queued (arp_table s.1)) m) ->
  wp (lan_env N) (ethernet_input ip_input (p :: ps) n s)
    (fun o st' => exists a w, o = Done (ERR_OK, (a, s.2)) /\ table_ok a /\ knows a (ip_addr asker) (hwaddr asker) /\
       st' = Lan (holding (queued (arp_table a)) m)
         (frames st ++ w ++ [(n, reply_frame (hwaddr n) (ip_addr n) (hwaddr asker) (ip_addr asker) ++ pad)]) (upper st) /\
       (w = [] \/ exists i e, arp_table s.1 !! i = Some e /\ for_addr (ip_addr asker) e = true /\ w = waited n (hwaddr asker) e)) st.
Proof.
  intros Hn Hha Hia Hin Hany Huni Hpk Hun Hl Hf Htab Hm.
  apply (wp_arp_frame N ip_input ethbroadcast (hwaddr asker) ARP_REQUEST (hwaddr asker) (ip_addr asker) ethzero (ip_addr n) pad p ps n s m); try done.
  cbv zeta. unfold ip_addr_isany, ip_addr_cmp. rewrite (proj2 (Z.eqb_neq _ _) Hany), Z.eqb_refl. intros a w v Hup Hta Hv. rewrite (Hv eq_refl), app_nil_r.
  exists a, w. split; [done|]. split; [done|].
  destruct Hup as [(_ & _ & Hno)|(_ & i & e & -> & [Hi _] & Hcase)]; [by destruct (Hno Huni)|]. split; [|split; [done|]].
  - exists i, (stable_entry (ip_addr asker) (hwaddr asker)). split; [|done]. unfold learn, set_entry. cbn [arp_table]. rewrite Nat2Z.id.
    by apply list_lookup_insert_eq.
  - destruct Hcase as [(Hi' & He & ->)|(_ & _ & _ & ->)]; [right; by exists i, e|by left].
Qed.

(** ** The first datagram for an address *)

(** A packet goes out once a reply says where [hop] is, at once or a tick later.
    Behind it there are only messages of a DHCP client that has been offered that
    very address. *)
Definition goes_out_on_reply {F X} (N : env F X) (n : netif) (a : arp_state) (hop : Z) (pkt : list Z) : Prop :=
  forall U ip_input (u : U) mac p ps pad a1 m st, a1 = a \/ a1 = ticked a -> length mac = 6%nat ->
    packet (p :: ps) -> unshared (p :: ps) -> (42 <= length (payload p))%nat ->
    flat (p :: ps) = reply_frame mac hop (hwaddr n) (ip_addr n) ++ pad ->
    lmem st = holding (p :: ps) (holding (queued (arp_table a1)) m) ->
    wp (lan_env N) (ethernet_input ip_input (p :: ps) n (a1, u))
      (fun o st' => exists a2 v, o = Done (ERR_OK, (a2, u)) /\ table_ok a2 /\ knows a2 hop mac /\
         (checking n hop = false -> v = []) /\
         st' = Lan (holding (queued (arp_table a2)) m) (frames st ++ [(n, eth_frame mac (hwaddr n) ETHTYPE_IP pkt)] ++ v) (upper st)) st.

Lemma reply_releases {F X U} (N : env F X) ip_input (u : U) n mac hop i e r p ps pad a m st :
  table_ok a -> arp_table a !! i = Some e -> for_addr hop e = true -> entry_q e = Some r -> unicast hop n ->
  etharp_netif n -> is_u32 hop -> is_u32 (ip_addr n) -> length mac = 6%nat ->
  packet (p :: ps) -> unshared (p :: ps) -> (42 <= length (payload p))%nat ->
  flat (p :: ps) = reply_frame mac hop (hwaddr n) (ip_addr n) ++ pad ->
  lmem st = holding (p :: ps) (holding (queued (arp_table a)) m) ->
  wp (lan_env N) (ethernet_input ip_input (p :: ps) n (a, u))
    (fun o st' => exists a2 v, o = Done (ERR_OK, (a2, u)) /\ table_ok a2 /\ knows a2 hop mac /\
       (checking n hop = false -> v = []) /\
       st' = Lan (holding (queued (arp_table a2)) m) (frames st ++ [(n, eth_frame mac (hwaddr n) ETHTYPE_IP (drop 14 (flat r)))] ++ v) (upper st)) st.
Proof.
  intros Hok Hi Hfor Hq Huni Hn Hhop Hip Hmac Hpk Hun Hl Hf Hm.
  apply (wp_arp_frame N ip_input (hwaddr n) mac ARP_REPLY mac hop (hwaddr n) (ip_addr n) pad p ps n (a, u) m); try done.
  { split; try done; apply Hn. }
  cbv zeta. intros a2 w v Hup Ha2 Hv. change (le_val (be16 ARP_REPLY) =? PP_HTONS ARP_REQUEST) with false. cbn [andb].
  rewrite app_nil_l. exists a2, v. split; [done|]. split; [done|].
  assert (~ none (for_addr hop) (arp_table a)) as Hnn by (intros Hno; rewrite (none_lookup _ _ _ _ Hno Hi) in Hfor; discriminate Hfor).
  destruct Hup as [(_ & _ & Hno)|(_ & j & e' & -> & [Hj Hone] & Hcase)]; [by destruct (Hno Huni)|].
  destruct Hcase as [(Hj' & He' & ->)|(_ & Hno & _)]; [|done].
  pose proof (Hone i e Hi Hfor) as ->. cbn [fst] in *. rewrite Hi in Hj'. injection Hj' as <-. split; [|split; [exact Hv|by unfold waited; rewrite Hq]].
  exists j, (stable_entry hop mac). split; [|done]. unfold learn, set_entry. cbn [arp_table fst]. rewrite Nat2Z.id. by apply list_lookup_insert_eq.
Qed.

Lemma queued_goes_out {F X} (N : env F X) n a hop i e r :
  table_ok a -> arp_table a !! i = Some e -> for_addr hop e = true -> is_pending e = true -> entry_ctime e = 0 -> entry_q e = Some r ->
  unicast hop n -> etharp_netif n -> is_u32 hop -> is_u32 (ip_addr n) ->
  goes_out_on_reply N n a hop (drop 14 (flat r)).
Proof.
  intros Hok Hi Hfor Hp Hc Hq Huni Hn Hhop Hip U ip_input u mac p ps pad a1 m st Ha1 Hmac Hpk Hun Hl Hf Hm.
  destruct Ha1 as [-> | ->]; [by apply (reply_releases N ip_input u n mac hop i e r p ps pad)|].
  apply (reply_releases N ip_input u n mac hop i (aged e) r p ps pad); try done; [by apply ticked_ok|by apply (list_lookup_fmap_Some_2 aged)| |];
    unfold aged, is_pending, is_empty in *; destruct (entry_state e) eqn:Hs; try done; unfold expired, is_pending;
    cbn [entry_ctime with_ctime entry_state]; rewrite Hs, Hc; done.
Qed.

(** A packet that IP gives to the interface goes through [etharp_output]. *)
Lemma wp_lan_transmit {F X A B} (N : env F X) (q : list pbuf) n dest a (k : Z * list pbuf -> prog (inet (above F)) A)
    (f : A * arp_state -> prog (arp (@over F)) B) Q st :
  mtu n = 0 \/ head_tot_len q <= mtu n ->
  wp (host_lan N) (let! (err, q, a) := etharp_output a n q dest in bind (on_lan (k (err, q)) a) f) Q st ->
  wp (host_lan N) (bind (on_lan (bind (transmit q n dest) k) a) f) Q st.
Proof.
  intros Hm H. unfold transmit, ip_count.
  assert (negb (mtu n =? 0) && (mtu n <? head_tot_len q) = false) as ->.
  { destruct Hm as [-> | Hm]; [done|]. apply andb_false_intro2. apply Z.ltb_ge. lia. }
  unfold on_lan, icall, trigger, lcall, acall, trigger in *. cbn [bind interp_st arp_code]. split; [done|]. intros [] st' [Hs1 [Hs2 Hs3]].
  cbn [bind interp_st arp_code]. assert (st' = st) as -> by (destruct st, st'; cbn in *; by subst).
  do 2 step_in. eapply peq_wp; [|exact H]. apply bind_proper; [reflexivity|]. by intros [[err q'] a'].
Qed.


(** ** Witnesses *)

Definition sample_asker : netif := Netif 1 0x0200a8c0 0x00ffffff (NETIF_FLAG_UP + NETIF_FLAG_BROADCAST + NETIF_FLAG_ETHARP) None 1500 0 [2; 0; 0; 0; 0; 2].
Definition no_ip (p : list pbuf) (n : netif) (s : arp_state * unit) : prog (arp hw) (Z * (arp_state * unit)) := Ret (ERR_OK, s).

Lemma sample_unicast : unicast 0x0200a8c0 sample_lan_netif.
Proof. by vm_compute. Qed.

Lemma request_answered_witness :
  let p := Pbuf PBUF_POOL [] (request_frame sample_asker 0x0100a8c0 ++ [0; 0]) 44 1 in
  wp (lan_env (recorder hw)) (ethernet_input no_ip [p] sample_lan_netif (arp_start, tt))
    (fun o st' => exists a w, o = Done (ERR_OK, (a, tt)) /\ table_ok a /\ knows a 0x0200a8c0 [2; 0; 0; 0; 0; 2] /\
       st' = Lan (holding (queued (arp_table a)) (Pools 3 0 0))
         ([] ++ w ++ [(sample_lan_netif, reply_frame [2; 0; 0; 0; 0; 1] 0x0100a8c0 [2; 0; 0; 0; 0; 2] 0x0200a8c0 ++ [0; 0])]) [] /\
       (w = [] \/ exists i e, arp_table arp_start !! i = Some e /\ for_addr 0x0200a8c0 e = true /\ w = waited sample_lan_netif [2; 0; 0; 0; 0; 2] e))
    (Lan (Pools 4 0 0) [] []).
Proof.
  intros p.
  apply (request_answered (recorder hw) no_ip sample_asker sample_lan_netif p [] [0; 0] (arp_start, tt) (Pools 3 0 0) (Lan (Pools 4 0 0) [] [])).
  - by split.
  - reflexivity.
  - unfold is_u32. cbn. lia.
  - unfold is_u32. cbn. lia.
  - done.
  - exact sample_unicast.
  - split; [repeat split; by vm_compute|]. apply list.Forall_cons. split; [cbn; lia|constructor].
  - apply list.Forall_cons. split; [done|constructor].
  - apply Nat.leb_le. by vm_compute.
  - by vm_compute.
  - exact start_ok.
  - by vm_compute.
Defined.

