(* ===== verification/UdpService.v ===== *)
(** * The register server on the stack

    BasicUDP.c (UdpServer.v) linked to udp.c (LwipUdp.v): the task opens the
    port, and a request that arrives is answered by a datagram to its sender. *)

From stdpp Require Import fin_maps gmap.
From S2P Require Import Prelude Prog Pbuf PbufSpec PbufAlloc Chksum ChksumSpec Twi TwiBus FpgaTwi UdpServer LwipUdp LwipUdpSpec LwipUdpPorts.

(** ** Linking *)

Section linking.
Context {F : Sig} {OF : Opb F} {LF : OpbLaws F}.

Inductive service_op :=
| SBelow (e : op F)
| SNew
| SBind (port : Z)
| SRecv
| SSend (payload : list Z)
| SFree
| SDelete.

Definition service_ans (e : service_op) : Type :=
  match e with
  | SBelow e => ans F e
  | SNew => bool
  | SBind _ | SSend _ => Z
  | _ => unit
  end.

Definition service : Sig := {| op := service_op; ans := service_ans |}.

Definition below {A} (p : prog F A) : prog service A := @embed F service SBelow (fun _ x => x) A p.

#[export] Instance service_opb : Opb service := {|
  opb_read_byte a := below (opb_read_byte a);
  opb_read_short a := below (opb_read_short a);
  opb_read_long a := below (opb_read_long a);
  opb_write_byte a d := below (opb_write_byte a d);
  opb_write_short a d := below (opb_write_short a d);
  opb_write_long a d := below (opb_write_long a d)
|}.

#[export] Instance service_opb_laws : OpbLaws service.
Proof.
  split; intros a; apply returns_embed; [apply opb_read_byte_stores|apply opb_read_short_stores|apply opb_read_long_stores].
Qed.

#[export] Instance service_udp : Udp service := {|
  UdpServer.udp_new := @trigger service SNew;
  UdpServer.udp_bind port := @trigger service (SBind port);
  UdpServer.udp_recv := @trigger service SRecv;
  UdpServer.udp_sendto p := @trigger service (SSend p);
  pbuf_free_packet := @trigger service SFree;
  vTaskDelete := @trigger service SDelete
|}.

(** What the handler and the task have in hand: the stack's state, the control
    block, the packet and its sender; [server] is the address of the handler. *)
Record hand := Hand { stack : udp_state; upcb : option Z; held : list pbuf; from_addr : Z; from_port : Z }.

Context (odd : list pbuf -> nat -> bool) (server garbage : Z).

Definition lower {A} (p : prog F A) : prog (unet F) A := @embed F (unet F) Lower (fun _ x => x) A p.

Definition with_stack (h : hand) (u : udp_state) : hand := Hand u (upcb h) (held h) (from_addr h) (from_port h).
Definition with_held (h : hand) (u : udp_state) (p : list pbuf) : hand := Hand u (upcb h) p (from_addr h) (from_port h).

(** The bytes that the handler has written are in the packet. *)
Definition written (p : list pbuf) (payload : list Z) : list pbuf :=
  match p with [] => [] | p :: ps => set_payload p (hidden p) payload (tot_len p) :: ps end.

Definition service_code (e : op service) (h : hand) : prog (unet F) (ans service e * hand) :=
  match e as e return prog (unet F) (service_ans e * hand) with
  | SBelow e => let! x := ucall (Lower e) in Ret (x, h)
  | SNew =>
    let! (pcb, u) := udp_new (stack h) in
    Ret (match pcb with Some _ => true | None => false end, Hand u pcb (held h) (from_addr h) (from_port h))
  | SBind port =>
    let! pcb := defined (upcb h) in
    let! (err, u) := udp_bind (stack h) pcb IPADDR_ANY port in Ret (err, with_stack h u)
  | SRecv =>
    let! pcb := defined (upcb h) in
    let! u := udp_recv (stack h) pcb (Some server) 0 in Ret (tt, with_stack h u)
  | SSend payload =>
    let! pcb := defined (upcb h) in
    let! (err, p, u) := udp_sendto odd (stack h) pcb (written (held h) payload) (from_addr h) (from_port h) in
    Ret (err, with_held h u p)
  | SFree => let! p := udp_pbuf_free (held h) in Ret (tt, with_held h (stack h) p)
  | SDelete => Ret (tt, h)
  end.

(** The handler as the callback of a control block. *)
Definition server_callback (f arg pcb : Z) (p : list pbuf) (addr port : Z) (u : udp_state) : prog (unet F) udp_state :=
  match p with
  | [] => Halt Undefined
  | p0 :: ps =>
    let! (_, h) := interp_st service_code
      (udp_server_callback garbage (match ps with [] => false | _ => true end) (payload p0))
      (Hand u (Some pcb) p addr port) in
    Ret (stack h)
  end.

(** The task from its first line on. *)
Definition server_task (u : udp_state) : prog (unet F) udp_state :=
  let! (_, h) := interp_st service_code vBasicUDPServer (Hand u None [] 0 0) in Ret (stack h).

(** ** The calls of the code over the stack *)

Lemma interp_below {A} (p : prog F A) h :
  interp_st service_code (below p) h ≈ (let! a := lower p in Ret (a, h)).
Proof.
  induction p as [a|x|e k IH]; [reflexivity|reflexivity|]. unfold below, lower in *. cbn [embed interp_st bind].
  unfold service_code at 1. unfold ucall. cbn [trigger bind]. exists eq_refl. intros x. apply IH.
Qed.

Lemma below_bind {A B} (p : prog F A) (k : A -> prog F B) : below (bind p k) ≈ bind (below p) (fun a => below (k a)).
Proof.
  unfold below. induction p as [a|x|e q IH]; [reflexivity|reflexivity|]. cbn [bind embed]. exists eq_refl. intros x. apply IH.
Qed.

(** The FPGA is accessed by the layer below. *)
Lemma execute_below g r : udp_execute (E := service) g r ≈ below (udp_execute (E := F) g r).
Proof.
  assert (forall {A B} (p : prog F A) (k : A -> prog service B) (k' : A -> prog F B),
    (forall a, k a ≈ below (k' a)) -> bind (below p) k ≈ below (bind p k')) as Hstep.
  { intros A B p k k' Hk. rewrite below_bind. apply bind_proper; [reflexivity|]. exact Hk. }
  destruct r as [a|a d rb|a|a d rb|]; cbn [udp_execute opb_read_short opb_read_long opb_write_short opb_write_long service_opb].
  - apply Hstep. intros [st dt]. reflexivity.
  - apply Hstep. intros st. destruct (negb (st =? 0)); [reflexivity|]. destruct rb; [|reflexivity].
    apply Hstep. intros [st' dt]. reflexivity.
  - apply Hstep. intros [st dt]. reflexivity.
  - apply Hstep. intros w. destruct (negb rb); [reflexivity|]. apply Hstep. intros [st dt]. reflexivity.
  - reflexivity.
Qed.

(** ** The answer *)

(** The pbuf of the request with the reply datagram in it. *)
Definition reply_packet (p : pbuf) (d : list Z) : pbuf :=
  {| pb_type := pb_type p; hidden := take (length (hidden p) - 8) (hidden p); payload := d;
     tot_len := tot_len p + 8; ref := ref p |}.

(** What answering the request [data] in the pbuf [p] is, for the control block [c]. *)
Definition answer (c : udp_pcb) (p : pbuf) (data : list Z) (addr port : Z) : prog (unet F) unit :=
  let! r := lower (udp_execute garbage (udp_decode data)) in
  let! n := ucall (IpRoute addr) in
  match n : option netif with
  | None =>
    stat StatRterr;;
    let! _ := udp_pbuf_free (written [p] (udp_reply data r)) in Ret tt
  | Some n =>
    let! (_, q) := ucall (IpOutputIf
      [reply_packet p (udp_datagram (ip_addr n) addr (local_port c) port (udp_reply data r))]
      (ip_addr n) addr (ttl c) (tos c) IP_PROTO_UDP n) in
    stat StatXmit;;
    let! _ := udp_pbuf_free q in Ret tt
  end.

Lemma reply_u8 data r : Forall is_u8 data -> Forall is_u8 (udp_reply data r).
Proof.
  intros H8. unfold udp_reply. destruct r as [st dt].
  repeat (apply Forall_app; split); try (by repeat first [apply Forall_take | apply Forall_drop]);
    try (apply list.Forall_cons; split; [apply u8_range|constructor]).
  destruct (is_v1 data); repeat (apply Forall_app; split); try (by repeat first [apply Forall_take | apply Forall_drop]);
    destruct dt; try (by repeat first [apply Forall_take | apply Forall_drop]);
    repeat (apply list.Forall_cons; split; [apply u8_range|]); constructor.
Qed.

Lemma reply_length data r : is_packet data = true -> length (udp_reply data r) = length data.
Proof.
  intros Hl%bool_decide_eq_true. unfold udp_reply. destruct r as [st dt]. unfold is_v1.
  destruct Hl as [Hl|Hl].
  - rewrite bool_decide_eq_true_2 by done. destruct dt; rewrite !length_app, ?length_take, ?length_drop; cbn [length]; lia.
  - rewrite bool_decide_eq_false_2 by lia. destruct dt; rewrite !length_app, ?length_take, ?length_drop; cbn [length be_bytes4]; lia.
Qed.
(** A step from a program to one that follows it. *)
Lemma wp_refine {E S A B B'} (N : env E S) (p : prog E A) (f : A -> prog E B) (f' : A -> prog E B')
    (Q : outcome B -> S -> Prop) (Q' : outcome B' -> S -> Prop) s :
  (forall a s, wp N (f a) Q s -> wp N (f' a) Q' s) -> (forall x s, Q (Stop x) s -> Q' (Stop x) s) ->
  wp N (bind p f) Q s -> wp N (bind p f') Q' s.
Proof.
  intros Hf Hx Hp. apply wp_bind. apply wp_bind in Hp. eapply wp_mono; [exact Hp|].
  intros [a|x] s'; cbn [andthen]; [apply Hf|apply Hx].
Qed.

(** The reply goes out from the pbuf of the request. *)
Lemma send_reply {S} (N : env (unet F) S) Q c p data r addr port pcb u s :
  (forall d s n s', step N (IpRoute d : op (unet F)) s (Some n : ans (unet F) (IpRoute d)) s' -> is_u32 (ip_addr n)) ->
  packet [p] -> payload p = data -> Forall is_u8 data -> is_packet data = true -> has_room p -> is_u32 addr ->
  blocks u !! pcb = Some c -> local_port c <> 0 -> local_ip c = IPADDR_ANY -> Z.land (flags c) UDP_FLAGS_NOCHKSUM = 0 ->
  wp N (let! n := ucall (IpRoute addr) in
    let! _ := match n : option netif with
    | None => stat StatRterr;; let! _ := udp_pbuf_free (written [p] (udp_reply data r)) in Ret tt
    | Some n =>
      let! (_, q) := ucall (IpOutputIf
        [reply_packet p (udp_datagram (ip_addr n) addr (local_port c) port (udp_reply data r))]
        (ip_addr n) addr (ttl c) (tos c) IP_PROTO_UDP n) in
      stat StatXmit;; let! _ := udp_pbuf_free q in Ret tt
    end in Ret u) Q s ->
  wp N (let! (_, q, u) := udp_sendto odd u pcb (written [p] (udp_reply data r)) addr port in
    let! _ := udp_pbuf_free q in Ret u) Q s.
Proof.
  intros Hroute Hpk Hpay H8 Hlen Hroom Ha Hc Hport Hip Hck.
  unfold udp_sendto. intros H. step_in. revert H. cbn [bind ucall trigger]. intros [Hreq H]. split; [exact Hreq|].
  intros [n|] s' Hs; specialize (H _ s' Hs); cbn [bind] in *.
  2: { apply wp_bind in H. revert H. cbn [andthen]. cbn [bind stat ucall trigger]. intros [Hreq' H]. split; [exact Hreq'|].
    intros [] s1 Hs1. specialize (H tt s1 Hs1). cbn [bind] in *. unfold udp_pbuf_free in *. apply wp_bind. apply wp_bind in H.
    eapply wp_mono; [exact H|]. intros [q|x] s2; cbn [andthen]; [intros H2; exact H2|intros H2; exact H2]. }
  cbn [written] in *. set (pw := set_payload p _ _ _) in *.
  assert (flat [pw] = udp_reply data r) as Hfl by (rewrite flat_cons; apply app_nil_r).
  assert (packet [pw]) as Hpw.
  { destruct Hpk as [[[Ht Hlt] _] Hlv]. split.
    2: { apply list.Forall_cons in Hlv as [Hlv _]. apply list.Forall_cons. split; [exact Hlv|constructor]. }
    cbn [wf_chain]. rewrite Hfl, reply_length by done.
    rewrite flat_cons, app_nil_r, Hpay in Ht. cbn [tot_len pw set_payload]. done. }
  assert (tot_len pw <= 16) as Hsmall.
  { destruct Hpw as [[[Ht _] _] _]. rewrite Ht, Hfl, reply_length by done. apply bool_decide_eq_true in Hlen. lia. }
  destruct (@sendto_if_in_place F odd u pcb pw [] addr port n c (ip_addr n)) as (p' & q & -> & Hq & _ & Hqt & Hqh & Hqr & Hql);
    [done|done|done|unfold source_ip; by rewrite Hip|by apply (Hroute _ _ _ _ Hs)|done|done|done|rewrite Hfl; by apply reply_u8|lia|].
  assert (q = reply_packet p (udp_datagram (ip_addr n) addr (local_port c) port (udp_reply data r))) as ->.
  { rewrite flat_cons, app_nil_r, Hfl in Hq. destruct q. cbn in *. by subst. }
  unfold emit. revert H. cbn [bind ucall trigger]. intros [Hreq' H]. split; [exact Hreq'|].
  intros [err q] s1 Hs1. specialize (H (err, q) s1 Hs1). cbn [bind drop_header stat ucall trigger] in *.
  destruct H as [Hreq1 H]. split; [exact Hreq1|]. intros [] s2 Hs2. specialize (H tt s2 Hs2). cbn [bind] in *.
  apply wp_bind. do 2 apply wp_bind in H. eapply wp_mono; [exact H|].
  intros [q'|x] s3; cbn [andthen]; intros H3; exact H3.
Qed.
(** Requests in one pbuf and of a right length are answered, others dropped. *)
Definition serve_request (c : udp_pcb) (p : pbuf) (ps : list pbuf) (data : list Z) (addr port : Z) : prog (unet F) unit :=
  if match ps with [] => is_packet data | _ => false end then answer c p data addr port
  else let! _ := udp_pbuf_free (p :: ps) in Ret tt.

Lemma drop_request {S} (N : env (unet F) S) Q h s :
  wp N (let! _ := (let! _ := udp_pbuf_free (held h) in Ret tt) in Ret (stack h)) Q s ->
  wp N (let! (_, h) := interp_st service_code pbuf_free_packet h in Ret (stack h)) Q s.
Proof.
  intros H. apply (peq_wp _ _ (let! _ := udp_pbuf_free (held h) in Ret (stack h))).
  - cbn [pbuf_free_packet service_udp trigger interp_st service_code]. rewrite !bind_bind.
    apply bind_proper; [reflexivity|]. intros q. reflexivity.
  - eapply peq_wp; [|exact H]. rewrite bind_bind. reflexivity.
Qed.

Lemma handler_serves {S} (N : env (unet F) S) Q u f arg p ps data addr port pcb c s :
  (forall d s n s', step N (IpRoute d : op (unet F)) s (Some n : ans (unet F) (IpRoute d)) s' -> is_u32 (ip_addr n)) ->
  packet (p :: ps) -> flat (p :: ps) = data -> Forall is_u8 data -> has_room p -> is_u32 addr ->
  blocks u !! pcb = Some c -> local_port c <> 0 -> local_ip c = IPADDR_ANY -> Z.land (flags c) UDP_FLAGS_NOCHKSUM = 0 ->
  wp N (serve_request c p ps data addr port;; Ret u) Q s ->
  wp N (server_callback f arg pcb (p :: ps) addr port u) Q s.
Proof.
  intros Hroute Hpk Hf H8 Hroom Ha Hc Hport Hip Hck H. unfold server_callback.
  assert (Forall is_u8 (payload p)) as H8p by (rewrite flat_cons in Hf; subst data; by apply Forall_app in H8 as [? _]).
  set (h0 := Hand u (Some pcb) (p :: ps) addr port). set (nx := match ps with [] => false | _ => true end).
  eapply peq_wp; [apply bind_left, interp_st_peq, callback_serves, H8p|].
  unfold serve_request in H. unfold udp_serve. destruct ps as [|p1 ps].
  2: { cbn [orb nx]. by apply drop_request. }
  rewrite flat_cons, app_nil_r in Hf. cbn [orb nx]. rewrite Hf in *. destruct (is_packet data) eqn:Hlen; cbn [negb].
  2: { by apply drop_request. }
  (* the request is carried out, then answered *)
  assert (interp_st service_code (let! r := udp_execute (E := service) garbage (udp_decode data) in
      let! _ := UdpServer.udp_sendto (udp_reply data r) in pbuf_free_packet) h0 ≈
    (let! r := lower (udp_execute garbage (udp_decode data)) in
     interp_st service_code (let! _ := UdpServer.udp_sendto (udp_reply data r) in pbuf_free_packet) h0)) as Hex.
  { rewrite interp_st_bind. etransitivity.
    { apply bind_left. etransitivity; [apply interp_st_peq, execute_below|apply interp_below]. }
    rewrite bind_bind. apply bind_proper; [reflexivity|]. intros r. reflexivity. }
  eapply peq_wp; [apply bind_left, Hex|].
  unfold answer in H. eapply peq_wp in H; [|symmetry; apply bind_bind]. step_in.
  eapply wp_refine; [| |exact H]; [|done]. intros r s' Hr. clear H.
  eapply peq_wp; [|eapply (send_reply N Q c p data r addr port pcb u s'); try done].
  cbn [UdpServer.udp_sendto service_udp trigger bind interp_st service_code pbuf_free_packet defined].
    unfold h0. cbn [upcb stack held from_addr from_port defined bind]. rewrite !bind_bind. apply bind_proper; [reflexivity|].
    intros [[err q] u']. cbn [bind interp_st service_code with_held held stack]. rewrite !bind_bind.
    apply bind_proper; [reflexivity|]. intros q'. reflexivity.
Qed.
End linking.

(** ** From the first line of the task to the answers *)

Section answers.
Context {F : Sig} {OF : Opb F} {LF : OpbLaws F}.
Context (odd : list pbuf -> nat -> bool) (server garbage : Z).

(** The stack in the state [u] answers requests by the control block [c]: a
    datagram for its port that arrives for this host in pbufs of the interface
    is served, and nothing else is done. *)
Definition answers_requests (u : udp_state) (c : udp_pcb) : Prop :=
  forall S (N : env (unet F) S) Q p ps ip inp src dst sport data s,
    (forall d s n s', step N (IpRoute d : op (unet F)) s (Some n : ans (unet F) (IpRoute d)) s' -> is_u32 (ip_addr n)) ->
    packet (p :: ps) -> pb_type p = PBUF_RAM \/ pb_type p = PBUF_POOL ->
    flat (p :: ps) = ip ++ udp_datagram src dst sport UDP_PORT data ->
    ip_header ip -> (length ip + 8 <= length (payload p))%nat -> ip4_addr_isbroadcast dst inp = false ->
    Forall is_u8 data -> is_u32 src -> is_u32 dst -> 0 < sport < 2 ^ 16 ->
    exists p', behind (length ip + 8) p p' /\
      (wp N (stat StatRecv;; serve_request garbage c p' ps data src sport;; Ret u) Q s ->
       wp N (udp_input odd (server_callback odd server garbage) u (p :: ps) inp src dst) Q s).

Lemma listener_answers u pcb c : ports_ok u -> pcb ∈ udp_pcbs u -> blocks u !! pcb = Some c ->
  local_port c = UDP_PORT -> local_ip c = IPADDR_ANY -> remote_port c = 0 -> flags c = 0 -> recv c = Some server ->
  answers_requests u c.
Proof.
  intros Hok Hin Hc Hport Hip Hrp Hfl Hrecv S N Q p ps ip inp src dst sport data s Hroute Hpk Hty Hf Hhd Hl Hb H8 Hs Hd Hsp.
  destruct (udp_input_delivers odd (server_callback odd server garbage) u p ps inp ip src dst sport UDP_PORT data pcb c server)
    as (p' & -> & Hbe & Hpk' & Hf'); try done.
  - unfold is_u16. lia.
  - split; [done|done|done|by left|by rewrite Hfl|by rewrite Hrp; lia].
  - exists p'. split; [done|]. intros H. eapply wp_refine; [| |exact H]; [|done]. intros [] s' Hs'.
    apply (handler_serves odd server garbage N Q u server (recv_arg c) p' ps data src sport pcb c s'); try done.
    + destruct Hbe as (_ & Hhid & Ht & _). split; [by rewrite Ht|]. rewrite Hhid, length_app, length_take. lia.
    + by rewrite Hport.
    + by rewrite Hfl.
Qed.

Lemma bind_loop_free u pcb ip port l rebind : pcb ∉ l ->
  (forall a, a ∈ l -> exists c, blocks u !! a = Some c /\ local_port c <> port) ->
  @bind_loop F u pcb ip port l rebind = Ret (Some rebind).
Proof.
  induction l as [|a l IH]; intros Hn Hl; [done|]. cbn [bind_loop]. rewrite (proj2 (Z.eqb_neq _ _)) by (intros ->; apply Hn; left).
  destruct (Hl a ltac:(left)) as (c & Hc & Hp). unfold get_pcb. rewrite Hc. cbn [defined bind].
  rewrite (proj2 (Z.eqb_neq _ _)) by done. cbn [andb]. apply IH; [intros H; apply Hn; by right|]. intros b Hb. apply Hl. by right.
Qed.

Lemma server_task_eq u : server_task (F := F) odd server u ≈
  (let! (pcb, u) := udp_new u in
   match pcb with
   | None => Halt Undefined
   | Some a =>
     let! (_, u) := udp_bind u a IPADDR_ANY UDP_PORT in
     let! u := udp_recv u a (Some server) 0 in Ret u
   end).
Proof.
  unfold server_task, vBasicUDPServer. cbn [UdpServer.udp_new service_udp trigger bind interp_st service_code stack].
  rewrite !bind_bind. apply bind_proper; [reflexivity|]. intros [[a|] u1]; cbn [bind negb interp_st]; [|reflexivity].
  cbn [UdpServer.udp_bind service_udp trigger bind interp_st service_code stack upcb defined].
  rewrite !bind_bind. apply bind_proper; [reflexivity|]. intros [err u2].
  cbn [UdpServer.udp_recv vTaskDelete service_udp trigger bind interp_st service_code stack upcb defined with_stack].
  rewrite !bind_bind. apply bind_proper; [reflexivity|]. intros u3. reflexivity.
Qed.

Lemma udp_bind_free u pcb c ip port : blocks u !! pcb = Some c -> pcb ∉ udp_pcbs u -> port <> 0 ->
  (forall a, a ∈ udp_pcbs u -> exists c, blocks u !! a = Some c /\ local_port c <> port) ->
  @udp_bind F u pcb ip port = Ret (ERR_OK,
    UdpState (<[pcb := with_local_port (with_local_ip c ip) port]> (blocks u)) (pcb :: udp_pcbs u)).
Proof.
  intros Hc Hn Hp Hl. unfold udp_bind. rewrite bind_loop_free by done. cbn [bind]. unfold get_pcb. rewrite Hc. cbn [defined bind].
  rewrite (proj2 (Z.eqb_neq _ _)) by done. cbn [bind]. cbn [blocks set_pcb]. rewrite lookup_insert_eq. cbn [defined bind].
  change (0 =? 0) with true. cbv iota. unfold set_list, set_pcb. cbn [blocks udp_pcbs]. by rewrite insert_insert_eq.
Qed.

End answers.

(** An FPGA whose registers all read 0x1234. *)
#[export] Instance constant_opb : Opb hw := {|
  opb_read_byte _ := Ret (0, Some 0x34);
  opb_read_short _ := Ret (0, Some 0x1234);
  opb_read_long _ := Ret (0, Some 0x12341234);
  opb_write_byte _ _ := Ret 0;
  opb_write_short _ _ := Ret 0;
  opb_write_long _ _ := Ret 0
|}.

Lemma constant_opb_laws : @OpbLaws hw constant_opb.
Proof. split; intros a; cbn; intros _; eauto. Qed.


(** ** A run

    A host that has the task running, and a request from 192.168.0.2. *)
Definition sent_datagrams (e : op (unet hw)) (s : list (Z * Z * list Z)) : ans (unet hw) e * list (Z * Z * list Z) :=
  match e as e return unet_ans e * list (Z * Z * list Z) with
  | OnHeap e =>
    match e as e return mem_ans e * list (Z * Z * list Z) with
    | MemMalloc n => (Some (replicate (Z.to_nat n) 0), s)
    | MempMalloc _ => (None, s)
    | ExchangeQueued _ => (false, s)
    | TcpipCallback => (0, s)
    | MempFree _ | MemFree | MemTrim _ => (tt, s)
    end
  | PcbMalloc => (Some 1, s)
  | IpRoute _ => (Some sample_netif, s)
  | IpOutputIf q src dst _ _ _ _ => ((0, q), s ++ [(src, dst, flat q)])
  | Lower e =>
    match e as e return hw_ans e * list (Z * Z * list Z) with
    | Rd _ | Getchar => (0, s)
    | RdBuf _ => ([], s)
    | NotifyWait _ => (false, s)
    | _ => (tt, s)
    end
  | _ => (tt, s)
  end.

Example datagram_run :
  let d := udp_datagram 0x0200a8c0 0x0100a8c0 3000 2000 [1; 9; 0; 0; 0x80; 0; 0; 0x10; 0; 0; 0; 7] in
  @run (unet hw) _ _ sent_datagrams
    (let! u := server_task (F := hw) (fun _ _ => false) 7 (UdpState ∅ []) in
     let! _ := udp_input (fun _ _ => true) (@server_callback hw constant_opb (fun _ _ => false) 7 0) u
       [Pbuf PBUF_POOL [] (sample_ip ++ d) 40 1] sample_netif 0x0200a8c0 0x0100a8c0 in Ret tt) [] =
  (Done tt, [(0x0100a8c0, 0x0200a8c0,
    udp_datagram 0x0100a8c0 0x0200a8c0 2000 3000 [1; 0; 0x12; 0x34; 0x80; 0; 0; 0x10; 0; 0; 0; 7])]).
Proof. vm_compute. reflexivity. Qed.
